(* ===== verification/_CoqProject ===== *)
-Q . S2P
Prelude.v
CString.v
Format.v
Mmu.v
Kalloc.v
Vm.v
PageTable.v
UserVm.v
CopyVm.v
VmSpec.v
ForkVm.v
ImageVm.v
Pipe.v
Block.v
Sleeplock.v
Bio.v
Log.v
LogSpec.v
LogOps.v
Console.v
Buffers.v
LogBuf.v
Fs.v
FsBlocks.v
FsInode.v
FsFile.v
FsRw.v
FsTrunc.v
FsDir.v
FsSpec.v
File.v
FileSpec.v
Syscall.v
Spinlock.v
SleepWake.v
Proc.v
Sched.v
Kernel.v
KernelSpec.v
Exec.v
ExecSpec.v
SysFile.v
Trap.v
Grep.v
Ports.v
Apic.v
Kbd.v
Ide.v
Boot.v
Mp.v
Umalloc.v
User.v
Sh.v
Programs.v
Mkfs.v
X86.v
Gates.v
Entry.v
TrapSpec.v
Start.v
ShRun.v
