(* ===== verification/Prelude.v ===== *)
(** * A verified model of xv6

    This development models xv6 for the x86, in C and assembly under src/: the
    kernel, its drivers, the boot loader and start-up code, the program that
    builds the disk image, and the shell and the other user programs.  It
    proves the properties that the parts rely on.  Pure code is written as
    functions.  Stateful kernel code is written in a small monad over an
    explicit state; code whose point is the interleaving of CPUs or threads is
    written as a step relation; drivers are functions over any device with a
    stated behaviour; user programs are trees of system calls; assembly is a
    list of instructions run on a model of the processor.

    ** The monad of kernel code (this file)

    [M S A] is [ctx -> S -> outcome S A].  The state [S] is the data of the
    component; [ctx] is what belongs to the running kernel thread: the spin
    locks it holds, its pid, its killed flag and the wakeups it has issued.
    The outcomes are [Ok], [Panic] (the kernel's [panic]), [Block] (the thread
    went to sleep on a channel, with the state it leaves) and [NoFuel].
    [acquire] panics on a lock the thread already holds and [release] on one
    it does not hold, as in spinlock.c.  A loop of the source is a structural
    recursion on its counter where it has one, and otherwise on fuel computed
    from the data (the size of the file, the length of the path, the number
    of pages); [NoFuel] is an outcome that no weakest precondition allows, so
    a theorem stated with [wp] includes that the loop ends within its bound.
    Loops that wait for a device or for another processor take their fuel as
    an argument, and the theorems ask that it exceed the bound that the device
    promises ([Ports.Ata], [Apic.Lapic], [Start.Kbc], [Start.responsive]).
    [wp m c s Q] says that [m] returns and its result satisfies [Q]; [blocks]
    and [panics] say that it sleeps or panics.  A routine that sleeps in a
    loop is modelled up to its first sleep; the state it leaves is part of the
    outcome, and the retry is a new call.  [uint] and [int] are integers with
    the wrap-around of C written out ([u8], [u16], [u32], [i16], [i32]).

    ** Files and the code they model

    - Prelude: the monad, its logic, automation, lists and integers.
    - CString: string.c and the string routines of ulib.c on byte memory.
    - Format: printint and cprintf of console.c, printf.c.
    - Mmu: the constants and macros of param.h, memlayout.h and mmu.h.
    - Kalloc: kalloc.c; the free list is threaded through the pages in memory.
    - Vm: vm.c; page directories and tables are words in that memory.
      PageTable, UserVm and CopyVm prove the operations against the abstract
      view of a page directory; VmSpec states the contracts; ForkVm has
      setupkvm and copyuvm, with two address spaces in one memory; ImageVm
      has the memory of one program as a function from addresses to bytes.
    - Pipe: pipe.c on a ring with 32-bit counters.
    - Block: disk blocks as byte lists, little-endian accessors.
    - Sleeplock: sleeplock.c.
    - Bio: bio.c over the memory disk of memide.c, with the sequence of disk
      writes recorded.
    - Log: log.c.  LogSpec: commit, crash and recovery.  LogOps: begin_op,
      log_write and end_op.
    - Console: the screen, the line editor and the reader of console.c.
    - Buffers: the class [BufferCache], what fs.c relies on in bio.c and log.c;
      LogBuf: the instance for Bio and Log.
    - Fs: fs.c over any [BufferCache].  FsBlocks (balloc, bfree), FsInode
      (ilock, iupdate), FsFile and FsRw (bmap, readi, writei), FsTrunc (itrunc,
      iput) and FsDir (dirlookup, dirlink, skipelem) prove its functions;
      FsSpec states the contracts and applies them to an example volume on
      the logged buffer cache.
    - File: file.c and pipealloc.  FileSpec: reading and writing open files.
    - Syscall: the argument fetching of syscall.c.
    - Spinlock: acquire and release of spinlock.c, one memory access per step,
      on any number of CPUs.
    - SleepWake: sleep and wakeup of proc.c, one lock operation per step.
    - Proc: the process table and the critical sections of proc.c.  Sched: the
      machine of CPUs that run them in any order.
    - Kernel: fork, exit, wait, userinit, growproc and sysproc.c on the state
      of the whole kernel.  KernelSpec: fork and growproc.  Exec: exec.c.
      ExecSpec: the argument stack that exec builds.  SysFile: sysfile.c.
      Trap: the dispatcher of syscall.c and trap.c.  TrapSpec: what a whole
      trap keeps of the process table.
    - Ports: the port instructions, and the classes of devices: keyboard
      controller, serial port, ATA disk.  Apic: ioapic.c, lapic.c, picirq.c.
      Kbd: kbd.c, kbd.h, uart.c.  Ide: ide.c.
    - Boot: bootmain.c.  Mp: mp.c.
    - X86: the processor: registers, descriptors, the instructions that the
      assembly uses, interrupts and their return.  Gates: the descriptor
      tables of mmu.h and x86.h, seginit, the task state of switchuvm, tvinit
      and idtinit.  Entry: swtch.S, trapasm.S, the entry points that
      vectors.pl prints, usys.S, initcode.S.  Start: bootasm.S, entry.S,
      entryother.S, asm.h, and startothers, mpenter and mpmain of main.c.
    - Umalloc: umalloc.c.  User: system calls, gets, stat and printf.  Sh and
      ShRun: the parser and the runner of sh.c.  Grep: grep.c.  Programs: the
      other user programs.
    - Mkfs: mkfs.c.

    ** What the theorems show

    - Crash safety (LogSpec): after a crash at any point of [commit], or of
      recovery itself, a reboot leaves all blocks old or all new.
    - Transactions (LogOps): what [begin_op] admits, [log_write] absorbs and
      pins, and [end_op] makes durable.
    - Files (FsSpec, FileSpec): [readi] and [writei] read and write exactly the
      bytes of one file, [filewrite] any number of them in transactions that
      fit the log; [balloc], [iput] and [dirlink] keep the volume well formed;
      path elements are consumed one by one.
    - Memory (Kalloc, VmSpec, ForkVm): no page is lost, shared or handed out
      twice; address spaces grow with zeroed pages or not at all, and are
      copied or not at all, and fail only when pages are short.  Loading
      (ImageVm, ExecSpec): the stack of a new program holds its arguments as
      [main] reads them, above a closed page, and the image below is kept.
    - Processes (Sched, KernelSpec): one CPU per running process, unique pids,
      no zombie whose parent sleeps through its exit; [kill]; [fork] as a
      whole, on success and when slots or memory run out.
    - Traps (TrapSpec): through every system call, interrupt and fault, the
      processes keep frames that return to user mode, free slots hold no open
      file and init stays; the condition on free slots that [fork] asks for.
    - Locks (Spinlock, SleepWake): mutual exclusion and no lost wakeup, for
      every interleaving.
    - Devices (Ide, Kbd, Apic): requests to the disk are served in order, each
      as by the memory disk; text typed on a US keyboard arrives at the reader;
      interrupts are routed and processors started as intended.
    - Pipe, Console, Format, CString: no byte that a call reports as written
      is lost or reordered, line editing, numerals, copying.
    - Arguments of system calls (Syscall): accepted pointers and strings lie
      inside the process.
    - The processor (Gates, Entry): the tables that the kernel fills are read
      back as intended; a trap saves all registers where the kernel looks for
      them and the return restores them; user code reaches the kernel by the
      gate of system calls only; [swtch] comes back as a call returns; a new
      process starts at the registers of its trap frame.
    - Start-up (Boot, Mp, Start): from the BIOS to [bootmain], from the disk
      image to the entry of the kernel, from there to [main], and from the
      first processor to all, each on a stack of its own.
    - User code (Umalloc, Sh, ShRun, Grep, Programs): the allocator keeps
      blocks apart; the shell parses exactly its grammar and connects programs
      as the commands say; the filters read and write what they should.
    - Mkfs: the image holds exactly the files given, in the form that the
      theorems on fs.c ask for.

    Some theorems record behaviour that is not intended: [kill(0)] marks a
    free slot ([Sched.kill_zero_poisons]), linking a directory's own name
    deadlocks ([FsSpec.dirlink_self_deadlock]), the log is one block short of
    what [begin_op] admits ([LogOps.log_one_block_short]), the user-level
    memmove differs from the kernel's on some overlaps
    ([CString.ulib_memmove_overlap_differs]), shrinking a process to nothing
    is reported as a failure ([KernelSpec.growproc_correct]), a failed disk
    read is not noticed ([Ide.ideintr_failed_read]), grep can lose the
    beginning of a line ([Grep.grep_drops_partial]), malloc wraps around
    ([Umalloc.malloc_wraps]), mkfs can leave a hole in the root directory
    ([Mkfs.mkfs_root_hole]) and mpinit can loop forever ([Mp.mpinit_hangs]).

    ** Scope

    The theorems about one component hold for a thread that runs through it
    without interference inside its critical sections; interleavings are the
    subject of Pipe.pipe_fifo, Ide.ide_linearizable, Sched, Spinlock and
    SleepWake.  File, Kernel, Exec, SysFile and Trap are executable
    definitions of the upper layers, composed from the verified parts; the
    theorem on exec.c is about its argument stack, the loading of segments and
    the commit to the new image are executable definitions that TrapSpec
    covers only as far as the process table goes.  The device switch, the
    interrupt handlers of devices, which TrapSpec takes to do no more to
    processes than wake them, the addresses that the linker assigns and the
    images it includes are parameters.  In X86, memory
    is addressed as the running code addresses it; where translation is the
    point, in Start, it is written out.

    Not modelled: usertests.c, a test suite that is run on the booted system
    and judged by what it prints; the order of the calls in main(), whose
    routines are modelled with their components; initlock and the other
    routines that only name a lock; getcallerpcs and procdump, which read
    memory to print it; and the header files of declarations. *)
From Stdlib Require Export ZArith Lia.
From stdpp Require Export base gmap strings numbers list.

(** * Notation scope and automation of the development *)

Declare Scope xv6_scope.
Delimit Scope xv6_scope with xv6.
#[global] Open Scope Z_scope.
#[global] Open Scope xv6_scope.

Create HintDb xv6 discriminated.
Create HintDb xv6_lists.
(** Wrappers that symbolic execution unfolds. *)
Create HintDb wp_unfold.

(** * Machine integers

    [uint], [int], [ushort], [short] and [uchar] values are integers; the
    wrap-around of C arithmetic is written out with these functions. *)

Definition u8 (x : Z) : Z := x mod 256.
Definition u16 (x : Z) : Z := x mod 65536.
Definition u32 (x : Z) : Z := x mod 4294967296.
Definition i16 (x : Z) : Z := (x + 32768) mod 65536 - 32768.
Definition i32 (x : Z) : Z := (x + 2147483648) mod 4294967296 - 2147483648.

Definition is_u8 (x : Z) : Prop := 0 <= x < 256.
Definition is_u32 (x : Z) : Prop := 0 <= x < 4294967296.
Definition is_i32 (x : Z) : Prop := -2147483648 <= x < 2147483648.

#[export] Instance is_u8_dec x : Decision (is_u8 x).
Proof. unfold is_u8. apply _. Defined.
#[export] Instance is_u32_dec x : Decision (is_u32 x).
Proof. unfold is_u32. apply _. Defined.
#[export] Instance is_i32_dec x : Decision (is_i32 x).
Proof. unfold is_i32. apply _. Defined.

(** Linear arithmetic modulo the wrap-around functions. *)
Ltac wrap_lia :=
  unfold u8, u16, u32, i16, i32, is_u8, is_u32, is_i32 in *;
  try lia; Z.div_mod_to_equations; lia.

Lemma u32_small x : is_u32 x -> u32 x = x.
Proof. wrap_lia. Qed.
Lemma u32_range x : is_u32 (u32 x).
Proof. wrap_lia. Qed.
Lemma u32_idem x : u32 (u32 x) = u32 x.
Proof. wrap_lia. Qed.
Lemma i32_small x : is_i32 x -> i32 x = x.
Proof. wrap_lia. Qed.
Lemma u8_range x : is_u8 (u8 x).
Proof. wrap_lia. Qed.
Lemma u32_i32 x : u32 (i32 x) = u32 x.
Proof. wrap_lia. Qed.

#[export] Hint Resolve u32_range u8_range : xv6.

(** * The kernel thread context

    A kernel routine runs on behalf of one thread.  What it can observe of
    the rest of the machine is its context: the spin locks it holds, its
    process id, its [killed] flag, and the wake-ups it has issued.

    [lockid] names the spin locks of the source, [chan] the addresses used
    as sleep channels. *)

Inductive lockid :=
| Lptable | Lkmem | Lbcache | Lftable | Licache | Llog | Lcons | Lide | Lticks
| Lpipe (p : Z)
| Lbuf (i : nat)          (* the spin lock inside [bcache.buf[i].lock] *)
| Linode (i : nat).       (* the spin lock inside [icache.inode[i].lock] *)

Inductive chan :=
| ChProc (i : nat)        (* [&ptable.proc[i]] *)
| ChTicks                 (* [&ticks] *)
| ChInput                 (* [&input.r] *)
| ChLog                   (* [&log] *)
| ChPipeR (p : Z)         (* [&p->nread] *)
| ChPipeW (p : Z)         (* [&p->nwrite] *)
| ChBuf (i : nat)         (* [&bcache.buf[i]] *)
| ChBufLock (i : nat)     (* [&bcache.buf[i].lock] *)
| ChInodeLock (i : nat).  (* [&icache.inode[i].lock] *)

#[export] Instance lockid_eq_dec : EqDecision lockid.
Proof. solve_decision. Defined.
#[export] Instance chan_eq_dec : EqDecision chan.
Proof. solve_decision. Defined.

Record ctx := Ctx {
  held : list lockid;      (* spin locks held, most recent first *)
  mypid : Z;               (* [myproc()->pid] *)
  mykilled : bool;         (* [myproc()->killed] *)
  woken : list chan        (* [wakeup] calls issued, oldest first *)
}.

Definition set_held (h : list lockid) (c : ctx) : ctx :=
  Ctx h (mypid c) (mykilled c) (woken c).
Definition add_woken (ch : chan) (c : ctx) : ctx :=
  Ctx (held c) (mypid c) (mykilled c) (woken c ++ [ch]).

(** The same thread with the same locks; it may have issued wake-ups. *)
Record same_thread (c c' : ctx) : Prop := {
  st_held : held c' = held c;
  st_pid : mypid c' = mypid c;
  st_killed : mykilled c' = mykilled c
}.

Lemma same_thread_refl c : same_thread c c.
Proof. done. Qed.
Lemma same_thread_trans c1 c2 c3 : same_thread c1 c2 -> same_thread c2 c3 -> same_thread c1 c3.
Proof. intros [? ? ?] [? ? ?]. constructor; congruence. Qed.
Lemma same_thread_woken ch c : same_thread c (add_woken ch c).
Proof. by destruct c. Qed.
#[export] Hint Resolve same_thread_refl same_thread_woken : xv6.

(** The context of a fresh thread, used in examples. *)
Definition ctx0 : ctx := Ctx [] 1 false [].

(** * The state-and-error monad of kernel code

    [Panic] is a call of [panic()]; [Block] is a thread that went to sleep
    on a channel; [NoFuel] marks a loop bound that was too small (shown
    unreachable where a loop has no structural bound). *)

Inductive outcome (S A : Type) :=
| Ok (a : A) (c : ctx) (s : S)
| Panic (msg : string)
| Block (ch : chan) (c : ctx) (s : S)
| NoFuel.
Arguments Ok {S A} a c s.
Arguments Panic {S A} msg.
Arguments Block {S A} ch c s.
Arguments NoFuel {S A}.

Definition M (S A : Type) : Type := ctx -> S -> outcome S A.

Definition obind {S T A B} (o : outcome S A) (k : A -> ctx -> S -> outcome T B)
    (blk : chan -> ctx -> S -> outcome T B) : outcome T B :=
  match o with
  | Ok a c s => k a c s
  | Panic m => Panic m
  | Block ch c s => blk ch c s
  | NoFuel => NoFuel
  end.

#[export] Instance M_ret {S} : MRet (M S) := fun A a c s => Ok a c s.
#[export] Instance M_bind {S} : MBind (M S) := fun A B k m c s =>
  obind (m c s) k (fun ch c' s' => Block ch c' s').

Definition panic {S A} (msg : string) : M S A := fun _ _ => Panic msg.
Definition gets {S A} (f : S -> A) : M S A := fun c s => Ok (f s) c s.
Definition modify {S} (f : S -> S) : M S unit := fun c s => Ok tt c (f s).
Definition getctx {S A} (f : ctx -> A) : M S A := fun c s => Ok (f c) c s.
Definition when {S} (b : bool) (m : M S unit) : M S unit :=
  if b then m else mret tt.

(** [zoom] runs an operation of a component on the part of a larger state
    that holds the component. *)
Definition zoom {S T A} (view : S -> T) (upd : T -> S -> S) (m : M T A) : M S A :=
  fun c s => obind (m c (view s)) (fun a c' t => Ok a c' (upd t s))
                   (fun ch c' t => Block ch c' (upd t s)).

(** ** Spin locks and sleep as seen by one thread

    A thread that acquires a lock it already holds panics in [acquire]; a
    lock held by another CPU is waited for, which the thread does not see.
    The multi-CPU behaviour is the subject of the spin-lock component. *)

Fixpoint remove_lock (l : lockid) (h : list lockid) : list lockid :=
  match h with
  | [] => []
  | x :: h' => if decide (x = l) then h' else x :: remove_lock l h'
  end.

Definition acquire {S} (l : lockid) : M S unit := fun c s =>
  if decide (l ∈ held c) then Panic "acquire"
  else Ok tt (set_held (l :: held c) c) s.

Definition release {S} (l : lockid) : M S unit := fun c s =>
  if decide (l ∈ held c) then Ok tt (set_held (remove_lock l (held c)) c) s
  else Panic "release".

(** [wakeup] of proc.c, as its callers see it: it takes [ptable.lock] and
    wakes the sleepers of the channel. *)
Definition wakeup {S} (ch : chan) : M S unit :=
  acquire Lptable;; (fun c s => Ok tt (add_woken ch c) s);; release Lptable.

(** The tail of [sleep]: the checks of [sched], then the switch. *)
Definition sched_out {S A} (ch : chan) : M S A := fun c s =>
  if decide (Lptable ∈ held c)
  then if decide (held c = [Lptable]) then Block ch c s else Panic "sched locks"
  else Panic "sched ptable.lock".

(** [sleep] of proc.c, as its callers see it: [ptable.lock] is taken, the
    caller's lock released, and [sched] panics unless [ptable.lock] is then
    the only spin lock held. *)
Definition sleep {S A} (ch : chan) (lk : lockid) : M S A :=
  (if decide (lk = Lptable) then mret tt else acquire Lptable;; release lk);;
  sched_out ch.

(** * Total correctness

    [wp m c s Q]: run from context [c] and state [s], [m] returns (no panic,
    no sleep, enough fuel) and the result satisfies [Q]. *)

Definition wp {S A} (m : M S A) (c : ctx) (s : S) (Q : A -> ctx -> S -> Prop) : Prop :=
  match m c s with Ok a c' s' => Q a c' s' | _ => False end.

Section wp_rules.
Context {S : Type}.

Lemma wp_ret {A} (a : A) c (s : S) Q : Q a c s -> wp (mret a) c s Q.
Proof. done. Qed.

Lemma wp_bind {A B} (m : M S A) (k : A -> M S B) c s Q :
  wp m c s (fun a c' s' => wp (k a) c' s' Q) -> wp (m ≫= k) c s Q.
Proof. unfold wp, mbind, M_bind, obind. by destruct (m c s). Qed.

Lemma wp_bind_inv {A B} (m : M S A) (k : A -> M S B) c s Q :
  wp (m ≫= k) c s Q -> wp m c s (fun a c' s' => wp (k a) c' s' Q).
Proof. unfold wp, mbind, M_bind, obind. by destruct (m c s). Qed.

Lemma wp_mono {A} (m : M S A) c s (Q Q' : A -> ctx -> S -> Prop) :
  (forall a c' s', Q a c' s' -> Q' a c' s') -> wp m c s Q -> wp m c s Q'.
Proof. unfold wp. destruct (m c s); naive_solver. Qed.

Lemma wp_gets {A} (f : S -> A) c s Q : Q (f s) c s -> wp (gets f) c s Q.
Proof. done. Qed.

Lemma wp_modify (f : S -> S) c s Q : Q tt c (f s) -> wp (modify f) c s Q.
Proof. done. Qed.

Lemma wp_getctx {A} (f : ctx -> A) c (s : S) Q : Q (f c) c s -> wp (getctx f) c s Q.
Proof. done. Qed.

Lemma wp_when (b : bool) (m : M S unit) c (s : S) (Q : unit -> ctx -> S -> Prop) :
  (b = true -> wp m c s Q) -> (b = false -> Q tt c s) -> wp (when b m) c s Q.
Proof. destruct b; naive_solver. Qed.

Lemma wp_acquire l c (s : S) Q :
  l ∉ held c -> Q tt (set_held (l :: held c) c) s -> wp (acquire l) c s Q.
Proof. intros Hl HQ. unfold wp, acquire. by rewrite decide_False. Qed.

Lemma wp_release l c (s : S) Q :
  l ∈ held c -> Q tt (set_held (remove_lock l (held c)) c) s -> wp (release l) c s Q.
Proof. intros Hl HQ. unfold wp, release. by rewrite decide_True. Qed.

Lemma remove_lock_head l h : remove_lock l (l :: h) = h.
Proof. simpl. by rewrite decide_True. Qed.

(** A release directly undoes the matching acquire. *)
Lemma wp_release_head l h c (s : S) Q :
  held c = l :: h -> Q tt (set_held h c) s -> wp (release l) c s Q.
Proof.
  intros Hh HQ. apply wp_release; rewrite Hh; [set_solver|].
  by rewrite remove_lock_head.
Qed.

Lemma wp_wakeup ch c (s : S) Q :
  Lptable ∉ held c -> Q tt (add_woken ch c) s -> wp (wakeup ch) c s Q.
Proof.
  intros Hn HQ. destruct c. unfold wakeup. apply wp_bind, wp_acquire; [done|].
  apply wp_bind. apply wp_release_head with held0; [done|]. exact HQ.
Qed.

Lemma wp_zoom {T A} (view : T -> S) upd (m : M S A) c t Q :
  wp m c (view t) (fun a c' s' => Q a c' (upd s' t)) -> wp (zoom view upd m) c t Q.
Proof. unfold wp, zoom, obind. by destruct (m c (view t)). Qed.

Lemma wp_run {A} (m : M S A) c s a c' s' (Q : A -> ctx -> S -> Prop) :
  m c s = Ok a c' s' -> Q a c' s' -> wp m c s Q.
Proof. unfold wp. by intros ->. Qed.

Lemma wp_ok {A} (m : M S A) c s (Q : A -> ctx -> S -> Prop) :
  wp m c s Q -> exists a c' s', m c s = Ok a c' s' /\ Q a c' s'.
Proof. unfold wp. destruct (m c s); naive_solver. Qed.
End wp_rules.

(** [blocks m c s Q]: [m] goes to sleep, in a situation that satisfies [Q]. *)
Definition blocks {S A} (m : M S A) (c : ctx) (s : S) (Q : chan -> ctx -> S -> Prop) : Prop :=
  match m c s with Block ch c' s' => Q ch c' s' | _ => False end.

Section blocks_rules.
Context {S : Type}.

Lemma blocks_bind {A B} (m : M S A) (k : A -> M S B) c s Q :
  wp m c s (fun a c' s' => blocks (k a) c' s' Q) -> blocks (m ≫= k) c s Q.
Proof. unfold wp, blocks, mbind, M_bind, obind. by destruct (m c s). Qed.

Lemma blocks_bind_l {A B} (m : M S A) (k : A -> M S B) c s Q :
  blocks m c s Q -> blocks (m ≫= k) c s Q.
Proof. unfold blocks, mbind, M_bind, obind. by destruct (m c s). Qed.

(** [sleep] with exactly the lock it gives up held. *)
Lemma blocks_sleep {A} ch lk c (s : S) Q : held c = [lk] ->
  Q ch (set_held [Lptable] c) s -> blocks (sleep (A := A) ch lk) c s Q.
Proof.
  intros Hc HQ. destruct c as [h p k w]. simpl in Hc. subst h. unfold sleep.
  destruct (decide (lk = Lptable)) as [->|Hne]; apply blocks_bind.
  - done.
  - apply wp_bind, wp_acquire; [set_solver|]. apply wp_release; [set_solver|].
    cbn. rewrite (decide_False (P := Lptable = lk)) by done. by rewrite decide_True.
Qed.
End blocks_rules.

(** [panics m c s msg]: [m] ends in [panic(msg)]. *)
Definition panics {S A} (m : M S A) (c : ctx) (s : S) (msg : string) : Prop :=
  m c s = Panic msg.

Lemma panics_bind {S A B} (m : M S A) (k : A -> M S B) c s msg :
  wp m c s (fun a c' s' => panics (k a) c' s' msg) -> panics (m ≫= k) c s msg.
Proof. unfold wp, panics, mbind, M_bind, obind. by destruct (m c s). Qed.

Lemma panics_bind_l {S A B} (m : M S A) (k : A -> M S B) c s msg :
  panics m c s msg -> panics (m ≫= k) c s msg.
Proof. unfold panics, mbind, M_bind, obind. by intros ->. Qed.

Lemma set_held_id c : set_held (held c) c = c.
Proof. by destruct c. Qed.

(** One step of symbolic execution of a monadic body. *)
Ltac wp_step1 :=
  lazymatch goal with
  | |- wp (mbind _ _) _ _ _ => apply wp_bind
  | |- wp (mret _) _ _ _ => apply wp_ret
  | |- wp (gets _) _ _ _ => apply wp_gets
  | |- wp (modify _) _ _ _ => apply wp_modify
  | |- wp (getctx _) _ _ _ => apply wp_getctx
  | |- wp (when ?b _) _ _ _ => apply wp_when; intros ?
  | |- wp (acquire _) _ _ _ => apply wp_acquire; [try (cbn; set_solver)|]
  | |- wp (release _) _ _ _ => eapply wp_release_head; [reflexivity|]
  | |- wp (wakeup _) _ _ _ => apply wp_wakeup; [try (cbn; set_solver)|]
  | |- wp (zoom _ _ _) _ _ _ => apply wp_zoom
  | |- wp _ _ _ _ => progress (autounfold with wp_unfold); wp_step1
  end.
Ltac wp_step := wp_step1; cbn beta.
Ltac wp_steps := repeat wp_step.

(** * Generic automation *)

(** Decide a closed proposition by evaluation. *)
Ltac by_decide := refine (bool_decide_unpack _ _); vm_compute; exact I.

(** Case analysis on the integer tests of the goal and the hypotheses. *)
Ltac zcase1 :=
  match goal with
  | |- context [?a =? ?b] => destruct (Z.eqb_spec a b)
  | |- context [?a <? ?b] => destruct (Z.ltb_spec a b)
  | |- context [?a <=? ?b] => destruct (Z.leb_spec a b)
  | |- context [?a >? ?b] => rewrite (Z.gtb_ltb a b)
  | |- context [?a >=? ?b] => rewrite (Z.geb_leb a b)
  | H : context [?a =? ?b] |- _ => destruct (Z.eqb_spec a b)
  | H : context [?a <? ?b] |- _ => destruct (Z.ltb_spec a b)
  | H : context [?a <=? ?b] |- _ => destruct (Z.leb_spec a b)
  | H : context [?a >? ?b] |- _ => rewrite (Z.gtb_ltb a b) in H
  | H : context [?a >=? ?b] |- _ => rewrite (Z.geb_leb a b) in H
  end.
Ltac zcases := repeat (zcase1; cbn [andb orb negb] in *; try lia).

(** * Bit operations as arithmetic *)

Lemma land_disjoint n x y : 0 <= n -> x mod 2 ^ n = 0 -> 0 <= y < 2 ^ n -> Z.land x y = 0.
Proof.
  intros Hn Hx Hy. apply Z.bits_inj'. intros i Hi. rewrite Z.land_spec, Z.bits_0.
  destruct (Z.lt_ge_cases i n).
  - replace (Z.testbit x i) with false; [done|].
    rewrite <- (Z.mod_pow2_bits_low x n i) by lia. by rewrite Hx, Z.bits_0.
  - replace (Z.testbit y i) with false; [by rewrite andb_comm|].
    rewrite <- (Z.mod_small y (2 ^ n)) by lia. by rewrite Z.mod_pow2_bits_high by lia.
Qed.

(** The bitwise or of an aligned value and a small one is their sum. *)
Lemma lor_aligned n x y : 0 <= n -> x mod 2 ^ n = 0 -> 0 <= y < 2 ^ n -> Z.lor x y = x + y.
Proof. intros. symmetry. apply Z.add_nocarry_lor. by apply land_disjoint with n. Qed.

Lemma land_1 w : Z.land w 1 = w mod 2.
Proof. change 1 with (Z.ones 1). by rewrite Z.land_ones by lia. Qed.

Lemma lor_1 f : Z.lor f 1 = 2 * (f / 2) + 1.
Proof.
  rewrite (Z.div_mod f 2) at 1 by lia.
  rewrite <- (lor_aligned 1 (2 * (f / 2)) (f mod 2)) by
    (change (2 ^ 1) with 2; wrap_lia).
  rewrite <- Z.lor_assoc.
  replace (Z.lor (f mod 2) 1) with 1.
  - apply (lor_aligned 1); change (2 ^ 1) with 2; wrap_lia.
  - assert (f mod 2 = 0 \/ f mod 2 = 1) as [-> | ->] by wrap_lia; done.
Qed.

(** * Lists *)

Lemma elem_of_take_incl {A} (x : A) n l : x ∈ take n l -> x ∈ l.
Proof. rewrite <- (take_drop n l) at 2. set_solver. Qed.

Lemma list_filter_iff_in {A} (P Q : A -> Prop) `{!forall x, Decision (P x)} `{!forall x, Decision (Q x)}
    (l : list A) : (forall x, x ∈ l -> P x <-> Q x) -> filter P l = filter Q l.
Proof.
  induction l as [|x l IH]; intros Hiff; [done|]. rewrite !filter_cons.
  rewrite IH by (intros y Hy; apply Hiff; by constructor).
  assert (Hx := Hiff x ltac:(constructor)). repeat case_decide; tauto.
Qed.

Section omap_lemmas.
Context {A B : Type}.
Implicit Types (f g : A -> option B) (l : list A).

Lemma omap_ext_in f g l : (forall x, x ∈ l -> f x = g x) -> omap f l = omap g l.
Proof.
  induction l as [|x l IH]; intros H; [done|]. cbn.
  rewrite (H x) by constructor. rewrite IH; [done|]. intros. apply H. by constructor.
Qed.

(** A partial map whose image has no duplicates is injective. *)
Lemma omap_NoDup_inj f l i j b : NoDup (omap f l) -> i ∈ l -> j ∈ l ->
  f i = Some b -> f j = Some b -> i = j.
Proof.
  induction l as [|x l IH]; intros Hn Hi Hj Ei Ej; [by apply not_elem_of_nil in Hi|].
  assert (forall k, k ∈ l -> f k = Some b -> b ∈ omap f l) as Hin
    by (intros; apply list_elem_of_omap; eauto).
  assert (f x = Some b -> b ∉ omap f l) as Hx.
  { intros E. cbn in Hn. rewrite E in Hn. by apply NoDup_cons in Hn as [? _]. }
  assert (NoDup (omap f l)) as Hn'.
  { cbn in Hn. destruct (f x); [by apply NoDup_cons in Hn as [_ ?]|done]. }
  apply elem_of_cons in Hi as [->|Hi], Hj as [->|Hj]; [done| | |by apply IH].
  - destruct (Hx Ei). by apply (Hin j).
  - destruct (Hx Ej). by apply (Hin i).
Qed.

(** Defining a partial map at one more point. *)
Lemma omap_add f g l i b : NoDup l -> i ∈ l -> f i = None -> g i = Some b ->
  (forall j, j ∈ l -> j <> i -> g j = f j) -> omap g l ≡ₚ b :: omap f l.
Proof.
  induction l as [|x l IH]; intros Hn Hi Ef Eg Hj; [by apply not_elem_of_nil in Hi|].
  apply NoDup_cons in Hn as [Hx Hn]. apply elem_of_cons in Hi as [->|Hi].
  - cbn. rewrite Ef, Eg. f_equiv. apply Permutation_refl', omap_ext_in.
    intros j Hin. apply Hj; [by constructor|congruence].
  - cbn. assert (x <> i) as Hne by congruence. rewrite (Hj x) by (constructor || done).
    assert (omap g l ≡ₚ b :: omap f l) as IH'
      by (apply IH; try done; intros; apply Hj; [by constructor|done]).
    destruct (f x); rewrite IH'; [apply perm_swap|done].
Qed.
End omap_lemmas.

(** Ceiling division by the page size, used for page counts. *)
Definition npages (n : Z) : Z := (n + 4095) / 4096.
