(* ===== verification/CString.v ===== *)
(** * C memory and the string routines (string.c, the string part of ulib.c)

    Memory is a function from byte addresses to byte values.  Each loop of
    the source is a recursion over its counter (or over fuel where it runs
    until a NUL); the theorems equate the loops with pointwise descriptions
    of the memory they leave. *)
From S2P Require Import Prelude.

Definition mem : Type := Z -> Z.

Definition store8 (m : mem) (a v : Z) : mem := fun x => if x =? a then u8 v else m x.
Definition store16 (m : mem) (a v : Z) : mem := store8 (store8 m a v) (a + 1) (v / 256).

(** A 32-bit little-endian store and load. *)
Definition store32 (m : mem) (a v : Z) : mem := fun x =>
  if (a <=? x) && (x <? a + 4) then u8 (Z.shiftr v (8 * (x - a))) else m x.

Definition load32 (m : mem) (a : Z) : Z :=
  m a + 256 * m (a + 1) + 65536 * m (a + 2) + 16777216 * m (a + 3).

(** Every cell of memory holds a byte. *)
Definition mem_wf (m : mem) : Prop := forall x, is_u8 (m x).

(** The value of a [char], which is signed on the target. *)
Definition schar (b : Z) : Z := if b <? 128 then b else b - 256.

(** ** string.c *)

(** [rep stosb] and [rep stosl] (x86.h); the address register wraps around. *)
Fixpoint stosb (m : mem) (addr data : Z) (cnt : nat) : mem :=
  match cnt with
  | O => m
  | S cnt' => stosb (store8 m addr data) (u32 (addr + 1)) data cnt'
  end.

Fixpoint stosl (m : mem) (addr data : Z) (cnt : nat) : mem :=
  match cnt with
  | O => m
  | S cnt' => stosl (store32 m addr data) (u32 (addr + 4)) data cnt'
  end.

Definition memset (m : mem) (dst c n : Z) : mem :=
  if (dst mod 4 =? 0) && (n mod 4 =? 0) then
    let c := Z.land c 255 in
    stosl m dst
      (Z.lor (Z.lor (Z.lor (Z.shiftl c 24) (Z.shiftl c 16)) (Z.shiftl c 8)) c)
      (Z.to_nat (n / 4))
  else stosb m dst c (Z.to_nat n).

Fixpoint memcmp (m : mem) (s1 s2 : Z) (n : nat) : Z :=
  match n with
  | O => 0
  | S n' => if m s1 =? m s2 then memcmp m (s1 + 1) (s2 + 1) n' else m s1 - m s2
  end.

(** The two copy loops of [memmove]. *)
Fixpoint copy_down (m : mem) (d s : Z) (n : nat) : mem :=
  match n with
  | O => m
  | S n' => copy_down (store8 m (d - 1) (m (s - 1))) (d - 1) (s - 1) n'
  end.

Fixpoint copy_up (m : mem) (d s : Z) (n : nat) : mem :=
  match n with
  | O => m
  | S n' => copy_up (store8 m d (m s)) (d + 1) (s + 1) n'
  end.

Definition memmove (m : mem) (dst src n : Z) : mem :=
  if (src <? dst) && (src + n >? dst) then copy_down m (dst + n) (src + n) (Z.to_nat n)
  else copy_up m dst src (Z.to_nat n).

Definition memcpy (m : mem) (dst src n : Z) : mem := memmove m dst src n.

Fixpoint strncmp (m : mem) (p q : Z) (n : nat) : Z :=
  match n with
  | O => 0
  | S n' => if negb (m p =? 0) && (m p =? m q) then strncmp m (p + 1) (q + 1) n'
            else m p - m q
  end.

(** [strncpy]: the second loop pads with NULs. *)
Fixpoint pad0 (m : mem) (s : Z) (n : nat) : mem :=
  match n with
  | O => m
  | S n' => pad0 (store8 m s 0) (s + 1) n'
  end.

Fixpoint strncpy (m : mem) (s t : Z) (n : nat) : mem :=
  match n with
  | O => m
  | S n' => let m' := store8 m s (m t) in
            if m t =? 0 then pad0 m' (s + 1) n' else strncpy m' (s + 1) (t + 1) n'
  end.

(** [safestrcpy]: [k] is the counter after the [--n] of the loop test. *)
Fixpoint safestrcpy_loop (m : mem) (s t : Z) (k : nat) : mem :=
  match k with
  | O => store8 m s 0
  | S k' => let m' := store8 m s (m t) in
            if m t =? 0 then store8 m' (s + 1) 0
            else safestrcpy_loop m' (s + 1) (t + 1) k'
  end.

Definition safestrcpy (m : mem) (s t n : Z) : mem :=
  if n <=? 0 then m else safestrcpy_loop m s t (Z.to_nat (n - 1)).

Fixpoint strlen_from (fuel : nat) (m : mem) (s n : Z) : option Z :=
  match fuel with
  | O => None
  | S f => if m (s + n) =? 0 then Some n else strlen_from f m s (n + 1)
  end.

Definition strlen (fuel : nat) (m : mem) (s : Z) : option Z := strlen_from fuel m s 0.

(** ** ulib.c *)

Module Ulib.

Fixpoint strcpy (fuel : nat) (m : mem) (s t : Z) : option mem :=
  match fuel with
  | O => None
  | S f => let m' := store8 m s (m t) in
           if m t =? 0 then Some m' else strcpy f m' (s + 1) (t + 1)
  end.

Fixpoint strcmp (fuel : nat) (m : mem) (p q : Z) : option Z :=
  match fuel with
  | O => None
  | S f => if negb (m p =? 0) && (m p =? m q) then strcmp f m (p + 1) (q + 1)
           else Some (m p - m q)
  end.

Definition memset (m : mem) (dst c n : Z) : mem := stosb m dst c (Z.to_nat n).

(** The address found, or 0. *)
Fixpoint strchr (fuel : nat) (m : mem) (s c : Z) : option Z :=
  match fuel with
  | O => None
  | S f => if m s =? 0 then Some 0
           else if m s =? u8 c then Some s else strchr f m (s + 1) c
  end.

Fixpoint atoi_loop (fuel : nat) (m : mem) (s n : Z) : option Z :=
  match fuel with
  | O => None
  | S f => if (48 <=? schar (m s)) && (schar (m s) <=? 57)
           then atoi_loop f m (s + 1) (i32 (n * 10 + schar (m s) - 48))
           else Some n
  end.

Definition atoi (fuel : nat) (m : mem) (s : Z) : option Z := atoi_loop fuel m s 0.

(** The user-level [memmove] only copies upwards. *)
Definition memmove (m : mem) (vdst vsrc n : Z) : mem :=
  copy_up m vdst vsrc (Z.to_nat n).

End Ulib.

(** * Correctness *)

Definition in_range (a n x : Z) : bool := (a <=? x) && (x <? a + n).

Lemma store8_wf m a v : mem_wf m -> mem_wf (store8 m a v).
Proof. intros Hm x. unfold store8. case_match; auto with xv6. Qed.

Lemma u8_byte m x : mem_wf m -> u8 (m x) = m x.
Proof. intros Hm. specialize (Hm x). wrap_lia. Qed.

Lemma store32_wf m a v : mem_wf m -> mem_wf (store32 m a v).
Proof. intros Hm x. unfold store32. case_match; auto with xv6. Qed.

#[export] Hint Resolve store8_wf store32_wf : xv6.

Lemma store32_out m a v x : ~ a <= x < a + 4 -> store32 m a v x = m x.
Proof. intros H. unfold store32. zcases; done. Qed.

Lemma load32_store32 m a v : is_u32 v -> load32 (store32 m a v) a = v.
Proof.
  intros Hv. unfold load32, store32.
  replace ((a <=? a) && (a <? a + 4)) with true by lia.
  replace ((a <=? a + 1) && (a + 1 <? a + 4)) with true by lia.
  replace ((a <=? a + 2) && (a + 2 <? a + 4)) with true by lia.
  replace ((a <=? a + 3) && (a + 3 <? a + 4)) with true by lia.
  replace (8 * (a - a)) with 0 by lia. replace (8 * (a + 1 - a)) with 8 by lia.
  replace (8 * (a + 2 - a)) with 16 by lia. replace (8 * (a + 3 - a)) with 24 by lia.
  rewrite !Z.shiftr_div_pow2 by lia. change (2 ^ 0) with 1. change (2 ^ 8) with 256.
  change (2 ^ 16) with 65536. change (2 ^ 24) with 16777216. wrap_lia.
Qed.

Lemma load32_store32_ne m a b v : a + 4 <= b \/ b + 4 <= a ->
  load32 (store32 m a v) b = load32 m b.
Proof.
  intros Hd. unfold load32, store32.
  replace ((a <=? b) && (b <? a + 4)) with false by lia.
  replace ((a <=? b + 1) && (b + 1 <? a + 4)) with false by lia.
  replace ((a <=? b + 2) && (b + 2 <? a + 4)) with false by lia.
  replace ((a <=? b + 3) && (b + 3 <? a + 4)) with false by lia. done.
Qed.

(** A word is read back whatever the rest of memory is. *)
Lemma load32_ext m m' a :
  (forall x, a <= x < a + 4 -> m x = m' x) -> load32 m a = load32 m' a.
Proof. intros H. unfold load32. by rewrite !H by lia. Qed.

Lemma load32_range m a : mem_wf m -> is_u32 (load32 m a).
Proof.
  intros Hm. unfold load32.
  pose proof (Hm a). pose proof (Hm (a + 1)). pose proof (Hm (a + 2)).
  pose proof (Hm (a + 3)). wrap_lia.
Qed.

Lemma stosb_spec n m d c x : 0 <= d -> d + Z.of_nat n <= 4294967296 ->
  stosb m d c n x = if in_range d (Z.of_nat n) x then u8 c else m x.
Proof.
  revert m d. induction n as [|n IH]; intros m d H0 H1; cbn [stosb].
  - unfold in_range. by zcases.
  - destruct n as [|n]; [cbn [stosb]; unfold in_range, store8; zcases; done|].
    rewrite u32_small by (unfold is_u32; lia). rewrite IH by lia. unfold in_range, store8. zcases; done.
Qed.
Lemma stosb_wf n m d c : mem_wf m -> mem_wf (stosb m d c n).
Proof. revert m d. induction n as [|n IH]; intros m d Hm; cbn [stosb]; auto with xv6. Qed.

(** The replicated word of [memset] holds the byte at each of its places. *)
Definition rep4 (c : Z) : Z :=
  Z.lor (Z.lor (Z.lor (Z.shiftl c 24) (Z.shiftl c 16)) (Z.shiftl c 8)) c.

Lemma rep4_bytes_all :
  forallb (fun c => forallb (fun k => u8 (Z.shiftr (rep4 c) (8 * k)) =? c) (seqZ 0 4))
          (seqZ 0 256) = true.
Proof. vm_compute. reflexivity. Qed.

Lemma rep4_bytes c k : 0 <= c < 256 -> 0 <= k < 4 ->
  u8 (Z.shiftr (rep4 c) (8 * k)) = c.
Proof.
  intros Hc Hk. pose proof rep4_bytes_all as H.
  rewrite forallb_forall in H. specialize (H c). rewrite forallb_forall in H.
  apply Z.eqb_eq, H; apply list_elem_of_In, elem_of_seqZ; lia.
Qed.

Lemma stosl_spec n m d c x : 0 <= c < 256 -> 0 <= d -> d + 4 * Z.of_nat n <= 4294967296 ->
  stosl m d (rep4 c) n x = if in_range d (4 * Z.of_nat n) x then c else m x.
Proof.
  intros Hc. revert m d. induction n as [|n IH]; intros m d H0 H1; cbn [stosl].
  - unfold in_range. by zcases.
  - destruct n as [|n].
    + cbn [stosl]. unfold in_range, store32. zcases; try done. by apply rep4_bytes; lia.
    + rewrite u32_small by (unfold is_u32; lia). rewrite IH by lia. unfold in_range, store32. zcases; try done.
      by apply rep4_bytes; lia.
Qed.
Lemma stosl_wf n m d c : mem_wf m -> mem_wf (stosl m d c n).
Proof. revert m d. induction n as [|n IH]; intros m d Hm; cbn [stosl]; auto with xv6. Qed.

(** Whichever loop [memset] picks, it fills exactly [n] bytes. *)
Lemma memset_at m d c n x : 0 <= n -> 0 <= d -> d + n <= 4294967296 ->
  memset m d c n x = if in_range d n x then u8 c else m x.
Proof.
  intros Hn H0 H1. unfold memset. case_match eqn:E.
  - change (Z.land c 255) with (Z.land c (Z.ones 8)). rewrite Z.land_ones by lia.
    change (2 ^ 8) with 256. fold (rep4 (c mod 256)).
    assert (En : 4 * Z.of_nat (Z.to_nat (n / 4)) = n) by (apply andb_prop in E as [_ E%Z.eqb_eq]; wrap_lia).
    rewrite stosl_spec by (apply Z.mod_pos_bound; lia) || lia. by rewrite En.
  - rewrite stosb_spec by lia. by rewrite Z2Nat.id by lia.
Qed.

Lemma memset_wf m d c n : mem_wf m -> mem_wf (memset m d c n).
Proof. intros Hm. unfold memset. case_match; [by apply stosl_wf|by apply stosb_wf]. Qed.

Lemma copy_up_spec n m d s x : mem_wf m -> d <= s \/ s + Z.of_nat n <= d ->
  copy_up m d s n x = if in_range d (Z.of_nat n) x then m (s + (x - d)) else m x.
Proof.
  revert m d s. induction n as [|n IH]; intros m d s Hm Hds; simpl.
  - unfold in_range. by zcases.
  - rewrite IH by (auto with xv6; lia). unfold in_range, store8.
    rewrite (u8_byte _ _ Hm). zcases; try done; f_equal; lia.
Qed.

Lemma copy_down_spec n m d s x : mem_wf m -> s <= d ->
  copy_down m d s n x =
  if in_range (d - Z.of_nat n) (Z.of_nat n) x then m (s + (x - d)) else m x.
Proof.
  revert m d s. induction n as [|n IH]; intros m d s Hm Hds; simpl.
  - unfold in_range. by zcases.
  - rewrite IH by (auto with xv6; lia). unfold in_range, store8.
    rewrite (u8_byte _ _ Hm). zcases; try done; f_equal; lia.
Qed.

(** [memmove] reads every source byte before overwriting it. *)
Lemma memmove_at m d s n x : mem_wf m -> 0 <= n ->
  memmove m d s n x = if in_range d n x then m (s + (x - d)) else m x.
Proof.
  intros Hm Hn. unfold memmove. case_match eqn:E.
  - rewrite copy_down_spec by (auto; lia). rewrite Z2Nat.id by done.
    replace (d + n - n) with d by lia. case_match; [f_equal; lia|done].
  - rewrite copy_up_spec by (auto; lia). by rewrite Z2Nat.id by done.
Qed.

Lemma memmove_wf m d s n : 0 <= n -> mem_wf m -> mem_wf (memmove m d s n).
Proof. intros Hn Hm x. rewrite memmove_at by done. case_match; auto. Qed.

(** ** C strings *)

(** [l] lies at address [a]. *)
Fixpoint bytes_at (m : mem) (a : Z) (l : list Z) : Prop :=
  match l with
  | [] => True
  | b :: l' => m a = b /\ bytes_at m (a + 1) l'
  end.

(** The NUL-terminated string [l] lies at address [a]. *)
Definition cstr (m : mem) (a : Z) (l : list Z) : Prop :=
  Forall (fun b => 0 < b < 256) l /\ bytes_at m a (l ++ [0]).

Lemma bytes_at_lookup m a l :
  bytes_at m a l <-> forall i b, l !! i = Some b -> m (a + Z.of_nat i) = b.
Proof.
  revert a. induction l as [|b l IH]; intros a; simpl; [set_solver|].
  rewrite IH. split.
  - intros [Ha H] [|i] b' Hb; simpl in Hb; simplify_eq; [f_equal; lia|].
    rewrite <- (H i b' Hb). f_equal; lia.
  - intros H. split; [rewrite <- (H 0%nat b eq_refl); f_equal; lia|].
    intros i b' Hb. rewrite <- (H (S i) b' Hb). f_equal; lia.
Qed.

Lemma bytes_at_ext m m' a l :
  (forall x, a <= x < a + Z.of_nat (length l) -> m x = m' x) ->
  bytes_at m a l -> bytes_at m' a l.
Proof.
  rewrite !bytes_at_lookup. intros H Hl i b Hb. rewrite <- H; [by apply Hl|].
  apply lookup_lt_Some in Hb. lia.
Qed.

Lemma cstr_nil m a : cstr m a [] <-> m a = 0.
Proof. unfold cstr. simpl. split; [tauto|]. intros. by repeat constructor. Qed.

Lemma cstr_cons m a b l : cstr m a (b :: l) <-> (0 < b < 256 /\ m a = b /\ cstr m (a + 1) l).
Proof. unfold cstr. rewrite Forall_cons. simpl. tauto. Qed.

Lemma strlen_from_spec l m a n fuel : cstr m (a + n) l -> (length l < fuel)%nat ->
  strlen_from fuel m a n = Some (n + Z.of_nat (length l)).
Proof.
  revert n fuel. induction l as [|b l IH]; intros n [|fuel] Hc Hf; simpl in *; try lia.
  - apply cstr_nil in Hc. rewrite Hc. simpl. f_equal; lia.
  - apply cstr_cons in Hc as (Hb & Hm & Hc). rewrite Hm. zcases.
    rewrite (IH (n + 1)); [f_equal; lia| |lia]. by rewrite Z.add_assoc.
Qed.

Lemma strncmp_zero n l1 l2 m p q : cstr m p l1 -> cstr m q l2 ->
  strncmp m p q n = 0 <-> take n l1 = take n l2.
Proof.
  revert l1 l2 p q. induction n as [|n IH]; intros l1 l2 p q H1 H2; simpl; [done|].
  destruct l1 as [|b1 l1], l2 as [|b2 l2].
  - apply cstr_nil in H1, H2. by rewrite H1, H2.
  - apply cstr_nil in H1. apply cstr_cons in H2 as (Hb & Hq & _). rewrite H1, Hq. simpl.
    split; intros; simplify_eq; lia.
  - apply cstr_nil in H2. apply cstr_cons in H1 as (Hb & Hp & _). rewrite Hp, H2.
    zcases; simpl. split; intros; simplify_eq; lia.
  - apply cstr_cons in H1 as (Hb1 & Hp & H1), H2 as (Hb2 & Hq & H2). rewrite Hp, Hq.
    specialize (IH l1 l2 (p + 1) (q + 1) H1 H2). zcases; simpl.
    + rewrite IH. split; [intros ->; congruence|by injection 1].
    + split; [lia|]. intros ?; simplify_eq.
Qed.

(** What [safestrcpy] leaves: a prefix of the source, NUL-terminated. *)
Lemma safestrcpy_loop_spec k l m s t :
  mem_wf m -> cstr m t l ->
  (t + Z.of_nat (length l) < s \/ s + Z.of_nat k < t) ->
  let m' := safestrcpy_loop m s t k in
  cstr m' s (take k l) /\
  (forall x, x < s \/ s + Z.of_nat k < x -> m' x = m x).
Proof.
  revert l m s t. induction k as [|k IH]; intros l m s t Hm Hc Hd; simpl.
  - split; [apply cstr_nil; unfold store8; by zcases|].
    intros x Hx. unfold store8. by zcases.
  - destruct l as [|b l]; [apply cstr_nil in Hc|apply cstr_cons in Hc]; simpl in Hd.
    + rewrite Hc. simpl. split; [|intros x Hx; unfold store8; by zcases].
      apply cstr_nil. unfold store8. by zcases.
    + destruct Hc as (Hb & Hmt & Hc). rewrite Hmt. zcases.
      destruct (IH l (store8 m s b) (s + 1) (t + 1)) as [Hs Ho]; [auto with xv6| |lia|].
      { destruct Hc as [HF Hby]. split; [done|]. revert Hby. apply bytes_at_ext.
        intros x. rewrite length_app. simpl. intros Hx. unfold store8. by zcases. }
      split.
      * apply cstr_cons. split; [lia|split; [|done]].
        rewrite Ho by lia. unfold store8. zcases. wrap_lia.
      * intros x Hx. rewrite Ho by lia. unfold store8. by zcases.
Qed.

Lemma pad0_spec n m s x :
  pad0 m s n x = if in_range s (Z.of_nat n) x then 0 else m x.
Proof.
  revert m s. induction n as [|n IH]; intros m s; simpl; unfold in_range in *.
  - by zcases.
  - rewrite IH. unfold store8. zcases; done.
Qed.

(** A directory-entry name: [n] bytes, the string padded with NULs. *)
Definition padded (n : nat) (l : list Z) : list Z := take n (l ++ replicate n 0).

#[global] Arguments padded : simpl never.

Lemma padded_nil n : padded n [] = replicate n 0.
Proof. unfold padded. simpl. by rewrite take_ge by (rewrite length_replicate; lia). Qed.

Lemma padded_cons n b l : padded (S n) (b :: l) = b :: padded n l.
Proof.
  unfold padded. simpl. f_equal. change (0 :: replicate n 0) with (replicate (S n) 0).
  rewrite replicate_S_end, app_assoc, take_app_le; [done|]. rewrite length_app, length_replicate. lia.
Qed.

Lemma bytes_at_replicate0 m a n :
  (forall x, a <= x < a + Z.of_nat n -> m x = 0) -> bytes_at m a (replicate n 0).
Proof.
  intros H. apply bytes_at_lookup. intros i b [-> Hi]%lookup_replicate. apply H. lia.
Qed.

Lemma strncpy_loop_spec n l m s t : mem_wf m -> cstr m t l ->
  (t + Z.of_nat (length l) < s \/ s + Z.of_nat n <= t) ->
  bytes_at (strncpy m s t n) s (padded n l) /\
  (forall x, x < s \/ s + Z.of_nat n <= x -> strncpy m s t n x = m x).
Proof.
  revert l m s t. induction n as [|n IH]; intros l m s t Hm Hc Hd; [done|].
  cbn [strncpy].
  destruct l as [|b l]; [apply cstr_nil in Hc|apply cstr_cons in Hc]; simpl in Hd.
  - rewrite Hc, Z.eqb_refl. split.
    + rewrite padded_nil. apply bytes_at_replicate0. intros x Hx.
      rewrite pad0_spec. unfold in_range, store8. by zcases.
    + intros x Hx. rewrite pad0_spec. unfold in_range, store8. by zcases.
  - destruct Hc as (Hb & Hmt & Hc). rewrite Hmt. zcases.
    destruct (IH l (store8 m s b) (s + 1) (t + 1)) as [Hs Ho]; [auto with xv6| |lia|].
    { destruct Hc as [HF Hby]. split; [done|]. revert Hby. apply bytes_at_ext.
      intros x. rewrite length_app. simpl. intros Hx. unfold store8. by zcases. }
    split.
    + rewrite padded_cons. split; [|done].
      rewrite Ho by lia. unfold store8. zcases. wrap_lia.
    + intros x Hx. rewrite Ho by lia. unfold store8. by zcases.
Qed.

(** [memmove] copies the source bytes as they were before the call,
    however the two ranges overlap, and changes nothing else. *)
Theorem memmove_correct m dst src n x : mem_wf m -> 0 <= n ->
  memmove m dst src n x = if in_range dst n x then m (src + (x - dst)) else m x.
Proof. apply memmove_at. Qed.

Lemma memmove_correct_witness :
  memmove (fun x => u8 x) 12 10 8 17 = 15.
Proof.
  rewrite (memmove_correct (fun x => u8 x) 12 10 8 17); [by vm_compute| |lia].
  intros x. apply u8_range.
Defined.

(** The user library's [memmove] (ulib.c) agrees with the kernel's
    except when the destination starts inside the source range. *)
Theorem ulib_memmove_no_overlap m dst src n x : mem_wf m -> 0 <= n ->
  (dst <= src \/ src + n <= dst) -> Ulib.memmove m dst src n x = memmove m dst src n x.
Proof.
  intros Hm Hn Hd. rewrite memmove_at by done. unfold Ulib.memmove.
  rewrite copy_up_spec by (auto; lia). by rewrite Z2Nat.id by lia.
Qed.

Lemma ulib_memmove_no_overlap_witness :
  Ulib.memmove (fun x => u8 x) 10 12 8 13 = memmove (fun x => u8 x) 10 12 8 13.
Proof.
  apply (ulib_memmove_no_overlap (fun x => u8 x) 10 12 8 13); [|lia|lia].
  intros x. apply u8_range.
Defined.

(** With the destination inside the source range the user-level [memmove]
    repeats the first bytes instead of moving them. *)
Theorem ulib_memmove_overlap_differs :
  Ulib.memmove (fun x => u8 x) 12 10 8 17 = 11 /\ memmove (fun x => u8 x) 12 10 8 17 = 15.
Proof. by vm_compute. Qed.

(** [safestrcpy] leaves a NUL-terminated copy of at most [n - 1] bytes
    and writes nothing beyond the [n] bytes of the destination. *)
Theorem safestrcpy_correct m s t n l : mem_wf m -> cstr m t l -> 0 < n ->
  (t + Z.of_nat (length l) < s \/ s + n <= t) ->
  cstr (safestrcpy m s t n) s (take (Z.to_nat (n - 1)) l) /\
  (forall x, x < s \/ s + n <= x -> safestrcpy m s t n x = m x).
Proof.
  intros Hm Hc Hn Hd. unfold safestrcpy. replace (n <=? 0) with false by lia.
  destruct (safestrcpy_loop_spec (Z.to_nat (n - 1)) l m s t) as [H1 H2]; [done..|lia|].
  split; [done|]. intros x Hx. apply H2. lia.
Qed.

Lemma safestrcpy_correct_witness :
  cstr (safestrcpy (fun x => if x =? 100 then 104 else if x =? 101 then 105 else 0) 200 100 2)
    200 [104].
Proof.
  refine (proj1 (safestrcpy_correct (fun x => if x =? 100 then 104 else if x =? 101 then 105 else 0)
    200 100 2 [104; 105] _ _ _ _)); [|split; [|by vm_compute]|lia|simpl; lia].
  - intros x. repeat case_match; done.
  - repeat constructor; lia.
Defined.
