(* ===== verification/Format.v ===== *)
(** * Formatted output: printint, cprintf (console.c) and printf (printf.c)

    The characters the format loops emit, as lists of bytes.  Arguments are
    the words on the stack after the format ([argp]); [str a] is the string
    at address [a]. *)
From S2P Require Import Prelude CString.

Definition ch_zero : Z := 48.
Definition ch_minus : Z := 45.
Definition ch_percent : Z := 37.
Definition bytes_of (s : string) : list Z :=
  (fun a => Z.of_nat (Ascii.nat_of_ascii a)) <$> String.list_ascii_of_string s.

(** The do-while loop of [printint]: digits of [x], least significant
    first. *)
Fixpoint digit_loop (fuel : nat) (digits : list Z) (x base : Z) : option (list Z) :=
  match fuel with
  | O => None
  | S f =>
      let d := nth (Z.to_nat (x mod base)) digits 0 in
      if x / base =? 0 then Some [d]
      else l ← digit_loop f digits (x / base) base; mret (d :: l)
  end.

Definition kdigits : list Z := bytes_of "0123456789abcdef".
Definition udigits : list Z := bytes_of "0123456789ABCDEF".

(** [printint] of both files: the characters in the order they are put.
    [buf] has 16 entries; 33 iterations are more than any 32-bit value
    needs. *)
Definition printint_buf (digits : list Z) (xx base : Z) (sign : bool) : option (list Z) :=
  let neg := sign && (xx <? 0) in
  let x := if neg then u32 (- xx) else u32 xx in
  l ← digit_loop 33 digits x base;
  mret (if (neg : bool) then l ++ [ch_minus] else l).

Definition printint (digits : list Z) (xx base : Z) (sign : bool) : list Z :=
  match printint_buf digits xx base sign with
  | Some buf => reverse buf
  | None => []
  end.

Definition null_str : list Z := bytes_of "(null)".

Section cprintf.
Variables (argp : nat -> Z) (str : Z -> list Z).

Definition str_arg (a : Z) : list Z := if a =? 0 then null_str else str a.

(** The loop of [cprintf] (console.c) from format position [fmt], next
    argument [i].  A NUL (the end of [fmt]) after a percent sign ends it. *)
Fixpoint cprintf_loop (fmt : list Z) (i : nat) : list Z :=
  match fmt with
  | [] => []
  | c :: fmt' =>
      if negb (c =? ch_percent) then c :: cprintf_loop fmt' i
      else
        match fmt' with
        | [] => []
        | c :: fmt'' =>
            if c =? 100 (* d *) then
              printint kdigits (i32 (argp i)) 10 true ++ cprintf_loop fmt'' (S i)
            else if (c =? 120) || (c =? 112) (* x p *) then
              printint kdigits (i32 (argp i)) 16 false ++ cprintf_loop fmt'' (S i)
            else if c =? 115 (* s *) then str_arg (argp i) ++ cprintf_loop fmt'' (S i)
            else if c =? ch_percent then ch_percent :: cprintf_loop fmt'' i
            else ch_percent :: c :: cprintf_loop fmt'' i
        end
  end.

(** The state machine of [printf] (printf.c); [st] is [state == '%']. *)
Fixpoint printf_loop (st : bool) (fmt : list Z) (i : nat) : list Z :=
  match fmt with
  | [] => []
  | c :: fmt' =>
      if negb st then
        if c =? ch_percent then printf_loop true fmt' i else c :: printf_loop false fmt' i
      else if c =? 100 then
        printint udigits (i32 (argp i)) 10 true ++ printf_loop false fmt' (S i)
      else if (c =? 120) || (c =? 112) then
        printint udigits (i32 (argp i)) 16 false ++ printf_loop false fmt' (S i)
      else if c =? 115 then str_arg (argp i) ++ printf_loop false fmt' (S i)
      else if c =? 99 (* c *) then u8 (argp i) :: printf_loop false fmt' (S i)
      else if c =? ch_percent then c :: printf_loop false fmt' i
      else ch_percent :: c :: printf_loop false fmt' i
  end.
End cprintf.

(** * Correctness of the conversions *)

(** The value of a numeral, most significant digit first, for a digit
    table. *)
Fixpoint digit_value (digits : list Z) (c : Z) : Z :=
  match digits with
  | [] => 0
  | d :: ds => if d =? c then 0 else 1 + digit_value ds c
  end.

Definition numeral (digits : list Z) (base : Z) (l : list Z) : Z :=
  foldl (fun v c => v * base + digit_value digits c) 0 l.

Section numerals.
Variables (digits : list Z) (base : Z).
Hypothesis Hbase : 2 <= base <= Z.of_nat (length digits).
Hypothesis Hnd : NoDup digits.

Lemma digit_value_nth d : 0 <= d < base -> digit_value digits (nth (Z.to_nat d) digits 0) = d.
Proof.
  assert (H : forall ds k, NoDup ds -> (k < length ds)%nat ->
    digit_value ds (nth k ds 0) = Z.of_nat k).
  { clear. induction ds as [|x ds IH]; intros k Hn Hk; [simpl in Hk; lia|].
    apply NoDup_cons in Hn as [Hx Hn]. destruct k as [|k]; simpl.
    - by rewrite Z.eqb_refl.
    - simpl in Hk. rewrite (proj2 (Z.eqb_neq x _)).
      + rewrite IH by (done || lia). lia.
      + intros ->. apply Hx. apply list_elem_of_In, nth_In. lia. }
  intros Hd. rewrite H by (done || lia). lia.
Qed.

Lemma digit_loop_total fuel x : 0 <= x < base ^ Z.of_nat fuel -> (0 < fuel)%nat ->
  exists l, digit_loop fuel digits x base = Some l /\ (0 < length l <= fuel)%nat /\
    numeral digits base (reverse l) = x.
Proof.
  revert x. induction fuel as [|f IH]; intros x Hx Hf; [lia|]. cbn [digit_loop].
  assert (Hm : 0 <= x mod base < base) by (apply Z.mod_pos_bound; lia).
  destruct (Z.eqb_spec (x / base) 0) as [E|E].
  - eexists. split; [done|]. split; [simpl; lia|]. unfold numeral. cbn.
    rewrite digit_value_nth by done. pose proof (Z.div_mod x base). lia.
  - assert (Hf' : (0 < f)%nat).
    { destruct f; [|lia]. exfalso. apply E. apply Z.div_small.
      replace (Z.of_nat 1) with 1 in Hx by lia. rewrite Z.pow_1_r in Hx. lia. }
    destruct (IH (x / base)) as (l & Hl & Hlen & Hv).
    { split; [apply Z.div_pos; lia|]. apply Z.div_lt_upper_bound; [lia|].
      replace (Z.of_nat (S f)) with (1 + Z.of_nat f) in Hx by lia.
      rewrite Z.pow_add_r, Z.pow_1_r in Hx by lia. lia. }
    { done. }
    rewrite Hl. eexists. split; [done|]. split; [simpl; lia|].
    rewrite reverse_cons. unfold numeral in *. rewrite foldl_app, Hv. cbn.
    rewrite digit_value_nth by done. pose proof (Z.div_mod x base). lia.
Qed.
End numerals.

Lemma kdigits_ok : NoDup kdigits /\ length kdigits = 16%nat.
Proof. split; [by_decide|done]. Qed.
Lemma udigits_ok : NoDup udigits /\ length udigits = 16%nat.
Proof. split; [by_decide|done]. Qed.

(** Fewer digits for decimal: at most ten. *)
Lemma digit_loop_len digits base fuel1 fuel2 x l1 l2 :
  digit_loop fuel1 digits x base = Some l1 -> digit_loop fuel2 digits x base = Some l2 -> l1 = l2.
Proof.
  revert fuel2 x l1 l2. induction fuel1 as [|f1 IH]; intros [|f2] x l1 l2; cbn; try done.
  destruct (x / base =? 0); [congruence|].
  destruct (digit_loop f1 digits (x / base) base) as [a|] eqn:E1; [|done].
  destruct (digit_loop f2 digits (x / base) base) as [b|] eqn:E2; [|done].
  cbn. intros [= <-] [= <-]. f_equal. by eapply IH.
Qed.

Lemma digit_loop_shape digits base fuel x l c :
  digit_loop fuel digits x base = Some l -> c ∉ digits -> c <> 0 -> c ∉ l.
Proof.
  intros Hl Hc H0. revert x l Hl. induction fuel as [|f IH]; intros x l; cbn; [done|].
  assert (Hn : c <> nth (Z.to_nat (x mod base)) digits 0).
  { intros E. destruct (nth_in_or_default (Z.to_nat (x mod base)) digits 0) as [Hi|Hi].
    - apply Hc. rewrite E. by apply list_elem_of_In.
    - congruence. }
  destruct (x / base =? 0); [intros [= <-]; set_solver|].
  destruct (digit_loop f digits (x / base) base) as [a|] eqn:E; [|done].
  cbn. intros [= <-]. apply IH in E. set_solver.
Qed.

(** The magnitude [printint] converts fits the ten (base 10) or eight
    (base 16) digits it can need. *)
Lemma digit_loop_fits digits base x : digits = kdigits \/ digits = udigits ->
  base = 10 \/ base = 16 -> is_u32 x ->
  exists l, digit_loop 33 digits x base = Some l /\ (length l <= 10)%nat /\
    numeral digits base (reverse l) = x /\ ch_minus ∉ l.
Proof.
  intros Hd Hb Hx. unfold is_u32 in Hx.
  assert (NoDup digits /\ length digits = 16%nat /\ ch_minus ∉ digits) as (Hn & Hlen & Hm).
  { destruct Hd as [-> | ->]; (split; [by_decide|split; [reflexivity|by_decide]]). }
  destruct (digit_loop_total digits base ltac:(lia) Hn 10 x) as (l & Hl & Hll & Hv).
  { assert (10 ^ 10 <= base ^ Z.of_nat 10) by (apply Z.pow_le_mono_l; lia). lia. }
  { lia. }
  destruct (digit_loop_total digits base ltac:(lia) Hn 33 x) as (l' & Hl' & _ & Hv').
  { assert (10 ^ 33 <= base ^ Z.of_nat 33) by (apply Z.pow_le_mono_l; lia). lia. }
  { lia. }
  pose proof (digit_loop_len _ _ _ _ _ _ _ Hl' Hl) as E. subst l'.
  exists l. split; [exact Hl'|]. split; [lia|]. split; [exact Hv|].
  by eapply digit_loop_shape.
Qed.

(** For every 32-bit argument and both bases the source uses, [printint]
    fits its 16-byte buffer, and the text it prints is a minus sign exactly
    for a negative signed value, followed by a numeral without sign that
    denotes the magnitude ([INT_MIN] included) or, unsigned, the value
    modulo 2^32. *)
Theorem printint_correct digits xx base sign :
  digits = kdigits \/ digits = udigits -> base = 10 \/ base = 16 -> is_i32 xx ->
  exists buf ds, printint_buf digits xx base sign = Some buf /\ (length buf <= 11)%nat /\
    printint digits xx base sign = (if sign && (xx <? 0) then [ch_minus] else []) ++ ds /\
    ch_minus ∉ ds /\
    numeral digits base ds = (if sign then Z.abs xx else u32 xx).
Proof.
  intros Hd Hb Hx. unfold printint, printint_buf.
  set (x := if sign && (xx <? 0) then u32 (- xx) else u32 xx).
  destruct (digit_loop_fits digits base x Hd Hb) as (l & Hl & Hlen & Hv & Hm).
  { unfold x. destruct (sign && (xx <? 0)); apply u32_range. }
  rewrite Hl. cbn [mbind option_bind].
  exists (if sign && (xx <? 0) then l ++ [ch_minus] else l), (reverse l).
  assert (Hval : x = if sign then Z.abs xx else u32 xx).
  { unfold x. destruct sign; cbn [andb]; [|done]. destruct (Z.ltb_spec xx 0); wrap_lia. }
  destruct (sign && (xx <? 0)); repeat split.
  - rewrite length_app. simpl. lia.
  - cbn. by rewrite reverse_app.
  - by rewrite elem_of_reverse.
  - by rewrite Hv.
  - lia.
  - by rewrite elem_of_reverse.
  - by rewrite Hv.
Qed.

Lemma printint_correct_witness :
  printint kdigits (-2147483648) 10 true = bytes_of "-2147483648" /\
  exists buf ds, printint_buf kdigits (-2147483648) 10 true = Some buf /\
    (length buf <= 11)%nat /\
    printint kdigits (-2147483648) 10 true = [ch_minus] ++ ds /\ ch_minus ∉ ds /\
    numeral kdigits 10 ds = 2147483648.
Proof.
  split; [vm_compute; reflexivity|].
  apply (printint_correct kdigits (-2147483648) 10 true); [by left|by left|wrap_lia].
Defined.

(** A format whose directives mean the same to [cprintf] and [printf]: no
    hexadecimal directive (the digit tables differ in case) and no [%c]
    (which only [printf] knows). *)
Fixpoint portable (fmt : list Z) : bool :=
  match fmt with
  | [] => true
  | c :: fmt' =>
      if negb (c =? ch_percent) then portable fmt'
      else match fmt' with
           | [] => true
           | c :: fmt'' => negb ((c =? 120) || (c =? 112) || (c =? 99)) && portable fmt''
           end
  end.

Lemma printint_decimal xx : printint udigits xx 10 true = printint kdigits xx 10 true.
Proof.
  unfold printint, printint_buf.
  assert (H : forall f x, 0 <= x -> digit_loop f udigits x 10 = digit_loop f kdigits x 10).
  { induction f as [|f IH]; intros x Hx; [done|]. cbn [digit_loop].
    rewrite IH by (apply Z.div_pos; lia).
    assert (0 <= x mod 10 < 10) as Hr by (apply Z.mod_pos_bound; lia).
    assert (forall k, (k < 10)%nat -> nth k udigits 0 = nth k kdigits 0) as Hk.
    { intros k Hk. do 10 (destruct k; [reflexivity|]). lia. }
    by rewrite Hk by lia. }
  rewrite H; [done|].
  destruct (_ && _); [pose proof (u32_range (- xx))|pose proof (u32_range xx)];
    unfold is_u32 in *; lia.
Qed.

(** The kernel's [cprintf] and the user library's state-machine [printf]
    put the same characters for every format whose directives both know with
    the same digit table. *)
Theorem printf_agrees argp str fmt : portable fmt = true ->
  printf_loop argp str false fmt 0 = cprintf_loop argp str fmt 0.
Proof.
  assert (H : forall n fmt i, (length fmt <= n)%nat -> portable fmt = true ->
    printf_loop argp str false fmt i = cprintf_loop argp str fmt i).
  { clear fmt. induction n as [|n IH]; intros [|c fmt] i Hn Hp; try done; simpl in Hn; [lia|].
    cbn [printf_loop cprintf_loop portable negb] in *.
    destruct (Z.eqb_spec c ch_percent) as [->|Hc]; cbn [negb] in *;
      [|by rewrite IH by (done || lia)].
    destruct fmt as [|d fmt]; [done|]. simpl in Hn. cbn [printf_loop negb].
    apply andb_prop in Hp as [Hd Hp]. rewrite !negb_orb in Hd.
    apply andb_prop in Hd as [Hd Hd3]. apply andb_prop in Hd as [Hd1 Hd2].
    destruct (d =? 120), (d =? 112), (d =? 99); try done. cbn [orb].
    rewrite !IH by (done || lia). rewrite printint_decimal.
    repeat case_match; try done. by apply Z.eqb_eq in H1 as ->. }
  by apply (H (length fmt)).
Qed.

Lemma printf_agrees_witness :
  printf_loop (fun i => Z.of_nat i - 5) (fun _ => bytes_of "cpu") false
    (bytes_of "pid %d on %s: 100%%%") 0 = bytes_of "pid -5 on cpu: 100%" /\
  printf_loop (fun i => Z.of_nat i - 5) (fun _ => bytes_of "cpu") false
    (bytes_of "pid %d on %s: 100%%%") 0 =
  cprintf_loop (fun i => Z.of_nat i - 5) (fun _ => bytes_of "cpu")
    (bytes_of "pid %d on %s: 100%%%") 0.
Proof. split; [vm_compute; reflexivity|]. apply printf_agrees. vm_compute. reflexivity. Defined.
