(* ===== verification/Mmu.v ===== *)
(** * Memory layout and page-table macros (mmu.h, memlayout.h, param.h)

    The macros are written with the bit operations of the source; the
    lemmas give their arithmetic meaning. *)
From S2P Require Import Prelude.

(** ** param.h *)
Definition NPROC : nat := 64.
Definition KSTACKSIZE : Z := 4096.
Definition NCPU : nat := 8.
Definition NOFILE : nat := 16.
Definition NFILE : nat := 100.
Definition NINODE : nat := 50.
Definition NDEV : Z := 10.
Definition ROOTDEV : Z := 1.
Definition MAXARG : nat := 32.
Definition MAXOPBLOCKS : Z := 10.
Definition LOGSIZE : Z := MAXOPBLOCKS * 3.
Definition NBUF : nat := 30.
Definition FSSIZE : Z := 1000.

(** ** memlayout.h *)
Definition EXTMEM : Z := 0x100000.
Definition PHYSTOP : Z := 0xE000000.
Definition DEVSPACE : Z := 0xFE000000.
Definition KERNBASE : Z := 0x80000000.
Definition KERNLINK : Z := KERNBASE + EXTMEM.
Definition V2P (a : Z) : Z := u32 (a - KERNBASE).
Definition P2V (a : Z) : Z := u32 (a + KERNBASE).

(** ** mmu.h *)
Definition NPDENTRIES : Z := 1024.
Definition NPTENTRIES : Z := 1024.
Definition PGSIZE : Z := 4096.
Definition PTXSHIFT : Z := 12.
Definition PDXSHIFT : Z := 22.

Definition PDX (va : Z) : Z := Z.land (Z.shiftr va PDXSHIFT) 0x3FF.
Definition PTX (va : Z) : Z := Z.land (Z.shiftr va PTXSHIFT) 0x3FF.
Definition PGADDR (d t o : Z) : Z :=
  u32 (Z.lor (Z.lor (Z.shiftl d PDXSHIFT) (Z.shiftl t PTXSHIFT)) o).
Definition PGROUNDUP (sz : Z) : Z := Z.land (u32 (sz + PGSIZE - 1)) (Z.lnot (PGSIZE - 1)).
Definition PGROUNDDOWN (a : Z) : Z := Z.land a (Z.lnot (PGSIZE - 1)).

Definition PTE_P : Z := 0x001.
Definition PTE_W : Z := 0x002.
Definition PTE_U : Z := 0x004.
Definition PTE_PS : Z := 0x080.
Definition PTE_ADDR (pte : Z) : Z := Z.land pte (Z.lnot 0xFFF).
Definition PTE_FLAGS (pte : Z) : Z := Z.land pte 0xFFF.

(** ** Arithmetic meaning *)

Lemma land_lnot_4095 a : Z.land a (Z.lnot 4095) = 4096 * (a / 4096).
Proof.
  rewrite <- Z.ldiff_land. change 4095 with (Z.ones 12).
  rewrite Z.ldiff_ones_r by lia. rewrite Z.shiftl_mul_pow2, Z.shiftr_div_pow2 by lia.
  change (2 ^ 12) with 4096. lia.
Qed.

Lemma PGROUNDDOWN_eq a : PGROUNDDOWN a = 4096 * (a / 4096).
Proof. apply land_lnot_4095. Qed.

Lemma PGROUNDUP_eq sz : PGROUNDUP sz = 4096 * (u32 (sz + 4095) / 4096).
Proof.
  unfold PGROUNDUP, PGSIZE. replace (sz + 4096 - 1) with (sz + 4095) by lia.
  apply land_lnot_4095.
Qed.

Lemma PTE_ADDR_eq p : PTE_ADDR p = 4096 * (p / 4096).
Proof. apply land_lnot_4095. Qed.

Lemma PTE_FLAGS_eq p : PTE_FLAGS p = p mod 4096.
Proof. unfold PTE_FLAGS. change 0xFFF with (Z.ones 12). by rewrite Z.land_ones by lia. Qed.

Lemma PDX_eq va : PDX va = (va / 4194304) mod 1024.
Proof.
  unfold PDX, PDXSHIFT. change 0x3FF with (Z.ones 10).
  by rewrite Z.land_ones, Z.shiftr_div_pow2 by lia.
Qed.

Lemma PTX_eq va : PTX va = (va / 4096) mod 1024.
Proof.
  unfold PTX, PTXSHIFT. change 0x3FF with (Z.ones 10).
  by rewrite Z.land_ones, Z.shiftr_div_pow2 by lia.
Qed.

(** Rounding up, for sizes that do not wrap. *)
Lemma PGROUNDUP_bounds sz : 0 <= sz <= 4294963200 ->
  sz <= PGROUNDUP sz < sz + 4096 /\ PGROUNDUP sz mod 4096 = 0.
Proof. intros H. rewrite PGROUNDUP_eq. wrap_lia. Qed.

Lemma PGROUNDUP_aligned sz : 0 <= sz < 4294967296 -> sz mod 4096 = 0 -> PGROUNDUP sz = sz.
Proof. intros H1 H2. rewrite PGROUNDUP_eq. wrap_lia. Qed.

Lemma V2P_P2V a : is_u32 a -> V2P (P2V a) = a.
Proof. unfold V2P, P2V, KERNBASE. wrap_lia. Qed.

Lemma P2V_V2P a : is_u32 a -> P2V (V2P a) = a.
Proof. unfold V2P, P2V, KERNBASE. wrap_lia. Qed.

(** Building and taking apart page-table entries. *)
Lemma pte_build pa f : pa mod 4096 = 0 -> 0 <= f < 4096 -> Z.lor pa f = pa + f.
Proof. intros. by apply (lor_aligned 12); change (2 ^ 12) with 4096. Qed.

Lemma PTE_ADDR_build pa f : pa mod 4096 = 0 -> 0 <= f < 4096 -> PTE_ADDR (pa + f) = pa.
Proof. intros. rewrite PTE_ADDR_eq. wrap_lia. Qed.

Lemma PTE_FLAGS_build pa f : pa mod 4096 = 0 -> 0 <= f < 4096 -> PTE_FLAGS (pa + f) = f.
Proof. intros. rewrite PTE_FLAGS_eq. wrap_lia. Qed.

(** The entry [mappages] writes. *)
Lemma pte_entry pa perm : pa mod 4096 = 0 -> 0 <= perm < 4096 ->
  Z.lor (Z.lor pa perm) PTE_P = pa + (2 * (perm / 2) + 1).
Proof.
  intros. rewrite <- Z.lor_assoc. unfold PTE_P. rewrite lor_1. apply pte_build; [done|].
  wrap_lia.
Qed.
