(* ===== verification/Kalloc.v ===== *)
(** * The physical page allocator (kalloc.c)

    The free list is threaded through the free pages themselves: the first
    word of a free page is the address of the next one.  The state is the
    kernel's memory with the allocator's variables; [free_list] relates the
    threaded list to the abstract list of free pages. *)
From S2P Require Import Prelude CString Mmu.

(** [struct { lock; use_lock; freelist }] and the memory it manages. *)
Record kst := Kst {
  kmemory : mem;
  use_lock : Z;
  freelist : Z
}.

Definition set_memory (m : mem) (s : kst) : kst := Kst m (use_lock s) (freelist s).
Definition set_freelist (a : Z) (s : kst) : kst := Kst (kmemory s) (use_lock s) a.
Definition set_use_lock (u : Z) (s : kst) : kst := Kst (kmemory s) u (freelist s).

Section kalloc.
(** The address of the linker symbol [end] (kernel.ld). *)
Variable kend : Z.

Definition kfree (v : Z) : M kst unit :=
  if negb (v mod PGSIZE =? 0) || (v <? kend) || (V2P v >=? PHYSTOP)
  then panic "kfree"
  else
    modify (fun s => set_memory (memset (kmemory s) v 1 PGSIZE) s);;
    u ← gets use_lock;
    when (negb (u =? 0)) (acquire Lkmem);;
    modify (fun s => set_memory (store32 (kmemory s) v (freelist s)) s);;
    modify (set_freelist v);;
    u ← gets use_lock;
    when (negb (u =? 0)) (release Lkmem).

Definition kalloc : M kst Z :=
  u ← gets use_lock;
  when (negb (u =? 0)) (acquire Lkmem);;
  r ← gets freelist;
  when (negb (r =? 0)) (modify (fun s => set_freelist (load32 (kmemory s) r) s));;
  u ← gets use_lock;
  when (negb (u =? 0)) (release Lkmem);;
  mret r.

(** The loop of [freerange]; [n] bounds the number of pages left. *)
Fixpoint freerange_loop (n : nat) (p vend : Z) : M kst unit :=
  if p + PGSIZE <=? vend then
    match n with
    | O => fun _ _ => NoFuel
    | S n' => kfree p;; freerange_loop n' (p + PGSIZE) vend
    end
  else mret tt.

Definition freerange (vstart vend : Z) : M kst unit :=
  let p := PGROUNDUP vstart in
  freerange_loop (Z.to_nat ((vend - p) / PGSIZE)) p vend.

Definition kinit1 (vstart vend : Z) : M kst unit :=
  modify (set_use_lock 0);; freerange vstart vend.

Definition kinit2 (vstart vend : Z) : M kst unit :=
  freerange vstart vend;; modify (set_use_lock 1).
End kalloc.

(** * The abstract allocator: a stack of free pages *)

(** Following the links from [a] visits exactly the pages of [l]. *)
Fixpoint free_list (m : mem) (a : Z) (l : list Z) : Prop :=
  match l with
  | [] => a = 0
  | p :: l' => a = p /\ free_list m (load32 m p) l'
  end.

Section invariant.
Variable kend : Z.

(** A page the allocator may own. *)
Definition valid_page (p : Z) : Prop :=
  p mod PGSIZE = 0 /\ kend <= p /\ KERNBASE <= p < KERNBASE + PHYSTOP.

Record kinv (s : kst) (l : list Z) : Prop := {
  kinv_wf : mem_wf (kmemory s);
  kinv_list : free_list (kmemory s) (freelist s) l;
  kinv_valid : Forall valid_page l;
  kinv_nodup : NoDup l
}.

(** [x] is a byte of page [p]. *)
Definition in_page (p x : Z) : Prop := p <= x < p + PGSIZE.

Lemma valid_pages_disjoint p q x :
  valid_page p -> valid_page q -> p <> q -> in_page p x -> ~ in_page q x.
Proof.
  unfold valid_page, in_page, PGSIZE. intros [Hp _] [Hq _] Hne H1 H2. wrap_lia.
Qed.

Lemma valid_page_nonzero p : valid_page p -> p <> 0.
Proof. unfold valid_page, KERNBASE. lia. Qed.

Lemma memset_page m p c x : valid_page p ->
  memset m p c PGSIZE x = if in_range p PGSIZE x then u8 c else m x.
Proof. unfold valid_page, PGSIZE, KERNBASE, PHYSTOP. intros Hp. apply memset_at; lia. Qed.

Lemma valid_page_ok p : is_u32 p ->
  negb (p mod PGSIZE =? 0) || (p <? kend) || (V2P p >=? PHYSTOP) = false <->
  (p mod PGSIZE = 0 /\ kend <= p /\ V2P p < PHYSTOP).
Proof. intros Hp. rewrite Z.geb_leb. lia. Qed.

Lemma valid_page_test p : valid_page p ->
  negb (p mod PGSIZE =? 0) || (p <? kend) || (V2P p >=? PHYSTOP) = false.
Proof.
  intros (H1 & H2 & H3). rewrite Z.geb_leb.
  assert (V2P p = p - KERNBASE) by (unfold V2P, KERNBASE, PHYSTOP in *; wrap_lia). lia.
Qed.

(** The list is unaffected by writes outside its pages. *)
(** There is one free list. *)
Lemma free_list_unique m l : forall a l', Forall (fun p => p <> 0) l -> Forall (fun p => p <> 0) l' ->
  free_list m a l -> free_list m a l' -> l = l'.
Proof.
  induction l as [|p l IH]; intros a [|p' l'] H1 H2 F1 F2; [done|..]; cbn [free_list] in *.
  - apply Forall_cons in H2 as [H2 _]. destruct F2. congruence.
  - apply Forall_cons in H1 as [H1 _]. destruct F1. congruence.
  - apply Forall_cons in H1 as [_ H1], H2 as [_ H2]. destruct F1 as [<- F1], F2 as [<- F2].
    f_equal. by apply (IH (load32 m a)).
Qed.
Lemma kinv_unique s l l' : kinv s l -> kinv s l' -> l = l'.
Proof.
  intros [_ F1 V1 _] [_ F2 V2 _].
  apply (free_list_unique (kmemory s) l (freelist s)); try done; eapply Forall_impl; eauto using valid_page_nonzero.
Qed.

Lemma free_list_frame m m' a l :
  (forall p x, p ∈ l -> in_page p x -> m' x = m x) ->
  free_list m a l -> free_list m' a l.
Proof.
  revert a. induction l as [|p l IH]; intros a Hm; simpl; [done|].
  intros [-> Hl]. split; [done|].
  replace (load32 m' p) with (load32 m p).
  - apply IH; [|done]. intros q x Hq. apply Hm. by apply list_elem_of_further.
  - apply load32_ext. intros x Hx. symmetry. apply (Hm p); [constructor|].
    unfold in_page, PGSIZE. lia.
Qed.

Lemma kinv_frame s s' l :
  kinv s l -> mem_wf (kmemory s') -> freelist s' = freelist s ->
  (forall p x, p ∈ l -> in_page p x -> kmemory s' x = kmemory s x) ->
  kinv s' l.
Proof.
  intros [H1 H2 H3 H4] Hw Hf Hm. constructor; try done.
  rewrite Hf. eapply free_list_frame; eauto.
Qed.

(** The lock is free for this thread whenever the allocator takes it. *)
Definition kmem_free (c : ctx) (s : kst) : Prop := use_lock s = 0 \/ Lkmem ∉ held c.

Lemma wp_kmem_lock c (s : kst) (Q : unit -> ctx -> kst -> Prop) u :
  u = use_lock s -> kmem_free c s ->
  Q tt (if u =? 0 then c else set_held (Lkmem :: held c) c) s ->
  wp (when (negb (u =? 0)) (acquire Lkmem)) c s Q.
Proof.
  intros -> Hc HQ. unfold when. destruct (Z.eqb_spec (use_lock s) 0); simpl; [done|].
  destruct Hc; [lia|]. by apply wp_acquire.
Qed.

Lemma wp_kmem_unlock c (s : kst) (Q : unit -> ctx -> kst -> Prop) u :
  Q tt c s ->
  wp (when (negb (u =? 0)) (release Lkmem))
     (if u =? 0 then c else set_held (Lkmem :: held c) c) s Q.
Proof.
  intros HQ. unfold when. destruct (Z.eqb_spec u 0); simpl; [done|].
  eapply wp_release_head; [reflexivity|]. by destruct c.
Qed.

Lemma kfree_wp v c s l :
  kinv s l -> valid_page v -> v ∉ l -> kmem_free c s ->
  wp (kfree kend v) c s (fun _ c' s' =>
    c' = c /\ kinv s' (v :: l) /\ use_lock s' = use_lock s /\
    forall x, ~ in_page v x -> kmemory s' x = kmemory s x).
Proof.
  intros Hk Hv Hn Hc. unfold kfree. rewrite valid_page_test by done.
  assert (0 <= PGSIZE) as Hpg by (unfold PGSIZE; lia).
  set (m1 := memset (kmemory s) v 1 PGSIZE).
  set (m2 := store32 m1 v (freelist s)).
  assert (Hm2 : forall x, ~ in_page v x -> m2 x = kmemory s x).
  { intros x Hx. unfold in_page, PGSIZE in Hx. unfold m2, store32, m1.
    rewrite memset_page by done. unfold in_range, PGSIZE. by zcases. }
  assert (Hfl : is_u32 (freelist s)).
  { destruct Hk as [_ Hl Hva _]. destruct l as [|p l]; simpl in Hl;
      [rewrite Hl; unfold is_u32; lia|].
    destruct Hl as [-> _]. inversion_clear Hva as [|? ? Hp].
    unfold valid_page, KERNBASE, PHYSTOP in Hp. unfold is_u32. lia. }
  do 2 wp_step. wp_step. wp_step. wp_step. apply wp_kmem_lock; [done|done|].
  do 2 wp_step. do 2 wp_step. do 2 wp_step. cbn.
  apply wp_kmem_unlock. split_and!; try done. constructor; simpl.
  - apply store32_wf, memset_wf, Hk.
  - split; [done|]. fold m1. fold m2.
    replace (load32 m2 v) with (freelist s) by (symmetry; by apply load32_store32).
    eapply free_list_frame; [|apply Hk]. intros p x Hp Hx. apply Hm2.
    apply valid_pages_disjoint with p; try done.
    + pose proof (kinv_valid _ _ Hk) as HF. rewrite Forall_forall in HF. by apply HF.
    + congruence.
  - constructor; [done|apply Hk].
  - apply NoDup_cons. split; [done|apply Hk].
Qed.

Lemma kalloc_wp c s l :
  kinv s l -> kmem_free c s ->
  wp kalloc c s (fun r c' s' =>
    c' = c /\ kmemory s' = kmemory s /\ use_lock s' = use_lock s /\
    match l with
    | [] => r = 0 /\ s' = s
    | p :: l' => r = p /\ kinv s' l'
    end).
Proof.
  intros Hk Hc. unfold kalloc. do 2 wp_step. wp_step. apply wp_kmem_lock; [done|done|].
  do 2 wp_step. wp_step. destruct Hk as [Hw Hl Hva Hnd].
  destruct l as [|p l]; simpl in Hl.
  - rewrite Hl. wp_step; [done|]. do 2 wp_step. wp_step.
    apply wp_kmem_unlock. by wp_step.
  - destruct Hl as [Hp Hl]. inversion_clear Hva as [|? ? Hvp Hva'].
    pose proof (valid_page_nonzero p Hvp) as Hnz. rewrite Hp.
    wp_step; [|by destruct (Z.eqb_spec p 0)]. wp_step.
    do 2 wp_step. wp_step. apply wp_kmem_unlock. wp_step. split_and!; try done.
    apply NoDup_cons in Hnd as [_ Hnd]. by constructor.
Qed.
End invariant.

(** ** freerange *)

Definition pages (p : Z) (n : nat) : list Z := (fun i => p + PGSIZE * Z.of_nat i) <$> seq 0 n.

Lemma pages_S p n : pages p (S n) = p :: pages (p + PGSIZE) n.
Proof.
  unfold pages. rewrite <- cons_seq, fmap_cons. f_equal; [unfold PGSIZE; lia|].
  rewrite <- fmap_S_seq, <- list_fmap_compose. apply list_fmap_ext. simpl. intros.
  unfold PGSIZE. lia.
Qed.

Lemma elem_of_pages p n q :
  q ∈ pages p n <-> exists i, 0 <= i < Z.of_nat n /\ q = p + PGSIZE * i.
Proof.
  unfold pages. rewrite list_elem_of_fmap. setoid_rewrite elem_of_seq. split.
  - intros (i & -> & Hi). exists (Z.of_nat i). split; [lia|done].
  - intros (i & Hi & ->). exists (Z.to_nat i). rewrite Z2Nat.id by lia. split; [done|lia].
Qed.

Lemma pages_NoDup p n : NoDup (pages p n).
Proof.
  apply NoDup_fmap_2; [|apply NoDup_seq]. intros i j H. unfold PGSIZE in H. lia.
Qed.

Lemma freerange_loop_wp kend n p vend c s l :
  kinv kend s l -> kmem_free c s ->
  (vend - p) / PGSIZE = Z.of_nat n -> Forall (valid_page kend) (pages p n) ->
  (forall q, q ∈ pages p n -> q ∉ l) ->
  wp (freerange_loop kend n p vend) c s (fun _ c' s' =>
    c' = c /\ kinv kend s' (reverse (pages p n) ++ l) /\ use_lock s' = use_lock s).
Proof.
  revert p s l. induction n as [|n IH]; intros p s l Hk Hc Hn Hv Hd; simpl.
  - destruct (Z.leb_spec (p + PGSIZE) vend); [unfold PGSIZE in *; wrap_lia|]. by wp_step.
  - destruct (Z.leb_spec (p + PGSIZE) vend); [|unfold PGSIZE in *; wrap_lia].
    rewrite pages_S in Hv, Hd |- *. apply Forall_cons in Hv as [Hp Hv]. wp_step.
    eapply wp_mono; [|apply kfree_wp with (l := l); try done; apply Hd; constructor].
    intros _ ? s' (-> & Hk' & Hu & _).
    eapply wp_mono; [|apply IH with (l := p :: l)]; try done.
    + intros _ ? s'' (-> & Hk'' & Hu''). rewrite reverse_cons, <- app_assoc.
      split_and!; try done. congruence.
    + unfold kmem_free in *. by rewrite Hu.
    + unfold PGSIZE in *. wrap_lia.
    + intros q Hq. apply not_elem_of_cons. split; [|apply Hd; by right].
      apply elem_of_pages in Hq as (i & Hi & ->). unfold PGSIZE. lia.
Qed.

(** * Clients of the allocator

    A client run: the pages it holds and the pages on the free list, with
    the discipline that only held pages are freed. *)

Inductive kop := KAlloc | KFree (v : Z).

Definition kop_run (kend : Z) (o : kop) : M kst Z :=
  match o with
  | KAlloc => kalloc
  | KFree v => kfree kend v;; mret 0
  end.

Fixpoint kops_run (kend : Z) (os : list kop) : M kst (list Z) :=
  match os with
  | [] => mret []
  | o :: os' => r ← kop_run kend o; rs ← kops_run kend os'; mret (r :: rs)
  end.

(** The abstract allocator: a stack of free pages beside the held ones. *)
Definition astep (o : kop) (own free : list Z) : Z * list Z * list Z :=
  match o with
  | KAlloc => match free with [] => (0, own, []) | p :: free' => (p, p :: own, free') end
  | KFree v => (0, filter (fun q => q <> v) own, v :: free)
  end.

Fixpoint aruns (os : list kop) (own free : list Z) : list Z * list Z * list Z :=
  match os with
  | [] => ([], own, free)
  | o :: os' => let '(r, own', free') := astep o own free in
                let '(rs, own'', free'') := aruns os' own' free' in (r :: rs, own'', free'')
  end.

Fixpoint disciplined (os : list kop) (own free : list Z) : bool :=
  match os with
  | [] => true
  | o :: os' =>
      (match o with KAlloc => true | KFree v => bool_decide (v ∈ own) end) &&
      let '(_, own', free') := astep o own free in disciplined os' own' free'
  end.

Lemma filter_ne_id (v : Z) (l : list Z) : v ∉ l -> filter (fun q => q <> v) l = l.
Proof.
  induction l as [|y l IH]; intros Hv; [done|]. apply not_elem_of_cons in Hv as [? ?].
  rewrite filter_cons_True by congruence. f_equal. by apply IH.
Qed.

Lemma filter_ne_perm (v : Z) (l : list Z) : NoDup l -> v ∈ l ->
  v :: filter (fun q => q <> v) l ≡ₚ l.
Proof.
  induction l as [|x l IH]; intros Hnd Hv; [by apply not_elem_of_nil in Hv|].
  apply NoDup_cons in Hnd as [Hx Hnd]. rewrite filter_cons.
  destruct (decide (x = v)) as [->|Hne].
  - rewrite decide_False by tauto. by rewrite filter_ne_id.
  - rewrite decide_True by done. apply elem_of_cons in Hv as [?|Hv]; [congruence|].
    rewrite perm_swap. by rewrite IH.
Qed.

Lemma astep_perm o own free r own' free' :
  NoDup own -> (match o with KAlloc => True | KFree v => v ∈ own end) ->
  astep o own free = (r, own', free') -> own' ++ free' ≡ₚ own ++ free.
Proof.
  intros Hnd Ho. destruct o as [|v]; simpl.
  - destruct free; intros; simplify_eq; [done|]. apply Permutation_middle.
  - intros; simplify_eq. rewrite <- Permutation_middle, app_comm_cons.
    by rewrite filter_ne_perm.
Qed.

Lemma kop_run_wp kend o own free c s :
  kinv kend s free -> kmem_free c s -> NoDup (own ++ free) ->
  Forall (valid_page kend) own ->
  (match o with KAlloc => True | KFree v => v ∈ own end) ->
  wp (kop_run kend o) c s (fun r c' s' =>
    let '(r', own', free') := astep o own free in
    r = r' /\ c' = c /\ kinv kend s' free' /\ use_lock s' = use_lock s /\
    Forall (valid_page kend) own').
Proof.
  intros Hk Hc Hnd Hown Ho. destruct o as [|v]; simpl.
  - eapply wp_mono; [|by apply kalloc_wp].
    intros r ? s' (-> & Hm & Hu & Hr). destruct free as [|p free]; simpl.
    + by destruct Hr as [-> ->].
    + destruct Hr as [-> Hk']. split_and!; try done. constructor; [|done].
      by apply (kinv_valid _ _ _) in Hk as [? _]%Forall_cons.
  - assert (valid_page kend v) as Hv by (rewrite Forall_forall in Hown; by apply Hown).
    wp_step. eapply wp_mono; [|apply kfree_wp with (l := free); try done].
    + intros _ ? s' (-> & Hk' & Hu & _). wp_step. split_and!; try done.
      rewrite Forall_forall in Hown |- *. intros q [_ Hq]%list_elem_of_filter. by apply Hown.
    + intros Hin. apply NoDup_app in Hnd as (_ & Hd & _). by apply (Hd v).
Qed.

(** C26: for every client that only frees pages it holds, the allocator runs
    without panicking, returns what the abstract stack returns, and the held
    and free pages stay a permutation of the initial ones: no page is ever
    handed out twice and none is lost. *)
Theorem kalloc_refines_stack kend os own free c s :
  kinv kend s free -> kmem_free c s -> NoDup (own ++ free) ->
  Forall (valid_page kend) own -> disciplined os own free = true ->
  wp (kops_run kend os) c s (fun rs c' s' =>
    let '(rs', own', free') := aruns os own free in
    rs = rs' /\ c' = c /\ kinv kend s' free' /\ own' ++ free' ≡ₚ own ++ free).
Proof.
  revert own free s. induction os as [|o os IH]; intros own free s Hk Hc Hnd Hown Hd; simpl.
  - by wp_step.
  - simpl in Hd. apply andb_prop in Hd as [Ho Hd]. wp_step.
    assert (match o with KAlloc => True | KFree v => v ∈ own end) as Ho'.
    { destruct o; [done|]. by apply bool_decide_eq_true in Ho. }
    eapply wp_mono; [|by apply kop_run_wp with (own := own) (free := free)].
    intros r ? s' H. destruct (astep o own free) as [[r' own'] free'] eqn:E.
    destruct H as (-> & -> & Hk' & Hu & Hown').
    assert (own' ++ free' ≡ₚ own ++ free) as Hp.
    { eapply astep_perm; [|done|done]. by apply NoDup_app in Hnd as [? _]. }
    wp_step. eapply wp_mono; [|apply IH with (own := own') (free := free'); try done].
    + intros rs ? s'' H. destruct (aruns os own' free') as [[rs' own''] free''].
      destruct H as (-> & -> & Hk'' & Hp''). wp_step. split_and!; try done. by rewrite Hp''.
    + unfold kmem_free in *. by rewrite Hu.
    + by rewrite Hp.
Qed.

(** [freerange] puts every whole page of the range on the free list,
    and nothing else. *)
Theorem freerange_frees kend vstart vend c s l :
  kinv kend s l -> kmem_free c s -> 0 <= vstart <= vend -> vend <= 4294963200 ->
  let p := PGROUNDUP vstart in
  let n := Z.to_nat ((vend - p) / PGSIZE) in
  p <= vend ->
  Forall (valid_page kend) (pages p n) -> (forall q, q ∈ pages p n -> q ∉ l) ->
  wp (freerange kend vstart vend) c s (fun _ c' s' =>
    c' = c /\ kinv kend s' (reverse (pages p n) ++ l) /\
    (forall q, q ∈ pages p n <-> (vstart <= q /\ q + PGSIZE <= vend /\ q mod PGSIZE = 0))).
Proof.
  intros Hk Hc Hr Hw p n Hpv Hv Hd.
  assert (Hn : (vend - p) / PGSIZE = Z.of_nat n) by (unfold n, PGSIZE in *; wrap_lia).
  eapply wp_mono; [|by apply freerange_loop_wp with (l := l) (n := n)].
  intros _ ? s' (-> & Hk' & _). split_and!; try done. intros q. rewrite elem_of_pages.
  destruct (PGROUNDUP_bounds vstart) as [Hb1 Hb2]; [lia|]. fold p in Hb1, Hb2.
  unfold PGSIZE in *. split.
  - intros (i & Hi & ->). wrap_lia.
  - intros (H1 & H2 & H3). exists ((q - p) / 4096). wrap_lia.
Qed.

(** [kfree] panics exactly on addresses that are not whole pages between
    the end of the kernel and the top of physical memory. *)
Theorem kfree_panics_iff kend v c s l :
  kinv kend s l -> kmem_free c s -> KERNBASE <= kend -> is_u32 v -> v ∉ l ->
  (kfree kend v c s = Panic "kfree" <-> ~ valid_page kend v).
Proof.
  intros Hk Hc Hend Hv Hn. split.
  - intros HP Hval. pose proof (kfree_wp kend v c s l Hk Hval Hn Hc) as H.
    unfold wp in H. by rewrite HP in H.
  - intros Hval. unfold kfree. case_match eqn:E; [done|]. exfalso.
    apply valid_page_ok in E as (H1 & H2 & H3); [|done]. apply Hval.
    unfold valid_page. split_and!; try done; try lia.
    unfold V2P, KERNBASE, PHYSTOP in *. wrap_lia.
Qed.

(** * Examples *)

(** Three free pages above a one-megabyte kernel. *)
Definition kpage (i : Z) : Z := 2148532224 + 4096 * i.
Definition ex_mem : mem :=
  store32 (store32 (fun _ => 0) (kpage 1) (kpage 2)) (kpage 2) (kpage 3).
Definition ex_kst : kst := Kst ex_mem 1 (kpage 1).
Definition ex_free : list Z := [kpage 1; kpage 2; kpage 3].

Lemma zero_wf : mem_wf (fun _ => 0).
Proof. intros x. wrap_lia. Qed.

Lemma ex_kinv : kinv (kpage 0) ex_kst ex_free.
Proof.
  constructor; simpl.
  - unfold ex_mem. auto using zero_wf with xv6.
  - vm_compute. done.
  - repeat constructor; done.
  - by_decide.
Qed.

(** Free pages threaded into a list. *)
Fixpoint link (m : mem) (l : list Z) : mem :=
  match l with
  | p :: (q :: _) as r => store32 (link m r) p q
  | _ => m
  end.

Lemma link_out m l x : (forall p, p ∈ l -> ~ in_page p x) -> link m l x = m x.
Proof.
  induction l as [|p [|q r] IH]; intros H; [done|done|]. change (link m (p :: q :: r)) with (store32 (link m (q :: r)) p q). rewrite store32_out.
  - apply IH. set_solver.
  - specialize (H p ltac:(set_solver)). unfold in_page, PGSIZE in H. lia.
Qed.

Lemma link_wf m l : mem_wf m -> mem_wf (link m l).
Proof. intros H. induction l as [|p [|q r] IH]; [done|done|]. cbn [link]. by apply store32_wf. Qed.

Lemma link_free kend m l : Forall (valid_page kend) l -> NoDup l ->
  (forall p x, p ∈ l -> in_page p x -> m x = 0) -> free_list (link m l) (hd 0 l) l.
Proof.
  induction l as [|p [|q r] IH]; intros HF HN Hz; [done| |].
  - cbn. split; [done|]. unfold load32. rewrite !(Hz p) by (set_solver || unfold in_page, PGSIZE; lia). done.
  - apply Forall_cons in HF as [Hp HF]. apply NoDup_cons in HN as [Hn HN].
    assert (Hq : is_u32 q) by (apply Forall_cons in HF as [? _]; unfold valid_page, KERNBASE, PHYSTOP, is_u32 in *; lia).
    set (m1 := link m (q :: r)) in *. change (p = p /\ free_list (store32 m1 p q) (load32 (store32 m1 p q) p) (q :: r)).
    split; [done|]. rewrite load32_store32 by done.
    eapply free_list_frame; [|apply (IH HF HN)]; [|set_solver].
    intros p' x Hp' Hx. apply store32_out. rewrite Forall_forall in HF.
    assert (~ in_page p x) as Hx'; [|unfold in_page, PGSIZE in Hx'; lia].
    apply (valid_pages_disjoint kend p'); [by apply HF|done|set_solver|done].
Qed.

Lemma link_kinv kend m l : Forall (valid_page kend) l -> NoDup l -> mem_wf m ->
  (forall p x, p ∈ l -> in_page p x -> m x = 0) -> kinv kend (Kst (link m l) 1 (hd 0 l)) l.
Proof. intros H1 H2 H3 H4. constructor; [by apply link_wf|by apply (link_free kend)|done|done]. Qed.

Lemma ex_kmem_free : kmem_free ctx0 ex_kst.
Proof. unfold kmem_free. simpl. set_solver. Qed.

Lemma kalloc_refines_stack_witness :
  wp (kops_run (kpage 0) [KAlloc; KAlloc; KFree (kpage 1); KAlloc; KAlloc; KAlloc]) ctx0 ex_kst
    (fun rs c' s' => rs = [kpage 1; kpage 2; 0; kpage 1; kpage 3; 0]).
Proof.
  eapply wp_mono; [|apply (kalloc_refines_stack (kpage 0)
    [KAlloc; KAlloc; KFree (kpage 1); KAlloc; KAlloc; KAlloc] [] ex_free)].
  - intros rs c' s' H. apply H.
  - apply ex_kinv.
  - apply ex_kmem_free.
  - by_decide.
  - constructor.
  - by vm_compute.
Defined.

Lemma freerange_frees_witness :
  wp (freerange (kpage 0) (kpage 4 + 100) (kpage 7 + 200)) ctx0 ex_kst (fun _ c' s' =>
    kinv (kpage 0) s' [kpage 6; kpage 5; kpage 1; kpage 2; kpage 3]).
Proof.
  assert (E : pages (PGROUNDUP (kpage 4 + 100))
    (Z.to_nat ((kpage 7 + 200 - PGROUNDUP (kpage 4 + 100)) / PGSIZE)) = [kpage 5; kpage 6])
    by by vm_compute.
  eapply wp_mono; [|apply (freerange_frees (kpage 0) (kpage 4 + 100) (kpage 7 + 200) ctx0 ex_kst ex_free)].
  - intros _ c' s' (_ & H & _). by rewrite E in H.
  - apply ex_kinv.
  - apply ex_kmem_free.
  - by vm_compute.
  - by vm_compute.
  - by vm_compute.
  - rewrite E. repeat constructor; done.
  - rewrite E. apply Forall_forall. by_decide.
Defined.

Lemma kfree_panics_iff_witness :
  kfree (kpage 0) (kpage 5 + 8) ctx0 ex_kst = Panic "kfree".
Proof.
  apply (kfree_panics_iff (kpage 0) (kpage 5 + 8) ctx0 ex_kst ex_free).
  - apply ex_kinv.
  - apply ex_kmem_free.
  - by vm_compute.
  - by vm_compute.
  - by_decide.
  - vm_compute. lia.
Defined.
