(* ===== verification/Vm.v ===== *)
(** * Virtual memory (vm.c): the operations

    Page directories and page tables live in the memory of the page
    allocator and are read and written as 32-bit words.  Loops carry a bound
    on their iterations; the theorems of PageTable.v and UserVm.v show the
    bounds are enough. *)
From S2P Require Import Prelude CString Mmu Kalloc.

Definition get32 (a : Z) : M kst Z := gets (fun s => load32 (kmemory s) a).
Definition put32 (a v : Z) : M kst unit :=
  modify (fun s => set_memory (store32 (kmemory s) a v) s).
Definition kmemset (a c n : Z) : M kst unit :=
  modify (fun s => set_memory (memset (kmemory s) a c n) s).
Definition kmemmove (d a n : Z) : M kst unit :=
  modify (fun s => set_memory (memmove (kmemory s) d a n) s).

(** A kernel buffer of known contents copied into memory. *)
Definition kcopyin (d : Z) (bs : list Z) : M kst unit :=
  modify (fun s => set_memory
    (fun x => if in_range d (Z.of_nat (length bs)) x
              then u8 (nth (Z.to_nat (x - d)) bs 0) else kmemory s x) s).

#[export] Hint Unfold get32 put32 kmemset kmemmove kcopyin : wp_unfold.

(** [*p & f] as a truth value. *)
Definition flag (w f : Z) : bool := negb (Z.land w f =? 0).

(** The address of the page-table entry, or 0. *)
Definition walkpgdir (pgdir va : Z) (alloc : bool) : M kst Z :=
  let pde := pgdir + 4 * PDX va in
  w ← get32 pde;
  if flag w PTE_P then mret (P2V (PTE_ADDR w) + 4 * PTX va)
  else if negb alloc then mret 0
  else
    pgtab ← kalloc;
    if pgtab =? 0 then mret 0
    else
      kmemset pgtab 0 PGSIZE;;
      put32 pde (Z.lor (Z.lor (Z.lor (V2P pgtab) PTE_P) PTE_W) PTE_U);;
      mret (pgtab + 4 * PTX va).

(** The loop of [mappages]; it stops at [last], [n] pages away. *)
Fixpoint mappages_loop (n : nat) (pgdir a last pa perm : Z) : M kst Z :=
  match n with
  | O => fun _ _ => NoFuel
  | S n' =>
      pte ← walkpgdir pgdir a true;
      if pte =? 0 then mret (-1)
      else
        w ← get32 pte;
        if flag w PTE_P then panic "remap"
        else
          put32 pte (Z.lor (Z.lor pa perm) PTE_P);;
          if a =? last then mret 0
          else mappages_loop n' pgdir (u32 (a + PGSIZE)) last (u32 (pa + PGSIZE)) perm
  end.

Definition mappages (pgdir va size pa perm : Z) : M kst Z :=
  let a := PGROUNDDOWN va in
  let last := PGROUNDDOWN (u32 (va + size - 1)) in
  mappages_loop (Z.to_nat (u32 (last - a) / PGSIZE) + 1) pgdir a last pa perm.

Section vm.
(** Linker symbols [end] and [data] (kernel.ld). *)
Variables kend kdata : Z.

(** [PGADDR(PDX(a) + 1, 0, 0) - PGSIZE + PGSIZE]: the loop's next address
    when a whole page table is missing. *)
Fixpoint deallocuvm_loop (n : nat) (pgdir a oldsz : Z) : M kst unit :=
  if a <? oldsz then
    match n with
    | O => fun _ _ => NoFuel
    | S n' =>
        pte ← walkpgdir pgdir a false;
        if pte =? 0 then
          let a := u32 (PGADDR (PDX a + 1) 0 0 - PGSIZE) in
          deallocuvm_loop n' pgdir (u32 (a + PGSIZE)) oldsz
        else
          w ← get32 pte;
          (if flag w PTE_P then
             let pa := PTE_ADDR w in
             if pa =? 0 then panic "kfree"
             else kfree kend (P2V pa);; put32 pte 0
           else mret tt);;
          deallocuvm_loop n' pgdir (u32 (a + PGSIZE)) oldsz
    end
  else mret tt.

Definition deallocuvm (pgdir oldsz newsz : Z) : M kst Z :=
  if newsz >=? oldsz then mret oldsz
  else
    let a := PGROUNDUP newsz in
    deallocuvm_loop (Z.to_nat ((oldsz - a) / PGSIZE) + 1) pgdir a oldsz;;
    mret newsz.

Fixpoint allocuvm_loop (n : nat) (pgdir a oldsz newsz : Z) : M kst Z :=
  if a <? newsz then
    match n with
    | O => fun _ _ => NoFuel
    | S n' =>
        page ← kalloc;
        if page =? 0 then deallocuvm pgdir newsz oldsz;; mret 0
        else
          kmemset page 0 PGSIZE;;
          r ← mappages pgdir a PGSIZE (V2P page) (Z.lor PTE_W PTE_U);
          if r <? 0 then
            deallocuvm pgdir newsz oldsz;; kfree kend page;; mret 0
          else allocuvm_loop n' pgdir (u32 (a + PGSIZE)) oldsz newsz
    end
  else mret newsz.

Definition allocuvm (pgdir oldsz newsz : Z) : M kst Z :=
  if newsz >=? KERNBASE then mret 0
  else if newsz <? oldsz then mret oldsz
  else
    let a := PGROUNDUP oldsz in
    allocuvm_loop (Z.to_nat ((newsz - a) / PGSIZE) + 1) pgdir a oldsz newsz.

Fixpoint freevm_loop (n : nat) (pgdir i : Z) : M kst unit :=
  match n with
  | O => mret tt
  | S n' =>
      w ← get32 (pgdir + 4 * i);
      (if flag w PTE_P then kfree kend (P2V (PTE_ADDR w)) else mret tt);;
      freevm_loop n' pgdir (i + 1)
  end.

Definition freevm (pgdir : Z) : M kst unit :=
  if pgdir =? 0 then panic "freevm: no pgdir"
  else
    deallocuvm pgdir KERNBASE 0;;
    freevm_loop (Z.to_nat NPDENTRIES) pgdir 0;;
    kfree kend pgdir.

(** [struct kmap] and the table [kmap[]]. *)
Record kmap := Kmap { virt : Z; phys_start : Z; phys_end : Z; perm : Z }.

Definition kmap_table : list kmap := [
  Kmap KERNBASE 0 EXTMEM PTE_W;
  Kmap KERNLINK (V2P KERNLINK) (V2P kdata) 0;
  Kmap kdata (V2P kdata) PHYSTOP PTE_W;
  Kmap DEVSPACE DEVSPACE 0 PTE_W ].

Fixpoint setupkvm_loop (ks : list kmap) (pgdir : Z) : M kst Z :=
  match ks with
  | [] => mret pgdir
  | k :: ks' =>
      r ← mappages pgdir (virt k) (u32 (phys_end k - phys_start k)) (phys_start k) (perm k);
      if r <? 0 then freevm pgdir;; mret 0 else setupkvm_loop ks' pgdir
  end.

Definition setupkvm : M kst Z :=
  pgdir ← kalloc;
  if pgdir =? 0 then mret 0
  else
    kmemset pgdir 0 PGSIZE;;
    if P2V PHYSTOP >? DEVSPACE then panic "PHYSTOP too high"
    else setupkvm_loop kmap_table pgdir.

Definition inituvm (pgdir : Z) (init : list Z) (sz : Z) : M kst unit :=
  if sz >=? PGSIZE then panic "inituvm: more than a page"
  else
    page ← kalloc;
    kmemset page 0 PGSIZE;;
    mappages pgdir 0 PGSIZE (V2P page) (Z.lor PTE_W PTE_U);;
    kcopyin page (take (Z.to_nat sz) init).

(** [loaduvm] runs on any state [S] that has the memory as a part: [vm] runs
    an operation on that part, [readi dst off n] is [readi] of fs.c on the
    inode being loaded. *)
Fixpoint loaduvm_loop {S} (vm : forall A, M kst A -> M S A) (readi : Z -> Z -> Z -> M S Z) (n : nat)
    (pgdir addr i offset sz : Z) : M S Z :=
  if i <? sz then
    match n with
    | O => fun _ _ => NoFuel
    | S n' =>
        pte ← vm _ (walkpgdir pgdir (u32 (addr + i)) false);
        if pte =? 0 then panic "loaduvm: address should exist"
        else
          w ← vm _ (get32 pte);
          let pa := PTE_ADDR w in
          let len := if sz - i <? PGSIZE then sz - i else PGSIZE in
          r ← readi (P2V pa) (u32 (offset + i)) len;
          if negb (r =? len) then mret (-1)
          else loaduvm_loop vm readi n' pgdir addr (u32 (i + PGSIZE)) offset sz
    end
  else mret 0.

Definition loaduvm {S} (vm : forall A, M kst A -> M S A) (readi : Z -> Z -> Z -> M S Z)
    (pgdir addr offset sz : Z) : M S Z :=
  if negb (addr mod PGSIZE =? 0) then panic "loaduvm: addr must be page aligned"
  else loaduvm_loop vm readi (Z.to_nat (sz / PGSIZE) + 1) pgdir addr 0 offset sz.

Definition clearpteu (pgdir uva : Z) : M kst unit :=
  pte ← walkpgdir pgdir uva false;
  if pte =? 0 then panic "clearpteu"
  else w ← get32 pte; put32 pte (Z.land w (Z.lnot PTE_U)).

(** [copyuvm]; [bad] frees the new directory. *)
Fixpoint copyuvm_loop (n : nat) (pgdir d i sz : Z) : M kst Z :=
  if i <? sz then
    match n with
    | O => fun _ _ => NoFuel
    | S n' =>
        pte ← walkpgdir pgdir i false;
        if pte =? 0 then panic "copyuvm: pte should exist"
        else
          w ← get32 pte;
          if negb (flag w PTE_P) then panic "copyuvm: page not present"
          else
            let pa := PTE_ADDR w in
            let flags := PTE_FLAGS w in
            page ← kalloc;
            if page =? 0 then freevm d;; mret 0
            else
              kmemmove page (P2V pa) PGSIZE;;
              r ← mappages d i PGSIZE (V2P page) flags;
              if r <? 0 then kfree kend page;; freevm d;; mret 0
              else copyuvm_loop n' pgdir d (u32 (i + PGSIZE)) sz
    end
  else mret d.

Definition copyuvm (pgdir sz : Z) : M kst Z :=
  d ← setupkvm;
  if d =? 0 then mret 0
  else copyuvm_loop (Z.to_nat (sz / PGSIZE) + 1) pgdir d 0 sz.

(** [uva2ka] does not test the result of [walkpgdir]: with no page table
    it reads the word at address 0. *)
Definition uva2ka (pgdir uva : Z) : M kst Z :=
  pte ← walkpgdir pgdir uva false;
  w ← get32 pte;
  if negb (flag w PTE_P) then mret 0
  else if negb (flag w PTE_U) then mret 0
  else mret (P2V (PTE_ADDR w)).

Fixpoint copyout_loop (n : nat) (pgdir va : Z) (buf : list Z) : M kst Z :=
  match buf with
  | [] => mret 0
  | _ =>
      match n with
      | O => fun _ _ => NoFuel
      | S n' =>
          let len := Z.of_nat (length buf) in
          let va0 := PGROUNDDOWN va in
          pa0 ← uva2ka pgdir va0;
          if pa0 =? 0 then mret (-1)
          else
            let k := PGSIZE - (va - va0) in
            let k := if k >? len then len else k in
            kcopyin (pa0 + (va - va0)) (take (Z.to_nat k) buf);;
            copyout_loop n' pgdir (u32 (va0 + PGSIZE)) (drop (Z.to_nat k) buf)
      end
  end.

Definition copyout (pgdir va : Z) (buf : list Z) : M kst Z :=
  copyout_loop (Z.to_nat (Z.of_nat (length buf) / PGSIZE) + 2) pgdir va buf.
End vm.
