(* ===== verification/PageTable.v ===== *)
(** * Page directories: walkpgdir and mappages (vm.c)

    [pte] is the abstract view of a page directory: the page-table entry of
    every virtual page number (0 where no table exists).  The lemmas describe
    the operations by their effect on that view and on the pages a directory
    owns. *)
From S2P Require Import Prelude CString Mmu Kalloc Vm.

(** * The abstract view of a page directory *)

Definition pde (m : mem) (pgdir i : Z) : Z := load32 m (pgdir + 4 * i).

(** The entry of virtual page number [vpn]. *)
Definition pte (m : mem) (pgdir vpn : Z) : Z :=
  let w := pde m pgdir (vpn / 1024) in
  if flag w PTE_P then load32 m (P2V (PTE_ADDR w) + 4 * (vpn mod 1024)) else 0.

Definition table_of (m : mem) (pgdir i : Z) : option Z :=
  let w := pde m pgdir i in
  if flag w PTE_P then Some (P2V (PTE_ADDR w)) else None.

(** The indices of a directory; sealed, since nothing needs to compute it. *)
Definition dir_indices_aux : seal (seqZ 0 1024).
Proof. by eexists. Qed.
Definition dir_indices : list Z := unseal dir_indices_aux.

Lemma elem_of_dir_indices i : i ∈ dir_indices <-> 0 <= i < 1024.
Proof. unfold dir_indices. rewrite (seal_eq dir_indices_aux). rewrite elem_of_seqZ. lia. Qed.

Lemma NoDup_dir_indices : NoDup dir_indices.
Proof. unfold dir_indices. rewrite (seal_eq dir_indices_aux). apply NoDup_seqZ. Qed.

(** The page-table pages of a directory. *)
Definition tabs (m : mem) (pgdir : Z) : list Z := omap (table_of m pgdir) dir_indices.

(** Memory is short: with [k] more pages the free list [l] is used up, since a
    directory has at most 1024 tables. *)
Definition short (k pgdir : Z) (s : kst) (l : list Z) : Prop :=
  Z.of_nat (length (tabs (kmemory s) pgdir) + length l) <= 1024 + k.

Lemma length_omap_le {A B} (f : A -> option B) xs : (length (omap f xs) <= length xs)%nat.
Proof. induction xs as [|x xs IH]; [done|]. cbn. destruct (f x); cbn in *; lia. Qed.

Lemma short_nil pgdir s : short 0 pgdir s [].
Proof.
  unfold short, tabs. pose proof (length_omap_le (table_of (kmemory s) pgdir) dir_indices) as H.
  assert (E : length dir_indices = 1024%nat) by (unfold dir_indices; rewrite (seal_eq dir_indices_aux); done).
  cbn [length]. lia.
Qed.

Lemma short_le k k' pgdir s l : short k pgdir s l -> k <= k' -> short k' pgdir s l.
Proof. unfold short. lia. Qed.

Lemma short_cons k pgdir s s1 p l : tabs (kmemory s1) pgdir = tabs (kmemory s) pgdir ->
  short k pgdir s1 l -> short (k + 1) pgdir s (p :: l).
Proof. unfold short. intros ->. cbn [length]. lia. Qed.

Lemma short_length k pgdir s l : short k pgdir s l -> Z.of_nat (length l) <= 1024 + k.
Proof. unfold short. lia. Qed.

Definition is_vpn (v : Z) : Prop := 0 <= v < 1048576.

Lemma flag_P w : flag w PTE_P = negb (w mod 2 =? 0).
Proof. unfold flag, PTE_P. by rewrite land_1. Qed.

Lemma PDX_vpn va : is_u32 va -> PDX va = va / 4096 / 1024.
Proof. intros. rewrite PDX_eq. wrap_lia. Qed.
Lemma PTX_vpn va : PTX va = (va / 4096) mod 1024.
Proof. apply PTX_eq. Qed.

Section view.
Variable kend : Z.

(** A well-formed directory: its pages are allocatable, pairwise distinct
    and none is on the free list. *)
Record vinv (s : kst) (pgdir : Z) (l : list Z) : Prop := {
  vinv_k : kinv kend s l;
  vinv_dir : valid_page kend pgdir;
  vinv_tabs : Forall (valid_page kend) (tabs (kmemory s) pgdir);
  vinv_nodup : NoDup (pgdir :: tabs (kmemory s) pgdir ++ l)
}.

(** Word [i] of page [p]. *)
Lemma word_in_page p i x : 0 <= i < 1024 -> p + 4 * i <= x < p + 4 * i + 4 -> in_page p x.
Proof. unfold in_page, PGSIZE. lia. Qed.

Lemma load32_page_ext m m' p i : 0 <= i < 1024 ->
  (forall x, in_page p x -> m' x = m x) -> load32 m' (p + 4 * i) = load32 m (p + 4 * i).
Proof.
  intros Hi Hm. apply load32_ext. intros x Hx. apply Hm. by apply word_in_page with i.
Qed.

Lemma elem_of_tabs m pgdir t :
  t ∈ tabs m pgdir <-> exists i, 0 <= i < 1024 /\ table_of m pgdir i = Some t.
Proof. unfold tabs. rewrite list_elem_of_omap. setoid_rewrite elem_of_dir_indices. naive_solver. Qed.

(** Changing memory outside the directory and its tables. *)
Lemma table_of_frame m m' pgdir i : 0 <= i < 1024 ->
  (forall x, in_page pgdir x -> m' x = m x) -> table_of m' pgdir i = table_of m pgdir i.
Proof. intros Hi Hm. unfold table_of, pde. by rewrite (load32_page_ext m m'). Qed.

Lemma tabs_frame m m' pgdir :
  (forall x, in_page pgdir x -> m' x = m x) -> tabs m' pgdir = tabs m pgdir.
Proof.
  intros Hm. apply omap_ext_in. intros i Hi%elem_of_dir_indices. by apply table_of_frame.
Qed.

Lemma table_of_pte m pgdir vpn :
  pte m pgdir vpn = match table_of m pgdir (vpn / 1024) with
                    | Some t => load32 m (t + 4 * (vpn mod 1024)) | None => 0 end.
Proof. unfold pte, table_of. by case_match. Qed.

Lemma pte_frame m m' pgdir vpn : is_vpn vpn ->
  (forall x, in_page pgdir x -> m' x = m x) ->
  (forall t x, t ∈ tabs m pgdir -> in_page t x -> m' x = m x) ->
  pte m' pgdir vpn = pte m pgdir vpn.
Proof.
  intros Hv Hd Ht. unfold is_vpn in Hv. rewrite !table_of_pte.
  rewrite (table_of_frame m m') by (done || wrap_lia).
  destruct (table_of m pgdir (vpn / 1024)) as [t|] eqn:E; [|done].
  apply load32_page_ext; [wrap_lia|]. intros x. apply Ht. apply elem_of_tabs.
  eexists. split; [|done]. wrap_lia.
Qed.

Lemma vinv_table_valid s pgdir l i t : vinv s pgdir l -> 0 <= i < 1024 ->
  table_of (kmemory s) pgdir i = Some t -> valid_page kend t /\ t <> pgdir /\ t ∉ l.
Proof.
  intros [Hk Hd Ht Hn] Hi E.
  assert (t ∈ tabs (kmemory s) pgdir) as Hin by (apply elem_of_tabs; eauto).
  apply NoDup_cons in Hn as [Hnd Hn]. apply NoDup_app in Hn as (_ & Hdis & _).
  split_and!; [rewrite Forall_forall in Ht; by apply Ht|set_solver|by apply Hdis].
Qed.

Lemma vinv_table_inj s pgdir l i j t : vinv s pgdir l -> 0 <= i < 1024 -> 0 <= j < 1024 ->
  table_of (kmemory s) pgdir i = Some t -> table_of (kmemory s) pgdir j = Some t -> i = j.
Proof.
  intros [_ _ _ Hn] Hi Hj Ei Ej. apply NoDup_cons in Hn as [_ Hn].
  apply NoDup_app in Hn as (Hn & _). unfold tabs in Hn.
  apply (omap_NoDup_inj (table_of (kmemory s) pgdir) dir_indices i j t);
    rewrite ?elem_of_dir_indices; done.
Qed.

Lemma in_page_word_ne p q i j : 0 <= i < 1024 -> 0 <= j < 1024 ->
  p mod 4096 = 0 -> q mod 4096 = 0 -> p <> q \/ i <> j ->
  p + 4 * i + 4 <= q + 4 * j \/ q + 4 * j + 4 <= p + 4 * i.
Proof. intros. wrap_lia. Qed.

Lemma valid_aligned p : valid_page kend p -> p mod 4096 = 0.
Proof. intros H. apply H. Qed.

Lemma valid_u32 p : valid_page kend p -> is_u32 p.
Proof. unfold valid_page, KERNBASE, PHYSTOP, is_u32. lia. Qed.

(** The directory entry that [walkpgdir] writes for a new table. *)
Lemma new_pde t : valid_page kend t ->
  let w := Z.lor (Z.lor (Z.lor (V2P t) PTE_P) PTE_W) PTE_U in
  is_u32 w /\ flag w PTE_P = true /\ P2V (PTE_ADDR w) = t.
Proof.
  intros Ht w. pose proof (valid_aligned _ Ht) as Ha. pose proof (valid_u32 _ Ht) as Hu.
  assert (Hv : V2P t mod 4096 = 0 /\ 0 <= V2P t < PHYSTOP).
  { destruct Ht as (_ & _ & Hr). unfold V2P, KERNBASE, PHYSTOP in *. wrap_lia. }
  assert (w = V2P t + 7) as ->.
  { unfold w. rewrite <- !Z.lor_assoc. apply (pte_build _ 7); [apply Hv|lia]. }
  unfold PHYSTOP in Hv. split; [unfold is_u32; lia|]. split.
  - rewrite flag_P. wrap_lia.
  - rewrite PTE_ADDR_build by (apply Hv || lia). by apply P2V_V2P.
Qed.

(** Writing one entry of a page table. *)
Lemma put_pte_spec s pgdir l vpn t v : vinv s pgdir l -> is_vpn vpn -> is_u32 v ->
  table_of (kmemory s) pgdir (vpn / 1024) = Some t ->
  let m' := store32 (kmemory s) (t + 4 * (vpn mod 1024)) v in
  vinv (set_memory m' s) pgdir l /\ tabs m' pgdir = tabs (kmemory s) pgdir /\
  (forall vpn', is_vpn vpn' ->
     pte m' pgdir vpn' = if vpn' =? vpn then v else pte (kmemory s) pgdir vpn') /\
  (forall x, ~ in_page t x -> m' x = kmemory s x).
Proof.
  intros Hi Hv Hw E m'. unfold is_vpn in Hv.
  destruct (vinv_table_valid s pgdir l (vpn / 1024) t) as (Ht & Hne & Hnl);
    [done|wrap_lia|done|].
  assert (Hout : forall x, ~ in_page t x -> m' x = kmemory s x).
  { intros x Hx. unfold m', store32. case_match eqn:E'; [|done]. destruct Hx.
    apply (word_in_page t (vpn mod 1024)); [wrap_lia|]. lia. }
  assert (Hdir : forall x, in_page pgdir x -> m' x = kmemory s x).
  { intros x Hx. apply Hout. apply (valid_pages_disjoint kend pgdir); try done. apply Hi. }
  assert (Htabs : tabs m' pgdir = tabs (kmemory s) pgdir) by by apply tabs_frame.
  split_and!; try done.
  - constructor; simpl; rewrite ?Htabs; try apply Hi.
    eapply kinv_frame; [apply Hi| |done|].
    + apply store32_wf, Hi.
    + intros p x Hp Hx. apply Hout. apply (valid_pages_disjoint kend p); try done.
      * pose proof (kinv_valid _ _ _ (vinv_k _ _ _ Hi)) as HF.
        rewrite Forall_forall in HF. by apply HF.
      * congruence.
  - intros vpn' Hv'. unfold is_vpn in Hv'. rewrite !table_of_pte.
    rewrite (table_of_frame (kmemory s) m') by (done || wrap_lia).
    destruct (Z.eqb_spec vpn' vpn) as [->|Hnv].
    { rewrite E. unfold m'. by apply load32_store32. }
    destruct (table_of (kmemory s) pgdir (vpn' / 1024)) as [t'|] eqn:E'; [|done].
    unfold m'. apply load32_store32_ne.
    destruct (vinv_table_valid s pgdir l (vpn' / 1024) t') as (Ht' & _ & _);
      [done|wrap_lia|done|].
    apply in_page_word_ne; try by apply valid_aligned.
    1,2: wrap_lia.
    destruct (Z.eq_dec (vpn / 1024) (vpn' / 1024)) as [He|He]; [right; wrap_lia|left].
    intros ->. apply He. apply (vinv_table_inj s pgdir l _ _ t'); try done; wrap_lia.
Qed.
End view.

(** * walkpgdir *)

Section walk.
Variable kend : Z.

(** The entry's address, as found by the hardware walk. *)
Definition walk_result (m : mem) (pgdir va : Z) : Z :=
  match table_of m pgdir (va / 4096 / 1024) with
  | Some t => t + 4 * ((va / 4096) mod 1024)
  | None => 0
  end.

Lemma walk_find_wp pgdir va c s : is_u32 va ->
  wp (walkpgdir pgdir va false) c s (fun r c' s' =>
    c' = c /\ s' = s /\ r = walk_result (kmemory s) pgdir va).
Proof.
  intros Hva. unfold walkpgdir, get32. do 2 wp_step. rewrite (PDX_vpn va Hva), (PTX_vpn va).
  unfold walk_result, table_of, pde. destruct (flag _ _); cbn [negb]; by wp_step.
Qed.

Lemma walk_result_zero s pgdir va l : vinv kend s pgdir l -> is_u32 va ->
  walk_result (kmemory s) pgdir va = 0 <->
  table_of (kmemory s) pgdir (va / 4096 / 1024) = None.
Proof.
  intros Hi Hva. unfold walk_result.
  destruct (table_of _ _ _) as [t|] eqn:E; [|done]. split; [|done]. intros H. exfalso.
  destruct (vinv_table_valid kend s pgdir l (va / 4096 / 1024) t) as (Ht & _);
    [done|wrap_lia|done|]. unfold valid_page, KERNBASE in Ht. wrap_lia.
Qed.

(** The frame of an operation that only touches a directory's own pages
    and the free pages. *)
Definition vm_frame (pgdir : Z) (ts l : list Z) (m m' : mem) : Prop :=
  forall x, ~ in_page pgdir x -> (forall p, p ∈ ts ++ l -> ~ in_page p x) -> m' x = m x.

(** What every operation on a directory preserves: pages move between its
    tables and the free list, and nothing else is written. *)
Record vown (pgdir : Z) (s s' : kst) (l l' : list Z) : Prop := {
  vown_inv : vinv kend s' pgdir l';
  vown_perm : tabs (kmemory s') pgdir ++ l' ≡ₚ tabs (kmemory s) pgdir ++ l;
  vown_suffix : l' `suffix_of` l;
  vown_frame : vm_frame pgdir (tabs (kmemory s) pgdir) l (kmemory s) (kmemory s')
}.

(** The same, with the view unchanged. *)
Definition vgrow (pgdir : Z) (s s' : kst) (l l' : list Z) : Prop :=
  vown pgdir s s' l l' /\
  forall vpn, is_vpn vpn -> pte (kmemory s') pgdir vpn = pte (kmemory s) pgdir vpn.

Lemma short_vown k pgdir s s' l l' : vown pgdir s s' l l' -> short k pgdir s' l' -> short k pgdir s l.
Proof. intros H. apply vown_perm, Permutation_length in H. rewrite !length_app in H. unfold short. lia. Qed.

Lemma vown_refl pgdir s l : vinv kend s pgdir l -> vown pgdir s s l l.
Proof. intros H. by constructor. Qed.

Lemma vown_trans pgdir s1 s2 s3 l1 l2 l3 :
  vown pgdir s1 s2 l1 l2 -> vown pgdir s2 s3 l2 l3 -> vown pgdir s1 s3 l1 l3.
Proof.
  intros [H1 H2 H3 H4] [G1 G2 G3 G4]. constructor; [done|by rewrite G2|by etrans|].
  intros x Hx Hx'. rewrite G4; [by apply H4|done|]. intros p Hp. apply Hx'. by rewrite <- H2.
Qed.

Section new_table.
(** The free page [p] becomes the table of directory entry [i]. *)
Context (pgdir : Z) (s s' : kst) (p : Z) (l : list Z) (i w : Z).
Hypothesis Hi : vinv kend s pgdir (p :: l).
Hypothesis Hir : 0 <= i < 1024.
Hypothesis Hnone : table_of (kmemory s) pgdir i = None.
Hypothesis Hmem : kmemory s' = kmemory s.
Hypothesis Hk : kinv kend s' l.
Hypothesis Hw : is_u32 w.
Hypothesis Hwf : flag w PTE_P = true.
Hypothesis Hwa : P2V (PTE_ADDR w) = p.

Let m1 := memset (kmemory s') p 0 PGSIZE.
Let m2 := store32 m1 (pgdir + 4 * i) w.

Lemma nt_facts : valid_page kend p /\ valid_page kend pgdir /\ p <> pgdir /\
  (p ∉ tabs (kmemory s) pgdir) /\ (p ∉ l) /\ (pgdir ∉ l) /\ Forall (valid_page kend) l.
Proof.
  destruct Hi as [[_ _ HF _] Hd _ Hn]. apply Forall_cons in HF as [Hp HF].
  apply NoDup_cons in Hn as [H1 Hn]. apply NoDup_app in Hn as (_ & H2 & H3).
  apply NoDup_cons in H3 as [H3 _]. split_and!; try done; set_solver.
Qed.

Lemma nt_zero x : in_page p x -> m2 x = 0.
Proof.
  destruct nt_facts as (Hp & Hd & Hne & _). intros Hx.
  assert (~ in_page pgdir x) as Hx' by by apply (valid_pages_disjoint kend p).
  unfold m2, store32. case_match eqn:E.
  - destruct Hx'. apply (word_in_page pgdir i); [done|lia].
  - unfold m1. rewrite (memset_page kend) by done.
    unfold in_range, in_page in *. by zcases.
Qed.

Lemma nt_out x : ~ in_page p x -> ~ in_page pgdir x -> m2 x = kmemory s x.
Proof.
  intros Hx Hx'. destruct nt_facts as (Hp & _). unfold m2, store32. case_match eqn:E.
  - destruct Hx'. apply (word_in_page pgdir i); [done|lia].
  - unfold m1. rewrite (memset_page kend) by done. rewrite Hmem.
    unfold in_range, in_page in *. by zcases.
Qed.

Lemma nt_other j : 0 <= j < 1024 -> j <> i ->
  table_of m2 pgdir j = table_of (kmemory s) pgdir j.
Proof.
  destruct nt_facts as (Hp & Hd & Hne & _). intros Hj Hji. unfold table_of, pde, m2.
  rewrite load32_store32_ne by lia. rewrite (load32_page_ext (kmemory s) m1); [done..|].
  intros x Hx. unfold m1. rewrite (memset_page kend) by done. rewrite Hmem.
  assert (~ in_page p x) as Hx' by by apply (valid_pages_disjoint kend pgdir).
  unfold in_range, in_page in *. by zcases.
Qed.

Lemma nt_new : table_of m2 pgdir i = Some p.
Proof. unfold table_of, pde, m2. rewrite load32_store32 by done. by rewrite Hwf, Hwa. Qed.

Lemma nt_tabs : tabs m2 pgdir ≡ₚ p :: tabs (kmemory s) pgdir.
Proof.
  apply (omap_add _ _ _ i p); [apply NoDup_dir_indices|by apply elem_of_dir_indices|done
    |apply nt_new|].
  intros j Hj%elem_of_dir_indices ?. by apply nt_other.
Qed.

Lemma nt_pte vpn : is_vpn vpn -> pte m2 pgdir vpn = pte (kmemory s) pgdir vpn.
Proof.
  intros Hv. unfold is_vpn in Hv. rewrite !table_of_pte.
  destruct (Z.eq_dec (vpn / 1024) i) as [->|Hne].
  { rewrite nt_new, Hnone. unfold load32.
    rewrite !nt_zero by (unfold in_page, PGSIZE; wrap_lia). done. }
  rewrite nt_other by (done || wrap_lia).
  destruct (table_of (kmemory s) pgdir (vpn / 1024)) as [t|] eqn:Et; [|done].
  destruct nt_facts as (Hp & Hd & _).
  destruct (vinv_table_valid kend s pgdir (p :: l) (vpn / 1024) t) as (Ht & Htd & Htl);
    [done|wrap_lia|done|]. apply not_elem_of_cons in Htl as [Htp _].
  apply load32_page_ext; [wrap_lia|]. intros x Hx.
  apply nt_out; by apply (valid_pages_disjoint kend t).
Qed.

Lemma nt_grow : vgrow pgdir s (set_memory m2 s') (p :: l) l.
Proof.
  destruct nt_facts as (Hp & Hd & Hne & Hpt & Hpl & Hdl & HF).
  assert (tabs m2 pgdir ++ l ≡ₚ tabs (kmemory s) pgdir ++ p :: l) as Hperm
    by (rewrite nt_tabs; simpl; apply Permutation_middle).
  split; [|apply nt_pte]. constructor; simpl.
  - constructor; simpl; [|done| |].
    + eapply kinv_frame; [apply Hk| |done|].
      * apply store32_wf, memset_wf, Hk.
      * intros q x Hq Hx. cbn. rewrite Hmem. rewrite Forall_forall in HF.
        apply nt_out; apply (valid_pages_disjoint kend q); auto; congruence.
    + rewrite nt_tabs. constructor; [done|apply Hi].
    + rewrite Hperm. apply Hi.
  - done.
  - by exists [p].
  - intros x Hx Hx'. apply nt_out; [|done]. apply Hx'. set_solver.
Qed.
End new_table.

(** After a walk with allocation the view is unchanged and the entry's
    table exists; a new table is taken from the free list. *)
Lemma walk_alloc_wp pgdir va c s l : vinv kend s pgdir l -> is_u32 va -> kmem_free c s ->
  wp (walkpgdir pgdir va true) c s (fun r c' s' => c' = c /\ use_lock s' = use_lock s /\
    ((r = 0 /\ s' = s /\ l = []) \/
     (r <> 0 /\ exists t l', r = t + 4 * ((va / 4096) mod 1024) /\
       table_of (kmemory s') pgdir (va / 4096 / 1024) = Some t /\ vgrow pgdir s s' l l'))).
Proof.
  intros Hi Hva Hc. unfold walkpgdir, get32. do 2 wp_step.
  rewrite (PDX_vpn va Hva), (PTX_vpn va).
  set (i := va / 4096 / 1024). assert (Hir : 0 <= i < 1024) by (unfold i; wrap_lia).
  destruct (flag _ _) eqn:E.
  { wp_step. split_and!; try done. right.
    assert (Et : table_of (kmemory s) pgdir i =
                 Some (P2V (PTE_ADDR (pde (kmemory s) pgdir i))))
      by (unfold table_of, pde; by rewrite E).
    destruct (vinv_table_valid kend s pgdir l i _ Hi Hir Et) as (Hv & _ & _).
    split; [unfold valid_page, KERNBASE, pde in Hv; wrap_lia|].
    eexists _, l. by split_and!. }
  cbn [negb]. wp_step.
  eapply wp_mono; [|apply kalloc_wp with (l := l); [apply Hi|done]].
  intros r ? s' (-> & Hm & Hu & Hr). cbn beta. destruct l as [|p l].
  { destruct Hr as [-> ->]. rewrite Z.eqb_refl. wp_step. split_and!; try done. by left. }
  destruct Hr as [-> Hk'].
  assert (Hp : valid_page kend p).
  { pose proof (kinv_valid _ _ _ (vinv_k _ _ _ _ Hi)) as HF. by apply Forall_cons in HF as [? _]. }
  pose proof (valid_page_nonzero _ _ Hp) as Hnz. rewrite (proj2 (Z.eqb_neq p 0) Hnz).
  unfold kmemset, put32. do 5 wp_step. split_and!; try done. right.
  destruct (new_pde kend p Hp) as (Hw & Hwf & Hwa).
  assert (E0 : table_of (kmemory s) pgdir i = None) by (unfold table_of, pde; by rewrite E).
  split; [unfold valid_page, KERNBASE in Hp; wrap_lia|].
  exists p, l. split_and!; [done|by apply nt_new|].
  exact (nt_grow pgdir s s' p l i _ Hi Hir E0 Hm Hk' Hw Hwf Hwa).
Qed.

(** Writing an entry keeps the directory's pages. *)
Lemma put_pte_own s pgdir l vpn t v : vinv kend s pgdir l -> is_vpn vpn -> is_u32 v ->
  table_of (kmemory s) pgdir (vpn / 1024) = Some t ->
  let s' := set_memory (store32 (kmemory s) (t + 4 * (vpn mod 1024)) v) s in
  vown pgdir s s' l l /\
  forall vpn', is_vpn vpn' -> pte (kmemory s') pgdir vpn' =
    if vpn' =? vpn then v else pte (kmemory s) pgdir vpn'.
Proof.
  intros Hi Hv Hw E s'.
  destruct (put_pte_spec kend s pgdir l vpn t v Hi Hv Hw E) as (H1 & H2 & H3 & H4).
  split; [|done]. constructor; simpl; [done|by rewrite H2|done|].
  intros x _ Hx. apply H4, Hx. apply elem_of_app. left. apply elem_of_tabs.
  eexists. split; [|done]. unfold is_vpn in Hv. wrap_lia.
Qed.

(** * mappages *)

(** [k] pages from page number [v] mapped to consecutive frames. *)
Definition map_view (v k pa f : Z) (old : Z -> Z) (vpn : Z) : Z :=
  if (v <=? vpn) && (vpn <? v + k) then pa + 4096 * (vpn - v) + f else old vpn.

Lemma mappages_loop_wp n : forall pgdir v pa perm c s l,
  vinv kend s pgdir l -> kmem_free c s ->
  0 <= v -> v + Z.of_nat n < 1048576 -> pa mod 4096 = 0 -> 0 <= pa ->
  pa + 4096 * Z.of_nat n < 4294967296 -> 0 <= perm < 4096 ->
  (forall k, 0 <= k <= Z.of_nat n -> flag (pte (kmemory s) pgdir (v + k)) PTE_P = false) ->
  wp (mappages_loop (S n) pgdir (4096 * v) (4096 * (v + Z.of_nat n)) pa perm) c s
    (fun r c' s' => c' = c /\ use_lock s' = use_lock s /\ exists l' k,
       vown pgdir s s' l l' /\
       (forall vpn, is_vpn vpn -> pte (kmemory s') pgdir vpn =
          map_view v k pa (2 * (perm / 2) + 1) (pte (kmemory s) pgdir) vpn) /\
       ((r = 0 /\ k = Z.of_nat n + 1) \/ (r = -1 /\ 0 <= k <= Z.of_nat n /\ l' = []))).
Proof.
  induction n as [|n IH]; intros pgdir v pa perm c s l Hi Hc Hv1 Hv2 Ha Hpa1 Hpa2 Hpm Hun.
  all: cbn [mappages_loop]; wp_step;
    (eapply wp_mono; [|apply walk_alloc_wp with (l := l); try done; wrap_lia]);
    intros r ? s1 (-> & Hu & [(-> & -> & ->)|(Hnz & t & l' & Hr & Ht & Hown & Hpte)]).
  1,3: rewrite Z.eqb_refl; wp_step; split_and!; try done; exists [], 0;
    split_and!; [by apply vown_refl| |by right; split_and!; try lia];
    intros vpn _; unfold map_view; by zcases.
  all: rewrite (proj2 (Z.eqb_neq r 0) Hnz);
    replace (4096 * v / 4096) with v in Hr, Ht by wrap_lia;
    assert (Hvv : is_vpn v) by (unfold is_vpn; lia);
    assert (Hld : load32 (kmemory s1) r = pte (kmemory s) pgdir v)
      by (rewrite Hr, <- Hpte by done; rewrite table_of_pte; by rewrite Ht);
    unfold get32; cbn match; do 2 wp_step; rewrite Hld;
    assert (Hf : flag (pte (kmemory s) pgdir v) PTE_P = false)
      by (rewrite <- (Z.add_0_r v); apply Hun; lia);
    rewrite Hf; unfold put32; cbn match; do 2 wp_step;
    rewrite (pte_entry pa perm Ha Hpm);
    set (w := pa + (2 * (perm / 2) + 1));
    assert (Hw : is_u32 w) by (unfold w; wrap_lia);
    destruct (put_pte_own s1 pgdir l' v t w (vown_inv _ _ _ _ _ Hown) Hvv Hw Ht) as [Ho2 Hp2];
    rewrite <- Hr in Ho2, Hp2.
  - rewrite Z.add_0_r, Z.eqb_refl. wp_step. split_and!; [done|done|].
    exists l', 1. split_and!; [by eapply vown_trans| |left; lia].
    intros vpn Hvp. rewrite Hp2, Hpte by done. unfold map_view, w. zcases; lia || done.
  - rewrite (proj2 (Z.eqb_neq (4096 * v) _)) by lia.
    replace (u32 (4096 * v + PGSIZE)) with (4096 * (v + 1)) by (unfold PGSIZE; wrap_lia).
    replace (4096 * (v + Z.of_nat (S n))) with (4096 * (v + 1 + Z.of_nat n)) by lia.
    replace (u32 (pa + PGSIZE)) with (pa + 4096) by (unfold PGSIZE; wrap_lia).
    eapply wp_mono; [|apply IH with (l := l'); try done; try lia; try apply Ho2].
    + intros r' ? s3 (-> & Hu3 & l'' & k & Ho3 & Hp3 & Hres). split_and!; [done|by rewrite Hu3|].
      exists l'', (k + 1). split_and!.
      * eapply vown_trans; [done|]. by eapply vown_trans.
      * intros vpn Hvp. rewrite Hp3 by done. unfold map_view.
        destruct Hres as [[_ ->]|(_ & Hk & _)]; rewrite ?Hp2, ?Hpte by done; unfold w;
          zcases; lia || done.
      * destruct Hres as [[-> ->]|(-> & Hk & ->)]; [left|right]; split_and!; lia || done.
    + unfold kmem_free in *. simpl. by rewrite Hu.
    + wrap_lia.
    + intros k Hk. rewrite Hp2 by (unfold is_vpn; lia).
      rewrite (proj2 (Z.eqb_neq (v + 1 + k) v)) by lia. rewrite Hpte by (unfold is_vpn; lia).
      rewrite <- Z.add_assoc. apply Hun. lia.
Qed.
End walk.

(** * mappages of one page and of a range *)

Section mappages.
Variable kend : Z.

Lemma mappages_wp pgdir va size pa perm c s l :
  let v := va / 4096 in
  let k := (va + size - 1) / 4096 - v + 1 in
  vinv kend s pgdir l -> kmem_free c s ->
  0 <= va -> 0 < size -> va + size <= 4294967296 ->
  pa mod 4096 = 0 -> 0 <= pa -> pa + 4096 * k <= 4294967296 -> 0 <= perm < 4096 ->
  (forall i, 0 <= i < k -> flag (pte (kmemory s) pgdir (v + i)) PTE_P = false) ->
  wp (mappages pgdir va size pa perm) c s
    (fun r c' s' => c' = c /\ use_lock s' = use_lock s /\ exists l' j,
       vown kend pgdir s s' l l' /\
       (forall vpn, is_vpn vpn -> pte (kmemory s') pgdir vpn =
          map_view v j pa (2 * (perm / 2) + 1) (pte (kmemory s) pgdir) vpn) /\
       ((r = 0 /\ j = k) \/ (r = -1 /\ 0 <= j < k /\ l' = []))).
Proof.
  intros v k Hi Hc Hva Hsz Hend Ha Hpa Hpk Hpm Hun. unfold mappages.
  rewrite !PGROUNDDOWN_eq. fold v.
  replace (u32 (va + size - 1)) with (va + size - 1) by wrap_lia.
  assert (0 <= v) by (unfold v; wrap_lia). assert (1 <= k) by (unfold k, v; wrap_lia).
  assert (v + k <= 1048576) by (unfold k, v; wrap_lia).
  replace ((va + size - 1) / 4096) with (v + (k - 1)) by (unfold k; lia).
  replace (Z.to_nat (u32 (4096 * (v + (k - 1)) - 4096 * v) / PGSIZE) + 1)%nat
    with (S (Z.to_nat (k - 1))) by (unfold PGSIZE; wrap_lia).
  replace (v + (k - 1)) with (v + Z.of_nat (Z.to_nat (k - 1))) by lia.
  eapply wp_mono; [|apply mappages_loop_wp with (l := l); try done; try lia].
  - intros r ? s' (-> & Hu & l' & j & Ho & Hp & Hres). split_and!; try done.
    exists l', j. split_and!; try done.
    destruct Hres as [[-> ->]|(-> & Hj & ->)]; [left|right]; split_and!; lia || done.
  - intros i Hii. apply Hun. lia.
Qed.

(** A page of memory becomes a user mapping: what [allocuvm] does with the
    page it got. *)
Lemma map_page_wp pgdir v pa perm c s l :
  vinv kend s pgdir l -> kmem_free c s -> 0 <= v < 1048576 ->
  pa mod 4096 = 0 -> 0 <= pa < 4294967296 -> 0 <= perm < 4096 ->
  flag (pte (kmemory s) pgdir v) PTE_P = false ->
  wp (mappages pgdir (4096 * v) PGSIZE pa perm) c s
    (fun r c' s' => c' = c /\ use_lock s' = use_lock s /\ exists l',
       vown kend pgdir s s' l l' /\
       ((r = 0 /\ forall vpn, is_vpn vpn -> pte (kmemory s') pgdir vpn =
            if vpn =? v then pa + (2 * (perm / 2) + 1) else pte (kmemory s) pgdir vpn) \/
        (r = -1 /\ l' = [] /\ forall vpn, is_vpn vpn ->
            pte (kmemory s') pgdir vpn = pte (kmemory s) pgdir vpn))).
Proof.
  intros Hi Hc Hv Ha Hpa Hpm Hun.
  assert (Hk : (4096 * v + PGSIZE - 1) / 4096 - 4096 * v / 4096 + 1 = 1)
    by (unfold PGSIZE; wrap_lia).
  assert (Hvv : 4096 * v / 4096 = v) by wrap_lia.
  eapply wp_mono; [|apply mappages_wp with (l := l); rewrite ?Hk, ?Hvv; try done;
                    try (unfold PGSIZE; lia); wrap_lia || idtac].
  - intros r ? s' (-> & Hu & l' & j & Ho & Hp & Hres). rewrite Hk in Hres. rewrite Hvv in Hp.
    split_and!; try done. exists l'. split; [done|].
    destruct Hres as [[-> ->]|(-> & Hj & ->)]; [left|right]; split_and!; try done;
      intros vpn Hvpn; rewrite Hp by done; unfold map_view; zcases; lia || done.
  - intros i Hii. by replace (v + i) with v by lia.
Qed.
End mappages.
