(* ===== verification/UserVm.v ===== *)
(** * Process address spaces (vm.c): allocuvm, deallocuvm, copyout

    An address space owns its directory, its page tables and the frames of
    its user pages.  The theorems show what each operation does to the view
    of the directory, to the frames and to the free list. *)
From S2P Require Import Prelude CString Mmu Kalloc Vm PageTable.

#[local] Set Default Proof Using "Type".

(** * User pages *)

(** The page numbers below [KERNBASE]; sealed like [dir_indices]. *)
Definition user_vpns_aux : seal (seqZ 0 524288).
Proof. by eexists. Qed.
Definition user_vpns : list Z := unseal user_vpns_aux.

Lemma elem_of_user_vpns i : i ∈ user_vpns <-> 0 <= i < 524288.
Proof. unfold user_vpns. rewrite (seal_eq user_vpns_aux). rewrite elem_of_seqZ. lia. Qed.

Lemma NoDup_user_vpns : NoDup user_vpns.
Proof. unfold user_vpns. rewrite (seal_eq user_vpns_aux). apply NoDup_seqZ. Qed.

(** The kernel address of the frame an entry maps. *)
Definition page_of (w : Z) : option Z :=
  if flag w PTE_P then Some (P2V (PTE_ADDR w)) else None.

Definition upages (m : mem) (pgdir : Z) : list Z :=
  omap (fun vpn => page_of (pte m pgdir vpn)) user_vpns.

Lemma elem_of_upages m pgdir p :
  p ∈ upages m pgdir <-> exists vpn, 0 <= vpn < 524288 /\ page_of (pte m pgdir vpn) = Some p.
Proof. unfold upages. rewrite list_elem_of_omap. setoid_rewrite elem_of_user_vpns. naive_solver. Qed.

Lemma upages_ext m m' pgdir :
  (forall vpn, is_vpn vpn -> pte m' pgdir vpn = pte m pgdir vpn) ->
  upages m' pgdir = upages m pgdir.
Proof.
  intros H. apply omap_ext_in. intros vpn Hv%elem_of_user_vpns.
  rewrite H; [done|]. unfold is_vpn. lia.
Qed.

(** One entry changes from present to absent, or from absent to present. *)
Lemma upages_change m m' pgdir vpn w p :
  0 <= vpn < 524288 -> page_of (pte m pgdir vpn) = None -> page_of w = Some p ->
  (forall v, is_vpn v -> pte m' pgdir v = if v =? vpn then w else pte m pgdir v) ->
  upages m' pgdir ≡ₚ p :: upages m pgdir.
Proof.
  intros Hv Hn Hp Hm. apply (omap_add _ _ _ vpn p);
    [apply NoDup_user_vpns|by apply elem_of_user_vpns|done| |].
  - rewrite Hm by (unfold is_vpn; lia). by rewrite Z.eqb_refl.
  - intros j Hj%elem_of_user_vpns Hne. rewrite Hm by (unfold is_vpn; lia).
    by rewrite (proj2 (Z.eqb_neq j vpn) Hne).
Qed.

Lemma upages_none m pgdir :
  (forall vpn, 0 <= vpn < 524288 -> flag (pte m pgdir vpn) PTE_P = false) -> upages m pgdir = [].
Proof.
  intros H. unfold upages. transitivity (omap (fun _ : Z => @None Z) user_vpns).
  - apply omap_ext_in. intros vpn Hv%elem_of_user_vpns. unfold page_of. by rewrite H.
  - induction user_vpns; done.
Qed.

Section user.
Variable kend : Z.

(** A process address space: a well-formed directory whose user frames are
    allocatable pages, each mapped once and none of them free. *)
Record uinv (s : kst) (pgdir : Z) (l : list Z) : Prop := {
  uinv_v : vinv kend s pgdir l;
  uinv_valid : Forall (valid_page kend) (upages (kmemory s) pgdir);
  uinv_nodup : NoDup (pgdir :: tabs (kmemory s) pgdir ++ upages (kmemory s) pgdir ++ l)
}.

Lemma uinv_page s pgdir l vpn p : uinv s pgdir l -> 0 <= vpn < 524288 ->
  page_of (pte (kmemory s) pgdir vpn) = Some p ->
  valid_page kend p /\ p <> pgdir /\ (p ∉ tabs (kmemory s) pgdir) /\ (p ∉ l).
Proof.
  intros [_ HF Hn] Hv Hp.
  assert (p ∈ upages (kmemory s) pgdir) as Hin by (apply elem_of_upages; eauto).
  rewrite Forall_forall in HF. apply NoDup_cons in Hn as [H1 Hn].
  apply NoDup_app in Hn as (_ & H2 & Hn). apply NoDup_app in Hn as (_ & H3 & _).
  split_and!; [by apply HF|set_solver|set_solver|by apply H3].
Qed.

(** Changing memory outside the directory, its tables and the free pages. *)
Lemma vinv_frame s s' pgdir l : vinv kend s pgdir l -> kinv kend s' l ->
  (forall x, in_page pgdir x -> kmemory s' x = kmemory s x) -> vinv kend s' pgdir l.
Proof. intros [_ H2 H3 H4] Hk Hm. constructor; rewrite ?(tabs_frame (kmemory s)); done. Qed.

(** Freeing the frame of one page and clearing its entry. *)
Lemma free_upage_wp s pgdir l c vpn t p : uinv s pgdir l -> kmem_free c s ->
  0 <= vpn < 524288 -> table_of (kmemory s) pgdir (vpn / 1024) = Some t ->
  page_of (pte (kmemory s) pgdir vpn) = Some p ->
  wp (kfree kend p;; put32 (t + 4 * (vpn mod 1024)) 0) c s (fun _ c' s' =>
    c' = c /\ use_lock s' = use_lock s /\ uinv s' pgdir (p :: l) /\
    tabs (kmemory s') pgdir = tabs (kmemory s) pgdir /\
    (forall v, is_vpn v ->
       pte (kmemory s') pgdir v = if v =? vpn then 0 else pte (kmemory s) pgdir v) /\
    vm_frame pgdir (tabs (kmemory s) pgdir) (p :: l) (kmemory s) (kmemory s')).
Proof.
  intros Hi Hc Hv Ht Hp.
  destruct (uinv_page s pgdir l vpn p Hi Hv Hp) as (Hpv & Hpd & Hpt & Hpl).
  assert (Hdir : forall x, in_page pgdir x -> ~ in_page p x).
  { intros x. apply (valid_pages_disjoint kend); [apply Hi|done|congruence]. }
  assert (Htab : forall q x, q ∈ tabs (kmemory s) pgdir -> in_page q x -> ~ in_page p x).
  { intros q x Hq. apply (valid_pages_disjoint kend); [|done|congruence].
    pose proof (vinv_tabs _ _ _ _ (uinv_v _ _ _ Hi)) as HF. rewrite Forall_forall in HF. by apply HF. }
  wp_step. eapply wp_mono; [|apply kfree_wp with (l := l); try done; apply Hi].
  intros _ ? s1 (-> & Hk1 & Hu1 & Hm1). unfold put32. wp_step.
  assert (Hvpn : is_vpn vpn) by (unfold is_vpn; lia).
  assert (Htb1 : tabs (kmemory s1) pgdir = tabs (kmemory s) pgdir)
    by (apply tabs_frame; intros; apply Hm1; auto).
  assert (Hpte1 : forall v, is_vpn v -> pte (kmemory s1) pgdir v = pte (kmemory s) pgdir v)
    by (intros; apply pte_frame; eauto).
  assert (Hv1 : vinv kend s1 pgdir (p :: l)).
  { constructor; rewrite ?Htb1; try done; try apply Hi.
    destruct (uinv_v _ _ _ Hi) as [_ _ _ Hn]. rewrite <- Permutation_middle, perm_swap.
    apply NoDup_cons. split; [set_solver|done]. }
  assert (Ht1 : table_of (kmemory s1) pgdir (vpn / 1024) = Some t).
  { rewrite (table_of_frame (kmemory s)); [done|wrap_lia|]. intros. apply Hm1; auto. }
  destruct (put_pte_spec kend s1 pgdir (p :: l) vpn t 0 Hv1 Hvpn ltac:(unfold is_u32; lia) Ht1)
    as (Hv2 & Htb2 & Hpte2 & Hm2).
  set (s2 := set_memory _ s1) in *. cbn [kmemory set_memory] in *.
  assert (Hpte : forall v, is_vpn v -> pte (kmemory s2) pgdir v =
            if v =? vpn then 0 else pte (kmemory s) pgdir v)
    by (intros; rewrite Hpte2, Hpte1; done).
  assert (Hup : upages (kmemory s) pgdir ≡ₚ p :: upages (kmemory s2) pgdir).
  { apply (upages_change _ _ _ vpn (pte (kmemory s) pgdir vpn)); try done.
    - rewrite Hpte by done. by rewrite Z.eqb_refl.
    - intros v Hvv. rewrite Hpte by done. by destruct (Z.eqb_spec v vpn) as [->|]. }
  split_and!; try done.
  - constructor; [done| |].
    + pose proof (uinv_valid _ _ _ Hi) as HF. rewrite Hup in HF. by apply Forall_cons in HF as [_ ?].
    + pose proof (uinv_nodup _ _ _ Hi) as Hn. rewrite Hup in Hn. simpl in Hn.
      rewrite <- (Permutation_middle (upages (kmemory s2) pgdir)).
      change (kmemory s2) with (store32 (kmemory s1) (t + 4 * (vpn mod 1024)) 0).
      by rewrite Htb2, Htb1.
  - by rewrite <- Htb1.
  - intros x Hx Hx'. etrans; [apply Hm2|apply Hm1].
    + apply Hx', elem_of_app. left. apply elem_of_tabs. exists (vpn / 1024).
      split; [wrap_lia|done].
    + apply Hx'. set_solver.
Qed.
End user.

(** * deallocuvm *)

Section dealloc.
Variable kend : Z.
Hypothesis Hkend : KERNBASE < kend.

(** The entries of page numbers [lo..hi) that were present are cleared. *)
Definition unmap_view (lo hi : Z) (old : Z -> Z) (vpn : Z) : Z :=
  if (lo <=? vpn) && (vpn <? hi) && flag (old vpn) PTE_P then 0 else old vpn.

(** Pages of the address space move to the free list. *)
Record udrop (pgdir : Z) (s s' : kst) (l l' : list Z) : Prop := {
  udrop_inv : uinv kend s' pgdir l';
  udrop_tabs : tabs (kmemory s') pgdir = tabs (kmemory s) pgdir;
  udrop_perm : upages (kmemory s') pgdir ++ l' ≡ₚ upages (kmemory s) pgdir ++ l;
  udrop_free : forall p, p ∈ l -> p ∈ l';
  udrop_frame : vm_frame pgdir (tabs (kmemory s) pgdir) l' (kmemory s) (kmemory s')
}.

Lemma udrop_refl pgdir s l : uinv kend s pgdir l -> udrop pgdir s s l l.
Proof. intros H. by constructor. Qed.

Lemma udrop_trans pgdir s1 s2 s3 l1 l2 l3 :
  udrop pgdir s1 s2 l1 l2 -> udrop pgdir s2 s3 l2 l3 -> udrop pgdir s1 s3 l1 l3.
Proof.
  intros [H1 H2 H3 H4 H5] [G1 G2 G3 G4 G5].
  constructor; [done|by rewrite G2|by rewrite G3|auto|].
  intros x Hx Hx'. trans (kmemory s2 x).
  - apply G5; [done|]. by rewrite H2.
  - apply H5; [done|]. intros p [Hp|Hp]%elem_of_app; apply Hx', elem_of_app; auto.
Qed.

Lemma page_of_present w : flag w PTE_P = true -> page_of w = Some (P2V (PTE_ADDR w)).
Proof. intros H. unfold page_of. by rewrite H. Qed.

(** The address of a mapped frame is not 0. *)
Lemma upage_pa_nonzero s pgdir l vpn : uinv kend s pgdir l -> 0 <= vpn < 524288 ->
  flag (pte (kmemory s) pgdir vpn) PTE_P = true ->
  PTE_ADDR (pte (kmemory s) pgdir vpn) <> 0.
Proof using Hkend.
  intros Hi Hv Hf H0. destruct (uinv_page kend s pgdir l vpn _ Hi Hv (page_of_present _ Hf))
    as ((_ & H & _) & _). rewrite H0 in H. change (P2V 0) with KERNBASE in H. lia.
Qed.

Lemma unmap_view_skip lo mid hi old vpn : lo <= mid ->
  (forall v, lo <= v < mid -> flag (old v) PTE_P = false) ->
  unmap_view lo hi old vpn = unmap_view mid hi old vpn.
Proof.
  intros Hm H. unfold unmap_view.
  destruct (Z.leb_spec lo vpn), (Z.leb_spec mid vpn); try done; try lia.
  rewrite (H vpn) by lia. by rewrite andb_comm.
Qed.

Lemma deallocuvm_loop_wp n : forall pgdir v oldsz c s l,
  uinv kend s pgdir l -> kmem_free c s -> 0 <= v -> 0 <= oldsz <= KERNBASE ->
  npages oldsz - v <= Z.of_nat n ->
  wp (deallocuvm_loop kend n pgdir (4096 * v) oldsz) c s (fun _ c' s' =>
    c' = c /\ use_lock s' = use_lock s /\ exists l', udrop pgdir s s' l l' /\
    forall vpn, is_vpn vpn -> pte (kmemory s') pgdir vpn =
      unmap_view v (npages oldsz) (pte (kmemory s) pgdir) vpn).
Proof using Hkend.
  unfold KERNBASE, npages.
  induction n as [|n IH]; intros pgdir v oldsz c s l Hi Hc Hv Hsz Hn.
  { cbn [deallocuvm_loop]. destruct (Z.ltb_spec (4096 * v) oldsz); [wrap_lia|]. wp_step.
    split_and!; try done. exists l. split; [by apply udrop_refl|].
    intros vpn _. unfold unmap_view. zcases; wrap_lia. }
  cbn [deallocuvm_loop]. destruct (Z.ltb_spec (4096 * v) oldsz) as [Hlt|Hge].
  2: { wp_step. split_and!; try done. exists l. split; [by apply udrop_refl|].
       intros vpn _. unfold unmap_view. zcases; wrap_lia. }
  assert (Hvv : 0 <= v < 524288) by lia.
  wp_step. eapply wp_mono; [|apply (walk_find_wp pgdir (4096 * v)); wrap_lia].
  intros r ? ? (-> & -> & Hr).
  pose proof (walk_result_zero kend s pgdir (4096 * v) l (uinv_v _ _ _ _ Hi)
                ltac:(wrap_lia)) as Hz. rewrite <- Hr in Hz.
  unfold walk_result in Hr. replace (4096 * v / 4096) with v in Hr, Hz by wrap_lia.
  destruct (Z.eqb_spec r 0) as [Hr0|Hr0].
  - (* no table: skip to the next directory entry *)
    assert (Ht : table_of (kmemory s) pgdir (v / 1024) = None) by by apply Hz.
    assert (Hnext : u32 (u32 (PGADDR (PDX (4096 * v) + 1) 0 0 - PGSIZE) + PGSIZE)
                    = 4096 * (1024 * (v / 1024 + 1))).
    { rewrite PDX_vpn by wrap_lia. replace (4096 * v / 4096) with v by wrap_lia.
      unfold PGADDR, PDXSHIFT, PTXSHIFT, PGSIZE. rewrite Z.shiftl_0_l, !Z.lor_0_r.
      rewrite Z.shiftl_mul_pow2 by lia. change (2 ^ 22) with 4194304. wrap_lia. }
    rewrite Hnext.
    eapply wp_mono; [|apply IH with (l := l); try done; wrap_lia].
    intros _ ? s' (-> & Hu & l' & Hd & Hp). split_and!; [done..|]. exists l'. split; [done|].
    intros vpn Hvpn. rewrite Hp by done. symmetry. apply unmap_view_skip; [wrap_lia|].
    intros v' Hv'. rewrite table_of_pte. replace (v' / 1024) with (v / 1024) by wrap_lia.
    by rewrite Ht.
  - destruct (table_of (kmemory s) pgdir (v / 1024)) as [t|] eqn:Ht; [|by destruct Hr0].
    unfold get32. do 2 wp_step.
    assert (Hld : load32 (kmemory s) r = pte (kmemory s) pgdir v)
      by (rewrite table_of_pte, Ht; by rewrite Hr).
    rewrite Hld. replace (u32 (4096 * v + PGSIZE)) with (4096 * (v + 1))
      by (unfold PGSIZE; wrap_lia).
    destruct (flag (pte (kmemory s) pgdir v) PTE_P) eqn:Hf.
    + pose proof (upage_pa_nonzero s pgdir l v Hi Hvv Hf) as Hpa.
      rewrite (proj2 (Z.eqb_neq _ 0) Hpa). wp_step. rewrite Hr.
      eapply wp_mono; [|apply (free_upage_wp kend s pgdir l c v t); try done;
                        by apply page_of_present].
      intros _ ? s1 (-> & Hu1 & Hi1 & Htb1 & Hp1 & Hf1).
      assert (Hd1 : udrop pgdir s s1 l (P2V (PTE_ADDR (pte (kmemory s) pgdir v)) :: l)).
      { constructor; try done; [|set_solver].
        rewrite <- Permutation_middle. rewrite app_comm_cons. apply Permutation_app_tail.
        symmetry. apply (upages_change _ _ _ v (pte (kmemory s) pgdir v)); try done.
        - rewrite Hp1 by (unfold is_vpn; lia). by rewrite Z.eqb_refl.
        - by apply page_of_present.
        - intros v' Hv'. rewrite Hp1 by done. by destruct (Z.eqb_spec v' v) as [->|]. }
      eapply wp_mono; [|apply IH; [apply Hd1| |lia|done|wrap_lia]].
      2: { unfold kmem_free in *. by rewrite Hu1. }
      intros _ ? s2 (-> & Hu2 & l2 & Hd2 & Hp2). split_and!; [done|by rewrite Hu2|].
      exists l2. split; [by eapply udrop_trans|]. intros vpn Hvpn. rewrite Hp2 by done.
      unfold unmap_view. rewrite Hp1 by done. destruct (Z.eqb_spec vpn v) as [->|].
      * rewrite Hf. zcases; try done; wrap_lia.
      * zcases; done.
    + wp_step. wp_step. eapply wp_mono; [|apply IH with (l := l); try done; wrap_lia].
      intros _ ? s' (-> & Hu & l' & Hd & Hp). split_and!; [done..|]. exists l'. split; [done|].
      intros vpn Hvpn. rewrite Hp by done. symmetry. apply unmap_view_skip; [lia|].
      intros v' Hv'. by replace v' with v by lia.
Qed.
End dealloc.

(** * allocuvm *)

Section alloc.
Variable kend : Z.

(** The pages of the address space and the free pages, together. *)
Definition upool (pgdir : Z) (s : kst) (l : list Z) : list Z :=
  tabs (kmemory s) pgdir ++ upages (kmemory s) pgdir ++ l.

(** A free page [p] taken from the list and overwritten. *)
Record taken (pgdir : Z) (s s' : kst) (p : Z) (l : list Z) : Prop := {
  taken_v : vinv kend s' pgdir l;
  taken_p : valid_page kend p;
  taken_tabs : tabs (kmemory s') pgdir = tabs (kmemory s) pgdir;
  taken_pte : forall vpn, is_vpn vpn -> pte (kmemory s') pgdir vpn = pte (kmemory s) pgdir vpn;
  taken_out : forall x, ~ in_page p x -> kmemory s' x = kmemory s x
}.

Lemma take_page pgdir s s1 p l m' : uinv kend s pgdir (p :: l) ->
  kmemory s1 = kmemory s -> kinv kend s1 l -> mem_wf m' ->
  (forall x, ~ in_page p x -> m' x = kmemory s x) ->
  taken pgdir s (set_memory m' s1) p l.
Proof.
  intros [Hv HF Hn] Hm Hk Hw Hm'.
  destruct Hv as [[_ _ Hl _] Hd Ht Hnv]. apply Forall_cons in Hl as [Hp Hl].
  apply NoDup_cons in Hnv as [Hdn Hnv].
  apply NoDup_app in Hnv as (Hnt & Htl & Hnl). apply NoDup_cons in Hnl as [Hpl Hnl].
  assert (p <> pgdir) as Hpd by set_solver.
  assert (Hdir : forall x, in_page pgdir x -> m' x = kmemory s x).
  { intros x Hx. apply Hm'. by apply (valid_pages_disjoint kend pgdir). }
  assert (Htabs : tabs m' pgdir = tabs (kmemory s) pgdir) by by apply tabs_frame.
  rewrite Forall_forall in Ht, Hl. constructor; try done.
  - constructor; simpl; rewrite ?Htabs; try done.
    + eapply kinv_frame; [apply Hk|done|done|]. intros q x Hq Hx. simpl. rewrite Hm.
      apply Hm'. apply (valid_pages_disjoint kend q); auto. congruence.
    + by apply Forall_forall.
    + apply NoDup_cons. split; [set_solver|]. apply NoDup_app. split_and!; try done.
      intros q Hq Hq'. apply (Htl q Hq). by right.
  - intros vpn Hvpn. apply pte_frame; try done. intros t x Hin Hx. apply Hm'.
    apply (valid_pages_disjoint kend t); auto. intros ->. apply (Htl p); [done|left].
Qed.

(** The entry [allocuvm] installs. *)
Lemma upage_entry p : valid_page kend p ->
  let w := V2P p + (2 * (Z.lor PTE_W PTE_U / 2) + 1) in
  w = V2P p + 7 /\ page_of w = Some p /\ V2P p mod 4096 = 0 /\ 0 <= V2P p < PHYSTOP.
Proof.
  intros (Ha & _ & Hr) w. change (2 * (Z.lor PTE_W PTE_U / 2) + 1) with 7 in w.
  assert (Hv : V2P p mod 4096 = 0 /\ 0 <= V2P p < PHYSTOP).
  { unfold V2P, KERNBASE, PHYSTOP, PGSIZE in *. wrap_lia. }
  split_and!; try done; [|apply Hv..]. unfold w, page_of. rewrite flag_P.
  replace (negb ((V2P p + 7) mod 2 =? 0)) with true by (destruct Hv; wrap_lia).
  rewrite PTE_ADDR_build by (apply Hv || lia). f_equal. apply P2V_V2P.
  unfold KERNBASE, PHYSTOP, is_u32 in *. lia.
Qed.

(** The page becomes a user page of the address space. *)
Lemma add_upage pgdir s s1 s2 p l l2 v w : uinv kend s pgdir (p :: l) ->
  taken pgdir s s1 p l -> vown kend pgdir s1 s2 l l2 -> 0 <= v < 524288 ->
  page_of (pte (kmemory s) pgdir v) = None -> page_of w = Some p ->
  (forall vpn, is_vpn vpn -> pte (kmemory s2) pgdir vpn =
     if vpn =? v then w else pte (kmemory s1) pgdir vpn) ->
  uinv kend s2 pgdir l2 /\ upages (kmemory s2) pgdir ≡ₚ p :: upages (kmemory s) pgdir /\
  upool pgdir s2 l2 ≡ₚ upool pgdir s (p :: l) /\
  vm_frame pgdir (tabs (kmemory s) pgdir) (p :: l) (kmemory s) (kmemory s2) /\
  (forall x, in_page p x -> kmemory s2 x = kmemory s1 x).
Proof.
  intros Hi [Hv1 Hp Ht1 Hp1 Ho1] Hown Hv Hnone Hpg Hp2.
  assert (Hup : upages (kmemory s2) pgdir ≡ₚ p :: upages (kmemory s) pgdir).
  { apply (upages_change _ _ _ v w); try done.
    intros vpn Hvpn. rewrite Hp2, Hp1 by done. done. }
  pose proof (vown_perm _ _ _ _ _ _ Hown) as Hperm.
  assert (Hpool : upool pgdir s2 l2 ≡ₚ upool pgdir s (p :: l)).
  { unfold upool. rewrite Hup. rewrite Ht1 in Hperm.
    rewrite (Permutation_app_comm (p :: _) l2), app_assoc, Hperm.
    rewrite <- app_assoc. f_equiv. rewrite (Permutation_app_comm l). simpl.
    apply Permutation_middle. }
  assert (Hnd : NoDup (pgdir :: upool pgdir s (p :: l))) by apply Hi.
  split_and!; try done.
  - constructor; [apply Hown| |].
    + rewrite Hup. constructor; [done|apply Hi].
    + fold (upool pgdir s2 l2). by rewrite Hpool.
  - intros x Hx Hx'. rewrite (vown_frame _ _ _ _ _ _ Hown); [apply Ho1|done|].
    + apply Hx'. set_solver.
    + rewrite Ht1. intros q Hq. apply Hx'. set_solver.
  - intros x Hx. apply (vown_frame _ _ _ _ _ _ Hown).
    + apply (valid_pages_disjoint kend p); try done; [apply Hi|].
      intros ->. apply NoDup_cons in Hnd as [Hnd _]. unfold upool in Hnd. set_solver.
    + intros q Hq. rewrite Ht1 in Hq. apply NoDup_cons in Hnd as [_ Hnd].
      unfold upool in Hnd. apply NoDup_app in Hnd as (_ & Hd1 & Hnd).
      apply NoDup_app in Hnd as (_ & _ & Hnd). apply NoDup_cons in Hnd as [Hpl _].
      apply (valid_pages_disjoint kend p); try done.
      * apply elem_of_app in Hq as [Hq|Hq].
        -- pose proof (vinv_tabs _ _ _ _ (uinv_v _ _ _ _ Hi)) as HF.
           rewrite Forall_forall in HF. by apply HF.
        -- pose proof (kinv_valid _ _ _ (vinv_k _ _ _ _ (uinv_v _ _ _ _ Hi))) as HF.
           rewrite Forall_forall in HF. apply HF. by right.
      * intros ->. apply elem_of_app in Hq as [Hq|Hq]; [|done]. apply (Hd1 q Hq). set_solver.
Qed.

(** The effect of an operation on an address space as seen from outside:
    the pool of pages is conserved, user frames that stay mapped keep
    their contents, and memory outside the pool is untouched. *)
Record ueff (pgdir : Z) (s s' : kst) (l l' : list Z) : Prop := {
  ueff_inv : uinv kend s' pgdir l';
  ueff_pool : upool pgdir s' l' ≡ₚ upool pgdir s l;
  ueff_keep : forall q x, q ∈ upages (kmemory s) pgdir -> q ∈ upages (kmemory s') pgdir ->
    in_page q x -> kmemory s' x = kmemory s x;
  ueff_out : forall x, (forall q, q ∈ pgdir :: upool pgdir s l -> ~ in_page q x) ->
    kmemory s' x = kmemory s x
}.

Lemma ueff_refl pgdir s l : uinv kend s pgdir l -> ueff pgdir s s l l.
Proof. intros H. by constructor. Qed.

Lemma ueff_trans pgdir s1 s2 s3 l1 l2 l3 :
  ueff pgdir s1 s2 l1 l2 -> ueff pgdir s2 s3 l2 l3 ->
  (forall q, q ∈ upages (kmemory s1) pgdir -> q ∈ upages (kmemory s3) pgdir ->
     q ∈ upages (kmemory s2) pgdir) ->
  ueff pgdir s1 s3 l1 l3.
Proof.
  intros [H1 H2 H3 H4] [G1 G2 G3 G4] Hq. constructor; [done|by rewrite G2| |].
  - intros q x Hq1 Hq3 Hx. rewrite (G3 q), (H3 q); auto.
  - intros x Hx. rewrite G4, H4; try done. intros q Hq'. apply Hx. by rewrite <- H2.
Qed.

Lemma upool_valid s pgdir l q : uinv kend s pgdir l -> q ∈ pgdir :: upool pgdir s l ->
  valid_page kend q.
Proof.
  intros [[[_ _ Hl _] Hd Ht _] Hu _] Hq. unfold upool in Hq. rewrite Forall_forall in *.
  rewrite elem_of_cons, !elem_of_app in Hq. naive_solver.
Qed.

(** A user frame is disjoint from the directory, the tables and the free
    pages. *)
Lemma upage_apart s pgdir l q x : uinv kend s pgdir l -> q ∈ upages (kmemory s) pgdir ->
  in_page q x -> ~ in_page pgdir x /\
  forall p, p ∈ tabs (kmemory s) pgdir ++ l -> ~ in_page p x.
Proof.
  intros Hi Hq Hx. pose proof (uinv_nodup _ _ _ _ Hi) as Hn.
  assert (forall p, p ∈ pgdir :: upool pgdir s l -> p <> q -> ~ in_page p x) as Hne.
  { intros p Hp Hpq. apply (valid_pages_disjoint kend q); [..|congruence|done].
    - apply (upool_valid s pgdir l); [done|]. unfold upool. set_solver.
    - by apply (upool_valid s pgdir l). }
  apply NoDup_cons in Hn as [H1 Hn]. apply NoDup_app in Hn as (_ & H2 & Hn).
  apply NoDup_app in Hn as (_ & H3 & _). split.
  - apply Hne; [left|]. intros ->. apply H1. set_solver.
  - intros p Hp. apply Hne; [unfold upool; set_solver|]. intros ->.
    apply elem_of_app in Hp as [Hp|Hp]; [apply (H2 q Hp); set_solver|by apply (H3 q)].
Qed.

Lemma udrop_ueff pgdir s s' l l' : udrop kend pgdir s s' l l' -> ueff pgdir s s' l l'.
Proof.
  intros [H1 H2 H3 H4 H5].
  assert (Hpool : upool pgdir s' l' ≡ₚ upool pgdir s l) by (unfold upool; by rewrite H2, H3).
  constructor; [done|done| |].
  - intros q x Hq Hq' Hx. destruct (upage_apart s' pgdir l' q x H1 Hq' Hx) as [Ha Hb].
    rewrite H2 in Hb. by apply H5.
  - intros x Hx. apply H5; [apply Hx; left|]. intros p Hp. apply Hx. right.
    rewrite <- Hpool. unfold upool. rewrite H2. set_solver.
Qed.

Hypothesis Hkend : KERNBASE < kend.

Lemma deallocuvm_wp pgdir oldsz newsz c s l :
  uinv kend s pgdir l -> kmem_free c s -> 0 <= newsz -> 0 <= oldsz <= KERNBASE ->
  wp (deallocuvm kend pgdir oldsz newsz) c s (fun r c' s' =>
    c' = c /\ use_lock s' = use_lock s /\ r = Z.min oldsz newsz /\
    exists l', udrop kend pgdir s s' l l' /\
    forall vpn, is_vpn vpn -> pte (kmemory s') pgdir vpn =
      unmap_view (npages newsz) (npages oldsz) (pte (kmemory s) pgdir) vpn).
Proof using Hkend.
  intros Hi Hc Hn Ho. unfold deallocuvm. rewrite Z.geb_leb.
  destruct (Z.leb_spec oldsz newsz).
  - wp_step. split_and!; [done..|lia|]. exists l. split; [by apply udrop_refl|].
    intros vpn _. unfold unmap_view, npages. zcases; wrap_lia.
  - rewrite PGROUNDUP_eq. unfold KERNBASE in Ho.
    replace (u32 (newsz + 4095) / 4096) with (npages newsz) by (unfold npages; wrap_lia).
    wp_step. eapply wp_mono; [|apply deallocuvm_loop_wp with (l := l); try done].
    + intros _ ? s' (-> & Hu & l' & Hd & Hp). wp_step. split_and!; [done..|lia|]. by exists l'.
    + unfold npages. wrap_lia.
    + unfold npages, PGSIZE. wrap_lia.
Qed.

(** Giving back a page that the address space does not use. *)
Lemma return_page_wp pgdir s l p c : uinv kend s pgdir l -> kmem_free c s ->
  valid_page kend p -> p ∉ pgdir :: upool pgdir s l ->
  wp (kfree kend p) c s (fun _ c' s' => c' = c /\ use_lock s' = use_lock s /\
    uinv kend s' pgdir (p :: l) /\ tabs (kmemory s') pgdir = tabs (kmemory s) pgdir /\
    (forall vpn, is_vpn vpn -> pte (kmemory s') pgdir vpn = pte (kmemory s) pgdir vpn) /\
    (forall x, ~ in_page p x -> kmemory s' x = kmemory s x)).
Proof. clear Hkend.
  intros Hi Hc Hp Hnp.
  eapply wp_mono; [|apply kfree_wp with (l := l); try done; [apply Hi|unfold upool in Hnp; set_solver]].
  intros _ ? s' (-> & Hk & Hu & Hm).
  assert (Hdis : forall q x, q ∈ pgdir :: upool pgdir s l -> in_page q x -> ~ in_page p x).
  { intros q x Hq. apply (valid_pages_disjoint kend); [by eapply upool_valid|done|congruence]. }
  assert (Htabs : tabs (kmemory s') pgdir = tabs (kmemory s) pgdir).
  { apply tabs_frame. intros x Hx. apply Hm. apply (Hdis pgdir); [left|done]. }
  assert (Hpte : forall vpn, is_vpn vpn ->
            pte (kmemory s') pgdir vpn = pte (kmemory s) pgdir vpn).
  { intros vpn Hv. apply pte_frame; [done|..].
    - intros x Hx. apply Hm. apply (Hdis pgdir); [left|done].
    - intros t x Ht Hx. apply Hm. apply (Hdis t); [unfold upool; set_solver|done]. }
  split_and!; try done.
  constructor; rewrite ?Htabs, ?(upages_ext (kmemory s)) by done.
  - constructor; rewrite ?Htabs; try done; try apply Hi.
    destruct (uinv_v _ _ _ _ Hi) as [_ _ _ Hn]. rewrite <- Permutation_middle, perm_swap.
    apply NoDup_cons. split; [|done]. unfold upool in Hnp. set_solver.
  - apply Hi.
  - rewrite app_assoc, <- Permutation_middle, perm_swap, <- app_assoc.
    apply NoDup_cons. split; [done|]. apply Hi.
Qed.

(** What a successful run of the loop has done to pages [v..hi). *)
Definition fresh_pages (pgdir v hi : Z) (l : list Z) (s s' : kst) : Prop :=
  (forall vpn, is_vpn vpn -> ~ (v <= vpn < hi) ->
     pte (kmemory s') pgdir vpn = pte (kmemory s) pgdir vpn) /\
  (forall vpn, v <= vpn < hi -> exists p, p ∈ l /\ pte (kmemory s') pgdir vpn = V2P p + 7 /\
     forall x, in_page p x -> kmemory s' x = 0).

(** The failure path: everything above [oldsz] is unmapped again. *)
Definition rolled_back (pgdir v0 hi : Z) (s s' : kst) : Prop :=
  forall vpn, is_vpn vpn -> pte (kmemory s') pgdir vpn =
    if (v0 <=? vpn) && (vpn <? hi) then 0 else pte (kmemory s) pgdir vpn.

Lemma unmap_rolled pgdir v0 v hi s0 s s' :
  (forall vpn, v0 <= vpn < v -> flag (pte (kmemory s0) pgdir vpn) PTE_P = true) ->
  (forall vpn, v <= vpn < hi -> pte (kmemory s0) pgdir vpn = 0) ->
  (forall vpn, is_vpn vpn -> pte (kmemory s) pgdir vpn = pte (kmemory s0) pgdir vpn) ->
  (forall vpn, is_vpn vpn -> pte (kmemory s') pgdir vpn =
     unmap_view v0 hi (pte (kmemory s) pgdir) vpn) ->
  rolled_back pgdir v0 hi s0 s'.
Proof. clear Hkend.
  intros H1 H2 H3 H4 vpn Hv. rewrite H4 by done. unfold unmap_view. rewrite H3 by done.
  destruct ((v0 <=? vpn) && (vpn <? hi)) eqn:E; [|done]. cbn [andb].
  destruct (Z.lt_ge_cases vpn v); [by rewrite H1 by lia|].
  rewrite (H2 vpn) by lia. done.
Qed.

(** [mappages] had no page for a table: undo, and give the page back. *)
Lemma alloc_undo_wp pgdir s s1 s2 p l c oldsz newsz v :
  uinv kend s pgdir (p :: l) -> kmem_free c s2 -> taken pgdir s s1 p l ->
  vown kend pgdir s1 s2 l [] -> 0 <= oldsz <= newsz -> newsz < KERNBASE ->
  (forall vpn, is_vpn vpn -> pte (kmemory s2) pgdir vpn = pte (kmemory s1) pgdir vpn) ->
  (forall vpn, npages oldsz <= vpn < v -> flag (pte (kmemory s) pgdir vpn) PTE_P = true) ->
  (forall vpn, v <= vpn < npages newsz -> pte (kmemory s) pgdir vpn = 0) ->
  wp (deallocuvm kend pgdir newsz oldsz;; kfree kend p;; mret 0) c s2 (fun r c' s' =>
    c' = c /\ use_lock s' = use_lock s2 /\ r = 0 /\ exists l',
    ueff pgdir s s' (p :: l) l' /\ rolled_back pgdir (npages oldsz) (npages newsz) s s').
Proof using Hkend.
  intros Hi Hc [Hv1 Hp Ht1 Hp1 Ho1] Hown Ho Hn Hp2 Hprev Hcur.
  assert (Hpte2 : forall vpn, is_vpn vpn ->
            pte (kmemory s2) pgdir vpn = pte (kmemory s) pgdir vpn)
    by (intros; rewrite Hp2, Hp1; done).
  assert (Hup2 : upages (kmemory s2) pgdir = upages (kmemory s) pgdir) by by apply upages_ext.
  pose proof (vown_perm _ _ _ _ _ _ Hown) as Hperm. rewrite Ht1, app_nil_r in Hperm.
  assert (Hpool2 : p :: upool pgdir s2 [] ≡ₚ upool pgdir s (p :: l)).
  { unfold upool. rewrite Hup2, app_nil_r, Hperm, <- app_assoc.
    rewrite (Permutation_app_comm l), Permutation_middle. f_equiv.
    apply Permutation_middle. }
  assert (Hnd : NoDup (pgdir :: p :: upool pgdir s2 [])) by (rewrite Hpool2; apply Hi).
  rewrite perm_swap in Hnd. apply NoDup_cons in Hnd as [Hpn Hnd].
  assert (Hi2 : uinv kend s2 pgdir []).
  { constructor; [apply Hown|rewrite Hup2; apply Hi|exact Hnd]. }
  wp_step. eapply wp_mono; [|apply deallocuvm_wp with (l := []); try done; lia].
  intros r ? s3 (-> & Hu3 & _ & l3 & Hd3 & Hp3). wp_step.
  assert (Hpool3 : upool pgdir s3 l3 ≡ₚ upool pgdir s2 []) by apply (udrop_ueff _ _ _ _ _ Hd3).
  eapply wp_mono; [|apply (return_page_wp pgdir s3 l3); try done; [apply Hd3| |by rewrite Hpool3]].
  2: { unfold kmem_free in *. by rewrite Hu3. }
  intros _ ? s4 (-> & Hu4 & Hi4 & Ht4 & Hp4 & Hm4). wp_step.
  split_and!; [done|by rewrite Hu4, Hu3|done|]. exists (p :: l3).
  assert (Hup4 : upages (kmemory s4) pgdir = upages (kmemory s3) pgdir) by by apply upages_ext.
  split.
  - constructor; [done| | |].
    + rewrite <- Hpool2, <- Hpool3. unfold upool. rewrite Ht4, Hup4.
      rewrite !app_assoc. symmetry. apply Permutation_middle.
    + intros q x Hq Hq4 Hx. rewrite Hup4 in Hq4.
      assert (q <> p) as Hqp.
      { intros ->. apply Hpn. right. unfold upool. rewrite Hup2. set_solver. }
      assert (~ in_page p x) as Hxp.
      { apply (valid_pages_disjoint kend q); try done. apply (upool_valid s pgdir (p :: l)); [done|].
        unfold upool. set_solver. }
      rewrite Hm4, (ueff_keep _ _ _ _ _ (udrop_ueff _ _ _ _ _ Hd3) q) by (done || by rewrite Hup2).
      destruct (upage_apart s pgdir (p :: l) q x Hi Hq Hx) as [Ha Hb].
      rewrite <- Ho1 by done. apply (vown_frame _ _ _ _ _ _ Hown); [done|].
      rewrite Ht1. intros t Htt. apply Hb. set_solver.
    + intros x Hx. rewrite Hm4.
      * rewrite (ueff_out _ _ _ _ _ (udrop_ueff _ _ _ _ _ Hd3)).
        -- rewrite <- Ho1 by (apply Hx; unfold upool; set_solver).
           apply (vown_frame _ _ _ _ _ _ Hown); [apply Hx; left|].
           rewrite Ht1. intros t Htt. apply Hx. unfold upool. set_solver.
        -- intros q Hq. apply Hx. rewrite <- Hpool2. set_solver.
      * apply Hx. unfold upool. set_solver.
  - eapply unmap_rolled; [done|done|apply Hpte2|]. intros vpn Hvpn. rewrite Hp4, Hp3; done.
Qed.

(** A fresh page added to the address space, as an effect. *)
Lemma add_upage_ueff pgdir s s1 s2 p l l2 v w : uinv kend s pgdir (p :: l) ->
  taken pgdir s s1 p l -> vown kend pgdir s1 s2 l l2 -> 0 <= v < 524288 ->
  page_of (pte (kmemory s) pgdir v) = None -> page_of w = Some p ->
  (forall vpn, is_vpn vpn -> pte (kmemory s2) pgdir vpn =
     if vpn =? v then w else pte (kmemory s1) pgdir vpn) ->
  ueff pgdir s s2 (p :: l) l2 /\
  (forall q, q ∈ upages (kmemory s) pgdir -> q ∈ upages (kmemory s2) pgdir) /\
  p ∈ upages (kmemory s2) pgdir /\ (forall x, in_page p x -> kmemory s2 x = kmemory s1 x).
Proof. clear Hkend.
  intros Hi Ht Hown Hv Hnone Hpg Hp2.
  destruct (add_upage pgdir s s1 s2 p l l2 v w) as (A1 & A2 & A3 & A4 & A5); try done.
  split_and!; try done; [|intros q Hq; rewrite A2; by right|rewrite A2; left].
  constructor; try done.
  - intros q x Hq _ Hx. destruct (upage_apart s pgdir (p :: l) q x Hi Hq Hx). by apply A4.
  - intros x Hx. apply A4; [apply Hx; left|]. intros q Hq. apply Hx. unfold upool. set_solver.
Qed.

Lemma allocuvm_loop_wp n : forall pgdir v oldsz newsz c s l,
  uinv kend s pgdir l -> kmem_free c s -> 0 <= oldsz <= newsz -> newsz < KERNBASE ->
  npages oldsz <= v -> npages newsz - v <= Z.of_nat n ->
  (forall vpn, npages oldsz <= vpn < v -> flag (pte (kmemory s) pgdir vpn) PTE_P = true) ->
  (forall vpn, v <= vpn < npages newsz -> pte (kmemory s) pgdir vpn = 0) ->
  wp (allocuvm_loop kend n pgdir (4096 * v) oldsz newsz) c s (fun r c' s' =>
    c' = c /\ use_lock s' = use_lock s /\ exists l', ueff pgdir s s' l l' /\
    ((r = newsz /\ fresh_pages pgdir v (npages newsz) l s s' /\
      (forall q, q ∈ upages (kmemory s) pgdir -> q ∈ upages (kmemory s') pgdir)) \/
     (r = 0 /\ rolled_back pgdir (npages oldsz) (npages newsz) s s' /\ short (npages newsz - v) pgdir s l))).
Proof using Hkend.
  induction n as [|n IH]; intros pgdir v oldsz newsz c s l Hi Hc Ho Hnk Hv0 Hn Hprev Hcur.
  all: cbn [allocuvm_loop]; destruct (Z.ltb_spec (4096 * v) newsz) as [Hlt|Hge].
  1: unfold npages in *; wrap_lia.
  1,3: wp_step; split_and!; try done; exists l; split; [by apply ueff_refl|];
    left; split_and!; [done| |done]; split; intros; [done|unfold npages in *; wrap_lia].
  assert (Hvr : 0 <= v < 524288) by (unfold npages, KERNBASE in *; wrap_lia).
  assert (Hv : is_vpn v) by (unfold is_vpn; lia).
  assert (Hvhi : v < npages newsz) by (unfold npages; wrap_lia).
  assert (Hz : pte (kmemory s) pgdir v = 0) by (apply Hcur; lia).
  wp_step. eapply wp_mono; [|apply kalloc_wp with (l := l); [apply Hi|done]].
  intros r ? s1 (-> & Hm1 & Hu1 & Hr). destruct l as [|p l].
  { destruct Hr as [-> ->]. rewrite Z.eqb_refl. wp_step.
    eapply wp_mono; [|apply deallocuvm_wp with (l := []); try done; lia].
    intros r ? s' (-> & Hu & _ & l' & Hd & Hp). wp_step. split_and!; [done..|].
    exists l'. split; [by apply udrop_ueff|]. right. split; [done|].
    split; [by eapply unmap_rolled|]. apply (short_le 0); [apply short_nil|lia]. }
  destruct Hr as [-> Hk1].
  assert (Hp : valid_page kend p) by (apply (upool_valid s pgdir (p :: l)); [done|unfold upool; set_solver]).
  rewrite (proj2 (Z.eqb_neq p 0) (valid_page_nonzero _ _ Hp)). unfold kmemset. do 2 wp_step.
  assert (Hw1 : mem_wf (kmemory s1)) by apply Hk1.
  pose proof (take_page pgdir s s1 p l (memset (kmemory s1) p 0 PGSIZE) Hi Hm1 Hk1
    (memset_wf _ _ _ _ Hw1)) as Ht.
  set (s2 := set_memory _ s1) in *.
  assert (Ht2 : taken pgdir s s2 p l).
  { apply Ht. intros x Hx. rewrite (memset_page kend) by done. rewrite Hm1.
    unfold in_range, in_page in *. by zcases. }
  assert (Hz2 : forall x, in_page p x -> kmemory s2 x = 0).
  { intros x Hx. simpl. rewrite (memset_page kend) by done. unfold in_range, in_page in *. by zcases. }
  clear Ht. destruct (upage_entry p Hp) as (Hwe & Hpo & Ha & Hb). wp_step.
  assert (Hp2 : pte (kmemory s2) pgdir v = 0) by (rewrite (taken_pte _ _ _ _ _ Ht2); done).
  eapply wp_mono; [|apply map_page_wp with (l := l); try done; try apply Ht2; try lia].
  2: { unfold kmem_free in *. simpl. by rewrite Hu1. }
  2: { unfold PHYSTOP in Hb. lia. }
  2: { by rewrite Hp2. }
  intros r ? s3 (-> & Hu3 & l3 & Hown & [[-> Hp3]|(-> & -> & Hp3)]); cbn [Z.ltb Z.compare].
  - rewrite Hwe in Hp3.
    destruct (add_upage_ueff pgdir s s2 s3 p l l3 v (V2P p + 7)) as (E1 & E2 & E3 & E4); try done.
    { by rewrite Hz. }
    replace (u32 (4096 * v + PGSIZE)) with (4096 * (v + 1))
      by (unfold PGSIZE, KERNBASE in *; wrap_lia).
    assert (Hpte3 : forall vpn, is_vpn vpn -> pte (kmemory s3) pgdir vpn =
              if vpn =? v then V2P p + 7 else pte (kmemory s) pgdir vpn).
    { intros vpn Hvpn. rewrite Hp3 by done. by rewrite (taken_pte _ _ _ _ _ Ht2). }
    assert (Hhi : npages newsz <= 524288) by (unfold npages, KERNBASE in *; wrap_lia).
    assert (0 <= npages oldsz) by (unfold npages; wrap_lia).
    eapply wp_mono; [|apply IH with (l := l3); try done; try lia; try apply E1].
    + intros r ? s4 (-> & Hu4 & l4 & Ee & Hres).
      split_and!; [done|by rewrite Hu4, Hu3|]. exists l4. split.
      { eapply ueff_trans; [done|done|]. intros q Hq _. by apply E2. }
      destruct Hres as [(-> & [Hf1 Hf2] & Hup)|(-> & Hroll & Hsh)]; [left|right]; split; try done.
      * split; [|auto]. split.
        { intros vpn Hvpn Hout. rewrite Hf1 by (done || lia). rewrite Hpte3 by done.
          by rewrite (proj2 (Z.eqb_neq vpn v)) by lia. }
        intros vpn Hvpn. destruct (Z.eq_dec vpn v) as [->|].
        { exists p. split_and!; [left| |].
          - rewrite Hf1, Hpte3, Z.eqb_refl by (done || lia). done.
          - intros x Hx. rewrite (ueff_keep _ _ _ _ _ Ee p) by auto. by rewrite E4, Hz2. }
        destruct (Hf2 vpn ltac:(lia)) as (q & Hq & Hq1 & Hq2). exists q. split_and!; try done.
        destruct (vown_suffix _ _ _ _ _ _ Hown) as [k Hk]. rewrite Hk. set_solver.
      * split.
        2: { apply (short_le (npages newsz - (v + 1) + 1)); [|lia]. apply (short_cons _ _ _ s2); [apply Ht2|].
             by apply (short_vown kend _ _ _ s3 _ l3). }
        intros vpn Hvpn. rewrite Hroll by done. rewrite Hpte3 by done.
        destruct (Z.eqb_spec vpn v) as [->|]; [|done].
        by replace ((npages oldsz <=? v) && (v <? npages newsz)) with true by lia.
    + unfold kmem_free in *. by rewrite Hu3, <- Hu1 in *.
    + intros vpn Hvpn. rewrite Hpte3 by (unfold is_vpn; lia).
      destruct (Z.eqb_spec vpn v) as [->|]; [|apply Hprev; lia].
      rewrite flag_P. wrap_lia.
    + intros vpn Hvpn. rewrite Hpte3 by (unfold is_vpn; lia).
      rewrite (proj2 (Z.eqb_neq vpn v)) by lia. apply Hcur. lia.
  - eapply wp_mono; [|eapply (alloc_undo_wp pgdir s s2 s3 p l c oldsz newsz v); try done].
    2: { unfold kmem_free in *. rewrite Hu3. simpl. by rewrite Hu1. }
    intros r ? s' (-> & Hu4 & -> & l' & He & Hroll).
    split_and!; [done|by rewrite Hu4, Hu3|]. exists l'. split; [done|]. right. split_and!; [done|done|].
    apply (short_le (0 + 1)); [|lia]. apply (short_cons _ _ _ s2); [apply Ht2|].
    apply (short_vown kend _ _ _ s3 _ []); [done|apply short_nil].
Qed.
End alloc.
