(* ===== verification/CopyVm.v ===== *)
(** * Copying into an address space (vm.c): uva2ka, copyout, clearpteu

    [ubyte] is the byte a process sees at a user address. *)
From S2P Require Import Prelude CString Mmu Kalloc Vm PageTable UserVm.

(** The byte at user address [a]. *)
Definition ubyte (m : mem) (pgdir a : Z) : Z :=
  m (P2V (PTE_ADDR (pte m pgdir (a / 4096))) + a mod 4096).

(** The page of [a] is mapped and accessible to the process. *)
Definition user_ok (m : mem) (pgdir a : Z) : bool :=
  flag (pte m pgdir (a / 4096)) PTE_P && flag (pte m pgdir (a / 4096)) PTE_U.

Section copyout.
Variable kend : Z.

Lemma walk_found_wp pgdir va c s l t : vinv kend s pgdir l -> is_u32 va ->
  table_of (kmemory s) pgdir (va / 4096 / 1024) = Some t ->
  wp (pte' ← walkpgdir pgdir va false; get32 pte') c s (fun w c' s' =>
    c' = c /\ s' = s /\ w = pte (kmemory s) pgdir (va / 4096)).
Proof.
  intros Hi Hva Ht. wp_step. eapply wp_mono; [|by apply walk_find_wp].
  intros r ? ? (-> & -> & ->). unfold get32. wp_step. split_and!; try done.
  unfold walk_result. rewrite Ht, table_of_pte. by rewrite Ht.
Qed.

(** A present entry has a table. *)
Lemma present_table m pgdir vpn : flag (pte m pgdir vpn) PTE_P = true ->
  exists t, table_of m pgdir (vpn / 1024) = Some t.
Proof. rewrite table_of_pte. destruct (table_of _ _ _); [eauto|done]. Qed.

Lemma uva2ka_wp pgdir va c s l t : vinv kend s pgdir l -> is_u32 va ->
  table_of (kmemory s) pgdir (va / 4096 / 1024) = Some t ->
  wp (uva2ka pgdir va) c s (fun r c' s' => c' = c /\ s' = s /\
    r = if user_ok (kmemory s) pgdir va
        then P2V (PTE_ADDR (pte (kmemory s) pgdir (va / 4096))) else 0).
Proof.
  intros Hi Hva Ht. unfold uva2ka, user_ok. wp_step.
  eapply wp_mono; [|by apply walk_find_wp]. intros r ? ? (-> & -> & ->).
  unfold get32. do 2 wp_step. unfold walk_result. rewrite Ht.
  replace (load32 (kmemory s) _) with (pte (kmemory s) pgdir (va / 4096))
    by (rewrite table_of_pte; by rewrite Ht).
  destruct (flag _ PTE_P), (flag _ PTE_U); cbn [negb andb]; by wp_step.
Qed.

(** Writing inside one user frame. *)
Lemma write_upage s pgdir l q m' : uinv kend s pgdir l -> q ∈ upages (kmemory s) pgdir ->
  mem_wf m' -> (forall x, ~ in_page q x -> m' x = kmemory s x) ->
  uinv kend (set_memory m' s) pgdir l /\
  (forall vpn, is_vpn vpn -> pte m' pgdir vpn = pte (kmemory s) pgdir vpn).
Proof.
  intros Hi Hq Hw Hm.
  assert (Hd : forall x, in_page pgdir x -> m' x = kmemory s x).
  { intros x Hx. apply Hm. intros Hqx. by destruct (upage_apart kend s pgdir l q x Hi Hq Hqx). }
  assert (Htl : forall p x, p ∈ tabs (kmemory s) pgdir ++ l -> in_page p x -> m' x = kmemory s x).
  { intros p x Hp Hx. apply Hm. intros Hqx.
    destruct (upage_apart kend s pgdir l q x Hi Hq Hqx) as [_ H]. by apply (H p). }
  assert (Htabs : tabs m' pgdir = tabs (kmemory s) pgdir) by by apply tabs_frame.
  assert (Hpte : forall vpn, is_vpn vpn -> pte m' pgdir vpn = pte (kmemory s) pgdir vpn).
  { intros vpn Hv. apply pte_frame; try done. intros t x Ht. apply Htl. set_solver. }
  split; [|done].
  assert (Hup : upages m' pgdir = upages (kmemory s) pgdir) by by apply upages_ext.
  constructor; simpl; rewrite ?Htabs, ?Hup; try apply Hi.
  constructor; simpl; rewrite ?Htabs; try apply Hi.
  eapply kinv_frame; [apply Hi|done|done|]. intros p x Hp. apply Htl. set_solver.
Qed.

Lemma user_page s pgdir l a : uinv kend s pgdir l -> 0 <= a < KERNBASE ->
  user_ok (kmemory s) pgdir a = true ->
  let q := P2V (PTE_ADDR (pte (kmemory s) pgdir (a / 4096))) in
  q ∈ upages (kmemory s) pgdir /\ valid_page kend q.
Proof.
  intros Hi Ha Hok q. apply andb_prop in Hok as [Hp _].
  assert (q ∈ upages (kmemory s) pgdir) as Hq.
  { apply elem_of_upages. exists (a / 4096). unfold KERNBASE in Ha. split; [wrap_lia|].
    by apply page_of_present. }
  split; [done|]. pose proof (uinv_valid _ _ _ _ Hi) as HF. rewrite Forall_forall in HF.
  by apply HF.
Qed.

(** Distinct user pages have distinct frames. *)
Lemma frames_inj s pgdir l a b : uinv kend s pgdir l -> 0 <= a < KERNBASE ->
  0 <= b < KERNBASE -> user_ok (kmemory s) pgdir a = true -> user_ok (kmemory s) pgdir b = true ->
  PTE_ADDR (pte (kmemory s) pgdir (a / 4096)) = PTE_ADDR (pte (kmemory s) pgdir (b / 4096)) ->
  a / 4096 = b / 4096.
Proof.
  intros Hi Ha Hb Hoa Hob E. apply andb_prop in Hoa as [Hpa _], Hob as [Hpb _].
  pose proof (uinv_nodup _ _ _ _ Hi) as Hn. apply NoDup_cons in Hn as [_ Hn].
  apply NoDup_app in Hn as (_ & _ & Hn). apply NoDup_app in Hn as (Hn & _ & _).
  unfold upages in Hn. unfold KERNBASE in *.
  apply (omap_NoDup_inj (fun vpn => page_of (pte (kmemory s) pgdir vpn)) user_vpns _ _
           (P2V (PTE_ADDR (pte (kmemory s) pgdir (a / 4096))))); try done.
  - apply elem_of_user_vpns. wrap_lia.
  - apply elem_of_user_vpns. wrap_lia.
  - by apply page_of_present.
  - rewrite E. by apply page_of_present.
Qed.

(** The user memory after writing [buf] at [va]. *)
Definition uwrite (m m' : mem) (pgdir va : Z) (buf : list Z) : Prop :=
  forall a, 0 <= a < KERNBASE -> user_ok m pgdir a = true ->
    ubyte m' pgdir a = if in_range va (Z.of_nat (length buf)) a
                       then nth (Z.to_nat (a - va)) buf 0 else ubyte m pgdir a.

(** One [memmove] of [copyout]: [k] bytes inside one page. *)
Lemma copy_chunk s pgdir l va buf : uinv kend s pgdir l -> Forall is_u8 buf ->
  0 <= va < KERNBASE -> user_ok (kmemory s) pgdir va = true ->
  va mod 4096 + Z.of_nat (length buf) <= 4096 ->
  let q := P2V (PTE_ADDR (pte (kmemory s) pgdir (va / 4096))) in
  let m' := fun x => if in_range (q + va mod 4096) (Z.of_nat (length buf)) x
                     then u8 (nth (Z.to_nat (x - (q + va mod 4096))) buf 0)
                     else kmemory s x in
  uinv kend (set_memory m' s) pgdir l /\
  (forall vpn, is_vpn vpn -> pte m' pgdir vpn = pte (kmemory s) pgdir vpn) /\
  uwrite (kmemory s) m' pgdir va buf /\
  (forall x, (forall q, q ∈ upages (kmemory s) pgdir -> ~ in_page q x) -> m' x = kmemory s x).
Proof.
  intros Hi Hb Hva Hok Hlen q m'.
  destruct (user_page s pgdir l va Hi Hva Hok) as [Hq Hqv].
  assert (Hout : forall x, ~ in_page q x -> m' x = kmemory s x).
  { intros x Hx. unfold m', in_range, in_page, PGSIZE in *. zcases; [|done..]. wrap_lia. }
  assert (Hw : mem_wf m').
  { intros x. unfold m'. case_match; [apply u8_range|]. apply Hi. }
  destruct (write_upage s pgdir l q m') as [Hi' Hp]; try done.
  split_and!; try done.
  - intros a Ha Hoa. unfold ubyte.
    assert (Hav : is_vpn (a / 4096)) by (unfold is_vpn, KERNBASE in *; wrap_lia).
    rewrite (Hp _ Hav).
    destruct (user_page s pgdir l a Hi Ha Hoa) as [Hqa Hqav].
    set (qa := P2V (PTE_ADDR (pte (kmemory s) pgdir (a / 4096)))) in *.
    destruct (Z.eq_dec (a / 4096) (va / 4096)) as [E|E].
    + assert (qa = q) as -> by (unfold qa, q; by rewrite E). unfold m', in_range.
      replace (q + a mod 4096 - (q + va mod 4096)) with (a - va) by wrap_lia.
      assert (HU : forall i, u8 (nth i buf 0) = nth i buf 0).
      { intros i. destruct (nth_in_or_default i buf 0) as [Hin| ->]; [|done].
        rewrite Forall_forall in Hb. apply list_elem_of_In, Hb in Hin. wrap_lia. }
      rewrite HU. zcases; try done; wrap_lia.
    + rewrite Hout.
      * unfold in_range. zcases; try done; wrap_lia.
      * assert (qa <> q) as Hne.
        { intros Hqq. apply E. apply (frames_inj s pgdir l a va); try done.
          unfold qa, q in Hqq. rewrite !PTE_ADDR_eq in *.
          pose proof (load32_range (kmemory s)) as HR.
          assert (Hpr : forall v, is_u32 (pte (kmemory s) pgdir v)).
          { intros v. unfold pte. case_match; [apply HR, Hi|unfold is_u32; lia]. }
          pose proof (Hpr (a / 4096)). pose proof (Hpr (va / 4096)).
          apply (f_equal V2P) in Hqq. by rewrite !V2P_P2V in Hqq by wrap_lia. }
        apply (valid_pages_disjoint kend qa); try done. unfold in_page, PGSIZE. wrap_lia.
  - intros x Hx. apply Hout. by apply Hx.
Qed.

Lemma uwrite_split m m1 m2 pgdir va b1 b2 : 0 <= va -> b1 <> [] ->
  va + Z.of_nat (length (b1 ++ b2)) <= KERNBASE ->
  (forall vpn, is_vpn vpn -> pte m1 pgdir vpn = pte m pgdir vpn) ->
  uwrite m m1 pgdir va b1 -> uwrite m1 m2 pgdir (va + Z.of_nat (length b1)) b2 ->
  uwrite m m2 pgdir va (b1 ++ b2).
Proof.
  intros Hva Hne Hend Hp H1 H2 a Ha Hok. rewrite length_app in *.
  assert (Hok1 : user_ok m1 pgdir a = true).
  { unfold user_ok in *. rewrite Hp; [done|]. unfold is_vpn, KERNBASE in *. wrap_lia. }
  rewrite H2, H1 by done. unfold in_range.
  zcases; try done.
  - by rewrite app_nth1 by lia.
  - rewrite app_nth2 by lia. f_equal. lia.
Qed.

Lemma copyout_loop_wp n : forall pgdir va buf c s l,
  uinv kend s pgdir l -> Forall is_u8 buf -> 0 <= va ->
  va + Z.of_nat (length buf) <= KERNBASE ->
  (forall a, va <= a < va + Z.of_nat (length buf) -> user_ok (kmemory s) pgdir a = true) ->
  npages (va mod 4096 + Z.of_nat (length buf)) <= Z.of_nat n ->
  wp (copyout_loop n pgdir va buf) c s (fun r c' s' =>
    c' = c /\ r = 0 /\ uinv kend s' pgdir l /\
    (forall vpn, is_vpn vpn -> pte (kmemory s') pgdir vpn = pte (kmemory s) pgdir vpn) /\
    uwrite (kmemory s) (kmemory s') pgdir va buf /\
    (forall x, (forall q, q ∈ upages (kmemory s) pgdir -> ~ in_page q x) ->
       kmemory s' x = kmemory s x)).
Proof.
  induction n as [|n IH]; intros pgdir va buf c s l Hi Hb Hva Hend Hok Hn.
  all: destruct buf as [|b0 buf0]; [cbn [copyout_loop]; wp_step; split_and!; try done;
    intros a Ha Hoa; unfold in_range; simpl; by zcases|].
  { exfalso. simpl length in Hn. unfold npages in Hn. wrap_lia. }
  cbn [copyout_loop]. set (buf := b0 :: buf0) in *.
  assert (Hlen : 0 < Z.of_nat (length buf)) by (simpl; lia).
  unfold KERNBASE in Hend. rewrite PGROUNDDOWN_eq.
  set (va0 := 4096 * (va / 4096)).
  assert (Hm : va - va0 = va mod 4096) by (unfold va0; wrap_lia).
  assert (Hoa : user_ok (kmemory s) pgdir va = true) by (apply Hok; lia).
  assert (Hv0 : va0 / 4096 = va / 4096) by (unfold va0; wrap_lia).
  assert (Hok0 : user_ok (kmemory s) pgdir va0 = true)
    by (unfold user_ok in *; by rewrite Hv0).
  destruct (user_page s pgdir l va Hi) as [Hq Hqv]; [unfold KERNBASE; lia|done|].
  destruct (present_table (kmemory s) pgdir (va0 / 4096)) as [t Ht].
  { by apply andb_prop in Hok0 as [? _]. }
  wp_step. eapply wp_mono; [|apply uva2ka_wp with (l := l) (t := t); try done; [apply Hi|]].
  2: { unfold va0; wrap_lia. }
  intros r ? ? (-> & -> & ->). rewrite Hok0, Hv0, Hm, Z.gtb_ltb.
  rewrite (proj2 (Z.eqb_neq _ 0) (valid_page_nonzero _ _ Hqv)).
  set (k := if Z.of_nat (length buf) <? PGSIZE - va mod 4096
            then Z.of_nat (length buf) else PGSIZE - va mod 4096).
  assert (Hk : 0 < k <= Z.of_nat (length buf) /\ va mod 4096 + k <= 4096).
  { unfold k, PGSIZE. zcases; wrap_lia. }
  assert (Hlk : Z.of_nat (length (take (Z.to_nat k) buf)) = k) by (rewrite length_take; lia).
  unfold kcopyin. do 2 wp_step.
  pose proof (copy_chunk s pgdir l va (take (Z.to_nat k) buf) Hi) as Hcc.
  destruct Hcc as (Hi1 & Hp1 & Hw1 & Ho1);
    [by apply Forall_take|unfold KERNBASE; lia|done|lia|].
  set (s1 := set_memory _ s). change (uinv kend s1 pgdir l) in Hi1.
  assert (Hup : upages (kmemory s1) pgdir = upages (kmemory s) pgdir) by by apply upages_ext.
  assert (Hd : forall a, va <= a < va + Z.of_nat (length buf) ->
            user_ok (kmemory s1) pgdir a = true).
  { intros a Ha. unfold user_ok. rewrite Hp1 by (unfold is_vpn; wrap_lia). by apply Hok. }
  assert (Hnext : length (drop (Z.to_nat k) buf) = 0%nat \/ va0 + 4096 = va + k).
  { rewrite length_drop. unfold k, PGSIZE. zcases. }
  assert (Hu : u32 (va0 + PGSIZE) = va0 + 4096) by (unfold va0, PGSIZE; wrap_lia).
  rewrite Hu.
  eapply wp_mono; [|apply IH with (l := l); try done].
  - intros r ? s2 (-> & -> & Hi2 & Hp2 & Hw2 & Ho2). split_and!; try done.
    + intros vpn Hv. rewrite Hp2, Hp1; done.
    + rewrite <- (take_drop (Z.to_nat k) buf). apply uwrite_split with (kmemory s1); try done.
      * intros E. rewrite E in Hlk. simpl in Hlk. lia.
      * rewrite take_drop. unfold KERNBASE. lia.
      * destruct Hnext as [H0|H0]; [|rewrite Hlk, <- H0; done].
        destruct (drop (Z.to_nat k) buf); [|done]. intros a Ha Hoa'.
        rewrite (Hw2 a Ha Hoa'). unfold in_range. simpl. by zcases.
    + intros x Hx. rewrite Ho2 by by rewrite Hup. by apply Ho1.
  - by apply Forall_drop.
  - unfold va0; wrap_lia.
  - rewrite length_drop in *. unfold KERNBASE. unfold va0 in *. destruct Hnext; wrap_lia.
  - intros a Ha. rewrite length_drop in *. apply Hd. destruct Hnext; lia.
  - rewrite length_drop in *. destruct Hnext as [H0|H0].
    + rewrite H0. unfold npages, va0. wrap_lia.
    + unfold npages in *. rewrite H0. replace ((va + k) mod 4096) with 0 by wrap_lia. wrap_lia.
Qed.
End copyout.
