(* ===== verification/VmSpec.v ===== *)
(** * Contracts of the virtual-memory operations (vm.c)

    What [mappages], [allocuvm], [deallocuvm], [freevm] and [copyout] promise
    to their callers, with an example address space for each. *)
From S2P Require Import Prelude CString Mmu Kalloc Vm PageTable UserVm CopyVm.
#[local] Set Default Proof Using "Type".

Lemma tabs_none m pgdir : (forall i, 0 <= i < 1024 -> table_of m pgdir i = None) -> tabs m pgdir = [].
Proof.
  intros H. unfold tabs. transitivity (omap (fun _ : Z => @None Z) dir_indices).
  - apply omap_ext_in. intros i Hi%elem_of_dir_indices. by apply H.
  - induction dir_indices; done.
Qed.

(** * Freeing an address space *)

Section freevm.
Variable kend : Z.

(** The directory's tables from entry [i] on. *)
Definition tabs_from (m : mem) (pgdir i : Z) (n : nat) : list Z :=
  omap (table_of m pgdir) (seqZ i (Z.of_nat n)).

Lemma tabs_from_succ m pgdir i n : tabs_from m pgdir i (S n) =
  match table_of m pgdir i with Some t => [t] | None => [] end ++ tabs_from m pgdir (i + 1) n.
Proof.
  unfold tabs_from. rewrite seqZ_cons by lia. cbn [omap list_omap].
  replace (Z.pred (Z.of_nat (S n))) with (Z.of_nat n) by lia.
  replace (Z.succ i) with (i + 1) by lia. by case_match.
Qed.

Lemma tabs_from_frame m m' pgdir i n : 0 <= i -> i + Z.of_nat n <= 1024 ->
  (forall x, in_page pgdir x -> m' x = m x) -> tabs_from m' pgdir i n = tabs_from m pgdir i n.
Proof.
  intros Hi Hn Hm. apply omap_ext_in. intros j Hj%elem_of_seqZ. apply table_of_frame; [lia|done].
Qed.

Lemma freevm_loop_wp n : forall pgdir i c s l,
  kinv kend s l -> kmem_free c s -> 0 <= i -> i + Z.of_nat n <= 1024 ->
  valid_page kend pgdir ->
  Forall (valid_page kend) (tabs_from (kmemory s) pgdir i n) ->
  NoDup (pgdir :: tabs_from (kmemory s) pgdir i n ++ l) ->
  wp (freevm_loop kend n pgdir i) c s (fun _ c' s' =>
    c' = c /\ use_lock s' = use_lock s /\ exists l', kinv kend s' l' /\
    l' ≡ₚ tabs_from (kmemory s) pgdir i n ++ l /\
    forall x, (forall q, q ∈ tabs_from (kmemory s) pgdir i n -> ~ in_page q x) ->
      kmemory s' x = kmemory s x).
Proof.
  induction n as [|n IH]; intros pgdir i c s l Hk Hc Hi Hn Hd HF Hnd.
  { cbn [freevm_loop]. wp_step. split_and!; try done. by exists l. }
  cbn [freevm_loop]. unfold get32. do 2 wp_step. rewrite tabs_from_succ in HF, Hnd |- *.
  fold (pde (kmemory s) pgdir i). unfold table_of in HF, Hnd |- *.
  destruct (flag (pde (kmemory s) pgdir i) PTE_P); cbn [app] in HF, Hnd |- *.
  - set (t := P2V _) in *. apply Forall_cons in HF as [Ht HF].
    apply NoDup_cons in Hnd as [Hd1 Hnd]. apply NoDup_cons in Hnd as [Ht1 Hnd].
    wp_step. eapply wp_mono; [|apply kfree_wp with (l := l); try done; set_solver].
    intros _ ? s1 (-> & Hk1 & Hu1 & Hm1).
    assert (Hfr : tabs_from (kmemory s1) pgdir (i + 1) n = tabs_from (kmemory s) pgdir (i + 1) n).
    { apply tabs_from_frame; [lia..|]. intros x Hx. apply Hm1.
      apply (valid_pages_disjoint kend pgdir); try done. set_solver. }
    eapply wp_mono; [|apply IH with (l := t :: l); rewrite ?Hfr; try done; try lia].
    + intros _ ? s2 (-> & Hu2 & l' & Hk2 & Hp & Hx2). rewrite Hfr in Hp, Hx2. split_and!; [done|congruence|].
      exists l'. split; [done|]. split; [rewrite Hp; by rewrite <- Permutation_middle|].
      intros x Hx. rewrite Hx2; [apply Hm1, Hx; left|]. intros q Hq. apply Hx. by right.
    + unfold kmem_free in *. by rewrite Hu1.
    + rewrite <- Permutation_middle. apply NoDup_cons. split; [set_solver|].
      by apply NoDup_cons.
  - do 2 wp_step. apply IH; try done; lia.
Qed.

Lemma tabs_from_all m pgdir : tabs_from m pgdir 0 1024 = tabs m pgdir.
Proof. unfold tabs, tabs_from, dir_indices. by rewrite (seal_eq dir_indices_aux). Qed.
End freevm.

Section contracts.
Variable kend : Z.
Hypothesis Hkend : KERNBASE < kend.

Lemma freevm_wp pgdir c s l : uinv kend s pgdir l -> kmem_free c s ->
  wp (freevm kend pgdir) c s (fun _ c' s' => c' = c /\ use_lock s' = use_lock s /\ exists l', kinv kend s' l' /\
    l' ≡ₚ pgdir :: upool pgdir s l /\
    forall x, (forall q, q ∈ pgdir :: upool pgdir s l -> ~ in_page q x) -> kmemory s' x = kmemory s x).
Proof using Hkend.
  intros Hi Hc. unfold freevm.
  assert (Hdir : valid_page kend pgdir) by apply Hi.
  rewrite (proj2 (Z.eqb_neq pgdir 0) (valid_page_nonzero _ _ Hdir)). wp_step.
  eapply wp_mono; [|apply (deallocuvm_wp kend Hkend pgdir KERNBASE 0 c s l); try done;
    unfold KERNBASE; lia].
  intros _ ? s1 (-> & Hu1 & _ & l1 & Hd1 & Hpte).
  assert (Hup : upages (kmemory s1) pgdir = []).
  { apply upages_none. intros vpn Hv. rewrite Hpte by (unfold is_vpn; lia).
    unfold unmap_view. change (npages KERNBASE) with 524288. change (npages 0) with 0.
    destruct (flag (pte (kmemory s) pgdir vpn) PTE_P) eqn:E.
    - by replace ((0 <=? vpn) && (vpn <? 524288)) with true by lia.
    - by rewrite andb_false_r. }
  assert (Hc1 : kmem_free c s1) by (unfold kmem_free in *; by rewrite Hu1).
  destruct (udrop_inv _ _ _ _ _ _ Hd1) as [Hv1 _ _]. destruct Hv1 as [Hk1 _ Ht1 Hn1].
  wp_step. change (Z.to_nat NPDENTRIES) with 1024%nat.
  eapply wp_mono; [|apply freevm_loop_wp with (l := l1); rewrite ?tabs_from_all; try done].
  intros _ ? s2 (-> & Hu2 & l2 & Hk2 & Hp2 & Hx2). rewrite tabs_from_all in Hp2, Hx2.
  eapply wp_mono; [|apply kfree_wp with (l := l2); try done].
  - intros _ ? s3 (-> & Hk3 & Hu3 & Hx3). split; [done|]. split; [congruence|]. exists (pgdir :: l2). split; [done|].
    split.
    { constructor. rewrite Hp2. unfold upool. rewrite <- (udrop_perm _ _ _ _ _ _ Hd1), Hup.
      by rewrite (udrop_tabs _ _ _ _ _ _ Hd1). }
    intros x Hx. rewrite Hx3 by (apply Hx; left). rewrite Hx2.
    + by apply (ueff_out _ _ _ _ _ _ (udrop_ueff _ _ _ _ _ _ Hd1)).
    + intros q Hq. apply Hx. rewrite (udrop_tabs _ _ _ _ _ _ Hd1) in Hq. unfold upool. set_solver.
  - rewrite Hp2. by apply NoDup_cons in Hn1 as [? _].
  - unfold kmem_free in *. by rewrite Hu2, Hu1.
Qed.

(** [freevm] returns every page of the address space, the tables and
    the directory itself included, to the free list, each exactly once. *)
Theorem freevm_returns_all pgdir c s l : uinv kend s pgdir l -> kmem_free c s ->
  wp (freevm kend pgdir) c s (fun _ c' s' => c' = c /\ exists l', kinv kend s' l' /\
    l' ≡ₚ pgdir :: upool pgdir s l).
Proof using Hkend.
  intros Hi Hc. eapply wp_mono; [|by apply freevm_wp with (l := l)].
  intros _ ? s' (-> & _ & l' & Hk & Hp & _). split; [done|]. by exists l'.
Qed.

(** [mappages] installs exactly the requested translations: page [i]
    of the range is mapped to the [i]th page after [pa] with the requested
    permissions and the present bit, every other page keeps its entry, and
    page tables come from the free list.  When memory runs out it returns
    -1 with a prefix of the range mapped. *)
Theorem mappages_maps pgdir va size pa perm c s l :
  let v := va / 4096 in
  let k := (va + size - 1) / 4096 - v + 1 in
  vinv kend s pgdir l -> kmem_free c s ->
  0 <= va -> 0 < size -> va + size <= 4294967296 ->
  pa mod 4096 = 0 -> 0 <= pa -> pa + 4096 * k <= 4294967296 -> 0 <= perm < 4096 ->
  (forall i, 0 <= i < k -> flag (pte (kmemory s) pgdir (v + i)) PTE_P = false) ->
  wp (mappages pgdir va size pa perm) c s
    (fun r c' s' => c' = c /\ exists l' j,
       vinv kend s' pgdir l' /\
       tabs (kmemory s') pgdir ++ l' ≡ₚ tabs (kmemory s) pgdir ++ l /\
       (forall vpn, is_vpn vpn -> pte (kmemory s') pgdir vpn =
          map_view v j pa (2 * (perm / 2) + 1) (pte (kmemory s) pgdir) vpn) /\
       ((r = 0 /\ j = k) \/ (r = -1 /\ 0 <= j < k /\ l' = []))).
Proof.
  intros v k Hi Hc H1 H2 H3 H4 H5 H6 H7 H8.
  eapply wp_mono; [|by apply (mappages_wp kend pgdir va size pa perm c s l)].
  intros r ? s' (-> & _ & l' & j & Ho & Hp & Hr). split; [done|]. exists l', j.
  split_and!; try done; apply Ho.
Qed.

(** [deallocuvm] unmaps exactly the pages from [newsz] up, whether or
    not they were mapped, puts their frames on the free list, returns the
    smaller size, and does not touch the contents of the pages kept. *)
Theorem deallocuvm_correct pgdir oldsz newsz c s l :
  uinv kend s pgdir l -> kmem_free c s -> 0 <= newsz -> 0 <= oldsz <= KERNBASE ->
  wp (deallocuvm kend pgdir oldsz newsz) c s (fun r c' s' =>
    c' = c /\ r = Z.min oldsz newsz /\
    exists l', uinv kend s' pgdir l' /\ upool pgdir s' l' ≡ₚ upool pgdir s l /\
    (forall vpn, is_vpn vpn -> pte (kmemory s') pgdir vpn =
      unmap_view (npages newsz) (npages oldsz) (pte (kmemory s) pgdir) vpn) /\
    (forall q x, q ∈ upages (kmemory s') pgdir -> in_page q x -> kmemory s' x = kmemory s x)).
Proof using Hkend.
  intros Hi Hc Hn Ho. eapply wp_mono; [|by apply (deallocuvm_wp kend Hkend _ _ _ _ _ l)].
  intros r ? s' (-> & _ & -> & l' & Hd & Hp). split_and!; [done..|]. exists l'.
  pose proof (udrop_ueff _ _ _ _ _ _ Hd) as He. split_and!; try done; try apply He.
  intros q x Hq. apply (ueff_keep _ _ _ _ _ _ He); [|done].
  assert (q ∈ upages (kmemory s) pgdir ++ l) as Hin.
  { rewrite <- (udrop_perm _ _ _ _ _ _ Hd). set_solver. }
  apply elem_of_app in Hin as [?|Hl]; [done|]. exfalso.
  apply (udrop_free _ _ _ _ _ _ Hd) in Hl.
  pose proof (uinv_nodup _ _ _ _ (udrop_inv _ _ _ _ _ _ Hd)) as Hnd.
  apply NoDup_cons in Hnd as [_ Hnd]. apply NoDup_app in Hnd as (_ & _ & Hnd).
  apply NoDup_app in Hnd as (_ & Hnd & _). by apply (Hnd q).
Qed.

Lemma allocuvm_wp pgdir oldsz newsz c s l :
  uinv kend s pgdir l -> kmem_free c s -> 0 <= oldsz -> 0 <= newsz ->
  (newsz < KERNBASE -> forall vpn, npages oldsz <= vpn < npages newsz -> pte (kmemory s) pgdir vpn = 0) ->
  wp (allocuvm kend pgdir oldsz newsz) c s (fun r c' s' =>
    c' = c /\ exists l', ueff kend pgdir s s' l l' /\
    if newsz >=? KERNBASE then r = 0 /\ s' = s
    else if newsz <? oldsz then r = oldsz /\ s' = s
    else (r = newsz /\ fresh_pages pgdir (npages oldsz) (npages newsz) l s s') \/
         (r = 0 /\ (forall vpn, is_vpn vpn ->
            pte (kmemory s') pgdir vpn = pte (kmemory s) pgdir vpn) /\
          Z.of_nat (length l) <= 1024 + (npages newsz - npages oldsz))).
Proof using Hkend.
  intros Hi Hc Ho Hn H0. unfold allocuvm. rewrite Z.geb_leb.
  destruct (Z.leb_spec KERNBASE newsz).
  { wp_step. split; [done|]. exists l. split; [by apply ueff_refl|done]. }
  destruct (Z.ltb_spec newsz oldsz).
  { wp_step. split; [done|]. exists l. split; [by apply ueff_refl|done]. }
  specialize (H0 ltac:(done)). rewrite PGROUNDUP_eq. unfold KERNBASE in *.
  replace (u32 (oldsz + 4095) / 4096) with (npages oldsz) by (unfold npages; wrap_lia).
  eapply wp_mono; [|apply (allocuvm_loop_wp kend Hkend _ pgdir (npages oldsz) oldsz newsz c s l)];
    try done; unfold KERNBASE, PGSIZE; try (unfold npages; wrap_lia).
  intros r ? s' (-> & _ & l' & He & Hr). split; [done|]. exists l'. split; [done|].
  destruct Hr as [(-> & Hf & _)|(-> & Hrb & Hsh)]; [by left|right]. split; [done|].
  split; [|by apply short_length in Hsh]. intros vpn Hv. rewrite (Hrb vpn Hv). zcases; try done. symmetry. apply H0. lia.
Qed.

(** C12: [allocuvm] either grows the address space to [newsz] with zeroed,
    user-writable pages taken from the free list, leaving every other
    mapping and every existing page's contents alone, or, out of memory,
    returns 0 with the address space as it was at [oldsz]; in both cases
    no page is lost or shared.  It does not fail while the free list has
    a page for each new page and for each of the 1024 possible tables. *)
Theorem allocuvm_correct pgdir oldsz newsz c s l :
  uinv kend s pgdir l -> kmem_free c s -> 0 <= oldsz -> 0 <= newsz ->
  (forall vpn, npages oldsz <= vpn < npages newsz -> pte (kmemory s) pgdir vpn = 0) ->
  wp (allocuvm kend pgdir oldsz newsz) c s (fun r c' s' =>
    c' = c /\ exists l', ueff kend pgdir s s' l l' /\
    if newsz >=? KERNBASE then r = 0 /\ s' = s
    else if newsz <? oldsz then r = oldsz /\ s' = s
    else (r = newsz /\ fresh_pages pgdir (npages oldsz) (npages newsz) l s s') \/
         (r = 0 /\ (forall vpn, is_vpn vpn ->
            pte (kmemory s') pgdir vpn = pte (kmemory s) pgdir vpn) /\
          Z.of_nat (length l) <= 1024 + (npages newsz - npages oldsz))).
Proof using Hkend. intros Hi Hc Ho Hn H0. by apply allocuvm_wp. Qed.

(** [copyout] to mapped, user-accessible addresses succeeds, and the
    process then sees the buffer at the destination and its old bytes
    everywhere else; nothing outside the process's pages changes. *)
Theorem copyout_correct pgdir va buf c s l :
  uinv kend s pgdir l -> Forall is_u8 buf -> 0 <= va ->
  va + Z.of_nat (length buf) <= KERNBASE ->
  (forall a, va <= a < va + Z.of_nat (length buf) -> user_ok (kmemory s) pgdir a = true) ->
  wp (copyout pgdir va buf) c s (fun r c' s' =>
    c' = c /\ r = 0 /\ uinv kend s' pgdir l /\
    uwrite (kmemory s) (kmemory s') pgdir va buf /\
    (forall x, (forall q, q ∈ upages (kmemory s) pgdir -> ~ in_page q x) ->
       kmemory s' x = kmemory s x)).
Proof.
  intros Hi Hb Hva Hend Hok. unfold copyout.
  eapply wp_mono; [|apply (copyout_loop_wp kend) with (l := l); try done].
  - intros r ? s' (-> & -> & H1 & _ & H2 & H3). done.
  - unfold npages, PGSIZE. wrap_lia.
Qed.
End contracts.

(** * Examples *)

(** An empty directory beside three free pages. *)
Lemma ex_mem_zero x : kpage 4 <= x -> ex_mem x = 0.
Proof. unfold kpage, ex_mem, store32, kpage. intros. by zcases. Qed.

Lemma ex_table_of i : 0 <= i -> table_of ex_mem (kpage 4) i = None.
Proof.
  intros Hi. unfold table_of, pde. unfold load32. rewrite !ex_mem_zero by lia. done.
Qed.

Lemma ex_pte vpn : 0 <= vpn -> pte ex_mem (kpage 4) vpn = 0.
Proof. intros. rewrite table_of_pte. rewrite ex_table_of; [done|]. wrap_lia. Qed.

Lemma ex_uinv : uinv (kpage 0) ex_kst (kpage 4) ex_free.
Proof.
  assert (Hu : upages ex_mem (kpage 4) = []).
  { apply upages_none. intros. rewrite ex_pte by lia. done. }
  assert (Ht : tabs ex_mem (kpage 4) = []).
  { apply tabs_none. intros. apply ex_table_of. lia. }
  assert (Hn : NoDup (kpage 4 :: ex_free)) by by_decide.
  constructor; [constructor|..]; simpl; rewrite ?Ht, ?Hu; try done. apply ex_kinv.
Qed.

Lemma freevm_returns_all_witness :
  wp (freevm (kpage 0) (kpage 4)) ctx0 ex_kst (fun _ _ s' => exists l', kinv (kpage 0) s' l' /\
    l' ≡ₚ kpage 4 :: upool (kpage 4) ex_kst ex_free).
Proof.
  eapply wp_mono; [|apply (freevm_returns_all (kpage 0) eq_refl (kpage 4) ctx0 ex_kst ex_free)].
  - intros _ c' s' [_ H]. exact H.
  - apply ex_uinv.
  - apply ex_kmem_free.
Defined.

Lemma mappages_maps_witness :
  wp (mappages (kpage 4) 4194304 8192 4096 6) ctx0 ex_kst (fun r _ s' =>
    r = 0 -> pte (kmemory s') (kpage 4) 1025 = 8199 /\ pte (kmemory s') (kpage 4) 1026 = 0).
Proof.
  eapply wp_mono; [|apply (mappages_maps (kpage 0) (kpage 4) 4194304 8192 4096 6 ctx0 ex_kst ex_free)];
    try done.
  - intros r c' s' (_ & l' & j & _ & _ & Hp & Hr) ->. destruct Hr as [[_ ->]|[? _]]; [|done].
    rewrite !Hp by (unfold is_vpn; lia). split; [done|]. unfold map_view.
    change (4194304 / 4096) with 1024. cbn. by rewrite ex_pte.
  - apply ex_uinv.
  - apply ex_kmem_free.
  - intros i Hi. simpl kmemory. rewrite ex_pte; [done|]. change (4194304 / 4096) with 1024. lia.
Defined.

Lemma deallocuvm_correct_witness :
  wp (deallocuvm (kpage 0) (kpage 4) 10000 5000) ctx0 ex_kst (fun r _ s' => r = 5000).
Proof.
  eapply wp_mono; [|apply (deallocuvm_correct (kpage 0) eq_refl (kpage 4) 10000 5000 ctx0 ex_kst ex_free)];
    try done.
  - intros r c' s' (_ & -> & _). done.
  - apply ex_uinv.
  - apply ex_kmem_free.
Defined.

Lemma allocuvm_correct_witness :
  wp (allocuvm (kpage 0) (kpage 4) 0 5000) ctx0 ex_kst (fun r _ s' =>
    (r = 5000 /\ fresh_pages (kpage 4) 0 2 ex_free ex_kst s') \/ r = 0).
Proof.
  eapply wp_mono; [|apply (allocuvm_correct (kpage 0) eq_refl (kpage 4) 0 5000 ctx0 ex_kst ex_free)];
    try done.
  - intros r c' s' (_ & l' & _ & Hr). destruct Hr as [Hr|[-> _]]; [by left|by right].
  - apply ex_uinv.
  - apply ex_kmem_free.
  - intros vpn Hv. apply ex_pte. unfold npages in Hv. wrap_lia.
Defined.

(** Two mapped pages: table [kpage 5], frames [kpage 6] and [kpage 7]. *)
Definition ex2_mem : mem :=
  store32 (store32 (store32 (fun _ => 0) (kpage 4) (V2P (kpage 5) + 7))
    (kpage 5) (V2P (kpage 6) + 7)) (kpage 5 + 4) (V2P (kpage 7) + 7).
Definition ex2_kst : kst := Kst ex2_mem 1 0.

Lemma ex2_zero x : kpage 4 + 4 <= x < kpage 5 \/ kpage 5 + 8 <= x -> ex2_mem x = 0.
Proof. unfold ex2_mem, store32, kpage. intros. zcases; done. Qed.

Lemma ex2_table_of i : 0 <= i < 1024 ->
  table_of ex2_mem (kpage 4) i = if i =? 0 then Some (kpage 5) else None.
Proof.
  intros Hi. destruct (Z.eqb_spec i 0) as [->|Hne]; [by vm_compute|].
  unfold table_of, pde, load32. rewrite !ex2_zero by (unfold kpage; lia). done.
Qed.

Lemma ex2_pte vpn : is_vpn vpn -> pte ex2_mem (kpage 4) vpn =
  if vpn =? 0 then V2P (kpage 6) + 7 else if vpn =? 1 then V2P (kpage 7) + 7 else 0.
Proof.
  intros Hv. unfold is_vpn in Hv. rewrite table_of_pte, ex2_table_of by wrap_lia.
  destruct (Z.eqb_spec vpn 0) as [->|H0]; [by vm_compute|].
  destruct (Z.eqb_spec vpn 1) as [->|H1]; [by vm_compute|].
  destruct (Z.eqb_spec (vpn / 1024) 0) as [E|E]; [|done].
  unfold load32. rewrite !ex2_zero by (unfold kpage; wrap_lia). done.
Qed.

Lemma ex2_tabs : tabs ex2_mem (kpage 4) ≡ₚ [kpage 5].
Proof.
  unfold tabs. rewrite (omap_add (fun _ => None) _ dir_indices 0 (kpage 5)).
  - by induction dir_indices.
  - apply NoDup_dir_indices.
  - by apply elem_of_dir_indices.
  - done.
  - by apply ex2_table_of.
  - intros j Hj%elem_of_dir_indices Hne. rewrite ex2_table_of by done. by zcases.
Qed.

Lemma ex2_upages : upages ex2_mem (kpage 4) ≡ₚ [kpage 7; kpage 6].
Proof.
  unfold upages.
  rewrite (omap_add (fun j => if j =? 0 then Some (kpage 6) else None) _ user_vpns 1 (kpage 7)).
  - rewrite (omap_add (fun _ => None) _ user_vpns 0 (kpage 6)); try done.
    + by induction user_vpns.
    + apply NoDup_user_vpns.
    + by apply elem_of_user_vpns.
    + intros. by zcases.
  - apply NoDup_user_vpns.
  - by apply elem_of_user_vpns.
  - done.
  - by vm_compute.
  - intros j Hj%elem_of_user_vpns Hne. rewrite ex2_pte by (unfold is_vpn; lia).
    destruct (Z.eqb_spec j 0); [by vm_compute|]. by zcases.
Qed.

Lemma ex2_uinv : uinv (kpage 0) ex2_kst (kpage 4) [].
Proof.
  constructor; [constructor|..]; simpl; rewrite ?ex2_tabs, ?ex2_upages.
  - constructor; simpl; try done; [|constructor].
    unfold ex2_mem. auto using zero_wf with xv6.
  - done.
  - repeat constructor; done.
  - by_decide.
  - repeat constructor; done.
  - by_decide.
Qed.

Lemma copyout_correct_witness :
  wp (copyout (kpage 4) 4094 [1; 2; 3]) ctx0 ex2_kst (fun r _ s' =>
    r = 0 /\ ubyte (kmemory s') (kpage 4) 4095 = 2 /\ ubyte (kmemory s') (kpage 4) 4096 = 3 /\
    ubyte (kmemory s') (kpage 4) 4097 = 0).
Proof.
  eapply wp_mono; [|apply (copyout_correct (kpage 0) (kpage 4) 4094 [1; 2; 3] ctx0 ex2_kst [])];
    try done.
  - intros r c' s' (_ & -> & _ & Hw & _). split; [done|].
    rewrite !Hw by (unfold KERNBASE; done || by vm_compute). by vm_compute.
  - apply ex2_uinv.
  - repeat constructor; done.
  - intros a Ha. simpl in Ha.
    assert (a = 4094 \/ a = 4095 \/ a = 4096) as [-> | [-> | ->]] by lia; by vm_compute.
Defined.
