(* ===== verification/ForkVm.v ===== *)
(** * Building and copying address spaces (vm.c): setupkvm, copyuvm

    [setupkvm] makes a directory with the kernel's mappings and an empty user
    part; [copyuvm], the memory of [fork], makes a second address space with
    the same user memory.  Two directories share the physical memory here, so
    the lemmas say what each operation leaves alone. *)
From S2P Require Import Prelude CString Mmu Kalloc Vm PageTable UserVm CopyVm VmSpec.
#[local] Set Default Proof Using "Type".

(** * setupkvm *)

(** The number of pages of a region, and the entries of all its pages. *)
Definition ksize (k : kmap) : Z := u32 (phys_end k - phys_start k).
Definition kmapped (k : kmap) (old : Z -> Z) : Z -> Z :=
  map_view (virt k / 4096) (ksize k / 4096) (phys_start k) (2 * (perm k / 2) + 1) old.
Fixpoint kview (ks : list kmap) (old : Z -> Z) : Z -> Z :=
  match ks with [] => old | k :: ks' => kview ks' (kmapped k old) end.
Definition covers (k : kmap) (vpn : Z) : Prop := virt k / 4096 <= vpn < virt k / 4096 + ksize k / 4096.

(** A region of whole pages above [KERNBASE]. *)
Record kmap_ok (k : kmap) : Prop := {
  km_virt : KERNBASE <= virt k /\ virt k mod 4096 = 0;
  km_size : 0 < ksize k /\ ksize k mod 4096 = 0;
  km_end : virt k + ksize k <= 4294967296;
  km_phys : 0 <= phys_start k /\ phys_start k mod 4096 = 0 /\ phys_start k + ksize k <= 4294967296;
  km_perm : 0 <= perm k < 4096
}.

Lemma covers_range k vpn : kmap_ok k -> covers k vpn -> 524288 <= vpn < 1048576.
Proof. intros [[H1 H2] [H3 H4] H5 _ _]. unfold covers, KERNBASE in *. Z.div_mod_to_equations. lia. Qed.

Lemma kmapped_out k old vpn : ~ covers k vpn -> kmapped k old vpn = old vpn.
Proof. unfold kmapped, map_view, covers. intros H. zcases; done. Qed.

Lemma kview_ext ks old old' vpn : old vpn = old' vpn -> kview ks old vpn = kview ks old' vpn.
Proof.
  revert old old'. induction ks as [|k ks IH]; intros old old' E; cbn [kview]; [done|].
  apply IH. unfold kmapped, map_view. by rewrite E.
Qed.

Lemma kview_user ks old vpn : Forall kmap_ok ks -> vpn < 524288 -> kview ks old vpn = old vpn.
Proof.
  intros HF Hv. revert old. induction HF as [|k ks Hk HF IH]; intros old; cbn [kview]; [done|].
  rewrite IH. apply kmapped_out. intros Hc. apply covers_range in Hc; [lia|done].
Qed.

Section setup.
Variable kend : Z.

(** Mapping kernel pages, as an effect on the address space. *)
Lemma vown_ueff pgdir s s' l l' : uinv kend s pgdir l -> vown kend pgdir s s' l l' ->
  (forall vpn, 0 <= vpn < 524288 ->
     page_of (pte (kmemory s') pgdir vpn) = page_of (pte (kmemory s) pgdir vpn)) ->
  ueff kend pgdir s s' l l' /\ upages (kmemory s') pgdir = upages (kmemory s) pgdir.
Proof.
  intros Hi Hv Hp.
  assert (Hup : upages (kmemory s') pgdir = upages (kmemory s) pgdir).
  { apply omap_ext_in. intros vpn Hvpn%elem_of_user_vpns. by apply Hp. }
  assert (Hpool : upool pgdir s' l' ≡ₚ upool pgdir s l).
  { unfold upool. rewrite Hup, !(Permutation_app_comm (upages _ _)), !app_assoc.
    by rewrite (vown_perm _ _ _ _ _ _ Hv). }
  split; [|done]. constructor.
  - constructor; [apply Hv|rewrite Hup; apply Hi|]. fold (upool pgdir s' l'). rewrite Hpool. apply Hi.
  - done.
  - intros q x Hq _ Hx. destruct (upage_apart kend s pgdir l q x Hi Hq Hx). by apply (vown_frame _ _ _ _ _ _ Hv).
  - intros x Hx. apply (vown_frame _ _ _ _ _ _ Hv); [apply Hx; left|]. intros q Hq. apply Hx. unfold upool. set_solver.
Qed.

Hypothesis Hkend : KERNBASE < kend.

Lemma setupkvm_loop_wp ks : forall pgdir c s l,
  uinv kend s pgdir l -> kmem_free c s -> Forall kmap_ok ks ->
  (forall k vpn, k ∈ ks -> covers k vpn -> pte (kmemory s) pgdir vpn = 0) ->
  (forall i j k k' vpn, ks !! i = Some k -> ks !! j = Some k' -> covers k vpn -> covers k' vpn -> i = j) ->
  wp (setupkvm_loop kend ks pgdir) c s (fun r c' s' => c' = c /\ use_lock s' = use_lock s /\ exists l',
    (forall x, (forall q, q ∈ pgdir :: upool pgdir s l -> ~ in_page q x) -> kmemory s' x = kmemory s x) /\
    ((r = pgdir /\ ueff kend pgdir s s' l l' /\
      forall vpn, is_vpn vpn -> pte (kmemory s') pgdir vpn = kview ks (pte (kmemory s) pgdir) vpn) \/
     (r = 0 /\ kinv kend s' l' /\ l' ≡ₚ pgdir :: upool pgdir s l /\ short 0 pgdir s l))).
Proof using Hkend.
  induction ks as [|k ks IH]; intros pgdir c s l Hi Hc HF Hz Hdis; cbn [setupkvm_loop].
  { wp_step. split_and!; try done. exists l. split; [done|]. left. by split_and!. }
  apply Forall_cons in HF as [Hk HF]. destruct Hk as [[K1 K2] [K3 K4] K5 (K6 & K7 & K8) K9] eqn:EK. clear EK.
  fold (ksize k).
  assert (En : (virt k + ksize k - 1) / 4096 - virt k / 4096 + 1 = ksize k / 4096) by (Z.div_mod_to_equations; lia).
  wp_step. eapply wp_mono; [|apply (mappages_wp kend) with (l := l); rewrite ?En; try done].
  all: cbn beta.
  2: apply Hi. 2: unfold KERNBASE in *; lia. 2: Z.div_mod_to_equations; lia.
  2: { intros i Hr. rewrite Hz with (k := k); [done|set_solver|]. unfold covers. lia. }
  intros r ? s1 (-> & Hu1 & l1 & j & Hv1 & Hp1 & Hres). rewrite En in Hres.
  assert (Hj : 0 <= j <= ksize k / 4096) by (destruct Hres as [[_ ->]|(_ & ? & _)]; [|lia]; split; [apply Z.div_pos; lia|lia]).
  destruct (vown_ueff pgdir s s1 l l1 Hi Hv1) as [He1 Hup1].
  { intros vpn Hvpn. rewrite Hp1 by (unfold is_vpn; lia). unfold map_view.
    unfold KERNBASE in K1. Z.div_mod_to_equations. zcases; done. }
  assert (Hc1 : kmem_free c s1) by (unfold kmem_free in *; by rewrite Hu1).
  destruct Hres as [[-> ->]|(-> & _ & ->)]; cbn [Z.ltb Z.compare].
  - assert (Hp1' : forall vpn, is_vpn vpn -> pte (kmemory s1) pgdir vpn = kmapped k (pte (kmemory s) pgdir) vpn) by exact Hp1.
    eapply wp_mono; [|apply IH with (l := l1); try done; [apply He1| |]].
    + intros r ? s2 (-> & Hu2 & l2 & Hx2 & Hres). split_and!; [done|congruence|]. exists l2. split.
      { intros x Hx. rewrite Hx2; [by apply (ueff_out _ _ _ _ _ _ He1)|]. intros q Hq. apply Hx.
        by rewrite <- (ueff_pool _ _ _ _ _ _ He1). }
      destruct Hres as [(-> & He2 & Hp2)|(-> & Hk2 & Hl2 & Hsh)]; [left|right].
      * split_and!; [done| |].
        -- eapply ueff_trans; [done|done|]. intros q Hq _. by rewrite Hup1.
        -- intros vpn Hvpn. rewrite Hp2 by done. cbn [kview]. apply kview_ext. by apply Hp1'.
      * split_and!; try done; [by rewrite Hl2, (ueff_pool _ _ _ _ _ _ He1)|by apply (short_vown kend _ _ _ s1 _ l1)].
    + intros k' vpn Hk' Hcov. apply list_elem_of_lookup in Hk' as [i Hk'].
      assert (Hok' : kmap_ok k') by (eapply Forall_lookup_1; [exact HF|exact Hk']).
      pose proof (covers_range k' vpn Hok' Hcov).
      rewrite Hp1' by (unfold is_vpn; lia).
      rewrite kmapped_out; [apply Hz with (k := k'); [|done]; right; eapply list_elem_of_lookup_2; exact Hk'|].
      intros Hcov'. specialize (Hdis 0%nat (S i) k k' vpn eq_refl Hk' Hcov' Hcov). lia.
    + intros i j k1 k2 vpn H1 H2 C1 C2. specialize (Hdis (S i) (S j) k1 k2 vpn H1 H2 C1 C2). lia.
  - wp_step. eapply wp_mono; [|apply (freevm_wp kend Hkend) with (l := []); [apply He1|done]].
    intros _ ? s2 (-> & Hu2 & l2 & Hk2 & Hl2 & Hx2). wp_step. split_and!; [done|congruence|].
    exists l2. split.
    { intros x Hx. rewrite Hx2; [by apply (ueff_out _ _ _ _ _ _ He1)|]. intros q Hq. apply Hx.
      by rewrite <- (ueff_pool _ _ _ _ _ _ He1). }
    right. split_and!; [done|done|by rewrite Hl2, (ueff_pool _ _ _ _ _ _ He1)|].
    apply (short_vown kend _ _ _ s1 _ []); [done|apply short_nil].
Qed.

(** A zeroed free page is an empty directory. *)
Lemma fresh_dir s s1 p l : kinv kend s (p :: l) -> kinv kend s1 l -> kmemory s1 = kmemory s ->
  let s2 := set_memory (memset (kmemory s1) p 0 PGSIZE) s1 in
  uinv kend s2 p l /\ upool p s2 l = l /\ (forall vpn, is_vpn vpn -> pte (kmemory s2) p vpn = 0) /\
  (forall x, ~ in_page p x -> kmemory s2 x = kmemory s x).
Proof.
  clear Hkend. intros Hk Hk1 Hm s2. destruct Hk as [Hw Hl Hv Hn]. apply Forall_cons in Hv as [Hp Hv].
  assert (Hz : forall x, in_page p x -> kmemory s2 x = 0).
  { intros x Hx. simpl. rewrite (memset_page kend) by done. unfold in_range, in_page in *. by zcases. }
  assert (Ho : forall x, ~ in_page p x -> kmemory s2 x = kmemory s x).
  { intros x Hx. simpl. rewrite (memset_page kend) by done. rewrite Hm. unfold in_range, in_page in *. by zcases. }
  assert (Ht : forall i, 0 <= i < 1024 -> table_of (kmemory s2) p i = None).
  { intros i Hi. unfold table_of, pde. rewrite (load32_page_ext (fun _ => 0)) by done. done. }
  assert (Htabs : tabs (kmemory s2) p = []) by by apply tabs_none.
  assert (Hpte : forall vpn, is_vpn vpn -> pte (kmemory s2) p vpn = 0).
  { intros vpn Hvpn. rewrite table_of_pte, Ht; [done|]. unfold is_vpn in Hvpn. Z.div_mod_to_equations. lia. }
  assert (Hup : upages (kmemory s2) p = []).
  { apply upages_none. intros vpn Hvpn. rewrite Hpte by (unfold is_vpn; lia). done. }
  assert (Hk2 : kinv kend s2 l).
  { apply (kinv_frame kend s1); try done.
    - apply memset_wf, Hk1.
    - intros q x Hq Hx. rewrite Ho, Hm; [done|]. rewrite Forall_forall in Hv.
      apply (valid_pages_disjoint kend q); try done; [by apply Hv|]. intros ->. by apply NoDup_cons in Hn as [? _]. }
  split_and!; try done.
  - constructor; rewrite ?Htabs, ?Hup; cbn [app]; [|done|done]. constructor; rewrite ?Htabs; try done.
  - unfold upool. by rewrite Htabs, Hup.
Qed.
End setup.

Section setupkvm.
Variables kend kdata : Z.
Hypothesis Hkend : KERNBASE < kend.
(** Where kernel.ld puts the symbol [data]: page aligned, after the text. *)
Hypothesis Hdata : KERNLINK < kdata /\ kdata mod 4096 = 0 /\ kdata < KERNBASE + PHYSTOP.

Lemma ksize_table : ksize <$> kmap_table kdata =
  [1048576; kdata - 2148532224; 2382364672 - kdata; 33554432].
Proof using Hdata.
  destruct Hdata as (H1 & H2 & H3). unfold KERNLINK, KERNBASE, EXTMEM, PHYSTOP in *.
  assert (E : V2P kdata = kdata - 2147483648) by (unfold V2P, KERNBASE; wrap_lia).
  unfold kmap_table. cbn [fmap list_fmap]. unfold ksize. cbn [phys_start phys_end]. rewrite E.
  change (V2P KERNLINK) with 1048576. unfold PHYSTOP, DEVSPACE, EXTMEM. repeat f_equal; wrap_lia.
Qed.

Lemma kmap_ok_intro v a b f n : u32 (b - a) = n -> KERNBASE <= v -> v mod 4096 = 0 -> 0 < n -> n mod 4096 = 0 ->
  v + n <= 4294967296 -> 0 <= a -> a mod 4096 = 0 -> a + n <= 4294967296 -> 0 <= f < 4096 -> kmap_ok (Kmap v a b f).
Proof. intros E. intros. constructor; unfold ksize; cbn [virt phys_start phys_end perm]; rewrite ?E; auto. Qed.

Lemma kmap_table_ok : Forall kmap_ok (kmap_table kdata).
Proof using Hdata.
  pose proof ksize_table as E. destruct Hdata as (H1 & H2 & H3). unfold KERNLINK, KERNBASE, EXTMEM, PHYSTOP in *.
  unfold kmap_table in *. cbn [fmap list_fmap] in E. injection E as E2 E3.
  assert (Ev : V2P kdata = kdata - 2147483648) by (unfold V2P, KERNBASE; wrap_lia).
  repeat apply Forall_cons_2; [| | | |done].
  - by apply (kmap_ok_intro _ _ _ _ 1048576).
  - apply (kmap_ok_intro _ _ _ _ (kdata - 2148532224)); [exact E2|..]; try done;
      try change (V2P KERNLINK) with 1048576; unfold KERNLINK, KERNBASE, EXTMEM; try lia;
      Z.div_mod_to_equations; lia.
  - apply (kmap_ok_intro _ _ _ _ (2382364672 - kdata)); [exact E3|..]; try done; rewrite ?Ev; unfold KERNBASE;
      try lia; Z.div_mod_to_equations; lia.
  - by apply (kmap_ok_intro _ _ _ _ 33554432).
Qed.

Lemma kmap_table_disjoint i j k k' vpn : kmap_table kdata !! i = Some k -> kmap_table kdata !! j = Some k' ->
  covers k vpn -> covers k' vpn -> i = j.
Proof using Hdata.
  intros Hi Hj. assert (Hki : (ksize <$> kmap_table kdata) !! i = Some (ksize k)) by (by rewrite list_lookup_fmap, Hi).
  assert (Hkj : (ksize <$> kmap_table kdata) !! j = Some (ksize k')) by (by rewrite list_lookup_fmap, Hj).
  rewrite ksize_table in Hki, Hkj. destruct Hdata as (H1 & H2 & H3).
  unfold covers, KERNLINK, KERNBASE, EXTMEM, PHYSTOP in *. unfold kmap_table in Hi, Hj.
  destruct i as [|[|[|[|i]]]]; simplify_eq/=; destruct j as [|[|[|[|j]]]]; simplify_eq/=; try done;
    rewrite <- ?Hki, <- ?Hkj; unfold KERNLINK, KERNBASE, EXTMEM, DEVSPACE; Z.div_mod_to_equations; lia.
Qed.

Lemma setupkvm_wp c s l : kinv kend s l -> kmem_free c s ->
  wp (setupkvm kend kdata) c s (fun r c' s' => c' = c /\ use_lock s' = use_lock s /\ exists l',
    (forall x, (forall q, q ∈ l -> ~ in_page q x) -> kmemory s' x = kmemory s x) /\
    ((r <> 0 /\ uinv kend s' r l' /\ r :: upool r s' l' ≡ₚ l /\
      forall vpn, is_vpn vpn -> pte (kmemory s') r vpn = kview (kmap_table kdata) (fun _ => 0) vpn) \/
     (r = 0 /\ kinv kend s' l' /\ l' ≡ₚ l /\ Z.of_nat (length l) <= 1025))).
Proof using Hkend Hdata.
  intros Hk Hc. unfold setupkvm. wp_step. eapply wp_mono; [|by apply kalloc_wp with (l := l)].
  intros r ? s1 (-> & Hm1 & Hu1 & Hr). destruct l as [|p l].
  { destruct Hr as [-> ->]. cbn [Z.eqb]. wp_step. split_and!; try done. exists []. split; [done|]. right. by split_and!. }
  destruct Hr as [-> Hk1].
  assert (Hp : valid_page kend p) by (pose proof (kinv_valid _ _ _ Hk) as HF; by apply Forall_cons in HF as [? _]).
  pose proof (valid_page_nonzero _ _ Hp) as Hpz. rewrite (proj2 (Z.eqb_neq p 0)) by done. do 2 wp_step.
  destruct (fresh_dir kend s s1 p l Hk Hk1 Hm1) as (Hi2 & Hpool & Hpte & Hout). set (s2 := set_memory _ s1) in *.
  change (P2V PHYSTOP >? DEVSPACE) with false. cbv iota.
  eapply wp_mono; [|apply (setupkvm_loop_wp kend Hkend) with (l := l); try done].
  - intros r ? s3 (-> & Hu3 & l3 & Hx3 & Hres). rewrite Hpool in Hx3, Hres.
    split_and!; [done|by rewrite Hu3|]. exists l3. split.
    { intros x Hx. rewrite Hx3 by done. apply Hout, Hx. left. }
    destruct Hres as [(-> & He & Hp3)|(-> & Hk3 & Hl3 & Hsh)]; [left|right].
    2: { split_and!; try done. apply short_length in Hsh. cbn [length]. lia. }
    split_and!; try done; [apply He| |].
    + rewrite (ueff_pool _ _ _ _ _ _ He). by rewrite Hpool.
    + intros vpn Hvpn. rewrite Hp3 by done. apply kview_ext. by apply Hpte.
  - unfold kmem_free in *. by rewrite <- Hu1 in Hc.
  - apply kmap_table_ok.
  - intros k vpn Hk' Hcov. apply Hpte. pose proof kmap_table_ok as HF. rewrite Forall_forall in HF.
    pose proof (covers_range k vpn (HF k Hk') Hcov). unfold is_vpn. lia.
  - apply kmap_table_disjoint.
Qed.
End setupkvm.

(** * copyuvm *)

Section copyuvm.
Variable kend : Z.

(** The pages of an address space, without the free list. *)
Definition own_pages (m : mem) (pgdir : Z) : list Z := pgdir :: tabs m pgdir ++ upages m pgdir.
(** Memory of the address space is as it was. *)
Definition space_kept (m0 m : mem) (pgdir : Z) : Prop :=
  forall q x, q ∈ own_pages m0 pgdir -> in_page q x -> m x = m0 x.

Lemma own_apart s pgdir l q p x : uinv kend s pgdir l -> q ∈ own_pages (kmemory s) pgdir -> p ∈ l ->
  in_page q x -> ~ in_page p x.
Proof.
  intros Hi Hq Hp Hx. pose proof (uinv_nodup _ _ _ _ Hi) as Hnd. rewrite app_assoc in Hnd.
  change (pgdir :: ?a ++ l) with ((pgdir :: a) ++ l) in Hnd. fold (own_pages (kmemory s) pgdir) in Hnd.
  apply NoDup_app in Hnd as (_ & Hd & _). apply (valid_pages_disjoint kend q); try done.
  - apply (upool_valid kend s pgdir l); [done|]. unfold own_pages in Hq. unfold upool. set_solver.
  - apply (upool_valid kend s pgdir l); [done|]. unfold upool. set_solver.
  - intros ->. by apply (Hd p).
Qed.

Lemma kept_pte m0 m pgdir vpn : space_kept m0 m pgdir -> is_vpn vpn -> pte m pgdir vpn = pte m0 pgdir vpn.
Proof.
  intros Hk Hv. apply pte_frame; [done| |].
  - intros x Hx. apply (Hk pgdir); [left|done].
  - intros t x Ht Hx. apply (Hk t); [|done]. unfold own_pages. set_solver.
Qed.

Lemma kept_user m0 m pgdir a : space_kept m0 m pgdir -> 0 <= a < KERNBASE ->
  flag (pte m0 pgdir (a / 4096)) PTE_P = true ->
  user_ok m pgdir a = user_ok m0 pgdir a /\ ubyte m pgdir a = ubyte m0 pgdir a.
Proof.
  intros Hk Ha Hf. assert (E : pte m pgdir (a / 4096) = pte m0 pgdir (a / 4096)).
  { apply kept_pte; [done|]. unfold is_vpn, KERNBASE in *. Z.div_mod_to_equations. lia. }
  unfold user_ok, ubyte. rewrite E. split; [done|].
  apply (Hk (P2V (PTE_ADDR (pte m0 pgdir (a / 4096))))); [|unfold in_page, PGSIZE; Z.div_mod_to_equations; lia].
  unfold own_pages. apply elem_of_cons. right. apply elem_of_app. right. apply elem_of_upages.
  exists (a / 4096). split; [unfold KERNBASE in Ha; Z.div_mod_to_equations; lia|]. unfold page_of. by rewrite Hf.
Qed.

Lemma taken_uinv d s s2 p l : uinv kend s d (p :: l) -> taken kend d s s2 p l ->
  uinv kend s2 d l /\ upool d s2 l = upool d s l /\ p ∉ d :: upool d s l.
Proof.
  intros Hi [Hv Hp Ht Hpt Ho].
  assert (Hup : upages (kmemory s2) d = upages (kmemory s) d) by by apply upages_ext.
  assert (Hpool : upool d s2 l = upool d s l) by (unfold upool; by rewrite Ht, Hup).
  assert (Hnd : NoDup (p :: d :: upool d s l)).
  { pose proof (uinv_nodup _ _ _ _ Hi) as Hnd. unfold upool. rewrite perm_swap.
    rewrite <- Permutation_middle, <- Permutation_middle in Hnd. exact Hnd. }
  apply NoDup_cons in Hnd as [Hpn Hnd]. split_and!; try done.
  constructor; [done|rewrite Hup; apply Hi|]. fold (upool d s2 l). by rewrite Hpool.
Qed.

(** Page [vpn] of [d] is a copy of the one of [pgdir], with the same flags. *)
Definition copied (m0 : mem) (pgdir : Z) (m : mem) (d vpn : Z) : Prop :=
  exists q, q ∈ upages m d /\ valid_page kend q /\ pte m d vpn = V2P q + PTE_FLAGS (pte m0 pgdir vpn) /\
    forall k, 0 <= k < 4096 -> m (q + k) = m0 (P2V (PTE_ADDR (pte m0 pgdir vpn)) + k).

Lemma entry_page p f : valid_page kend p -> 0 <= f < 4096 -> f mod 2 = 1 ->
  page_of (V2P p + f) = Some p /\ V2P p mod 4096 = 0 /\ 0 <= V2P p < PHYSTOP.
Proof.
  intros Hp Hf Ho. destruct (upage_entry kend p Hp) as (_ & _ & H1 & H2). split; [|done].
  unfold page_of. rewrite flag_P. replace (negb ((V2P p + f) mod 2 =? 0)) with true by (Z.div_mod_to_equations; lia).
  rewrite PTE_ADDR_build by done. f_equal. apply P2V_V2P. by apply (valid_u32 kend).
Qed.

(** Finding the entry of a page that is present. *)
Lemma walk_present_wp {A} pgdir vpn s l c (k : Z -> M kst A) (Q : A -> ctx -> kst -> Prop) msg :
  vinv kend s pgdir l -> 0 <= vpn < 524288 -> flag (pte (kmemory s) pgdir vpn) PTE_P = true ->
  wp (k (pte (kmemory s) pgdir vpn)) c s Q ->
  wp (p ← walkpgdir pgdir (4096 * vpn) false; if p =? 0 then panic msg else w ← get32 p; k w) c s Q.
Proof.
  intros Hi Hv Hf HQ. assert (Hu : is_u32 (4096 * vpn)) by wrap_lia.
  assert (E : 4096 * vpn / 4096 = vpn) by (rewrite Z.mul_comm; by apply Z.div_mul).
  destruct (present_table _ _ _ Hf) as [t Ht]. wp_step. eapply wp_mono; [|by apply walk_find_wp].
  intros r ? ? (-> & -> & ->).
  assert (Hnz : walk_result (kmemory s) pgdir (4096 * vpn) <> 0).
  { intros Hz. apply (walk_result_zero kend s pgdir _ l) in Hz; [|done|done]. rewrite E in Hz. congruence. }
  rewrite (proj2 (Z.eqb_neq _ 0)) by done. do 2 wp_step. unfold walk_result. rewrite E, Ht.
  rewrite table_of_pte, Ht in HQ. exact HQ.
Qed.

(** Giving up: the page that could not be mapped and the whole copy are
    freed. *)
Lemma copy_undo_wp d s s2 s3 p l c : KERNBASE < kend -> uinv kend s d (p :: l) -> taken kend d s s2 p l ->
  vown kend d s2 s3 l [] ->
  (forall vpn, is_vpn vpn -> pte (kmemory s3) d vpn = pte (kmemory s2) d vpn) -> kmem_free c s3 ->
  wp (kfree kend p;; freevm kend d;; mret 0) c s3 (fun r c' s' => c' = c /\ use_lock s' = use_lock s3 /\ r = 0 /\
    (forall x, (forall q, q ∈ d :: upool d s (p :: l) -> ~ in_page q x) -> kmemory s' x = kmemory s x) /\
    exists l', kinv kend s' l' /\ l' ≡ₚ d :: upool d s (p :: l)).
Proof.
  intros Hkend Hi Ht Hv Hp Hc. destruct (taken_uinv d s s2 p l Hi Ht) as (Hi2 & Hpool2 & Hpn).
  destruct (vown_ueff kend d s2 s3 l [] Hi2 Hv) as [He3 Hup3].
  { intros vpn Hvpn. f_equal. apply Hp. unfold is_vpn. lia. }
  pose proof (ueff_pool _ _ _ _ _ _ He3) as Hpool3. rewrite Hpool2 in Hpool3.
  assert (Hadd : upool d s (p :: l) ≡ₚ p :: upool d s l).
  { unfold upool. by rewrite <- !Permutation_middle. }
  wp_step. eapply wp_mono; [|apply (return_page_wp kend d s3 []); try done; [apply He3|apply Ht|by rewrite Hpool3]].
  intros _ ? s4 (-> & Hu4 & Hi4 & Ht4 & Hp4 & Hm4).
  assert (Hpool4 : upool d s4 [p] ≡ₚ upool d s (p :: l)).
  { rewrite Hadd, <- Hpool3. unfold upool. rewrite Ht4, (upages_ext _ _ _ Hp4).
    by rewrite <- !Permutation_middle. }
  wp_step. eapply wp_mono; [|apply (freevm_wp kend Hkend) with (l := [p]); [done|]].
  2: { unfold kmem_free in *. by rewrite Hu4. }
  intros _ ? s5 (-> & Hu5 & l5 & Hk5 & Hl5 & Hx5). wp_step. rewrite Hpool4 in Hl5.
  split_and!; [done|congruence|done| |by exists l5].
  intros x Hx. assert (Hxp : ~ in_page p x) by (apply Hx; rewrite Hadd; set_solver).
  rewrite Hx5 by (by intros q; rewrite Hpool4; apply Hx). rewrite Hm4 by done.
  rewrite (ueff_out _ _ _ _ _ _ He3); [by apply Ht|]. intros q Hq. apply Hx. rewrite Hpool2 in Hq.
  rewrite Hadd. set_solver.
Qed.

(** The state of the loop at page [v]: the parent [pgdir] (in [s0]) is
    untouched, pages below [v] are copied, those above still absent. *)
Record copying (s0 : kst) (l0 : list Z) (pgdir d v : Z) (s : kst) (l : list Z) : Prop := {
  cp_kept : space_kept (kmemory s0) (kmemory s) pgdir;
  cp_child : uinv kend s d l;
  cp_pool : d :: upool d s l ≡ₚ l0;
  cp_done : forall vpn, 0 <= vpn < v -> copied (kmemory s0) pgdir (kmemory s) d vpn;
  cp_rest : forall vpn, v <= vpn < 524288 -> pte (kmemory s) d vpn = 0
}.

Section page.
Variables (s0 : kst) (l0 : list Z) (pgdir d v : Z) (s s1 : kst) (p : Z) (l : list Z).
Hypothesis Hcp : copying s0 l0 pgdir d v s (p :: l).

Lemma page_new : p ∈ l0 /\ valid_page kend p.
Proof using Hcp.
  destruct Hcp as [H1 H2 H3 H4 H5]. split; [rewrite <- H3; unfold upool; set_solver|].
  apply (upool_valid kend s d (p :: l)); [done|]. unfold upool. set_solver.
Qed.

Hypothesis Hpar : uinv kend s0 pgdir l0.
Hypothesis Hv : 0 <= v < 524288.
Hypothesis Hpres : flag (pte (kmemory s0) pgdir v) PTE_P = true.
Let src := P2V (PTE_ADDR (pte (kmemory s0) pgdir v)).

Lemma page_src : src ∈ upages (kmemory s0) pgdir /\ (forall k, 0 <= k < 4096 ->
  kmemory s (src + k) = kmemory s0 (src + k) /\ ~ in_page p (src + k)).
Proof using Hpar Hcp Hv Hpres.
  assert (Hs : src ∈ upages (kmemory s0) pgdir).
  { apply elem_of_upages. exists v. split; [done|]. unfold page_of. by rewrite Hpres. }
  assert (Ho : src ∈ own_pages (kmemory s0) pgdir) by (unfold own_pages; set_solver).
  split; [done|]. intros k Hk. assert (Hx : in_page src (src + k)) by (unfold in_page, PGSIZE; lia).
  split; [by apply (cp_kept _ _ _ _ _ _ _ Hcp src)|]. by apply (own_apart s0 pgdir l0 src); [| |apply page_new|].
Qed.

Hypothesis Hm1 : kmemory s1 = kmemory s.
Hypothesis Hk1 : kinv kend s1 l.
Let s2 := set_memory (memmove (kmemory s1) p src PGSIZE) s1.

Lemma page_taken : taken kend d s s2 p l /\
  (forall k, 0 <= k < 4096 -> kmemory s2 (p + k) = kmemory s0 (src + k)).
Proof using Hpar Hcp Hv Hpres Hm1 Hk1.
  assert (Hw : mem_wf (kmemory s1)) by apply Hk1. assert (Hpg : 0 <= PGSIZE) by (unfold PGSIZE; lia). split.
  - apply take_page; try done; [apply Hcp|by apply memmove_wf|]. intros x Hx. rewrite memmove_at, Hm1 by done.
    unfold in_range, in_page in *. by zcases.
  - intros k Hk. simpl. rewrite memmove_at, Hm1 by done. unfold in_range, PGSIZE.
    replace (p + k - p) with k by lia. destruct page_src as [_ Hs]. destruct (Hs k Hk) as [<- _]. by zcases.
Qed.

Lemma page_done s3 l3 w : vown kend d s2 s3 l l3 -> w = V2P p + PTE_FLAGS (pte (kmemory s0) pgdir v) ->
  page_of w = Some p ->
  (forall vpn, is_vpn vpn -> pte (kmemory s3) d vpn = if vpn =? v then w else pte (kmemory s2) d vpn) ->
  copying s0 l0 pgdir d (v + 1) s3 l3 /\
  (forall vpn, 524288 <= vpn < 1048576 -> pte (kmemory s3) d vpn = pte (kmemory s) d vpn).
Proof using Hpar Hcp Hv Hpres Hm1 Hk1.
  intros Hown Hw Hpg Hp3. destruct page_taken as [Ht Hcopy]. pose proof Hcp as [C1 C2 C3 C4 C5].
  destruct (add_upage_ueff kend d s s2 s3 p l l3 v w) as (E1 & E2 & E3 & E4); try done.
  { by rewrite C5 by lia. }
  assert (Hpte : forall vpn, is_vpn vpn -> pte (kmemory s3) d vpn = if vpn =? v then w else pte (kmemory s) d vpn).
  { intros vpn Hvpn. rewrite Hp3 by done. by rewrite (taken_pte _ _ _ _ _ _ Ht). }
  split; [constructor|].
  - intros q x Hq Hx. rewrite (ueff_out _ _ _ _ _ _ E1); [by apply (C1 q)|].
    intros q' Hq'. rewrite C3 in Hq'. by apply (own_apart s0 pgdir l0 q).
  - apply E1.
  - by rewrite (ueff_pool _ _ _ _ _ _ E1).
  - intros vpn Hvpn. destruct (decide (vpn = v)) as [->|Hne].
    + exists p. split_and!; [done|apply page_new|rewrite Hpte, Z.eqb_refl by (unfold is_vpn; lia); done|].
      intros k Hk. rewrite E4 by (unfold in_page, PGSIZE; lia). by apply Hcopy.
    + destruct (C4 vpn ltac:(lia)) as (q & Q1 & Q2 & Q3 & Q4). exists q. split_and!; [by apply E2|done| |].
      * rewrite Hpte by (unfold is_vpn; lia). by rewrite (proj2 (Z.eqb_neq vpn v)).
      * intros k Hk. rewrite (ueff_keep _ _ _ _ _ _ E1 q); [by apply Q4|done|by apply E2|unfold in_page, PGSIZE; lia].
  - intros vpn Hvpn. rewrite Hpte by (unfold is_vpn; lia). rewrite (proj2 (Z.eqb_neq vpn v)) by lia. apply C5. lia.
  - intros vpn Hvpn. rewrite Hpte by (unfold is_vpn; lia). by rewrite (proj2 (Z.eqb_neq vpn v)) by lia.
Qed.
End page.

(** An address space whose memory is kept is still well formed beside what is
    left of the free list. *)
Lemma kept_uinv s0 s pgdir k l0 l : uinv kend s0 pgdir l0 -> space_kept (kmemory s0) (kmemory s) pgdir ->
  kinv kend s l -> k ++ l ≡ₚ l0 -> uinv kend s pgdir l.
Proof.
  intros [[V1 V2 V3 V4] U1 U2] Hs Hk Hl.
  assert (Et : tabs (kmemory s) pgdir = tabs (kmemory s0) pgdir).
  { apply tabs_frame. intros x Hx. apply (Hs pgdir); [left|done]. }
  assert (Eu : upages (kmemory s) pgdir = upages (kmemory s0) pgdir).
  { apply upages_ext. intros vpn Hv. by apply kept_pte. }
  rewrite <- Hl in V4, U2. constructor; [constructor|..]; rewrite ?Et, ?Eu; try done.
  - change (NoDup ((pgdir :: tabs (kmemory s0) pgdir) ++ l)).
    change (NoDup ((pgdir :: tabs (kmemory s0) pgdir) ++ k ++ l)) in V4.
    rewrite (Permutation_app_swap_app _ k) in V4. by apply NoDup_app in V4 as (_ & _ & ?).
  - rewrite app_assoc in U2 |- *.
    change (NoDup ((pgdir :: tabs (kmemory s0) pgdir ++ upages (kmemory s0) pgdir) ++ l)).
    change (NoDup ((pgdir :: tabs (kmemory s0) pgdir ++ upages (kmemory s0) pgdir) ++ k ++ l)) in U2.
    rewrite (Permutation_app_swap_app _ k) in U2. by apply NoDup_app in U2 as (_ & _ & ?).
Qed.

(** The parent's directory is still well formed beside the free list. *)
Lemma parent_vinv s0 l0 pgdir d v s l : uinv kend s0 pgdir l0 -> copying s0 l0 pgdir d v s l ->
  vinv kend s pgdir l.
Proof.
  intros Hpar [C1 C2 C3 C4 C5]. apply (kept_uinv s0 s pgdir (d :: tabs (kmemory s) d ++ upages (kmemory s) d) l0); try done.
  - apply C2.
  - rewrite <- C3. unfold upool. by rewrite <- app_comm_cons, <- app_assoc.
Qed.

Hypothesis Hkend : KERNBASE < kend.

Lemma copyuvm_loop_wp n : forall s0 l0 pgdir d v sz c s l,
  uinv kend s0 pgdir l0 -> copying s0 l0 pgdir d v s l -> kmem_free c s ->
  0 <= v <= npages sz -> 0 <= sz <= KERNBASE -> npages sz - v <= Z.of_nat n ->
  (forall vpn, 0 <= vpn < npages sz -> flag (pte (kmemory s0) pgdir vpn) PTE_P = true) ->
  wp (copyuvm_loop kend n pgdir d (4096 * v) sz) c s (fun r c' s' => c' = c /\ use_lock s' = use_lock s /\
    exists l', (r = d /\ copying s0 l0 pgdir d (npages sz) s' l' /\
        forall vpn, 524288 <= vpn < 1048576 -> pte (kmemory s') d vpn = pte (kmemory s) d vpn) \/
      (r = 0 /\ kinv kend s' l' /\ l' ≡ₚ l0 /\ space_kept (kmemory s0) (kmemory s') pgdir /\
       short (npages sz - v) d s l)).
Proof using Hkend.
  induction n as [|n IH]; intros s0 l0 pgdir d v sz c s l Hpar Hcp Hc Hv Hsz Hn Hpres.
  all: cbn [copyuvm_loop]; destruct (Z.ltb_spec (4096 * v) sz) as [Hlt|Hge].
  1: unfold npages in *; wrap_lia.
  1, 3: assert (v = npages sz) as -> by (unfold npages in *; wrap_lia); wp_step; split_and!; try done;
    exists l; left; by split_and!.
  assert (Hv' : v < npages sz) by (unfold npages; wrap_lia).
  assert (Hhi : npages sz <= 524288) by (unfold npages, KERNBASE in *; wrap_lia).
  pose proof Hcp as [C1 C2 C3 C4 C5].
  assert (Epte : pte (kmemory s) pgdir v = pte (kmemory s0) pgdir v) by (apply kept_pte; [done|unfold is_vpn; lia]).
  assert (Hpr : flag (pte (kmemory s0) pgdir v) PTE_P = true) by (apply Hpres; lia).
  apply (walk_present_wp _ _ _ l); [by eapply parent_vinv|lia|by rewrite Epte|]. rewrite Epte, Hpr. cbn [negb].
  wp_step. eapply wp_mono; [|apply kalloc_wp with (l := l); [apply C2|done]].
  intros r ? s1 (-> & Hm1 & Hu1 & Hr). destruct l as [|p l].
  { destruct Hr as [-> ->]. cbn [Z.eqb]. wp_step. eapply wp_mono; [|by apply (freevm_wp kend Hkend) with (l := [])].
    intros _ ? s' (-> & Hu & l' & Hk' & Hl' & Hx'). wp_step. split_and!; try done. exists l'. right.
    split_and!; [done|done|by rewrite Hl'| |apply (short_le 0); [apply short_nil|lia]].
    intros q x Hq Hx. rewrite Hx'; [by apply (C1 q)|].
    intros q' Hq'. rewrite C3 in Hq'. by apply (own_apart s0 pgdir l0 q). }
  destruct Hr as [-> Hk1]. destruct (page_new s0 l0 pgdir d v s p l Hcp) as [Hp0 Hp].
  rewrite (proj2 (Z.eqb_neq p 0) (valid_page_nonzero _ _ Hp)). do 2 wp_step.
  destruct (page_taken s0 l0 pgdir d v s s1 p l Hcp Hpar) as [Ht Hcopy]; [lia|done|done|done|].
  set (s2 := set_memory _ s1) in *. set (f := PTE_FLAGS (pte (kmemory s0) pgdir v)).
  assert (Hf : 0 <= f < 4096 /\ f mod 2 = 1).
  { unfold f. rewrite PTE_FLAGS_eq. rewrite flag_P in Hpr. apply negb_true_iff, Z.eqb_neq in Hpr.
    Z.div_mod_to_equations. lia. }
  destruct (entry_page p f Hp) as (Hpg & Ha & Hb); [lia|lia|].
  assert (Ef : V2P p + (2 * (f / 2) + 1) = V2P p + f) by (Z.div_mod_to_equations; lia).
  wp_step. eapply wp_mono; [|apply map_page_wp with (l := l); try done; try apply Ht; try lia].
  2: { unfold kmem_free in *. simpl. by rewrite Hu1. }
  2: { unfold PHYSTOP in Hb. lia. }
  2: { rewrite (taken_pte _ _ _ _ _ _ Ht) by (unfold is_vpn; lia). rewrite C5 by lia. done. }
  intros r ? s3 (-> & Hu3 & l3 & Hown & Hres). rewrite Ef in Hres.
  assert (Hc3 : kmem_free c s3) by (unfold kmem_free in *; rewrite Hu3; simpl; by rewrite Hu1).
  destruct Hres as [[-> Hp3]|(-> & -> & Hp3)]; cbn [Z.ltb Z.compare].
  - destruct (page_done s0 l0 pgdir d v s s1 p l Hcp Hpar ltac:(lia) Hpr Hm1 Hk1 s3 l3 (V2P p + f)) as [Hcp3 Hker]; try done.
    replace (u32 (4096 * v + PGSIZE)) with (4096 * (v + 1)) by (unfold PGSIZE, KERNBASE in *; wrap_lia).
    eapply wp_mono; [|apply IH with (s0 := s0) (l0 := l0) (l := l3); try done; lia].
    intros r ? s4 (-> & Hu4 & l4 & Hres). split_and!; [done|by rewrite Hu4, Hu3|]. exists l4.
    destruct Hres as [(-> & Hcp4 & Hker4)|(-> & Hk4 & Hl4 & Hkept & Hsh)]; [left|right].
    2: { split_and!; try done. apply (short_le (npages sz - (v + 1) + 1)); [|lia].
         apply (short_cons _ _ _ s2); [apply Ht|]. by apply (short_vown kend _ _ _ s3 _ l3). }
    split_and!; [done|done|].
    intros vpn Hvpn. rewrite Hker4, Hker by done. done.
  - eapply wp_mono; [|apply (copy_undo_wp d s s2 s3 p l c Hkend C2 Ht Hown Hp3 Hc3)].
    intros r ? s4 (-> & Hu4 & -> & Hx4 & l4 & Hk4 & Hl4). split_and!; [done|by rewrite Hu4, Hu3|].
    exists l4. right. split_and!; [done|done|by rewrite Hl4| |].
    2: { apply (short_le (0 + 1)); [|lia]. apply (short_cons _ _ _ s2); [apply Ht|].
         apply (short_vown kend _ _ _ s3 _ []); [done|apply short_nil]. }
    intros q x Hq Hx. rewrite Hx4; [by apply (C1 q)|]. intros q' Hq'. rewrite C3 in Hq'.
    by apply (own_apart s0 pgdir l0 q).
Qed.
End copyuvm.

Lemma flag_flags w w' b : Z.land 0xFFF b = b -> PTE_FLAGS w = PTE_FLAGS w' -> flag w b = flag w' b.
Proof.
  intros Hb E. unfold flag. rewrite <- Hb, !Z.land_assoc. unfold PTE_FLAGS in E. by rewrite E.
Qed.

(** A copied page looks the same to the process. *)
Lemma copied_same kend m0 pgdir m d a : copied kend m0 pgdir m d (a / 4096) ->
  user_ok m d a = user_ok m0 pgdir a /\ ubyte m d a = ubyte m0 pgdir a.
Proof.
  intros (q & _ & Hq & E & Hc). destruct (upage_entry kend q Hq) as (_ & _ & Ha & _).
  assert (Hf : 0 <= PTE_FLAGS (pte m0 pgdir (a / 4096)) < 4096) by (rewrite PTE_FLAGS_eq; Z.div_mod_to_equations; lia).
  assert (Efl : PTE_FLAGS (pte m d (a / 4096)) = PTE_FLAGS (pte m0 pgdir (a / 4096))).
  { by rewrite E, PTE_FLAGS_build. }
  split.
  - unfold user_ok. by rewrite !(flag_flags (pte m d (a / 4096)) (pte m0 pgdir (a / 4096))).
  - unfold ubyte. rewrite E, PTE_ADDR_build, P2V_V2P by (done || by apply (valid_u32 kend)).
    apply Hc. Z.div_mod_to_equations. lia.
Qed.

Section fork_memory.
Variables kend kdata : Z.
Hypothesis Hkend : KERNBASE < kend.
Hypothesis Hdata : KERNLINK < kdata /\ kdata mod 4096 = 0 /\ kdata < KERNBASE + PHYSTOP.

Lemma copyuvm_wp pgdir sz c s l : uinv kend s pgdir l -> kmem_free c s -> 0 <= sz <= KERNBASE ->
  (forall vpn, 0 <= vpn < npages sz -> flag (pte (kmemory s) pgdir vpn) PTE_P = true) ->
  wp (copyuvm kend kdata pgdir sz) c s (fun r c' s' => c' = c /\ use_lock s' = use_lock s /\
    space_kept (kmemory s) (kmemory s') pgdir /\ exists l',
      (r <> 0 /\ copying kend s l pgdir r (npages sz) s' l' /\
        forall vpn, 524288 <= vpn < 1048576 -> pte (kmemory s') r vpn = kview (kmap_table kdata) (fun _ => 0) vpn) \/
      (r = 0 /\ kinv kend s' l' /\ l' ≡ₚ l /\ Z.of_nat (length l) <= 1025 + npages sz)).
Proof using Hkend Hdata.
  intros Hi Hc Hsz Hpres. unfold copyuvm. wp_step.
  eapply wp_mono; [|apply (setupkvm_wp kend kdata Hkend Hdata) with (l := l); [apply Hi|done]].
  intros d ? s1 (-> & Hu1 & l1 & Hx1 & Hres).
  assert (Hkept : space_kept (kmemory s) (kmemory s1) pgdir).
  { intros q x Hq Hx. apply Hx1. intros q' Hq'. by apply (own_apart kend s pgdir l q). }
  assert (H0 : 0 <= npages sz) by (unfold npages; wrap_lia).
  destruct Hres as [(Hd & Hi1 & Hpool & Hpte)|(-> & Hk1 & Hl1 & Hlen)].
  2: { cbn [Z.eqb]. wp_step. split_and!; try done. exists l1. right. split_and!; try done. lia. }
  rewrite (proj2 (Z.eqb_neq d 0)) by done.
  assert (Huser : forall vpn, 0 <= vpn < 524288 -> pte (kmemory s1) d vpn = 0).
  { intros vpn Hvpn. rewrite Hpte by (unfold is_vpn; lia).
    by rewrite (kview_user _ _ _ (kmap_table_ok kdata Hdata)) by lia. }
  eapply wp_mono; [|apply (copyuvm_loop_wp kend Hkend _ s l pgdir d 0 sz c s1 l1); try done].
  - intros r ? s2 (-> & Hu2 & l2 & Hres). split_and!; [done|congruence|by destruct Hres as [(_ & [] & _)|(_ & _ & _ & ? & _)]|].
    exists l2. destruct Hres as [(-> & Hcp & Hker)|(-> & Hk2 & Hl2 & _ & Hsh)]; [left|right].
    2: { split_and!; try done. apply Permutation_length in Hpool. unfold upool in Hpool.
         rewrite upages_none in Hpool by (intros vpn Hvpn; by rewrite Huser). 
         cbn [length app] in Hpool. rewrite length_app in Hpool. unfold short in Hsh. lia. }
    split_and!; [done|done|]. intros vpn Hvpn. rewrite Hker by done. apply Hpte. unfold is_vpn. lia.
  - constructor; try done. intros; lia.
  - unfold kmem_free in *. by rewrite Hu1.
  - unfold npages, PGSIZE. wrap_lia.
Qed.

(** C15: the memory of [fork].  [copyuvm] either gives the child its own
    address space, in which every address below the size reads the same byte
    and has the same permissions as in the parent and nothing above is
    mapped, made only of pages from the free list; or, out of memory, it
    returns 0 and every page it took is back on the free list, which was then
    shorter than the copy and a full set of tables need.  In both cases the
    parent's directory, tables and pages are untouched. *)
Theorem copyuvm_correct pgdir sz c s l : uinv kend s pgdir l -> kmem_free c s -> 0 <= sz <= KERNBASE ->
  (forall vpn, 0 <= vpn < npages sz -> flag (pte (kmemory s) pgdir vpn) PTE_P = true) ->
  wp (copyuvm kend kdata pgdir sz) c s (fun r c' s' => c' = c /\ space_kept (kmemory s) (kmemory s') pgdir /\
    exists l',
      (r <> 0 /\ uinv kend s' r l' /\ r :: upool r s' l' ≡ₚ l /\
       (forall a, 0 <= a < 4096 * npages sz -> user_ok (kmemory s') r a = user_ok (kmemory s) pgdir a /\
          ubyte (kmemory s') r a = ubyte (kmemory s) pgdir a) /\
       (forall a, 4096 * npages sz <= a < KERNBASE -> user_ok (kmemory s') r a = false)) \/
      (r = 0 /\ kinv kend s' l' /\ l' ≡ₚ l /\ Z.of_nat (length l) <= 1025 + npages sz)).
Proof using Hkend Hdata.
  intros Hi Hc Hsz Hpres. eapply wp_mono; [|by apply (copyuvm_wp pgdir sz c s l)].
  intros r ? s' (-> & Hu & Hkept & l' & Hres). split_and!; [done|done|]. exists l'.
  destruct Hres as [(Hr & [C1 C2 C3 C4 C5] & _)|Hres]; [left|by right]. split_and!; try done.
  - intros a Ha. apply (copied_same kend), C4. Z.div_mod_to_equations. lia.
  - intros a Ha. unfold user_ok. rewrite C5; [done|]. unfold KERNBASE in Ha. Z.div_mod_to_equations. lia.
Qed.
End fork_memory.

(** ** Examples with many free pages *)

Definition many (n : nat) : list Z := (fun i => kpage (100 + Z.of_nat i)) <$> seq 0 n.
(** Memory [m] with the pages [many n] free. *)
Definition with_free (m : mem) (n : nat) : kst := Kst (link m (many n)) 1 (hd 0 (many n)).

Lemma elem_of_many n p : p ∈ many n -> exists i, (i < n)%nat /\ p = kpage (100 + Z.of_nat i).
Proof. unfold many. intros (i & -> & Hi%elem_of_seq)%list_elem_of_fmap. exists i. split; [lia|done]. Qed.
Lemma length_many n : length (many n) = n.
Proof. unfold many. by rewrite length_fmap, length_seq. Qed.

Section with_free.
Variables (m : mem) (n : nat).
Hypothesis Hn : Z.of_nat n <= 2000.
Hypothesis Hz : forall x, kpage 100 <= x -> m x = 0.
Hypothesis Hu : uinv (kpage 0) (Kst m 1 0) (kpage 4) [].
Hypothesis Hlow : forall q, q ∈ own_pages m (kpage 4) -> q + 4096 <= kpage 100.

Lemma with_free_kinv : kinv (kpage 0) (with_free m n) (many n).
Proof using Hn Hz Hu.
  apply link_kinv.
  - apply Forall_forall. intros p (i & Hi & ->)%elem_of_many. clear Hz Hu.
    unfold valid_page, kpage, KERNBASE, PHYSTOP, PGSIZE. wrap_lia.
  - apply NoDup_fmap_2_strong, NoDup_seq. intros i j _ _. unfold kpage. lia.
  - apply (kinv_wf (kpage 0) (Kst m 1 0) []), Hu.
  - intros p x (i & Hi & ->)%elem_of_many Hx. apply Hz. unfold in_page, PGSIZE, kpage in *. lia.
Qed.

Lemma with_free_kept : space_kept m (kmemory (with_free m n)) (kpage 4).
Proof using Hlow.
  intros q x Hq Hx. apply link_out. intros p (i & Hi & ->)%elem_of_many. specialize (Hlow q Hq).
  unfold in_page, PGSIZE, kpage in *. lia.
Qed.

Lemma with_free_uinv : uinv (kpage 0) (with_free m n) (kpage 4) (many n).
Proof using Hn Hz Hu Hlow.
  pose proof with_free_kinv as Hk. pose proof with_free_kept as Hs. destruct Hu as [[_ V2 V3 V4] U1 U2]. cbn in *.
  assert (Et : tabs (kmemory (with_free m n)) (kpage 4) = tabs m (kpage 4)).
  { apply tabs_frame. intros x Hx. apply (Hs (kpage 4)); [left|done]. }
  assert (Eu : upages (kmemory (with_free m n)) (kpage 4) = upages m (kpage 4)).
  { apply upages_ext. intros vpn Hv. by apply kept_pte. }
  assert (Hd : forall q, q ∈ own_pages m (kpage 4) -> q ∉ many n).
  { intros q Hq (i & Hi & E)%elem_of_many. specialize (Hlow q Hq). unfold kpage in *. lia. }
  rewrite app_nil_r in V4, U2. unfold own_pages in Hd.
  constructor; [constructor|..]; rewrite ?Et, ?Eu; try done; rewrite ?app_assoc, ?app_comm_cons;
    apply NoDup_app; (split_and!; [done| |apply Hk]); [|done].
  intros q Hq. apply Hd. set_solver.
Qed.
End with_free.

Lemma ex2_low q : q ∈ own_pages ex2_mem (kpage 4) -> q + 4096 <= kpage 100.
Proof. unfold own_pages. rewrite ex2_tabs, ex2_upages. unfold kpage. set_unfold. naive_solver lia. Qed.
Lemma ex2_high x : kpage 100 <= x -> ex2_mem x = 0.
Proof. intros Hx. apply ex2_zero. unfold kpage in *. lia. Qed.
Lemma ex2_kept n : space_kept ex2_mem (kmemory (with_free ex2_mem n)) (kpage 4).
Proof. apply with_free_kept, ex2_low. Qed.
Lemma ex2_free n : Z.of_nat n <= 2000 -> uinv (kpage 0) (with_free ex2_mem n) (kpage 4) (many n).
Proof. intros Hn. apply with_free_uinv; [done|apply ex2_high|apply ex2_uinv|apply ex2_low]. Qed.
#[global] Opaque many with_free.

(** Two pages copied, with enough memory. *)
Lemma copyuvm_correct_witness : let s := with_free ex2_mem 1200 in
  wp (copyuvm (kpage 0) 2148536320 (kpage 4) 5000) ctx0 s (fun r c' s' => c' = ctx0 /\
    space_kept (kmemory s) (kmemory s') (kpage 4) /\ exists l',
      r <> 0 /\ uinv (kpage 0) s' r l' /\ r :: upool r s' l' ≡ₚ many 1200 /\
      (forall a, 0 <= a < 8192 -> user_ok (kmemory s') r a = user_ok (kmemory s) (kpage 4) a /\
          ubyte (kmemory s') r a = ubyte (kmemory s) (kpage 4) a) /\
      (forall a, 8192 <= a < KERNBASE -> user_ok (kmemory s') r a = false)).
Proof.
  intros s. eapply wp_mono; [|apply (copyuvm_correct (kpage 0) 2148536320) with (s := s) (l := many 1200)].
  - intros r c' s' (-> & Hk & l' & [Hr|(_ & _ & _ & Hlen)]); [by split_and!; [| |exists l']|].
    exfalso. rewrite length_many in Hlen. change (npages 5000) with 2 in Hlen. lia.
  - done.
  - done.
  - apply (ex2_free 1200). lia.
  - by right; apply not_elem_of_nil.
  - done.
  - intros vpn Hv. change (npages 5000) with 2 in Hv. unfold s. rewrite (kept_pte _ _ _ _ (ex2_kept 1200)) by (unfold is_vpn; lia).
    assert (vpn = 0 \/ vpn = 1) as [-> | ->] by lia; by vm_compute.
Defined.
