(* ===== verification/ImageVm.v ===== *)
(** * Building the memory of a program (vm.c as exec.c uses it)

    [image g f pg sz s l]: the address space of [pg] has all pages below [sz]
    and no others, of which those in [g] are closed to the user, and a user
    reads [f] in it.  The lemmas say what allocuvm, copyout, clearpteu and a
    page read by loaduvm do to an image. *)
From S2P Require Import Prelude CString Mmu Kalloc Vm PageTable UserVm CopyVm VmSpec ForkVm.
#[local] Set Default Proof Using "Type".

(** [f] with the bytes [bs] at [a]. *)
Definition fwrite (f : Z -> Z) (a : Z) (bs : list Z) : Z -> Z := fun x =>
  if in_range a (Z.of_nat (length bs)) x then nth (Z.to_nat (x - a)) bs 0 else f x.
(** [f] with zeros from [a] on. *)
Definition fzero (f : Z -> Z) (a : Z) : Z -> Z := fun x => if x <? a then f x else 0.

Lemma land_low pa k b : pa mod 4096 = 0 -> 0 <= k < 4096 -> 0 <= b < 4096 -> Z.land (pa + k) b = Z.land k b.
Proof.
  intros Hp Hk Hb. assert (E : forall x, Z.land x b = Z.land (x mod 4096) b).
  { intros x. replace b with (Z.land (Z.ones 12) b) at 1.
    - by rewrite Z.land_assoc, Z.land_ones by lia.
    - rewrite Z.land_comm, Z.land_ones by lia. apply Z.mod_small. lia. }
  rewrite E, (E k). f_equal. wrap_lia.
Qed.

Lemma land_lnot x b : Z.land x (Z.lnot b) = x - Z.land x b.
Proof.
  rewrite <- Z.ldiff_land. assert (E : Z.ldiff x b + Z.land x b = x); [|lia].
  rewrite Z.add_nocarry_lxor, Z.lxor_lor; rewrite ?Z.lor_ldiff_and; try done.
  all: apply Z.bits_inj'; intros n Hn; rewrite !Z.land_spec, Z.ldiff_spec, Z.bits_0; by destruct (Z.testbit x n), (Z.testbit b n).
Qed.

Section image.
Variable kend : Z.

Record image (g : Z -> bool) (f : Z -> Z) (pg sz : Z) (s : kst) (l : list Z) : Prop := {
  im_inv : uinv kend s pg l;
  im_sz : 0 <= sz < KERNBASE;
  im_map : forall v, 0 <= v < npages sz ->
    exists p, valid_page kend p /\ pte (kmemory s) pg v = V2P p + (if g v then 3 else 7);
  im_none : forall v, npages sz <= v < 524288 -> pte (kmemory s) pg v = 0;
  im_bytes : forall a, 0 <= a < 4096 * npages sz -> g (a / 4096) = false -> ubyte (kmemory s) pg a = f a
}.

(** Pages only move between the address space and the free list, and nothing
    else is written. *)
Record moves (pg : Z) (s s' : kst) (l l' : list Z) : Prop := {
  mv_pool : upool pg s' l' ≡ₚ upool pg s l;
  mv_out : forall x, (forall q, q ∈ pg :: upool pg s l -> ~ in_page q x) -> kmemory s' x = kmemory s x
}.
Lemma moves_refl pg s l : moves pg s s l l.
Proof. done. Qed.
Lemma moves_trans pg s1 s2 s3 l1 l2 l3 : moves pg s1 s2 l1 l2 -> moves pg s2 s3 l2 l3 -> moves pg s1 s3 l1 l3.
Proof.
  intros [A1 A2] [B1 B2]. constructor; [by rewrite B1|]. intros x Hx. rewrite B2, A2; [done|done|].
  intros q Hq. apply Hx. by rewrite <- A1.
Qed.

(** The page behind an address of an image. *)
Lemma image_page g f pg sz s l v : image g f pg sz s l -> 0 <= v < npages sz -> exists p,
  valid_page kend p /\ page_of (pte (kmemory s) pg v) = Some p /\ P2V (PTE_ADDR (pte (kmemory s) pg v)) = p /\
  flag (pte (kmemory s) pg v) PTE_P = true /\ flag (pte (kmemory s) pg v) PTE_U = negb (g v).
Proof.
  intros I Hv. destruct (im_map _ _ _ _ _ _ I v Hv) as (p & Vp & E). exists p. split; [done|].
  assert (Hf : exists k, (k = 3 \/ k = 7) /\ k = if g v then 3 else 7) by (destruct (g v); eauto).
  destruct Hf as (k & Hk & Ek). rewrite <- Ek in E.
  destruct (entry_page kend p k Vp) as (H1 & H2 & H3); [lia|destruct Hk; by subst|]. rewrite E. split; [done|].
  unfold page_of in H1. destruct (flag (V2P p + k) PTE_P) eqn:Ef; [|done]. injection H1 as H1.
  split_and!; [done|done|].
  unfold flag. rewrite land_low by (done || lia). by destruct Hk as [-> | ->], (g v).
Qed.

Lemma image_upage g f pg sz s l v p : image g f pg sz s l -> 0 <= v < npages sz ->
  page_of (pte (kmemory s) pg v) = Some p -> p ∈ upages (kmemory s) pg.
Proof.
  intros I Hv E. apply elem_of_upages. exists v. split; [|done]. pose proof (im_sz _ _ _ _ _ _ I).
  unfold npages, KERNBASE in *. Z.div_mod_to_equations. lia.
Qed.

Lemma image_user g f pg sz s l a : image g f pg sz s l -> 0 <= a < 4096 * npages sz -> g (a / 4096) = false ->
  user_ok (kmemory s) pg a = true.
Proof.
  intros I Ha Hg. destruct (image_page g f pg sz s l (a / 4096) I) as (p & _ & _ & _ & E1 & E2);
    [Z.div_mod_to_equations; lia|]. unfold user_ok. by rewrite E1, E2, Hg.
Qed.

(** Another function with the same values below the size. *)
Lemma image_ext g f f' pg sz s l : image g f pg sz s l ->
  (forall a, 0 <= a < 4096 * npages sz -> g (a / 4096) = false -> f a = f' a) -> image g f' pg sz s l.
Proof. intros [A1 A2 A3 A4 A5] H. constructor; try done. intros a Ha Hg. by rewrite A5, H. Qed.

(** Writing through the user's mapping. *)
Lemma image_uwrite g f pg sz s s' l va buf : image g f pg sz s l -> uinv kend s' pg l ->
  (forall v, is_vpn v -> pte (kmemory s') pg v = pte (kmemory s) pg v) ->
  uwrite (kmemory s) (kmemory s') pg va buf ->
  (forall x, (forall q, q ∈ upages (kmemory s) pg -> ~ in_page q x) -> kmemory s' x = kmemory s x) ->
  image g (fwrite f va buf) pg sz s' l /\ moves pg s s' l l.
Proof.
  intros I U P W O. pose proof (im_sz _ _ _ _ _ _ I) as Hs.
  assert (Hb : npages sz <= 524288) by (unfold npages, KERNBASE in *; Z.div_mod_to_equations; lia). split.
  - constructor; [done|done| | |].
    + intros v Hv. rewrite P by (unfold is_vpn; lia). by apply I.
    + intros v Hv. rewrite P by (unfold is_vpn, npages in *; Z.div_mod_to_equations; lia). by apply I.
    + intros a Ha Hg. rewrite W; [|unfold KERNBASE in *; lia|by apply (image_user g f pg sz s l)].
      unfold fwrite. destruct (in_range _ _ _); [done|]. by apply I.
  - assert (Ht : tabs (kmemory s') pg = tabs (kmemory s) pg).
    { apply tabs_frame. intros x Hx. apply O. intros q Hq Hqx.
      by destruct (upage_apart kend s pg l q x (im_inv _ _ _ _ _ _ I) Hq Hqx). }
    constructor.
    + unfold upool. by rewrite Ht, (upages_ext (kmemory s) (kmemory s')).
    + intros x Hx. apply O. intros q Hq. apply Hx. unfold upool. set_solver.
Qed.

(** [copyout] into open pages. *)
Lemma image_copyout g f pg sz va buf c s l : image g f pg sz s l -> Forall is_u8 buf -> 0 <= va ->
  va + Z.of_nat (length buf) <= 4096 * npages sz ->
  (forall a, va <= a < va + Z.of_nat (length buf) -> g (a / 4096) = false) ->
  wp (copyout pg va buf) c s (fun r c' s' => c' = c /\ r = 0 /\ image g (fwrite f va buf) pg sz s' l /\ moves pg s s' l l).
Proof.
  intros I Hb Hv He Hg. unfold copyout. pose proof (im_sz _ _ _ _ _ _ I) as Hs.
  eapply wp_mono; [|apply (copyout_loop_wp kend) with (l := l); [apply I|done|done| | |]].
  - intros r ? s' (-> & -> & U & P & W & O). split_and!; try done; by apply (image_uwrite g f pg sz s s' l va buf).
  - unfold npages, KERNBASE in *. Z.div_mod_to_equations. lia.
  - intros a Ha. apply (image_user g f pg sz s l); [done|lia|by apply Hg].
  - unfold npages, PGSIZE. wrap_lia.
Qed.

(** A page or less read into the frame of an open page. *)
Lemma image_fill g f pg sz s l va buf : image g f pg sz s l -> Forall is_u8 buf -> 0 <= va < 4096 * npages sz ->
  va mod 4096 = 0 -> Z.of_nat (length buf) <= 4096 -> g (va / 4096) = false ->
  let q := P2V (PTE_ADDR (pte (kmemory s) pg (va / 4096))) in
  let s' := set_memory (fun x => if in_range q (Z.of_nat (length buf)) x then u8 (nth (Z.to_nat (x - q)) buf 0)
                                 else kmemory s x) s in
  image g (fwrite f va buf) pg sz s' l /\ moves pg s s' l l.
Proof.
  intros I Hb Hv Hm Hl Hg q s'. pose proof (im_sz _ _ _ _ _ _ I) as Hs.
  destruct (copy_chunk kend s pg l va buf) as (U & P & W & O); [apply I|done| | |lia|].
  - unfold npages, KERNBASE in *. Z.div_mod_to_equations. lia.
  - by apply (image_user g f pg sz s l).
  - rewrite Hm, Z.add_0_r in *. fold q in U, P, W, O. apply (image_uwrite g f pg sz s s' l va buf); try done.
Qed.

(** [clearpteu] closes a page. *)
Lemma image_clearpteu g f pg sz v c s l : image g f pg sz s l -> 0 <= v < npages sz -> g v = false ->
  wp (clearpteu pg (4096 * v)) c s (fun _ c' s' => c' = c /\
    image (fun v' => (v' =? v) || g v') f pg sz s' l /\ moves pg s s' l l).
Proof.
  intros I Hv Hg. pose proof (im_sz _ _ _ _ _ _ I) as Hs.
  assert (Hb : npages sz <= 524288) by (unfold npages, KERNBASE in *; Z.div_mod_to_equations; lia).
  destruct (image_page g f pg sz s l v I Hv) as (p & Vp & P1 & P2 & P3 & P4).
  destruct (im_map _ _ _ _ _ _ I v Hv) as (p' & Vp' & E). rewrite Hg in E.
  assert (p' = p) as ->.
  { destruct (entry_page kend p' 7 Vp' ltac:(lia) ltac:(done)) as (Q1 & _). rewrite E in P1. congruence. }
  destruct (present_table _ _ _ P3) as [t Ht].
  assert (Ev : 4096 * v / 4096 = v) by (rewrite Z.mul_comm; by apply Z.div_mul).
  destruct (entry_page kend p 3 Vp ltac:(lia) ltac:(done)) as (Q1 & Q2 & Q3).
  assert (Ew : Z.land (pte (kmemory s) pg v) (Z.lnot PTE_U) = V2P p + 3).
  { rewrite E, land_lnot, land_low by (done || lia). change (Z.land 7 PTE_U) with 4. lia. }
  assert (W : walk_result (kmemory s) pg (4096 * v) = t + 4 * (v mod 1024)).
  { unfold walk_result. by rewrite Ev, Ht. }
  assert (Nz : t + 4 * (v mod 1024) <> 0).
  { destruct (vinv_table_valid kend s pg l (v / 1024) t) as ((_ & _ & Vt) & _);
      [apply I|Z.div_mod_to_equations; lia|done|]. unfold KERNBASE in *. Z.div_mod_to_equations. lia. }
  unfold clearpteu. wp_step. eapply wp_mono; [|apply walk_find_wp; unfold is_u32, KERNBASE in *; lia].
  intros r ? ? (-> & -> & ->). rewrite W, (proj2 (Z.eqb_neq _ 0)) by done. unfold get32, put32. repeat wp_step.
  assert (El : load32 (kmemory s) (t + 4 * (v mod 1024)) = pte (kmemory s) pg v) by by rewrite table_of_pte, Ht.
  rewrite El, Ew.
  destruct (put_pte_own kend s pg l v t (V2P p + 3)) as [O P]; [apply I|unfold is_vpn; lia| |done|].
  { unfold is_u32, PHYSTOP in *. lia. }
  set (s' := set_memory _ s) in *.
  destruct (vown_ueff kend pg s s' l l (im_inv _ _ _ _ _ _ I) O) as [[U1 U2 U3 U4] Up].
  { intros v' Hv'. rewrite P by (unfold is_vpn; lia). destruct (Z.eqb_spec v' v) as [->|]; [|done]. by rewrite Q1, P1. }
  split; [done|]. split; [|by constructor]. constructor; [done|done| | |].
  - intros v' Hv'. rewrite P by (unfold is_vpn; lia). destruct (Z.eqb_spec v' v) as [->|Hne]; cbn [orb]; [by exists p|].
    by apply I.
  - intros v' Hv'. rewrite P by (unfold is_vpn; lia). rewrite (proj2 (Z.eqb_neq _ _)) by lia. by apply I.
  - intros a Ha Hga. apply orb_false_elim in Hga as [Hne Hga]. apply Z.eqb_neq in Hne.
    rewrite <- (im_bytes _ _ _ _ _ _ I a Ha Hga).
    assert (Hva : 0 <= a / 4096 < npages sz) by (Z.div_mod_to_equations; lia).
    destruct (image_page g f pg sz s l (a / 4096) I Hva) as (p2 & _ & R1 & R2 & _).
    unfold ubyte. rewrite P by (unfold is_vpn; lia). rewrite (proj2 (Z.eqb_neq _ _)) by done. rewrite R2.
    assert (Hin : p2 ∈ upages (kmemory s) pg) by by apply (image_upage g f pg sz s l (a / 4096)).
    apply (U3 p2); [done|by rewrite Up|]. unfold in_page, PGSIZE. Z.div_mod_to_equations. lia.
Qed.

Hypothesis Hkend : KERNBASE < kend.

(** [allocuvm] adds pages of zeros, or leaves the image as it is. *)
Lemma image_alloc g f pg sz new c s l : image g f pg sz s l -> Lkmem ∉ held c -> sz <= new < KERNBASE ->
  (forall v, npages sz <= v -> g v = false) ->
  wp (allocuvm kend pg sz new) c s (fun r c' s' => c' = c /\ exists l', moves pg s s' l l' /\
    ((r = new /\ image g (fzero f (4096 * npages sz)) pg new s' l') \/
     (r = 0 /\ image g f pg sz s' l' /\ Z.of_nat (length l) <= 1024 + (npages new - npages sz)))).
Proof using Hkend.
  intros I Hc Hn Hg. pose proof (im_sz _ _ _ _ _ _ I) as Hs.
  eapply wp_mono; [|apply (allocuvm_wp kend Hkend) with (l := l); [apply I|by right|lia|lia|]].
  2: { intros _ v Hv. apply (im_none _ _ _ _ _ _ I). unfold npages, KERNBASE in *. Z.div_mod_to_equations. lia. }
  intros r ? s' (-> & l' & [U1 U2 U3 U4] & Hr). split; [done|]. exists l'. split; [by constructor|].
  rewrite Z.geb_leb, (proj2 (Z.leb_gt _ _)), (proj2 (Z.ltb_ge _ _)) in Hr by lia.
  (* a page that stays mapped keeps its bytes *)
  assert (Hold : forall v, 0 <= v < npages sz -> pte (kmemory s') pg v = pte (kmemory s) pg v ->
    forall a, a / 4096 = v -> ubyte (kmemory s') pg a = ubyte (kmemory s) pg a).
  { intros v Hv Ep a Ea. destruct (image_page g f pg sz s l v I Hv) as (p & _ & P1 & P2 & _).
    unfold ubyte. rewrite Ea, Ep, P2. apply (U3 p).
    - by apply (image_upage g f pg sz s l v).
    - apply elem_of_upages. exists v. rewrite Ep. split; [|done]. unfold npages, KERNBASE in *. Z.div_mod_to_equations. lia.
    - unfold in_page, PGSIZE. Z.div_mod_to_equations. lia. }
  destruct Hr as [(-> & F1 & F2)|(-> & Hp & Hlen)]; [left|right]; (split; [done|]).
  - assert (Hkeep : forall v, 0 <= v < npages sz -> pte (kmemory s') pg v = pte (kmemory s) pg v).
    { intros v Hv. apply F1; [|lia]. unfold is_vpn, npages, KERNBASE in *. Z.div_mod_to_equations. lia. }
    constructor; [done|lia| | |].
    + intros v Hv. destruct (decide (v < npages sz)) as [Hl|Hl].
      * rewrite Hkeep by lia. apply I. lia.
      * destruct (F2 v ltac:(lia)) as (p & Hp & -> & _). exists p. rewrite Hg by lia. split; [|done].
        apply (upool_valid kend s pg l); [apply I|]. unfold upool. set_solver.
    + intros v Hv. rewrite F1; [apply I| |lia]; unfold is_vpn, npages in *; Z.div_mod_to_equations; lia.
    + intros a Ha Hga. unfold fzero. destruct (Z.ltb_spec a (4096 * npages sz)) as [Hl|Hl].
      * rewrite (Hold (a / 4096)) by (done || apply Hkeep || idtac; Z.div_mod_to_equations; lia).
        apply I; [|done]. lia.
      * destruct (F2 (a / 4096)) as (p & Hp & E & Z0); [Z.div_mod_to_equations; lia|]. unfold ubyte. rewrite E.
        assert (Vp : valid_page kend p) by (apply (upool_valid kend s pg l); [apply I|]; unfold upool; set_solver).
        destruct (entry_page kend p 7 Vp ltac:(lia) ltac:(done)) as (P1 & P2 & _).
        rewrite PTE_ADDR_build by (done || lia). rewrite P2V_V2P by by apply (valid_u32 kend).
        apply Z0. unfold in_page, PGSIZE. Z.div_mod_to_equations. lia.
  - assert (Hp' : forall v, 0 <= v < 524288 -> pte (kmemory s') pg v = pte (kmemory s) pg v)
      by (intros v Hv; apply Hp; unfold is_vpn; lia).
    assert (Hb : npages sz <= 524288) by (unfold npages, KERNBASE in *; Z.div_mod_to_equations; lia).
    split; [|done]. constructor; [done|done| | |].
    + intros v Hv. rewrite Hp' by lia. by apply I.
    + intros v Hv. rewrite Hp' by (split; [|lia]; unfold npages in *; Z.div_mod_to_equations; lia). by apply I.
    + intros a Ha Hga. rewrite (Hold (a / 4096)); [by apply I|Z.div_mod_to_equations; lia| |done].
      apply Hp'. Z.div_mod_to_equations; lia.
Qed.

End image.
