(* ===== verification/Pipe.v ===== *)
(** * Pipes (pipe.c)

    A pipe is a ring of [PIPESIZE] bytes with free-running 32-bit counters.
    [queue] reads the ring as a FIFO queue; the operations refine a bounded
    queue for every interleaving of readers and writers, counters wrapping
    around included. *)
From stdpp Require Import functions.
From S2P Require Import Prelude CString Mmu Kalloc.

Definition PIPESIZE : Z := 512.

(** [struct pipe]; its lock is [Lpipe p]. *)
Record pipe := Pipe {
  pdata : list Z;
  nread : Z;
  nwrite : Z;
  readopen : bool;
  writeopen : bool
}.

(** The page allocator and the pipes, by the address of their page. *)
Record pst := Pst { pk : kst; pipes : Z -> pipe }.

Definition getp {A} (p : Z) (f : pipe -> A) : M pst A := gets (fun s => f (pipes s p)).
Definition setp (p : Z) (f : pipe -> pipe) : M pst unit :=
  modify (fun s => Pst (pk s) (<[p := f (pipes s p)]> (pipes s))).
Definition pkalloc {A} (m : M kst A) : M pst A := zoom pk (fun k s => Pst k (pipes s)) m.
#[export] Hint Unfold getp setp pkalloc : wp_unfold.

Definition set_readopen (b : bool) (x : pipe) : pipe :=
  Pipe (pdata x) (nread x) (nwrite x) b (writeopen x).
Definition set_writeopen (b : bool) (x : pipe) : pipe :=
  Pipe (pdata x) (nread x) (nwrite x) (readopen x) b.

(** [p->data[p->nwrite++ % PIPESIZE] = b]. *)
Definition put_byte (b : Z) (x : pipe) : pipe :=
  Pipe (<[Z.to_nat (nwrite x mod PIPESIZE) := b]> (pdata x)) (nread x) (u32 (nwrite x + 1))
    (readopen x) (writeopen x).
(** [p->data[p->nread++ % PIPESIZE]]. *)
Definition get_byte (x : pipe) : Z := nth (Z.to_nat (nread x mod PIPESIZE)) (pdata x) 0.
Definition next_byte (x : pipe) : pipe :=
  Pipe (pdata x) (u32 (nread x + 1)) (nwrite x) (readopen x) (writeopen x).

(** The part of [pipealloc] that sets up the pipe itself: a page, then the
    fields; 0 when out of memory. *)
Definition pipe_new : M pst Z :=
  p ← pkalloc kalloc;
  if p =? 0 then mret 0
  else
    setp p (fun x => Pipe (pdata x) 0 0 true true);;
    mret p.

Section pipe.
Variable kend : Z.

Definition pipeclose (p : Z) (writable : bool) : M pst unit :=
  acquire (Lpipe p);;
  (if writable then setp p (set_writeopen false);; wakeup (ChPipeR p)
   else setp p (set_readopen false);; wakeup (ChPipeW p));;
  x ← getp p id;
  if negb (readopen x) && negb (writeopen x)
  then release (Lpipe p);; pkalloc (kfree kend p)
  else release (Lpipe p).
End pipe.

(** How the loop of [pipewrite] ends: all is written, the call has failed,
    or it is about to sleep. *)
Inductive wend := WDone | WFailed | WFull.

(** The loop of [pipewrite], from [i] on; [addr] are the bytes from [addr[i]]
    on.  The result has the value of [i] at the end. *)
Fixpoint pipewrite_loop (p : Z) (i : nat) (addr : list Z) : M pst (wend * nat) :=
  match addr with
  | [] => mret (WDone, i)
  | b :: addr' =>
      x ← getp p id;
      if nwrite x =? u32 (nread x + PIPESIZE) then
        k ← getctx mykilled;
        if negb (readopen x) || k then release (Lpipe p);; mret (WFailed, i)
        else wakeup (ChPipeR p);; mret (WFull, i)
      else setp p (put_byte b);; pipewrite_loop p (S i) addr'
  end.

(** [pipewrite] with [i] bytes written, from where it takes the lock: at the
    start of the call, or inside [sleep] when it is woken.  [asleep i] is the
    call of [sleep], [ret r i] makes the result. *)
Definition pipewrite_at {A} (asleep : nat -> M pst A) (ret : Z -> nat -> A) (p : Z) (addr : list Z) (i : nat) :
    M pst A :=
  acquire (Lpipe p);;
  e ← pipewrite_loop p i (drop i addr);
  match e with
  | (WDone, i) => wakeup (ChPipeR p);; release (Lpipe p);; mret (ret (Z.of_nat (length addr)) i)
  | (WFailed, i) => mret (ret (-1) i)
  | (WFull, i) => asleep i
  end.

Definition pipewrite (p : Z) (addr : list Z) : M pst Z :=
  pipewrite_at (fun _ => sleep (ChPipeW p) (Lpipe p)) (fun r _ => r) p addr 0.

(** One stretch of a call, up to its return or to the release of the lock in
    [sleep], with the value of [i]. *)
Inductive stretch := Returned (r : Z) (i : nat) | Asleep (i : nat).
Definition pipewrite_stretch (p : Z) (addr : list Z) (i : nat) : M pst stretch :=
  pipewrite_at (fun i => release (Lpipe p);; mret (Asleep i)) Returned p addr i.

(** The copying loop of [piperead]: the bytes read. *)
Fixpoint piperead_loop (p : Z) (n : nat) : M pst (list Z) :=
  match n with
  | O => mret []
  | S n' =>
      x ← getp p id;
      if nread x =? nwrite x then mret []
      else
        setp p next_byte;;
        bs ← piperead_loop p n';
        mret (get_byte x :: bs)
  end.

(** The return value and the bytes stored at [addr]. *)
Definition piperead (p : Z) (n : Z) : M pst (Z * list Z) :=
  acquire (Lpipe p);;
  x ← getp p id;
  if (nread x =? nwrite x) && writeopen x then
    k ← getctx mykilled;
    if (k : bool) then release (Lpipe p);; mret (-1, [])
    else sleep (ChPipeR p) (Lpipe p)
  else
    bs ← piperead_loop p (Z.to_nat n);
    wakeup (ChPipeW p);;
    release (Lpipe p);;
    mret (Z.of_nat (length bs), bs).

(** * The ring as a queue *)

(** The bytes written and not yet read, oldest first. *)
Definition qlen (x : pipe) : Z := u32 (nwrite x - nread x).
Definition queue (x : pipe) : list Z :=
  (fun i => nth (Z.to_nat ((nread x + i) mod PIPESIZE)) (pdata x) 0) <$> seqZ 0 (qlen x).

Record pipe_inv (x : pipe) : Prop := {
  pi_data : Z.of_nat (length (pdata x)) = PIPESIZE;
  pi_nread : is_u32 (nread x);
  pi_nwrite : is_u32 (nwrite x);
  pi_len : qlen x <= PIPESIZE
}.

Section queue.
Implicit Types (x : pipe).

Lemma queue_length x : pipe_inv x -> Z.of_nat (length (queue x)) = qlen x.
Proof. intros _. unfold queue. rewrite length_fmap, length_seqZ. unfold qlen. wrap_lia. Qed.

Lemma full_test x : pipe_inv x ->
  (nwrite x =? u32 (nread x + PIPESIZE)) = (Z.of_nat (length (queue x)) =? PIPESIZE).
Proof.
  intros Hx. rewrite queue_length by done. destruct Hx as [_ H1 H2 H3]. unfold qlen, PIPESIZE in *.
  apply eq_bool_prop_intro. rewrite !Is_true_true, !Z.eqb_eq. wrap_lia.
Qed.

Lemma empty_test x : pipe_inv x -> (nread x =? nwrite x) = bool_decide (queue x = []).
Proof.
  intros Hx. pose proof (queue_length x Hx) as Hl. destruct Hx as [_ H1 H2 _].
  apply eq_bool_prop_intro. rewrite Is_true_true, Z.eqb_eq, bool_decide_spec. split.
  - intros E. apply length_zero_iff_nil. unfold qlen in Hl. wrap_lia.
  - intros E. rewrite E in Hl. simpl in Hl. unfold qlen in Hl. wrap_lia.
Qed.

(** Adding a byte at the write end. *)
Lemma put_byte_queue x b : pipe_inv x -> Z.of_nat (length (queue x)) < PIPESIZE ->
  pipe_inv (put_byte b x) /\ queue (put_byte b x) = queue x ++ [b].
Proof.
  intros Hx Hl. rewrite queue_length in Hl by done. destruct Hx as [H1 H2 H3 H4].
  unfold qlen in *. unfold PIPESIZE in *.
  assert (Hq : qlen (put_byte b x) = qlen x + 1) by (unfold qlen; simpl; wrap_lia).
  split.
  - constructor; simpl; rewrite ?length_insert; try done; [apply u32_range|].
    rewrite Hq. unfold qlen, PIPESIZE. lia.
  - unfold queue. rewrite Hq. unfold qlen. rewrite seqZ_app by wrap_lia.
    rewrite fmap_app. f_equal.
    + apply list_fmap_ext. intros k i Hi. apply lookup_seqZ in Hi as [-> Hi].
      simpl. unfold PIPESIZE. rewrite !nth_lookup. rewrite list_lookup_insert_ne; [done|]. wrap_lia.
    + assert (E : forall z, z = nwrite x mod 512 ->
        nth (Z.to_nat z) (<[Z.to_nat (nwrite x mod 512) := b]> (pdata x)) 0 = b).
      { intros z ->. rewrite nth_lookup. by rewrite list_lookup_insert_eq by wrap_lia. }
      rewrite seqZ_cons, seqZ_nil by lia. rewrite fmap_cons. f_equal. apply E. unfold PIPESIZE. simpl.
      wrap_lia.
Qed.

(** Removing the byte at the read end. *)
Lemma next_byte_queue x : pipe_inv x -> queue x <> [] ->
  pipe_inv (next_byte x) /\ queue x = get_byte x :: queue (next_byte x).
Proof.
  intros Hx Hne. pose proof (queue_length x Hx) as Hl.
  assert (Hpos : 0 < qlen x).
  { rewrite <- Hl. destruct (queue x); [done|]. simpl. lia. }
  destruct Hx as [H1 H2 H3 H4]. unfold PIPESIZE in *.
  assert (Hq : qlen (next_byte x) = qlen x - 1) by (unfold qlen in *; simpl; wrap_lia).
  split.
  - constructor; simpl; try done; [apply u32_range|]. rewrite Hq. unfold PIPESIZE. lia.
  - unfold queue at 1. rewrite seqZ_cons by lia. rewrite fmap_cons. f_equal.
    + unfold get_byte. by rewrite Z.add_0_r.
    + unfold queue. rewrite Hq. replace (Z.pred (qlen x)) with (qlen x - 1) by lia.
      rewrite <- (fmap_add_seqZ 1 0), <- list_fmap_compose. replace (1 + 0) with (Z.succ 0) by lia.
      apply list_fmap_ext. intros k i _. simpl. unfold PIPESIZE. f_equal. wrap_lia.
Qed.
End queue.

(** * The operations on the queue *)

Section ops.
Variable p : Z.
Implicit Types (s : pst) (c : ctx) (bs : list Z).

(** [s'] is [s] with pipe [p] replaced by one with the same open ends whose
    queue is [q]. *)
Record upd_queue s s' (q : list Z) : Prop := {
  uq_inv : pipe_inv (pipes s' p);
  uq_queue : queue (pipes s' p) = q;
  uq_ropen : readopen (pipes s' p) = readopen (pipes s p);
  uq_wopen : writeopen (pipes s' p) = writeopen (pipes s p);
  uq_other : forall p', p' <> p -> pipes s' p' = pipes s p';
  uq_k : pk s' = pk s
}.

Lemma upd_queue_refl s : pipe_inv (pipes s p) -> upd_queue s s (queue (pipes s p)).
Proof. by constructor. Qed.

Lemma upd_queue_trans s1 s2 s3 q2 q3 : upd_queue s1 s2 q2 -> upd_queue s2 s3 q3 -> upd_queue s1 s3 q3.
Proof.
  intros [H1 H2 H3 H4 H5 H6] [G1 G2 G3 G4 G5 G6]. constructor; try done; try congruence.
  intros p' Hp. by rewrite G5, H5.
Qed.

Definition setp_state (f : pipe -> pipe) s : pst := Pst (pk s) (<[p := f (pipes s p)]> (pipes s)).

Lemma put_byte_upd s b : pipe_inv (pipes s p) -> Z.of_nat (length (queue (pipes s p))) < PIPESIZE ->
  upd_queue s (setp_state (put_byte b) s) (queue (pipes s p) ++ [b]).
Proof.
  intros Hi Hl. destruct (put_byte_queue _ b Hi Hl) as [Hi' Hq].
  constructor; simpl; rewrite ?fn_lookup_insert; try done.
  intros p' Hp. by rewrite fn_lookup_insert_ne.
Qed.

Lemma next_byte_upd s : pipe_inv (pipes s p) -> queue (pipes s p) <> [] ->
  upd_queue s (setp_state next_byte s) (tail (queue (pipes s p))) /\
  queue (pipes s p) = get_byte (pipes s p) :: tail (queue (pipes s p)).
Proof.
  intros Hi Hne. destruct (next_byte_queue _ Hi Hne) as [Hi' Hq]. rewrite Hq. split; [|done].
  constructor; simpl; rewrite ?fn_lookup_insert; try done.
  intros p' Hp. by rewrite fn_lookup_insert_ne.
Qed.

(** The free space of the ring. *)
Definition room s : nat := Z.to_nat (PIPESIZE - Z.of_nat (length (queue (pipes s p)))).

Lemma room_pos s : pipe_inv (pipes s p) ->
  (nwrite (pipes s p) =? u32 (nread (pipes s p) + PIPESIZE)) = bool_decide (room s = 0%nat).
Proof.
  intros Hi. rewrite full_test by done. pose proof (queue_length _ Hi). destruct Hi as [_ _ _ Hl].
  apply eq_bool_prop_intro. rewrite Is_true_true, Z.eqb_eq, bool_decide_spec. unfold room. lia.
Qed.

Lemma upd_queue_cons s s1 s' b bs : upd_queue s s1 (queue (pipes s p) ++ [b]) ->
  upd_queue s1 s' (queue (pipes s1 p) ++ bs) -> upd_queue s s' (queue (pipes s p) ++ b :: bs).
Proof.
  intros Hu Hs'. rewrite (uq_queue _ _ _ Hu), <- app_assoc in Hs'.
  by apply upd_queue_trans with (2 := Hs') in Hu.
Qed.

(** The loop fills the ring.  A full ring whose reader is gone, or a killed
    writer, ends the call. *)
Lemma pipewrite_loop_wp bs : forall i s c h (Q : wend * nat -> ctx -> pst -> Prop),
  pipe_inv (pipes s p) -> held c = Lpipe p :: h -> Lptable ∉ held c ->
  (forall s', upd_queue s s' (queue (pipes s p) ++ take (room s) bs) ->
    let x := pipes s p in
    if bool_decide (length bs <= room s)%nat then Q (WDone, i + length bs)%nat c s'
    else if negb (readopen x) || mykilled c then Q (WFailed, i + room s)%nat (set_held h c) s'
    else Q (WFull, i + room s)%nat (add_woken (ChPipeR p) c) s') ->
  wp (pipewrite_loop p i bs) c s Q.
Proof.
  induction bs as [|b bs IH]; intros i s c h Q Hi Hc Hp HQ; cbn [pipewrite_loop].
  { wp_step. specialize (HQ s). rewrite take_nil, app_nil_r, Nat.add_0_r, bool_decide_true in HQ by (cbn; lia).
    by apply HQ, upd_queue_refl. }
  do 2 wp_step. unfold id. rewrite room_pos by done.
  destruct (decide (room s = 0%nat)) as [E|E]; [rewrite bool_decide_true by done|rewrite bool_decide_false by done].
  - specialize (HQ s). rewrite E in HQ. cbn [take] in HQ. rewrite app_nil_r in HQ.
    specialize (HQ (upd_queue_refl s Hi)). cbv zeta in HQ. rewrite Nat.add_0_r in HQ.
    rewrite bool_decide_false in HQ by (cbn; lia). do 2 wp_step.
    destruct (negb (readopen (pipes s p)) || mykilled c).
    + wp_step. eapply wp_release_head; [done|]. by wp_step.
    + wp_step. apply wp_wakeup; [done|]. by wp_step.
  - assert (Hlt : Z.of_nat (length (queue (pipes s p))) < PIPESIZE) by (unfold room in E; lia).
    pose proof (put_byte_upd s b Hi Hlt) as Hu. do 2 wp_step. fold (setp_state (put_byte b) s).
    assert (Hrm : room s = S (room (setp_state (put_byte b) s))).
    { unfold room. rewrite (uq_queue _ _ _ Hu), length_app. cbn [length]. unfold room in E. lia. }
    apply (IH _ _ c h); [apply Hu|done|done|]. intros s' Hs'. cbv zeta. rewrite (uq_ropen _ _ _ Hu).
    specialize (HQ s'). rewrite Hrm in HQ. cbn [take length] in HQ. rewrite !Nat.add_succ_r in HQ.
    rewrite !Nat.add_succ_l. specialize (HQ (upd_queue_cons _ _ _ _ _ Hu Hs')). cbv zeta in HQ.
    rewrite (bool_decide_ext (S (length bs) <= S (room (setp_state (put_byte b) s)))%nat
      (length bs <= room (setp_state (put_byte b) s))%nat) in HQ by lia. done.
Qed.

(** One stretch of a call. *)
Lemma pipewrite_stretch_wp bs i c s : pipe_inv (pipes s p) -> held c = [] -> (i <= length bs)%nat ->
  wp (pipewrite_stretch p bs i) c s (fun r _ s' => exists i',
    (i <= i' <= length bs)%nat /\ upd_queue s s' (queue (pipes s p) ++ drop i (take i' bs)) /\
    (r = Asleep i' \/ r = Returned (-1) i' \/ (i' = length bs /\ r = Returned (Z.of_nat (length bs)) i'))).
Proof.
  intros Hi Hc Hl. unfold pipewrite_stretch, pipewrite_at. destruct c as [h pid k w]. simpl in Hc. subst h.
  wp_step. wp_step. wp_step. apply (pipewrite_loop_wp _ i s _ []); [done|done|cbn; set_solver|].
  intros s' Hu. cbv zeta. rewrite length_drop.
  assert (Et : drop i (take (i + room s) bs) = take (room s) (drop i bs)).
  { rewrite skipn_firstn_comm. f_equal. lia. }
  rewrite <- Et in Hu. case_bool_decide as Hf.
  - assert (take (i + room s) bs = take (length bs) bs) as Et' by (rewrite !take_ge by lia; done).
    rewrite Et' in Hu. wp_steps. exists (length bs). replace (i + (length bs - i))%nat with (length bs) by lia.
    split_and!; try done; try lia. right; right. done.
  - destruct (negb (readopen (pipes s p)) || _); wp_steps; exists (i + room s)%nat; split_and!; try lia; try done;
      [by right; left|by left].
Qed.

Lemma pipewrite_spec bs c s : pipe_inv (pipes s p) -> held c = [] ->
  let x := pipes s p in
  if bool_decide (length bs <= room s)%nat then
    wp (pipewrite p bs) c s (fun r c' s' => r = Z.of_nat (length bs) /\
      c' = add_woken (ChPipeR p) c /\ upd_queue s s' (queue x ++ bs))
  else if negb (readopen x) || mykilled c then
    wp (pipewrite p bs) c s (fun r c' s' => r = -1 /\ c' = c /\
      upd_queue s s' (queue x ++ take (room s) bs))
  else
    blocks (pipewrite p bs) c s (fun ch c' s' => ch = ChPipeW p /\
      c' = set_held [Lptable] (add_woken (ChPipeR p) c) /\
      upd_queue s s' (queue x ++ take (room s) bs)).
Proof.
  intros Hi Hc x. unfold pipewrite, pipewrite_at. destruct c as [h pid k w]. simpl in Hc. subst h.
  assert (HL : forall Q, _ -> wp (pipewrite_loop p 0 (drop 0 bs)) (set_held [Lpipe p] (Ctx [] pid k w)) s Q)
    by (intros Q; apply (pipewrite_loop_wp bs 0 s _ []); [done|done|cbn; set_solver]).
  cbv zeta in HL. fold x in HL. cbn [mykilled set_held] in *.
  case_bool_decide as Hf; [|destruct (negb (readopen x) || _) eqn:Eo].
  - wp_step. wp_step. wp_step. apply HL. intros s' Hu. rewrite take_ge in Hu by done. by wp_steps.
  - wp_step. wp_step. wp_step. apply HL. intros s' Hu. by wp_steps.
  - apply blocks_bind, wp_acquire; [cbn; set_solver|]. apply blocks_bind. apply HL.
    intros s' Hu. by apply blocks_sleep.
Qed.

(** [pipewrite] appends to the queue in order.  If everything fits it
    returns the count and wakes the readers; otherwise it fills the ring and
    either fails (reader gone, or killed) or sleeps after waking the readers,
    with no byte lost, duplicated or reordered. *)
Theorem pipewrite_correct bs c s : pipe_inv (pipes s p) -> held c = [] ->
  let x := pipes s p in
  if bool_decide (length bs <= room s)%nat then
    wp (pipewrite p bs) c s (fun r c' s' => r = Z.of_nat (length bs) /\
      c' = add_woken (ChPipeR p) c /\ upd_queue s s' (queue x ++ bs))
  else if negb (readopen x) || mykilled c then
    wp (pipewrite p bs) c s (fun r c' s' => r = -1 /\ c' = c /\
      upd_queue s s' (queue x ++ take (room s) bs))
  else
    blocks (pipewrite p bs) c s (fun ch c' s' => ch = ChPipeW p /\
      c' = set_held [Lptable] (add_woken (ChPipeR p) c) /\
      upd_queue s s' (queue x ++ take (room s) bs)).
Proof. apply pipewrite_spec. Qed.

Lemma piperead_loop_wp n : forall s c (Q : list Z -> ctx -> pst -> Prop),
  pipe_inv (pipes s p) ->
  (forall s', upd_queue s s' (drop n (queue (pipes s p))) -> Q (take n (queue (pipes s p))) c s') ->
  wp (piperead_loop p n) c s Q.
Proof.
  induction n as [|n IH]; intros s c Q Hi HQ; cbn [piperead_loop].
  { wp_step. apply HQ. by apply upd_queue_refl. }
  do 2 wp_step. unfold id. rewrite empty_test by done. case_bool_decide as E.
  - wp_step. pose proof (upd_queue_refl s Hi) as Hr. rewrite E in HQ, Hr. by apply HQ.
  - destruct (next_byte_upd s Hi E) as [Hu Hq]. do 2 wp_step. wp_step.
    fold (setp_state next_byte s). apply IH; [apply Hu|]. intros s' Hs'. wp_step.
    rewrite (uq_queue _ _ _ Hu) in Hs' |- *. rewrite Hq in HQ. simpl in HQ. apply HQ.
    by apply upd_queue_trans with (2 := Hs') in Hu.
Qed.

Lemma piperead_spec n c s : pipe_inv (pipes s p) -> held c = [] ->
  let x := pipes s p in
  if bool_decide (queue x = []) && writeopen x then
    if mykilled c then wp (piperead p n) c s (fun r c' s' => r = (-1, []) /\ c' = c /\ s' = s)
    else blocks (piperead p n) c s (fun ch c' s' => ch = ChPipeR p /\ s' = s /\
           c' = set_held [Lptable] c)
  else
    wp (piperead p n) c s (fun r c' s' => c' = add_woken (ChPipeW p) c /\
      r = (Z.of_nat (length (take (Z.to_nat n) (queue x))), take (Z.to_nat n) (queue x)) /\
      upd_queue s s' (drop (Z.to_nat n) (queue x))).
Proof.
  intros Hi Hc x. unfold piperead. destruct c as [h pid k w]. simpl in Hc. subst h.
  destruct (bool_decide (queue x = []) && writeopen x) eqn:E; [destruct k|].
  - cbn [mykilled]. do 4 wp_step. unfold id. fold x. rewrite empty_test by done. rewrite E.
    do 2 wp_step. cbn [mykilled set_held]. by wp_steps.
  - cbn [mykilled]. apply blocks_bind, wp_acquire; [cbn; set_solver|]. apply blocks_bind, wp_gets.
    unfold id. fold x. rewrite empty_test by done. rewrite E. apply blocks_bind, wp_getctx.
    by apply blocks_sleep.
  - do 4 wp_step. unfold id. fold x. rewrite empty_test by done. rewrite E. wp_step.
    apply piperead_loop_wp; [done|]. intros s' Hu. by wp_steps.
Qed.

(** [piperead] takes from the front of the queue: up to [n] bytes at
    once, an end-of-file 0 when the queue is empty and the write end closed,
    and otherwise, on an empty queue, it sleeps (or fails if killed) without
    changing anything. *)
Theorem piperead_correct n c s : pipe_inv (pipes s p) -> held c = [] ->
  let x := pipes s p in
  if bool_decide (queue x = []) && writeopen x then
    if mykilled c then wp (piperead p n) c s (fun r c' s' => r = (-1, []) /\ c' = c /\ s' = s)
    else blocks (piperead p n) c s (fun ch c' s' => ch = ChPipeR p /\ s' = s /\
           c' = set_held [Lptable] c)
  else
    wp (piperead p n) c s (fun r c' s' => c' = add_woken (ChPipeW p) c /\
      r = (Z.of_nat (length (take (Z.to_nat n) (queue x))), take (Z.to_nat n) (queue x)) /\
      upd_queue s s' (drop (Z.to_nat n) (queue x))).
Proof. apply piperead_spec. Qed.
End ops.

(** * Readers and writers interleaved *)

(** A call of [pipewrite] with the bytes [bs]: in progress, with the value of
    [i], or returned. *)
Inductive call := Writing (bs : list Z) (i : nat) | Wrote (bs : list Z) (r : Z).

(** The kernel, the calls made so far, the bytes that the writers have been
    told are written, each with the number of its call, and the bytes that
    the readers have been given.  What a writer knows comes from the value
    returned: [n] bytes or, for -1, those before [i]. *)
Record psys := Psys { y_st : pst; y_calls : nat -> option call; y_sent : list (nat * Z); y_got : list Z }.
Definition tagged (t : nat) (bs : list Z) : list (nat * Z) := pair t <$> bs.
Definition of_call (t : nat) (l : list (nat * Z)) : list Z := snd <$> filter (fun x => fst x = t) l.

Inductive pstep (kend p : Z) : psys -> psys -> Prop :=
| ps_call t bs y : y_calls y t = None ->
    pstep kend p y (Psys (y_st y) (<[t := Some (Writing bs 0)]> (y_calls y)) (y_sent y) (y_got y))
| ps_sleep t bs i i' c c' s' y : y_calls y t = Some (Writing bs i) -> held c = [] ->
    pipewrite_stretch p bs i c (y_st y) = Ok (Asleep i') c' s' ->
    pstep kend p y (Psys s' (<[t := Some (Writing bs i')]> (y_calls y))
      (y_sent y ++ tagged t (drop i (take i' bs))) (y_got y))
| ps_return t bs i r i' c c' s' y : y_calls y t = Some (Writing bs i) -> held c = [] ->
    pipewrite_stretch p bs i c (y_st y) = Ok (Returned r i') c' s' ->
    pstep kend p y (Psys s' (<[t := Some (Wrote bs r)]> (y_calls y))
      (y_sent y ++ tagged t (drop i (take (if r <? 0 then i' else Z.to_nat r) bs))) (y_got y))
| ps_read n r bs c c' s' y : held c = [] -> piperead p n c (y_st y) = Ok (r, bs) c' s' ->
    pstep kend p y (Psys s' (y_calls y) (y_sent y) (y_got y ++ take (Z.to_nat r) bs))
| ps_read_sleep n ch c c' s' y : held c = [] -> piperead p n c (y_st y) = Block ch c' s' ->
    pstep kend p y (Psys s' (y_calls y) (y_sent y) (y_got y))
| ps_close w c c' s' y : pipeclose kend p w c (y_st y) = Ok tt c' s' ->
    pstep kend p y (Psys s' (y_calls y) (y_sent y) (y_got y))
| ps_other s' y : pipes s' p = pipes (y_st y) p ->
    pstep kend p y (Psys s' (y_calls y) (y_sent y) (y_got y)).

(** Call [t] has put [l] into the pipe. *)
Definition call_sent (x : option call) (l : list Z) : Prop :=
  match x with
  | None => l = []
  | Some (Writing bs i) => (i <= length bs)%nat /\ l = take i bs
  | Some (Wrote bs r) => (r = Z.of_nat (length bs) /\ l = bs) \/ (r = -1 /\ l `prefix_of` bs)
  end.
Record fifo_inv (p : Z) (y : psys) : Prop := {
  fi_inv : pipe_inv (pipes (y_st y) p);
  fi_fifo : (y_sent y).*2 = y_got y ++ queue (pipes (y_st y) p);
  fi_calls : forall t, call_sent (y_calls y t) (of_call t (y_sent y))
}.

Lemma of_call_app t l t' bs : of_call t (l ++ tagged t' bs) = of_call t l ++ (if decide (t' = t) then bs else []).
Proof.
  unfold of_call. rewrite filter_app, fmap_app. f_equal. unfold tagged.
  induction bs as [|b bs IH]; [by destruct (decide _)|]. cbn [fmap list_fmap]. rewrite filter_cons. cbn [fst].
  destruct (decide (t' = t)); cbn [fmap list_fmap]; [by rewrite IH|exact IH].
Qed.
Lemma tagged_snd t bs : (tagged t bs).*2 = bs.
Proof. unfold tagged. rewrite <- list_fmap_compose. apply list_fmap_id. Qed.

(** A stretch of call [t] that puts [drop i (take i' bs)] into the pipe. *)
Lemma fifo_write p y s' t bs i i' x : fifo_inv p y -> y_calls y t = Some (Writing bs i) ->
  (i <= i' <= length bs)%nat -> upd_queue p (y_st y) s' (queue (pipes (y_st y) p) ++ drop i (take i' bs)) ->
  call_sent (Some x) (take i' bs) ->
  fifo_inv p (Psys s' (<[t := Some x]> (y_calls y)) (y_sent y ++ tagged t (drop i (take i' bs))) (y_got y)).
Proof.
  intros [F1 F2 F3] Ht Hi Hu Hx. constructor; cbn [y_st y_calls y_sent y_got].
  - apply Hu.
  - rewrite fmap_app, tagged_snd, F2, (uq_queue _ _ _ _ Hu). by rewrite <- app_assoc.
  - intros t'. rewrite of_call_app. destruct (decide (t = t')) as [<-|Hne].
    + rewrite fn_lookup_insert. specialize (F3 t). rewrite Ht in F3. destruct F3 as [_ ->].
      replace (take i bs) with (take i (take i' bs)) by (rewrite take_take; f_equal; lia). by rewrite take_drop.
    + by rewrite fn_lookup_insert_ne, app_nil_r.
Qed.

(** Steps that leave the calls and what was sent alone. *)
Lemma fifo_keep p y s' got : fifo_inv p y -> pipe_inv (pipes s' p) ->
  y_got y ++ queue (pipes (y_st y) p) = got ++ queue (pipes s' p) ->
  fifo_inv p (Psys s' (y_calls y) (y_sent y) got).
Proof. intros [F1 F2 F3] Hi Hq. constructor; [done| |done]. cbn [y_st y_sent y_got]. by rewrite F2. Qed.

(** [pipeclose] leaves the ring alone. *)
Lemma wakeup_state {S} ch c (s : S) a c' s' : wakeup ch c s = Ok a c' s' -> s' = s.
Proof.
  unfold wakeup, acquire, release, mbind, M_bind, obind. intros H. by repeat (case_match; simplify_eq/=).
Qed.
Lemma pipeclose_ring kend p w c s c' s' : pipeclose kend p w c s = Ok tt c' s' ->
  pipes s' p = (if w then set_writeopen false else set_readopen false) (pipes s p).
Proof.
  unfold pipeclose, getp, setp, gets, modify, mbind, M_bind, obind, acquire, release, pkalloc, zoom.
  intros H. destruct w; repeat (case_match; simplify_eq/=; try done).
  all: repeat match goal with
    | H : _ ≫= _ = _ |- _ => apply (wakeup_state _ _ _ _ _ _) in H as ->
    | H : obind (kfree _ _ _ _) _ _ = _ |- _ => unfold obind in H; case_match; simplify_eq/=
    | H : wakeup _ _ _ = _ |- _ => apply wakeup_state in H as ->
    end; cbn; by rewrite ?fn_lookup_insert.
Qed.

Lemma pstep_inv kend p y y' : fifo_inv p y -> pstep kend p y y' -> fifo_inv p y'.
Proof.
  intros F Hs. pose proof (fi_inv _ _ F) as Hi.
  destruct Hs as [t bs y Ht|t bs i i' c c' s' y Ht Hc Hr|t bs i r i' c c' s' y Ht Hc Hr|
    n r bs c c' s' y Hc Hr|n ch c c' s' y Hc Hr|w c c' s' y Hr|s' y Hr].
  - destruct F as [F1 F2 F3]. constructor; [done|done|]. intros t'. cbn [y_calls y_sent].
    destruct (decide (t = t')) as [<-|Hne]; [|by rewrite fn_lookup_insert_ne].
    rewrite fn_lookup_insert. specialize (F3 t). rewrite Ht in F3. cbn in F3 |- *. split; [lia|done].
  - pose proof (fi_calls _ _ F t) as Hl. rewrite Ht in Hl. destruct Hl as [Hl _].
    pose proof (pipewrite_stretch_wp p bs i c (y_st y) Hi Hc Hl) as W. unfold wp in W. rewrite Hr in W.
    destruct W as (k & Hk & Hu & [[= <-]|[?|[_ ?]]]); [|done|done]. apply (fifo_write p y s' t bs i i'); try done.
    cbn. split; [lia|done].
  - pose proof (fi_calls _ _ F t) as Hl. rewrite Ht in Hl. destruct Hl as [Hl _].
    pose proof (pipewrite_stretch_wp p bs i c (y_st y) Hi Hc Hl) as W. unfold wp in W. rewrite Hr in W.
    destruct W as (k & Hk & Hu & [?|[[= -> <-]|[-> [= -> ->]]]]); [done| |].
    + apply (fifo_write p y s' t bs i i'); try done. right. split; [done|apply prefix_take].
    + rewrite (proj2 (Z.ltb_ge _ _)), Nat2Z.id by lia. apply (fifo_write p y s' t bs i (length bs)); try done.
      left. by rewrite take_ge.
  - pose proof (piperead_spec p n c (y_st y) Hi Hc) as H. cbv zeta in H.
    destruct (bool_decide (queue (pipes (y_st y) p) = []) && writeopen (pipes (y_st y) p)); [destruct (mykilled c)|];
      unfold wp, blocks in H; rewrite Hr in H; try done.
    + destruct H as ([= -> ->] & -> & ->). apply fifo_keep; [done|done|]. by rewrite app_nil_r.
    + destruct H as (-> & [= -> ->] & Hu). rewrite Nat2Z.id, (take_ge (take _ _)) by done.
      apply fifo_keep; [done|apply Hu|]. rewrite (uq_queue _ _ _ _ Hu). by rewrite <- app_assoc, take_drop.
  - pose proof (piperead_spec p n c (y_st y) Hi Hc) as H. cbv zeta in H.
    destruct (bool_decide (queue (pipes (y_st y) p) = []) && writeopen (pipes (y_st y) p)); [destruct (mykilled c)|];
      unfold wp, blocks in H; rewrite Hr in H; try done. destruct H as (_ & -> & _). by apply fifo_keep.
  - pose proof (pipeclose_ring kend p w c (y_st y) c' s' Hr) as E.
    apply fifo_keep; [done|..]; rewrite E; [destruct Hi; by destruct w|by destruct w].
  - apply fifo_keep; by rewrite ?Hr.
Qed.

(** C9: a pipe loses, duplicates and reorders nothing.  Over every interleaving
    of calls of [pipewrite], [piperead] and [pipeclose] on a pipe, calls that
    sleep and go on included, the bytes written are those delivered followed
    by those in the ring, at most [PIPESIZE].  Here the bytes written are
    those that the calls say they have written: a call that has returned [n]
    has written all its bytes, in order, one in progress those before its [i],
    and one that failed some first part.  A reader that is told the end of
    file finds the write end closed and has had everything. *)
Theorem pipe_fifo kend p s0 y : pipe_inv (pipes s0 p) -> queue (pipes s0 p) = [] ->
  rtc (pstep kend p) (Psys s0 (fun _ => None) [] []) y ->
  (y_sent y).*2 = y_got y ++ queue (pipes (y_st y) p) /\
  Z.of_nat (length (queue (pipes (y_st y) p))) <= PIPESIZE /\
  (forall t, call_sent (y_calls y t) (of_call t (y_sent y))) /\
  (forall n bs c c' s', held c = [] -> 0 < n -> piperead p n c (y_st y) = Ok (0, bs) c' s' ->
     writeopen (pipes (y_st y) p) = false /\ (y_sent y).*2 = y_got y).
Proof.
  intros Hi Hq Hs.
  assert (Hr : forall y y', rtc (pstep kend p) y y' -> fifo_inv p y -> fifo_inv p y')
    by (induction 1; eauto using pstep_inv).
  destruct (Hr _ _ Hs) as [Hi' E Ec]; [by constructor; [|cbn; rewrite Hq|]|].
  split_and!; [done|rewrite queue_length by done; apply Hi'|done|].
  intros n bs c c' s' Hc Hn Hrd. pose proof (piperead_spec p n c (y_st y) Hi' Hc) as H. cbv zeta in H.
  destruct (bool_decide (queue (pipes (y_st y) p) = []) && writeopen (pipes (y_st y) p)) eqn:Eb;
    [destruct (mykilled c)|]; unfold wp, blocks in H; rewrite Hrd in H; try done; [by destruct H|].
  destruct H as (_ & [= E0 ->] & _).
  assert (Eq : queue (pipes (y_st y) p) = []).
  { rewrite length_take in E0. apply length_zero_iff_nil. lia. }
  rewrite Eq, app_nil_r in E. rewrite Eq, bool_decide_true in Eb by done. done.
Qed.

(** Closing one end of a pipe marks it and wakes the other side; closing
    the second end gives the page back to the allocator. *)
Theorem pipeclose_correct kend p writable c s l :
  held c = [] -> kinv kend (pk s) l -> valid_page kend p -> p ∉ l ->
  wp (pipeclose kend p writable) c s (fun _ c' s' =>
    c' = add_woken (if writable then ChPipeR p else ChPipeW p) c /\
    readopen (pipes s' p) = readopen (pipes s p) && writable /\
    writeopen (pipes s' p) = writeopen (pipes s p) && negb writable /\
    kinv kend (pk s') (if readopen (pipes s' p) || writeopen (pipes s' p) then l else p :: l)).
Proof.
  intros Hc Hk Hv Hn. unfold pipeclose. destruct c as [h pid k w]. simpl in Hc. subst h.
  wp_step. wp_step. wp_step.
  assert (Hf : kmem_free (Ctx [] pid k (w ++ [if writable then ChPipeR p else ChPipeW p])) (pk s))
    by (right; cbn; set_solver).
  destruct writable; wp_steps; unfold id; cbn; rewrite fn_lookup_insert; cbn;
    rewrite ?andb_true_r, ?andb_false_r, ?orb_false_r;
    [destruct (readopen (pipes s p)) eqn:E|destruct (writeopen (pipes s p)) eqn:E]; cbn; wp_steps;
    cbn; rewrite ?fn_lookup_insert; cbn; rewrite ?E; cbn; try done.
  all: eapply wp_mono; [|by apply kfree_wp with (l := l)].
  all: intros _ ? k' (-> & Hk' & _); cbn; rewrite ?fn_lookup_insert; cbn; by rewrite ?E.
Qed.

(** * Examples *)

(** A pipe whose counters are about to wrap around, holding two bytes. *)
Definition ex_pipe : pipe :=
  Pipe (<[511%nat := 66]> (<[510%nat := 65]> (replicate 512 0))) 4294967294 0 true true.
Definition ex_pst : pst := Pst ex_kst (fun _ => ex_pipe).

Lemma ex_pipe_inv : pipe_inv ex_pipe.
Proof. constructor; vm_compute; done. Qed.

Lemma pipewrite_correct_witness :
  wp (pipewrite 0 [67; 68]) ctx0 ex_pst (fun r _ s' => r = 2 /\ queue (pipes s' 0) = [65; 66; 67; 68]).
Proof.
  pose proof (pipewrite_correct 0 [67; 68] ctx0 ex_pst ex_pipe_inv eq_refl) as H.
  cbv zeta in H. rewrite bool_decide_true in H by (vm_compute; lia).
  eapply wp_mono; [|exact H]. intros r c' s' (-> & _ & Hu). split; [done|].
  rewrite (uq_queue _ _ _ _ Hu). by vm_compute.
Defined.

Lemma piperead_correct_witness :
  wp (piperead 0 1) ctx0 ex_pst (fun r _ s' => r = (1, [65]) /\ queue (pipes s' 0) = [66]).
Proof.
  pose proof (piperead_correct 0 1 ctx0 ex_pst ex_pipe_inv eq_refl) as H.
  assert (E : bool_decide (queue (pipes ex_pst 0) = []) && writeopen (pipes ex_pst 0) = false)
    by by vm_compute.
  cbv zeta in H. rewrite E in H.
  eapply wp_mono; [|exact H]. intros r c' s' (_ & -> & Hu).
  rewrite (uq_queue _ _ _ _ Hu). by vm_compute.
Defined.

Definition ex_pst0 : pst :=
  Pst ex_kst (fun _ => Pipe (replicate 512 0) 4294967295 4294967295 true true).

Lemma ex_pst0_inv : pipe_inv (pipes ex_pst0 0) /\ queue (pipes ex_pst0 0) = [].
Proof. split; [constructor; by vm_compute|by vm_compute]. Qed.

Lemma pipe_fifo_witness :
  exists y, y_calls y 7%nat = Some (Wrote [65; 66] 2) /\ y_got y = [65] /\
    (y_sent y).*2 = [65] ++ queue (pipes (y_st y) 0) /\ of_call 7 (y_sent y) = [65; 66].
Proof.
  destruct ex_pst0_inv as [Hi0 Hq0].
  pose proof (pipewrite_stretch_wp 0 [65; 66] 0 ctx0 ex_pst0 Hi0 eq_refl ltac:(cbn; lia)) as H1.
  assert (E1 : exists c1 s1, pipewrite_stretch 0 [65; 66] 0 ctx0 ex_pst0 = Ok (Returned 2 2) c1 s1)
    by (eexists _, _; reflexivity).
  destruct E1 as (c1 & s1 & E1). unfold wp in H1. rewrite E1 in H1.
  destruct H1 as (k & _ & Hu1 & [?|[?|[-> _]]]); [done|done|].
  pose proof (uq_queue _ _ _ _ Hu1) as Hq1. rewrite Hq0 in Hq1. cbn in Hq1.
  pose proof (piperead_spec 0 1 ctx0 s1 (uq_inv _ _ _ _ Hu1) eq_refl) as H2. cbv zeta in H2.
  rewrite Hq1, bool_decide_false in H2 by done.
  apply wp_ok in H2 as (r2 & c2 & s2 & E2 & _ & -> & Hu2).
  set (y0 := Psys ex_pst0 (fun _ => None) [] []).
  set (y1 := Psys ex_pst0 (<[7%nat := Some (Writing [65; 66] 0)]> (y_calls y0)) [] []).
  set (y2 := Psys s1 (<[7%nat := Some (Wrote [65; 66] 2)]> (y_calls y1)) (tagged 7 [65; 66]) []).
  set (y3 := Psys s2 (y_calls y2) (y_sent y2) [65]).
  destruct (pipe_fifo (kpage 0) 0 ex_pst0 y3 Hi0 Hq0) as (T1 & _ & T3 & _).
  - eapply rtc_l; [exact (ps_call (kpage 0) 0 7 [65; 66] y0 eq_refl)|].
    eapply rtc_l; [exact (ps_return (kpage 0) 0 7 [65; 66] 0 2 2 ctx0 c1 s1 y1 eq_refl eq_refl E1)|].
    apply rtc_once. exact (ps_read (kpage 0) 0 1 1 [65] ctx0 c2 s2 y2 eq_refl E2).
  - exists y3. split_and!; [done|done|exact T1|]. specialize (T3 7%nat). cbn in T3.
    rewrite fn_lookup_insert in T3. destruct T3 as [[_ T3]|[? _]]; done.
Defined.

Lemma pipeclose_correct_witness :
  wp (pipeclose (kpage 0) (kpage 5) true) ctx0
    (Pst ex_kst (fun _ => set_readopen false ex_pipe)) (fun _ _ s' =>
    kinv (kpage 0) (pk s') (kpage 5 :: ex_free)).
Proof.
  eapply wp_mono; [|apply (pipeclose_correct (kpage 0) (kpage 5) true ctx0
    (Pst ex_kst (fun _ => set_readopen false ex_pipe)) ex_free)].
  - intros _ c' s' (_ & E1 & E2 & H). cbn in E1, E2. by rewrite E1, E2 in H.
  - reflexivity.
  - apply ex_kinv.
  - done.
  - by_decide.
Defined.
