(* ===== verification/Block.v ===== *)
(** * Disk blocks as byte arrays

    A block is the list of its [BSIZE] bytes.  The structures the kernel
    overlays on block data (log header, dinodes, indirect blocks, directory
    entries) are read and written with little-endian accessors. *)
From S2P Require Import Prelude CString Mmu.

Definition BSIZE : Z := 512.
Abbreviation block := (list Z) (only parsing).

Definition block_wf (b : block) : Prop := Z.of_nat (length b) = BSIZE /\ Forall is_u8 b.

Definition zero_block : block := replicate 512 0.

Definition get8 (b : block) (o : Z) : Z := nth (Z.to_nat o) b 0.
Definition put8 (b : block) (o v : Z) : block := <[Z.to_nat o := u8 v]> b.

Definition get16 (b : block) (o : Z) : Z := get8 b o + 256 * get8 b (o + 1).
Definition put16 (b : block) (o v : Z) : block :=
  put8 (put8 b o v) (o + 1) (v / 256).

Definition get32 (b : block) (o : Z) : Z := get16 b o + 65536 * get16 b (o + 2).
Definition put32 (b : block) (o v : Z) : block :=
  put16 (put16 b o v) (o + 2) (v / 65536).

(** [memmove] of [bs] into the block at offset [o]. *)
Definition splice (b : block) (o : Z) (bs : list Z) : block :=
  take (Z.to_nat o) b ++ bs ++ drop (Z.to_nat o + length bs) b.
(** [n] bytes of the block from offset [o]. *)
Definition slice (b : block) (o n : Z) : list Z := take (Z.to_nat n) (drop (Z.to_nat o) b).

Section accessors.
Implicit Types (b : block) (o v : Z).

Lemma zero_block_wf : block_wf zero_block.
Proof. split; [done|]. apply Forall_replicate. wrap_lia. Qed.

Lemma length_put8 b o v : length (put8 b o v) = length b.
Proof. apply length_insert. Qed.
Lemma length_put16 b o v : length (put16 b o v) = length b.
Proof. unfold put16. by rewrite !length_put8. Qed.
Lemma length_put32 b o v : length (put32 b o v) = length b.
Proof. unfold put32. by rewrite !length_put16. Qed.

Lemma put8_wf b o v : block_wf b -> block_wf (put8 b o v).
Proof.
  intros [Hl Hb]. split; [by rewrite length_put8|]. apply Forall_insert; [done|].
  apply u8_range.
Qed.
Lemma put16_wf b o v : block_wf b -> block_wf (put16 b o v).
Proof. intros. by do 2 apply put8_wf. Qed.
Lemma put32_wf b o v : block_wf b -> block_wf (put32 b o v).
Proof. intros. by do 2 apply put16_wf. Qed.

Lemma get8_range b o : block_wf b -> is_u8 (get8 b o).
Proof.
  intros [_ Hb]. unfold get8. destruct (nth_in_or_default (Z.to_nat o) b 0) as [Hin| ->].
  - rewrite Forall_forall in Hb. by apply Hb, list_elem_of_In.
  - wrap_lia.
Qed.
Lemma get16_range b o : block_wf b -> 0 <= get16 b o < 65536.
Proof.
  intros Hb. unfold get16. pose proof (get8_range b o Hb). pose proof (get8_range b (o + 1) Hb).
  wrap_lia.
Qed.
Lemma get32_range b o : block_wf b -> is_u32 (get32 b o).
Proof.
  intros Hb. unfold get32. pose proof (get16_range b o Hb). pose proof (get16_range b (o + 2) Hb).
  wrap_lia.
Qed.

Lemma get8_put8 b o p v : 0 <= o < Z.of_nat (length b) -> 0 <= p ->
  get8 (put8 b o v) p = if p =? o then u8 v else get8 b p.
Proof.
  intros Ho Hp. unfold get8, put8. rewrite !nth_lookup.
  destruct (Z.eqb_spec p o) as [->|Hne].
  - rewrite list_lookup_insert_eq by lia. done.
  - rewrite list_lookup_insert_ne by lia. done.
Qed.

Lemma get16_put16 b o p v : 0 <= o -> o + 2 <= Z.of_nat (length b) -> 0 <= p ->
  p = o \/ p + 2 <= o \/ o + 2 <= p ->
  get16 (put16 b o v) p = if p =? o then u16 v else get16 b p.
Proof.
  intros Ho Hl Hp Hd. unfold get16, put16.
  rewrite !get8_put8 by (rewrite ?length_put8; lia). unfold u8, u16.
  destruct (Z.eqb_spec p o) as [->|Hne]; zcases; wrap_lia.
Qed.

Lemma get32_put32 b o p v : 0 <= o -> o + 4 <= Z.of_nat (length b) -> 0 <= p ->
  p = o \/ p + 4 <= o \/ o + 4 <= p ->
  get32 (put32 b o v) p = if p =? o then u32 v else get32 b p.
Proof.
  intros Ho Hl Hp Hd. unfold get32, put32.
  rewrite !get16_put16 by (rewrite ?length_put16; lia).
  destruct (Z.eqb_spec p o) as [->|Hne]; zcases; wrap_lia.
Qed.

Lemma splice_wf b o bs : block_wf b -> Forall is_u8 bs -> 0 <= o ->
  o + Z.of_nat (length bs) <= BSIZE -> block_wf (splice b o bs).
Proof.
  intros [Hl Hb] Hbs Ho Hle. unfold BSIZE in *. split.
  - unfold splice. rewrite !length_app, length_take, length_drop. unfold BSIZE. lia.
  - unfold splice. rewrite !Forall_app. split_and!; [by apply Forall_take|done|by apply Forall_drop].
Qed.

Lemma get8_splice b o bs p : 0 <= o -> o + Z.of_nat (length bs) <= Z.of_nat (length b) -> 0 <= p ->
  get8 (splice b o bs) p =
  if in_range o (Z.of_nat (length bs)) p then nth (Z.to_nat (p - o)) bs 0 else get8 b p.
Proof.
  intros Ho Hl Hp. unfold get8, splice, in_range. rewrite !nth_lookup.
  destruct (Z.ltb_spec p o) as [H1|H1].
  - rewrite lookup_app_l by (rewrite length_take; lia). rewrite lookup_take_lt by lia. by zcases.
  - rewrite lookup_app_r by (rewrite length_take; lia). rewrite length_take.
    replace (Z.to_nat p - (Z.to_nat o `min` length b))%nat with (Z.to_nat (p - o)) by lia.
    destruct (Z.ltb_spec p (o + Z.of_nat (length bs))).
    + rewrite lookup_app_l by lia. by zcases.
    + rewrite lookup_app_r by lia. rewrite lookup_drop. zcases. f_equal. f_equal. lia.
Qed.
End accessors.
#[export] Hint Resolve zero_block_wf put8_wf put16_wf put32_wf get8_range get32_range : xv6.
