(* ===== verification/Sleeplock.v ===== *)
(** * Sleep locks (sleeplock.c)

    A sleep lock is a flag and an owner pid protected by a spin lock.  The
    operations are stated for a lock embedded in any state: [get] and [set]
    locate it, [lk] names its spin lock and [ch] its sleep channel. *)
From S2P Require Import Prelude.
#[local] Set Default Proof Using "Type".

(** [struct sleeplock] (sleeplock.h). *)
Record sleeplock := Sleeplock { locked : bool; lpid : Z }.

Definition initsleeplock : sleeplock := Sleeplock false 0.

Section sleeplock.
Context {S : Type} (get : S -> sleeplock) (set : sleeplock -> S -> S).
Variables (lk : lockid) (ch : chan).

(** After [sleep] returns, the loop tests [locked] again: a thread that
    blocks here runs [acquiresleep]'s loop again when it is woken. *)
Definition acquiresleep : M S unit :=
  acquire lk;;
  l ← gets get;
  if locked l then sleep ch lk
  else
    p ← getctx mypid;
    modify (set (Sleeplock true p));;
    release lk.

Definition releasesleep : M S unit :=
  acquire lk;;
  modify (set (Sleeplock false 0));;
  wakeup ch;;
  release lk.

Definition holdingsleep : M S bool :=
  acquire lk;;
  l ← gets get;
  p ← getctx mypid;
  release lk;;
  mret (locked l && (lpid l =? p)).

(** A free lock is taken at once. *)
Lemma acquiresleep_wp c s (Q : unit -> ctx -> S -> Prop) :
  locked (get s) = false -> lk ∉ held c ->
  Q tt c (set (Sleeplock true (mypid c)) s) -> wp acquiresleep c s Q.
Proof.
  intros Hl Hc HQ. destruct c. unfold acquiresleep. wp_step. wp_step. wp_step. wp_step.
  rewrite Hl. wp_steps. exact HQ.
Qed.

(** A taken lock puts the caller to sleep, with the state unchanged. *)
Lemma acquiresleep_blocks c s (Q : chan -> ctx -> S -> Prop) :
  locked (get s) = true -> held c = [] ->
  Q ch (set_held [Lptable] c) s -> blocks acquiresleep c s Q.
Proof.
  intros Hl Hc HQ. unfold acquiresleep. apply blocks_bind, wp_acquire; [by rewrite Hc; set_solver|].
  apply blocks_bind, wp_gets. rewrite Hl. apply blocks_sleep; [by rewrite Hc|].
  by destruct c.
Qed.

Lemma releasesleep_wp c s (Q : unit -> ctx -> S -> Prop) :
  lk ∉ held c -> Lptable ∉ held c -> lk <> Lptable ->
  Q tt (add_woken ch c) (set (Sleeplock false 0) s) -> wp releasesleep c s Q.
Proof.
  clear get. intros H1 H2 H3 HQ. destruct c. unfold releasesleep. wp_step. wp_step.
  wp_step. wp_step. wp_step. wp_step.
  eapply wp_release_head; [reflexivity|]. exact HQ.
Qed.

Lemma holdingsleep_wp c s (Q : bool -> ctx -> S -> Prop) :
  lk ∉ held c -> Q (locked (get s) && (lpid (get s) =? mypid c)) c s -> wp holdingsleep c s Q.
Proof.
  intros H1 HQ. destruct c. unfold holdingsleep. wp_step. wp_steps. exact HQ.
Qed.
End sleeplock.
