(* ===== verification/Bio.v ===== *)
(** * The buffer cache (bio.c) over the in-memory disk (memide.c)

    The cache is an array of [NBUF] buffers threaded on a circular doubly
    linked list in order of use; index [NBUF] is the list head [bcache.head].
    [disk] is the disk image, [writes] the sequence of block writes issued,
    which is what a crash can cut short. *)
From stdpp Require Import functions.
From S2P Require Import Prelude CString Mmu Block Sleeplock.

Definition HEAD : nat := NBUF.
Definition B_VALID : Z := 2.
Definition B_DIRTY : Z := 4.

(** [struct buf] (buf.h); links are indices. *)
Record buf := Buf {
  flags : Z;
  dev : Z;
  blockno : Z;
  block_lock : sleeplock;
  refcnt : Z;
  prev : nat;
  next : nat;
  data : block
}.

Record bst := Bst {
  bufs : nat -> buf;
  disksize : Z;
  disk : Z -> block;
  writes : list (Z * block)
}.

Definition buf0 : buf := Buf 0 0 0 initsleeplock 0 0 0 zero_block.

Definition set_flags (v : Z) (b : buf) : buf :=
  Buf v (dev b) (blockno b) (block_lock b) (refcnt b) (prev b) (next b) (data b).
Definition set_lock (l : sleeplock) (b : buf) : buf :=
  Buf (flags b) (dev b) (blockno b) l (refcnt b) (prev b) (next b) (data b).
Definition set_refcnt (v : Z) (b : buf) : buf :=
  Buf (flags b) (dev b) (blockno b) (block_lock b) v (prev b) (next b) (data b).
Definition set_prev (v : nat) (b : buf) : buf :=
  Buf (flags b) (dev b) (blockno b) (block_lock b) (refcnt b) v (next b) (data b).
Definition set_next (v : nat) (b : buf) : buf :=
  Buf (flags b) (dev b) (blockno b) (block_lock b) (refcnt b) (prev b) v (data b).
Definition set_data (d : block) (b : buf) : buf :=
  Buf (flags b) (dev b) (blockno b) (block_lock b) (refcnt b) (prev b) (next b) d.

(** [bcache.buf[i]] updated by [f]. *)
Definition upd_buf (i : nat) (f : buf -> buf) (s : bst) : bst :=
  Bst (<[i := f (bufs s i)]> (bufs s)) (disksize s) (disk s) (writes s).

Definition getb {A} (i : nat) (f : buf -> A) : M bst A := gets (fun s => f (bufs s i)).
Definition setb (i : nat) (f : buf -> buf) : M bst unit := modify (upd_buf i f).
#[export] Hint Unfold getb setb : wp_unfold.

Definition buf_acquiresleep (i : nat) : M bst unit :=
  acquiresleep (fun s => block_lock (bufs s i)) (fun l => upd_buf i (set_lock l))
    (Lbuf i) (ChBufLock i).
Definition buf_releasesleep (i : nat) : M bst unit :=
  releasesleep (fun l => upd_buf i (set_lock l)) (Lbuf i) (ChBufLock i).
Definition buf_holdingsleep (i : nat) : M bst bool :=
  holdingsleep (fun s => block_lock (bufs s i)) (Lbuf i).

(** Link [b] in just after the list head. *)
Definition link_first (b : nat) : M bst unit :=
  n ← getb HEAD next;
  setb b (set_next n);;
  setb b (set_prev HEAD);;
  n ← getb HEAD next;
  setb n (set_prev b);;
  setb HEAD (set_next b).

(** The loop of [binit] from buffer [i], [n] buffers to go. *)
Fixpoint binit_loop (n i : nat) : M bst unit :=
  match n with
  | O => mret tt
  | S n' =>
      h ← getb HEAD next;
      setb i (set_next h);;
      setb i (set_prev HEAD);;
      setb i (set_lock initsleeplock);;
      h ← getb HEAD next;
      setb h (set_prev i);;
      setb HEAD (set_next i);;
      binit_loop n' (S i)
  end.

Definition binit : M bst unit :=
  setb HEAD (set_prev HEAD);;
  setb HEAD (set_next HEAD);;
  binit_loop NBUF 0.

(** The two scans of [bget]: the first buffer from [b] on, following
    [next] (or [prev]), that satisfies the test. *)
Fixpoint bget_scan (n : nat) (step : buf -> nat) (test : buf -> bool) (b : nat) : M bst (option nat) :=
  if Nat.eqb b HEAD then mret None
  else match n with
       | O => fun _ _ => NoFuel
       | S n' => x ← getb b id;
                 if test x then mret (Some b) else bget_scan n' step test (step x)
       end.

Definition bget (dv bno : Z) : M bst nat :=
  acquire Lbcache;;
  b ← getb HEAD next;
  r ← bget_scan NBUF next (fun x => (dev x =? dv) && (blockno x =? bno)) b;
  match r with
  | Some b =>
      setb b (fun x => set_refcnt (u32 (refcnt x + 1)) x);;
      release Lbcache;;
      buf_acquiresleep b;;
      mret b
  | None =>
      b ← getb HEAD prev;
      r ← bget_scan NBUF prev
            (fun x => (refcnt x =? 0) && (Z.land (flags x) B_DIRTY =? 0)) b;
      match r with
      | Some b =>
          setb b (fun x => Buf 0 dv bno (block_lock x) 1 (prev x) (next x) (data x));;
          release Lbcache;;
          buf_acquiresleep b;;
          mret b
      | None => panic "bget: no buffers"
      end
  end.

(** [iderw] of memide.c. *)
Definition iderw (b : nat) : M bst unit :=
  h ← buf_holdingsleep b;
  if negb h then panic "iderw: buf not locked" else
  x ← getb b id;
  if Z.land (flags x) (Z.lor B_VALID B_DIRTY) =? B_VALID then panic "iderw: nothing to do" else
  if negb (dev x =? 1) then panic "iderw: request not for disk 1" else
  sz ← gets disksize;
  if blockno x >=? sz then panic "iderw: block out of range" else
  (if negb (Z.land (flags x) B_DIRTY =? 0) then
     setb b (set_flags (Z.land (flags x) (Z.lnot B_DIRTY)));;
     modify (fun s => Bst (bufs s) (disksize s) (<[blockno x := data x]> (disk s))
                          (writes s ++ [(blockno x, data x)]))
   else
     d ← gets disk;
     setb b (set_data (d (blockno x))));;
  setb b (fun y => set_flags (Z.lor (flags y) B_VALID) y).

Definition bread (dv bno : Z) : M bst nat :=
  b ← bget dv bno;
  f ← getb b flags;
  when (Z.land f B_VALID =? 0) (iderw b);;
  mret b.

Definition bwrite (b : nat) : M bst unit :=
  h ← buf_holdingsleep b;
  if negb h then panic "bwrite" else
  setb b (fun x => set_flags (Z.lor (flags x) B_DIRTY) x);;
  iderw b.

Definition brelse (b : nat) : M bst unit :=
  h ← buf_holdingsleep b;
  if negb h then panic "brelse" else
  buf_releasesleep b;;
  acquire Lbcache;;
  setb b (fun x => set_refcnt (u32 (refcnt x - 1)) x);;
  r ← getb b refcnt;
  when (r =? 0) (
    n ← getb b next; p ← getb b prev;
    setb n (set_prev p);;
    n ← getb b next; p ← getb b prev;
    setb p (set_next n);;
    link_first b);;
  release Lbcache.

(** [memmove(b->data, d, BSIZE)]. *)
Definition bcopyin (b : nat) (d : block) : M bst unit := setb b (set_data d).

(** * The list of buffers in order of use *)

Section ring.
Implicit Types (f : nat -> buf) (l : list nat) (a b c : nat).

(** From [a], the [next] links visit [l] and then [c]; [prev] is the
    converse. *)
Fixpoint dseg f a l c : Prop :=
  match l with
  | [] => next (f a) = c /\ prev (f c) = a
  | x :: l' => next (f a) = x /\ prev (f x) = a /\ dseg f x l' c
  end.

Definition ring f l : Prop := dseg f HEAD l HEAD /\ l ≡ₚ seq 0 NBUF.

Lemma dseg_ext f g a l c :
  (forall x, x ∈ a :: l -> next (g x) = next (f x)) ->
  (forall x, x ∈ l ++ [c] -> prev (g x) = prev (f x)) -> dseg f a l c -> dseg g a l c.
Proof.
  revert a. induction l as [|x l IH]; intros a Hn Hp; simpl.
  - intros [E H]. rewrite Hn, Hp by set_solver. done.
  - intros (E & H & Hl). rewrite Hn, Hp by set_solver. split_and!; [done..|].
    apply IH; [..|done]; intros; [apply Hn|apply Hp]; set_solver.
Qed.

Lemma dseg_app f a l1 x l2 c :
  dseg f a (l1 ++ x :: l2) c <-> dseg f a l1 x /\ dseg f x l2 c.
Proof. revert a. induction l1 as [|y l1 IH]; intros a; simpl; [|rewrite IH]; tauto. Qed.

Lemma dseg_first f a l c : dseg f a l c -> next (f a) ∈ l ++ [c].
Proof. destruct l; simpl; [intros [-> _]|intros [-> _]]; set_solver. Qed.

Lemma dseg_last f a l c : dseg f a l c -> prev (f c) ∈ a :: l.
Proof.
  revert a. induction l as [|x l IH]; intros a; simpl; [intros [_ ->]; set_solver|].
  intros (_ & _ & H%IH). set_solver.
Qed.

(** Links of [f] with [next] of [p] and [prev] of [q] redirected. *)
Definition relink f g (p q : nat) : Prop :=
  (forall x, next (g x) = if Nat.eqb x p then q else next (f x)) /\
  (forall x, prev (g x) = if Nat.eqb x q then p else prev (f x)).

Lemma dseg_unlink f g a l1 b l2 c :
  dseg f a l1 b -> dseg f b l2 c -> NoDup (a :: l1 ++ b :: l2) -> (c ∉ l1 ++ b :: l2) ->
  relink f g (prev (f b)) (next (f b)) -> dseg g a (l1 ++ l2) c.
Proof.
  intros H1 H2 Hn Hc [Gn Gp]. revert a H1 Hn. induction l1 as [|x l1 IH]; intros a H1 Hn.
  - simpl in *. destruct H1 as [_ Ha]. rewrite Ha in Gn, Gp.
    apply NoDup_cons in Hn as [Ha' Hn]. apply NoDup_cons in Hn as [Hb Hn].
    destruct l2 as [|y l2]; simpl in *.
    + destruct H2 as [Hy _]. rewrite Gn, Gp, Hy, !Nat.eqb_refl. done.
    + destruct H2 as (Hy & _ & H2). rewrite Gn, Gp, Hy, !Nat.eqb_refl. split_and!; [done..|].
      revert H2. apply NoDup_cons in Hn as [Hyl _]. apply dseg_ext; intros z Hz.
      * rewrite Gn. destruct (Nat.eqb_spec z a) as [->|]; [|done]. set_solver.
      * rewrite Gp, Hy. destruct (Nat.eqb_spec z y) as [->|]; [|done]. set_solver.
  - destruct H1 as (Hx & Hpx & H1). simpl in Hn, Hc |- *.
    apply NoDup_cons in Hn as [Ha' Hn]. split_and!.
    + rewrite Gn. destruct (Nat.eqb_spec a (prev (f b))) as [E|]; [|done].
      exfalso. apply dseg_last in H1. rewrite <- E in H1. set_solver.
    + rewrite Gp. destruct (Nat.eqb_spec x (next (f b))) as [E|]; [|done].
      exfalso. apply dseg_first in H2. rewrite <- E in H2. apply NoDup_cons in Hn as [Hx' _].
      set_solver.
    + apply IH; [set_solver|done|done].
Qed.

Lemma dseg_link f g a l c b : dseg f a l c -> b ∉ a :: l -> b <> c -> (c ∈ l -> False) ->
  a ∉ l -> NoDup l ->
  (forall x, next (g x) = if Nat.eqb x a then b else if Nat.eqb x b then next (f a) else next (f x)) ->
  (forall x, prev (g x) = if Nat.eqb x (next (f a)) then b else if Nat.eqb x b then a else prev (f x)) ->
  dseg g a (b :: l) c.
Proof.
  intros H Hb Hbc Hc Ha Hnd Gn Gp.
  assert (a <> b) by set_solver. assert (b <> next (f a)).
  { intros ->. apply dseg_first in H. set_solver. }
  cbn [dseg]. rewrite Gn, Nat.eqb_refl, Gp.
  rewrite (proj2 (Nat.eqb_neq b (next (f a)))), Nat.eqb_refl by done. split_and!; [done..|].
  assert (Hnb : next (g b) = next (f a)).
  { rewrite Gn, (proj2 (Nat.eqb_neq b a)), Nat.eqb_refl by done. done. }
  assert (Hpb : prev (g (next (f a))) = b) by by rewrite Gp, Nat.eqb_refl.
  destruct l as [|y l]; cbn [dseg] in *.
  - destruct H as [<- _]. done.
  - destruct H as (Hy & _ & H). rewrite Hy in *. split_and!; [done..|].
    apply NoDup_cons in Hnd as [Hyl _]. revert H. apply dseg_ext; intros z Hz.
    + rewrite Gn. destruct (Nat.eqb_spec z a), (Nat.eqb_spec z b); subst; set_solver.
    + rewrite Gp. destruct (Nat.eqb_spec z y), (Nat.eqb_spec z b); subst; set_solver.
Qed.
End ring.

(** * The abstract cache

    What a thread that holds no other thread's buffers sees: the logical
    contents of every block, the disk, the write sequence, the buffers it
    has open and the blocks pinned by the log. *)

Record abio := Abio {
  acontent : Z -> block;
  adisk : Z -> block;
  awrites : list (Z * block);
  aopen : gmap nat Z;
  adirty : gset Z
}.

Definition open_blocks (a : abio) : gset Z := map_img (aopen a).

Section abstraction.
Variable p : Z.        (* the pid of the thread *)

Record buf_rel (sz : Z) (a : abio) (i : nat) (b : buf) : Prop := {
  br_flags : flags b = 0 \/ flags b = 2 \/ flags b = 6;
  br_lock : block_lock b =
    match aopen a !! i with Some _ => Sleeplock true p | None => Sleeplock false 0 end;
  br_ref : refcnt b = match aopen a !! i with Some _ => 1 | None => 0 end;
  br_open : forall blk, aopen a !! i = Some blk -> flags b <> 0 /\ blockno b = blk;
  br_unused : flags b = 0 -> dev b = 0;
  br_valid : flags b <> 0 ->
    dev b = 1 /\ 0 <= blockno b < sz /\ data b = acontent a (blockno b);
  br_dirty : flags b <> 0 -> (flags b = 6 <-> blockno b ∈ adirty a)
}.

Record babs (s : bst) (a : abio) : Prop := {
  ba_ring : exists l, ring (bufs s) l;
  ba_rel : forall i, (i < NBUF)%nat -> buf_rel (disksize s) a i (bufs s i);
  ba_open : forall i blk, aopen a !! i = Some blk -> (i < NBUF)%nat;
  ba_uniq : forall i j, (i < NBUF)%nat -> (j < NBUF)%nat -> flags (bufs s i) <> 0 ->
    flags (bufs s j) <> 0 -> blockno (bufs s i) = blockno (bufs s j) -> i = j;
  ba_cached : forall blk, blk ∈ adirty a ->
    exists i, (i < NBUF)%nat /\ flags (bufs s i) = 6 /\ blockno (bufs s i) = blk;
  ba_disk : forall blk, disk s blk = adisk a blk;
  ba_clean : forall blk, 0 <= blk < disksize s -> blk ∉ adirty a ->
    (forall i, aopen a !! i <> Some blk) -> acontent a blk = adisk a blk;
  ba_writes : writes s = awrites a
}.

(** The links of a state. *)
Definition same_links (s s' : bst) : Prop :=
  forall i, next (bufs s' i) = next (bufs s i) /\ prev (bufs s' i) = prev (bufs s i).

Lemma ring_links s s' l : same_links s s' -> ring (bufs s) l -> ring (bufs s') l.
Proof. intros H [Hd Hp]. split; [|done]. revert Hd. apply dseg_ext; intros; apply H. Qed.

(** Scanning the list from its head. *)
Lemma bget_scan_next s test l : forall n a c,
  dseg (bufs s) a l HEAD -> HEAD ∉ l -> (length l <= n)%nat ->
  wp (bget_scan n next test (next (bufs s a))) c s (fun r c' s' => c' = c /\ s' = s /\
    match r with
    | Some b => b ∈ l /\ test (bufs s b) = true
    | None => forall b, b ∈ l -> test (bufs s b) = false
    end).
Proof.
  induction l as [|x l IH]; intros n a c Hd Hh Hn.
  - destruct Hd as [-> _]. destruct n; cbn [bget_scan]; rewrite Nat.eqb_refl; wp_step;
      split_and!; set_solver.
  - destruct Hd as (-> & _ & Hd). destruct n as [|n]; [simpl in Hn; lia|]. cbn [bget_scan].
    rewrite (proj2 (Nat.eqb_neq x HEAD)) by set_solver. do 2 wp_step.
    unfold id. destruct (test (bufs s x)) eqn:E.
    + wp_step. split_and!; [done..|set_solver|done].
    + eapply wp_mono; [|apply IH; [done|set_solver|simpl in Hn; lia]].
      intros r ? ? (-> & -> & H). split_and!; [done..|]. destruct r; set_solver.
Qed.

Lemma dseg_snoc f a l x c : dseg f a (l ++ [x]) c <-> dseg f a l x /\ next (f x) = c /\ prev (f c) = x.
Proof. apply dseg_app. Qed.

Lemma bget_scan_prev s test l : forall n a c,
  dseg (bufs s) HEAD l a -> HEAD ∉ l -> (length l <= n)%nat ->
  wp (bget_scan n prev test (prev (bufs s a))) c s (fun r c' s' => c' = c /\ s' = s /\
    match r with
    | Some b => b ∈ l /\ test (bufs s b) = true
    | None => forall b, b ∈ l -> test (bufs s b) = false
    end).
Proof.
  induction l as [|x l IH] using rev_ind; intros n a c Hd Hh Hn.
  - destruct Hd as [_ ->]. destruct n; cbn [bget_scan]; rewrite Nat.eqb_refl; wp_step;
      split_and!; set_solver.
  - apply dseg_snoc in Hd as (Hd & _ & ->). rewrite length_app in Hn.
    destruct n as [|n]; [simpl in Hn; lia|]. cbn [bget_scan].
    rewrite (proj2 (Nat.eqb_neq x HEAD)) by set_solver. do 2 wp_step.
    unfold id. destruct (test (bufs s x)) eqn:E.
    + wp_step. split_and!; [done..|set_solver|done].
    + eapply wp_mono; [|apply IH; [done|set_solver|simpl in Hn; lia]].
      intros r ? ? (-> & -> & H). split_and!; [done..|]. destruct r; set_solver.
Qed.

Lemma ring_elem f l i : ring f l -> i ∈ l <-> (i < NBUF)%nat.
Proof. intros [_ ->]. rewrite elem_of_seq. lia. Qed.

Lemma ring_facts f l : ring f l -> dseg f HEAD l HEAD /\ HEAD ∉ l /\ (length l = NBUF)%nat /\ NoDup l.
Proof.
  intros Hr. pose proof (ring_elem f l HEAD Hr) as He. destruct Hr as [Hd Hp]. split_and!.
  - done.
  - rewrite He. unfold HEAD. lia.
  - by rewrite Hp, length_seq.
  - rewrite Hp. apply NoDup_seq.
Qed.

Lemma babs_in_use s a i : babs s a -> (i < NBUF)%nat ->
  (refcnt (bufs s i) <> 0 \/ flags (bufs s i) = 6) ->
  flags (bufs s i) <> 0 /\ blockno (bufs s i) ∈ adirty a ∪ open_blocks a.
Proof.
  intros Ha Hi Hu. pose proof (ba_rel _ _ Ha i Hi) as Hr. destruct Hu as [Hu|Hu].
  - rewrite (br_ref _ _ _ _ Hr) in Hu. destruct (aopen a !! i) as [blk|] eqn:E; [|done].
    apply (br_open _ _ _ _ Hr) in E as Ho. destruct Ho as [? ->]. split; [done|].
    apply elem_of_union_r. apply elem_of_map_img. eauto.
  - split; [lia|]. apply elem_of_union_l. apply (br_dirty _ _ _ _ Hr); lia.
Qed.

(** Fewer blocks in use than buffers leave one to recycle. *)
Lemma babs_avail s a : babs s a -> (size (adirty a ∪ open_blocks a) < NBUF)%nat ->
  exists i, (i < NBUF)%nat /\ refcnt (bufs s i) = 0 /\ flags (bufs s i) <> 6.
Proof.
  intros Ha Hsz.
  destruct (decide (Exists (fun i => refcnt (bufs s i) = 0 /\ flags (bufs s i) <> 6) (seq 0 NBUF)))
    as [He|He].
  { apply Exists_exists in He as (i & Hi%elem_of_seq & H). exists i. split; [lia|done]. }
  exfalso.
  assert (Hall : forall i, (i < NBUF)%nat ->
    flags (bufs s i) <> 0 /\ blockno (bufs s i) ∈ adirty a ∪ open_blocks a).
  { intros i Hi. apply babs_in_use; [done..|].
    destruct (decide (refcnt (bufs s i) = 0)); [|by left].
    destruct (decide (flags (bufs s i) = 6)); [by right|]. destruct He. apply Exists_exists.
    exists i. split; [apply elem_of_seq; lia|done]. }
  set (l := (fun i => blockno (bufs s i)) <$> seq 0 NBUF).
  assert (Hl : NoDup l).
  { apply NoDup_fmap_2_strong; [|apply NoDup_seq].
    intros x y Hx%elem_of_seq Hy%elem_of_seq E.
    apply (ba_uniq _ _ Ha); [lia|lia|apply Hall; lia|apply Hall; lia|done]. }
  assert (Hsub : list_to_set l ⊆ adirty a ∪ open_blocks a).
  { intros blk Hb. apply elem_of_list_to_set in Hb.
    apply list_elem_of_fmap in Hb as (i & -> & Hi%elem_of_seq). apply Hall. lia. }
  apply subseteq_size in Hsub. rewrite size_list_to_set in Hsub by done.
  unfold l in Hsub. rewrite length_fmap, length_seq in Hsub. lia.
Qed.

Definition set_open (i : nat) (blk : Z) (a : abio) : abio :=
  Abio (acontent a) (adisk a) (awrites a) (<[i := blk]> (aopen a)) (adirty a).
Definition set_closed (i : nat) (a : abio) : abio :=
  Abio (acontent a) (adisk a) (awrites a) (delete i (aopen a)) (adirty a).
Definition set_content (blk : Z) (d : block) (a : abio) : abio :=
  Abio (<[blk := d]> (acontent a)) (adisk a) (awrites a) (aopen a) (adirty a).
Definition pin (blk : Z) (a : abio) : abio :=
  Abio (acontent a) (adisk a) (awrites a) (aopen a) ({[blk]} ∪ adirty a).
Definition flush (blk : Z) (a : abio) : abio :=
  Abio (acontent a) (<[blk := acontent a blk]> (adisk a)) (awrites a ++ [(blk, acontent a blk)])
    (aopen a) (adirty a ∖ {[blk]}).

(** [s'] differs from [s] in buffer [i] only, links excepted. *)
Record only_buf (i : nat) (s s' : bst) : Prop := {
  ob_links : same_links s s';
  ob_other : forall j, j <> i -> bufs s' j = bufs s j;
  ob_size : disksize s' = disksize s
}.

(** The effect of [bread]: buffer [i] becomes the open buffer of [blk]. *)
Lemma babs_opened s s' a i blk : babs s a -> only_buf i s s' ->
  (i < NBUF)%nat -> aopen a !! i = None -> (forall j, aopen a !! j <> Some blk) ->
  0 <= blk < disksize s ->
  (flags (bufs s i) = 6 -> blockno (bufs s i) = blk) ->
  (forall j, (j < NBUF)%nat -> j <> i -> flags (bufs s j) <> 0 -> blockno (bufs s j) <> blk) ->
  disk s' = disk s -> writes s' = writes s ->
  let b := bufs s' i in
  dev b = 1 -> blockno b = blk -> block_lock b = Sleeplock true p -> refcnt b = 1 ->
  data b = acontent a blk -> flags b = (if decide (blk ∈ adirty a) then 6 else 2) ->
  babs s' (set_open i blk a).
Proof.
  intros Ha [Hli Hot Hsz] Hi Hno Hnb Hbr Hpin Huq Hd Hw b B1 B2 B3 B4 B5 B6. constructor; simpl.
  - destruct (ba_ring _ _ Ha) as [l Hl]. exists l. by apply (ring_links s).
  - intros j Hj. rewrite Hsz. destruct (decide (j = i)) as [->|Hne].
    + fold b. constructor; simpl; rewrite ?lookup_insert_eq; try done; rewrite ?B6, ?B2.
      * case_match; auto.
      * intros ? [= <-]. split; [by case_match|done].
      * by case_match.
      * done.
      * intros _. case_match; split; done.
    + rewrite Hot by done. destruct (ba_rel _ _ Ha j Hj) as [R1 R2 R3 R4 R5 R6 R7].
      constructor; simpl; rewrite ?lookup_insert_ne by done; done.
  - intros j blk' [[-> _]|[_ H]]%lookup_insert_Some; [done|]. by apply (ba_open _ _ Ha) in H.
  - intros j k Hj Hk Fj Fk E.
    destruct (decide (j = i)) as [->|Hji], (decide (k = i)) as [->|Hki]; try done.
    + rewrite (Hot k) in Fk, E by done. fold b in E. rewrite B2 in E. by destruct (Huq k Hk Hki Fk).
    + rewrite (Hot j) in Fj, E by done. fold b in E. rewrite B2 in E. by destruct (Huq j Hj Hji Fj).
    + rewrite (Hot j) in Fj, E by done. rewrite (Hot k) in Fk, E by done.
      by apply (ba_uniq _ _ Ha).
  - intros blk' Hb'. destruct (decide (blk' = blk)) as [->|Hne].
    + exists i. fold b. rewrite B6, decide_True by done. done.
    + destruct (ba_cached _ _ Ha blk' Hb') as (j & Hj & F & E).
      assert (j <> i) by (intros ->; apply Hne; rewrite <- E; by apply Hpin).
      exists j. by rewrite Hot.
  - intros blk'. rewrite Hd. apply Ha.
  - intros blk' Hr Hn Ho. rewrite Hsz in Hr. apply (ba_clean _ _ Ha); try done. intros j E.
    apply (Ho j). rewrite lookup_insert_ne; [done|]. intros ->. congruence.
  - rewrite Hw. apply Ha.
Qed.

(** The sleep lock of an open buffer is the thread's. *)
Lemma holdingsleep_open s a i blk c (Q : bool -> ctx -> bst -> Prop) : babs s a ->
  aopen a !! i = Some blk -> mypid c = p -> Lbuf i ∉ held c ->
  Q true c s -> wp (buf_holdingsleep i) c s Q.
Proof.
  intros Ha Ho Hp Hc HQ. apply holdingsleep_wp; [done|].
  destruct (ba_rel _ _ Ha i (ba_open _ _ Ha _ _ Ho)) as [_ Hl _ _ _ _ _].
  rewrite Hl, Ho. cbn [locked lpid]. by rewrite Hp, Z.eqb_refl.
Qed.

Lemma upd_buf_other i f s j : j <> i -> bufs (upd_buf i f s) j = bufs s j.
Proof. intros. unfold upd_buf. simpl. by rewrite fn_lookup_insert_ne. Qed.
Lemma upd_buf_same i f s : bufs (upd_buf i f s) i = f (bufs s i).
Proof. unfold upd_buf. simpl. by rewrite fn_lookup_insert. Qed.

Lemma upd_buf_only i f s :
  (forall x, next (f x) = next x /\ prev (f x) = prev x) -> only_buf i s (upd_buf i f s).
Proof.
  intros Hf. constructor; [|by intros; apply upd_buf_other|done].
  intros j. destruct (decide (j = i)) as [->|]; [by rewrite upd_buf_same|by rewrite upd_buf_other].
Qed.

Lemma only_buf_trans i s1 s2 s3 : only_buf i s1 s2 -> only_buf i s2 s3 -> only_buf i s1 s3.
Proof.
  intros [H1 H2 H3] [G1 G2 G3]. constructor; [|intros; rewrite G2, H2; done|congruence].
  intros j. destruct (H1 j), (G1 j). split; congruence.
Qed.

(** Which buffer caches a block. *)
Lemma scan_key s a blk b : babs s a -> (b < NBUF)%nat ->
  (dev (bufs s b) =? 1) && (blockno (bufs s b) =? blk) = true <->
  flags (bufs s b) <> 0 /\ blockno (bufs s b) = blk.
Proof.
  intros Ha Hb. destruct (ba_rel _ _ Ha b Hb) as [R1 _ _ _ R5 R6 _].
  rewrite andb_true_iff, !Z.eqb_eq. split.
  - intros [E1 E2]. split; [|done]. intros F. apply R5 in F. lia.
  - intros [F E]. split; [|done]. by apply R6.
Qed.

Lemma flags_dirty x : flags x = 0 \/ flags x = 2 \/ flags x = 6 ->
  (Z.land (flags x) B_DIRTY =? 0) = negb (flags x =? 6).
Proof. by intros [-> | [-> | ->]]. Qed.

(** [bget] on a block the thread does not have open. *)
Definition bget_post (blk : Z) (s : bst) (a : abio) (i : nat) (s' : bst) : Prop :=
  (i < NBUF)%nat /\ aopen a !! i = None /\ only_buf i s s' /\
  disk s' = disk s /\ writes s' = writes s /\
  (forall j, (j < NBUF)%nat -> j <> i -> flags (bufs s j) <> 0 -> blockno (bufs s j) <> blk) /\
  (flags (bufs s i) = 6 -> blockno (bufs s i) = blk) /\
  let b := bufs s' i in
  dev b = 1 /\ blockno b = blk /\ block_lock b = Sleeplock true p /\ refcnt b = 1 /\
  ((flags b = flags (bufs s i) /\ data b = data (bufs s i) /\ flags (bufs s i) <> 0 /\
    blockno (bufs s i) = blk) \/
   (flags b = 0 /\ blk ∉ adirty a)).

Lemma bget_wp s a blk c : babs s a -> held c = [] -> mypid c = p ->
  (forall j, aopen a !! j <> Some blk) ->
  (blk ∈ adirty a \/ (size (adirty a ∪ open_blocks a) < NBUF)%nat) ->
  wp (bget 1 blk) c s (fun i c' s' => c' = c /\ bget_post blk s a i s').
Proof.
  intros Ha Hc Hp Hno Hcap. destruct (ba_ring _ _ Ha) as [l Hl].
  destruct (ring_facts _ _ Hl) as (Hd & Hh & Hlen & _).
  unfold bget. wp_step. wp_step; [rewrite Hc; set_solver|]. do 2 wp_step.
  wp_step. eapply wp_mono; [|apply bget_scan_next with (l := l); [done|done|lia]].
  intros r ? ? (-> & -> & Hr). destruct r as [b|].
  - destruct Hr as [Hb Ht]. rewrite (ring_elem _ _ _ Hl) in Hb.
    apply (scan_key s a blk b Ha Hb) in Ht as [F E].
    assert (Hnb : aopen a !! b = None).
    { destruct (aopen a !! b) as [blk'|] eqn:Eo; [|done]. exfalso.
      destruct (br_open _ _ _ _ (ba_rel _ _ Ha b Hb) _ Eo) as [_ E']. apply (Hno b). congruence. }
    destruct (ba_rel _ _ Ha b Hb) as [R1 R2 R3 R4 R5 R6 R7]. rewrite Hnb in R2, R3.
    wp_step. wp_step. wp_step. wp_step. rewrite Hc.
    wp_step. unfold buf_acquiresleep. apply acquiresleep_wp.
    { rewrite upd_buf_same. cbn. by rewrite R2. } { cbn. set_solver. }
    wp_step. split; [destruct c; simpl in *; by subst|]. split_and!; try done.
    + eapply only_buf_trans; apply upd_buf_only; done.
    + intros j Hj Hne Fj Ej. apply Hne. apply (ba_uniq _ _ Ha); try done. congruence.
    + rewrite !upd_buf_same. cbn. rewrite R3. split_and!; try done; [by apply R6|by rewrite Hp|].
      left. done.
  - assert (Hnk : forall b, (b < NBUF)%nat -> flags (bufs s b) <> 0 -> blockno (bufs s b) <> blk).
    { intros b Hb F E. rewrite <- (ring_elem _ _ _ Hl) in Hb. specialize (Hr b Hb).
      rewrite (ring_elem _ _ _ Hl) in Hb. apply not_true_iff_false in Hr. apply Hr.
      by apply (scan_key s a blk b Ha Hb). }
    assert (Hnd : blk ∉ adirty a).
    { intros Hin. destruct (ba_cached _ _ Ha _ Hin) as (i & Hi & F & E). apply (Hnk i); lia || done. }
    destruct Hcap as [?|Hcap]; [done|].
    do 2 wp_step. wp_step.
    eapply wp_mono; [|apply bget_scan_prev with (l := l); [done|done|lia]].
    intros r ? ? (-> & -> & Hr'). destruct r as [b|].
    + destruct Hr' as [Hb Ht]. rewrite (ring_elem _ _ _ Hl) in Hb.
      destruct (ba_rel _ _ Ha b Hb) as [R1 R2 R3 R4 R5 R6 R7].
      rewrite flags_dirty in Ht by done. apply andb_prop in Ht as [T1 T2].
      assert (Hnb : aopen a !! b = None) by (destruct (aopen a !! b); [lia|done]).
      rewrite Hnb in R2.
      wp_step. wp_step. wp_step. wp_step. rewrite Hc.
      wp_step. unfold buf_acquiresleep. apply acquiresleep_wp.
      { rewrite upd_buf_same. cbn. by rewrite R2. } { cbn. set_solver. }
      wp_step. split; [destruct c; simpl in *; by subst|]. split_and!; try done.
      * eapply only_buf_trans; apply upd_buf_only; done.
      * intros j Hj _ Fj. by apply Hnk.
      * intros F. lia.
      * rewrite !upd_buf_same. cbn. split_and!; try done; [by rewrite Hp|]. by right.
    + exfalso. destruct (babs_avail _ _ Ha Hcap) as (i & Hi & Z1 & Z2).
      assert (i ∈ l) as Hil by by rewrite (ring_elem _ _ _ Hl). specialize (Hr' i Hil).
      rewrite flags_dirty in Hr' by by apply (ba_rel _ _ Ha). lia.
Qed.

Lemma bread_wp s a blk c : babs s a -> held c = [] -> mypid c = p ->
  0 <= blk < disksize s -> (forall j, aopen a !! j <> Some blk) ->
  (blk ∈ adirty a \/ (size (adirty a ∪ open_blocks a) < NBUF)%nat) ->
  wp (bread 1 blk) c s (fun i c' s' => c' = c /\ disksize s' = disksize s /\
    aopen a !! i = None /\ babs s' (set_open i blk a)).
Proof.
  intros Ha Hc Hp Hb Hno Hcap. unfold bread. wp_step.
  eapply wp_mono; [|by apply bget_wp].
  intros i ? s1 (-> & Hi & Hnb & Hob & Hd & Hw & Huq & Hpin & B1 & B2 & B3 & B4 & Hcase).
  do 2 wp_step. destruct (ba_rel _ _ Ha i Hi) as [R1 R2 R3 R4 R5 R6 R7].
  destruct Hcase as [(F & D & F0 & E)|(F & Hnd)].
  - destruct (R6 F0) as (_ & _ & Hdat). specialize (R7 F0). rewrite E in Hdat, R7.
    wp_step. wp_step.
    { exfalso. rewrite F in H. destruct R1 as [R1 | [R1 | R1]]; rewrite R1 in *; by cbn in H. }
    wp_step. split_and!; try done; [apply Hob|]. apply (babs_opened s s1 a i blk); try done.
    + congruence.
    + rewrite F. destruct (decide (blk ∈ adirty a)) as [Hin|Hin]; [by apply R7|].
      destruct R1 as [R1 | [R1 | R1]]; [done|done|]. exfalso. apply Hin. by apply R7.
  - wp_step. wp_step; [|by rewrite F in H]. unfold iderw. wp_step. unfold buf_holdingsleep.
    apply holdingsleep_wp; [rewrite Hc; set_solver|]. rewrite B3. cbn [locked lpid].
    rewrite Hp, Z.eqb_refl. cbn [andb negb]. do 2 wp_step. unfold id.
    rewrite F, B1, B2.
    change (Z.land 0 (Z.lor B_VALID B_DIRTY) =? B_VALID) with false.
    change (negb (1 =? 1)) with false. cbn match. do 2 wp_step.
    rewrite (ob_size _ _ _ Hob), Z.geb_leb, (proj2 (Z.leb_gt _ _)) by lia.
    change (negb (Z.land 0 B_DIRTY =? 0)) with false. cbn match.
    wp_steps. split_and!; try done; [apply Hob|].
    apply (babs_opened s _ a i blk); try done; rewrite ?upd_buf_same; cbn; try done.
    + apply only_buf_trans with s1; [done|].
      eapply only_buf_trans; apply upd_buf_only; done.
    + rewrite Hd, (ba_disk _ _ Ha). symmetry. by apply (ba_clean _ _ Ha).
    + by rewrite F, decide_False.
Qed.

(** Changing the contents of an open buffer. *)
Lemma babs_set_data s a i blk d : babs s a -> aopen a !! i = Some blk ->
  babs (upd_buf i (set_data d) s) (set_content blk d a).
Proof.
  intros Ha Ho. pose proof (ba_open _ _ Ha _ _ Ho) as Hi.
  destruct (br_open _ _ _ _ (ba_rel _ _ Ha i Hi) _ Ho) as [Fi Ei].
  destruct (upd_buf_only i (set_data d) s) as [Hli Hot _]; [done|].
  assert (Hii : bufs (upd_buf i (set_data d) s) i = set_data d (bufs s i)) by apply upd_buf_same.
  set (s' := upd_buf i _ s) in *.
  assert (Hsame : forall j, flags (bufs s' j) = flags (bufs s j) /\
                            blockno (bufs s' j) = blockno (bufs s j)).
  { intros j. destruct (decide (j = i)) as [->|]; [by rewrite Hii|by rewrite Hot]. }
  assert (disksize s' = disksize s /\ disk s' = disk s /\ writes s' = writes s)
    as (Hsz & Hdk & Hwr) by done. clearbody s'.
  constructor; simpl; rewrite ?Hsz, ?Hdk, ?Hwr.
  - destruct (ba_ring _ _ Ha) as [l Hl]. exists l. by apply (ring_links s).
  - intros j Hj. destruct (ba_rel _ _ Ha j Hj) as [R1 R2 R3 R4 R5 R6 R7].
    destruct (decide (j = i)) as [->|Hne].
    + rewrite Hii. constructor; simpl; try done. intros F. destruct (R6 F) as (? & ? & ?).
      split_and!; try done; try lia. rewrite Ei. by rewrite fn_lookup_insert.
    + rewrite Hot by done. constructor; simpl; try done. intros F.
      destruct (R6 F) as (? & ? & ?). split_and!; try done; try lia.
      rewrite fn_lookup_insert_ne; [done|]. intros E. apply Hne. symmetry.
      apply (ba_uniq _ _ Ha); try done. congruence.
  - apply Ha.
  - intros j k Hj Hk. destruct (Hsame j) as [-> ->], (Hsame k) as [-> ->]. by apply Ha.
  - intros blk' Hb. destruct (ba_cached _ _ Ha blk' Hb) as (j & Hj & F & E). exists j.
    destruct (Hsame j) as [-> ->]. done.
  - apply Ha.
  - intros blk' Hb Hn Hno. rewrite fn_lookup_insert_ne; [by apply (ba_clean _ _ Ha)|].
    intros ->. by apply (Hno i).
  - apply Ha.
Qed.

(** [b->flags |= B_DIRTY] on an open buffer pins it. *)
Lemma babs_pin s a i blk : babs s a -> aopen a !! i = Some blk ->
  babs (upd_buf i (fun x => set_flags (Z.lor (flags x) B_DIRTY) x) s) (pin blk a).
Proof.
  intros Ha Ho. pose proof (ba_open _ _ Ha _ _ Ho) as Hi.
  pose proof (ba_rel _ _ Ha i Hi) as Hri. destruct (br_open _ _ _ _ Hri _ Ho) as [Fi Ei].
  assert (F6 : Z.lor (flags (bufs s i)) B_DIRTY = 6).
  { destruct (br_flags _ _ _ _ Hri) as [E | [E | E]]; rewrite E; done. }
  destruct (upd_buf_only i (fun x => set_flags (Z.lor (flags x) B_DIRTY) x) s) as [Hli Hot _]; [done|].
  set (s' := upd_buf i _ s) in *.
  assert (Hii : bufs s' i = set_flags 6 (bufs s i)) by (unfold s'; by rewrite upd_buf_same, F6).
  assert (Hb : forall j, blockno (bufs s' j) = blockno (bufs s j) /\
                         (flags (bufs s' j) <> 0 -> flags (bufs s j) <> 0)).
  { intros j. destruct (decide (j = i)) as [->|]; [by rewrite Hii|by rewrite Hot]. }
  assert (disksize s' = disksize s /\ disk s' = disk s /\ writes s' = writes s)
    as (Hsz & Hdk & Hwr) by done. clearbody s'.
  constructor; simpl; rewrite ?Hsz, ?Hdk, ?Hwr.
  - destruct (ba_ring _ _ Ha) as [l Hl]. exists l. by apply (ring_links s).
  - intros j Hj. destruct (ba_rel _ _ Ha j Hj) as [R1 R2 R3 R4 R5 R6 R7].
    destruct (decide (j = i)) as [->|Hne].
    + rewrite Hii. constructor; simpl; try done; [by auto|set_solver..].
    + rewrite Hot by done. constructor; simpl; try done. intros F. rewrite (R7 F).
      assert (blockno (bufs s j) <> blk); [|set_solver]. intros E. apply Hne.
      apply (ba_uniq _ _ Ha); try done. congruence.
  - apply Ha.
  - intros j k Hj Hk Fj Fk. destruct (Hb j) as [-> Gj], (Hb k) as [-> Gk]. apply Ha; auto.
  - intros blk' Hin. destruct (decide (blk' = blk)) as [->|Hne].
    + exists i. by rewrite Hii.
    + destruct (ba_cached _ _ Ha blk') as (j & Hj & F & E); [set_solver|]. exists j.
      rewrite Hot; [done|]. intros ->. congruence.
  - apply Ha.
  - intros blk' Hr Hn Hno. apply (ba_clean _ _ Ha); [done|set_solver|done].
  - apply Ha.
Qed.

(** Writing an open buffer through to the disk. *)
Lemma babs_flush s s' a i blk : babs s a -> aopen a !! i = Some blk -> only_buf i s s' ->
  disk s' = <[blk := acontent a blk]> (disk s) ->
  writes s' = writes s ++ [(blk, acontent a blk)] ->
  bufs s' i = set_flags 2 (bufs s i) -> babs s' (flush blk a).
Proof.
  intros Ha Ho [Hli Hot Hsz] Hd Hw Hii. pose proof (ba_open _ _ Ha _ _ Ho) as Hi.
  destruct (br_open _ _ _ _ (ba_rel _ _ Ha i Hi) _ Ho) as [Fi Ei].
  assert (Hb : forall j, blockno (bufs s' j) = blockno (bufs s j) /\
                         (flags (bufs s' j) <> 0 -> flags (bufs s j) <> 0)).
  { intros j. destruct (decide (j = i)) as [->|]; [by rewrite Hii|by rewrite Hot]. }
  constructor; simpl; rewrite ?Hsz.
  - destruct (ba_ring _ _ Ha) as [l Hl]. exists l. by apply (ring_links s).
  - intros j Hj. destruct (ba_rel _ _ Ha j Hj) as [R1 R2 R3 R4 R5 R6 R7].
    destruct (decide (j = i)) as [->|Hne].
    + rewrite Hii. constructor; simpl; try done; [by auto|set_solver..].
    + rewrite Hot by done. constructor; simpl; try done. intros F. rewrite (R7 F).
      assert (blockno (bufs s j) <> blk); [|set_solver]. intros E. apply Hne.
      apply (ba_uniq _ _ Ha); try done. congruence.
  - apply Ha.
  - intros j k Hj Hk Fj Fk. destruct (Hb j) as [-> Gj], (Hb k) as [-> Gk]. apply Ha; auto.
  - intros blk' Hin. destruct (ba_cached _ _ Ha blk') as (j & Hj & F & E); [set_solver|]. exists j.
    rewrite Hot; [done|]. intros ->. set_solver.
  - intros blk'. rewrite Hd. destruct (decide (blk' = blk)) as [->|].
    + by rewrite !fn_lookup_insert.
    + rewrite !fn_lookup_insert_ne by done. apply Ha.
  - intros blk' Hr Hn Hno. destruct (decide (blk' = blk)) as [->|].
    + by rewrite !fn_lookup_insert.
    + rewrite fn_lookup_insert_ne by done. apply (ba_clean _ _ Ha); [done|set_solver|done].
  - rewrite Hw. by rewrite (ba_writes _ _ Ha).
Qed.

Lemma bwrite_wp s a i blk c : babs s a -> held c = [] -> mypid c = p ->
  aopen a !! i = Some blk ->
  wp (bwrite i) c s (fun _ c' s' => c' = c /\ disksize s' = disksize s /\ babs s' (flush blk a)).
Proof.
  intros Ha Hc Hp Ho. pose proof (ba_open _ _ Ha _ _ Ho) as Hi.
  pose proof (ba_rel _ _ Ha i Hi) as Hri. destruct (br_open _ _ _ _ Hri _ Ho) as [Fi Ei].
  assert (F6 : Z.lor (flags (bufs s i)) B_DIRTY = 6).
  { destruct (br_flags _ _ _ _ Hri) as [E | [E | E]]; rewrite E; done. }
  destruct (br_valid _ _ _ _ Hri Fi) as (D1 & D2 & D3). rewrite Ei in D2, D3.
  unfold bwrite. wp_step. eapply holdingsleep_open; try done; [rewrite Hc; set_solver|].
  cbn [negb]. wp_step. wp_step. set (s1 := upd_buf i _ s).
  assert (H1i : bufs s1 i = set_flags 6 (bufs s i)) by (unfold s1; by rewrite upd_buf_same, F6).
  assert (Hob1 : only_buf i s s1) by by apply upd_buf_only.
  unfold iderw. wp_step. apply holdingsleep_wp; [rewrite Hc; set_solver|]. rewrite H1i.
  cbn [block_lock set_flags]. rewrite (br_lock _ _ _ _ Hri), Ho. cbn [locked lpid].
  rewrite Hp, Z.eqb_refl. cbn [andb negb]. do 2 wp_step. unfold id. rewrite H1i.
  cbn [flags set_flags dev blockno data]. rewrite D1, Ei.
  change (Z.land 6 (Z.lor B_VALID B_DIRTY) =? B_VALID) with false.
  change (negb (1 =? 1)) with false. cbn match. do 2 wp_step.
  change (disksize s1) with (disksize s). rewrite Z.geb_leb, (proj2 (Z.leb_gt _ _)) by lia.
  change (negb (Z.land 6 B_DIRTY =? 0)) with true. cbn match. wp_steps.
  split_and!; try done.
  assert (Hob2 : only_buf i s (upd_buf i (set_flags (Z.land 6 (Z.lnot B_DIRTY))) s1)).
  { eapply only_buf_trans; [done|]. by apply upd_buf_only. }
  eapply (babs_flush s _ a i blk); try done.
  - constructor.
    + intros j. simpl. rewrite fn_lookup_insert. destruct (decide (j = i)) as [->|Hne].
      * by rewrite !fn_lookup_insert.
      * by rewrite !fn_lookup_insert_ne by done.
    + intros j Hne. simpl. by rewrite !fn_lookup_insert_ne by done.
    + done.
  - simpl. by rewrite D3.
  - simpl. by rewrite D3.
  - simpl. by rewrite !fn_lookup_insert, F6.
Qed.

(** A buffer without its links. *)
Definition strip (b : buf) : buf := set_prev 0 (set_next 0 b).

Lemma buf_rel_strip sz a i b b' : strip b = strip b' -> buf_rel sz a i b -> buf_rel sz a i b'.
Proof.
  destruct b, b'. unfold strip. simpl. intros [=]. subst. intros [R1 R2 R3 R4 R5 R6 R7].
  by constructor.
Qed.

(** Moving buffer [b] to the front of the list, as [brelse] does it. *)
Definition move_first (b : nat) (s : bst) : bst :=
  let s := upd_buf (next (bufs s b)) (set_prev (prev (bufs s b))) s in
  let s := upd_buf (prev (bufs s b)) (set_next (next (bufs s b))) s in
  let s := upd_buf b (set_next (next (bufs s HEAD))) s in
  let s := upd_buf b (set_prev HEAD) s in
  let s := upd_buf (next (bufs s HEAD)) (set_prev b) s in
  upd_buf HEAD (set_next b) s.

Lemma next_set_prev i v s j : next (bufs (upd_buf i (set_prev v) s) j) = next (bufs s j).
Proof. simpl. destruct (decide (j = i)) as [->|]; [by rewrite fn_lookup_insert|by rewrite fn_lookup_insert_ne]. Qed.
Lemma prev_set_next i v s j : prev (bufs (upd_buf i (set_next v) s) j) = prev (bufs s j).
Proof. simpl. destruct (decide (j = i)) as [->|]; [by rewrite fn_lookup_insert|by rewrite fn_lookup_insert_ne]. Qed.
Lemma next_set_next i v s j :
  next (bufs (upd_buf i (set_next v) s) j) = if Nat.eqb j i then v else next (bufs s j).
Proof. simpl. destruct (Nat.eqb_spec j i) as [->|]; [by rewrite fn_lookup_insert|by rewrite fn_lookup_insert_ne]. Qed.
Lemma prev_set_prev i v s j :
  prev (bufs (upd_buf i (set_prev v) s) j) = if Nat.eqb j i then v else prev (bufs s j).
Proof. simpl. destruct (Nat.eqb_spec j i) as [->|]; [by rewrite fn_lookup_insert|by rewrite fn_lookup_insert_ne]. Qed.
Lemma strip_set_prev i v s j : strip (bufs (upd_buf i (set_prev v) s) j) = strip (bufs s j).
Proof. simpl. destruct (decide (j = i)) as [->|]; [by rewrite fn_lookup_insert|by rewrite fn_lookup_insert_ne]. Qed.
Lemma strip_set_next i v s j : strip (bufs (upd_buf i (set_next v) s) j) = strip (bufs s j).
Proof. simpl. destruct (decide (j = i)) as [->|]; [by rewrite fn_lookup_insert|by rewrite fn_lookup_insert_ne]. Qed.

Lemma move_first_strip b s j : strip (bufs (move_first b s) j) = strip (bufs s j).
Proof. unfold move_first. cbv zeta. by rewrite !strip_set_next, !strip_set_prev, !strip_set_next, !strip_set_prev. Qed.

(** Inserting [b] after the head of a list that does not contain it. *)
Lemma link_ring s l b : dseg (bufs s) HEAD l HEAD -> b ∉ HEAD :: l -> HEAD ∉ l -> NoDup l ->
  dseg (bufs (upd_buf HEAD (set_next b)
    (upd_buf (next (bufs s HEAD)) (set_prev b)
      (upd_buf b (set_prev HEAD) (upd_buf b (set_next (next (bufs s HEAD))) s))))) HEAD (b :: l) HEAD.
Proof.
  intros Hd Hb Hh Hn. eapply (dseg_link (bufs s)); try done; [set_solver|..].
  - intros x. rewrite next_set_next, !next_set_prev, next_set_next. done.
  - intros x. rewrite prev_set_next, !prev_set_prev, prev_set_next. done.
Qed.

Lemma move_first_ring s l b : ring (bufs s) l -> b ∈ l ->
  exists l1 l2, l = l1 ++ b :: l2 /\ ring (bufs (move_first b s)) (b :: l1 ++ l2).
Proof.
  intros Hr Hb. destruct (ring_facts _ _ Hr) as (Hd & Hh & _ & Hn). destruct Hr as [_ Hp].
  apply list_elem_of_split in Hb as (l1 & l2 & ->). exists l1, l2. split; [done|].
  apply dseg_app in Hd as [H1 H2]. pose proof Hn as Hn'. apply NoDup_app in Hn' as (N1 & N12 & N2).
  apply NoDup_cons in N2 as [Nb N2].
  set (q := next (bufs s b)). set (pr := prev (bufs s b)).
  assert (Hbq : b <> q).
  { intros E. apply dseg_first in H2. fold q in H2. rewrite <- E in H2. set_solver. }
  assert (Hbp : b <> pr).
  { intros E. apply dseg_last in H1. fold pr in H1. rewrite <- E in H1. set_solver. }
  split; [|rewrite <- Hp; apply Permutation_middle].
  set (s2 := upd_buf pr (set_next q) (upd_buf q (set_prev pr) s)).
  assert (Hd2 : dseg (bufs s2) HEAD (l1 ++ l2) HEAD).
  { eapply dseg_unlink; [apply H1|apply H2|apply NoDup_cons; done|done|]. split; intros x.
    - unfold s2. by rewrite next_set_next, next_set_prev.
    - unfold s2. by rewrite prev_set_next, prev_set_prev. }
  assert (Hm : move_first b s = upd_buf HEAD (set_next b)
    (upd_buf (next (bufs s2 HEAD)) (set_prev b)
      (upd_buf b (set_prev HEAD) (upd_buf b (set_next (next (bufs s2 HEAD))) s2)))).
  { unfold move_first. cbv zeta. fold q pr.
    rewrite (upd_buf_other q (set_prev pr) s b Hbq). fold q pr. fold s2.
    f_equal. rewrite next_set_prev, next_set_next.
    rewrite (proj2 (Nat.eqb_neq HEAD b)); [done|]. set_solver. }
  rewrite Hm. apply link_ring; try done; [set_solver|set_solver|].
  apply NoDup_app. split_and!; [done| |done]. set_solver.
Qed.

Lemma babs_closed s s' a i blk : babs s a -> aopen a !! i = Some blk ->
  (blk ∈ adirty a \/ acontent a blk = adisk a blk) ->
  disksize s' = disksize s -> disk s' = disk s -> writes s' = writes s ->
  (exists l, ring (bufs s') l) ->
  (forall j, j <> i -> strip (bufs s' j) = strip (bufs s j)) ->
  strip (bufs s' i) = strip (set_refcnt 0 (set_lock (Sleeplock false 0) (bufs s i))) ->
  babs s' (set_closed i a).
Proof.
  intros Ha Ho Hcl Hsz Hd Hw Hring Hot Hii. pose proof (ba_open _ _ Ha _ _ Ho) as Hi.
  destruct (br_open _ _ _ _ (ba_rel _ _ Ha i Hi) _ Ho) as [Fi Ei].
  assert (Hb : forall j, blockno (bufs s' j) = blockno (bufs s j) /\
                         flags (bufs s' j) = flags (bufs s j)).
  { intros j. destruct (decide (j = i)) as [->|Hne].
    - split; [apply (f_equal blockno) in Hii|apply (f_equal flags) in Hii]; done.
    - specialize (Hot j Hne). split; [apply (f_equal blockno) in Hot|apply (f_equal flags) in Hot]; done. }
  constructor; simpl; rewrite ?Hsz, ?Hd, ?Hw; try apply Ha.
  - done.
  - intros j Hj. destruct (decide (j = i)) as [->|Hne].
    + eapply buf_rel_strip; [symmetry; exact Hii|].
      destruct (ba_rel _ _ Ha i Hi) as [R1 R2 R3 R4 R5 R6 R7].
      constructor; simpl; rewrite ?lookup_delete_eq; try done; intros; naive_solver.
    + eapply buf_rel_strip; [symmetry; by apply Hot|].
      destruct (ba_rel _ _ Ha j Hj) as [R1 R2 R3 R4 R5 R6 R7].
      constructor; simpl; rewrite ?lookup_delete_ne by done; done.
  - intros j blk' [_ H]%lookup_delete_Some. by apply (ba_open _ _ Ha) in H.
  - intros j k Hj Hk. destruct (Hb j) as [-> ->], (Hb k) as [-> ->]. by apply Ha.
  - intros blk' Hin. destruct (ba_cached _ _ Ha blk' Hin) as (j & Hj & F & E). exists j.
    destruct (Hb j) as [-> ->]. done.
  - intros blk' Hr Hn Hno. destruct (decide (blk' = blk)) as [->|Hne]; [naive_solver|].
    apply (ba_clean _ _ Ha); [done..|]. intros j E. apply (Hno j).
    rewrite lookup_delete_ne; [done|]. intros ->. congruence.
Qed.

Lemma brelse_full_wp s a i blk c : babs s a -> held c = [] -> mypid c = p ->
  aopen a !! i = Some blk -> (blk ∈ adirty a \/ acontent a blk = adisk a blk) ->
  wp (brelse i) c s (fun _ c' s' => c' = add_woken (ChBufLock i) c /\
    disksize s' = disksize s /\ babs s' (set_closed i a) /\
    forall l, ring (bufs s) l -> exists l1 l2, l = l1 ++ i :: l2 /\ ring (bufs s') (i :: l1 ++ l2)).
Proof.
  intros Ha Hc Hp Ho Hcl. pose proof (ba_open _ _ Ha _ _ Ho) as Hi.
  pose proof (ba_rel _ _ Ha i Hi) as Hri.
  unfold brelse. wp_step. eapply holdingsleep_open; try done; [rewrite Hc; set_solver|].
  cbn [negb]. wp_step. apply releasesleep_wp; [by rewrite Hc; set_solver|by rewrite Hc; set_solver|done|].
  wp_step. wp_step; [cbn; rewrite Hc; set_solver|]. wp_step. wp_step.
  set (s1 := upd_buf i (fun x => set_refcnt (u32 (refcnt x - 1)) x) _).
  assert (H1i : bufs s1 i = set_refcnt 0 (set_lock (Sleeplock false 0) (bufs s i))).
  { unfold s1. rewrite !upd_buf_same. cbn. by rewrite (br_ref _ _ _ _ Hri), Ho. }
  assert (Hob : only_buf i s s1).
  { eapply only_buf_trans; apply upd_buf_only; done. }
  do 2 wp_step. rewrite H1i. cbn [refcnt set_refcnt]. wp_step. wp_step; [|done].
  unfold link_first. wp_steps.
  assert (Hlru : forall l, ring (bufs s) l ->
    exists l1 l2, l = l1 ++ i :: l2 /\ ring (bufs (move_first i s1)) (i :: l1 ++ l2)).
  { intros l Hl. apply (ring_links _ s1) in Hl; [|apply Hob]. apply move_first_ring; [done|].
    by rewrite (ring_elem _ _ _ Hl). }
  split_and!; [destruct c; simpl in *; by rewrite Hc|apply Hob| |exact Hlru].
  change (babs (move_first i s1) (set_closed i a)).
  apply (babs_closed s _ a i blk); try done.
  - destruct (ba_ring _ _ Ha) as [l Hl]. destruct (Hlru l Hl) as (l1 & l2 & _ & Hr). eauto.
  - intros j Hne. rewrite move_first_strip. by rewrite (ob_other _ _ _ Hob).
  - by rewrite move_first_strip, H1i.
Qed.

Lemma brelse_wp s a i blk c : babs s a -> held c = [] -> mypid c = p ->
  aopen a !! i = Some blk -> (blk ∈ adirty a \/ acontent a blk = adisk a blk) ->
  wp (brelse i) c s (fun _ c' s' => c' = add_woken (ChBufLock i) c /\
    disksize s' = disksize s /\ babs s' (set_closed i a)).
Proof.
  intros Ha Hc Hp Ho Hcl. eapply wp_mono; [|by apply (brelse_full_wp s a i blk c)].
  intros _ c' s' (? & ? & ? & _). done.
Qed.
End abstraction.

(** * Start-up *)

Section binit.
(** The cache as the loader leaves it: every buffer zero. *)
Definition boot_bst (sz : Z) (D : Z -> block) : bst := Bst (fun _ => buf0) sz D [].

(** What the loop keeps: nothing but links changes. *)
Record blank (s s' : bst) : Prop := {
  bl_strip : forall j, strip (bufs s' j) = strip buf0;
  bl_size : disksize s' = disksize s;
  bl_disk : disk s' = disk s;
  bl_writes : writes s' = writes s
}.

Lemma links_set_lock i v s j :
  next (bufs (upd_buf i (set_lock v) s) j) = next (bufs s j) /\
  prev (bufs (upd_buf i (set_lock v) s) j) = prev (bufs s j).
Proof.
  simpl. destruct (decide (j = i)) as [->|]; [by rewrite fn_lookup_insert|].
  by rewrite fn_lookup_insert_ne.
Qed.

Lemma strip_init i s j : strip (bufs s i) = strip buf0 ->
  strip (bufs (upd_buf i (set_lock initsleeplock) s) j) = strip (bufs s j).
Proof.
  intros H. simpl. destruct (decide (j = i)) as [->|]; [|by rewrite fn_lookup_insert_ne].
  rewrite fn_lookup_insert. apply (f_equal block_lock) in H. revert H. destruct (bufs s i).
  cbn. by intros ->.
Qed.

Lemma binit_loop_wp n : forall i s0 s c, (i + n <= NBUF)%nat ->
  dseg (bufs s) HEAD (reverse (seq 0 i)) HEAD -> blank s0 s ->
  wp (binit_loop n i) c s (fun _ c' s' => c' = c /\ blank s0 s' /\
    dseg (bufs s') HEAD (reverse (seq 0 (i + n))) HEAD).
Proof.
  induction n as [|n IH]; intros i s0 s c Hi Hd [Hb1 Hb2 Hb3 Hb4].
  { cbn [binit_loop]. wp_step. by rewrite Nat.add_0_r. }
  cbn [binit_loop]. wp_steps.
  replace (i + S n)%nat with (S i + n)%nat by lia. apply IH; [lia| |].
  - rewrite seq_S, reverse_app. cbn [reverse rev_append app Nat.add].
    assert (Hin : forall x, x ∈ reverse (seq 0 i) -> (x < i)%nat).
    { intros x Hx. rewrite elem_of_reverse, elem_of_seq in Hx. lia. }
    apply (dseg_link (bufs s)); try done.
    + intros [->|Hx%Hin]%elem_of_cons; unfold HEAD in *; lia.
    + unfold HEAD. lia.
    + intros Hx%Hin. unfold HEAD in Hx. lia.
    + intros Hx%Hin. unfold HEAD in Hx. lia.
    + rewrite reverse_Permutation. apply NoDup_seq.
    + intros x. rewrite next_set_next, next_set_prev. destruct (links_set_lock i initsleeplock
        (upd_buf i (set_prev HEAD) (upd_buf i (set_next (next (bufs s HEAD))) s)) x) as [-> _].
      by rewrite next_set_prev, next_set_next.
    + intros x. rewrite prev_set_next, prev_set_prev.
      set (s3 := upd_buf i (set_prev HEAD) _).
      destruct (links_set_lock i initsleeplock s3 x) as [_ ->].
      destruct (links_set_lock i initsleeplock s3 HEAD) as [-> _].
      unfold s3. rewrite next_set_prev, next_set_next, prev_set_prev, prev_set_next.
      rewrite (proj2 (Nat.eqb_neq HEAD i)); [done|]. unfold HEAD. lia.
  - constructor; [|done..]. intros j. rewrite strip_set_next, strip_set_prev, strip_init.
    + by rewrite strip_set_prev, strip_set_next.
    + by rewrite strip_set_prev, strip_set_next.
Qed.

(** After [binit] the cache is empty and every block's contents are the
    disk's. *)
Lemma binit_wp p sz D c :
  wp binit c (boot_bst sz D) (fun _ c' s' => c' = c /\ disksize s' = sz /\
    babs p s' (Abio D D [] ∅ ∅)).
Proof.
  unfold binit. do 2 wp_step. do 2 wp_step. set (s1 := upd_buf HEAD _ _).
  eapply wp_mono; [|apply (binit_loop_wp NBUF 0 s1 s1)]; [|lia|by vm_compute|].
  2: { constructor; try done. intros j. unfold s1. by rewrite strip_set_next, strip_set_prev. }
  intros _ ? s' (-> & [Hb1 Hb2 Hb3 Hb4] & Hd). split_and!; [done..|].
  assert (Hz : forall j, flags (bufs s' j) = 0 /\ dev (bufs s' j) = 0 /\ refcnt (bufs s' j) = 0 /\
                   block_lock (bufs s' j) = Sleeplock false 0).
  { intros j. specialize (Hb1 j).
    split_and!; [apply (f_equal flags) in Hb1|apply (f_equal dev) in Hb1|
      apply (f_equal refcnt) in Hb1|apply (f_equal block_lock) in Hb1]; exact Hb1. }
  constructor; simpl; try done.
  - eexists. split; [exact Hd|]. by rewrite reverse_Permutation.
  - intros i Hi. destruct (Hz i) as (F & Dv & R & L). constructor; simpl; rewrite ?lookup_empty; try done.
    by left.
  - intros i j _ _ F. by rewrite (proj1 (Hz i)) in F.
  - set_solver.
Qed.
End binit.

(** * Contracts *)

(** C27: [bread] of a block nobody holds returns a locked buffer with the
    block's logical contents (the cached copy if there is one, the disk's
    otherwise); no block's contents, no pinned block and nothing on the disk
    changes, even when another buffer had to be recycled. *)
Theorem bread_correct p s a blk c : babs p s a -> held c = [] -> mypid c = p ->
  0 <= blk < disksize s -> (forall j, aopen a !! j <> Some blk) ->
  (blk ∈ adirty a \/ (size (adirty a ∪ open_blocks a) < NBUF)%nat) ->
  wp (bread 1 blk) c s (fun i c' s' => c' = c /\ data (bufs s' i) = acontent a blk /\
    block_lock (bufs s' i) = Sleeplock true p /\ writes s' = writes s /\
    (forall b, disk s' b = disk s b) /\ babs p s' (set_open i blk a)).
Proof.
  intros Ha Hc Hp Hb Hno Hcap. eapply wp_mono; [|by apply (bread_wp p s a)].
  intros i ? s' (-> & Hs & Hi & Ha').
  assert (Ho : aopen (set_open i blk a) !! i = Some blk) by apply lookup_insert_eq.
  pose proof (ba_rel _ _ _ Ha' i (ba_open _ _ _ Ha' _ _ Ho)) as Hr.
  destruct (br_open _ _ _ _ _ Hr _ Ho) as [F E].
  destruct (br_valid _ _ _ _ _ Hr F) as (_ & _ & Hd). rewrite E in Hd.
  split_and!; try done.
  - by rewrite (br_lock _ _ _ _ _ Hr), Ho.
  - rewrite (ba_writes _ _ _ Ha'). by rewrite (ba_writes _ _ _ Ha).
  - intros b. rewrite (ba_disk _ _ _ Ha'). by rewrite (ba_disk _ _ _ Ha).
Qed.

(** When the last reference to a buffer is released it becomes the most
    recently used one and the order of the others does not change. *)
Theorem brelse_most_recent p s a i blk c l : babs p s a -> ring (bufs s) l ->
  held c = [] -> mypid c = p ->
  aopen a !! i = Some blk -> (blk ∈ adirty a \/ acontent a blk = adisk a blk) ->
  wp (brelse i) c s (fun _ c' s' => babs p s' (set_closed i a) /\
    exists l1 l2, l = l1 ++ i :: l2 /\ ring (bufs s') (i :: l1 ++ l2)).
Proof.
  intros Ha Hl Hc Hp Ho Hcl. eapply wp_mono; [|by apply (brelse_full_wp p s a i blk c)].
  intros _ c' s' (_ & _ & Ha' & Hr). split; [done|by apply Hr].
Qed.

(** * Examples *)

(** A disk with an empty log at blocks 2 to 31, and a cache whose buffer 0
    holds a modified block 40. *)
Definition ex_sb : block := put32 (put32 zero_block 12 30) 16 2.
Definition ex_disk : Z -> block := <[1 := ex_sb]> (fun _ => zero_block).
Definition ex_new : block := put32 zero_block 0 7.
Definition ex_bufs (i : nat) : buf :=
  let p := if Nat.eqb i 0 then HEAD else pred i in
  let n := if Nat.eqb i HEAD then 0%nat else S i in
  if Nat.eqb i 0 then Buf 6 1 40 initsleeplock 0 p n ex_new
  else Buf 0 0 0 initsleeplock 0 p n zero_block.
Definition ex_bst : bst := Bst ex_bufs 1000 ex_disk [].
Definition ex_abio : abio := Abio (<[40 := ex_new]> ex_disk) ex_disk [] ∅ {[40]}.

Lemma ex_buf_unused i : i <> 0%nat -> flags (ex_bufs i) = 0 /\ dev (ex_bufs i) = 0 /\
  refcnt (ex_bufs i) = 0 /\ block_lock (ex_bufs i) = Sleeplock false 0.
Proof. intros Hi. unfold ex_bufs. by rewrite (proj2 (Nat.eqb_neq i 0) Hi). Qed.

Lemma ex_babs : babs 1 ex_bst ex_abio.
Proof.
  constructor; cbn [bufs disksize disk writes ex_bst acontent adisk awrites aopen adirty ex_abio].
  - exists (seq 0 NBUF). split; [by vm_compute|done].
  - intros [|i] Hi.
    + constructor; cbn; try done. by auto.
    + destruct (ex_buf_unused (S i)) as (F & Dv & R & L); [done|].
      constructor; cbn [aopen adirty acontent ex_abio]; rewrite ?lookup_empty, ?F, ?Dv, ?R, ?L; try done.
      by left.
  - intros i blk H. by rewrite lookup_empty in H.
  - intros i j _ _ Fi Fj _. destruct (decide (i = 0%nat)) as [->|Hi].
    + destruct (decide (j = 0%nat)) as [->|Hj]; [done|]. by destruct (ex_buf_unused j Hj) as [F _].
    + by destruct (ex_buf_unused i Hi) as [F _].
  - intros blk ->%elem_of_singleton. exists 0%nat. unfold NBUF. split; [lia|done].
  - done.
  - intros blk _ Hn _. apply fn_lookup_insert_ne. set_solver.
  - done.
Qed.

(** Buffer 0 open on block 40, modified but not yet logged. *)
Definition ex3_bufs (i : nat) : buf :=
  let b := ex_bufs i in
  if Nat.eqb i 0 then Buf 2 1 40 (Sleeplock true 1) 1 (prev b) (next b) ex_new else b.
Definition ex3_bst : bst := Bst ex3_bufs 1000 ex_disk [].
Definition ex3_abio : abio := Abio (<[40 := ex_new]> ex_disk) ex_disk [] {[0%nat := 40]} ∅.

Lemma ex3_babs : babs 1 ex3_bst ex3_abio.
Proof.
  assert (Hu : forall i, i <> 0%nat -> ex3_bufs i = ex_bufs i).
  { intros i Hi. unfold ex3_bufs. by rewrite (proj2 (Nat.eqb_neq i 0) Hi). }
  constructor; cbn [ex3_bst bufs disksize disk writes acontent adisk awrites aopen adirty ex3_abio].
  - exists (seq 0 NBUF). split; [by vm_compute|done].
  - intros [|i] Hi.
    + constructor; cbn; rewrite ?lookup_singleton_eq; try done; [by auto|by intros blk [= <-]].
    + rewrite Hu by done. destruct (ex_buf_unused (S i)) as (F & Dv & R & L); [done|].
      constructor; cbn [aopen adirty acontent ex3_abio];
        rewrite ?lookup_singleton_ne, ?F, ?Dv, ?R, ?L by done; try done. by left.
  - intros i blk [<- _]%lookup_singleton_Some. unfold NBUF. lia.
  - intros i j _ _ Fi Fj _. destruct (decide (i = 0%nat)) as [->|Hi].
    + destruct (decide (j = 0%nat)) as [->|Hj]; [done|]. rewrite Hu in Fj by done.
      by destruct (ex_buf_unused j Hj) as [F _].
    + rewrite Hu in Fi by done. by destruct (ex_buf_unused i Hi) as [F _].
  - set_solver.
  - done.
  - intros blk _ _ Hn. apply fn_lookup_insert_ne. intros <-. by apply (Hn 0%nat).
  - done.
Qed.


Lemma bread_correct_witness :
  wp (bread 1 40) ctx0 ex_bst (fun i _ s' => data (bufs s' i) = ex_new).
Proof.
  eapply wp_mono; [|apply (bread_correct 1 ex_bst ex_abio 40 ctx0 ex_babs eq_refl eq_refl)].
  - intros i c' s' (_ & -> & _). apply fn_lookup_insert.
  - cbn. lia.
  - intros j H. cbn in H. by rewrite lookup_empty in H.
  - left. set_solver.
Defined.

Lemma brelse_most_recent_witness :
  wp (brelse 0) ctx0 (upd_buf 0 (set_data zero_block) ex3_bst) (fun _ _ s' =>
    exists l1 l2, seq 0 NBUF = l1 ++ 0%nat :: l2 /\ ring (bufs s') (0%nat :: l1 ++ l2)).
Proof.
  pose proof (babs_set_data 1 ex3_bst ex3_abio 0 40 zero_block ex3_babs eq_refl) as Ha.
  eapply wp_mono; [|apply (brelse_most_recent 1 _ _ 0 40 ctx0 (seq 0 NBUF) Ha)].
  - intros _ c' s' [_ H]. exact H.
  - split; [by vm_compute|done].
  - reflexivity.
  - reflexivity.
  - reflexivity.
  - right. by vm_compute.
Defined.
