(* ===== verification/Log.v ===== *)
(** * The write-ahead log (log.c)

    A transaction gathers the blocks modified by file-system calls in the
    buffer cache (pinned by [B_DIRTY]); [commit] copies them to the log,
    writes the header (the commit point), installs them at their home
    locations and clears the header.  The state is the buffer cache with the
    in-memory [struct log]. *)
From stdpp Require Import functions.
From S2P Require Import Prelude CString Mmu Block Sleeplock Bio.


(** [struct log] with its [struct logheader] ([lhn], [lhblock]). *)
Record log := Log {
  lstart : Z;
  lsize : Z;
  outstanding : Z;
  committing : bool;
  ldev : Z;
  lhn : Z;
  lhblock : list Z      (* [LOGSIZE] entries *)
}.

Record lst := Lst { bio : bst; lg : log }.

Definition set_bio (b : bst) (s : lst) : lst := Lst b (lg s).
Definition set_lg (l : log) (s : lst) : lst := Lst (bio s) l.
(** An operation of the buffer cache. *)
Definition lbio {A} (m : M bst A) : M lst A := zoom bio set_bio m.
Definition getl {A} (f : log -> A) : M lst A := gets (fun s => f (lg s)).
Definition setl (f : log -> log) : M lst unit := modify (fun s => set_lg (f (lg s)) s).
#[export] Hint Unfold getl setl lbio : wp_unfold.

Definition set_lhn (n : Z) (l : log) : log :=
  Log (lstart l) (lsize l) (outstanding l) (committing l) (ldev l) n (lhblock l).
Definition set_lhblock (b : list Z) (l : log) : log :=
  Log (lstart l) (lsize l) (outstanding l) (committing l) (ldev l) (lhn l) b.
Definition set_outstanding (n : Z) (l : log) : log :=
  Log (lstart l) (lsize l) n (committing l) (ldev l) (lhn l) (lhblock l).
Definition set_committing (b : bool) (l : log) : log :=
  Log (lstart l) (lsize l) (outstanding l) b (ldev l) (lhn l) (lhblock l).

(** [struct superblock] (fs.h) and [readsb] (fs.c). *)
Record superblock := Superblock {
  sb_size : Z; sb_nblocks : Z; sb_ninodes : Z; sb_nlog : Z;
  sb_logstart : Z; sb_inodestart : Z; sb_bmapstart : Z
}.

Definition decode_sb (b : block) : superblock :=
  Superblock (get32 b 0) (get32 b 4) (get32 b 8) (get32 b 12) (get32 b 16) (get32 b 20)
    (get32 b 24).

Definition readsb (dv : Z) : M lst superblock :=
  bp ← lbio (bread dv 1);
  d ← lbio (getb bp data);
  lbio (brelse bp);;
  mret (decode_sb d).

(** ** The header block *)

Definition hdr_n (b : block) : Z := i32 (get32 b 0).
Definition hdr_block (b : block) (i : Z) : Z := i32 (get32 b (4 + 4 * i)).

(** [hb->block[i] = bs[0]], [hb->block[i+1] = bs[1]], ... *)
Fixpoint put_blocks (b : block) (i : Z) (bs : list Z) : block :=
  match bs with
  | [] => b
  | x :: bs' => put_blocks (put32 b (4 + 4 * i) x) (i + 1) bs'
  end.

(** [log.lh.block[i] = lh->block[i]] for [k] indices from [i]. *)
Fixpoint read_blocks (d : block) (i : Z) (k : nat) (l : list Z) : list Z :=
  match k with
  | O => l
  | S k' => read_blocks d (i + 1) k' (<[Z.to_nat i := hdr_block d i]> l)
  end.

Definition read_head : M lst unit :=
  dv ← getl ldev; st ← getl lstart;
  b ← lbio (bread dv st);
  d ← lbio (getb b data);
  setl (set_lhn (hdr_n d));;
  setl (fun l => set_lhblock (read_blocks d 0 (Z.to_nat (lhn l)) (lhblock l)) l);;
  lbio (brelse b).

Definition write_head : M lst unit :=
  dv ← getl ldev; st ← getl lstart;
  b ← lbio (bread dv st);
  n ← getl lhn; bl ← getl lhblock;
  lbio (setb b (fun x => set_data (put_blocks (put32 (data x) 0 n) 0 (take (Z.to_nat n) bl)) x));;
  lbio (bwrite b);;
  lbio (brelse b).

(** The loop of [install_trans] from [tail], [n] iterations left. *)
Fixpoint install_loop (n : nat) (tail : Z) : M lst unit :=
  match n with
  | O => mret tt
  | S n' =>
      dv ← getl ldev; st ← getl lstart; bl ← getl lhblock;
      lbuf ← lbio (bread dv (st + tail + 1));
      dbuf ← lbio (bread dv (nth (Z.to_nat tail) bl 0));
      d ← lbio (getb lbuf data);
      lbio (bcopyin dbuf d);;
      lbio (bwrite dbuf);;
      lbio (brelse lbuf);;
      lbio (brelse dbuf);;
      install_loop n' (tail + 1)
  end.

Definition install_trans : M lst unit :=
  n ← getl lhn; install_loop (Z.to_nat n) 0.

Fixpoint write_log_loop (n : nat) (tail : Z) : M lst unit :=
  match n with
  | O => mret tt
  | S n' =>
      dv ← getl ldev; st ← getl lstart; bl ← getl lhblock;
      to ← lbio (bread dv (st + tail + 1));
      from ← lbio (bread dv (nth (Z.to_nat tail) bl 0));
      d ← lbio (getb from data);
      lbio (bcopyin to d);;
      lbio (bwrite to);;
      lbio (brelse from);;
      lbio (brelse to);;
      write_log_loop n' (tail + 1)
  end.

Definition write_log : M lst unit :=
  n ← getl lhn; write_log_loop (Z.to_nat n) 0.

Definition recover_from_log : M lst unit :=
  read_head;; install_trans;; setl (set_lhn 0);; write_head.

(** [sizeof(struct logheader)] is [4 + 4 * LOGSIZE]. *)
Definition initlog (dv : Z) : M lst unit :=
  if 4 + 4 * LOGSIZE >=? BSIZE then panic "initlog: too big logheader" else
  sb ← readsb dv;
  setl (fun l => Log (sb_logstart sb) (sb_nlog sb) (outstanding l) (committing l) dv (lhn l) (lhblock l));;
  recover_from_log.

Definition commit : M lst unit :=
  n ← getl lhn;
  when (n >? 0) (
    write_log;;
    write_head;;
    install_trans;;
    setl (set_lhn 0);;
    write_head).

(** A thread that sleeps in [begin_op] runs the loop again when woken. *)
Definition begin_op : M lst unit :=
  acquire Llog;;
  l ← getl id;
  if committing l then sleep ChLog Llog
  else if lhn l + (outstanding l + 1) * MAXOPBLOCKS >? LOGSIZE then sleep ChLog Llog
  else
    setl (set_outstanding (outstanding l + 1));;
    release Llog.

Definition end_op : M lst unit :=
  acquire Llog;;
  setl (fun l => set_outstanding (outstanding l - 1) l);;
  l ← getl id;
  if committing l then panic "log.committing" else
  (if outstanding l =? 0 then setl (set_committing true) else wakeup ChLog);;
  release Llog;;
  when (outstanding l =? 0) (
    commit;;
    acquire Llog;;
    setl (set_committing false);;
    wakeup ChLog;;
    release Llog).

(** The index of the block in the header, or [n]: the loop of [log_write]. *)
Fixpoint log_index (bl : list Z) (n : nat) (i b : Z) : Z :=
  match n with
  | O => i
  | S n' => if u32 (nth (Z.to_nat i) bl 0) =? b then i else log_index bl n' (i + 1) b
  end.

Definition log_write (b : nat) : M lst unit :=
  l ← getl id;
  if (lhn l >=? LOGSIZE) || (lhn l >=? lsize l - 1) then panic "too big a transaction" else
  if outstanding l <? 1 then panic "log_write outside of trans" else
  acquire Llog;;
  bno ← lbio (getb b blockno);
  l ← getl id;
  let i := log_index (lhblock l) (Z.to_nat (lhn l)) 0 bno in
  setl (fun l => set_lhblock (<[Z.to_nat i := i32 bno]> (lhblock l)) l);;
  when (i =? lhn l) (setl (fun l => set_lhn (lhn l + 1) l));;
  lbio (setb b (fun x => set_flags (Z.lor (flags x) B_DIRTY) x));;
  release Llog.

(** * The log on the abstract cache *)

(** A step of symbolic execution, with the layers of the state reduced. *)
Ltac lwp := wp_step; cbn [bio lg set_bio set_lg].

Section log_abs.
Variable p : Z.

(** Block [blk] written through to the disk with contents [d]. *)
Definition awrite (a : abio) (w : Z * block) : abio :=
  let '(blk, d) := w in
  Abio (<[blk := d]> (acontent a)) (<[blk := d]> (adisk a)) (awrites a ++ [(blk, d)])
    (aopen a) (adirty a ∖ {[blk]}).

Lemma open_data s a i blk : babs p s a -> aopen a !! i = Some blk ->
  data (bufs s i) = acontent a blk.
Proof.
  intros Ha Ho. pose proof (ba_rel _ _ _ Ha i (ba_open _ _ _ Ha _ _ Ho)) as Hr.
  destruct (br_open _ _ _ _ _ Hr _ Ho) as [F E]. by rewrite <- E; apply Hr.
Qed.

(** What the operations below keep of the state. *)
Record lsame (s s' : lst) : Prop := {
  lsame_lg : lg s' = lg s;
  lsame_size : disksize (bio s') = disksize (bio s)
}.

Lemma open2 (m : gmap nat Z) i j x y : m = ∅ -> (<[i := x]> m) !! j = None ->
  delete i (delete j (<[j := y]> (<[i := x]> m))) = ∅.
Proof.
  intros -> Hj. rewrite delete_insert_id by done. rewrite delete_insert_id; done.
Qed.

(** The body of the two copying loops: the contents of [src] written to
    [dst], one of them a log block and the other its home. *)
Lemma copy_step s a c lb hb (k : M lst unit) (Q : unit -> ctx -> lst -> Prop) :
  babs p (bio s) a -> aopen a = ∅ -> held c = [] -> mypid c = p -> lb <> hb ->
  0 <= lb < disksize (bio s) -> 0 <= hb < disksize (bio s) -> hb ∈ adirty a ->
  (size (adirty a) < NBUF)%nat ->
  (forall c' s', same_thread c c' -> lsame s s' ->
     babs p (bio s') (awrite a (lb, acontent a hb)) -> wp k c' s' Q) ->
  wp (to ← lbio (bread 1 lb); from ← lbio (bread 1 hb);
      d ← lbio (getb from data); lbio (bcopyin to d);; lbio (bwrite to);;
      lbio (brelse from);; lbio (brelse to);; k) c s Q.
Proof.
  intros Ha Ho Hc Hp Hne Hl Hh Hd Hsz Hk. do 2 lwp.
  eapply wp_mono; [|apply (bread_wp p _ a); try done; [by rewrite Ho|]].
  2: { right. unfold open_blocks. rewrite Ho, map_img_empty_L, union_empty_r_L. done. }
  intros i ? b1 (-> & Hs1 & Hi & Ha1). do 2 lwp.
  eapply wp_mono; [|apply (bread_wp p _ (set_open i lb a)); try done].
  2: { simpl. lia. }
  2: { simpl. intros j [[_ ?]|[_ E]]%lookup_insert_Some; [done|]. by rewrite Ho in E. }
  2: by left.
  intros j ? b2 (-> & Hs2 & Hj & Ha2). simpl in Hj, Hs2.
  do 2 lwp. lwp.
  rewrite (open_data b2 _ j hb Ha2) by (simpl; apply lookup_insert_eq).
  assert (Hij : j <> i) by (intros ->; by rewrite lookup_insert_eq in Hj).
  do 2 lwp. unfold bcopyin. lwp.
  eapply (babs_set_data p b2 _ i lb (acontent a hb)) in Ha2 as Ha3;
    [|simpl; rewrite lookup_insert_ne, lookup_insert_eq by done; done].
  lwp. lwp.
  eapply wp_mono; [|apply (bwrite_wp p _ _ i lb _ Ha3); try done;
    simpl; rewrite lookup_insert_ne, lookup_insert_eq by done; done].
  intros _ ? b4 (-> & Hs4 & Ha4). lwp. lwp.
  eapply wp_mono; [|apply (brelse_wp p _ _ j hb _ Ha4); try done; simpl].
  2: apply lookup_insert_eq.
  2: { left. set_solver. }
  intros _ ? b5 (-> & Hs5 & Ha5). lwp. lwp.
  eapply wp_mono; [|apply (brelse_wp p _ _ i lb _ Ha5); try done; simpl].
  2: { rewrite lookup_delete_ne, lookup_insert_ne, lookup_insert_eq by done. done. }
  2: { right. by rewrite !fn_lookup_insert. }
  intros _ ? b6 (-> & Hs6 & Ha6). apply Hk.
  - eapply same_thread_trans; apply same_thread_woken.
  - constructor; [done|]. simpl in *. congruence.
  - match type of Ha6 with babs _ _ ?x =>
      replace (awrite a (lb, acontent a hb)) with x; [done|] end.
    unfold awrite, set_closed, flush, set_content, set_open. simpl.
    rewrite !fn_lookup_insert. f_equal. rewrite open2; [done|done|]. by rewrite Hj.
Qed.

Lemma install_step s a c lb hb (k : M lst unit) (Q : unit -> ctx -> lst -> Prop) :
  babs p (bio s) a -> aopen a = ∅ -> held c = [] -> mypid c = p -> lb <> hb ->
  0 <= lb < disksize (bio s) -> 0 <= hb < disksize (bio s) ->
  (hb ∈ adirty a \/ adirty a = ∅) -> lb ∉ adirty a ->
  (size (adirty a) < NBUF)%nat ->
  (forall c' s', same_thread c c' -> lsame s s' ->
     babs p (bio s') (awrite a (hb, acontent a lb)) -> wp k c' s' Q) ->
  wp (lbuf ← lbio (bread 1 lb); dbuf ← lbio (bread 1 hb);
      d ← lbio (getb lbuf data); lbio (bcopyin dbuf d);; lbio (bwrite dbuf);;
      lbio (brelse lbuf);; lbio (brelse dbuf);; k) c s Q.
Proof.
  intros Ha Ho Hc Hp Hne Hl Hh Hd Hld Hsz Hk. do 2 lwp.
  eapply wp_mono; [|apply (bread_wp p _ a); try done; [by rewrite Ho|]].
  2: { right. unfold open_blocks. rewrite Ho, map_img_empty_L, union_empty_r_L. done. }
  intros i ? b1 (-> & Hs1 & Hi & Ha1). do 2 lwp.
  eapply wp_mono; [|apply (bread_wp p _ (set_open i lb a)); try done].
  2: { simpl. lia. }
  2: { simpl. intros j [[_ ?]|[_ E]]%lookup_insert_Some; [done|]. by rewrite Ho in E. }
  2: { destruct Hd as [?|Hd]; [by left|]. right. unfold open_blocks. simpl.
       rewrite Ho, Hd, union_empty_l_L, map_img_insert_notin_L, map_img_empty_L,
         union_empty_r_L by done. rewrite size_singleton. unfold NBUF. lia. }
  intros j ? b2 (-> & Hs2 & Hj & Ha2). simpl in Hj, Hs2.
  assert (Hij : j <> i) by (intros ->; by rewrite lookup_insert_eq in Hj).
  do 2 lwp. lwp.
  rewrite (open_data b2 _ i lb Ha2)
    by (simpl; rewrite lookup_insert_ne, lookup_insert_eq by done; done).
  do 2 lwp. unfold bcopyin. lwp.
  eapply (babs_set_data p b2 _ j hb (acontent a lb)) in Ha2 as Ha3;
    [|simpl; by rewrite lookup_insert_eq].
  lwp. lwp.
  eapply wp_mono; [|apply (bwrite_wp p _ _ j hb _ Ha3); try done; simpl; by rewrite lookup_insert_eq].
  intros _ ? b4 (-> & Hs4 & Ha4). lwp. lwp.
  eapply wp_mono; [|apply (brelse_wp p _ _ i lb _ Ha4); try done; simpl].
  2: { rewrite lookup_insert_ne, lookup_insert_eq by done. done. }
  2: { right. rewrite !fn_lookup_insert_ne by done. apply (ba_clean _ _ _ Ha); [done..|].
       by rewrite Ho. }
  intros _ ? b5 (-> & Hs5 & Ha5). lwp. lwp.
  eapply wp_mono; [|apply (brelse_wp p _ _ j hb _ Ha5); try done; simpl].
  2: { by rewrite lookup_delete_ne, lookup_insert_eq by done. }
  2: { right. by rewrite !fn_lookup_insert. }
  intros _ ? b6 (-> & Hs6 & Ha6). apply Hk.
  - eapply same_thread_trans; apply same_thread_woken.
  - constructor; [done|]. simpl in *. congruence.
  - match type of Ha6 with babs _ _ ?x =>
      replace (awrite a (hb, acontent a lb)) with x; [done|] end.
    unfold awrite, set_closed, flush, set_content, set_open. simpl.
    rewrite !fn_lookup_insert. f_equal. rewrite delete_delete, open2; [done|done|]. by rewrite Hj.
Qed.
End log_abs.

(** * The header block encodes the transaction *)

Section header.
Implicit Types (b d : block) (bs : list Z).

Lemma put_blocks_wf b i bs : block_wf b -> block_wf (put_blocks b i bs).
Proof. revert b i. induction bs; intros b i Hb; simpl; auto with xv6. Qed.

Lemma get32_put_blocks_lo b i bs o : 0 <= i -> 4 + 4 * (i + Z.of_nat (length bs)) <= Z.of_nat (length b) ->
  0 <= o -> o + 4 <= 4 + 4 * i -> get32 (put_blocks b i bs) o = get32 b o.
Proof.
  revert b i. induction bs as [|x bs IH]; intros b i Hi Hl Ho Hlt; simpl in *; [done|].
  rewrite IH by (rewrite ?length_put32; lia). rewrite get32_put32 by lia. by zcases.
Qed.

Lemma hdr_block_put_blocks b i bs k x : 0 <= i ->
  4 + 4 * (i + Z.of_nat (length bs)) <= Z.of_nat (length b) ->
  bs !! k = Some x -> hdr_block (put_blocks b i bs) (i + Z.of_nat k) = i32 x.
Proof.
  revert b i k. induction bs as [|y bs IH]; intros b i k Hi Hl Hk; simpl in *; [done|].
  destruct k as [|k]; simpl in Hk.
  - injection Hk as ->. unfold hdr_block. replace (i + Z.of_nat 0) with i by lia.
    rewrite get32_put_blocks_lo by (rewrite ?length_put32; lia).
    rewrite get32_put32 by lia. rewrite Z.eqb_refl. wrap_lia.
  - replace (i + Z.of_nat (S k)) with (i + 1 + Z.of_nat k) by lia.
    apply IH; [lia|rewrite length_put32; lia|done].
Qed.

(** The blocks the header names. *)
Definition hdr_blocks d : list Z := hdr_block d <$> seqZ 0 (hdr_n d).

(** Reading back a written header. *)
Lemma hdr_roundtrip d bs : block_wf d -> Z.of_nat (length bs) <= LOGSIZE -> Forall is_i32 bs ->
  let h := put_blocks (put32 d 0 (Z.of_nat (length bs))) 0 bs in
  hdr_n h = Z.of_nat (length bs) /\ hdr_blocks h = bs.
Proof.
  intros [Hl Hd] Hn Hb h. unfold BSIZE, LOGSIZE, MAXOPBLOCKS in *.
  assert (Hh : hdr_n h = Z.of_nat (length bs)).
  { unfold hdr_n, h. rewrite get32_put_blocks_lo by (rewrite ?length_put32; lia).
    rewrite get32_put32 by lia. cbn [Z.eqb]. wrap_lia. }
  split; [done|]. unfold hdr_blocks. rewrite Hh. apply list_eq. intros k.
  rewrite list_lookup_fmap. destruct (decide (k < length bs)%nat) as [Hk|Hk].
  - rewrite lookup_seqZ_lt by lia. simpl.
    destruct (lookup_lt_is_Some_2 bs k Hk) as [x Hx]. rewrite Hx. f_equal.
    unfold h. rewrite (hdr_block_put_blocks _ 0 bs k x); [|lia|rewrite length_put32; lia|done].
    apply i32_small. rewrite Forall_forall in Hb. eapply Hb, list_elem_of_lookup_2, Hx.
  - rewrite lookup_seqZ_ge by lia. rewrite lookup_ge_None_2 by lia. done.
Qed.

(** Clearing the count empties the transaction. *)
Lemma hdr_clear d : block_wf d -> hdr_n (put32 d 0 0) = 0 /\ hdr_blocks (put32 d 0 0) = [].
Proof.
  intros [Hl _]. unfold BSIZE in Hl. assert (hdr_n (put32 d 0 0) = 0) as E.
  { unfold hdr_n. rewrite get32_put32 by lia. done. }
  split; [done|]. unfold hdr_blocks. by rewrite E.
Qed.

Lemma read_blocks_take d i k bl : 0 <= i -> i + Z.of_nat k <= Z.of_nat (length bl) ->
  take (Z.to_nat i + k) (read_blocks d i k bl) =
  take (Z.to_nat i) bl ++ (hdr_block d <$> seqZ i (Z.of_nat k)).
Proof.
  revert i bl. induction k as [|k IH]; intros i bl Hi Hl; cbn [read_blocks].
  - rewrite Nat.add_0_r. simpl. by rewrite app_nil_r.
  - rewrite seqZ_cons by lia. replace (Z.pred (Z.of_nat (S k))) with (Z.of_nat k) by lia.
    replace (Z.succ i) with (i + 1) by lia.
    replace (Z.to_nat i + S k)%nat with (Z.to_nat (i + 1) + k)%nat by lia.
    rewrite IH by (rewrite ?length_insert; lia).
    replace (Z.to_nat (i + 1)) with (S (Z.to_nat i)) by lia.
    erewrite take_S_r by (apply list_lookup_insert_eq; lia).
    rewrite take_insert_ge by lia. rewrite <- app_assoc. done.
Qed.
End header.

(** * Sequences of disk writes *)

Definition dwrite (D : Z -> block) (w : Z * block) : Z -> block := <[w.1 := w.2]> D.
Definition apply_writes (D : Z -> block) (ws : list (Z * block)) : Z -> block := foldl dwrite D ws.

Section writes.
Implicit Types (D : Z -> block) (ws : list (Z * block)).

Lemma apply_writes_app D ws1 ws2 :
  apply_writes D (ws1 ++ ws2) = apply_writes (apply_writes D ws1) ws2.
Proof. apply foldl_app. Qed.

Lemma apply_writes_one D b x : apply_writes D [(b, x)] b = x.
Proof. unfold apply_writes, dwrite. simpl. apply fn_lookup_insert. Qed.
Lemma apply_writes_one_ne D b x c : c <> b -> apply_writes D [(b, x)] c = D c.
Proof. intros. unfold apply_writes, dwrite. simpl. by apply fn_lookup_insert_ne. Qed.

Lemma apply_writes_out D ws b : b ∉ ws.*1 -> apply_writes D ws b = D b.
Proof.
  revert D. induction ws as [|[b' x] ws IH]; intros D Hb; [done|]. cbn. rewrite IH by set_solver.
  unfold dwrite. simpl. rewrite fn_lookup_insert_ne; [done|]. set_solver.
Qed.

Lemma apply_writes_in D ws b x : NoDup ws.*1 -> (b, x) ∈ ws -> apply_writes D ws b = x.
Proof.
  revert D. induction ws as [|[b' x'] ws IH]; intros D Hn Hb; [by apply not_elem_of_nil in Hb|].
  cbn. cbn in Hn. apply NoDup_cons in Hn as [Hn1 Hn]. apply elem_of_cons in Hb as [Hb|Hb].
  - injection Hb as <- <-. rewrite apply_writes_out by done. unfold dwrite. simpl.
    by rewrite fn_lookup_insert.
  - by apply IH.
Qed.

Lemma fold_awrite a ws :
  adisk (foldl awrite a ws) = apply_writes (adisk a) ws /\
  acontent (foldl awrite a ws) = apply_writes (acontent a) ws /\
  awrites (foldl awrite a ws) = awrites a ++ ws /\
  aopen (foldl awrite a ws) = aopen a.
Proof.
  revert a. induction ws as [|[b x] ws IH]; intros a; cbn [foldl].
  - by rewrite app_nil_r.
  - destruct (IH (awrite a (b, x))) as (-> & -> & -> & ->). simpl. by rewrite <- app_assoc.
Qed.

Lemma fold_awrite_dirty a ws : adirty (foldl awrite a ws) = adirty a ∖ list_to_set ws.*1.
Proof.
  revert a. induction ws as [|[b x] ws IH]; intros a; cbn [foldl]; [set_solver|].
  rewrite IH. simpl. set_solver.
Qed.
End writes.

(** * The loops of commit and recovery *)

(** The log copies and the home copies of a transaction over [bs], the
    contents of a block being given by [f]. *)
Fixpoint log_writes (st t : Z) (bs : list Z) (f : Z -> block) : list (Z * block) :=
  match bs with
  | [] => []
  | b :: bs' => (st + t + 1, f b) :: log_writes st (t + 1) bs' f
  end.

Fixpoint home_writes (st t : Z) (bs : list Z) (f : Z -> block) : list (Z * block) :=
  match bs with
  | [] => []
  | b :: bs' => (b, f (st + t + 1)) :: home_writes st (t + 1) bs' f
  end.

Section loops.
Variable p : Z.

(** The log region of the disk. *)
Definition in_log (l : log) (b : Z) : Prop := lstart l <= b < lstart l + lsize l.

(** The geometry of the log and of the transaction [bs]. *)
Record lgeom (s : lst) (bs : list Z) : Prop := {
  lg_dev : ldev (lg s) = 1;
  lg_start : 0 <= lstart (lg s);
  lg_fit : lstart (lg s) + lsize (lg s) <= disksize (bio s);
  lg_room : Z.of_nat (length bs) < lsize (lg s);
  lg_cap : (length bs < NBUF)%nat;
  lg_max : Z.of_nat (length bs) <= LOGSIZE;
  lg_home : forall b, b ∈ bs -> 0 <= b < disksize (bio s) /\ ~ in_log (lg s) b;
  lg_nodup : NoDup bs
}.

Lemma lgeom_same s s' bs : lsame s s' -> lgeom s bs -> lgeom s' bs.
Proof. intros [E1 E2] [H1 H2 H3 H4 H5 H6 H7 H8]. by constructor; rewrite ?E1, ?E2. Qed.

Lemma lsame_refl s : lsame s s.
Proof. done. Qed.
Lemma lsame_trans s1 s2 s3 : lsame s1 s2 -> lsame s2 s3 -> lsame s1 s3.
Proof. intros [? ?] [? ?]. constructor; congruence. Qed.

Lemma log_writes_ext st t bs f g : (forall b, b ∈ bs -> f b = g b) ->
  log_writes st t bs f = log_writes st t bs g.
Proof.
  revert t. induction bs as [|b bs IH]; intros t H; simpl; [done|].
  rewrite (H b) by set_solver. f_equal. apply IH. set_solver.
Qed.

Lemma home_writes_ext st t bs f g :
  (forall b, st + t < b <= st + t + Z.of_nat (length bs) -> f b = g b) ->
  home_writes st t bs f = home_writes st t bs g.
Proof.
  revert t. induction bs as [|b bs IH]; intros t H; simpl; [done|].
  rewrite (H (st + t + 1)) by (simpl; lia). f_equal. apply IH. intros. apply H. simpl. lia.
Qed.

Lemma log_writes_keys st t bs f b :
  b ∈ (log_writes st t bs f).*1 -> st + t < b <= st + t + Z.of_nat (length bs).
Proof.
  revert t. induction bs as [|x bs IH]; intros t; cbn; [by intros ?%not_elem_of_nil|].
  intros [->|H%IH]%elem_of_cons; simpl; lia.
Qed.

Lemma home_writes_keys st t bs f : (home_writes st t bs f).*1 = bs.
Proof. revert t. induction bs as [|x bs IH]; intros t; cbn; [done|]. by rewrite IH. Qed.

Lemma log_writes_nodup st t bs f : NoDup (log_writes st t bs f).*1.
Proof.
  revert t. induction bs as [|x bs IH]; intros t; cbn; [constructor|].
  apply NoDup_cons. split; [|apply IH]. intros H%log_writes_keys. lia.
Qed.

Lemma log_writes_at st t bs f k b : bs !! k = Some b ->
  (st + t + Z.of_nat k + 1, f b) ∈ log_writes st t bs f.
Proof.
  revert t k. induction bs as [|x bs IH]; intros t k Hk; [done|]. destruct k as [|k]; simpl in *.
  - injection Hk as ->. apply elem_of_cons. left. f_equal. lia.
  - apply elem_of_cons. right. replace (st + t + Z.of_nat (S k) + 1)
      with (st + (t + 1) + Z.of_nat k + 1) by lia. by apply IH.
Qed.

Lemma home_writes_at st t bs f k b : bs !! k = Some b ->
  (b, f (st + t + Z.of_nat k + 1)) ∈ home_writes st t bs f.
Proof.
  revert t k. induction bs as [|x bs IH]; intros t k Hk; [done|]. destruct k as [|k]; simpl in *.
  - injection Hk as ->. apply elem_of_cons. left. f_equal. f_equal. lia.
  - apply elem_of_cons. right. replace (st + t + Z.of_nat (S k) + 1)
      with (st + (t + 1) + Z.of_nat k + 1) by lia. by apply IH.
Qed.

Lemma nth_drop_head (l : list Z) t b bs : drop t l = b :: bs -> nth t l 0 = b.
Proof.
  intros H. rewrite nth_lookup. rewrite <- (Nat.add_0_r t), <- lookup_drop, H. done.
Qed.

Lemma drop_next (l : list Z) t b bs : 0 <= t -> drop (Z.to_nat t) l = b :: bs ->
  drop (Z.to_nat (t + 1)) l = bs.
Proof.
  intros Ht H. replace (Z.to_nat (t + 1)) with (1 + Z.to_nat t)%nat by lia.
  rewrite Nat.add_comm, <- drop_drop, H. done.
Qed.

Lemma write_log_loop_wp bs : forall t rest s a c (Q : unit -> ctx -> lst -> Prop),
  babs p (bio s) a -> aopen a = ∅ -> held c = [] -> mypid c = p -> 0 <= t ->
  ldev (lg s) = 1 -> 0 <= lstart (lg s) ->
  drop (Z.to_nat t) (lhblock (lg s)) = bs ++ rest ->
  lstart (lg s) + t + Z.of_nat (length bs) < lstart (lg s) + lsize (lg s) <= disksize (bio s) ->
  (forall b, b ∈ bs -> b ∈ adirty a /\ 0 <= b < disksize (bio s) /\ ~ in_log (lg s) b) ->
  (size (adirty a) < NBUF)%nat ->
  (forall c' s', same_thread c c' -> lsame s s' ->
     babs p (bio s') (foldl awrite a (log_writes (lstart (lg s)) t bs (acontent a))) -> Q tt c' s') ->
  wp (write_log_loop (length bs) t) c s Q.
Proof.
  induction bs as [|b bs IH]; intros t rest s a c Q Ha Ho Hc Hp Ht Hd Hst Hdr Hfit Hb Hsz HQ.
  { cbn [write_log_loop length]. wp_step. by apply HQ. }
  cbn [write_log_loop length]. simpl in Hdr, Hfit. do 2 lwp. do 2 lwp. do 2 lwp.
  rewrite Hd, (nth_drop_head _ _ b (bs ++ rest) Hdr).
  destruct (Hb b) as (Hb1 & Hb2 & Hb3); [set_solver|]. unfold in_log in Hb3.
  eapply (copy_step p s a); try done; try lia.
  intros c' s' Hth Hsm Ha'.
  set (lb := lstart (lg s) + t + 1) in *. pose proof (lsame_lg _ _ Hsm) as Elg.
  pose proof (lsame_size _ _ Hsm) as Esz.
  assert (Hsub : adirty a ∖ {[lb]} ⊆ adirty a) by set_solver.
  apply (IH (t + 1) rest s' _ c' Q Ha'); rewrite ?Elg, ?Esz; try done; try lia.
  - rewrite (st_held _ _ Hth). done.
  - rewrite (st_pid _ _ Hth). done.
  - eapply drop_next; [lia|]. exact Hdr.
  - intros b' Hb'. destruct (Hb b') as (H1 & H2 & H3); [set_solver|]. split_and!; try done; [|lia..].
    simpl. unfold in_log in H3. assert (b' <> lb) by lia. set_solver.
  - simpl. apply subseteq_size in Hsub. lia.
  - intros c'' s'' Hth' Hsm' Ha''. apply HQ.
    + by eapply same_thread_trans.
    + by eapply lsame_trans.
    + cbn [log_writes foldl]. fold lb. erewrite log_writes_ext; [exact Ha''|].
      intros b' Hb'. simpl. destruct (Hb b') as (H1 & H2 & H3); [set_solver|]. unfold in_log in H3.
      rewrite fn_lookup_insert_ne by lia. done.
Qed.

Lemma install_loop_wp bs : forall t rest s a c (Q : unit -> ctx -> lst -> Prop),
  babs p (bio s) a -> aopen a = ∅ -> held c = [] -> mypid c = p -> 0 <= t ->
  ldev (lg s) = 1 -> 0 <= lstart (lg s) ->
  drop (Z.to_nat t) (lhblock (lg s)) = bs ++ rest -> NoDup bs ->
  lstart (lg s) + t + Z.of_nat (length bs) < lstart (lg s) + lsize (lg s) <= disksize (bio s) ->
  (forall b, b ∈ bs -> 0 <= b < disksize (bio s) /\ ~ in_log (lg s) b) ->
  ((forall b, b ∈ bs -> b ∈ adirty a) \/ adirty a = ∅) ->
  (forall b, b ∈ adirty a -> ~ in_log (lg s) b) ->
  (size (adirty a) < NBUF)%nat ->
  (forall c' s', same_thread c c' -> lsame s s' ->
     babs p (bio s') (foldl awrite a (home_writes (lstart (lg s)) t bs (acontent a))) -> Q tt c' s') ->
  wp (install_loop (length bs) t) c s Q.
Proof.
  induction bs as [|b bs IH]; intros t rest s a c Q Ha Ho Hc Hp Ht Hd Hst Hdr Hnd Hfit Hb Hdb Hdl Hsz HQ.
  { cbn [install_loop length]. wp_step. by apply HQ. }
  cbn [install_loop length]. simpl in Hdr, Hfit. do 2 lwp. do 2 lwp. do 2 lwp.
  rewrite Hd, (nth_drop_head _ _ b (bs ++ rest) Hdr).
  destruct (Hb b) as (Hb2 & Hb3); [set_solver|]. unfold in_log in Hb3, Hdl.
  apply NoDup_cons in Hnd as [Hnb Hnd].
  eapply (install_step p s a); try done; try lia.
  { destruct Hdb as [Hdb|?]; [left; set_solver|by right]. }
  { intros Hin%Hdl. lia. }
  intros c' s' Hth Hsm Ha'.
  pose proof (lsame_lg _ _ Hsm) as Elg. pose proof (lsame_size _ _ Hsm) as Esz.
  assert (Hsub : adirty a ∖ {[b]} ⊆ adirty a) by set_solver.
  apply (IH (t + 1) rest s' _ c' Q Ha'); rewrite ?Elg, ?Esz; try done; try lia.
  - rewrite (st_held _ _ Hth). done.
  - rewrite (st_pid _ _ Hth). done.
  - eapply drop_next; [lia|]. exact Hdr.
  - intros b' Hb'. apply Hb. set_solver.
  - simpl. destruct Hdb as [Hdb| ->]; [left|right; set_solver]. intros b' Hb'.
    assert (b' <> b) by (intros ->; done). set_solver.
  - simpl. intros b' Hb'. apply Hdl. set_solver.
  - simpl. apply subseteq_size in Hsub. lia.
  - intros c'' s'' Hth' Hsm' Ha''. apply HQ.
    + by eapply same_thread_trans.
    + by eapply lsame_trans.
    + cbn [home_writes foldl]. erewrite home_writes_ext; [exact Ha''|].
      intros b' Hb'. simpl. rewrite fn_lookup_insert_ne by lia. done.
Qed.
End loops.
