(* ===== verification/LogSpec.v ===== *)
(** * Atomicity of the log: commit, crash and recovery (log.c)

    [commit] issues the block writes of a transaction in the order log
    copies, header, home copies, cleared header.  A crash keeps a prefix of
    them; whatever the prefix, booting and running [recover_from_log] leaves
    either the old contents of every block or the new ones. *)
From stdpp Require Import functions.
From S2P Require Import Prelude CString Mmu Block Sleeplock Bio Log.

Section transaction.
Variable p : Z.

Lemma write_head_wp s a c (Q : unit -> ctx -> lst -> Prop) : babs p (bio s) a ->
  aopen a = ∅ -> held c = [] -> mypid c = p -> ldev (lg s) = 1 ->
  0 <= lstart (lg s) < disksize (bio s) -> (size (adirty a) < NBUF)%nat ->
  (forall c' s', same_thread c c' -> lsame s s' ->
     babs p (bio s') (awrite a (lstart (lg s),
       put_blocks (put32 (acontent a (lstart (lg s))) 0 (lhn (lg s))) 0
         (take (Z.to_nat (lhn (lg s))) (lhblock (lg s))))) -> Q tt c' s') ->
  wp write_head c s Q.
Proof.
  intros Ha Ho Hc Hp Hd Hst Hsz HQ. unfold write_head. do 2 lwp. do 2 lwp. do 2 lwp. rewrite Hd.
  eapply wp_mono; [|apply (bread_wp p _ a); try done; [by rewrite Ho|]].
  2: { right. unfold open_blocks. rewrite Ho, map_img_empty_L, union_empty_r_L. done. }
  intros i ? b1 (-> & Hs1 & Hi & Ha1). do 2 lwp. do 2 lwp. do 2 lwp. lwp.
  set (st := lstart (lg s)) in *.
  set (d := put_blocks (put32 (acontent a st) 0 (lhn (lg s))) 0
    (take (Z.to_nat (lhn (lg s))) (lhblock (lg s)))).
  assert (Hopen : forall x, (<[i := st]> x : gmap nat Z) !! i = Some st)
    by (intros; apply lookup_insert_eq).
  eapply (babs_set_data p b1 _ i st d) in Ha1 as Ha2; [|simpl; apply Hopen].
  assert (Hu : upd_buf i (fun x => set_data (put_blocks (put32 (data x) 0 (lhn (lg s))) 0
      (take (Z.to_nat (lhn (lg s))) (lhblock (lg s)))) x) b1 = upd_buf i (set_data
      (put_blocks (put32 (acontent a st) 0 (lhn (lg s))) 0
      (take (Z.to_nat (lhn (lg s))) (lhblock (lg s))))) b1).
  { unfold upd_buf. by rewrite (open_data p b1 _ i st Ha1) by (simpl; apply Hopen). }
  lwp. lwp. rewrite Hu.
  eapply wp_mono; [|apply (bwrite_wp p _ _ i st _ Ha2); try done; simpl; apply Hopen].
  intros _ ? b3 (-> & Hs3 & Ha3). lwp.
  eapply wp_mono; [|apply (brelse_wp p _ _ i st _ Ha3); try done; simpl; [apply Hopen|]].
  2: { right. by rewrite !fn_lookup_insert. }
  intros [] ? b4 (-> & Hs4 & Ha4). apply HQ; [apply same_thread_woken| |].
  - constructor; [done|]. simpl in *. congruence.
  - fold d. match type of Ha4 with babs _ _ ?x => replace (awrite a (st, d)) with x; [done|] end.
    unfold awrite, set_closed, flush, set_content, set_open. simpl.
    rewrite !fn_lookup_insert. f_equal. by rewrite delete_insert_id.
Qed.

Lemma read_head_wp s a c (Q : unit -> ctx -> lst -> Prop) : babs p (bio s) a ->
  aopen a = ∅ -> adirty a = ∅ -> held c = [] -> mypid c = p -> ldev (lg s) = 1 ->
  0 <= lstart (lg s) < disksize (bio s) ->
  (forall c' s', same_thread c c' -> disksize (bio s') = disksize (bio s) ->
     babs p (bio s') a ->
     lg s' = (let d := acontent a (lstart (lg s)) in
              set_lhblock (read_blocks d 0 (Z.to_nat (hdr_n d)) (lhblock (lg s)))
                (set_lhn (hdr_n d) (lg s))) -> Q tt c' s') ->
  wp read_head c s Q.
Proof.
  intros Ha Ho Hdy Hc Hp Hd Hst HQ. unfold read_head. do 2 lwp. do 2 lwp. do 2 lwp. rewrite Hd.
  eapply wp_mono; [|apply (bread_wp p _ a); try done; [by rewrite Ho|]].
  2: { right. unfold open_blocks. rewrite Ho, Hdy, map_img_empty_L, union_empty_r_L, size_empty.
       unfold NBUF. lia. }
  intros i ? b1 (-> & Hs1 & Hi & Ha1). set (st := lstart (lg s)) in *.
  assert (Hopen : (<[i := st]> (aopen a) : gmap nat Z) !! i = Some st) by apply lookup_insert_eq.
  do 2 lwp. lwp. rewrite (open_data p b1 _ i st Ha1) by done. cbn [acontent set_open].
  do 2 lwp. do 2 lwp. lwp.
  eapply wp_mono; [|apply (brelse_wp p _ _ i st _ Ha1); try done; simpl].
  2: { right. apply (ba_clean _ _ _ Ha); [done|set_solver|by rewrite Ho]. }
  intros [] ? b2 (-> & Hs2 & Ha2). apply HQ; [apply same_thread_woken| | |done].
  - simpl in *. congruence.
  - simpl. match type of Ha2 with babs _ _ ?x => replace a with x; [done|] end.
    unfold set_closed, set_open. simpl. rewrite delete_insert_id by done. by destruct a.
Qed.

(** The state at a commit: the pinned blocks are the transaction. *)
Record ready (s : lst) (a : abio) (bs : list Z) : Prop := {
  rd_abs : babs p (bio s) a;
  rd_open : aopen a = ∅;
  rd_geom : lgeom s bs;
  rd_bs : exists rest, lhblock (lg s) = bs ++ rest;
  rd_n : lhn (lg s) = Z.of_nat (length bs);
  rd_dirty : adirty a = list_to_set bs
}.

(** The writes of [commit], in order. *)
Definition commit_header (st : Z) (bs : list Z) (f : Z -> block) : block :=
  put_blocks (put32 (f st) 0 (Z.of_nat (length bs))) 0 bs.
Definition commit_writes (st : Z) (bs : list Z) (f : Z -> block) : list (Z * block) :=
  log_writes st 0 bs f ++ [(st, commit_header st bs f)] ++
  ((fun b => (b, f b)) <$> bs) ++ [(st, put32 (commit_header st bs f) 0 0)].

Lemma home_writes_map st t bs f g :
  (forall k b, bs !! k = Some b -> g (st + t + Z.of_nat k + 1) = f b) ->
  home_writes st t bs g = (fun b => (b, f b)) <$> bs.
Proof.
  revert t. induction bs as [|b bs IH]; intros t H; cbn; [done|].
  rewrite <- (H 0%nat b) by done. f_equal; [f_equal; f_equal; lia|]. apply IH. intros k b' Hk.
  rewrite <- (H (S k) b' Hk). f_equal. lia.
Qed.

(** The log copies hold the transaction's contents. *)
Lemma log_writes_read D st bs f k b : bs !! k = Some b ->
  apply_writes D (log_writes st 0 bs f) (st + 0 + Z.of_nat k + 1) = f b.
Proof.
  intros Hk. apply apply_writes_in; [apply log_writes_nodup|]. by apply log_writes_at.
Qed.

Lemma lgeom_not_log s bs b : lgeom s bs -> b ∈ bs -> ~ in_log (lg s) b.
Proof. intros Hg Hb. by apply (lg_home _ _ Hg). Qed.

Lemma lgeom_start_home s bs : lgeom s bs -> lstart (lg s) ∉ bs.
Proof.
  intros Hg Hb. apply (lgeom_not_log s bs _ Hg Hb). unfold in_log. pose proof (lg_room _ _ Hg). lia.
Qed.

Lemma start_not_log_key st bs f : st ∉ (log_writes st 0 bs f).*1.
Proof. intros H%log_writes_keys. lia. Qed.

(** Dropping log and header blocks from the dirty set changes nothing. *)
Lemma dirty_keep s (a : abio) bs (ks : list Z) : lgeom s bs -> adirty a = list_to_set bs ->
  (forall k, k ∈ ks -> in_log (lg s) k) -> adirty a ∖ list_to_set ks = adirty a.
Proof.
  intros Hg Hd Hk. rewrite Hd. apply leibniz_equiv. intros b.
  rewrite elem_of_difference, !elem_of_list_to_set. split; [tauto|]. intros Hb. split; [done|].
  intros Hin%Hk. by apply (lgeom_not_log s bs b Hg Hb).
Qed.

Lemma ready_size s a bs : ready s a bs -> (size (adirty a) < NBUF)%nat.
Proof.
  intros [_ _ Hg _ _ Hd]. rewrite Hd, size_list_to_set by apply Hg. apply Hg.
Qed.

Lemma commit_wp s a bs c (Q : unit -> ctx -> lst -> Prop) :
  ready s a bs -> held c = [] -> mypid c = p -> bs <> [] ->
  (forall c' s', same_thread c c' -> lg s' = set_lhn 0 (lg s) ->
     disksize (bio s') = disksize (bio s) ->
     babs p (bio s') (foldl awrite a (commit_writes (lstart (lg s)) bs (acontent a))) -> Q tt c' s') ->
  wp commit c s Q.
Proof.
  intros Hrd Hc Hp Hne HQ. pose proof (ready_size _ _ _ Hrd) as Hsz.
  destruct Hrd as [Ha Ho Hg [rest Hbl] Hn Hd]. set (st := lstart (lg s)) in *. set (f := acontent a) in *.
  pose proof (lg_room _ _ Hg) as Hroom. pose proof (lg_fit _ _ Hg) as Hfit.
  pose proof (lg_start _ _ Hg) as Hst. fold st in Hfit, Hst.
  assert (Hdl : forall b, b ∈ adirty a -> ~ in_log (lg s) b).
  { intros b Hb. rewrite Hd, elem_of_list_to_set in Hb. by apply (lgeom_not_log s bs). }
  unfold commit. do 2 lwp. rewrite Hn.
  assert (0 < Z.of_nat (length bs)) as Hpos.
  { destruct (length bs) eqn:E; [by apply length_zero_iff_nil in E|lia]. }
  rewrite Z.gtb_ltb, (proj2 (Z.ltb_lt _ _) Hpos).
  wp_step; [|done].
  unfold write_log. lwp. do 2 lwp. rewrite Hn, Nat2Z.id.
  apply (write_log_loop_wp p bs 0 rest s a); try done; try (apply Hg || (fold st; lia)).
  { intros b Hb. split; [rewrite Hd; set_solver|]. by apply (lg_home _ _ Hg). }
  intros c1 s1 Hth1 [Elg1 Esz1] Ha1. fold st f in Ha1. set (a1 := foldl awrite a _) in Ha1.
  destruct (fold_awrite a (log_writes st 0 bs f)) as (Dk1 & Ct1 & _ & Op1). fold a1 in Dk1, Ct1, Op1.
  assert (Hdy1 : adirty a1 = adirty a).
  { unfold a1. rewrite fold_awrite_dirty. apply (dirty_keep s a bs); [done..|].
    intros k Hk%log_writes_keys. unfold in_log. fold st. lia. }
  lwp. apply (write_head_wp s1 a1); rewrite ?Elg1, ?Esz1; fold st; try done.
  { by rewrite Op1. } { by rewrite (st_held _ _ Hth1). } { by rewrite (st_pid _ _ Hth1). }
  { apply Hg. } { lia. } { by rewrite Hdy1. }
  intros c2 s2 Hth2 [Elg2 Esz2] Ha2. rewrite Elg1 in Elg2. rewrite Esz1 in Esz2.
  assert (E1 : acontent a1 st = f st).
  { rewrite Ct1. apply apply_writes_out, start_not_log_key. }
  rewrite Hn, Nat2Z.id, Hbl, take_app_length, E1 in Ha2.
  fold (commit_header st bs f) in Ha2. set (H1 := commit_header st bs f) in *.
  set (a2 := awrite a1 (st, H1)) in Ha2.
  assert (Hdy2 : adirty a2 = adirty a).
  { simpl. rewrite Hdy1. pose proof (dirty_keep s a bs [st] Hg Hd) as E. simpl in E.
    rewrite union_empty_r_L in E. apply E. intros k ->%list_elem_of_singleton. unfold in_log.
    fold st. lia. }
  unfold install_trans. lwp. do 2 lwp. rewrite Elg2, Hn, Nat2Z.id.
  apply (install_loop_wp p bs 0 rest s2 a2); rewrite ?Elg2, ?Esz2, ?Hdy2; try done; try (apply Hg);
    try (fold st; lia).
  { simpl. by rewrite Op1. } { by rewrite (st_held _ _ Hth2), (st_held _ _ Hth1). }
  { by rewrite (st_pid _ _ Hth2), (st_pid _ _ Hth1). }
  { left. intros b Hb. rewrite Hd. set_solver. }
  intros c3 s3 Hth3 [Elg3 Esz3] Ha3. fold st in Ha3.
  rewrite (home_writes_map st 0 bs f) in Ha3.
  2: { intros k b Hk. unfold a2. simpl. rewrite fn_lookup_insert_ne by lia. rewrite Ct1.
       by apply log_writes_read. }
  set (a3 := foldl awrite a2 _) in Ha3.
  destruct (fold_awrite a2 ((fun b => (b, f b)) <$> bs)) as (Dk3 & Ct3 & _ & Op3).
  fold a3 in Dk3, Ct3, Op3.
  lwp. lwp. rewrite Elg3, Elg2.
  apply (write_head_wp _ a3); cbn [bio lg set_lg set_lhn lstart ldev lhn lhblock]; rewrite ?Esz3, ?Esz2;
    try done.
  { rewrite Op3. simpl. by rewrite Op1. }
  { by rewrite (st_held _ _ Hth3), (st_held _ _ Hth2), (st_held _ _ Hth1). }
  { by rewrite (st_pid _ _ Hth3), (st_pid _ _ Hth2), (st_pid _ _ Hth1). }
  { apply Hg. } { fold st. lia. }
  { unfold a3. rewrite fold_awrite_dirty, Hdy2.
    assert (Hsub : adirty a ∖ list_to_set ((fun b => (b, f b)) <$> bs).*1 ⊆ adirty a) by set_solver.
    apply subseteq_size in Hsub. lia. }
  fold st. intros c4 s4 Hth4 [Elg4 Esz4] Ha4. apply HQ.
  - do 3 (eapply same_thread_trans; [done|]). done.
  - done.
  - simpl in *. congruence.
  - assert (E3 : acontent a3 st = H1).
    { rewrite Ct3. rewrite apply_writes_out.
      - simpl. by rewrite fn_lookup_insert.
      - rewrite <- list_fmap_compose. cbn. rewrite list_fmap_id. by apply (lgeom_start_home s). }
    rewrite E3 in Ha4. cbn [Z.to_nat take put_blocks] in Ha4.
    unfold commit_writes. fold H1. rewrite !foldl_app. cbn [foldl]. exact Ha4.
Qed.

(** The disk after installing what its log says. *)
Definition recovered (st : Z) (D : Z -> block) : Z -> block :=
  apply_writes D (home_writes st 0 (hdr_blocks (D st)) D).

Definition recovery_writes (st : Z) (D : Z -> block) : list (Z * block) :=
  home_writes st 0 (hdr_blocks (D st)) D ++ [(st, put32 (D st) 0 0)].

Lemma recover_wp s a bs c (Q : unit -> ctx -> lst -> Prop) :
  let st := lstart (lg s) in let D := acontent a in
  babs p (bio s) a -> aopen a = ∅ -> adirty a = ∅ -> held c = [] -> mypid c = p ->
  lgeom s bs -> hdr_blocks (D st) = bs -> hdr_n (D st) = Z.of_nat (length bs) ->
  Z.of_nat (length (lhblock (lg s))) = LOGSIZE ->
  (forall c' s', same_thread c c' -> lhn (lg s') = 0 ->
     disksize (bio s') = disksize (bio s) ->
     babs p (bio s') (foldl awrite a (recovery_writes st D)) -> Q tt c' s') ->
  wp recover_from_log c s Q.
Proof.
  intros st D Ha Ho Hdy Hc Hp Hg Hbs Hn Hlen HQ.
  pose proof (lg_room _ _ Hg) as Hroom. pose proof (lg_fit _ _ Hg) as Hfit.
  pose proof (lg_start _ _ Hg) as Hst. pose proof (lg_max _ _ Hg) as Hmax. fold st in Hfit, Hst.
  unfold recover_from_log. lwp. apply (read_head_wp s a); try done; [apply Hg|fold st; lia|].
  intros c1 s1 Hth1 Esz1 Ha1 Elg1. fold st D in Elg1. cbv zeta in Elg1. rewrite Hn, Nat2Z.id in Elg1.
  set (bl := read_blocks _ _ _ _) in Elg1.
  assert (Hbl : bl = bs ++ drop (length bs) bl).
  { rewrite <- (take_drop (length bs) bl) at 1. f_equal.
    pose proof (read_blocks_take (D st) 0 (length bs) (lhblock (lg s))) as E.
    simpl in E. fold bl in E. rewrite E by lia. by rewrite <- Hn. }
  unfold install_trans. lwp. do 2 lwp. rewrite Elg1. cbn [lhn set_lhblock set_lhn].
  rewrite Nat2Z.id.
  apply (install_loop_wp p bs 0 (drop (length bs) bl) s1 a);
    rewrite ?Elg1, ?Esz1, ?Hdy; cbn [set_lhblock set_lhn lstart lsize ldev lhblock]; try done;
    try (apply Hg); try (fold st; lia).
  { by rewrite (st_held _ _ Hth1). } { by rewrite (st_pid _ _ Hth1). } { by right. }
  { rewrite size_empty. unfold NBUF. lia. }
  fold st D. intros c2 s2 Hth2 [Elg2 Esz2] Ha2. set (a2 := foldl awrite a _) in Ha2.
  destruct (fold_awrite a (home_writes st 0 bs D)) as (Dk2 & Ct2 & _ & Op2). fold a2 in Dk2, Ct2, Op2.
  lwp. lwp. rewrite Elg2, Elg1.
  apply (write_head_wp _ a2); cbn [bio lg set_lg set_lhn set_lhblock lstart ldev lhn lhblock];
    rewrite ?Esz2, ?Esz1; try done.
  { by rewrite Op2. } { by rewrite (st_held _ _ Hth2), (st_held _ _ Hth1). }
  { by rewrite (st_pid _ _ Hth2), (st_pid _ _ Hth1). } { apply Hg. } { fold st. lia. }
  { assert (E : adirty a2 = ∅) by (unfold a2; rewrite fold_awrite_dirty, Hdy; set_solver).
    rewrite E, size_empty. unfold NBUF. lia. }
  fold st. intros c3 s3 Hth3 [Elg3 Esz3] Ha3. apply HQ.
  - do 2 (eapply same_thread_trans; [done|]). done.
  - rewrite Elg3. done.
  - simpl in *. congruence.
  - assert (E : acontent a2 st = D st).
    { rewrite Ct2. apply apply_writes_out. rewrite home_writes_keys. by apply (lgeom_start_home s). }
    rewrite E in Ha3. cbn [Z.to_nat take put_blocks] in Ha3.
    unfold recovery_writes. rewrite foldl_app, Hbs. exact Ha3.
Qed.
End transaction.

(** * What a crash leaves *)

Lemma length_log_writes st t bs f : length (log_writes st t bs f) = length bs.
Proof. revert t. induction bs as [|b l IH]; intros t; cbn [log_writes length]; [done|]. by rewrite IH. Qed.

Section crash.
(** Log start, transaction, its contents, and the disk before the commit. *)
Variables (st lim : Z) (bs : list Z) (f D : Z -> block).
Hypothesis Hlen : Z.of_nat (length bs) < lim.
Hypothesis Hmax : Z.of_nat (length bs) <= LOGSIZE.
Hypothesis Hhome : forall b, b ∈ bs -> is_i32 b /\ ~ (st <= b < st + lim).
Hypothesis Hnd : NoDup bs.
Hypothesis Hempty : hdr_n (D st) = 0.
Hypothesis Hwf : block_wf (f st).

Let homes : list (Z * block) := (fun b => (b, f b)) <$> bs.

(** The contents once the transaction is in. *)
Definition new_disk (blk : Z) : block := if decide (blk ∈ bs) then f blk else D blk.

Lemma homes_keys : homes.*1 = bs.
Proof using. unfold homes. rewrite <- list_fmap_compose. cbn. apply list_fmap_id. Qed.

Lemma st_not_home : st ∉ bs.
Proof using Hlen Hhome. intros H%Hhome. lia. Qed.

(** A disk whose home blocks are each old or new, whose log holds the
    transaction and whose header names it, recovers to the new contents. *)
Lemma recovered_new D' blk :
  hdr_blocks (D' st) = bs ->
  (forall k b, bs !! k = Some b -> D' (st + 0 + Z.of_nat k + 1) = f b) ->
  (forall b, b ∉ bs -> ~ (st <= b < st + lim) -> D' b = D b) ->
  ~ (st <= blk < st + lim) -> recovered st D' blk = new_disk blk.
Proof using Hnd.
  intros Hh Hl Ho Hb. unfold recovered, new_disk. rewrite Hh.
  rewrite (home_writes_map st 0 bs f D' Hl). fold homes.
  destruct (decide (blk ∈ bs)) as [Hin|Hin].
  - apply apply_writes_in; [by rewrite homes_keys|]. unfold homes. apply list_elem_of_fmap. eauto.
  - rewrite apply_writes_out by by rewrite homes_keys. by apply Ho.
Qed.

Lemma recovered_idle D' : hdr_n (D' st) = 0 -> recovered st D' = D' /\ hdr_blocks (D' st) = [].
Proof using. intros H. unfold recovered, hdr_blocks. by rewrite H. Qed.

(** Until the header is written, recovery ignores the log. *)
Lemma crash_before k : (k <= length bs)%nat ->
  let D' := apply_writes D (take k (commit_writes st bs f)) in
  hdr_n (D' st) = 0 /\ hdr_blocks (D' st) = [] /\
  forall blk, ~ (st <= blk < st + lim) -> recovered st D' blk = D blk.
Proof using Hlen Hempty.
  intros Hk D'.
  pose proof (length_log_writes st 0 bs f) as HL.
  assert (Hout : forall b, ~ (st < b < st + lim) -> D' b = D b).
  { intros b Hb. apply apply_writes_out. intros Hin. apply Hb.
    unfold commit_writes in Hin. rewrite take_app_le in Hin by lia.
    rewrite fmap_take in Hin. apply elem_of_take_incl, log_writes_keys in Hin. lia. }
  assert (Hn : hdr_n (D' st) = 0) by (rewrite Hout by lia; done).
  destruct (recovered_idle D' Hn) as [Hr Hh]. split_and!; [done..|].
  intros blk Hb. rewrite Hr. apply Hout. lia.
Qed.

(** A prefix of [commit_writes] that includes the header. *)
Lemma commit_prefix k : (length bs < k)%nat ->
  take k (commit_writes st bs f) =
    log_writes st 0 bs f ++ [(st, commit_header st bs f)] ++ take (k - length bs - 1) homes \/
  take k (commit_writes st bs f) =
    log_writes st 0 bs f ++ [(st, commit_header st bs f)] ++ homes ++
      [(st, put32 (commit_header st bs f) 0 0)].
Proof using.
  intros Hk. unfold commit_writes. fold homes.
  rewrite take_app_ge by (rewrite length_log_writes; lia). rewrite length_log_writes.
  set (j := (k - length bs - 1)%nat). assert (k - length bs = S j)%nat as -> by lia.
  cbn [app]. rewrite firstn_cons.
  assert (Hh : length homes = length bs) by apply length_fmap.
  destruct (decide (j <= length bs)%nat).
  - left. by rewrite take_app_le by lia.
  - right. rewrite take_ge; [done|]. rewrite length_app. simpl. lia.
Qed.

Lemma commit_header_decodes :
  hdr_n (commit_header st bs f) = Z.of_nat (length bs) /\ hdr_blocks (commit_header st bs f) = bs.
Proof using Hmax Hhome Hwf.
  apply hdr_roundtrip; [done..|]. apply Forall_forall. intros b Hb. by apply Hhome.
Qed.

(** From the header on, recovery completes the transaction. *)
Lemma crash_after k : (length bs < k)%nat ->
  let D' := apply_writes D (take k (commit_writes st bs f)) in
  ((hdr_n (D' st) = Z.of_nat (length bs) /\ hdr_blocks (D' st) = bs) \/
   (hdr_n (D' st) = 0 /\ hdr_blocks (D' st) = [])) /\
  forall blk, ~ (st <= blk < st + lim) -> recovered st D' blk = new_disk blk.
Proof using Hlen Hmax Hhome Hnd Hwf.
  intros Hk D'. destruct commit_header_decodes as [Hn1 Hb1].
  set (H1 := commit_header st bs f) in *. pose proof st_not_home as Hsh.
  pose proof homes_keys as Hhk.
  assert (HL : forall b, ~ (st <= b < st + lim) -> b ∉ (log_writes st 0 bs f).*1).
  { intros b Hb Hin%log_writes_keys. lia. }
  destruct (commit_prefix k Hk) as [E|E]; fold H1 in E.
  - assert (Hst : D' st = H1).
    { unfold D'. rewrite E, !apply_writes_app. rewrite apply_writes_out.
      - apply apply_writes_one.
      - rewrite fmap_take, Hhk. by intros ?%elem_of_take_incl. }
    rewrite Hst. split; [by left|]. intros blk Hb. apply recovered_new; [by rewrite Hst| | |done].
    + intros j b Hj. unfold D'. rewrite E, !apply_writes_app. rewrite apply_writes_out.
      * rewrite apply_writes_one_ne by lia.
        by apply log_writes_read.
      * rewrite fmap_take, Hhk. intros Hin%elem_of_take_incl%Hhome.
        apply lookup_lt_Some in Hj. lia.
    + intros b Hb1' Hb2. unfold D'. rewrite E, !apply_writes_app. rewrite apply_writes_out.
      * rewrite apply_writes_one_ne by lia.
        apply apply_writes_out. by apply HL.
      * rewrite fmap_take, Hhk. by intros ?%elem_of_take_incl.
  - assert (Hst : D' st = put32 H1 0 0).
    { unfold D'. rewrite E, !apply_writes_app. apply apply_writes_one. }
    destruct (hdr_clear H1) as [Hc1 Hc2]; [by apply put_blocks_wf, put32_wf|].
    rewrite <- Hst in Hc1, Hc2. split; [by right|]. intros blk Hb.
    rewrite (proj1 (recovered_idle D' Hc1)). unfold new_disk, D'.
    rewrite E, !apply_writes_app.
    rewrite apply_writes_one_ne by lia. destruct (decide (blk ∈ bs)) as [Hin|Hin].
    + apply apply_writes_in; [by rewrite Hhk|]. apply list_elem_of_fmap. eauto.
    + rewrite apply_writes_out by by rewrite Hhk. rewrite apply_writes_one_ne by lia. apply apply_writes_out. by apply HL.
Qed.
End crash.

(** * Booting *)

(** [binit] (called by [main]) and [initlog] of the root device (called by
    the first process in [forkret]). *)
Definition boot : M lst unit := lbio binit;; initlog 1.

(** A disk the kernel can boot from: the super block describes a log inside
    the disk, and the log header names distinct blocks outside it. *)
Record disk_ok (sz : Z) (D : Z -> block) (st lim : Z) (bs : list Z) : Prop := {
  dk_start : sb_logstart (decode_sb (D 1)) = st;
  dk_nlog : sb_nlog (decode_sb (D 1)) = lim;
  dk_range : 1 < st /\ 0 < lim /\ st + lim <= sz;
  dk_n : hdr_n (D st) = Z.of_nat (length bs);
  dk_bs : hdr_blocks (D st) = bs;
  dk_len : Z.of_nat (length bs) < lim;
  dk_max : (length bs < NBUF)%nat;
  dk_home : forall b, b ∈ bs -> 0 <= b < sz /\ b <> 1 /\ ~ (st <= b < st + lim);
  dk_nodup : NoDup bs
}.

(** The in-memory log at boot: an array of [LOGSIZE] entries. *)
Definition fresh_log (l : log) : Prop := Z.of_nat (length (lhblock l)) = LOGSIZE.

Section boot.
Lemma readsb_wp p s a c (Q : superblock -> ctx -> lst -> Prop) : babs p (bio s) a ->
  aopen a = ∅ -> adirty a = ∅ -> held c = [] -> mypid c = p -> 1 < disksize (bio s) ->
  (forall c' s', same_thread c c' -> lsame s s' -> babs p (bio s') a ->
     Q (decode_sb (acontent a 1)) c' s') -> wp (readsb 1) c s Q.
Proof.
  intros Ha Ho Hdy Hc Hp Hsz HQ. unfold readsb. do 2 lwp.
  eapply wp_mono; [|apply (bread_wp p _ a); try done; [by rewrite Ho|]].
  2: { right. unfold open_blocks. rewrite Ho, Hdy, map_img_empty_L, union_empty_r_L, size_empty.
       unfold NBUF. lia. }
  intros i ? b1 (-> & Hs1 & Hi & Ha1).
  assert (Hopen : (<[i := 1]> (aopen a) : gmap nat Z) !! i = Some 1) by apply lookup_insert_eq.
  do 2 lwp. lwp. rewrite (open_data p b1 _ i 1 Ha1) by done. cbn [acontent set_open]. lwp. lwp.
  eapply wp_mono; [|apply (brelse_wp p _ _ i 1 _ Ha1); try done; simpl].
  2: { right. apply (ba_clean _ _ _ Ha); [lia|set_solver|by rewrite Ho]. }
  intros [] ? b2 (-> & Hs2 & Ha2). lwp. apply HQ; [apply same_thread_woken| |].
  - constructor; [done|]. simpl in *. congruence.
  - simpl. match type of Ha2 with babs _ _ ?x => replace a with x; [done|] end.
    unfold set_closed, set_open. simpl. rewrite delete_insert_id by done. by destruct a.
Qed.

Lemma boot_wp sz D st lim bs c l : disk_ok sz D st lim bs -> fresh_log l -> held c = [] ->
  wp boot c (Lst (boot_bst sz D) l) (fun _ _ s' =>
    writes (bio s') = recovery_writes st D /\ disksize (bio s') = sz /\ lhn (lg s') = 0 /\
    forall blk, disk (bio s') blk = apply_writes D (recovery_writes st D) blk).
Proof.
  intros [K1 K2 K3 K4 K5 K6 K7 K8 K9] Hl Hc. unfold boot. do 2 lwp.
  eapply wp_mono; [|apply (binit_wp (mypid c) sz D c)].
  intros _ ? b1 (-> & Hs1 & Ha1). unfold initlog.
  change (4 + 4 * LOGSIZE >=? BSIZE) with false. cbn match. lwp.
  apply (readsb_wp (mypid c) _ (Abio D D [] ∅ ∅) c); try done; [simpl; lia|].
  intros c2 s2 Hth2 [Elg2 Esz2] Ha2. cbn [acontent]. lwp. lwp. rewrite Elg2.
  cbn [lg set_bio outstanding committing lhn lhblock]. rewrite K1, K2.
  eapply (recover_wp (mypid c) _ (Abio D D [] ∅ ∅) bs); cbn; try done.
  - by rewrite (st_held _ _ Hth2).
  - by rewrite (st_pid _ _ Hth2).
  - cbn in Esz2. constructor; cbn; rewrite ?Esz2, ?Hs1; try done; try lia.
    + unfold LOGSIZE, MAXOPBLOCKS, NBUF in *. lia.
    + intros b Hb. destruct (K8 b Hb) as (? & ? & ?). done.
  - intros c3 s3 Hth3 Hn Esz3 Ha3.
    destruct (fold_awrite (Abio D D [] ∅ ∅) (recovery_writes st D)) as (Dk & _ & Wr & _).
    split_and!.
    + rewrite (ba_writes _ _ _ Ha3), Wr. done.
    + cbn in Esz2. congruence.
    + done.
    + intros blk. rewrite (ba_disk _ _ _ Ha3), Dk. done.
Qed.

(** Outside the log, the writes of recovery install the logged blocks. *)
Lemma recovery_writes_out st D blk : blk <> st ->
  apply_writes D (recovery_writes st D) blk = recovered st D blk.
Proof.
  intros Hne. unfold recovery_writes. rewrite apply_writes_app. by rewrite apply_writes_one_ne.
Qed.

(** Cutting recovery short and recovering again. *)
Lemma recovery_prefix sz D st lim bs k : disk_ok sz D st lim bs -> block_wf (D st) ->
  let D' := apply_writes D (take k (recovery_writes st D)) in
  (exists bs', disk_ok sz D' st lim bs') /\
  forall blk, ~ (st <= blk < st + lim) -> recovered st D' blk = recovered st D blk.
Proof.
  intros [K1 K2 K3 K4 K5 K6 K7 K8 K9] Hwf D'.
  assert (Hkeys : forall j, (take j (home_writes st 0 bs D)).*1 = take j bs).
  { intros j. by rewrite fmap_take, home_writes_keys. }
  assert (Hlen : length (home_writes st 0 bs D) = length bs).
  { by rewrite <- (home_writes_keys st 0 bs D) at 2; rewrite length_fmap. }
  assert (ER : recovery_writes st D = home_writes st 0 bs D ++ [(st, put32 (D st) 0 0)]).
  { unfold recovery_writes. by rewrite K5. }
  destruct (decide (k <= length bs)%nat) as [Hk|Hk].
  - assert (ED : D' = apply_writes D (take k (home_writes st 0 bs D))).
    { unfold D'. by rewrite ER, take_app_le by lia. }
    assert (Hout : forall b, b ∉ bs -> D' b = D b).
    { intros b Hb. rewrite ED. apply apply_writes_out. rewrite Hkeys. by intros ?%elem_of_take_incl. }
    assert (Hlog : forall b, b = 1 \/ st <= b < st + lim -> D' b = D b).
    { intros b Hb. apply Hout. intros Hin. destruct (K8 b Hin) as (_ & ? & ?). lia. }
    split.
    + exists bs. constructor; rewrite ?Hlog by lia; done.
    + intros blk Hb. unfold recovered. rewrite (Hlog st), K5 by lia.
      rewrite (home_writes_ext st 0 bs D' D) by (intros; apply Hlog; lia).
      destruct (decide (blk ∈ bs)) as [Hin|Hin].
      * apply list_elem_of_lookup_1 in Hin as [i Hi]. apply (home_writes_at st 0 bs D) in Hi.
        rewrite !(apply_writes_in _ _ _ _ (ltac:(by rewrite home_writes_keys)) Hi). done.
      * rewrite !apply_writes_out by by rewrite home_writes_keys. by apply Hout.
  - assert (ED : D' = apply_writes D (recovery_writes st D)).
    { unfold D'. rewrite take_ge; [done|]. rewrite ER, length_app. simpl. lia. }
    assert (Hst : D' st = put32 (D st) 0 0).
    { rewrite ED. unfold recovery_writes. rewrite apply_writes_app. apply apply_writes_one. }
    destruct (hdr_clear (D st) Hwf) as [Hn Hb]. rewrite <- Hst in Hn, Hb.
    assert (H1 : D' 1 = D 1).
    { rewrite ED, recovery_writes_out by lia. unfold recovered. rewrite K5.
      apply apply_writes_out. rewrite home_writes_keys. intros Hin. by destruct (K8 1 Hin) as (_ & ? & _). }
    split.
    + exists []. constructor; [by rewrite H1|by rewrite H1|done|exact Hn|exact Hb|simpl; lia| | |].
      * unfold NBUF. simpl. lia.
      * by intros b ?%not_elem_of_nil.
      * constructor.
    + intros blk Hbl. rewrite (proj1 (recovered_idle st D' Hn)), ED.
      apply recovery_writes_out. lia.
Qed.
End boot.

(** * Crash safety *)

Lemma commit_writes_keys st bs f b : b ∈ (commit_writes st bs f).*1 ->
  b ∈ bs \/ st <= b <= st + Z.of_nat (length bs).
Proof.
  unfold commit_writes. rewrite !fmap_app, !elem_of_app, (homes_keys bs f). cbn.
  rewrite !list_elem_of_singleton. intros [H%log_writes_keys | [-> | [H | ->]]]; [right; lia|right; lia|by left|].
  right. lia.
Qed.

(** The disk once a commit is complete, outside the log. *)
Lemma commit_writes_disk st lim bs f D b : Z.of_nat (length bs) < lim ->
  (forall b, b ∈ bs -> ~ (st <= b < st + lim)) -> NoDup bs -> ~ (st <= b < st + lim) ->
  apply_writes D (commit_writes st bs f) b = if decide (b ∈ bs) then f b else D b.
Proof.
  intros Hlen Hh Hnd Hb. unfold commit_writes. rewrite !apply_writes_app.
  rewrite apply_writes_one_ne by lia. destruct (decide (b ∈ bs)) as [Hin|Hin].
  - apply apply_writes_in; [by rewrite homes_keys|]. apply list_elem_of_fmap. eauto.
  - rewrite apply_writes_out by by rewrite homes_keys. rewrite apply_writes_one_ne by lia.
    apply apply_writes_out. intros H%log_writes_keys. lia.
Qed.

(** The disk left by [k] writes of a commit. *)
Lemma crash_disk_ok sz D st lim bs f k : disk_ok sz D st lim [] -> sz < 2147483648 ->
  Z.of_nat (length bs) < lim -> (length bs < NBUF)%nat ->
  (forall b, b ∈ bs -> 0 <= b < sz /\ b <> 1 /\ ~ (st <= b < st + lim)) -> NoDup bs ->
  block_wf (f st) ->
  let D' := apply_writes D (take k (commit_writes st bs f)) in
  (exists bs', disk_ok sz D' st lim bs') /\
  ((forall blk, ~ (st <= blk < st + lim) -> recovered st D' blk = D blk) \/
   (forall blk, ~ (st <= blk < st + lim) -> recovered st D' blk = new_disk bs f D blk)).
Proof.
  intros [K1 K2 K3 K4 K5 K6 K7 K8 K9] Hsz Hlen Hcap Hh Hnd Hwf D'.
  assert (H1 : D' 1 = D 1).
  { apply apply_writes_out. rewrite fmap_take. intros Hin%elem_of_take_incl%commit_writes_keys.
    destruct Hin as [Hin|?]; [by destruct (Hh 1 Hin) as (_ & ? & _)|lia]. }
  assert (Hmax : Z.of_nat (length bs) <= LOGSIZE) by (unfold LOGSIZE, MAXOPBLOCKS, NBUF in *; lia).
  assert (Hi : forall b, b ∈ bs -> is_i32 b /\ ~ (st <= b < st + lim)).
  { intros b Hb. destruct (Hh b Hb) as (? & ? & ?). split; [wrap_lia|done]. }
  assert (Hok : forall bs', hdr_n (D' st) = Z.of_nat (length bs') -> hdr_blocks (D' st) = bs' ->
            bs' = bs \/ bs' = [] -> exists bs', disk_ok sz D' st lim bs').
  { intros bs' E1 E2 E3. exists bs'. constructor; [by rewrite H1|by rewrite H1|done|done|done|..];
      destruct E3 as [-> | ->]; done. }
  destruct (decide (k <= length bs)%nat) as [Hk|Hk].
  - destruct (crash_before st lim bs f D Hlen K4 k Hk) as (E1 & E2 & E3).
    split; [apply (Hok []); auto|by left].
  - destruct (crash_after st lim bs f D Hlen Hmax Hi Hnd Hwf k) as (E & E3); [lia|].
    split; [|by right]. destruct E as [[E1 E2]|[E1 E2]]; [by apply (Hok bs); auto|apply (Hok []); auto].
Qed.

Lemma ready_dirty_bs p s a bs b : ready p s a bs -> 0 <= b < disksize (bio s) ->
  acontent a b = new_disk bs (acontent a) (disk (bio s)) b.
Proof.
  intros Hr Hb. unfold new_disk. case_decide as Hin; [done|].
  rewrite (ba_disk _ _ _ (rd_abs _ _ _ _ Hr)). apply (ba_clean _ _ _ (rd_abs _ _ _ _ Hr)); [done| |].
  - rewrite (rd_dirty _ _ _ _ Hr), elem_of_list_to_set. done.
  - intros i. by rewrite (rd_open _ _ _ _ Hr).
Qed.

(** C1: a transaction is atomic across crashes.  [commit] issues a sequence
    of disk writes; crash after any number [k] of them, boot (empty cache,
    [initlog]) and the file-system blocks are all as before the transaction
    or all as the transaction left them in the cache. *)
Theorem commit_crash_safe p s a bs c :
  ready p s a bs -> held c = [] -> mypid c = p ->
  disk_ok (disksize (bio s)) (disk (bio s)) (lstart (lg s)) (lsize (lg s)) [] ->
  disksize (bio s) < 2147483648 -> 1 ∉ bs -> block_wf (acontent a (lstart (lg s))) ->
  wp commit c s (fun _ _ s' => exists ws,
    writes (bio s') = writes (bio s) ++ ws /\
    forall k l c0, fresh_log l -> held c0 = [] ->
      wp boot c0 (Lst (boot_bst (disksize (bio s)) (apply_writes (disk (bio s)) (take k ws))) l)
        (fun _ _ s0 =>
          (forall b, 0 <= b < disksize (bio s) -> ~ in_log (lg s) b ->
             disk (bio s0) b = disk (bio s) b) \/
          (forall b, 0 <= b < disksize (bio s) -> ~ in_log (lg s) b ->
             disk (bio s0) b = acontent a b))).
Proof.
  intros Hr Hc Hp Hok Hsz H1 Hwf. set (st := lstart (lg s)) in *. set (f := acontent a) in *.
  destruct (decide (bs = [])) as [->|Hne].
  - unfold commit. do 2 lwp. rewrite (rd_n _ _ _ _ Hr). wp_step; [done|]. exists [].
    split; [by rewrite app_nil_r|]. intros k l c0 Hl Hc0. rewrite take_nil. cbn [apply_writes foldl].
    eapply wp_mono; [|exact (boot_wp _ _ _ _ _ c0 l Hok Hl Hc0)].
    intros _ _ s0 (_ & _ & _ & Hd). left. intros b _ Hb. rewrite Hd, recovery_writes_out.
    + unfold recovered. by rewrite (dk_bs _ _ _ _ _ Hok).
    + intros ->. apply Hb. unfold in_log. fold st. pose proof (dk_range _ _ _ _ _ Hok). lia.
  - apply (commit_wp p s a bs); try done. intros c' s' _ _ _ Ha'. fold st f in Ha'.
    exists (commit_writes st bs f).
    destruct (fold_awrite a (commit_writes st bs f)) as (_ & _ & Wr & _).
    split; [by rewrite (ba_writes _ _ _ Ha'), Wr, (ba_writes _ _ _ (rd_abs _ _ _ _ Hr))|].
    intros k l c0 Hl Hc0. pose proof (rd_geom _ _ _ _ Hr) as Hg.
    assert (Hh : forall b, b ∈ bs -> 0 <= b < disksize (bio s) /\ b <> 1 /\
              ~ (st <= b < st + lsize (lg s))).
    { intros b Hb. destruct (lg_home _ _ Hg b Hb) as [? ?]. split_and!; [lia..| |done].
      intros ->. done. }
    destruct (crash_disk_ok (disksize (bio s)) (disk (bio s)) st (lsize (lg s)) bs f k Hok Hsz
      (lg_room _ _ Hg) (lg_cap _ _ Hg) Hh (lg_nodup _ _ Hg) Hwf) as [[bs' Hok'] Hrec].
    eapply wp_mono; [|exact (boot_wp _ _ _ _ _ c0 l Hok' Hl Hc0)].
    intros _ _ s0 (_ & _ & _ & Hd).
    assert (Hst : forall b, ~ in_log (lg s) b -> b <> st).
    { intros b Hb ->. apply Hb. unfold in_log. fold st. pose proof (dk_range _ _ _ _ _ Hok). lia. }
    destruct Hrec as [Hrec|Hrec]; [left|right]; intros b Hb Hnl;
      rewrite Hd, recovery_writes_out, Hrec by auto; [done|].
    symmetry. by apply (ready_dirty_bs p).
Qed.

(** C10: recovery is idempotent across crashes.  Boot from a disk whose log
    holds a committed transaction, crash after any number [k] of recovery's
    writes, boot again: the result is the fully installed transaction
    ([k = 0] is recovery without a crash). *)
Theorem recovery_crash_safe sz D st lim bs k l c :
  disk_ok sz D st lim bs -> block_wf (D st) -> fresh_log l -> held c = [] ->
  wp boot c (Lst (boot_bst sz D) l) (fun _ _ s' =>
    wp boot c (Lst (boot_bst sz (apply_writes D (take k (writes (bio s'))))) l) (fun _ _ s'' =>
      lhn (lg s'') = 0 /\
      forall b, ~ (st <= b < st + lim) ->
        disk (bio s'') b = disk (bio s') b /\ disk (bio s'') b = recovered st D b)).
Proof.
  intros Hok Hwf Hl Hc. eapply wp_mono; [|exact (boot_wp sz D st lim bs c l Hok Hl Hc)].
  intros _ _ s' (Hw & _ & _ & Hd). rewrite Hw.
  destruct (recovery_prefix sz D st lim bs k Hok Hwf) as [[bs' Hok'] Hrec].
  eapply wp_mono; [|exact (boot_wp sz _ st lim bs' c l Hok' Hl Hc)].
  intros _ _ s'' (_ & _ & Hn & Hd'). split; [done|]. intros b Hb.
  assert (b <> st) by (pose proof (dk_range _ _ _ _ _ Hok); lia).
  rewrite Hd', Hd, !recovery_writes_out by done. by rewrite Hrec.
Qed.

(** * Examples *)

Definition ex_lst : lst := Lst ex_bst (Log 2 30 1 false 1 1 (40 :: replicate 29 0)).

Lemma ex_ready : ready 1 ex_lst ex_abio [40].
Proof.
  constructor.
  - apply ex_babs.
  - done.
  - constructor; cbn; try done; try (unfold NBUF; lia).
    + intros b ->%list_elem_of_singleton. unfold in_log. cbn. lia.
    + apply NoDup_singleton.
  - by exists (replicate 29 0).
  - done.
  - set_solver.
Qed.

Lemma ex_disk_ok : disk_ok 1000 ex_disk 2 30 [].
Proof.
  constructor; try (vm_compute; reflexivity); try lia.
  - unfold NBUF. simpl. lia.
  - by intros b ?%not_elem_of_nil.
  - constructor.
Qed.

Lemma ex_new_wf b : block_wf (<[40 := ex_new]> ex_disk b).
Proof.
  destruct (decide (b = 40)) as [->|]; [rewrite fn_lookup_insert; unfold ex_new; auto with xv6|].
  rewrite fn_lookup_insert_ne by done. unfold ex_disk.
  destruct (decide (b = 1)) as [->|]; [rewrite fn_lookup_insert; unfold ex_sb; auto with xv6|].
  rewrite fn_lookup_insert_ne by done. auto with xv6.
Qed.

Lemma commit_crash_safe_witness :
  wp commit ctx0 ex_lst (fun _ _ s' => exists ws, writes (bio s') = ws /\
    wp boot ctx0 (Lst (boot_bst 1000 (apply_writes ex_disk (take 2 ws))) (lg ex_lst))
      (fun _ _ s0 => disk (bio s0) 40 = zero_block \/ disk (bio s0) 40 = ex_new)).
Proof.
  eapply wp_mono; [|apply (commit_crash_safe 1 ex_lst ex_abio [40] ctx0 ex_ready eq_refl eq_refl
    ex_disk_ok eq_refl)].
  - intros _ _ s' (ws & Hw & H). exists ws. split; [exact Hw|].
    eapply wp_mono; [|apply (H 2%nat (lg ex_lst) ctx0); reflexivity].
    assert (Hr : 0 <= 40 < 1000) by lia. assert (Hl : ~ in_log (lg ex_lst) 40) by (unfold in_log; cbn; lia).
    intros _ _ s0 [E|E]; [left|right]; rewrite (E 40 Hr Hl); [by vm_compute|].
    cbn. apply fn_lookup_insert.
  - by intros ?%list_elem_of_singleton.
  - apply ex_new_wf.
Defined.

(** A disk with a committed transaction on block 40 still in its log. *)
Definition ex_hdr : block := put_blocks (put32 zero_block 0 1) 0 [40].
Definition ex_disk2 : Z -> block := <[2 := ex_hdr]> (<[3 := ex_new]> ex_disk).

Lemma ex_disk2_ok : disk_ok 1000 ex_disk2 2 30 [40].
Proof.
  constructor; try (vm_compute; reflexivity); try (simpl; lia).
  - unfold NBUF. simpl. lia.
  - intros b ->%list_elem_of_singleton. lia.
  - apply NoDup_singleton.
Qed.

Lemma recovery_crash_safe_witness :
  wp boot ctx0 (Lst (boot_bst 1000 ex_disk2) (lg ex_lst)) (fun _ _ s' =>
    wp boot ctx0 (Lst (boot_bst 1000 (apply_writes ex_disk2 (take 1 (writes (bio s'))))) (lg ex_lst))
      (fun _ _ s'' => disk (bio s'') 40 = ex_new)).
Proof.
  eapply wp_mono; [|apply (recovery_crash_safe 1000 ex_disk2 2 30 [40] 1 (lg ex_lst) ctx0 ex_disk2_ok)].
  - intros u c' s'. cbn beta. apply wp_mono. intros u' c'' s'' [_ H].
    destruct (H 40) as [_ E]; [lia|]. rewrite E. by vm_compute.
  - unfold ex_disk2. rewrite fn_lookup_insert. unfold ex_hdr. cbn [put_blocks]. auto with xv6.
  - reflexivity.
  - reflexivity.
Defined.
