(* ===== verification/LogOps.v ===== *)
(** * System-call transactions (log.c): begin_op, log_write, end_op

    [tinv] relates the in-memory header to the pinned buffers; [log_write]
    extends the transaction, absorbing repeated writes of a block, and the
    last [end_op] commits it. *)
From stdpp Require Import functions.
From S2P Require Import Prelude CString Mmu Block Sleeplock Bio Log LogSpec.

(** The header names exactly the pinned blocks, each once. *)
Record tinv (p : Z) (s : lst) (a : abio) (bs : list Z) : Prop := {
  ti_abs : babs p (bio s) a;
  ti_len : Z.of_nat (length (lhblock (lg s))) = LOGSIZE;
  ti_bs : exists rest, lhblock (lg s) = bs ++ rest;
  ti_n : lhn (lg s) = Z.of_nat (length bs);
  ti_dirty : adirty a = list_to_set bs;
  ti_nodup : NoDup bs;
  ti_int : Forall (fun b => 0 <= b < 2147483648) bs
}.

Section log_write.
Variable p : Z.

Lemma log_index_spec bs rest b : forall k i, (i + Z.of_nat k)%Z = Z.of_nat (length bs) -> 0 <= i ->
  Forall (fun b => 0 <= b < 2147483648) bs ->
  let r := log_index (bs ++ rest) k i b in
  (bs !! Z.to_nat r = Some b /\ i <= r < Z.of_nat (length bs)) \/
  (r = Z.of_nat (length bs) /\ forall j, i <= Z.of_nat j -> bs !! j <> Some b).
Proof.
  induction k as [|k IH]; intros i Hk Hi HF; cbn [log_index].
  - right. split; [lia|]. intros j Hj Hb%lookup_lt_Some. lia.
  - assert (Hlt : (Z.to_nat i < length bs)%nat) by lia.
    destruct (lookup_lt_is_Some_2 bs _ Hlt) as [x Hx].
    assert (Hn : nth (Z.to_nat i) (bs ++ rest) 0 = x).
    { rewrite nth_lookup, lookup_app_l by lia. by rewrite Hx. }
    assert (Hr : 0 <= x < 2147483648).
    { rewrite Forall_forall in HF. eapply HF, list_elem_of_lookup_2, Hx. }
    rewrite Hn, u32_small by wrap_lia. destruct (Z.eqb_spec x b) as [->|Hne].
    + left. split; [done|lia].
    + destruct (IH (i + 1)) as [[H1 H2]|[H1 H2]]; [lia|lia|done|left|right].
      * split; [done|lia].
      * split; [done|]. intros j Hj. destruct (decide (i = Z.of_nat j)) as [->|].
        -- rewrite Nat2Z.id in Hx. congruence.
        -- apply H2. lia.
Qed.

(** The transaction after logging [b]. *)
Definition absorb (b : Z) (bs : list Z) : list Z := if decide (b ∈ bs) then bs else bs ++ [b].

Lemma absorb_header bs rest b : Forall (fun b => 0 <= b < 2147483648) bs ->
  0 <= b < 2147483648 -> (length bs < length (bs ++ rest))%nat ->
  let i := log_index (bs ++ rest) (length bs) 0 b in
  (exists rest', <[Z.to_nat i := i32 b]> (bs ++ rest) = absorb b bs ++ rest') /\
  (i =? Z.of_nat (length bs)) = negb (bool_decide (b ∈ bs)).
Proof.
  intros HF Hb Hlen i. rewrite (i32_small b) by wrap_lia. unfold absorb.
  destruct (log_index_spec bs rest b (length bs) 0) as [[H1 H2]|[H1 H2]]; [lia|lia|done|..].
  - fold i in H1, H2. assert (Hin : b ∈ bs) by (eapply list_elem_of_lookup_2, H1).
    rewrite decide_True, bool_decide_true by done. split; [|simpl; lia]. exists rest.
    rewrite insert_app_l by lia. by rewrite list_insert_id.
  - fold i in H1. assert (Hin : b ∉ bs).
    { intros [j Hj]%list_elem_of_lookup_1. by apply (H2 j); [lia|]. }
    rewrite decide_False, bool_decide_false by done. split; [|simpl; lia].
    rewrite H1, Nat2Z.id. destruct rest as [|y rest]; [rewrite app_nil_r in Hlen; lia|].
    exists rest. rewrite insert_app_r_alt by lia. rewrite Nat.sub_diag. simpl.
    by rewrite <- app_assoc.
Qed.

Lemma log_write_wp s a bs i blk c :
  tinv p s a bs -> held c = [] -> mypid c = p -> aopen a !! i = Some blk ->
  0 <= blk < 2147483648 -> 1 <= outstanding (lg s) ->
  Z.of_nat (length bs) < LOGSIZE -> Z.of_nat (length bs) < lsize (lg s) - 1 ->
  wp (log_write i) c s (fun _ c' s' => c' = c /\ tinv p s' (pin blk a) (absorb blk bs) /\
    outstanding (lg s') = outstanding (lg s) /\ committing (lg s') = committing (lg s) /\
    disksize (bio s') = disksize (bio s) /\ lstart (lg s') = lstart (lg s) /\
    lsize (lg s') = lsize (lg s) /\ ldev (lg s') = ldev (lg s)).
Proof.
  intros [Ha Hlen [rest Hbl] Hn Hd Hnd HF] Hc Hp Ho Hblk Hout Hr1 Hr2.
  pose proof (ba_open _ _ _ Ha _ _ Ho) as Hi.
  destruct (br_open _ _ _ _ _ (ba_rel _ _ _ Ha i Hi) _ Ho) as [_ Ebn].
  unfold log_write. do 2 lwp. unfold id. rewrite Hn.
  rewrite !Z.geb_leb, !(proj2 (Z.leb_gt _ _)) by lia. cbn [orb].
  rewrite (proj2 (Z.ltb_ge _ _)) by lia. lwp. lwp; [rewrite Hc; set_solver|].
  do 2 lwp. lwp. do 2 lwp. unfold id. rewrite Ebn, Hbl, Hn, Nat2Z.id.
  rewrite Hbl in Hlen.
  destruct (absorb_header bs rest blk) as [[rest' Hins] Hidx];
    [done|done|unfold LOGSIZE, MAXOPBLOCKS in *; lia|].
  set (idx := log_index _ _ _ _) in *. do 2 lwp.
  assert (Hab : babs p (upd_buf i (fun x => set_flags (Z.lor (flags x) B_DIRTY) x) (bio s)) (pin blk a))
    by by apply babs_pin.
  assert (Hdirty : adirty (pin blk a) = list_to_set (absorb blk bs)).
  { simpl. rewrite Hd. unfold absorb. case_decide; set_solver. }
  assert (Hnd' : NoDup (absorb blk bs)).
  { unfold absorb. case_decide; [done|]. apply NoDup_app. split_and!; [done|set_solver|].
    apply NoDup_singleton. }
  assert (HF' : Forall (fun b => 0 <= b < 2147483648) (absorb blk bs)).
  { unfold absorb. case_decide; [done|]. apply Forall_app. split; [done|by apply Forall_singleton]. }
  assert (Hlen' : Z.of_nat (length (absorb blk bs ++ rest')) = LOGSIZE).
  { rewrite <- Hins, length_insert. done. }
  lwp. rewrite Hidx. unfold absorb in *. destruct (decide (blk ∈ bs)) as [Hin|Hin].
  - rewrite bool_decide_true by done. wp_step; [done|]. do 2 lwp. lwp. wp_step.
    split_and!; try done; [destruct c; simpl in *; by rewrite Hc|].
    constructor; cbn; try done; rewrite ?Hbl, ?Hins; eauto.
  - rewrite bool_decide_false by done. wp_step; [|done]. do 2 lwp. lwp. lwp. wp_step.
    split_and!; try done; [destruct c; simpl in *; by rewrite Hc|].
    constructor; cbn; try done; rewrite ?Hbl, ?Hins; eauto.
    rewrite Hn, length_app. simpl. lia.
Qed.

(** Inside a transaction with room left, [log_write] of an open buffer
    records its block exactly once, however often it is logged, and pins
    the buffer; nothing is written to the disk. *)
Theorem log_write_correct s a bs i blk c :
  tinv p s a bs -> held c = [] -> mypid c = p -> aopen a !! i = Some blk ->
  0 <= blk < 2147483648 -> 1 <= outstanding (lg s) ->
  Z.of_nat (length bs) < LOGSIZE -> Z.of_nat (length bs) < lsize (lg s) - 1 ->
  wp (log_write i) c s (fun _ c' s' => c' = c /\ tinv p s' (pin blk a) (absorb blk bs) /\
    outstanding (lg s') = outstanding (lg s) /\ committing (lg s') = committing (lg s) /\
    disksize (bio s') = disksize (bio s)).
Proof.
  intros. eapply wp_mono; [|by apply log_write_wp]. naive_solver.
Qed.

Lemma tinv_ready s a bs : tinv p s a bs -> aopen a = ∅ -> lgeom s bs -> ready p s a bs.
Proof. intros [H1 H2 H3 H4 H5 H6 H7] Ho Hg. by constructor. Qed.

(** An operation starts at once exactly when no commit is in progress
    and the log has room for it besides the operations already admitted;
    otherwise the caller sleeps on the log, holding nothing. *)
Theorem begin_op_admission c s : held c = [] ->
  if committing (lg s) || (lhn (lg s) + (outstanding (lg s) + 1) * MAXOPBLOCKS >? LOGSIZE)
  then blocks begin_op c s (fun ch c' s' => ch = ChLog /\ s' = s /\ held c' = [Lptable])
  else wp begin_op c s (fun _ c' s' => c' = c /\ bio s' = bio s /\
         lg s' = set_outstanding (outstanding (lg s) + 1) (lg s)).
Proof.
  intros Hc. unfold begin_op. destruct (committing (lg s)) eqn:Ec; cbn [orb];
    [|destruct (lhn (lg s) + (outstanding (lg s) + 1) * MAXOPBLOCKS >? LOGSIZE) eqn:Er].
  1,2: apply blocks_bind, wp_acquire; [rewrite Hc; set_solver|];
    apply blocks_bind, wp_gets; unfold id; rewrite Ec, ?Er; apply blocks_sleep;
    [by destruct c; simpl in *; rewrite Hc|done].
  lwp. lwp; [rewrite Hc; set_solver|]. do 2 lwp. unfold id. rewrite Ec, Er. do 2 lwp. wp_step.
  split_and!; try done. by destruct c.
Qed.

(** The log's parameters, which no operation changes. *)
Record same_log (l l' : log) : Prop := {
  sl_start : lstart l' = lstart l; sl_size : lsize l' = lsize l; sl_dev : ldev l' = ldev l;
  sl_block : lhblock l' = lhblock l
}.

(** What the commit leaves: an empty transaction, and every block outside the
    log on the disk with its logical contents. *)
Record settled (s : lst) (a : abio) (s' : lst) (a' : abio) : Prop := {
  se_abs : babs p (bio s') a';
  se_open : aopen a' = aopen a;
  se_dirty : adirty a' = ∅;
  se_home : forall b, 0 <= b < disksize (bio s) -> ~ in_log (lg s) b ->
    acontent a' b = acontent a b /\ adisk a' b = acontent a b;
  se_size : disksize (bio s') = disksize (bio s);
  se_log : same_log (lg s) (lg s');
  se_n : lhn (lg s') = 0;
  se_out : outstanding (lg s') = outstanding (lg s)
}.

Lemma commit_settles s a bs c : ready p s a bs -> NoDup bs -> held c = [] -> mypid c = p ->
  wp commit c s (fun _ c' s' => same_thread c c' /\ exists a', settled s a s' a').
Proof.
  intros Hrd Hnd Hc Hp. pose proof (rd_geom _ _ _ _ Hrd) as Hg.
  destruct (decide (bs = [])) as [->|Hne].
  - unfold commit. do 2 lwp. pose proof (rd_n _ _ _ _ Hrd) as Hn. rewrite Hn. wp_step; [done|].
    split; [done|]. exists a. constructor; try done; [apply Hrd|apply Hrd|].
    intros b Hb Hl. split; [done|]. symmetry. apply (ba_clean _ _ _ (rd_abs _ _ _ _ Hrd)); [done| |].
    + by rewrite (rd_dirty _ _ _ _ Hrd).
    + intros i. by rewrite (rd_open _ _ _ _ Hrd).
  - apply (commit_wp p s a bs); try done. intros c' s' Hth Elg Esz Ha'. split; [done|].
    exists (foldl awrite a (commit_writes (lstart (lg s)) bs (acontent a))).
    destruct (fold_awrite a (commit_writes (lstart (lg s)) bs (acontent a))) as (Dk & Ct & _ & Op).
    constructor; rewrite ?Elg; try done.
    + rewrite fold_awrite_dirty, (rd_dirty _ _ _ _ Hrd). unfold commit_writes.
      rewrite !fmap_app, homes_keys, !list_to_set_app_L. set_solver.
    + intros b Hb Hl. rewrite Dk, Ct.
      rewrite !(commit_writes_disk (lstart (lg s)) (lsize (lg s)) bs); try done; try apply Hg.
      case_decide; [done|]. split; [done|]. symmetry.
      apply (ba_clean _ _ _ (rd_abs _ _ _ _ Hrd)); [done| |].
      * by rewrite (rd_dirty _ _ _ _ Hrd), elem_of_list_to_set.
      * intros i. by rewrite (rd_open _ _ _ _ Hrd).
Qed.

Lemma end_op_wp s a bs c (Q : unit -> ctx -> lst -> Prop) :
  tinv p s a bs -> aopen a = ∅ -> lgeom s bs -> held c = [] -> mypid c = p ->
  outstanding (lg s) = 1 -> committing (lg s) = false ->
  (forall c' s' a', same_thread c c' -> ChLog ∈ woken c' ->
     settled (set_lg (set_outstanding 0 (lg s)) s) a s' a' ->
     committing (lg s') = false -> Q tt c' s') ->
  wp end_op c s Q.
Proof.
  intros Ht Ho Hg Hc Hp Hout Hcm HQ. unfold end_op. lwp. lwp; [rewrite Hc; set_solver|].
  do 2 lwp. do 2 lwp. unfold id. cbn [committing set_outstanding outstanding]. rewrite Hcm, Hout.
  change (1 - 1 =? 0) with true. cbn match. do 2 lwp. lwp. lwp. wp_step; [|done].
  set (c1 := set_held (held c) _). assert (Hc1 : c1 = c) by (unfold c1; by destruct c).
  rewrite Hc1. clear c1 Hc1. set (s1 := set_lg _ (set_lg _ s)).
  assert (Hrd : ready p s1 a bs).
  { pose proof (tinv_ready s a bs Ht Ho Hg) as [H1 H2 [G1 G2 G3 G4 G5 G6 G7 G8] H4 H5 H6]. done. }
  lwp. eapply wp_mono; [|apply (commit_settles s1 a bs); [done|apply Ht|done..]].
  intros [] c' s' ([T1 T2 T3] & a' & Hse).
  lwp. lwp; [rewrite T1, Hc; set_solver|]. do 2 lwp. lwp. lwp; [rewrite T1, Hc; set_solver|].
  eapply wp_release_head; [done|]. apply (HQ _ _ a'); [done|cbn; set_solver| |done].
  destruct Hse as [E1 E2 E3 E4 E5 [L1 L2 L3 L4] E7 E8]. constructor; try done.
Qed.

(** The [end_op] of the last operation makes the transaction durable:
    when it returns, every block outside the log is on the disk with its
    logical contents, the header is empty, and sleepers are woken. *)
Theorem end_op_commits s a bs c :
  tinv p s a bs -> aopen a = ∅ -> lgeom s bs -> held c = [] -> mypid c = p ->
  outstanding (lg s) = 1 -> committing (lg s) = false ->
  wp end_op c s (fun _ c' s' => same_thread c c' /\ ChLog ∈ woken c' /\
    lhn (lg s') = 0 /\ outstanding (lg s') = 0 /\ committing (lg s') = false /\
    forall b, 0 <= b < disksize (bio s) -> ~ in_log (lg s) b ->
      disk (bio s') b = acontent a b).
Proof.
  intros Ht Ho Hg Hc Hp Hout Hcm. apply (end_op_wp s a bs); try done.
  intros c' s' a' Hth Hw [E1 E2 E3 E4 E5 E6 E7 E8] Hcm'. split_and!; try done.
  intros b Hb Hl. rewrite (ba_disk _ _ _ E1). by apply E4.
Qed.
End log_write.

(** * Examples *)

Definition ex3_lst : lst := Lst ex3_bst (Log 2 30 1 false 1 0 (replicate 30 0)).

Lemma log_write_correct_witness :
  wp (log_write 0) ctx0 ex3_lst (fun _ _ s' => tinv 1 s' (pin 40 ex3_abio) [40]).
Proof.
  eapply wp_mono; [|apply (log_write_correct 1 ex3_lst ex3_abio [] 0 40 ctx0)].
  - intros _ c' s' (_ & H & _). exact H.
  - constructor; try done; [apply ex3_babs|by exists (replicate 30 0)|constructor].
  - reflexivity.
  - reflexivity.
  - reflexivity.
  - lia.
  - cbn. lia.
  - cbn. unfold LOGSIZE, MAXOPBLOCKS. lia.
  - cbn. lia.
Defined.

Lemma begin_op_admission_witness :
  wp begin_op ctx0 ex3_lst (fun _ _ s' => outstanding (lg s') = 2).
Proof.
  eapply wp_mono; [|exact (begin_op_admission ctx0 ex3_lst eq_refl)].
  intros _ c' s' (_ & _ & ->). reflexivity.
Defined.

Lemma end_op_commits_witness :
  wp end_op ctx0 ex_lst (fun _ _ s' => disk (bio s') 40 = ex_new).
Proof.
  eapply wp_mono; [|apply (end_op_commits 1 ex_lst ex_abio [40] ctx0)].
  - intros _ c' s' (_ & _ & _ & _ & _ & H). rewrite H; [cbn; apply fn_lookup_insert|cbn; lia|].
    unfold in_log. cbn. lia.
  - destruct ex_ready as [H1 H2 H3 H4 H5 H6]. constructor; try done; [apply NoDup_singleton|].
    repeat constructor; lia.
  - reflexivity.
  - apply ex_ready.
  - reflexivity.
  - reflexivity.
  - reflexivity.
  - reflexivity.
Defined.

(** The log admits three operations of [MAXOPBLOCKS] blocks each, but with
    the log size that mkfs writes (30 blocks, one of them the header) only
    29 blocks fit: the thirtieth distinct block panics. *)
Theorem log_one_block_short b c s :
  lsize (lg s) = LOGSIZE -> lhn (lg s) = 3 * MAXOPBLOCKS - 1 ->
  log_write b c s = Panic "too big a transaction".
Proof.
  intros Hs Hn. unfold log_write, mbind, M_bind, getl, gets, obind, id.
  rewrite Hs, Hn. reflexivity.
Qed.
