(* ===== verification/Console.v ===== *)
(** * The console (console.c)

    Output to the CGA screen and the serial line, and the line-editing input
    ring shared by the keyboard interrupt and [consoleread]. *)
From stdpp Require Import functions.
From S2P Require Import Prelude CString Format.

Definition BACKSPACE : Z := 256.
Definition INPUT_BUF : Z := 128.
(** [C(x)] for the control characters the driver knows. *)
Definition CtlD : Z := 4.
Definition CtlH : Z := 8.
Definition CtlP : Z := 16.
Definition CtlU : Z := 21.
Definition ch_nl : Z := 10.
Definition ch_cr : Z := 13.
Definition ch_del : Z := 127.
Definition ch_space : Z := 32.

(** CGA memory and the cursor position held in the controller's registers 14
    and 15, 16 bits together. *)
Record cga := Cga { crt : Z -> Z; pos : Z }.

(** [memmove(crt, crt+80, 2*23*80)] followed by clearing from the new cursor
    to the end of the 24 text rows. *)
Definition scroll (m : Z -> Z) (p : Z) : Z -> Z := fun i =>
  let moved := if (0 <=? i) && (i <? 23 * 80) then m (i + 80) else m i in
  if (p <=? i) && (i <? 24 * 80) then 0 else moved.

Definition cgaputc {S} (get : S -> cga) (set : cga -> S -> S) (c : Z) : M S unit :=
  g ← gets get;
  let p := pos g in
  let '(m, p) :=
    if c =? ch_nl then (crt g, p + (80 - p mod 80))
    else if c =? BACKSPACE then (crt g, if p >? 0 then p - 1 else p)
    else (<[p := Z.lor (u8 c) 1792]> (crt g), p + 1) in
  if (p <? 0) || (p >? 25 * 80) then panic "pos under/overflow" else
  let '(m, p) :=
    if p / 80 >=? 24 then (scroll m (p - 80), p - 80) else (m, p) in
  modify (set (Cga (<[p := Z.lor ch_space 1792]> m) (u16 p))).

(** The console's state: the screen, the bytes sent to the serial port, the
    [panicked] flag, [cons.locking], the [input] record, the bytes a reader
    has stored through its [dst] pointer, and whether a process listing was
    requested. *)
Record cst := Cst {
  screen : cga; uart : list Z; panicked : bool; locking : bool;
  ibuf : Z -> Z; ir : Z; iw : Z; ie : Z; dst : list Z; dumps : nat
}.
Definition set_screen (g : cga) (s : cst) : cst :=
  Cst g (uart s) (panicked s) (locking s) (ibuf s) (ir s) (iw s) (ie s) (dst s) (dumps s).
Definition put_uart (c : Z) (s : cst) : cst :=
  Cst (screen s) (uart s ++ [u8 c]) (panicked s) (locking s) (ibuf s) (ir s) (iw s) (ie s)
      (dst s) (dumps s).
Definition set_e (e : Z) (s : cst) : cst :=
  Cst (screen s) (uart s) (panicked s) (locking s) (ibuf s) (ir s) (iw s) e (dst s) (dumps s).
Definition set_w (w : Z) (s : cst) : cst :=
  Cst (screen s) (uart s) (panicked s) (locking s) (ibuf s) (ir s) w (ie s) (dst s) (dumps s).
Definition set_r (r : Z) (s : cst) : cst :=
  Cst (screen s) (uart s) (panicked s) (locking s) (ibuf s) r (iw s) (ie s) (dst s) (dumps s).
Definition set_ibuf (i c : Z) (s : cst) : cst :=
  Cst (screen s) (uart s) (panicked s) (locking s) (<[i := c]> (ibuf s)) (ir s) (iw s) (ie s)
      (dst s) (dumps s).
Definition put_dst (c : Z) (s : cst) : cst :=
  Cst (screen s) (uart s) (panicked s) (locking s) (ibuf s) (ir s) (iw s) (ie s)
      (dst s ++ [c]) (dumps s).
Definition add_dump (s : cst) : cst :=
  Cst (screen s) (uart s) (panicked s) (locking s) (ibuf s) (ir s) (iw s) (ie s)
      (dst s) (S (dumps s)).

Definition uartputc (c : Z) : M cst unit := modify (put_uart c).

(** A CPU that prints after another one panicked stops for good. *)
Definition consputc (c : Z) : M cst unit :=
  p ← gets panicked;
  if (p : bool) then panic "halted" else
  (if c =? BACKSPACE then uartputc CtlH;; uartputc ch_space;; uartputc CtlH
   else uartputc c);;
  cgaputc screen set_screen c.

Fixpoint consputs (l : list Z) : M cst unit :=
  match l with
  | [] => mret tt
  | c :: l' => consputc c;; consputs l'
  end.

(** [cprintf]: the loop's characters go out one by one through [consputc]. *)
Definition cprintf (argp : nat -> Z) (str : Z -> list Z) (fmt : option (list Z)) : M cst unit :=
  lk ← gets locking;
  when lk (acquire Lcons);;
  match fmt with
  | None => panic "null fmt"
  | Some f => consputs (cprintf_loop argp str f 0)
  end;;
  when lk (release Lcons).

(** ** Input: the keyboard interrupt *)

Definition ring (f : Z -> Z) (i : Z) : Z := f (i mod INPUT_BUF).

(** The kill-line loop; the ring holds at most 128 characters. *)
Fixpoint kill_line (fuel : nat) : M cst unit :=
  match fuel with
  | O => fun _ _ => NoFuel
  | S f =>
      s ← gets id;
      if negb (ie s =? iw s) && negb (ring (ibuf s) (u32 (ie s - 1)) =? ch_nl) then
        modify (set_e (u32 (ie s - 1)));; consputc BACKSPACE;; kill_line f
      else mret tt
  end.

(** The body of [consoleintr]'s loop for one character; the result is whether
    a process listing is to be printed. *)
Definition intr_char (c : Z) : M cst bool :=
  if c =? CtlP then mret true
  else if c =? CtlU then kill_line 129;; mret false
  else if (c =? CtlH) || (c =? ch_del) then
    s ← gets id;
    when (negb (ie s =? iw s))
      (modify (set_e (u32 (ie s - 1)));; consputc BACKSPACE);;
    mret false
  else
    s ← gets id;
    when (negb (c =? 0) && (u32 (ie s - ir s) <? INPUT_BUF))
      (let c := if c =? ch_cr then ch_nl else c in
       modify (set_ibuf (ie s mod INPUT_BUF) (u8 c));;
       modify (set_e (u32 (ie s + 1)));;
       consputc c;;
       s' ← gets id;
       when ((c =? ch_nl) || (c =? CtlD) || (ie s' =? u32 (ir s' + INPUT_BUF)))
         (modify (set_w (ie s'));; wakeup ChInput));;
    mret false.

Fixpoint intr_loop (cs : list Z) (dump : bool) : M cst bool :=
  match cs with
  | [] => mret dump
  | c :: cs' => d ← intr_char c; intr_loop cs' (dump || d)
  end.

(** [consoleintr]: [cs] are the characters [getc] returns before -1. *)
Definition consoleintr (cs : list Z) : M cst unit :=
  acquire Lcons;;
  dump ← intr_loop cs false;
  release Lcons;;
  when dump (modify add_dump).

(** ** Reading and writing *)

Fixpoint read_loop (target n : nat) : M cst (option nat) :=
  match n with
  | O => mret (Some O)
  | S n' =>
      s ← gets id;
      if ir s =? iw s then
        k ← getctx mykilled;
        if (k : bool) then mret None else sleep ChInput Lcons
      else
        let c := ring (ibuf s) (ir s) in
        modify (set_r (u32 (ir s + 1)));;
        if c =? CtlD then
          when (n <? target)%nat (modify (fun s => set_r (u32 (ir s - 1)) s));; mret (Some n)
        else
          modify (put_dst c);;
          if c =? ch_nl then mret (Some n') else read_loop target n'
  end.

(** [consoleread] between [iunlock] and [ilock] of the caller's inode. *)
Definition consoleread (n : nat) : M cst Z :=
  acquire Lcons;;
  r ← read_loop n n;
  release Lcons;;
  match r with
  | None => mret (-1)
  | Some n' => mret (Z.of_nat (n - n'))
  end.

Definition consolewrite (l : list Z) : M cst Z :=
  acquire Lcons;; consputs (u8 <$> l);; release Lcons;; mret (Z.of_nat (length l)).

(** * The screen *)

Definition screen_ok (g : cga) : Prop := 0 <= pos g < 24 * 80.

(** What a put leaves alone: every cell outside the 24 rows. *)
Definition same_below (g g' : cga) : Prop :=
  forall i, i < 0 \/ 24 * 80 <= i -> crt g' i = crt g i.

Lemma same_below_trans g1 g2 g3 : same_below g1 g2 -> same_below g2 g3 -> same_below g1 g3.
Proof. intros H1 H2 i Hi. by rewrite H2, H1. Qed.

Lemma cgaputc_wp {S} (get : S -> cga) set c k s Q : screen_ok (get s) ->
  (forall g, screen_ok g -> same_below (get s) g -> Q tt k (set g s)) ->
  wp (cgaputc get set c) k s Q.
Proof.
  intros Hg HQ. unfold screen_ok in Hg. unfold cgaputc. wp_step. wp_step.
  destruct (get s) as [m p] eqn:Eg. cbn [pos crt] in *.
  set (mp := if c =? ch_nl then _ else _).
  assert (Hmp : 0 <= mp.2 <= 24 * 80 /\ forall i, i < 0 \/ 24 * 80 <= i -> mp.1 i = m i).
  { unfold mp. destruct (c =? ch_nl); [|destruct (c =? BACKSPACE)]; cbn [fst snd].
    - split; [|done]. Z.div_mod_to_equations. lia.
    - split; [|done]. zcases; lia.
    - split; [lia|]. intros i Hi. rewrite fn_lookup_insert_ne by lia. done. }
  destruct mp as [m1 p1]. cbn [fst snd] in Hmp. destruct Hmp as [Hp1 Hm1].
  rewrite (proj2 (Z.ltb_ge p1 0)) by lia. cbn [orb].
  rewrite Z.gtb_ltb, (proj2 (Z.ltb_ge (25 * 80) p1)) by lia.
  destruct (Z.geb_spec (p1 / 80) 24) as [H|H].
  - assert (p1 = 24 * 80) by (Z.div_mod_to_equations; lia). subst p1.
    wp_step. apply HQ; [done|]. intros i Hi. cbn [crt].
    rewrite fn_lookup_insert_ne by lia. unfold scroll. zcases; by apply Hm1.
  - assert (p1 < 24 * 80) by (Z.div_mod_to_equations; lia).
    wp_step. apply HQ.
    + unfold screen_ok. cbn [pos]. wrap_lia.
    + intros i Hi. cbn [crt]. rewrite fn_lookup_insert_ne by lia. by apply Hm1.
Qed.

(** What output leaves alone, and that it never panics. *)
Record out_only (s s' : cst) : Prop := {
  oo_ibuf : ibuf s' = ibuf s; oo_r : ir s' = ir s; oo_w : iw s' = iw s; oo_e : ie s' = ie s;
  oo_dst : dst s' = dst s; oo_dumps : dumps s' = dumps s;
  oo_locking : locking s' = locking s; oo_below : same_below (screen s) (screen s')
}.
Definition running (s : cst) : Prop := panicked s = false /\ screen_ok (screen s).

Lemma out_only_refl s : out_only s s.
Proof. done. Qed.
Lemma out_only_trans s1 s2 s3 : out_only s1 s2 -> out_only s2 s3 -> out_only s1 s3.
Proof.
  intros [] []. constructor; try congruence. by eapply same_below_trans.
Qed.

(** The serial bytes of one [consputc]. *)
Definition uart_bytes (c : Z) : list Z :=
  if c =? BACKSPACE then [CtlH; ch_space; CtlH] else [u8 c].

Lemma consputc_wp c k s Q : running s ->
  (forall s', running s' -> out_only s s' -> uart s' = uart s ++ uart_bytes c -> Q tt k s') ->
  wp (consputc c) k s Q.
Proof.
  intros [Hp Hs] HQ. unfold consputc. wp_step. wp_step. rewrite Hp.
  wp_step. unfold uart_bytes in HQ.
  destruct (c =? BACKSPACE); unfold uartputc; wp_steps;
    apply cgaputc_wp; try done; intros g Hg Hb; apply HQ; try done;
    cbn; by rewrite <- ?app_assoc.
Qed.

Lemma consputs_wp l k s Q : running s ->
  (forall s', running s' -> out_only s s' -> uart s' = uart s ++ (l ≫= uart_bytes) -> Q tt k s') ->
  wp (consputs l) k s Q.
Proof.
  revert s Q. induction l as [|c l IH]; intros s Q Hs HQ; cbn [consputs]; wp_step.
  - apply HQ; [done|done|]. by rewrite app_nil_r.
  - apply consputc_wp; [done|]. intros s1 H1 Ho1 Hu1.
    apply IH; [done|]. intros s2 H2 Ho2 Hu2. apply HQ; [done|by eapply out_only_trans|].
    rewrite Hu2, Hu1. cbn. by rewrite app_assoc.
Qed.

(** * The input ring as a committed queue and an edit line *)

Definition stored (f : Z -> Z) (r : Z) (t : list Z) : Prop :=
  forall k x, t !! k = Some x -> ring f (r + Z.of_nat k) = x.

(** [q] is what readers may take, [l] the line being edited.  The line holds
    no terminator, and a full ring has no uncommitted part. *)
Record cinv (s : cst) (q l : list Z) : Prop := {
  ci_r : is_u32 (ir s);
  ci_w : iw s = u32 (ir s + Z.of_nat (length q));
  ci_e : ie s = u32 (ir s + Z.of_nat (length q + length l));
  ci_len : Z.of_nat (length q + length l) <= INPUT_BUF;
  ci_full : Z.of_nat (length q + length l) = INPUT_BUF -> l = [];
  ci_line : ch_nl ∉ l /\ CtlD ∉ l;
  ci_buf : stored (ibuf s) (ir s) (q ++ l)
}.

Lemma ring_u32 f i : ring f (u32 i) = ring f i.
Proof. unfold ring, INPUT_BUF. f_equal. wrap_lia. Qed.

Lemma stored_cons f r c t : stored f r (c :: t) -> ring f r = c /\ stored f (r + 1) t.
Proof.
  intros H. split.
  - rewrite <- (H 0%nat c eq_refl). f_equal. lia.
  - intros k x Hk. rewrite <- (H (S k) x Hk). f_equal. lia.
Qed.

Lemma stored_app_l f r t u : stored f r (t ++ u) -> stored f r t.
Proof. intros H k x Hk. apply H. by apply lookup_app_l_Some. Qed.

Lemma stored_u32 f r t : stored f (u32 r) t <-> stored f r t.
Proof.
  split; intros H k x Hk; rewrite <- (H k x Hk).
  - rewrite <- (ring_u32 f (u32 r + _)), <- (ring_u32 f (r + _)). f_equal. wrap_lia.
  - rewrite <- (ring_u32 f (u32 r + _)), <- (ring_u32 f (r + _)). f_equal. wrap_lia.
Qed.

(** Appending at the edit index touches no stored character while there is
    room. *)
Lemma stored_snoc f r t c i : stored f r t -> Z.of_nat (length t) < INPUT_BUF ->
  i mod INPUT_BUF = (r + Z.of_nat (length t)) mod INPUT_BUF ->
  stored (<[i mod INPUT_BUF := c]> f) r (t ++ [c]).
Proof.
  intros H Hl Hi k x Hk. unfold ring. apply lookup_app_Some in Hk as [Hk|[Hge Hk]].
  - rewrite fn_lookup_insert_ne; [by apply H|]. apply lookup_lt_Some in Hk.
    rewrite Hi. unfold INPUT_BUF in *. Z.div_mod_to_equations. lia.
  - apply list_lookup_singleton_Some in Hk as [Hk ->].
    replace k with (length t) by lia. rewrite <- Hi. by rewrite fn_lookup_insert.
Qed.

Lemma cinv_out s s' q l : out_only s s' -> cinv s q l -> cinv s' q l.
Proof.
  intros [E1 E2 E3 E4 _ _ _ _] []. constructor; rewrite ?E1, ?E2, ?E3, ?E4; done.
Qed.

Lemma cinv_empty_line s q l : cinv s q l -> ie s = iw s <-> l = [].
Proof.
  intros [Hr Hw He Hlen _ _ _]. rewrite Hw, He. unfold INPUT_BUF in *. split.
  - intros E. apply nil_length_inv. wrap_lia.
  - intros ->. simpl. by rewrite Nat.add_0_r.
Qed.

Lemma cinv_erase s q l c : cinv s q (l ++ [c]) -> cinv (set_e (u32 (ie s - 1)) s) q l.
Proof.
  intros [Hr Hw He Hlen Hf [Hn Hd] Hb]. rewrite length_app in *. simpl in *.
  constructor; cbn; try done.
  - rewrite He. unfold INPUT_BUF in *. wrap_lia.
  - lia.
  - lia.
  - set_solver.
  - rewrite app_assoc in Hb. by apply stored_app_l in Hb.
Qed.

Lemma cinv_last s q l c : cinv s q (l ++ [c]) -> ring (ibuf s) (u32 (ie s - 1)) = c.
Proof.
  intros [Hr Hw He Hlen Hf _ Hb]. rewrite ring_u32, He, <- ring_u32.
  rewrite <- (Hb (length q + length l)%nat c).
  - rewrite <- (ring_u32 _ (ir s + _)). f_equal.
    rewrite !length_app in *. simpl. unfold INPUT_BUF in *. wrap_lia.
  - rewrite app_assoc, lookup_app_r; rewrite length_app; [|lia]. by rewrite Nat.sub_diag.
Qed.

Lemma kill_line_wp fuel q l k s Q : running s -> cinv s q l -> (length l < fuel)%nat ->
  (forall s', running s' -> cinv s' q [] -> dumps s' = dumps s -> dst s' = dst s -> Q tt k s') ->
  wp (kill_line fuel) k s Q.
Proof.
  revert l s Q. induction fuel as [|f IH]; intros l s Q Hs Hi Hf HQ; [lia|].
  cbn [kill_line]. wp_step. wp_step. unfold id. destruct (decide (l = [])) as [->|Hl].
  - rewrite (proj2 (cinv_empty_line _ _ _ Hi) eq_refl), Z.eqb_refl. cbn [negb andb]. wp_step. by apply HQ.
  - destruct (exists_last Hl) as (l0 & c & ->).
    rewrite (proj2 (Z.eqb_neq (ie s) (iw s))) by (by rewrite (cinv_empty_line _ _ _ Hi)).
    rewrite (cinv_last _ _ _ _ Hi). rewrite (proj2 (Z.eqb_neq c ch_nl)); cycle 1.
    { intros ->. destruct (ci_line _ _ _ Hi) as [Hn _]. set_solver. }
    cbn [negb andb]. wp_step. wp_step. wp_step. rewrite length_app in Hf. simpl in Hf.
    apply consputc_wp; [done|]. intros s1 H1 Ho _.
    apply IH with l0; [done| |lia|].
    + eapply cinv_out; [done|]. by eapply cinv_erase.
    + intros s2 H2 Hi2 Hd Hd'. apply HQ; [done|done| |].
      * by rewrite Hd, (oo_dumps _ _ Ho).
      * by rewrite Hd', (oo_dst _ _ Ho).
Qed.

(** ** The line discipline *)

Definition edit_step (ql : list Z * list Z) (c : Z) : list Z * list Z :=
  let '(q, l) := ql in
  if c =? CtlP then (q, l)
  else if c =? CtlU then (q, [])
  else if (c =? CtlH) || (c =? ch_del) then (q, take (length l - 1) l)
  else if (c =? 0) || (INPUT_BUF <=? Z.of_nat (length q + length l)) then (q, l)
  else
    let c := if c =? ch_cr then ch_nl else c in
    if (c =? ch_nl) || (c =? CtlD) || (Z.of_nat (length q + length l) =? INPUT_BUF - 1)
    then (q ++ l ++ [c], []) else (q, l ++ [c]).

(** What one character does to the context: at most a wake-up of the
    readers, and one whenever the queue grows. *)
Definition wakes (c c' : ctx) (q q' : list Z) : Prop :=
  same_thread c c' /\ exists n, woken c' = woken c ++ replicate n ChInput /\ (n = O -> q' = q).

Lemma wakes_refl c q : wakes c c q q.
Proof. split; [done|]. exists O. by rewrite app_nil_r. Qed.

Lemma wakes_trans c1 c2 c3 q1 q2 q3 :
  wakes c1 c2 q1 q2 -> wakes c2 c3 q2 q3 -> wakes c1 c3 q1 q3.
Proof.
  intros (T1 & n1 & W1 & H1) (T2 & n2 & W2 & H2).
  split; [by eapply same_thread_trans|]. exists (n1 + n2)%nat.
  rewrite W2, W1, replicate_add, app_assoc. split; [done|]. intros E.
  rewrite H2, H1 by lia. done.
Qed.

Lemma cinv_type s q l c c' : cinv s q l -> c' = u8 c -> c' <> ch_nl -> c' <> CtlD ->
  Z.of_nat (length q + length l) < INPUT_BUF - 1 ->
  cinv (set_e (u32 (ie s + 1)) (set_ibuf (ie s mod INPUT_BUF) c' s)) q (l ++ [c']).
Proof.
  intros [Hr Hw He Hlen Hf [Hn Hd] Hb] -> Hc1 Hc2 Hroom. unfold INPUT_BUF in *.
  constructor; cbn; try done; rewrite ?length_app; simpl; unfold INPUT_BUF in *.
  - rewrite He. wrap_lia.
  - lia.
  - lia.
  - set_solver.
  - rewrite app_assoc. apply stored_snoc; [done|rewrite length_app; unfold INPUT_BUF; lia|].
    rewrite length_app, He. unfold INPUT_BUF. wrap_lia.
Qed.

(** Committing the edit line and one more character. *)
Lemma cinv_commit s q l c : cinv s q l -> Z.of_nat (length q + length l) < INPUT_BUF ->
  cinv (set_w (u32 (ie s + 1)) (set_e (u32 (ie s + 1)) (set_ibuf (ie s mod INPUT_BUF) c s)))
    (q ++ l ++ [c]) [].
Proof.
  intros [Hr Hw He Hlen Hf [Hn Hd] Hb] Hroom. unfold INPUT_BUF in *.
  constructor; cbn; rewrite ?length_app; simpl; unfold INPUT_BUF in *; try done.
  - rewrite He. wrap_lia.
  - rewrite He. wrap_lia.
  - lia.
  - set_solver.
  - rewrite app_nil_r, app_assoc.
    apply stored_snoc; [done|rewrite length_app; unfold INPUT_BUF; lia|].
    rewrite length_app, He. unfold INPUT_BUF. wrap_lia.
Qed.

Lemma cinv_room s q l : cinv s q l -> u32 (ie s - ir s) = Z.of_nat (length q + length l).
Proof. intros [Hr Hw He Hlen _ _ _]. rewrite He. unfold INPUT_BUF in *. wrap_lia. Qed.

(** The default branch of [consoleintr]: an ordinary character. *)
Lemma intr_default_wp c q l k s (Q : bool -> ctx -> cst -> Prop) :
  running s -> cinv s q l -> is_u8 c -> Lptable ∉ held k ->
  c <> CtlP -> c <> CtlU -> c <> CtlH -> c <> ch_del ->
  (forall k' s', running s' -> cinv s' (edit_step (q, l) c).1 (edit_step (q, l) c).2 ->
     wakes k k' q (edit_step (q, l) c).1 -> dumps s' = dumps s -> dst s' = dst s ->
     Q false k' s') ->
  wp (intr_char c) k s Q.
Proof.
  intros Hs Hi Hc Hk N1 N2 N3 N4 HQ. unfold intr_char. unfold edit_step in HQ.
  apply Z.eqb_neq in N1 as E1, N2 as E2, N3 as E3, N4 as E4. rewrite E1, E2, E3, E4 in *.
  cbn [orb] in *. wp_step. wp_step. unfold id. rewrite (cinv_room _ _ _ Hi).
  wp_step. wp_step.
  - apply andb_prop in H as [H0 Hroom]. apply negb_true_iff in H0. apply Z.ltb_lt in Hroom.
    rewrite H0, (proj2 (Z.leb_gt _ _) Hroom) in HQ. cbn [orb] in HQ.
    set (c' := if c =? ch_cr then ch_nl else c) in *.
    assert (Hc' : u8 c' = c') by (unfold c'; destruct (c =? ch_cr); unfold ch_nl; wrap_lia).
    rewrite Hc'. wp_step. wp_step. wp_step. wp_step. wp_step.
    apply consputc_wp; [done|]. intros s1 H1 Ho _. wp_step. wp_step.
    assert (Hfull : (ie s1 =? u32 (ir s1 + INPUT_BUF)) =
      (Z.of_nat (length q + length l) =? INPUT_BUF - 1)).
    { destruct Ho as [_ -> _ -> _ _ _ _]. cbn. rewrite (ci_e _ _ _ Hi).
      pose proof (ci_r _ _ _ Hi). unfold INPUT_BUF in *.
      destruct (Z.eqb_spec (Z.of_nat (length q + length l)) (128 - 1)) as [->|];
        zcases; wrap_lia. }
    rewrite Hfull. destruct (_ || _ || _) eqn:Eb.
    + wp_step; [|done]. wp_step. wp_step. wp_step.
      wp_step. apply HQ; [done| | |apply Ho|apply Ho].
      * pose proof (cinv_commit s q l c' Hi Hroom) as Hcm. destruct Ho as [? ? ? He1 ? ? ? ?].
        rewrite He1. eapply cinv_out; [|exact Hcm]. by constructor.
      * split; [apply same_thread_woken|]. exists 1%nat. by destruct k.
    + wp_step; [done|]. wp_step. apply HQ; [done| | |apply Ho|apply Ho].
      * eapply cinv_out; [done|]. apply orb_false_elim in Eb as [Eb E7].
        apply orb_false_elim in Eb as [E5 E6]. apply Z.eqb_neq in E5, E6, E7.
        apply (cinv_type s q l c'); try done. unfold INPUT_BUF in *. lia.
      * apply wakes_refl.
  - wp_step. apply HQ; try done.
    + apply andb_false_iff in H as [H|H]; [apply negb_false_iff in H; by rewrite H|].
      apply Z.ltb_ge in H. rewrite (proj2 (Z.leb_le _ _) H), orb_true_r. done.
    + apply andb_false_iff in H as [H|H]; [apply negb_false_iff in H; rewrite H|].
      * apply wakes_refl.
      * apply Z.ltb_ge in H. rewrite (proj2 (Z.leb_le _ _) H), orb_true_r. apply wakes_refl.
Qed.

Lemma intr_char_wp c q l k s (Q : bool -> ctx -> cst -> Prop) :
  running s -> cinv s q l -> is_u8 c -> Lptable ∉ held k ->
  (forall k' s', running s' -> cinv s' (edit_step (q, l) c).1 (edit_step (q, l) c).2 ->
     wakes k k' q (edit_step (q, l) c).1 -> dumps s' = dumps s -> dst s' = dst s ->
     Q (c =? CtlP) k' s') ->
  wp (intr_char c) k s Q.
Proof.
  intros Hs Hi Hc Hk HQ.
  destruct (decide (c = CtlP)) as [->|N1]; [cbn in HQ; unfold intr_char; wp_steps|].
  { apply HQ; [done|done|apply wakes_refl|done|done]. }
  rewrite (proj2 (Z.eqb_neq c CtlP) N1) in HQ.
  destruct (decide (c = CtlU)) as [->|N2]; [cbn in HQ; unfold intr_char; cbn -[kill_line]|].
  { wp_step. apply kill_line_wp with q l; [done|done| |].
    - pose proof (ci_len _ _ _ Hi). unfold INPUT_BUF in *. lia.
    - intros s' H1 H2 H3 H4. wp_step. apply HQ; [done|done|apply wakes_refl|done|done]. }
  destruct (decide (c = CtlH \/ c = ch_del)) as [N3|N3].
  { assert (E : edit_step (q, l) c = (q, take (length l - 1) l)) by (by destruct N3 as [-> | ->]).
    rewrite E in HQ. cbn [fst snd] in HQ. unfold intr_char.
    apply Z.eqb_neq in N1, N2. rewrite N1, N2.
    replace ((c =? CtlH) || (c =? ch_del)) with true by (by destruct N3 as [-> | ->]).
    wp_step. wp_step. unfold id. wp_step. wp_step.
    - apply negb_true_iff, Z.eqb_neq in H. destruct (decide (l = [])) as [->|Hl].
      { destruct H. by apply (cinv_empty_line _ _ _ Hi). }
      destruct (exists_last Hl) as (l0 & x & ->).
      rewrite length_app, Nat.add_sub, take_app_length in HQ.
      wp_step. wp_step. apply consputc_wp; [done|]. intros s1 H1 Ho _. wp_step.
      apply HQ; [done| |apply wakes_refl|by rewrite (oo_dumps _ _ Ho)|by rewrite (oo_dst _ _ Ho)].
      eapply cinv_out; [done|]. by eapply cinv_erase.
    - apply negb_false_iff, Z.eqb_eq, (cinv_empty_line _ _ _ Hi) in H. subst l.
      wp_step. apply HQ; try done. apply wakes_refl. }
  apply intr_default_wp with q l; try done; naive_solver.
Qed.

Lemma intr_loop_wp cs q l dump k s (Q : bool -> ctx -> cst -> Prop) :
  running s -> cinv s q l -> Forall is_u8 cs -> Lptable ∉ held k ->
  (forall k' s', running s' ->
     cinv s' (foldl edit_step (q, l) cs).1 (foldl edit_step (q, l) cs).2 ->
     wakes k k' q (foldl edit_step (q, l) cs).1 -> dumps s' = dumps s -> dst s' = dst s ->
     Q (dump || existsb (fun c => c =? CtlP) cs) k' s') ->
  wp (intr_loop cs dump) k s Q.
Proof.
  revert q l dump k s Q. induction cs as [|c cs IH]; intros q l dump k s Q Hs Hi Hc Hk HQ.
  - cbn [intr_loop foldl existsb fst snd] in *. rewrite orb_false_r in HQ. wp_step. apply HQ; try done. apply wakes_refl.
  - apply Forall_cons in Hc as [Hc Hcs]. cbn [intr_loop foldl existsb] in *. wp_step.
    apply intr_char_wp with q l; [done..|]. intros k1 s1 H1 Hi1 Hw1 Hd1 Hd1'.
    destruct (edit_step (q, l) c) as [q1 l1]. cbn [fst snd] in *.
    apply IH with q1 l1; [done|done|done| |].
    + destruct Hw1 as [[-> _ _] _]. done.
    + intros k2 s2 H2 Hi2 Hw2 Hd2 Hd2'. rewrite <- orb_assoc. apply HQ; [done|done| | |].
      * by eapply wakes_trans.
      * congruence.
      * congruence.
Qed.

Lemma consoleintr_wp cs q l k s (Q : unit -> ctx -> cst -> Prop) :
  running s -> cinv s q l -> Forall is_u8 cs -> Lptable ∉ held k -> Lcons ∉ held k ->
  (forall k' s', running s' ->
     cinv s' (foldl edit_step (q, l) cs).1 (foldl edit_step (q, l) cs).2 ->
     wakes k k' q (foldl edit_step (q, l) cs).1 -> dst s' = dst s ->
     dumps s' = (dumps s + (if existsb (fun c => c =? CtlP)%Z cs then 1 else 0))%nat ->
     Q tt k' s') ->
  wp (consoleintr cs) k s Q.
Proof.
  intros Hs Hi Hc Hk1 Hk2 HQ. unfold consoleintr. wp_step. wp_step. wp_step.
  apply intr_loop_wp with q l; [done|done|done|cbn; set_solver|].
  intros k' s' H1 Hi1 Hw Hd Hd'. cbn [orb]. destruct Hw as [[Hh Hp Hkk] Hn]. cbn in Hh, Hp, Hkk.
  wp_step. apply wp_release_head with (held k); [done|].
  assert (Hw' : wakes k (set_held (held k) k') q (foldl edit_step (q, l) cs).1)
    by (split; [by constructor|exact Hn]).
  wp_step; rewrite H in HQ.
  - wp_step. apply HQ; [done| |done|done|cbn; lia]. destruct Hi1. by constructor.
  - apply HQ; [done|done|done|done|lia].
Qed.

(** ** Readers *)

(** What a read of at most [n] takes from the committed queue: the bytes
    delivered, the queue left, and the count left ([None]: it has to wait). *)
Fixpoint aread (target n : nat) (q : list Z) : list Z * list Z * option nat :=
  match n, q with
  | O, _ => ([], q, Some O)
  | S _, [] => ([], [], None)
  | S n', c :: q' =>
      if c =? CtlD then ([], if (n <? target)%nat then c :: q' else q', Some n)
      else if c =? ch_nl then ([c], q', Some n')
      else let '(d, q'', r) := aread target n' q' in (c :: d, q'', r)
  end.

Lemma cinv_empty_queue s q l : cinv s q l -> ir s = iw s <-> q = [].
Proof.
  intros [Hr Hw He Hlen _ _ _]. rewrite Hw. unfold INPUT_BUF in *. split.
  - intros E. apply nil_length_inv. wrap_lia.
  - intros ->. simpl. rewrite Z.add_0_r, u32_small; done.
Qed.

Lemma cinv_take s c q l : cinv s (c :: q) l ->
  ring (ibuf s) (ir s) = c /\ cinv (set_r (u32 (ir s + 1)) s) q l.
Proof.
  intros [Hr Hw He Hlen Hf Hl Hb]. simpl in *. apply stored_cons in Hb as [Hc Hb].
  split; [done|]. unfold INPUT_BUF in *. constructor; cbn; try done.
  - apply u32_range.
  - rewrite Hw. wrap_lia.
  - rewrite He. wrap_lia.
  - unfold INPUT_BUF. lia.
  - unfold INPUT_BUF. lia.
  - by apply stored_u32.
Qed.

Lemma set_r_undo s q l : cinv s q l ->
  set_r (u32 (u32 (ir s + 1) - 1)) (set_r (u32 (ir s + 1)) s) = s.
Proof.
  intros Hi. pose proof (ci_r _ _ _ Hi). destruct s. cbn in *. unfold set_r. cbn.
  f_equal. wrap_lia.
Qed.

Lemma cinv_put_dst s q l c : cinv (put_dst c s) q l <-> cinv s q l.
Proof. split; intros []; by constructor. Qed.

(** The loop takes what [aread] says, or waits (or gives up, if killed) with
    what it has taken so far. *)
Lemma read_loop_spec target n q l k s : cinv s q l -> held k = [Lcons] ->
  let '(d, q', r) := aread target n q in
  let done' s' := cinv s' q' l /\ dst s' = dst s ++ d in
  match r with
  | Some n' => wp (read_loop target n) k s (fun a k' s' => a = Some n' /\ k' = k /\ done' s')
  | None =>
      if mykilled k
      then wp (read_loop target n) k s (fun a k' s' => a = None /\ k' = k /\ done' s')
      else blocks (read_loop target n) k s
             (fun ch k' s' => ch = ChInput /\ k' = set_held [Lptable] k /\ done' s')
  end.
Proof.
  revert q s. induction n as [|n IH]; intros q s Hi Hk; cbn [aread read_loop].
  { wp_step. by rewrite app_nil_r. }
  destruct q as [|c q].
  { pose proof (proj2 (cinv_empty_queue _ _ _ Hi) eq_refl) as E. destruct (mykilled k) eqn:Ek.
    - wp_step. wp_step. unfold id. rewrite E, Z.eqb_refl. wp_step. wp_step. rewrite Ek.
      wp_step. by rewrite app_nil_r.
    - apply blocks_bind. wp_step. unfold id. rewrite E, Z.eqb_refl. apply blocks_bind.
      wp_step. rewrite Ek. apply blocks_sleep; [done|]. by rewrite app_nil_r. }
  destruct (cinv_take _ _ _ _ Hi) as [Hc Hi'].
  assert (E : (ir s =? iw s) = false).
  { apply Z.eqb_neq. by rewrite (cinv_empty_queue _ _ _ Hi). }
  destruct (c =? CtlD) eqn:Ed; [|destruct (c =? ch_nl) eqn:En].
  - wp_step. wp_step. unfold id. rewrite E, Hc, Ed. wp_step. wp_step. wp_step.
    destruct (S n <? target)%nat; wp_step; [wp_step|done|done|];
      wp_step; rewrite app_nil_r; split_and!; try done.
    cbn [ir set_r]. by rewrite (set_r_undo _ _ _ Hi).
  - wp_step. wp_step. unfold id. rewrite E, Hc, Ed. wp_step. wp_step. wp_step. wp_step.
    rewrite En. wp_step. split_and!; [done|done|by apply cinv_put_dst|done].
  - specialize (IH q (put_dst c (set_r (u32 (ir s + 1)) s))).
    destruct (aread target n q) as [[d q'] r].
    specialize (IH (proj2 (cinv_put_dst _ _ _ _) Hi') Hk). cbn [dst put_dst set_r] in IH.
    rewrite <- app_assoc in IH. cbn [app] in IH.
    destruct r as [n'|]; [|destruct (mykilled k)].
    1, 2: wp_step; wp_step; unfold id; rewrite E, Hc, Ed; do 4 wp_step; rewrite En; exact IH.
    apply blocks_bind. wp_step. unfold id. rewrite E, Hc, Ed.
    apply blocks_bind. wp_step. apply blocks_bind. wp_step. rewrite En. exact IH.
Qed.

Lemma aread_count target n q d q' n' : aread target n q = (d, q', Some n') ->
  (n' + length d = n)%nat.
Proof.
  revert q d q'. induction n as [|n IH]; intros [|c q] d q'; cbn; try (intros [= <- <- <-]; done).
  destruct (c =? CtlD); [intros [= <- <- <-]; simpl; lia|].
  destruct (c =? ch_nl); [intros [= <- <- <-]; simpl; lia|].
  destruct (aread target n q) as [[d0 q0] r0] eqn:E. intros [= <- <- ->].
  apply IH in E. simpl. lia.
Qed.

Lemma consoleread_spec n q l k s : cinv s q l -> held k = [] ->
  let '(d, q', r) := aread n n q in
  let after s' := cinv s' q' l /\ dst s' = dst s ++ d in
  match r with
  | Some _ => wp (consoleread n) k s (fun a k' s' => a = Z.of_nat (length d) /\ k' = k /\ after s')
  | None =>
      if mykilled k then wp (consoleread n) k s (fun a k' s' => a = -1 /\ k' = k /\ after s')
      else blocks (consoleread n) k s
             (fun ch k' s' => ch = ChInput /\ k' = set_held [Lptable] k /\ after s')
  end.
Proof.
  intros Hi Hk. pose proof (read_loop_spec n n q l (set_held [Lcons] k) s Hi eq_refl) as H.
  pose proof (aread_count n n q) as Hcount.
  destruct (aread n n q) as [[d q'] r]. cbn [mykilled set_held] in H.
  assert (Ek : set_held [] (set_held [Lcons] k) = k) by (rewrite <- Hk; by destruct k).
  unfold consoleread. destruct r as [n'|]; [|destruct (mykilled k)].
  - wp_step. wp_step; [rewrite Hk; set_solver|]. rewrite Hk. wp_step.
    eapply wp_mono; [|exact H]. intros a k' s' (-> & -> & Ha). wp_step. wp_step.
    wp_step. rewrite Ek. specialize (Hcount _ _ _ eq_refl). split_and!; [lia|done|apply Ha..].
  - wp_step. wp_step; [rewrite Hk; set_solver|]. rewrite Hk. wp_step.
    eapply wp_mono; [|exact H]. intros a k' s' (-> & -> & Ha). wp_step. wp_step.
    wp_step. by rewrite Ek.
  - apply blocks_bind. wp_step; [rewrite Hk; set_solver|]. rewrite Hk. apply blocks_bind_l. exact H.
Qed.

(** * Theorems *)

(** The console interrupt refines the line discipline [edit_step]: for
    every batch of keyboard bytes the ring holds exactly the committed queue
    and the edit line of the specification (control-U, backspace, carriage
    return, end-of-file and the full-ring commit included), readers are woken
    whenever the queue grows, a requested process listing is run once, after
    the lock is released, and the screen code does not panic. *)
Theorem consoleintr_correct cs q l k s :
  running s -> cinv s q l -> Forall is_u8 cs -> Lptable ∉ held k -> Lcons ∉ held k ->
  wp (consoleintr cs) k s (fun _ k' s' =>
    let '(q', l') := foldl edit_step (q, l) cs in
    running s' /\ cinv s' q' l' /\ wakes k k' q q' /\ dst s' = dst s /\
    dumps s' = (dumps s + (if existsb (fun c => c =? CtlP)%Z cs then 1 else 0))%nat).
Proof.
  intros Hs Hi Hc Hk1 Hk2. apply consoleintr_wp with q l; [done..|].
  intros k' s' H1 H2 H3 H4 H5. by destruct (foldl edit_step (q, l) cs).
Qed.

Definition ex_cst : cst :=
  Cst (Cga (fun _ => 0) 1919) [] false true (fun _ => 0) 4294967290 4294967290 4294967290 [] 0.
Lemma ex_cst_inv : cinv ex_cst [] [].
Proof.
  constructor; try done. split; apply not_elem_of_nil.
Qed.
Lemma ex_cst_running : running ex_cst.
Proof. split; [done|]. unfold screen_ok. cbn. lia. Qed.

(** "ab", backspace, "c", carriage return: the line "ac". *)
Definition ex_keys : list Z := [97; 98; 8; 99; 13].

Lemma consoleintr_correct_witness :
  foldl edit_step ([], []) ex_keys = ([97; 99; 10], []) /\
  wp (consoleintr ex_keys) ctx0 ex_cst (fun _ k' s' =>
    let '(q', l') := foldl edit_step ([], []) ex_keys in
    running s' /\ cinv s' q' l' /\ wakes ctx0 k' [] q' /\ dst s' = dst ex_cst /\
    dumps s' = (dumps ex_cst + (if existsb (fun c => c =? CtlP)%Z ex_keys then 1 else 0))%nat).
Proof.
  split; [vm_compute; reflexivity|].
  apply (consoleintr_correct ex_keys [] [] ctx0 ex_cst).
  - exact ex_cst_running.
  - exact ex_cst_inv.
  - by_decide.
  - apply not_elem_of_nil.
  - apply not_elem_of_nil.
Defined.

(** [consoleread] delivers from the committed queue: up to [n] bytes,
    ending after a newline; a control-D ends it and is kept for the next read
    exactly when bytes were already delivered.  With nothing committed it
    sleeps on [&input.r] (with only the process-table lock held), or returns
    -1 if the process was killed; the edit line is never touched. *)
Theorem consoleread_correct n q l k s : cinv s q l -> held k = [] ->
  let '(d, q', r) := aread n n q in
  let after s' := cinv s' q' l /\ dst s' = dst s ++ d in
  match r with
  | Some _ => wp (consoleread n) k s (fun a k' s' => a = Z.of_nat (length d) /\ k' = k /\ after s')
  | None =>
      if mykilled k then wp (consoleread n) k s (fun a k' s' => a = -1 /\ k' = k /\ after s')
      else blocks (consoleread n) k s
             (fun ch k' s' => ch = ChInput /\ k' = set_held [Lptable] k /\ after s')
  end.
Proof. apply consoleread_spec. Qed.

Lemma consoleread_correct_witness :
  blocks (consoleread 5) ctx0 ex_cst (fun ch k' s' =>
    ch = ChInput /\ k' = set_held [Lptable] ctx0 /\ cinv s' [] [] /\ dst s' = dst ex_cst ++ []).
Proof. exact (consoleread_correct 5 [] [] ctx0 ex_cst ex_cst_inv eq_refl). Defined.

(** A character that is simply inserted. *)
Definition plain (c : Z) : Prop :=
  0 < c < 256 /\ c ∉ [CtlP; CtlU; CtlH; CtlD; ch_del; ch_nl; ch_cr].
#[export] Instance plain_dec c : Decision (plain c).
Proof. unfold plain. apply _. Defined.

Lemma edit_plain l cs : Forall plain cs -> (length l + length cs < 127)%nat ->
  foldl edit_step ([], l) cs = ([], l ++ cs).
Proof.
  revert l. induction cs as [|c cs IH]; intros l Hp Hl; [by rewrite app_nil_r|].
  apply Forall_cons in Hp as [[Hr Hp] Hps]. rewrite !not_elem_of_cons in Hp.
  destruct Hp as (? & ? & ? & ? & ? & ? & ? & _). simpl in Hl. cbn [foldl].
  replace (edit_step ([], l) c) with (@nil Z, l ++ [c]).
  - rewrite IH; [by rewrite <- app_assoc|done|rewrite length_app; simpl; lia].
  - unfold edit_step, INPUT_BUF. cbn [length Nat.add].
    rewrite !(proj2 (Z.eqb_neq c _)) by (done || lia). cbn [orb].
    rewrite (proj2 (Z.leb_gt _ _)) by lia.
    by rewrite (proj2 (Z.eqb_neq _ (128 - 1))) by lia.
Qed.

Lemma aread_line target cs n : Forall plain cs -> (length cs < n)%nat ->
  aread target n (cs ++ [ch_nl]) = (cs ++ [ch_nl], [], Some (n - S (length cs))%nat).
Proof.
  revert n. induction cs as [|c cs IH]; intros n Hp Hl; (destruct n as [|n]; [simpl in Hl; lia|]).
  - cbn. repeat f_equal. lia.
  - apply Forall_cons in Hp as [[Hr Hp] Hps]. rewrite !not_elem_of_cons in Hp.
    destruct Hp as (? & ? & ? & ? & ? & ? & ? & _). simpl in Hl. cbn [aread app].
    rewrite !(proj2 (Z.eqb_neq c _)) by done. rewrite IH by (done || lia). done.
Qed.

(** What a reader gets when the keys delivered edit to one complete line. *)
Lemma intr_read_wp ks cs n k s : running s -> cinv s [] [] -> held k = [] ->
  Forall is_u8 ks -> foldl edit_step ([], []) ks = (cs ++ [ch_nl], []) ->
  Forall plain cs -> (length cs < n)%nat ->
  wp (consoleintr ks;; consoleread n) k s (fun a _ s' =>
    a = Z.of_nat (length cs + 1) /\ dst s' = dst s ++ cs ++ [ch_nl] /\ cinv s' [] []).
Proof.
  intros Hs Hi Hk Hb E Hp Hn. wp_step.
  apply consoleintr_wp with [] []; [done|done|done|rewrite Hk; apply not_elem_of_nil..|].
  rewrite E. cbn [fst snd]. intros k1 s1 Hs1 Hi1 [[Hh _ _] _] Hd _.
  pose proof (consoleread_spec n (cs ++ [ch_nl]) [] k1 s1 Hi1) as H.
  rewrite aread_line in H by done. eapply wp_mono; [|apply H; by rewrite Hh].
  intros a k2 s2 (-> & _ & Hi2 & Hd2). rewrite length_app, Hd2, Hd. done.
Qed.

(** Ordinary characters and a line end edit to one line. *)
Lemma edit_line cs e : e = ch_cr \/ e = ch_nl -> Forall plain cs -> (length cs < 127)%nat ->
  foldl edit_step ([], []) (cs ++ [e]) = (cs ++ [ch_nl], []).
Proof.
  intros He Hp Hl. rewrite foldl_app, edit_plain by done.
  destruct He as [-> | ->]; cbn [app foldl edit_step]; unfold INPUT_BUF; cbn [length Nat.add];
    rewrite (proj2 (Z.leb_gt _ _)) by lia; done.
Qed.

(** Typing a line and reading it: after the interrupt has delivered any
    text of up to 126 ordinary characters and a carriage return, a reader
    that offers room for it gets exactly the text and the newline. *)
Theorem console_line cs n k s : running s -> cinv s [] [] -> held k = [] ->
  Forall plain cs -> (length cs < 127)%nat -> (length cs < n)%nat ->
  wp (consoleintr (cs ++ [ch_cr]);; consoleread n) k s (fun a _ s' =>
    a = Z.of_nat (length cs + 1) /\ dst s' = dst s ++ cs ++ [ch_nl] /\ cinv s' [] []).
Proof.
  intros Hs Hi Hk Hp Hl Hn. apply intr_read_wp; try done.
  - apply Forall_app. split; [|by repeat constructor].
    eapply Forall_impl; [done|]. intros c [? _]. unfold is_u8. lia.
  - apply edit_line; [by left|done|done].
Qed.

Lemma console_line_witness :
  wp (consoleintr ([104; 105] ++ [ch_cr]);; consoleread 100) ctx0 ex_cst (fun a _ s' =>
    a = Z.of_nat (length [104; 105]%Z + 1) /\ dst s' = dst ex_cst ++ [104; 105] ++ [ch_nl] /\
    cinv s' [] []).
Proof.
  apply (console_line [104; 105] 100 ctx0 ex_cst).
  - exact ex_cst_running.
  - exact ex_cst_inv.
  - reflexivity.
  - by_decide.
  - simpl. lia.
  - simpl. lia.
Defined.

(** [consolewrite] accepts every byte string: it sends exactly those
    bytes to the serial port, reports them all written, keeps the cursor on
    the 24 text rows (so the overflow panic is unreachable), writes no cell
    beyond them, and leaves the input ring alone. *)
Theorem consolewrite_correct bs q l k s : running s -> cinv s q l -> Lcons ∉ held k ->
  wp (consolewrite bs) k s (fun a k' s' =>
    a = Z.of_nat (length bs) /\ k' = k /\ running s' /\ cinv s' q l /\
    uart s' = uart s ++ (u8 <$> bs) /\ same_below (screen s) (screen s')).
Proof.
  intros Hs Hi Hk. unfold consolewrite. wp_step. wp_step. wp_step.
  apply consputs_wp; [done|]. intros s' Hs' Ho Hu. wp_step. wp_step. wp_step.
  split_and!; [done|by destruct k|done|by eapply cinv_out| |by destruct Ho].
  rewrite Hu. f_equal. clear. induction bs as [|b bs IH]; [done|]. cbn. rewrite IH.
  unfold uart_bytes, BACKSPACE. pose proof (u8_range b). unfold is_u8 in *.
  rewrite (proj2 (Z.eqb_neq (u8 b) 256)) by lia. cbn. f_equal. wrap_lia.
Qed.

Lemma consolewrite_correct_witness :
  wp (consolewrite [111; 107; 10]) ctx0 ex_cst (fun a k' s' =>
    a = Z.of_nat (length [111; 107; 10]%Z) /\ k' = ctx0 /\ running s' /\ cinv s' [] [] /\
    uart s' = uart ex_cst ++ (u8 <$> [111; 107; 10]) /\
    same_below (screen ex_cst) (screen s')).
Proof.
  apply (consolewrite_correct [111; 107; 10] [] [] ctx0 ex_cst).
  - exact ex_cst_running.
  - exact ex_cst_inv.
  - apply not_elem_of_nil.
Defined.
