(* ===== verification/Buffers.v ===== *)
(** * The interface between the file system and the logged buffer cache

    fs.c, file.c and sysfile.c use bio.c and log.c through five operations:
    [bread], [brelse], [log_write], [begin_op] and [end_op], and through the
    [data] array of the buffers they hold.  [BufferCache] states what a
    thread that is alone in the file system may rely on, in terms of the
    logical contents of the disk ([bview]). *)
From stdpp Require Import functions.
From S2P Require Import Prelude Mmu Block.

(** What a client sees: the contents of the home blocks, the device's size
    and the place of the log, the buffers it holds, the blocks logged in the
    current transaction, the held blocks changed but not yet logged, and the
    number of operations in progress. *)
Record bview := BView {
  vdata : Z -> block;
  vsize : Z;
  vlstart : Z;
  vlsize : Z;
  vopen : gmap nat Z;
  vlogged : gset Z;
  vunlogged : gset Z;
  vops : Z
}.

(** Blocks that the file system may use: outside the log. *)
Definition home (v : bview) (b : Z) : Prop :=
  0 <= b < vsize v /\ ~ (vlstart v <= b < vlstart v + vlsize v).

Definition v_open (i : nat) (b : Z) (v : bview) : bview :=
  BView (vdata v) (vsize v) (vlstart v) (vlsize v) (<[i := b]> (vopen v)) (vlogged v)
    (vunlogged v) (vops v).
Definition v_close (i : nat) (v : bview) : bview :=
  BView (vdata v) (vsize v) (vlstart v) (vlsize v) (delete i (vopen v)) (vlogged v)
    (vunlogged v) (vops v).
Definition v_set (b : Z) (d : block) (v : bview) : bview :=
  BView (<[b := d]> (vdata v)) (vsize v) (vlstart v) (vlsize v) (vopen v) (vlogged v)
    (vunlogged v ∪ {[b]}) (vops v).
Definition v_log (b : Z) (v : bview) : bview :=
  BView (vdata v) (vsize v) (vlstart v) (vlsize v) (vopen v) (vlogged v ∪ {[b]})
    (vunlogged v ∖ {[b]}) (vops v).
Definition v_ops (n : Z) (l : gset Z) (v : bview) : bview :=
  BView (vdata v) (vsize v) (vlstart v) (vlsize v) (vopen v) l (vunlogged v) n.

Definition vopen_blocks (v : bview) : gset Z := map_img (vopen v).

(** Room for one more block in the log, and for one more buffer. *)
Definition log_room (v : bview) : Prop :=
  Z.of_nat (size (vlogged v)) < LOGSIZE /\ Z.of_nat (size (vlogged v)) < vlsize v - 1.
Definition buf_room (v : bview) : Prop :=
  (size (vlogged v ∪ vopen_blocks v) < NBUF)%nat.

Class BufferCache (S : Type) := {
  bc_bread : Z -> Z -> M S nat;
  bc_brelse : nat -> M S unit;
  bc_log_write : nat -> M S unit;
  bc_begin_op : M S unit;
  bc_end_op : M S unit;
  bc_data : nat -> S -> block;
  bc_setdata : nat -> block -> S -> S;

  (** [bc_rel p s v]: for the thread with pid [p], [s] shows the view [v]. *)
  bc_rel : Z -> S -> bview -> Prop;

  (** Extensionality: only the home blocks matter. *)
  bc_rel_ext p s v v' : bc_rel p s v ->
    (forall b, home v b -> vdata v' b = vdata v b) -> vsize v' = vsize v ->
    vlstart v' = vlstart v -> vlsize v' = vlsize v -> vopen v' = vopen v ->
    vlogged v' = vlogged v -> vunlogged v ⊆ vunlogged v' -> vops v' = vops v -> bc_rel p s v';

  (** A held buffer holds the block's contents. *)
  bc_data_law p s v i b : bc_rel p s v -> vopen v !! i = Some b -> bc_data i s = vdata v b;

  bc_bread_law p s v b c : bc_rel p s v -> held c = [] -> mypid c = p ->
    home v b -> b ∉ vopen_blocks v -> buf_room v ->
    wp (bc_bread 1 b) c s (fun i c' s' => same_thread c c' /\
      vopen v !! i = None /\ bc_rel p s' (v_open i b v));

  bc_setdata_law p s v i b d : bc_rel p s v -> vopen v !! i = Some b ->
    bc_rel p (bc_setdata i d s) (v_set b d v);

  bc_brelse_law p s v i b c : bc_rel p s v -> held c = [] -> mypid c = p ->
    vopen v !! i = Some b -> b ∉ vunlogged v ->
    wp (bc_brelse i) c s (fun _ c' s' => same_thread c c' /\ bc_rel p s' (v_close i v));

  bc_log_write_law p s v i b c : bc_rel p s v -> held c = [] -> mypid c = p ->
    vopen v !! i = Some b -> 1 <= vops v -> log_room v ->
    wp (bc_log_write i) c s (fun _ c' s' => same_thread c c' /\ bc_rel p s' (v_log b v));

  (** With no operation in progress, one starts at once. *)
  bc_begin_op_law p s v c : bc_rel p s v -> held c = [] -> mypid c = p ->
    vops v = 0 -> vlogged v = ∅ ->
    wp bc_begin_op c s (fun _ c' s' => same_thread c c' /\ bc_rel p s' (v_ops 1 ∅ v));

  (** The end of the last operation commits. *)
  bc_end_op_law p s v c : bc_rel p s v -> held c = [] -> mypid c = p ->
    vops v = 1 -> vopen v = ∅ -> vunlogged v = ∅ ->
    wp bc_end_op c s (fun _ c' s' => same_thread c c' /\ bc_rel p s' (v_ops 0 ∅ v))
}.
