(* ===== verification/LogBuf.v ===== *)
(** * The logged buffer cache implements the file system's interface

    bio.c and log.c, as modelled, satisfy every law of [BufferCache]. *)
From stdpp Require Import functions.
From S2P Require Import Prelude CString Mmu Block Sleeplock Bio Log LogSpec LogOps Buffers.

(** The view of a state: the transaction invariant, with the contents of the
    home blocks, plus the geometry of the log. *)
Record lrel (p : Z) (s : lst) (v : bview) : Prop := {
  lr_tinv : exists a bs, tinv p s a bs /\ lgeom s bs /\
    (forall b, home v b -> acontent a b = vdata v b) /\
    aopen a = vopen v /\ list_to_set bs = vlogged v /\
    (forall b, b ∉ vunlogged v -> b ∉ vlogged v -> home v b -> acontent a b = adisk a b);
  lr_open : forall i b, vopen v !! i = Some b -> home v b;
  lr_size : disksize (bio s) = vsize v;
  lr_int : vsize v < 2147483648;
  lr_start : lstart (lg s) = vlstart v;
  lr_lsize : lsize (lg s) = vlsize v;
  lr_max : vlsize v <= LOGSIZE;
  lr_ops : outstanding (lg s) = vops v;
  lr_comm : committing (lg s) = false
}.

Section laws.
Variable p : Z.
Implicit Types (s : lst) (v : bview) (b : Z) (i : nat).

Lemma lrel_ext s v v' : lrel p s v ->
  (forall b, home v b -> vdata v' b = vdata v b) -> vsize v' = vsize v ->
  vlstart v' = vlstart v -> vlsize v' = vlsize v -> vopen v' = vopen v ->
  vlogged v' = vlogged v -> vunlogged v ⊆ vunlogged v' -> vops v' = vops v -> lrel p s v'.
Proof.
  intros [(a & bs & Ht & Hg & Hc & Ho & Hl & Hu) Hop Hs Hi Hst Hls Hm Hops Hcm] E1 E2 E3 E4 E5 E6 E7 E8.
  assert (Hh : forall b, home v' b <-> home v b) by (intros b; unfold home; by rewrite E2, E3, E4).
  constructor; try congruence; try lia.
  - exists a, bs. split_and!; try done; try congruence.
    + intros b Hb. rewrite E1; [|by apply Hh]. by apply Hc, Hh.
    + intros b H1 H2 H3. apply Hu; [set_solver|congruence|by apply Hh].
  - intros i b H. apply Hh. rewrite E5 in H. by apply Hop in H.
Qed.

Lemma lrel_data s v i b : lrel p s v -> vopen v !! i = Some b -> data (bufs (bio s) i) = vdata v b.
Proof.
  intros [(a & bs & Ht & Hg & Hc & Ho & Hl & Hu) Hop _ _ _ _ _ _ _] E.
  rewrite <- Hc by by eapply Hop. eapply open_data; [apply Ht|]. by rewrite Ho.
Qed.

Lemma tinv_bio s a bs t a' : tinv p s a bs -> babs p t a' -> adirty a' = adirty a ->
  tinv p (set_bio t s) a' bs.
Proof. intros [H1 H2 H3 H4 H5 H6 H7] Hb Hd. constructor; try done. by rewrite Hd. Qed.

Lemma lgeom_bio s bs t : disksize t = disksize (bio s) -> lgeom s bs -> lgeom (set_bio t s) bs.
Proof. intros E [G1 G2 G3 G4 G5 G6 G7 G8]. constructor; cbn; rewrite ?E; done. Qed.

Lemma home_in_disk s v b : lrel p s v -> home v b -> 0 <= b < disksize (bio s).
Proof. intros H [Hb _]. by rewrite (lr_size _ _ _ H). Qed.

Lemma lrel_bread s v b c : lrel p s v -> held c = [] -> mypid c = p ->
  home v b -> b ∉ vopen_blocks v -> buf_room v ->
  wp (lbio (bread 1 b)) c s (fun i c' s' => same_thread c c' /\
    vopen v !! i = None /\ lrel p s' (v_open i b v)).
Proof.
  intros Hr Hc Hp Hb Hno Hroom. pose proof (home_in_disk _ _ _ Hr Hb) as Hd.
  destruct Hr as [(a & bs & Ht & Hg & Hct & Ho & Hl & Hu) Hop Hs Hi Hst Hls Hm Hops Hcm].
  lwp. eapply wp_mono; [|apply (bread_wp p (bio s) a b c)]; try done.
  - cbn. intros i c' s' (-> & Esz & Hi' & Ha'). split; [done|]. split; [by rewrite <- Ho|].
    constructor; try done; [| |by cbn; rewrite Esz].
    + exists (set_open i b a), bs. split_and!; try done.
      * by apply (tinv_bio s a).
      * by apply lgeom_bio.
      * cbn. by rewrite Ho.
    + cbn. intros j b' [[-> ->]|[Hne H]]%lookup_insert_Some; [done|]. by eapply Hop.
  - apply Ht.
  - intros j Hj. apply Hno. unfold vopen_blocks. apply elem_of_map_img. exists j. by rewrite <- Ho.
  - right. unfold buf_room, vopen_blocks in Hroom. unfold open_blocks.
    by rewrite (ti_dirty _ _ _ _ Ht), Ho, Hl.
Qed.

Lemma lrel_setdata s v i b d : lrel p s v -> vopen v !! i = Some b ->
  lrel p (set_bio (upd_buf i (set_data d) (bio s)) s) (v_set b d v).
Proof.
  intros [(a & bs & Ht & Hg & Hct & Ho & Hl & Hu) Hop Hs Hi Hst Hls Hm Hops Hcm] E.
  constructor; try done. exists (set_content b d a), bs. split_and!; try done.
  - apply (tinv_bio s a); [done| |done]. apply babs_set_data; [apply Ht|by rewrite Ho].
  - by apply lgeom_bio.
  - intros b' Hb'. cbn. destruct (decide (b' = b)) as [->|]; [by rewrite !fn_lookup_insert|].
    rewrite !fn_lookup_insert_ne by done. by apply Hct.
  - cbn. intros b' H1 H2 H3. rewrite fn_lookup_insert_ne by set_solver. apply Hu; [set_solver|done|done].
Qed.

Lemma lrel_brelse s v i b c : lrel p s v -> held c = [] -> mypid c = p ->
  vopen v !! i = Some b -> b ∉ vunlogged v ->
  wp (lbio (brelse i)) c s (fun _ c' s' => same_thread c c' /\ lrel p s' (v_close i v)).
Proof.
  intros Hr Hc Hp E Hn. pose proof (lr_open _ _ _ Hr _ _ E) as Hb.
  destruct Hr as [(a & bs & Ht & Hg & Hct & Ho & Hl & Hu) Hop Hs Hi Hst Hls Hm Hops Hcm].
  lwp. eapply wp_mono; [|apply (brelse_wp p (bio s) a i b c)]; try done.
  - cbn. intros [] c' s' (-> & Esz & Ha'). split; [apply same_thread_woken|].
    constructor; try done; [|by cbn; intros j b' [_ ?%Hop]%lookup_delete_Some|by cbn; rewrite Esz].
    exists (set_closed i a), bs. split_and!; try done.
    + by apply (tinv_bio s a).
    + by apply lgeom_bio.
    + cbn. by rewrite Ho.
  - apply Ht.
  - by rewrite Ho.
  - destruct (decide (b ∈ vlogged v)) as [Hin|Hin]; [left|right; by apply Hu].
    by rewrite (ti_dirty _ _ _ _ Ht), Hl.
Qed.

Lemma logged_size v bs : NoDup bs -> list_to_set bs = vlogged v -> size (vlogged v) = length bs.
Proof. intros Hn <-. by apply size_list_to_set. Qed.

Lemma lrel_log_write s v i b c : lrel p s v -> held c = [] -> mypid c = p ->
  vopen v !! i = Some b -> 1 <= vops v -> log_room v ->
  wp (log_write i) c s (fun _ c' s' => same_thread c c' /\ lrel p s' (v_log b v)).
Proof.
  intros Hr Hc Hp E H1 [Hr1 Hr2]. pose proof (lr_open _ _ _ Hr _ _ E) as Hb.
  pose proof (home_in_disk _ _ _ Hr Hb) as Hd.
  destruct Hr as [(a & bs & Ht & Hg & Hct & Ho & Hl & Hu) Hop Hs Hi Hst Hls Hm Hops Hcm].
  pose proof (logged_size v bs (ti_nodup _ _ _ _ Ht) Hl) as Hsz. rewrite Hsz in Hr1, Hr2.
  eapply wp_mono; [|apply (log_write_wp p s a bs i b c)]; try done.
  - intros [] c' s' (-> & Ht' & Eo & Ec & Esz & L1 & L2 & L3). split; [done|].
    constructor; cbn; try done; try congruence.
    exists (pin b a), (absorb b bs). split_and!; try done.
    + destruct Hg as [G1 G2 G3 G4 G5 G6 G7 G8]. unfold absorb.
      constructor; rewrite ?L1, ?L2, ?L3, ?Esz; try done.
      * case_decide; [done|]. rewrite length_app. simpl. lia.
      * case_decide; [done|]. rewrite length_app. simpl. unfold NBUF, LOGSIZE, MAXOPBLOCKS in *. lia.
      * case_decide; [done|]. rewrite length_app. simpl. lia.
      * intros b' Hb'. unfold in_log. rewrite L1, L2. case_decide; [by apply G7|].
        apply elem_of_app in Hb' as [Hb'|Hb']; [by apply G7|].
        apply list_elem_of_singleton in Hb' as ->. split; [done|].
        destruct Hb as [_ Hb]. by rewrite Hst, Hls.
      * apply Ht'.
    + cbn. unfold absorb. case_decide; set_solver.
    + cbn. intros b' N1 N2. apply Hu; set_solver.
  - by rewrite Ho.
  - lia.
  - lia.
  - lia.
Qed.

Lemma lrel_begin_op s v c : lrel p s v -> held c = [] -> mypid c = p ->
  vops v = 0 -> vlogged v = ∅ ->
  wp begin_op c s (fun _ c' s' => same_thread c c' /\ lrel p s' (v_ops 1 ∅ v)).
Proof.
  intros [(a & bs & Ht & Hg & Hct & Ho & Hl & Hu) Hop Hs Hi Hst Hls Hm Hops Hcm] Hc Hp H0 Hlg.
  rewrite Hlg in Hl, Hu. assert (bs = []) as ->.
  { destruct bs as [|x bs]; [done|]. exfalso. set_solver. }
  pose proof (ti_n _ _ _ _ Ht) as Hn.
  unfold begin_op. lwp. lwp; [rewrite Hc; set_solver|]. do 2 lwp. unfold id.
  rewrite Hcm, Hops, H0, Hn.
  change (Z.of_nat (length (@nil Z)) + (0 + 1) * MAXOPBLOCKS >? LOGSIZE) with false.
  do 2 lwp. wp_step.
  split; [by constructor|]. constructor; cbn; try done.
  exists a, []. split_and!; try done.
  - destruct Ht as [T1 T2 T3 T4 T5 T6 T7]. by constructor.
  - destruct Hg as [G1 G2 G3 G4 G5 G6 G7 G8]. by constructor.
Qed.

Lemma lrel_end_op s v c : lrel p s v -> held c = [] -> mypid c = p ->
  vops v = 1 -> vopen v = ∅ -> vunlogged v = ∅ ->
  wp end_op c s (fun _ c' s' => same_thread c c' /\ lrel p s' (v_ops 0 ∅ v)).
Proof.
  intros Hr Hc Hp H1 Hop0 Hul.
  assert (Hin : forall b, home v b -> 0 <= b < disksize (bio s) /\ ~ in_log (lg s) b).
  { intros b Hb. split; [by apply (home_in_disk s v)|]. unfold in_log.
    rewrite (lr_start _ _ _ Hr), (lr_lsize _ _ _ Hr). apply Hb. }
  destruct Hr as [(a & bs & Ht & Hg & Hct & Ho & Hl & Hu) Hop Hs Hi Hst Hls Hm Hops Hcm].
  apply (end_op_wp p s a bs); try done; [by rewrite Ho|by rewrite Hops|].
  intros c' s' a' Hth _ Hse Hcm'. split; [done|].
  destruct Hse as [E1 E2 E3 E4 E5 [L1 L2 L3 L4] E7 E8]. cbn in E4, E5, E8, L1, L2, L3, L4.
  constructor; cbn; try done; try congruence.
  exists a', []. split_and!; try done.
  - destruct Ht as [T1 T2 T3 T4 T5 T6 T7].
    constructor; try done; [by rewrite L4|by exists (lhblock (lg s'))|constructor].
  - destruct Hg as [G1 G2 G3 G4 G5 G6 G7 G8].
    constructor; rewrite ?L1, ?L2, ?L3, ?E5; cbn; try done.
    + by apply Z.le_lt_trans with (Z.of_nat (length bs)); [lia|].
    + unfold NBUF. lia.
    + intros b Hb%elem_of_nil. done.
    + constructor.
  - cbn. intros b Hb. rewrite <- Hct by done. by apply E4; apply Hin.
  - by rewrite E2, Ho.
  - cbn. intros b _ _ Hb. destruct (E4 b) as [-> ->]; [by apply Hin..|done].
Qed.
End laws.

#[export] Instance log_buffers : BufferCache lst := {
  bc_bread dv b := lbio (bread dv b);
  bc_brelse i := lbio (brelse i);
  bc_log_write := log_write;
  bc_begin_op := begin_op;
  bc_end_op := end_op;
  bc_data i s := data (bufs (bio s) i);
  bc_setdata i d s := set_bio (upd_buf i (set_data d) (bio s)) s;
  bc_rel := lrel;
  bc_rel_ext := lrel_ext;
  bc_data_law := lrel_data;
  bc_bread_law := lrel_bread;
  bc_setdata_law := lrel_setdata;
  bc_brelse_law := lrel_brelse;
  bc_log_write_law := lrel_log_write;
  bc_begin_op_law := lrel_begin_op;
  bc_end_op_law := lrel_end_op
}.

(** * A cold start

    A cache with every buffer unused, in front of any disk, and an empty log:
    the state in which the examples start. *)

Definition cold_bufs (i : nat) : buf :=
  Buf 0 0 0 initsleeplock 0 (if Nat.eqb i 0 then HEAD else pred i)
    (if Nat.eqb i HEAD then 0%nat else S i) zero_block.
Definition cold_lst (D : Z -> block) (sz st n ops : Z) : lst :=
  Lst (Bst cold_bufs sz D []) (Log st n ops false 1 0 (replicate 30 0)).
Definition cold_view (D : Z -> block) (sz st n ops : Z) : bview := BView D sz st n ∅ ∅ ∅ ops.

Lemma cold_babs D sz : babs 1 (Bst cold_bufs sz D []) (Abio D D [] ∅ ∅).
Proof.
  constructor; cbn [bufs disksize disk writes acontent adisk awrites aopen adirty].
  - exists (seq 0 NBUF). split; [by vm_compute|done].
  - intros i Hi. constructor; cbn; rewrite ?lookup_empty; try done. by left.
  - intros i blk H. by rewrite lookup_empty in H.
  - intros i j _ _ F. done.
  - intros blk H. set_solver.
  - done.
  - done.
  - done.
Qed.

Lemma cold_lrel D sz st n ops : 0 <= st -> 0 < n <= LOGSIZE -> st + n <= sz -> sz < 2147483648 ->
  lrel 1 (cold_lst D sz st n ops) (cold_view D sz st n ops).
Proof.
  intros Hst Hn Hs Hi. constructor; try done; [|by cbn; lia].
  exists (Abio D D [] ∅ ∅), []. split_and!; try done.
  - constructor; try done; [apply cold_babs|by exists (replicate 30 0)|constructor].
  - constructor; cbn; try done; try (unfold NBUF, LOGSIZE, MAXOPBLOCKS; lia).
    + intros b Hb%elem_of_nil. done.
    + constructor.
Qed.
