(* ===== verification/Fs.v ===== *)
(** * The file system (fs.c): definitions

    Blocks, inodes, directories and path names, written over any logged
    buffer cache.  The inode cache is an array of [NINODE] entries; a
    [struct inode*] is an index into it. *)
From stdpp Require Import functions.
From S2P Require Import Prelude CString Mmu Block Sleeplock Log Buffers.

Definition NDIRECT : Z := 12.
Definition NINDIRECT : Z := 128.
Definition MAXFILE : Z := NDIRECT + NINDIRECT.
Definition IPB : Z := 8.
Definition BPB : Z := BSIZE * 8.
Definition IBLOCK (i : Z) (sb : superblock) : Z := i / IPB + sb_inodestart sb.
Definition BBLOCK (b : Z) (sb : superblock) : Z := b / BPB + sb_bmapstart sb.
Definition DIRSIZ : nat := 14.
Definition ROOTINO : Z := 1.
Definition ROOTDEV : Z := 1.
Definition NDEV : Z := 10.
Definition T_DIR : Z := 1.
Definition T_FILE : Z := 2.
Definition T_DEV : Z := 3.

(** [struct inode] (file.h). *)
Record inode := Inode {
  idev : Z; inum : Z; iref : Z;
  islp : sleeplock;
  ivalid : bool;
  itype : Z; imajor : Z; iminor : Z; inlink : Z; isize : Z;
  iaddrs : list Z
}.
Definition inode0 : inode := Inode 0 0 0 initsleeplock false 0 0 0 0 0 (replicate 13 0).

Definition set_iref (r : Z) (ip : inode) : inode :=
  Inode (idev ip) (inum ip) r (islp ip) (ivalid ip) (itype ip) (imajor ip) (iminor ip)
    (inlink ip) (isize ip) (iaddrs ip).
Definition set_islp (l : sleeplock) (ip : inode) : inode :=
  Inode (idev ip) (inum ip) (iref ip) l (ivalid ip) (itype ip) (imajor ip) (iminor ip)
    (inlink ip) (isize ip) (iaddrs ip).
Definition set_ivalid (v : bool) (ip : inode) : inode :=
  Inode (idev ip) (inum ip) (iref ip) (islp ip) v (itype ip) (imajor ip) (iminor ip)
    (inlink ip) (isize ip) (iaddrs ip).
Definition set_itype (t : Z) (ip : inode) : inode :=
  Inode (idev ip) (inum ip) (iref ip) (islp ip) (ivalid ip) t (imajor ip) (iminor ip)
    (inlink ip) (isize ip) (iaddrs ip).
Definition set_idevno (mj mn : Z) (ip : inode) : inode :=
  Inode (idev ip) (inum ip) (iref ip) (islp ip) (ivalid ip) (itype ip) mj mn
    (inlink ip) (isize ip) (iaddrs ip).
Definition set_inlink (n : Z) (ip : inode) : inode :=
  Inode (idev ip) (inum ip) (iref ip) (islp ip) (ivalid ip) (itype ip) (imajor ip) (iminor ip)
    n (isize ip) (iaddrs ip).
Definition set_isize (n : Z) (ip : inode) : inode :=
  Inode (idev ip) (inum ip) (iref ip) (islp ip) (ivalid ip) (itype ip) (imajor ip) (iminor ip)
    (inlink ip) n (iaddrs ip).
Definition set_iaddr (i : Z) (a : Z) (ip : inode) : inode :=
  Inode (idev ip) (inum ip) (iref ip) (islp ip) (ivalid ip) (itype ip) (imajor ip) (iminor ip)
    (inlink ip) (isize ip) (<[Z.to_nat i := a]> (iaddrs ip)).
Definition iaddr (ip : inode) (i : Z) : Z := nth (Z.to_nat i) (iaddrs ip) 0.

(** The on-disk inode at offset [o] of a block: [struct dinode]. *)
Definition dinode_off (inum : Z) : Z := inum mod IPB * 64.
Definition dtype (d : block) (o : Z) : Z := i16 (get16 d o).
Fixpoint get_addrs (d : block) (o : Z) (n : nat) : list Z :=
  match n with O => [] | S n' => get32 d o :: get_addrs d (o + 4) n' end.
Fixpoint put_addrs (d : block) (o : Z) (l : list Z) : block :=
  match l with [] => d | a :: l' => put_addrs (put32 d o a) (o + 4) l' end.

(** The assignments of [ilock] and of [iupdate]. *)
Definition load_dinode (d : block) (o : Z) (ip : inode) : inode :=
  Inode (idev ip) (inum ip) (iref ip) (islp ip) (ivalid ip)
    (dtype d o) (i16 (get16 d (o + 2))) (i16 (get16 d (o + 4))) (i16 (get16 d (o + 6)))
    (get32 d (o + 8)) (get_addrs d (o + 12) 13).
Definition store_dinode (d : block) (o : Z) (ip : inode) : block :=
  put_addrs (put32 (put16 (put16 (put16 (put16 d o (itype ip)) (o + 2) (imajor ip))
    (o + 4) (iminor ip)) (o + 6) (inlink ip)) (o + 8) (isize ip)) (o + 12) (iaddrs ip).

(** [struct stat] (stat.h). *)
Record stat := Stat { st_dev : Z; st_ino : Z; st_type : Z; st_nlink : Z; st_size : Z }.

(** [struct dirent] as bytes: a little-endian [ushort] and [DIRSIZ] bytes. *)
Definition de_inum (e : list Z) : Z := get16 e 0.
Definition de_name (e : list Z) : list Z := drop 2 e.
Definition DESIZE : Z := 16.

(** [strncmp] and [strncpy] on name buffers: a name is the bytes before its
    NUL, at most [DIRSIZ] of them. *)
Fixpoint strncmp_l (n : nat) (s t : list Z) : Z :=
  match n with
  | O => 0
  | S n' =>
      if negb (hd 0 s =? 0) && (hd 0 s =? hd 0 t) then strncmp_l n' (tl s) (tl t)
      else hd 0 s - hd 0 t
  end.
Definition namecmp (s t : list Z) : Z := strncmp_l DIRSIZ s t.
Fixpoint strncpy_l (n : nat) (t : list Z) : list Z :=
  match n with
  | O => []
  | S n' => if hd 0 t =? 0 then replicate n 0 else hd 0 t :: strncpy_l n' (tl t)
  end.

Definition ch_slash : Z := 47.

(** [skipelem]: the element and the rest of the path; [None] is the null
    pointer. *)
Fixpoint skip_slashes (p : list Z) : list Z :=
  match p with c :: p' => if c =? ch_slash then skip_slashes p' else p | [] => [] end.
Fixpoint take_elem (p : list Z) : list Z * list Z :=
  match p with
  | [] => ([], [])
  | c :: p' => if c =? ch_slash then ([], p) else let '(e, r) := take_elem p' in (c :: e, r)
  end.
Definition skipelem (p : list Z) : option (list Z * list Z) :=
  match skip_slashes p with
  | [] => None
  | p' => let '(e, r) := take_elem p' in Some (take DIRSIZ e, skip_slashes r)
  end.

(** The state: the buffer cache (and whatever it is part of), the in-memory
    super block, the inode cache. *)
Record fsst (S : Type) := Fsst { fbuf : S; fsb : superblock; icache : nat -> inode }.
Arguments Fsst {S} _ _ _.
Arguments fbuf {S} _.
Arguments fsb {S} _.
Arguments icache {S} _.

Section ops.
Context {T : Type} {B : BufferCache T}.
#[local] Notation st := (fsst T).

Definition set_fbuf (b : T) (s : st) : st := Fsst b (fsb s) (icache s).
Definition fb {A} (m : M T A) : M st A := zoom fbuf set_fbuf m.
Definition bread (dv b : Z) : M st nat := fb (bc_bread dv b).
Definition brelse (i : nat) : M st unit := fb (bc_brelse i).
Definition log_write (i : nat) : M st unit := fb (bc_log_write i).
Definition begin_op : M st unit := fb bc_begin_op.
Definition end_op : M st unit := fb bc_end_op.
(** [bp->data], read and assigned. *)
Definition bdata (i : nat) : M st block := gets (fun s => bc_data i (fbuf s)).
Definition bstore (i : nat) (d : block) : M st unit :=
  modify (fun s => set_fbuf (bc_setdata i d (fbuf s)) s).

Definition geti {A} (ip : nat) (f : inode -> A) : M st A := gets (fun s => f (icache s ip)).
Definition upd_inode (ip : nat) (f : inode -> inode) (s : st) : st :=
  Fsst (fbuf s) (fsb s) (<[ip := f (icache s ip)]> (icache s)).
Definition seti (ip : nat) (f : inode -> inode) : M st unit := modify (upd_inode ip f).

Definition inode_acquiresleep (ip : nat) : M st unit :=
  acquiresleep (fun s => islp (icache s ip)) (fun l => upd_inode ip (set_islp l))
    (Linode ip) (ChInodeLock ip).
Definition inode_releasesleep (ip : nat) : M st unit :=
  releasesleep (fun l => upd_inode ip (set_islp l)) (Linode ip) (ChInodeLock ip).
Definition inode_holdingsleep (ip : nat) : M st bool :=
  holdingsleep (fun s => islp (icache s ip)) (Linode ip).

(** ** Blocks *)

Definition bzero (dv bno : Z) : M st unit :=
  bp ← bread dv bno;
  bstore bp zero_block;;
  log_write bp;;
  brelse bp.

(** The bit of block [b] in its map block. *)
Definition bit_set (d : block) (bi : Z) : bool :=
  negb (Z.land (get8 d (bi / 8)) (Z.shiftl 1 (bi mod 8)) =? 0).

(** The inner loop of [balloc]: the first clear bit from [bi] on. *)
Fixpoint find_free (n : nat) (d : block) (b bi size : Z) : option Z :=
  match n with
  | O => None
  | S n' =>
      if (bi <? BPB) && (b + bi <? size) then
        if bit_set d bi then find_free n' d b (bi + 1) size else Some bi
      else None
  end.

Fixpoint balloc_loop (fuel : nat) (dv b : Z) : M st Z :=
  match fuel with
  | O => fun _ _ => NoFuel
  | S f =>
      sb ← gets fsb;
      if b <? sb_size sb then
        bp ← bread dv (BBLOCK b sb);
        d ← bdata bp;
        match find_free (Z.to_nat BPB) d b 0 (sb_size sb) with
        | Some bi =>
            bstore bp (put8 d (bi / 8) (Z.lor (get8 d (bi / 8)) (Z.shiftl 1 (bi mod 8))));;
            log_write bp;;
            brelse bp;;
            bzero dv (b + bi);;
            mret (b + bi)
        | None => brelse bp;; balloc_loop f dv (b + BPB)
        end
      else panic "balloc: out of blocks"
  end.
Definition balloc (dv : Z) : M st Z :=
  sb ← gets fsb;
  balloc_loop (Z.to_nat (sb_size sb / BPB + 2)) dv 0.

Definition bfree (dv b : Z) : M st unit :=
  sb ← gets fsb;
  bp ← bread dv (BBLOCK b sb);
  d ← bdata bp;
  let bi := b mod BPB in
  if negb (bit_set d bi) then panic "freeing free block" else
  bstore bp (put8 d (bi / 8) (Z.land (get8 d (bi / 8)) (Z.lnot (Z.shiftl 1 (bi mod 8)))));;
  log_write bp;;
  brelse bp.

(** ** Inodes *)

Fixpoint iinit_loop (n i : nat) : M st unit :=
  match n with
  | O => mret tt
  | S n' => seti i (set_islp initsleeplock);; iinit_loop n' (S i)
  end.
Definition iinit (dv : Z) : M st unit :=
  iinit_loop NINODE 0;;
  bp ← bread dv 1;
  d ← bdata bp;
  brelse bp;;
  modify (fun s => Fsst (fbuf s) (decode_sb d) (icache s)).

(** The scan of [iget]: a hit, or the first empty slot. *)
Fixpoint iget_scan (n i : nat) (dv num : Z) (empty : option nat) (c : nat -> inode) :
    nat + option nat :=
  match n with
  | O => inr empty
  | S n' =>
      if (iref (c i) >? 0) && (idev (c i) =? dv) && (inum (c i) =? num) then inl i
      else iget_scan n' (S i) dv num
             (match empty with
              | None => if iref (c i) =? 0 then Some i else None
              | Some e => Some e
              end) c
  end.

Definition iget (dv num : Z) : M st nat :=
  acquire Licache;;
  c ← gets icache;
  match iget_scan NINODE 0 dv num None c with
  | inl ip => seti ip (fun x => set_iref (iref x + 1) x);; release Licache;; mret ip
  | inr None => panic "iget: no inodes"
  | inr (Some ip) =>
      seti ip (fun x => Inode dv num 1 (islp x) false (itype x) (imajor x) (iminor x)
                          (inlink x) (isize x) (iaddrs x));;
      release Licache;; mret ip
  end.

Fixpoint ialloc_loop (fuel : nat) (dv num type : Z) : M st nat :=
  match fuel with
  | O => fun _ _ => NoFuel
  | S f =>
      sb ← gets fsb;
      if num <? sb_ninodes sb then
        bp ← bread dv (IBLOCK num sb);
        d ← bdata bp;
        let o := dinode_off num in
        if dtype d o =? 0 then
          bstore bp (put16 (splice d o (replicate 64 0)) o type);;
          log_write bp;;
          brelse bp;;
          iget dv num
        else brelse bp;; ialloc_loop f dv (num + 1) type
      else panic "ialloc: no inodes"
  end.
Definition ialloc (dv type : Z) : M st nat :=
  sb ← gets fsb;
  ialloc_loop (Z.to_nat (sb_ninodes sb + 1)) dv 1 type.

Definition iupdate (ip : nat) : M st unit :=
  sb ← gets fsb;
  i ← geti ip id;
  bp ← bread (idev i) (IBLOCK (inum i) sb);
  d ← bdata bp;
  bstore bp (store_dinode d (dinode_off (inum i)) i);;
  log_write bp;;
  brelse bp.

Definition idup (ip : nat) : M st nat :=
  acquire Licache;; seti ip (fun x => set_iref (iref x + 1) x);; release Licache;; mret ip.

Definition ilock (ip : nat) : M st unit :=
  r ← geti ip iref;
  if r <? 1 then panic "ilock" else
  inode_acquiresleep ip;;
  v ← geti ip ivalid;
  when (negb v) (
    sb ← gets fsb;
    i ← geti ip id;
    bp ← bread (idev i) (IBLOCK (inum i) sb);
    d ← bdata bp;
    seti ip (load_dinode d (dinode_off (inum i)));;
    brelse bp;;
    seti ip (set_ivalid true);;
    t ← geti ip itype;
    if t =? 0 then panic "ilock: no type" else mret tt).

Definition iunlock (ip : nat) : M st unit :=
  h ← inode_holdingsleep ip;
  r ← geti ip iref;
  if negb h || (r <? 1) then panic "iunlock" else inode_releasesleep ip.
(** ** Inode content *)

Definition bmap (ip : nat) (bn : Z) : M st Z :=
  i ← geti ip id;
  if bn <? NDIRECT then
    if iaddr i bn =? 0 then
      a ← balloc (idev i); seti ip (set_iaddr bn a);; mret a
    else mret (iaddr i bn)
  else
    let bn := bn - NDIRECT in
    if bn <? NINDIRECT then
      addr ← (if iaddr i NDIRECT =? 0 then
                a ← balloc (idev i); seti ip (set_iaddr NDIRECT a);; mret a
              else mret (iaddr i NDIRECT));
      bp ← bread (idev i) addr;
      d ← bdata bp;
      a ← (if get32 d (4 * bn) =? 0 then
             a ← balloc (idev i);
             d ← bdata bp;
             bstore bp (put32 d (4 * bn) a);;
             log_write bp;;
             mret a
           else mret (get32 d (4 * bn)));
      brelse bp;;
      mret a
    else panic "bmap: out of range".

Fixpoint itrunc_direct (n : nat) (i : Z) (ip : nat) : M st unit :=
  match n with
  | O => mret tt
  | S n' =>
      x ← geti ip id;
      when (negb (iaddr x i =? 0))
        (bfree (idev x) (iaddr x i);; seti ip (set_iaddr i 0));;
      itrunc_direct n' (i + 1) ip
  end.
Fixpoint itrunc_indirect (n : nat) (j : Z) (dv : Z) (bp : nat) : M st unit :=
  match n with
  | O => mret tt
  | S n' =>
      d ← bdata bp;
      when (negb (get32 d (4 * j) =? 0)) (bfree dv (get32 d (4 * j)));;
      itrunc_indirect n' (j + 1) dv bp
  end.
Definition itrunc (ip : nat) : M st unit :=
  itrunc_direct (Z.to_nat NDIRECT) 0 ip;;
  x ← geti ip id;
  when (negb (iaddr x NDIRECT =? 0)) (
    bp ← bread (idev x) (iaddr x NDIRECT);
    itrunc_indirect (Z.to_nat NINDIRECT) 0 (idev x) bp;;
    brelse bp;;
    bfree (idev x) (iaddr x NDIRECT);;
    seti ip (set_iaddr NDIRECT 0));;
  seti ip (set_isize 0);;
  iupdate ip.

Definition iput (ip : nat) : M st unit :=
  inode_acquiresleep ip;;
  i ← geti ip id;
  when (ivalid i && (inlink i =? 0)) (
    acquire Licache;;
    r ← geti ip iref;
    release Licache;;
    when (r =? 1) (
      itrunc ip;;
      seti ip (set_itype 0);;
      iupdate ip;;
      seti ip (set_ivalid false)));;
  inode_releasesleep ip;;
  acquire Licache;;
  seti ip (fun x => set_iref (iref x - 1) x);;
  release Licache.

Definition iunlockput (ip : nat) : M st unit := iunlock ip;; iput ip.

Definition stati (ip : nat) : M st stat :=
  geti ip (fun i => Stat (idev i) (inum i) (itype i) (inlink i) (isize i)).

(** The device switch: what [devsw[major].read] and [.write] do to the whole
    state; [None] is a null entry. *)
Variable devread : Z -> option (nat -> Z -> M st (Z * list Z)).
Variable devwrite : Z -> option (nat -> list Z -> M st Z).

(** The loop of [readi]: the bytes stored through [dst]. *)
Fixpoint readi_loop (fuel : nat) (ip : nat) (off n tot : Z) : M st (list Z) :=
  if tot <? n then
    match fuel with
    | O => fun _ _ => NoFuel
    | S f =>
        dv ← geti ip idev;
        a ← bmap ip (off / BSIZE);
        bp ← bread dv a;
        let m := Z.min (n - tot) (BSIZE - off mod BSIZE) in
        d ← bdata bp;
        brelse bp;;
        rest ← readi_loop f ip (off + m) n (tot + m);
        mret (slice d (off mod BSIZE) m ++ rest)
    end
  else mret [].

Definition readi (ip : nat) (off n : Z) : M st (Z * list Z) :=
  i ← geti ip id;
  if itype i =? T_DEV then
    match (if (imajor i <? 0) || (imajor i >=? NDEV) then None else devread (imajor i)) with
    | Some rd => rd ip n
    | None => mret (-1, [])
    end
  else if (off >? isize i) || (u32 (off + n) <? off) then mret (-1, [])
  else
    let n := if u32 (off + n) >? isize i then isize i - off else n in
    bs ← readi_loop (Z.to_nat (n / BSIZE + 2)) ip off n 0;
    mret (n, bs).

(** The loop of [writei]; the result is the final [off]. *)
Fixpoint writei_loop (fuel : nat) (ip : nat) (src : list Z) (off : Z) : M st Z :=
  if 0 <? Z.of_nat (length src) then
    match fuel with
    | O => fun _ _ => NoFuel
    | S f =>
        dv ← geti ip idev;
        a ← bmap ip (off / BSIZE);
        bp ← bread dv a;
        let m := Z.min (Z.of_nat (length src)) (BSIZE - off mod BSIZE) in
        d ← bdata bp;
        bstore bp (splice d (off mod BSIZE) (take (Z.to_nat m) src));;
        log_write bp;;
        brelse bp;;
        writei_loop f ip (drop (Z.to_nat m) src) (off + m)
    end
  else mret off.

(** [writei] of the bytes [src]. *)
Definition writei (ip : nat) (src : list Z) (off : Z) : M st Z :=
  let n := Z.of_nat (length src) in
  i ← geti ip id;
  if itype i =? T_DEV then
    match (if (imajor i <? 0) || (imajor i >=? NDEV) then None else devwrite (imajor i)) with
    | Some wr => wr ip src
    | None => mret (-1)
    end
  else if (off >? isize i) || (u32 (off + n) <? off) then mret (-1)
  else if u32 (off + n) >? MAXFILE * BSIZE then mret (-1)
  else
    off' ← writei_loop (Z.to_nat (n / BSIZE + 2)) ip src off;
    sz ← geti ip isize;
    when ((n >? 0) && (off' >? sz)) (seti ip (set_isize off');; iupdate ip);;
    mret n.

(** ** Directories *)

(** The scan of [dirlookup]: the offset and inode number of the entry. *)
Fixpoint dirlookup_loop (fuel : nat) (dp : nat) (name : list Z) (off : Z) : M st (option (Z * Z)) :=
  match fuel with
  | O => fun _ _ => NoFuel
  | S f =>
      sz ← geti dp isize;
      if off <? sz then
        r ← readi dp off DESIZE;
        if negb (fst r =? DESIZE) then panic "dirlookup read" else
        let de := snd r in
        if de_inum de =? 0 then dirlookup_loop f dp name (off + DESIZE)
        else if namecmp name (de_name de) =? 0 then mret (Some (off, de_inum de))
        else dirlookup_loop f dp name (off + DESIZE)
      else mret None
  end.

(** [dirlookup]: the inode and the offset of its entry. *)
Definition dirlookup (dp : nat) (name : list Z) : M st (option (nat * Z)) :=
  i ← geti dp id;
  if negb (itype i =? T_DIR) then panic "dirlookup not DIR" else
  r ← dirlookup_loop (Z.to_nat (isize i / DESIZE + 2)) dp name 0;
  match r with
  | Some (off, num) => ip ← iget (idev i) num; mret (Some (ip, off))
  | None => mret None
  end.

(** The search of [dirlink] for an empty entry. *)
Fixpoint dirlink_loop (fuel : nat) (dp : nat) (off : Z) : M st Z :=
  match fuel with
  | O => fun _ _ => NoFuel
  | S f =>
      sz ← geti dp isize;
      if off <? sz then
        r ← readi dp off DESIZE;
        if negb (fst r =? DESIZE) then panic "dirlink read" else
        if de_inum (snd r) =? 0 then mret off else dirlink_loop f dp (off + DESIZE)
      else mret off
  end.

Definition mk_dirent (num : Z) (name : list Z) : list Z :=
  [u8 num; u8 (num / 256)] ++ strncpy_l DIRSIZ name.

Definition dirlink (dp : nat) (name : list Z) (num : Z) : M st Z :=
  r ← dirlookup dp name;
  match r with
  | Some (ip, _) => iput ip;; mret (-1)
  | None =>
      sz ← geti dp isize;
      off ← dirlink_loop (Z.to_nat (sz / DESIZE + 2)) dp 0;
      w ← writei dp (mk_dirent num name) off;
      if negb (w =? DESIZE) then panic "dirlink" else mret 0
  end.

(** ** Paths *)

Fixpoint namex_loop (fuel : nat) (ip : nat) (path : list Z) (parent : bool) (name : list Z) :
    M st (option (nat * list Z)) :=
  match skipelem path with
  | None => if parent then iput ip;; mret None else mret (Some (ip, name))
  | Some (name, path) =>
      match fuel with
      | O => fun _ _ => NoFuel
      | S f =>
          ilock ip;;
          t ← geti ip itype;
          if negb (t =? T_DIR) then iunlockput ip;; mret None
          else if parent && bool_decide (path = []) then iunlock ip;; mret (Some (ip, name))
          else
            r ← dirlookup ip name;
            match r with
            | None => iunlockput ip;; mret None
            | Some (next, _) => iunlockput ip;; namex_loop f next path parent name
            end
      end
  end.

(** [namex]: [cwd] is [myproc()->cwd]; the result carries the name buffer. *)
Definition namex (cwd : nat) (path : list Z) (parent : bool) : M st (option (nat * list Z)) :=
  ip ← (if hd 0 path =? ch_slash then iget ROOTDEV ROOTINO else idup cwd);
  namex_loop (length path) ip path parent [].
Definition namei (cwd : nat) (path : list Z) : M st (option nat) :=
  r ← namex cwd path false; mret (option_map fst r).
Definition nameiparent (cwd : nat) (path : list Z) : M st (option (nat * list Z)) :=
  namex cwd path true.
End ops.
