(* ===== verification/FsBlocks.v ===== *)
(** * The block allocator of fs.c

    Rules for running fs.c code against the buffer-cache interface, the free
    bitmap as a predicate on blocks, and the correctness of [bzero],
    [balloc] and [bfree]. *)
From stdpp Require Import functions.
From S2P Require Import Prelude CString Mmu Block Sleeplock Log Buffers Fs.
#[local] Set Default Proof Using "Type".

#[export] Hint Unfold geti seti bdata bstore : wp_unfold.

(** Contents of one block replaced and logged. *)
Definition v_upd (b : Z) (d : block) (v : bview) : bview :=
  BView (<[b := d]> (vdata v)) (vsize v) (vlstart v) (vlsize v) (vopen v) (vlogged v ∪ {[b]})
    (vunlogged v) (vops v).

Lemma v_close_open i b v : vopen v !! i = None -> v_close i (v_open i b v) = v.
Proof. intros H. destruct v. unfold v_close, v_open. cbn in *. by rewrite delete_insert_id. Qed.

Lemma v_close_upd i b d v : vopen v !! i = None -> b ∉ vunlogged v ->
  v_close i (v_log b (v_set b d (v_open i b v))) = v_upd b d v.
Proof.
  intros H Hb. destruct v. unfold v_close, v_log, v_set, v_open, v_upd. cbn in *.
  rewrite delete_insert_id by done. f_equal. set_solver.
Qed.

(** Room for [k] more blocks in the transaction besides those of [B], with a
    margin of two buffers. *)
Record room (B : gset Z) (k : Z) (v : bview) : Prop := {
  rm_log : Z.of_nat (size (vlogged v ∪ B)) + k <= vlsize v - 3;
  rm_size : vlsize v <= LOGSIZE;
  rm_pos : 0 <= k;
  rm_ops : 1 <= vops v
}.

(** The operations in progress and the size of the log. *)
Definition same_op (v v' : bview) : Prop := vops v' = vops v /\ vlsize v' = vlsize v.
Lemma same_op_trans v1 v2 v3 : same_op v1 v2 -> same_op v2 v3 -> same_op v1 v3.
Proof. intros [] []. split; congruence. Qed.

Lemma size_union_le (X Y : gset Z) : (size (X ∪ Y) <= size X + size Y)%nat.
Proof.
  rewrite size_union_alt. assert (size (Y ∖ X) <= size Y)%nat; [|lia].
  apply subseteq_size. set_solver.
Qed.

Lemma size_open_blocks v : (size (vopen_blocks v) <= size (vopen v))%nat.
Proof.
  unfold vopen_blocks. induction (vopen v) as [|i b m Hm IH] using map_ind.
  - rewrite map_img_empty_L, size_empty. lia.
  - rewrite map_img_insert_notin_L, map_size_insert_None by done.
    pose proof (size_union_le {[b]} (map_img m)). rewrite size_singleton in *. lia.
Qed.

Section room.
Implicit Types (B : gset Z) (k : Z) (v : bview).

Lemma room_log B k v : room B k v -> log_room v.
Proof.
  intros [H1 H2 H3 H4]. assert (size (vlogged v) <= size (vlogged v ∪ B))%nat.
  { apply subseteq_size. set_solver. }
  split; lia.
Qed.

Lemma room_buf B k v : room B k v -> (size (vopen v) <= 2)%nat -> buf_room v.
Proof.
  intros [H1 H2 H3 H4] Ho. assert (size (vlogged v) <= size (vlogged v ∪ B))%nat.
  { apply subseteq_size. set_solver. }
  unfold buf_room. pose proof (size_union_le (vlogged v) (vopen_blocks v)).
  pose proof (size_open_blocks v). unfold NBUF, LOGSIZE, MAXOPBLOCKS in *. lia.
Qed.

Lemma room_in B k v b d : b ∈ B -> room B k v -> room B k (v_upd b d v).
Proof.
  intros Hb [H1 H2 H3 H4]. constructor; try done. cbn.
  replace (vlogged v ∪ {[b]} ∪ B) with (vlogged v ∪ B); [done|]. set_solver.
Qed.

Lemma room_new B k v b d : room B (k + 1) v -> 0 <= k -> room B k (v_upd b d v).
Proof.
  intros [H1 H2 H3 H4] Hk. constructor; try done. cbn.
  replace (vlogged v ∪ {[b]} ∪ B) with ((vlogged v ∪ B) ∪ {[b]}) by set_solver.
  pose proof (size_union_le (vlogged v ∪ B) {[b]}). rewrite size_singleton in *. lia.
Qed.

Lemma room_less B k k' v : room B k v -> 0 <= k' <= k -> room B k' v.
Proof. intros [H1 H2 H3 H4] Hk. constructor; try done; lia. Qed.

Lemma room_grow B k v b : room B (k + 1) v -> 0 <= k -> room ({[b]} ∪ B) k v.
Proof.
  intros [H1 H2 H3 H4] Hk. constructor; try done.
  replace (vlogged v ∪ ({[b]} ∪ B)) with ((vlogged v ∪ B) ∪ {[b]}) by set_solver.
  pose proof (size_union_le (vlogged v ∪ B) {[b]}). rewrite size_singleton in *. lia.
Qed.

Lemma room_open B k v i b : room B k v -> room B k (v_open i b v).
Proof. by intros [H1 H2 H3 H4]. Qed.
End room.

(** * Running fs.c code *)

Section rules.
Context {T : Type} {BC : BufferCache T}.
#[local] Notation st := (fsst T).
Variable p : Z.
Implicit Types (s : st) (v : bview) (c : ctx) (i : nat) (b : Z).

Definition frel s v : Prop := bc_rel p (fbuf s) v.

(** [bp = bread(dev, b)], after which [bp->data] is the block. *)
Lemma wp_bread b s v c (Q : nat -> ctx -> st -> Prop) :
  frel s v -> held c = [] -> mypid c = p -> home v b -> b ∉ vopen_blocks v -> buf_room v ->
  (forall i c' t, same_thread c c' -> vopen v !! i = None ->
     frel (set_fbuf t s) (v_open i b v) -> bc_data i t = vdata v b ->
     Q i c' (set_fbuf t s)) ->
  wp (bread 1 b) c s Q.
Proof.
  intros Hr Hc Hp Hb Hno Hroom HQ. unfold bread, fb. wp_step.
  eapply wp_mono; [|by apply (bc_bread_law p)].
  intros i c' t (Hth & Hi & Hr'). apply HQ; try done.
  apply (bc_data_law p _ (v_open i b v)); [done|]. cbn. apply lookup_insert_eq.
Qed.

(** The first operation begins, the last one ends. *)
Lemma wp_begin_op s v c (Q : unit -> ctx -> st -> Prop) :
  frel s v -> held c = [] -> mypid c = p -> vops v = 0 -> vlogged v = ∅ ->
  (forall c' t, same_thread c c' -> frel (set_fbuf t s) (v_ops 1 ∅ v) -> Q tt c' (set_fbuf t s)) ->
  wp begin_op c s Q.
Proof.
  intros Hr Hc Hp Ho Hl HQ. unfold begin_op, fb. wp_step.
  eapply wp_mono; [|by apply (bc_begin_op_law p)]. intros [] c' t [Hth Hr']. by apply HQ.
Qed.
Lemma wp_end_op s v c (Q : unit -> ctx -> st -> Prop) :
  frel s v -> held c = [] -> mypid c = p -> vops v = 1 -> vopen v = ∅ -> vunlogged v = ∅ ->
  (forall c' t, same_thread c c' -> frel (set_fbuf t s) (v_ops 0 ∅ v) -> Q tt c' (set_fbuf t s)) ->
  wp end_op c s Q.
Proof.
  intros Hr Hc Hp Ho Hl Hu HQ. unfold end_op, fb. wp_step.
  eapply wp_mono; [|by apply (bc_end_op_law p)]. intros [] c' t [Hth Hr']. by apply HQ.
Qed.

(** [brelse(bp)] of a buffer that was only read. *)
Lemma wp_brelse_read i b s v c (Q : unit -> ctx -> st -> Prop) :
  frel s (v_open i b v) -> held c = [] -> mypid c = p -> vopen v !! i = None ->
  b ∉ vunlogged v ->
  (forall c' t, same_thread c c' -> frel (set_fbuf t s) v -> Q tt c' (set_fbuf t s)) ->
  wp (brelse i) c s Q.
Proof.
  intros Hr Hc Hp Hi Hb HQ. unfold brelse, fb. wp_step.
  eapply wp_mono; [|apply (bc_brelse_law p _ (v_open i b v) i b)]; try done.
  - intros [] c' t [Hth Hr']. apply HQ; [done|]. by rewrite v_close_open in Hr'.
  - cbn. apply lookup_insert_eq.
Qed.

(** [... = d; log_write(bp)], the buffer still held. *)
Definition v_logged (i : nat) (b : Z) (d : block) (v : bview) : bview :=
  v_log b (v_set b d (v_open i b v)).

Lemma wp_store_held {A} i b d s v c (k : M st A) (Q : A -> ctx -> st -> Prop) :
  frel s (v_open i b v) -> held c = [] -> mypid c = p -> log_room v -> 1 <= vops v ->
  (forall c' t, same_thread c c' -> frel (set_fbuf t s) (v_logged i b d v) ->
     wp k c' (set_fbuf t s) Q) ->
  wp (bstore i d;; log_write i;; k) c s Q.
Proof.
  intros Hr Hc Hp Hlr Hops HQ. unfold log_write, fb. wp_step. wp_step. wp_step. wp_step.
  assert (E : vopen (v_open i b v) !! i = Some b) by (cbn; apply lookup_insert_eq).
  pose proof (bc_setdata_law p _ _ i b d Hr E) as Hr1.
  eapply wp_mono; [|apply (bc_log_write_law p _ _ i b c Hr1); done].
  intros [] c1 t1 [Hth1 Hr2]. by apply (HQ c1 t1).
Qed.

Lemma wp_brelse_logged i b d s v c (Q : unit -> ctx -> st -> Prop) :
  frel s (v_logged i b d v) -> held c = [] -> mypid c = p -> vopen v !! i = None ->
  b ∉ vunlogged v ->
  (forall c' t, same_thread c c' -> frel (set_fbuf t s) (v_upd b d v) -> Q tt c' (set_fbuf t s)) ->
  wp (brelse i) c s Q.
Proof.
  intros Hr Hc Hp Hi Hb HQ. unfold brelse, fb. wp_step.
  eapply wp_mono; [|apply (bc_brelse_law p _ _ i b c Hr)]; try done.
  - intros [] c2 t2 [Hth2 Hr3]. unfold v_logged in Hr3. rewrite v_close_upd in Hr3 by done. by apply HQ.
  - cbn. apply lookup_insert_eq.
  - cbn. set_solver.
Qed.

(** [... = d; log_write(bp); brelse(bp)]. *)
Lemma wp_store_log1 i b d s v c (Q : unit -> ctx -> st -> Prop) :
  frel s (v_open i b v) -> held c = [] -> mypid c = p -> vopen v !! i = None ->
  b ∉ vunlogged v -> log_room v -> 1 <= vops v ->
  (forall c' t, same_thread c c' -> frel (set_fbuf t s) (v_upd b d v) ->
     Q tt c' (set_fbuf t s)) ->
  wp (bstore i d;; log_write i;; brelse i) c s Q.
Proof.
  intros Hr Hc Hp Hi Hb Hlr Hops HQ. apply (wp_store_held i b d s v); try done.
  intros c1 t1 Hth1 Hr1. apply (wp_brelse_logged i b d _ v); try done.
  - by rewrite (st_held _ _ Hth1).
  - by rewrite (st_pid _ _ Hth1).
  - intros c2 t2 Hth2 Hr2. apply (HQ c2 t2); [by eapply same_thread_trans|done].
Qed.

(** The same, followed by [k]. *)
Lemma wp_store_log {A} i b d s v c (k : M st A) (Q : A -> ctx -> st -> Prop) :
  frel s (v_open i b v) -> held c = [] -> mypid c = p -> vopen v !! i = None ->
  b ∉ vunlogged v -> log_room v -> 1 <= vops v ->
  (forall c' t, same_thread c c' -> frel (set_fbuf t s) (v_upd b d v) ->
     wp k c' (set_fbuf t s) Q) ->
  wp (bstore i d;; log_write i;; brelse i;; k) c s Q.
Proof.
  intros Hr Hc Hp Hi Hb Hlr Hops HQ.
  pose proof (wp_store_log1 i b d s v c (fun _ c' s' => wp k c' s' Q) Hr Hc Hp Hi Hb Hlr Hops HQ) as H.
  apply wp_bind_inv in H. apply wp_bind. eapply wp_mono; [|exact H]. clear H. intros [] c1 s1 H.
  apply wp_bind_inv in H. apply wp_bind. eapply wp_mono; [|exact H]. clear H. intros [] c2 s2 H.
  by apply wp_bind.
Qed.

Lemma set_fbuf_set t t' s : set_fbuf t (set_fbuf t' s) = set_fbuf t s.
Proof. done. Qed.
End rules.

(** * The free bitmap *)

(** The updates of [balloc] and [bfree]. *)
Definition set_bit (d : block) (bi : Z) : block :=
  put8 d (bi / 8) (Z.lor (get8 d (bi / 8)) (Z.shiftl 1 (bi mod 8))).
Definition clear_bit (d : block) (bi : Z) : block :=
  put8 d (bi / 8) (Z.land (get8 d (bi / 8)) (Z.lnot (Z.shiftl 1 (bi mod 8)))).

Lemma testbit_pow2 k j : 0 <= k -> Z.testbit (Z.shiftl 1 k) j = (j =? k).
Proof.
  intros Hk. rewrite Z.shiftl_1_l, Z.pow2_bits_eqb by done. apply Z.eqb_sym.
Qed.

Lemma bit_set_testbit d bi : 0 <= bi -> bit_set d bi = Z.testbit (get8 d (bi / 8)) (bi mod 8).
Proof.
  intros Hb. unfold bit_set. set (x := get8 _ _). set (k := bi mod 8).
  assert (0 <= k) by (apply Z.mod_pos_bound; lia).
  destruct (Z.testbit x k) eqn:E.
  - apply negb_true_iff, Z.eqb_neq. intros H0.
    assert (Z.testbit (Z.land x (Z.shiftl 1 k)) k = false) as Hf by (by rewrite H0, Z.bits_0).
    rewrite Z.land_spec, testbit_pow2, E, Z.eqb_refl in Hf by done. done.
  - apply negb_false_iff, Z.eqb_eq. apply Z.bits_inj'. intros j Hj.
    rewrite Z.bits_0, Z.land_spec, testbit_pow2 by done.
    destruct (Z.eqb_spec j k) as [->|]; [by rewrite E|apply andb_false_r].
Qed.

Lemma testbit_u8 x k : 0 <= k < 8 -> Z.testbit (u8 x) k = Z.testbit x k.
Proof. intros Hk. unfold u8. change 256 with (2 ^ 8). apply Z.mod_pow2_bits_low. lia. Qed.

Lemma byte_bit bi : 0 <= bi < BPB -> 0 <= bi / 8 < BSIZE /\ 0 <= bi mod 8 < 8.
Proof. unfold BPB, BSIZE. intros. Z.div_mod_to_equations. lia. Qed.

Lemma same_bit bi bj : 0 <= bi -> 0 <= bj -> bi / 8 = bj / 8 -> bi mod 8 = bj mod 8 -> bi = bj.
Proof. intros. Z.div_mod_to_equations. lia. Qed.

Section bits.
Variables (d : block) (bi : Z).
Hypothesis (Hd : block_wf d) (Hbi : 0 <= bi < BPB).

Lemma set_bit_wf : block_wf (set_bit d bi).
Proof using Hd. by apply put8_wf. Qed.
Lemma clear_bit_wf : block_wf (clear_bit d bi).
Proof using Hd. by apply put8_wf. Qed.

Lemma bit_update f bj : 0 <= bj < BPB ->
  bit_set (put8 d (bi / 8) f) bj =
  if bj / 8 =? bi / 8 then Z.testbit f (bj mod 8) else bit_set d bj.
Proof using Hd Hbi.
  intros Hbj. destruct Hd as [Hl _]. pose proof (byte_bit bi Hbi). pose proof (byte_bit bj Hbj).
  rewrite !bit_set_testbit by lia. rewrite get8_put8 by lia.
  destruct (bj / 8 =? bi / 8); [|done]. apply testbit_u8. lia.
Qed.

Lemma bit_set_set bj : 0 <= bj < BPB -> bit_set (set_bit d bi) bj = (bj =? bi) || bit_set d bj.
Proof using Hd Hbi.
  intros Hbj. pose proof (byte_bit bi Hbi). pose proof (byte_bit bj Hbj).
  unfold set_bit. rewrite bit_update by done. rewrite Z.lor_spec, testbit_pow2 by lia.
  destruct (Z.eqb_spec (bj / 8) (bi / 8)) as [E|E].
  - rewrite <- E, <- bit_set_testbit by lia. rewrite orb_comm. f_equal.
    destruct (Z.eqb_spec (bj mod 8) (bi mod 8)) as [E'|E'], (Z.eqb_spec bj bi) as [->|Hne]; try done.
    exfalso. apply Hne, same_bit; lia.
  - by rewrite (proj2 (Z.eqb_neq bj bi)) by (intros ->; done).
Qed.

Lemma bit_set_clear bj : 0 <= bj < BPB ->
  bit_set (clear_bit d bi) bj = negb (bj =? bi) && bit_set d bj.
Proof using Hd Hbi.
  intros Hbj. pose proof (byte_bit bi Hbi). pose proof (byte_bit bj Hbj).
  unfold clear_bit. rewrite bit_update by done. rewrite Z.land_spec, Z.lnot_spec, testbit_pow2 by lia.
  destruct (Z.eqb_spec (bj / 8) (bi / 8)) as [E|E].
  - rewrite <- E, <- bit_set_testbit by lia. rewrite andb_comm. f_equal. f_equal.
    destruct (Z.eqb_spec (bj mod 8) (bi mod 8)) as [E'|E'], (Z.eqb_spec bj bi) as [->|Hne]; try done.
    exfalso. apply Hne, same_bit; lia.
  - by rewrite (proj2 (Z.eqb_neq bj bi)) by (intros ->; done).
Qed.
End bits.

(** The search finds the first clear bit of the block, below the size. *)
Lemma find_free_spec n d b bi sz : 0 <= bi -> bi + Z.of_nat n = BPB ->
  match find_free n d b bi sz with
  | Some bj => bi <= bj < BPB /\ b + bj < sz /\ bit_set d bj = false /\
      (forall bk, bi <= bk < bj -> bit_set d bk = true)
  | None => forall bk, bi <= bk < BPB -> b + bk < sz -> bit_set d bk = true
  end.
Proof.
  revert bi. induction n as [|n IH]; intros bi H0 Hn; cbn [find_free].
  - intros bk. lia.
  - destruct (Z.ltb_spec bi BPB); [|lia]. destruct (Z.ltb_spec (b + bi) sz) as [Hs|Hs]; cbn [andb].
    + destruct (bit_set d bi) eqn:E; [|split_and!; try done; lia].
      specialize (IH (bi + 1) ltac:(lia) ltac:(lia)). destruct (find_free n d b (bi + 1) sz) as [bj|].
      * destruct IH as (? & ? & ? & Hall). split_and!; try done; try lia.
        intros bk Hbk. destruct (decide (bk = bi)) as [->|]; [done|]. apply Hall. lia.
      * intros bk Hbk Hk. destruct (decide (bk = bi)) as [->|]; [done|]. apply IH; lia.
    + intros bk. lia.
Qed.

(** * The layout of the disk *)

(** The first data block. *)
Definition dstart (sb : superblock) : Z := sb_bmapstart sb + sb_size sb / BPB + 1.

(** Boot block, super block, log, inodes, bitmap and data, in this order. *)
Record sb_ok (sb : superblock) (v : bview) : Prop := {
  so_log : 2 <= sb_logstart sb;
  so_lstart : vlstart v = sb_logstart sb;
  so_lsize : vlsize v = sb_nlog sb;
  so_nlog : 0 <= sb_nlog sb;
  so_inode : sb_logstart sb + sb_nlog sb <= sb_inodestart sb;
  so_ninodes : 0 <= sb_ninodes sb;
  so_bmap : sb_inodestart sb + sb_ninodes sb / IPB + 1 <= sb_bmapstart sb;
  so_pos : 0 <= sb_size sb;
  so_data : dstart sb <= sb_size sb;
  so_size : sb_size sb <= vsize v;
  so_int : sb_size sb < 2147483648
}.

(** Block [b] is marked in the bitmap. *)
Definition used (sb : superblock) (v : bview) (b : Z) : bool :=
  bit_set (vdata v (BBLOCK b sb)) (b mod BPB).

Definition is_data (sb : superblock) (b : Z) : Prop := dstart sb <= b < sb_size sb.
Definition is_bmap (sb : superblock) (b : Z) : Prop :=
  sb_bmapstart sb <= b < dstart sb.

Record fs_ok (sb : superblock) (v : bview) : Prop := {
  fo_sb : sb_ok sb v;
  fo_meta : forall b, 0 <= b < dstart sb -> used sb v b = true;
  fo_wf : forall b, home v b -> block_wf (vdata v b)
}.

(** The view after allocating, after freeing [b]. *)
Definition v_mark (sb : superblock) (b : Z) (v : bview) : bview :=
  v_upd (BBLOCK b sb) (set_bit (vdata v (BBLOCK b sb)) (b mod BPB)) v.
Definition v_alloc (sb : superblock) (b : Z) (v : bview) : bview :=
  v_upd b zero_block (v_mark sb b v).
Definition v_free (sb : superblock) (b : Z) (v : bview) : bview :=
  v_upd (BBLOCK b sb) (clear_bit (vdata v (BBLOCK b sb)) (b mod BPB)) v.

Section layout.
Variables (sb : superblock).
Implicit Types (v : bview) (b : Z).

Lemma sb_ok_upd v b d : sb_ok sb v -> sb_ok sb (v_upd b d v).
Proof. by intros []. Qed.

Lemma bpb_mod b : 0 <= b mod BPB < BPB.
Proof. apply Z.mod_pos_bound. unfold BPB, BSIZE. lia. Qed.

Lemma bblock_bmap b : 0 <= b < sb_size sb -> is_bmap sb (BBLOCK b sb).
Proof.
  intros Hb. unfold is_bmap, BBLOCK, dstart.
  assert (0 <= b / BPB <= sb_size sb / BPB); [|lia].
  split; [apply Z.div_pos; unfold BPB, BSIZE; lia|].
  apply Z.div_le_mono; unfold BPB, BSIZE; lia.
Qed.

Lemma bmap_home v b : sb_ok sb v -> is_bmap sb b -> home v b.
Proof.
  intros [] Hb. unfold is_bmap, home in *. rewrite so_lstart0, so_lsize0.
  assert (0 <= sb_ninodes sb / IPB) by (apply Z.div_pos; unfold IPB; lia). lia.
Qed.

Lemma data_home v b : sb_ok sb v -> is_data sb b -> home v b.
Proof.
  intros [] Hb. unfold is_data, home in *. rewrite so_lstart0, so_lsize0. unfold dstart in *.
  assert (0 <= sb_ninodes sb / IPB) by (apply Z.div_pos; unfold IPB; lia).
  assert (0 <= sb_size sb / BPB); [apply Z.div_pos; unfold BPB, BSIZE; lia|lia].
Qed.

Lemma iblock_home v n : sb_ok sb v -> 0 <= n < sb_ninodes sb ->
  home v (IBLOCK n sb) /\ IBLOCK n sb < sb_bmapstart sb.
Proof.
  intros [] Hn. unfold IBLOCK, home.
  assert (0 <= n / IPB <= sb_ninodes sb / IPB).
  { split; [apply Z.div_pos|apply Z.div_le_mono]; unfold IPB; lia. }
  rewrite so_lstart0, so_lsize0. unfold dstart in *.
  assert (0 <= sb_size sb / BPB); [apply Z.div_pos; unfold BPB, BSIZE; lia|lia].
Qed.

Lemma bblock_data_ne b b' : 0 <= b < sb_size sb -> is_data sb b' -> BBLOCK b sb <> b'.
Proof. intros Hb Hd. pose proof (bblock_bmap b Hb). unfold is_bmap, is_data in *. lia. Qed.

(** Free blocks are data blocks. *)
Lemma free_data v b : fs_ok sb v -> 0 <= b < sb_size sb -> used sb v b = false -> is_data sb b.
Proof.
  intros Hok Hb Hu. unfold is_data. destruct (Z.lt_ge_cases b (dstart sb)); [|lia].
  rewrite (fo_meta _ _ Hok) in Hu; [done|lia].
Qed.

(** The bitmap after a change of one of its bits. *)
Lemma used_bit v b f : fs_ok sb v -> 0 <= b < sb_size sb ->
  (forall d bi bj, block_wf d -> 0 <= bi < BPB -> 0 <= bj < BPB ->
     bit_set (f d bi) bj = if bj =? bi then bit_set (f d bi) bi else bit_set d bj) ->
  forall b', 0 <= b' < sb_size sb ->
  used sb (v_upd (BBLOCK b sb) (f (vdata v (BBLOCK b sb)) (b mod BPB)) v) b' =
  if b' =? b then bit_set (f (vdata v (BBLOCK b sb)) (b mod BPB)) (b mod BPB) else used sb v b'.
Proof.
  intros Hok Hb Hf b' Hb'. unfold used. cbn.
  destruct (decide (BBLOCK b' sb = BBLOCK b sb)) as [E|E].
  - rewrite E, fn_lookup_insert. rewrite Hf; try apply bpb_mod; cycle 1.
    { apply (fo_wf _ _ Hok). apply bmap_home; [apply Hok|by apply bblock_bmap]. }
    unfold BBLOCK in E. destruct (Z.eqb_spec b' b) as [->|Hne].
    + by rewrite Z.eqb_refl.
    + rewrite (proj2 (Z.eqb_neq _ _)); [done|]. intros E'. apply Hne.
      rewrite (Z.div_mod b' BPB), (Z.div_mod b BPB) by (unfold BPB, BSIZE; lia). rewrite E'. lia.
  - rewrite fn_lookup_insert_ne by done. by destruct (Z.eqb_spec b' b) as [->|].
Qed.

Lemma used_mark v b b' : fs_ok sb v -> 0 <= b < sb_size sb -> 0 <= b' < sb_size sb ->
  used sb (v_mark sb b v) b' = (b' =? b) || used sb v b'.
Proof.
  intros Hok Hb Hb'. unfold v_mark. rewrite used_bit; try done.
  - destruct (b' =? b); [|done]. cbn [orb]. rewrite bit_set_set, Z.eqb_refl; try apply bpb_mod; [done|].
    apply (fo_wf _ _ Hok), bmap_home; [apply Hok|by apply bblock_bmap].
  - intros d bi bj Hd Hi Hj. rewrite !bit_set_set by done. by destruct (Z.eqb_spec bj bi) as [->|]; rewrite ?Z.eqb_refl.
Qed.

Lemma used_free v b b' : fs_ok sb v -> 0 <= b < sb_size sb -> 0 <= b' < sb_size sb ->
  used sb (v_free sb b v) b' = negb (b' =? b) && used sb v b'.
Proof.
  intros Hok Hb Hb'. unfold v_free. rewrite used_bit; try done.
  - destruct (b' =? b); [|done]. cbn [negb andb].
    rewrite bit_set_clear, Z.eqb_refl; try apply bpb_mod; [done|].
    apply (fo_wf _ _ Hok), bmap_home; [apply Hok|by apply bblock_bmap].
  - intros d bi bj Hd Hi Hj. rewrite !bit_set_clear by done. by destruct (Z.eqb_spec bj bi) as [->|]; rewrite ?Z.eqb_refl.
Qed.

(** Writing a data block does not touch the bitmap. *)
Lemma used_upd_data v b d b' : is_data sb b -> 0 <= b' < sb_size sb ->
  used sb (v_upd b d v) b' = used sb v b'.
Proof.
  intros Hb Hb'. unfold used. cbn. rewrite fn_lookup_insert_ne; [done|].
  symmetry. by apply bblock_data_ne.
Qed.

Lemma used_alloc v b b' : fs_ok sb v -> is_data sb b -> 0 <= b < sb_size sb ->
  0 <= b' < sb_size sb -> used sb (v_alloc sb b v) b' = (b' =? b) || used sb v b'.
Proof. intros. unfold v_alloc. rewrite used_upd_data by done. by apply used_mark. Qed.

Lemma wf_upd v b d : (forall b, home v b -> block_wf (vdata v b)) -> block_wf d ->
  forall b', home (v_upd b d v) b' -> block_wf (vdata (v_upd b d v) b').
Proof.
  intros Hw Hd b' Hb'. cbn. destruct (decide (b' = b)) as [->|]; [by rewrite fn_lookup_insert|].
  rewrite fn_lookup_insert_ne by done. by apply Hw.
Qed.

Lemma dstart_le_size v b : sb_ok sb v -> 0 <= b < dstart sb -> 0 <= b < sb_size sb.
Proof. intros [] ?. lia. Qed.

Lemma fs_ok_upd_data v b d : fs_ok sb v -> is_data sb b -> block_wf d -> fs_ok sb (v_upd b d v).
Proof.
  intros [H1 H2 H3] Hb Hd. constructor; [by apply sb_ok_upd| |by apply wf_upd].
  intros b' Hb'. rewrite used_upd_data; [by apply H2|done|by eapply dstart_le_size].
Qed.

Lemma fs_ok_mark v b : fs_ok sb v -> 0 <= b < sb_size sb -> fs_ok sb (v_mark sb b v).
Proof.
  intros Hok Hb. destruct (Hok) as [H1 H2 H3]. constructor; [by apply sb_ok_upd| |apply wf_upd; [done|]].
  - intros b' Hb'. rewrite used_mark; [|done..|by eapply dstart_le_size].
    rewrite H2 by done. apply orb_true_r.
  - apply set_bit_wf, H3, bmap_home; [done|by apply bblock_bmap].
Qed.

Lemma fs_ok_alloc v b : fs_ok sb v -> is_data sb b -> 0 <= b < sb_size sb ->
  fs_ok sb (v_alloc sb b v).
Proof. intros. unfold v_alloc. apply fs_ok_upd_data; [by apply fs_ok_mark|done|apply zero_block_wf]. Qed.

Lemma fs_ok_free v b : fs_ok sb v -> is_data sb b -> 0 <= b < sb_size sb -> fs_ok sb (v_free sb b v).
Proof.
  intros Hok Hd Hb. destruct (Hok) as [H1 H2 H3]. constructor; [by apply sb_ok_upd| |apply wf_upd; [done|]].
  - intros b' Hb'. rewrite used_free; [|done..|by eapply dstart_le_size].
    rewrite H2 by done. unfold is_data in Hd. by rewrite (proj2 (Z.eqb_neq b' b)) by lia.
  - apply clear_bit_wf, H3, bmap_home; [done|by apply bblock_bmap].
Qed.
End layout.

(** * The allocator *)

(** Buffers the caller may keep while it allocates or frees: at most one,
    of a data block in use. *)
Record opens_ok (sb : superblock) (v : bview) : Prop := {
  oo_size : (size (vopen v) <= 1)%nat;
  oo_data : forall i b, vopen v !! i = Some b -> is_data sb b /\ used sb v b = true;
  oo_clean : vunlogged v = ∅
}.

(** A set with the bitmap blocks. *)
Definition has_bmap (sb : superblock) (B : gset Z) : Prop :=
  forall b, 0 <= b < sb_size sb -> BBLOCK b sb ∈ B.

Section allocator.
Context {T : Type} {BC : BufferCache T}.
#[local] Notation st := (fsst T).
Variables (p : Z) (B : gset Z).
Implicit Types (s : st) (v : bview) (c : ctx) (i : nat) (b : Z).

Lemma opens_not sb v b : opens_ok sb v -> (is_bmap sb b \/ used sb v b = false) ->
  b ∉ vopen_blocks v.
Proof.
  intros Ho Hb Hin. apply elem_of_map_img in Hin as [i Hi]. apply (oo_data _ _ Ho) in Hi as [Hd Hu].
  destruct Hb as [Hb|Hb]; [|congruence]. unfold is_bmap, is_data in *. lia.
Qed.

Lemma opens_room sb k v : opens_ok sb v -> room B k v -> buf_room v.
Proof. intros [Ho _ _] Hr. apply (room_buf B k); [done|lia]. Qed.

Lemma bzero_wp b s v c (Q : unit -> ctx -> st -> Prop) :
  frel p s v -> held c = [] -> mypid c = p -> home v b -> b ∉ vopen_blocks v -> buf_room v ->
  b ∉ vunlogged v -> log_room v -> 1 <= vops v ->
  (forall c' t, same_thread c c' -> frel p (set_fbuf t s) (v_upd b zero_block v) ->
     Q tt c' (set_fbuf t s)) ->
  wp (bzero 1 b) c s Q.
Proof.
  intros Hr Hc Hp Hh Hno Hbr Hu Hl Hops HQ. unfold bzero. wp_step. apply (wp_bread p _ _ v); try done.
  intros i c1 t1 Hth1 Hi Hr1 _. apply (wp_store_log1 p i b _ _ v); try done.
  - by rewrite (st_held _ _ Hth1).
  - by rewrite (st_pid _ _ Hth1).
  - intros c2 t2 Hth2 Hr2. rewrite set_fbuf_set in *. apply HQ; [eauto using same_thread_trans|done].
Qed.

Lemma bblock_split b bi sb : b mod BPB = 0 -> 0 <= bi < BPB ->
  BBLOCK (b + bi) sb = BBLOCK b sb /\ (b + bi) mod BPB = bi.
Proof.
  intros Hb Hbi. unfold BBLOCK. unfold BPB, BSIZE in *. Z.div_mod_to_equations. lia.
Qed.

Lemma balloc_loop_wp fuel b s v c (Q : Z -> ctx -> st -> Prop) :
  let sb := fsb s in
  frel p s v -> fs_ok sb v -> opens_ok sb v -> has_bmap sb B -> room B 1 v ->
  held c = [] -> mypid c = p -> b mod BPB = 0 -> 0 <= b ->
  (forall b', 0 <= b' < b -> b' < sb_size sb -> used sb v b' = true) ->
  (exists f, 0 <= f < sb_size sb /\ used sb v f = false) ->
  sb_size sb < b + Z.of_nat fuel * BPB ->
  (forall a c' t, same_thread c c' -> 0 <= a < sb_size sb -> used sb v a = false ->
     (forall b', 0 <= b' < a -> used sb v b' = true) ->
     frel p (set_fbuf t s) (v_alloc sb a v) -> Q a c' (set_fbuf t s)) ->
  wp (balloc_loop fuel 1 b) c s Q.
Proof.
  intros sb. revert b s c Q sb. induction fuel as [|fuel IH];
    intros b s c Q sb Hr Hok Ho HB Hrm Hc Hp Hm Hb0 Hall Hex Hf HQ.
  { destruct Hex as (f & Hf1 & Hf2). rewrite Hall in Hf2; [done|lia|lia]. }
  cbn [balloc_loop]. wp_step. wp_step. fold sb. destruct (Z.ltb_spec b (sb_size sb)) as [Hlt|Hge]; cycle 1.
  { destruct Hex as (f & Hf1 & Hf2). rewrite Hall in Hf2; [done|lia|lia]. }
  pose proof (bblock_bmap sb b ltac:(lia)) as Hbm.
  wp_step. apply (wp_bread p _ _ v); try done.
  { apply (bmap_home sb); [apply Hok|done]. } { apply (opens_not sb); [done|by left]. }
  { by eapply opens_room. }
  intros i c1 t1 Hth1 Hi Hr1 Hd1. wp_step. wp_step. cbn [fbuf set_fbuf]. rewrite Hd1.
  assert (Hc1 : held c1 = []) by (by rewrite (st_held _ _ Hth1)).
  assert (Hp1 : mypid c1 = p) by (by rewrite (st_pid _ _ Hth1)).
  pose proof (find_free_spec (Z.to_nat BPB) (vdata v (BBLOCK b sb)) b 0 (sb_size sb) ltac:(lia)
    ltac:(unfold BPB, BSIZE; lia)) as Hff.
  destruct (find_free _ _ _ _ _) as [bi|].
  - destruct Hff as (Hbi & Hsz & Hclr & Hmin).
    destruct (bblock_split b bi sb Hm Hbi) as [E1 E2].
    assert (Hfree : used sb v (b + bi) = false) by (unfold used; by rewrite E1, E2).
    assert (Hda : is_data sb (b + bi)) by (apply (free_data sb v); [done|lia|done]).
    apply (wp_store_log p i (BBLOCK b sb) _ _ v); try done.
    { by rewrite (oo_clean _ _ Ho). } { by eapply room_log. } { apply Hrm. }
    intros c2 t2 Hth2 Hr2. rewrite set_fbuf_set in *.
    change (put8 _ _ _) with (set_bit (vdata v (BBLOCK b sb)) bi) in Hr2.
    rewrite <- E2, <- E1 in Hr2 at 1. rewrite <- E1 in Hr2. fold (v_mark sb (b + bi) v) in Hr2.
    wp_step. apply (bzero_wp _ _ (v_mark sb (b + bi) v)); try done.
    + by rewrite (st_held _ _ Hth2).
    + by rewrite (st_pid _ _ Hth2).
    + apply (data_home sb); [|done]. apply sb_ok_upd, Hok.
    + apply (opens_not sb v); [done|by right].
    + apply (room_buf B 1); [apply room_in; [apply HB; lia|done]|]. cbn. destruct Ho. lia.
    + cbn. by rewrite (oo_clean _ _ Ho).
    + apply (room_log B 1). apply room_in; [apply HB; lia|done].
    + apply Hrm.
    + intros c3 t3 Hth3 Hr3. wp_step. rewrite set_fbuf_set in *. apply HQ; [|lia|done| |done].
      * eauto using same_thread_trans.
      * intros b' Hb'. destruct (Z.lt_ge_cases b' b); [apply Hall; lia|].
        replace b' with (b + (b' - b)) by lia. unfold used.
        destruct (bblock_split b (b' - b) sb Hm ltac:(lia)) as [-> ->]. apply Hmin. lia.
  - wp_step. apply (wp_brelse_read p i (BBLOCK b sb) _ v); try done.
    { by rewrite (oo_clean _ _ Ho). }
    intros c2 t2 Hth2 Hr2. rewrite set_fbuf_set in *. apply IH; try done.
    + by rewrite (st_held _ _ Hth2).
    + by rewrite (st_pid _ _ Hth2).
    + unfold BPB, BSIZE in *. Z.div_mod_to_equations. lia.
    + unfold BPB, BSIZE in *. lia.
    + intros b' Hb' Hs. destruct (Z.lt_ge_cases b' b); [apply Hall; lia|].
      replace b' with (b + (b' - b)) by lia. unfold used. cbn [fsb set_fbuf] in *. fold sb in Hs |- *.
      destruct (bblock_split b (b' - b) sb Hm ltac:(lia)) as [-> ->]. apply Hff; lia.
    + cbn [fsb set_fbuf]. fold sb. unfold BPB, BSIZE in *. lia.
    + intros a c' t Hth Ha Hu Hmin Hra. rewrite set_fbuf_set in *. apply HQ; try done.
      eauto using same_thread_trans.
Qed.

Lemma fuel_enough sb : 0 <= sb_size sb ->
  sb_size sb + BPB <= 0 + Z.of_nat (Z.to_nat (sb_size sb / BPB + 2)) * BPB.
Proof.
  intros H. assert (0 <= sb_size sb / BPB) by (apply Z.div_pos; unfold BPB, BSIZE; lia).
  rewrite Z2Nat.id by lia. unfold BPB, BSIZE in *. Z.div_mod_to_equations. lia.
Qed.

Lemma balloc_wp s v c (Q : Z -> ctx -> st -> Prop) :
  let sb := fsb s in
  frel p s v -> fs_ok sb v -> opens_ok sb v -> has_bmap sb B -> room B 1 v ->
  held c = [] -> mypid c = p ->
  (exists f, 0 <= f < sb_size sb /\ used sb v f = false) ->
  (forall a c' t, same_thread c c' -> 0 <= a < sb_size sb -> used sb v a = false ->
     (forall b', 0 <= b' < a -> used sb v b' = true) ->
     frel p (set_fbuf t s) (v_alloc sb a v) -> Q a c' (set_fbuf t s)) ->
  wp (balloc 1) c s Q.
Proof.
  intros sb Hr Hok Ho HB Hrm Hc Hp Hex HQ. unfold balloc. wp_step. wp_step. fold sb.
  apply (balloc_loop_wp _ _ _ v); try done; [lia|].
  pose proof (fuel_enough sb (so_pos _ _ (fo_sb _ _ Hok))). fold sb. unfold BPB, BSIZE in *. lia.
Qed.

(** With no free block the search runs over the whole bitmap and panics. *)
Lemma balloc_loop_full fuel b s v c :
  let sb := fsb s in
  frel p s v -> fs_ok sb v -> opens_ok sb v -> room B 0 v ->
  held c = [] -> mypid c = p -> 0 <= b ->
  (forall b', 0 <= b' < sb_size sb -> used sb v b' = true) -> b mod BPB = 0 ->
  sb_size sb + BPB <= b + Z.of_nat fuel * BPB -> (0 < fuel)%nat ->
  panics (balloc_loop fuel 1 b) c s "balloc: out of blocks".
Proof.
  intros sb. revert b s c sb. induction fuel as [|fuel IH];
    intros b s c sb Hr Hok Ho Hrm Hc Hp Hb0 Hall Hm Hf Hpos; [lia|].
  cbn [balloc_loop]. apply panics_bind. wp_step. fold sb.
  destruct (Z.ltb_spec b (sb_size sb)) as [Hlt|Hge]; [|done].
  pose proof (bblock_bmap sb b ltac:(lia)) as Hbm.
  apply panics_bind. apply (wp_bread p _ _ v); try done.
  { apply (bmap_home sb); [apply Hok|done]. } { apply (opens_not sb); [done|by left]. }
  { by eapply opens_room. }
  intros i c1 t1 Hth1 Hi Hr1 Hd1. apply panics_bind. wp_step. cbn [fbuf set_fbuf]. rewrite Hd1.
  pose proof (find_free_spec (Z.to_nat BPB) (vdata v (BBLOCK b sb)) b 0 (sb_size sb) ltac:(lia)
    ltac:(unfold BPB, BSIZE; lia)) as Hff.
  destruct (find_free _ _ _ _ _) as [bi|].
  { destruct Hff as (Hbi & Hsz & Hclr & _). destruct (bblock_split b bi sb Hm Hbi) as [E1 E2].
    specialize (Hall (b + bi) ltac:(lia)). unfold used in Hall. rewrite E1, E2 in Hall. congruence. }
  apply panics_bind. apply (wp_brelse_read p i (BBLOCK b sb) _ v); try done.
  { by rewrite (st_held _ _ Hth1). } { by rewrite (st_pid _ _ Hth1). }
  { by rewrite (oo_clean _ _ Ho). }
  intros c2 t2 Hth2 Hr2. rewrite set_fbuf_set in *.
  apply IH; try done.
  - by rewrite (st_held _ _ Hth2), (st_held _ _ Hth1).
  - by rewrite (st_pid _ _ Hth2), (st_pid _ _ Hth1).
  - unfold BPB, BSIZE in *. lia.
  - unfold BPB, BSIZE in *. Z.div_mod_to_equations. lia.
  - cbn [fsb set_fbuf]. fold sb. unfold BPB, BSIZE in *. lia.
  - unfold BPB, BSIZE in *. lia.
Qed.

Lemma bfree_wp b s v c (Q : unit -> ctx -> st -> Prop) :
  let sb := fsb s in
  frel p s v -> fs_ok sb v -> opens_ok sb v -> room B 0 v ->
  held c = [] -> mypid c = p -> 0 <= b < sb_size sb -> used sb v b = true ->
  (forall c' t, same_thread c c' -> frel p (set_fbuf t s) (v_free sb b v) -> Q tt c' (set_fbuf t s)) ->
  wp (bfree 1 b) c s Q.
Proof.
  intros sb Hr Hok Ho Hrm Hc Hp Hb Hu HQ. unfold bfree. wp_step. wp_step. fold sb.
  pose proof (bblock_bmap sb b Hb) as Hbm.
  wp_step. apply (wp_bread p _ _ v); try done.
  { apply (bmap_home sb); [apply Hok|done]. } { apply (opens_not sb); [done|by left]. }
  { by eapply opens_room. }
  intros i c1 t1 Hth1 Hi Hr1 Hd1. wp_step. wp_step. cbn [fbuf set_fbuf]. rewrite Hd1.
  unfold used in Hu. rewrite Hu. cbn [negb].
  apply (wp_store_log1 p i (BBLOCK b sb) _ _ v); try done.
  { by rewrite (st_held _ _ Hth1). } { by rewrite (st_pid _ _ Hth1). }
  { by rewrite (oo_clean _ _ Ho). } { by eapply room_log. } { apply Hrm. }
  intros c2 t2 Hth2 Hr2. rewrite set_fbuf_set in *. apply HQ; [eauto using same_thread_trans|done].
Qed.

Lemma bfree_free_panics b s v c :
  let sb := fsb s in
  frel p s v -> fs_ok sb v -> opens_ok sb v -> room B 0 v ->
  held c = [] -> mypid c = p -> 0 <= b < sb_size sb -> used sb v b = false ->
  panics (bfree 1 b) c s "freeing free block".
Proof.
  intros sb Hr Hok Ho Hrm Hc Hp Hb Hu. unfold bfree. apply panics_bind. wp_step. fold sb.
  pose proof (bblock_bmap sb b Hb) as Hbm.
  apply panics_bind. apply (wp_bread p _ _ v); try done.
  { apply (bmap_home sb); [apply Hok|done]. } { apply (opens_not sb); [done|by left]. }
  { by eapply opens_room. }
  intros i c1 t1 Hth1 Hi Hr1 Hd1. apply panics_bind. wp_step. cbn [fbuf set_fbuf]. rewrite Hd1.
  unfold used in Hu. by rewrite Hu.
Qed.
End allocator.
