(* ===== verification/FsInode.v ===== *)
(** * Inodes (fs.c): the on-disk format, the inode cache and its locks *)
From stdpp Require Import functions.
From S2P Require Import Prelude CString Mmu Block Sleeplock Log Buffers Fs FsBlocks.
#[local] Set Default Proof Using "Type".

(** * The format of a dinode *)

(** [d'] differs from [d] at most in the [n] bytes from [o] on. *)
Definition same_out (o n : Z) (d d' : block) : Prop :=
  length d' = length d /\ forall q, 0 <= q -> ~ (o <= q < o + n) -> get8 d' q = get8 d q.
(** [d'] agrees with [d] on the [n] bytes from [o] on. *)
Definition same_in (o n : Z) (d d' : block) : Prop :=
  forall q, o <= q < o + n -> get8 d' q = get8 d q.

Section accessors.
Implicit Types (d : block) (o v : Z).

Lemma same_out_refl o n d : same_out o n d d.
Proof. done. Qed.
Lemma same_out_trans o n d1 d2 d3 : same_out o n d1 d2 -> same_out o n d2 d3 -> same_out o n d1 d3.
Proof. intros [L1 H1] [L2 H2]. split; [congruence|]. intros q Hq Hn. by rewrite H2, H1. Qed.
Lemma same_out_weak o n o' n' d d' : o' <= o -> o + n <= o' + n' ->
  same_out o n d d' -> same_out o' n' d d'.
Proof. intros H1 H2 [L H]. split; [done|]. intros q Hq Hn. apply H; lia. Qed.

Lemma put8_out d o v : 0 <= o -> same_out o 1 d (put8 d o v).
Proof.
  intros Ho. split; [apply length_put8|]. intros q Hq Hn. unfold get8, put8. rewrite !nth_lookup.
  rewrite list_lookup_insert_ne by lia. done.
Qed.
Lemma put16_out d o v : 0 <= o -> same_out o 2 d (put16 d o v).
Proof.
  intros Ho. eapply same_out_trans; (eapply same_out_weak; [| |apply put8_out]); lia.
Qed.
Lemma put32_out d o v : 0 <= o -> same_out o 4 d (put32 d o v).
Proof.
  intros Ho. eapply same_out_trans; (eapply same_out_weak; [| |apply put16_out]); lia.
Qed.
Lemma put_addrs_out l d o : 0 <= o -> same_out o (4 * Z.of_nat (length l)) d (put_addrs d o l).
Proof.
  revert d o. induction l as [|a l IH]; intros d o Ho; cbn [put_addrs]; [apply same_out_refl|].
  eapply same_out_trans.
  - eapply same_out_weak; [| |by apply put32_out]; simpl; lia.
  - eapply same_out_weak; [| |apply IH]; simpl; lia.
Qed.

Lemma same_out_in o n o' n' d d' : 0 <= o' -> o' + n' <= o \/ o + n <= o' ->
  same_out o n d d' -> same_in o' n' d d'.
Proof. intros Ho Hd [_ H] q Hq. apply H; lia. Qed.

Lemma get16_same d d' o : same_in o 2 d d' -> get16 d' o = get16 d o.
Proof. intros H. unfold get16. by rewrite !H by lia. Qed.
Lemma get32_same d d' o : same_in o 4 d d' -> get32 d' o = get32 d o.
Proof. intros H. unfold get32. rewrite !(get16_same d d'); [done| |]; intros q Hq; apply H; lia. Qed.
Lemma get_addrs_same n d d' o : same_in o (4 * Z.of_nat n) d d' -> get_addrs d' o n = get_addrs d o n.
Proof.
  revert o. induction n as [|n IH]; intros o H; [done|]. cbn [get_addrs]. f_equal.
  - apply get32_same. intros q Hq. apply H. lia.
  - apply IH. intros q Hq. apply H. lia.
Qed.

Lemma length_get_addrs n d o : length (get_addrs d o n) = n.
Proof. revert o. induction n; intros o; simpl; auto. Qed.

Lemma get_addrs_nth n d o k : (k < n)%nat ->
  nth k (get_addrs d o n) 0 = get32 d (o + 4 * Z.of_nat k).
Proof.
  revert o k. induction n as [|n IH]; intros o [|k] Hk; [lia|lia| |]; cbn [get_addrs nth].
  - f_equal. lia.
  - rewrite IH by lia. f_equal. lia.
Qed.

Lemma get_addrs_range n d o : block_wf d -> Forall is_u32 (get_addrs d o n).
Proof.
  intros Hd. revert o. induction n as [|n IH]; intros o; cbn; constructor; auto.
  by apply get32_range.
Qed.

(** Round trip of the address table. *)
Lemma get_put_addrs l d o : 0 <= o -> o + 4 * Z.of_nat (length l) <= Z.of_nat (length d) ->
  Forall is_u32 l -> get_addrs (put_addrs d o l) o (length l) = l.
Proof.
  revert d o. induction l as [|a l IH]; intros d o Ho Hl HF; [done|].
  apply Forall_cons in HF as [Ha HF]. simpl in Hl. cbn [length get_addrs put_addrs]. f_equal.
  - rewrite (get32_same (put32 d o a)).
    + rewrite get32_put32 by lia. rewrite Z.eqb_refl. by apply u32_small.
    + eapply same_out_in; [| |apply put_addrs_out]; lia.
  - rewrite IH; [done|lia| |done]. rewrite length_put32. lia.
Qed.

Lemma put_addrs_wf l d o : block_wf d -> block_wf (put_addrs d o l).
Proof. revert d o. induction l; intros d o Hd; cbn; auto with xv6. Qed.
End accessors.

(** The ranges of an in-memory inode's disk fields. *)
Record irange (i : inode) : Prop := {
  ir_type : -32768 <= itype i < 32768;
  ir_major : -32768 <= imajor i < 32768;
  ir_minor : -32768 <= iminor i < 32768;
  ir_nlink : -32768 <= inlink i < 32768;
  ir_size : is_u32 (isize i);
  ir_len : length (iaddrs i) = 13%nat;
  ir_addrs : Forall is_u32 (iaddrs i)
}.

(** The fields of [j] that live on disk, in the entry [i]. *)
Definition with_disk (j i : inode) : inode :=
  Inode (idev i) (inum i) (iref i) (islp i) (ivalid i) (itype j) (imajor j) (iminor j)
    (inlink j) (isize j) (iaddrs j).

Section dinode.
Variables (d : block) (o : Z).
Hypothesis (Hd : block_wf d) (Ho : 0 <= o) (Hfit : o + 64 <= BSIZE).

Lemma i16_u16 x : -32768 <= x < 32768 -> i16 (u16 x) = x.
Proof. intros. wrap_lia. Qed.

Lemma store_dinode_wf i : block_wf (store_dinode d o i).
Proof using Hd. unfold store_dinode. apply put_addrs_wf. auto 10 with xv6. Qed.

Lemma put16_within e k v : same_out o 64 d e -> 0 <= k <= 62 -> same_out o 64 d (put16 e (o + k) v).
Proof using Ho.
  intros H Hk. eapply same_out_trans; [exact H|].
  eapply same_out_weak; [| |apply put16_out]; lia.
Qed.

Lemma store_dinode_out i : length (iaddrs i) = 13%nat -> same_out o 64 d (store_dinode d o i).
Proof using Ho.
  intros Hl. unfold store_dinode.
  eapply same_out_trans; [|eapply same_out_weak; [| |apply put_addrs_out]; lia].
  eapply same_out_trans; [|eapply same_out_weak; [| |apply put32_out]; lia].
  do 3 (apply put16_within; [|lia]). eapply same_out_weak; [| |apply put16_out]; lia.
Qed.

(** What [iupdate] stores is what [ilock] loads. *)
Lemma load_store i j : irange i -> load_dinode (store_dinode d o i) o j = with_disk i j.
Proof using Hd Ho Hfit.
  intros [R1 R2 R3 R4 R5 R6 R7]. destruct Hd as [Hl _].
  set (d1 := put16 d o (itype i)). set (d2 := put16 d1 (o + 2) (imajor i)).
  set (d3 := put16 d2 (o + 4) (iminor i)). set (d4 := put16 d3 (o + 6) (inlink i)).
  set (d5 := put32 d4 (o + 8) (isize i)).
  assert (E : store_dinode d o i = put_addrs d5 (o + 12) (iaddrs i)) by done.
  assert (L1 : length d1 = length d) by apply length_put16.
  assert (L2 : length d2 = length d) by (unfold d2; by rewrite length_put16).
  assert (L3 : length d3 = length d) by (unfold d3; by rewrite length_put16).
  assert (L4 : length d4 = length d) by (unfold d4; by rewrite length_put16).
  assert (L5 : length d5 = length d) by (unfold d5; by rewrite length_put32).
  assert (H16 : forall q, 0 <= q -> q + 2 <= o + 8 -> get16 (store_dinode d o i) q = get16 d4 q).
  { intros q Hq Hlt. rewrite E. rewrite (get16_same d5), (get16_same d4); [done| |];
      (eapply same_out_in; [| |apply put32_out || apply put_addrs_out]; lia). }
  unfold load_dinode, dtype, with_disk. rewrite !H16 by lia.
  assert (Hg : forall e q r x, length e = length d -> 0 <= q -> q + 2 <= o + 64 -> 0 <= r ->
    r = q \/ r + 2 <= q \/ q + 2 <= r -> get16 (put16 e q x) r = if r =? q then u16 x else get16 e r).
  { intros e q r x He Hq Hqo Hr Hd'. unfold BSIZE in *. apply get16_put16; lia. }
  assert (Hn : forall e q r x, length e = length d -> 0 <= q -> q + 2 <= o + 64 -> 0 <= r ->
    r + 2 <= q \/ q + 2 <= r -> get16 (put16 e q x) r = get16 e r).
  { intros e q r x ? ? ? ? ?. rewrite Hg by (done || lia). by rewrite (proj2 (Z.eqb_neq r q)) by lia. }
  f_equal.
  - unfold d4. rewrite Hn by lia. unfold d3. rewrite Hn by lia. unfold d2. rewrite Hn by lia.
    unfold d1. rewrite Hg, Z.eqb_refl by (done || lia). by apply i16_u16.
  - unfold d4. rewrite Hn by lia. unfold d3. rewrite Hn by lia. unfold d2.
    rewrite Hg, Z.eqb_refl by lia. by apply i16_u16.
  - unfold d4. rewrite Hn by lia. unfold d3. rewrite Hg, Z.eqb_refl by lia. by apply i16_u16.
  - unfold d4. rewrite Hg, Z.eqb_refl by lia. by apply i16_u16.
  - rewrite E, (get32_same d5).
    + unfold d5. unfold BSIZE in *. rewrite get32_put32 by lia. rewrite Z.eqb_refl. by apply u32_small.
    + eapply same_out_in; [| |apply put_addrs_out]; lia.
  - rewrite E, <- R6. apply get_put_addrs; [lia| |done]. unfold BSIZE in *. lia.
Qed.

(** Other dinodes of the block are untouched. *)
Lemma load_store_ne i j o' : length (iaddrs i) = 13%nat -> 0 <= o' -> o' + 64 <= o \/ o + 64 <= o' ->
  load_dinode (store_dinode d o i) o' j = load_dinode d o' j.
Proof using Ho.
  intros Hl Ho' Hne. pose proof (store_dinode_out i Hl) as Hs.
  assert (Hi : forall q n, o' <= q -> q + n <= o' + 64 -> same_in q n d (store_dinode d o i)).
  { intros q n H1 H2. eapply same_out_in; [| |exact Hs]; lia. }
  unfold load_dinode, dtype. f_equal; try (f_equal; apply get16_same, Hi; lia).
  - apply get32_same, Hi; lia.
  - apply get_addrs_same, Hi; lia.
Qed.

Lemma load_range j : irange (load_dinode d o j).
Proof using Hd.
  constructor; cbn [itype imajor iminor inlink isize iaddrs load_dinode]; unfold dtype;
    try (pose proof (get16_range d); wrap_lia).
  - by apply get32_range.
  - by apply length_get_addrs.
  - by apply get_addrs_range.
Qed.
End dinode.

Lemma dinode_off_range n : 0 <= n -> 0 <= dinode_off n /\ dinode_off n + 64 <= BSIZE.
Proof. intros. unfold dinode_off, IPB, BSIZE. Z.div_mod_to_equations. lia. Qed.

(** Different inode numbers in one block have disjoint dinodes. *)
Lemma dinode_off_disjoint m n sb : 0 <= m -> 0 <= n -> m <> n -> IBLOCK m sb = IBLOCK n sb ->
  dinode_off m + 64 <= dinode_off n \/ dinode_off n + 64 <= dinode_off m.
Proof. intros. unfold dinode_off, IBLOCK, IPB in *. Z.div_mod_to_equations. lia. Qed.

(** * Inode blocks in the view *)

Definition v_iupd (sb : superblock) (i : inode) (v : bview) : bview :=
  v_upd (IBLOCK (inum i) sb)
    (store_dinode (vdata v (IBLOCK (inum i) sb)) (dinode_off (inum i)) i) v.

(** The inode [n] on the (logical) disk. *)
Definition dinode_of (sb : superblock) (v : bview) (n : Z) : inode :=
  load_dinode (vdata v (IBLOCK n sb)) (dinode_off n) inode0.

Section iblocks.
Variable sb : superblock.
Implicit Types (v : bview) (b n : Z) (i : inode).

Lemma used_upd_meta v b d b' : b < sb_bmapstart sb -> 0 <= b' < sb_size sb ->
  used sb (v_upd b d v) b' = used sb v b'.
Proof.
  intros Hb Hb'. unfold used. cbn. rewrite fn_lookup_insert_ne; [done|].
  pose proof (bblock_bmap sb b' Hb') as H. unfold is_bmap in H. lia.
Qed.

Lemma fs_ok_upd_meta v b d : fs_ok sb v -> b < sb_bmapstart sb -> block_wf d ->
  fs_ok sb (v_upd b d v).
Proof.
  intros [H1 H2 H3] Hb Hd. constructor; [by apply sb_ok_upd| |by apply wf_upd].
  intros b' Hb'. rewrite used_upd_meta; [by apply H2|done|by eapply dstart_le_size].
Qed.

Lemma fs_ok_iupd v i : fs_ok sb v -> 0 <= inum i < sb_ninodes sb -> fs_ok sb (v_iupd sb i v).
Proof.
  intros Hok Hn. destruct (iblock_home sb v (inum i)) as [Hh Hlt]; [apply Hok|done|].
  apply fs_ok_upd_meta; [done|done|]. apply store_dinode_wf. by apply (fo_wf _ _ Hok).
Qed.

Lemma dinode_of_iupd v i n : fs_ok sb v -> 0 <= inum i < sb_ninodes sb -> irange i -> 0 <= n ->
  dinode_of sb (v_iupd sb i v) n = if n =? inum i then with_disk i inode0 else dinode_of sb v n.
Proof.
  intros Hok Hi Hr Hn. destruct (iblock_home sb v (inum i)) as [Hh _]; [apply Hok|done|].
  pose proof (fo_wf _ _ Hok _ Hh) as Hw. destruct (dinode_off_range (inum i)) as [O1 O2]; [lia|].
  unfold dinode_of, v_iupd. cbn [vdata v_upd].
  destruct (Z.eqb_spec n (inum i)) as [->|Hne].
  - rewrite fn_lookup_insert. by apply load_store.
  - destruct (decide (IBLOCK n sb = IBLOCK (inum i) sb)) as [E|E].
    + rewrite E, fn_lookup_insert. apply load_store_ne; [done|apply Hr|by apply dinode_off_range|].
      apply (dinode_off_disjoint n (inum i) sb) in E; [lia|done|lia|done].
    + by rewrite fn_lookup_insert_ne.
Qed.

(** Data and bitmap blocks are not inode blocks. *)
Lemma iblock_ne_data v n b : sb_ok sb v -> 0 <= n < sb_ninodes sb -> is_data sb b -> IBLOCK n sb <> b.
Proof.
  intros Hs Hn Hb. destruct (iblock_home sb v n Hs Hn) as [_ Hlt].
  pose proof (so_pos _ _ Hs). unfold is_data, dstart in Hb.
  assert (0 <= sb_size sb / BPB) by (apply Z.div_pos; unfold BPB, BSIZE; lia). lia.
Qed.

Lemma iblock_not_open v n : sb_ok sb v -> 0 <= n < sb_ninodes sb -> opens_ok sb v ->
  IBLOCK n sb ∉ vopen_blocks v.
Proof.
  intros Hs Hn Ho Hin. apply elem_of_map_img in Hin as [i Hi]. apply (oo_data _ _ Ho) in Hi as [Hd _].
  by apply (iblock_ne_data v n _ Hs Hn Hd).
Qed.
End iblocks.

(** * Operations on cached inodes *)

Section iops.
Context {T : Type} {BC : BufferCache T}.
#[local] Notation st := (fsst T).
Variables (p : Z).
Implicit Types (s : st) (v : bview) (c : ctx) (ip : nat).

Lemma upd_inode_same ip f s : icache (upd_inode ip f s) ip = f (icache s ip).
Proof. apply fn_lookup_insert. Qed.
Lemma upd_inode_ne ip ip' f s : ip' <> ip -> icache (upd_inode ip f s) ip' = icache s ip'.
Proof. intros. by apply fn_lookup_insert_ne. Qed.

(** [s'] differs from [s] in the entry [ip], now [i'], and the buffers. *)
Record only_inode (ip : nat) (i' : inode) (s s' : st) : Prop := {
  oi_sb : fsb s' = fsb s;
  oi_same : icache s' ip = i';
  oi_ne : forall ip', ip' <> ip -> icache s' ip' = icache s ip'
}.

(** An entry for an inode of the root device. *)
Definition on_disk sb (i : inode) : Prop := idev i = 1 /\ 0 <= inum i < sb_ninodes sb.

Lemma iupdate_wp B k ip s v c (Q : unit -> ctx -> st -> Prop) :
  let sb := fsb s in let i := icache s ip in
  frel p s v -> fs_ok sb v -> opens_ok sb v -> room B k v -> held c = [] -> mypid c = p ->
  on_disk sb i ->
  (forall c' t, same_thread c c' -> frel p (set_fbuf t s) (v_iupd sb i v) -> Q tt c' (set_fbuf t s)) ->
  wp (iupdate ip) c s Q.
Proof.
  intros sb i Hr Hok Ho Hrm Hc Hp [Hdev Hn] HQ. unfold iupdate. do 2 wp_step. do 2 wp_step.
  unfold id. fold i sb. rewrite Hdev. destruct (iblock_home sb v (inum i)) as [Hh _]; [apply Hok|done|].
  wp_step. apply (wp_bread p _ _ v); try done.
  { apply (iblock_not_open sb); [apply Hok|done|done]. } { by eapply opens_room. }
  intros bp c1 t1 Hth1 Hi Hr1 Hd1. wp_step. wp_step. cbn [fbuf set_fbuf]. rewrite Hd1.
  apply (wp_store_log1 p bp (IBLOCK (inum i) sb) _ _ v); try done.
  - by rewrite (st_held _ _ Hth1).
  - by rewrite (st_pid _ _ Hth1).
  - by rewrite (oo_clean _ _ Ho).
  - by eapply room_log.
  - apply Hrm.
  - intros c2 t2 Hth2 Hr2. rewrite set_fbuf_set in *. apply HQ; [eauto using same_thread_trans|done].
Qed.

(** The entry after [ilock]. *)
Definition locked_inode sb v (i : inode) : inode :=
  let i1 := set_islp (Sleeplock true p) i in
  if ivalid i then i1
  else set_ivalid true (load_dinode (vdata v (IBLOCK (inum i) sb)) (dinode_off (inum i)) i1).

(** Both states and views may be read outside a transaction here. *)
Lemma ilock_wp ip s v c (Q : unit -> ctx -> st -> Prop) :
  let sb := fsb s in let i := icache s ip in
  frel p s v -> fs_ok sb v -> opens_ok sb v -> buf_room v -> held c = [] -> mypid c = p ->
  on_disk sb i -> 1 <= iref i -> locked (islp i) = false ->
  (ivalid i = false -> itype (dinode_of sb v (inum i)) <> 0) ->
  (forall c' s', same_thread c c' -> frel p s' v -> only_inode ip (locked_inode sb v i) s s' ->
     Q tt c' s') ->
  wp (ilock ip) c s Q.
Proof.
  intros sb i Hr Hok Ho Hbr Hc Hp [Hdev Hn] Href Hl Hty HQ. unfold ilock. do 2 wp_step.
  fold i. rewrite (proj2 (Z.ltb_ge (iref i) 1)) by done. wp_step.
  apply acquiresleep_wp; [done|rewrite Hc; set_solver|]. rewrite Hp.
  set (s1 := upd_inode ip (set_islp (Sleeplock true p)) s).
  assert (E1 : icache s1 ip = set_islp (Sleeplock true p) i) by apply upd_inode_same.
  do 2 wp_step. rewrite E1. cbn [ivalid set_islp]. unfold locked_inode in HQ.
  destruct (ivalid i) eqn:Ev; wp_step; try done.
  - apply HQ; [done|exact Hr|]. constructor; [done|done|]. intros. by apply upd_inode_ne.
  - do 2 wp_step. do 2 wp_step. unfold id. rewrite E1. cbn [idev inum set_islp].
    change (fsb s1) with sb. rewrite Hdev.
    destruct (iblock_home sb v (inum i)) as [Hh _]; [apply Hok|done|].
    wp_step. apply (wp_bread p _ _ v); try done.
    { apply (iblock_not_open sb); [apply Hok|done|done]. }
    intros bp c1 t1 Hth1 Hi Hr1 Hd1. do 2 wp_step. cbn [fbuf set_fbuf]. rewrite Hd1.
    do 2 wp_step. wp_step. apply (wp_brelse_read p bp (IBLOCK (inum i) sb) _ v); try done.
    { by rewrite (st_held _ _ Hth1). } { by rewrite (st_pid _ _ Hth1). }
    { by rewrite (oo_clean _ _ Ho). }
    intros c2 t2 Hth2 Hr2. do 2 wp_step. do 2 wp_step.
    rewrite upd_inode_same. cbn [icache set_fbuf]. rewrite upd_inode_same. cbn [itype set_ivalid].
    rewrite (proj2 (Z.eqb_neq _ 0)) by exact (Hty eq_refl).
    wp_step. apply HQ; [eauto using same_thread_trans|exact Hr2|]. constructor; [done| |].
    + rewrite upd_inode_same. cbn [icache set_fbuf]. rewrite upd_inode_same. cbn [icache set_fbuf].
      by rewrite E1.
    + intros ip' Hne. rewrite upd_inode_ne by done. cbn [icache set_fbuf].
      rewrite upd_inode_ne by done. cbn [icache set_fbuf]. by apply upd_inode_ne.
Qed.

Lemma iunlock_wp ip s c (Q : unit -> ctx -> st -> Prop) :
  let i := icache s ip in
  held c = [] -> mypid c = p -> islp i = Sleeplock true p -> 1 <= iref i ->
  Q tt (add_woken (ChInodeLock ip) c) (upd_inode ip (set_islp initsleeplock) s) ->
  wp (iunlock ip) c s Q.
Proof.
  intros i Hc Hp Hl Href HQ. unfold iunlock. wp_step.
  apply holdingsleep_wp; [rewrite Hc; set_solver|]. do 2 wp_step. fold i. rewrite Hl, Hp. cbn [locked lpid].
  rewrite Z.eqb_refl, (proj2 (Z.ltb_ge (iref i) 1)) by done. cbn [negb andb orb].
  apply releasesleep_wp; [rewrite Hc; set_solver|rewrite Hc; set_solver|done|exact HQ].
Qed.

Lemma idup_wp ip s c (Q : nat -> ctx -> st -> Prop) : Licache ∉ held c ->
  Q ip c (upd_inode ip (fun x => set_iref (iref x + 1) x) s) -> wp (idup ip) c s Q.
Proof. intros Hc HQ. unfold idup. wp_step. wp_step. do 2 wp_step. do 2 wp_step. wp_step. by destruct c. Qed.

(** ** The inode cache *)

(** References are counted, and an inode in use has one entry. *)
Record cache_ok (s : st) : Prop := {
  co_ref : forall ip, (ip < NINODE)%nat -> 0 <= iref (icache s ip);
  co_uniq : forall i j, (i < NINODE)%nat -> (j < NINODE)%nat -> 0 < iref (icache s i) ->
    0 < iref (icache s j) -> idev (icache s i) = idev (icache s j) ->
    inum (icache s i) = inum (icache s j) -> i = j
}.

Definition holds (dv n : Z) (x : inode) : Prop := 0 < iref x /\ idev x = dv /\ inum x = n.
#[global] Instance holds_dec dv n x : Decision (holds dv n x).
Proof. unfold holds. apply _. Defined.

Lemma holds_test dv n x : ((iref x >? 0) && (idev x =? dv) && (inum x =? n)) = bool_decide (holds dv n x).
Proof.
  rewrite Z.gtb_ltb. destruct (bool_decide_reflect (holds dv n x)) as [(H1 & H2 & H3)|H].
  - rewrite (proj2 (Z.ltb_lt _ _) H1), H2, H3, !Z.eqb_refl. done.
  - apply not_true_iff_false. intros [[H1%Z.ltb_lt H2%Z.eqb_eq]%andb_prop H3%Z.eqb_eq]%andb_prop.
    by apply H.
Qed.

Lemma iget_scan_spec dv n (f : nat -> inode) k : forall i e,
  match iget_scan k i dv n e f with
  | inl ip => (i <= ip < i + k)%nat /\ holds dv n (f ip)
  | inr r => (forall j, (i <= j < i + k)%nat -> ~ holds dv n (f j)) /\
      match r with
      | Some ip => e = Some ip \/ (e = None /\ (i <= ip < i + k)%nat /\ iref (f ip) = 0)
      | None => e = None /\ forall j, (i <= j < i + k)%nat -> iref (f j) <> 0
      end
  end.
Proof.
  induction k as [|k IH]; intros i e; cbn [iget_scan].
  - split; [intros; lia|]. destruct e; [by left|]. split; [done|intros; lia].
  - rewrite holds_test. destruct (bool_decide_reflect (holds dv n (f i))) as [H|H].
    + split; [lia|done].
    + set (e' := match e with Some _ => _ | None => _ end). specialize (IH (S i) e').
      destruct (iget_scan k (S i) dv n e' f) as [ip|r]; [destruct IH; split; [lia|done]|].
      destruct IH as [H1 H2]. split.
      * intros j Hj. destruct (decide (j = i)) as [->|]; [done|]. apply H1. lia.
      * destruct r as [ip|].
        -- destruct H2 as [H2|(H2 & H3 & H4)].
           ++ unfold e' in H2. destruct e as [e0|]; [left; congruence|].
              destruct (Z.eqb_spec (iref (f i)) 0); [|done]. injection H2 as <-.
              right. split_and!; [done|lia|lia|done].
           ++ unfold e' in H2. destruct e; [done|]. right. split_and!; [done|lia|lia|done].
        -- destruct H2 as [H2 H3]. unfold e' in H2. destruct e; [done|]. split; [done|].
           intros j Hj. destruct (decide (j = i)) as [->|]; [|apply H3; lia].
           by destruct (Z.eqb_spec (iref (f i)) 0).
Qed.

(** The entry [iget] returns, and what becomes of it. *)
Definition iget_entry (dv n : Z) (x x' : inode) : Prop :=
  (holds dv n x /\ x' = set_iref (iref x + 1) x) \/
  (iref x = 0 /\ x' = Inode dv n 1 (islp x) false (itype x) (imajor x) (iminor x) (inlink x)
     (isize x) (iaddrs x)).

Lemma iget_wp dv n s c (Q : nat -> ctx -> st -> Prop) :
  cache_ok s -> Licache ∉ held c ->
  (exists ip, (ip < NINODE)%nat /\ (holds dv n (icache s ip) \/ iref (icache s ip) = 0)) ->
  (forall ip x' s', (ip < NINODE)%nat -> iget_entry dv n (icache s ip) x' ->
     (iref (icache s ip) = 0 -> forall j, (j < NINODE)%nat -> ~ holds dv n (icache s j)) ->
     only_inode ip x' s s' -> fbuf s' = fbuf s -> cache_ok s' -> Q ip c s') ->
  wp (iget dv n) c s Q.
Proof.
  intros [C1 C2] Hc Hex HQ. unfold iget. wp_step. wp_step. do 2 wp_step.
  pose proof (iget_scan_spec dv n (icache s) NINODE 0 None) as Hs.
  assert (Hset : forall ip x', (ip < NINODE)%nat -> 0 < iref x' -> idev x' = dv -> inum x' = n ->
    (forall j, (j < NINODE)%nat -> j <> ip -> ~ holds dv n (icache s j)) ->
    cache_ok (upd_inode ip (fun _ => x') s)).
  { intros ip x' Hip R D N Hno. constructor.
    - intros j Hj. destruct (decide (j = ip)) as [->|]; [rewrite upd_inode_same; lia|].
      rewrite upd_inode_ne by done. auto.
    - intros i j Hi Hj. destruct (decide (i = ip)) as [->|Ni], (decide (j = ip)) as [->|Nj];
        rewrite ?upd_inode_same, ?upd_inode_ne by done; intros R1 R2 D1 N1; try done.
      + exfalso. apply (Hno j Hj Nj). split_and!; congruence.
      + exfalso. apply (Hno i Hi Ni). split_and!; congruence.
      + by apply C2. }
  destruct (iget_scan NINODE 0 dv n None (icache s)) as [ip|[ip|]].
  - destruct Hs as [Hr Hh]. do 2 wp_step. do 2 wp_step. wp_step.
    destruct c as [h q kk w]. apply (HQ ip (set_iref (iref (icache s ip) + 1) (icache s ip))); try done.
    + lia.
    + by left.
    + intros E. destruct Hh. lia.
    + constructor; [done|by rewrite upd_inode_same|]. intros. by apply upd_inode_ne.
    + apply Hset; [lia|destruct Hh as (? & ? & ?); cbn; lia|apply Hh|apply Hh|].
      intros j Hj Hne [J1 [J2 J3]]. destruct Hh as (? & ? & ?). apply Hne.
      apply C2; try done; try lia; congruence.
  - destruct Hs as [Hno [?|(_ & Hr & H0)]]; [done|]. do 2 wp_step. do 2 wp_step. wp_step.
    destruct c as [h q kk w]. eapply (HQ ip); try done.
    + lia.
    + by right.
    + intros _ j Hj. apply Hno. lia.
    + constructor; [done|by rewrite upd_inode_same|]. intros. by apply upd_inode_ne.
    + apply Hset; [lia|cbn; lia|done|done|]. intros j Hj _. apply Hno. lia.
  - exfalso. destruct Hs as [Hno [_ Hz]], Hex as (ip & Hip & [Hh|H0]).
    + by apply (Hno ip); [lia|].
    + by apply (Hz ip); [lia|].
Qed.
End iops.
