(* ===== verification/FsFile.v ===== *)
(** * Inode content (fs.c): bmap, readi, writei, itrunc

    The bytes of a file are spread over the blocks its inode maps.  The
    lemmas here follow the map ([bmap_of]) and the bytes ([byte_at]) through
    the loops. *)
From stdpp Require Import functions.
From S2P Require Import Prelude CString Mmu Block Sleeplock Log Buffers Fs FsBlocks FsInode.
#[local] Set Default Proof Using "Type".

(** The block of addresses, and all addresses of an inode. *)
Definition ind (i : inode) : Z := iaddr i NDIRECT.
Definition ind_addrs (v : bview) (i : inode) : list Z :=
  if ind i =? 0 then [] else get_addrs (vdata v (ind i)) 0 128.
Definition all_addrs (v : bview) (i : inode) : list Z := iaddrs i ++ ind_addrs v i.
Definition iblocks (v : bview) (i : inode) : list Z := filter (fun a => a <> 0) (all_addrs v i).

(** The [bn]th block of the file, 0 if there is none. *)
Definition bmap_of (v : bview) (i : inode) (bn : Z) : Z :=
  if bn <? NDIRECT then iaddr i bn else nth (Z.to_nat (bn - NDIRECT)) (ind_addrs v i) 0.

(** Every block of the inode is a data block in use, and none occurs twice. *)
Record inode_ok (sb : superblock) (v : bview) (i : inode) : Prop := {
  io_len : length (iaddrs i) = 13%nat;
  io_nodup : NoDup (iblocks v i);
  io_data : forall a, a ∈ iblocks v i -> is_data sb a /\ used sb v a = true
}.

Definition byte_at (v : bview) (i : inode) (off : Z) : Z :=
  get8 (vdata v (bmap_of v i (off / BSIZE))) (off mod BSIZE).

(** Position [k] in [all_addrs] of the [bn]th block. *)
Definition pos_of (bn : Z) : nat := Z.to_nat (if bn <? NDIRECT then bn else bn + 1).

Section addrs.
Implicit Types (v : bview) (i : inode) (a b bn : Z).

Lemma iaddr_lookup i k : length (iaddrs i) = 13%nat -> 0 <= k < 13 ->
  iaddrs i !! Z.to_nat k = Some (iaddr i k).
Proof.
  intros Hl Hk. unfold iaddr. rewrite nth_lookup.
  destruct (lookup_lt_is_Some_2 (iaddrs i) (Z.to_nat k)) as [x ->]; [lia|done].
Qed.

Lemma bmap_of_pos v i bn : length (iaddrs i) = 13%nat -> 0 <= bn < MAXFILE ->
  bmap_of v i bn <> 0 -> all_addrs v i !! pos_of bn = Some (bmap_of v i bn).
Proof.
  unfold bmap_of, pos_of, all_addrs, MAXFILE, NDIRECT, NINDIRECT. intros Hl Hb Hn.
  destruct (Z.ltb_spec bn 12).
  - rewrite lookup_app_l by lia. apply iaddr_lookup; [done|lia].
  - rewrite lookup_app_r by lia. rewrite Hl.
    replace (Z.to_nat (bn + 1) - 13)%nat with (Z.to_nat (bn - 12)) by lia.
    rewrite nth_lookup in *. by destruct (ind_addrs v i !! Z.to_nat (bn - 12)).
Qed.

Lemma bmap_of_in v i bn : length (iaddrs i) = 13%nat -> 0 <= bn < MAXFILE ->
  bmap_of v i bn <> 0 -> bmap_of v i bn ∈ iblocks v i.
Proof.
  intros Hl Hb Hn. unfold iblocks. apply list_elem_of_filter. split; [done|].
  by eapply list_elem_of_lookup_2, bmap_of_pos.
Qed.

Lemma ind_in v i : length (iaddrs i) = 13%nat -> ind i <> 0 -> ind i ∈ iblocks v i.
Proof.
  intros Hl Hn. unfold iblocks. apply list_elem_of_filter. split; [done|].
  unfold all_addrs. apply elem_of_app. left. eapply list_elem_of_lookup_2. apply iaddr_lookup; [done|].
  unfold NDIRECT. lia.
Qed.

(** A list without duplicates among its non-zero elements. *)
Lemma nodup_nz_inj (l : list Z) j k x : NoDup (filter (fun a => a <> 0) l) -> x <> 0 ->
  l !! j = Some x -> l !! k = Some x -> j = k.
Proof.
  revert j k. induction l as [|y l IH]; intros j k Hn Hx Hj Hk; [done|].
  rewrite filter_cons in Hn.
  assert (Hin : forall m, l !! m = Some x -> x ∈ filter (fun a => a <> 0) l).
  { intros m Hm. apply list_elem_of_filter. split; [done|]. by eapply list_elem_of_lookup_2. }
  destruct j as [|j], k as [|k]; simpl in *; [done| | |].
  - injection Hj as ->. rewrite decide_True in Hn by done.
    apply NoDup_cons in Hn as [H _]. by destruct H; eapply Hin.
  - injection Hk as ->. rewrite decide_True in Hn by done.
    apply NoDup_cons in Hn as [H _]. by destruct H; eapply Hin.
  - f_equal. apply IH; try done. case_decide; [by apply NoDup_cons in Hn as [_ ?]|done].
Qed.

Lemma pos_of_inj bn bn' : 0 <= bn -> 0 <= bn' -> pos_of bn = pos_of bn' -> bn = bn'.
Proof. unfold pos_of, NDIRECT. intros H1 H2 E. zcases; lia. Qed.

Lemma pos_of_ind bn : 0 <= bn -> pos_of bn <> 12%nat.
Proof. unfold pos_of, NDIRECT. intros H1. zcases; lia. Qed.

(** Blocks of different places of a file are different. *)
Lemma bmap_of_inj sb v i bn bn' : inode_ok sb v i -> 0 <= bn < MAXFILE -> 0 <= bn' < MAXFILE ->
  bmap_of v i bn <> 0 -> bmap_of v i bn = bmap_of v i bn' -> bn = bn'.
Proof.
  intros [Hl Hn _] H1 H2 H3 E. apply pos_of_inj; [lia|lia|].
  eapply (nodup_nz_inj (all_addrs v i)); [done|exact H3| |].
  - by apply bmap_of_pos.
  - rewrite E in *. by apply bmap_of_pos.
Qed.

Lemma bmap_of_ne_ind sb v i bn : inode_ok sb v i -> 0 <= bn < MAXFILE -> bmap_of v i bn <> 0 ->
  bmap_of v i bn <> ind i.
Proof.
  intros [Hl Hn _] H1 H3 E. apply (pos_of_ind bn); [lia|].
  eapply (nodup_nz_inj (all_addrs v i)); [done|exact H3|by apply bmap_of_pos|].
  rewrite E. unfold all_addrs. rewrite lookup_app_l by lia. unfold ind.
  apply (iaddr_lookup i NDIRECT); [done|]. unfold NDIRECT. lia.
Qed.
End addrs.

(** * One more block *)

Definition with_addrs (l : list Z) (i : inode) : inode :=
  Inode (idev i) (inum i) (iref i) (islp i) (ivalid i) (itype i) (imajor i) (iminor i)
    (inlink i) (isize i) l.

(** No buffer held, none changed and not logged. *)
Definition quiet (v : bview) : Prop := vopen v = ∅ /\ vunlogged v = ∅.

Lemma quiet_opens sb v : quiet v -> opens_ok sb v.
Proof.
  intros [Ho Hu]. constructor; [rewrite Ho, map_size_empty; lia| |done].
  intros i b. by rewrite Ho, lookup_empty.
Qed.

Lemma quiet_not_open v b : quiet v -> b ∉ vopen_blocks v.
Proof. intros [Ho _]. unfold vopen_blocks. rewrite Ho, map_img_empty_L. set_solver. Qed.

(** The number of free blocks. *)
Definition nfree (sb : superblock) (v : bview) : nat :=
  length (filter (fun b => used sb v b = false) (seqZ 0 (sb_size sb))).

Section nfree.
Variables (sb : superblock).
Implicit Types (v : bview).

Lemma nfree_exists v : (0 < nfree sb v)%nat -> exists f, 0 <= f < sb_size sb /\ used sb v f = false.
Proof.
  unfold nfree. destruct (filter _ _) as [|f l] eqn:E; simpl; [lia|]. intros _. exists f.
  assert (Hf : f ∈ filter (fun b => used sb v b = false) (seqZ 0 (sb_size sb))) by (rewrite E; constructor).
  apply list_elem_of_filter in Hf as [Hu Hf]. apply elem_of_seqZ in Hf. split; [lia|done].
Qed.

Lemma nfree_ext v v' : (forall b, 0 <= b < sb_size sb -> used sb v b = used sb v' b) -> nfree sb v = nfree sb v'.
Proof.
  intros H. unfold nfree. f_equal. apply list_filter_iff_in. intros b Hb%elem_of_seqZ. rewrite H; [done|lia].
Qed.

Lemma nfree_alloc v v' a : 0 <= a < sb_size sb -> used sb v a = false ->
  (forall b, 0 <= b < sb_size sb -> used sb v' b = (b =? a) || used sb v b) ->
  nfree sb v = S (nfree sb v').
Proof.
  intros Ha Hf Hu. unfold nfree. set (l := seqZ 0 (sb_size sb)).
  assert (Hin : a ∈ l) by (apply elem_of_seqZ; lia).
  assert (Hnd : NoDup l) by apply NoDup_seqZ.
  assert (Hr : forall b, b ∈ l -> 0 <= b < sb_size sb) by (intros b Hb; apply elem_of_seqZ in Hb; lia).
  clearbody l. revert Hin Hnd Hr. induction l as [|x l IH]; intros Hin Hnd Hr; [by apply elem_of_nil in Hin|].
  apply NoDup_cons in Hnd as [Hx Hnd]. rewrite !filter_cons.
  assert (Hux := Hu x (Hr x ltac:(constructor))).
  apply elem_of_cons in Hin as [<-|Hin].
  - rewrite decide_True by done. rewrite decide_False by (rewrite Hux, Z.eqb_refl; done).
    cbn [length]. f_equal. f_equal. apply list_filter_iff_in. intros b Hb.
    rewrite Hu by (apply Hr; by constructor). rewrite (proj2 (Z.eqb_neq b a)) by (intros ->; done). done.
  - rewrite (proj2 (Z.eqb_neq x a)) in Hux by (intros ->; done). cbn [orb] in Hux.
    assert (IH' : length (filter (fun b => used sb v b = false) l) =
                  S (length (filter (fun b => used sb v' b = false) l))).
    { apply IH; [done|done|]. intros b Hb. apply Hr. by constructor. }
    rewrite Hux. case_decide; cbn [length]; lia.
Qed.
End nfree.

Lemma filter_nz_insert (l : list Z) k a : l !! k = Some 0 -> a <> 0 ->
  filter (fun x => x <> 0) (<[k := a]> l) ≡ₚ a :: filter (fun x => x <> 0) l.
Proof.
  intros Hk Ha. assert (Hlt := lookup_lt_Some _ _ _ Hk).
  rewrite insert_take_drop by done. rewrite <- (take_drop_middle l k 0 Hk) at 3.
  rewrite !filter_app, !filter_cons.
  rewrite (decide_True (P := a <> 0)) by done. rewrite (decide_False (P := 0 <> 0)) by naive_solver.
  symmetry. apply Permutation_middle.
Qed.

Lemma get_addrs_put (n : nat) d o k a : 0 <= o -> (k < n)%nat ->
  o + 4 * Z.of_nat n <= Z.of_nat (length d) -> is_u32 a ->
  get_addrs (put32 d (o + 4 * Z.of_nat k) a) o n = <[k := a]> (get_addrs d o n).
Proof.
  intros Ho Hk Hl Ha. apply list_eq. intros m.
  assert (Hlen : length (get_addrs (put32 d (o + 4 * Z.of_nat k) a) o n) = n) by apply length_get_addrs.
  destruct (decide (m < n)%nat) as [Hm|Hm]; cycle 1.
  { rewrite !lookup_ge_None_2; rewrite ?length_insert, ?length_get_addrs; [done|lia|lia]. }
  assert (Hn : forall e, get_addrs e o n !! m = Some (get32 e (o + 4 * Z.of_nat m))).
  { intros e. destruct (lookup_lt_is_Some_2 (get_addrs e o n) m) as [x Hx]; [by rewrite length_get_addrs|].
    rewrite Hx. f_equal. rewrite <- (get_addrs_nth n e o m Hm), nth_lookup, Hx. done. }
  rewrite Hn, get32_put32 by lia. destruct (decide (m = k)) as [->|Hne].
  - rewrite list_lookup_insert_eq by (rewrite length_get_addrs; lia).
    rewrite Z.eqb_refl. by rewrite u32_small.
  - rewrite list_lookup_insert_ne by done. rewrite Hn.
    by rewrite (proj2 (Z.eqb_neq _ _)) by lia.
Qed.

Lemma get_addrs_zero n o : get_addrs zero_block o n = replicate n 0.
Proof.
  assert (H8 : forall q, get8 zero_block q = 0).
  { intros q. unfold get8, zero_block. rewrite nth_lookup.
    destruct (replicate 512 0 !! Z.to_nat q) as [x|] eqn:E; [|done].
    by apply lookup_replicate in E as [-> _]. }
  revert o. induction n as [|n IH]; intros o; cbn [get_addrs replicate]; [done|]. rewrite IH.
  f_equal. unfold get32, get16. by rewrite !H8.
Qed.

(** [i'] in [v'] is [i] in [v] with the fresh block [a] added. *)
Record grown (sb : superblock) (i : inode) (v : bview) (a : Z) (i' : inode) (v' : bview) : Prop := {
  gr_fs : fs_ok sb v';
  gr_len : length (iaddrs i') = 13%nat;
  gr_inode : i' = with_addrs (iaddrs i') i;
  gr_perm : iblocks v' i' ≡ₚ a :: iblocks v i;
  gr_free : is_data sb a /\ used sb v a = false;
  gr_used : forall b, 0 <= b < sb_size sb -> used sb v' b = (b =? a) || used sb v b;
  gr_keep : forall b, used sb v b = true -> 0 <= b < sb_size sb -> ~ is_bmap sb b ->
    (ind i <> 0 -> b <> ind i) ->
    vdata v' b = vdata v b;
  gr_quiet : quiet v';
  gr_ind : ind i <> 0 -> ind i' = ind i;
  gr_op : same_op v v'
}.

Section grow.
Variable sb : superblock.
Implicit Types (v : bview) (i : inode) (a b bn : Z).

Lemma data_range v b : sb_ok sb v -> is_data sb b -> 0 <= b < sb_size sb /\ b <> 0.
Proof.
  intros Hs Hb. unfold is_data, dstart in Hb. destruct Hs.
  assert (0 <= sb_size sb / BPB) by (apply Z.div_pos; unfold BPB, BSIZE; lia).
  assert (0 <= sb_ninodes sb / IPB) by (apply Z.div_pos; unfold IPB; lia). lia.
Qed.

Lemma grown_ok i v a i' v' : grown sb i v a i' v' -> inode_ok sb v i -> inode_ok sb v' i'.
Proof.
  intros G [Hl Hn Hd]. pose proof (gr_fs _ _ _ _ _ _ G) as [Hs _ _].
  destruct (gr_free _ _ _ _ _ _ G) as [Ha Hf].
  constructor; [apply G| |].
  - rewrite (gr_perm _ _ _ _ _ _ G). apply NoDup_cons. split; [|done].
    intros Hin. apply Hd in Hin as [_ Hu]. congruence.
  - intros b Hb. rewrite (gr_perm _ _ _ _ _ _ G) in Hb. apply elem_of_cons in Hb as [->|Hb].
    + split; [done|]. destruct (data_range v' a Hs Ha).
      rewrite (gr_used _ _ _ _ _ _ G), Z.eqb_refl by done. done.
    + apply Hd in Hb as [Hdb Hub]. split; [done|]. destruct (data_range v' b Hs Hdb).
      rewrite (gr_used _ _ _ _ _ _ G), Hub by done. apply orb_true_r.
Qed.

(** The contents of blocks after an allocation. *)
Lemma v_alloc_data v a b : b <> a -> b <> BBLOCK a sb -> vdata (v_alloc sb a v) b = vdata v b.
Proof. intros H1 H2. unfold v_alloc, v_mark. cbn. by rewrite !fn_lookup_insert_ne. Qed.
Lemma v_alloc_new v a : vdata (v_alloc sb a v) a = zero_block.
Proof. unfold v_alloc. cbn. by rewrite fn_lookup_insert. Qed.

Lemma v_alloc_keep v a b : fs_ok sb v -> is_data sb a -> used sb v a = false ->
  used sb v b = true -> ~ is_bmap sb b -> vdata (v_alloc sb a v) b = vdata v b.
Proof.
  intros Hok Ha Hf Hu Hn. destruct (data_range v a (fo_sb _ _ Hok) Ha).
  apply v_alloc_data; [congruence|]. intros ->. by apply Hn, bblock_bmap.
Qed.

Lemma ind_addrs_keep v v' i : vdata v' (ind i) = vdata v (ind i) -> ind_addrs v' i = ind_addrs v i.
Proof. unfold ind_addrs. by intros ->. Qed.

Lemma ind_addrs_eq v i i' : ind i' = ind i -> ind_addrs v i' = ind_addrs v i.
Proof. unfold ind_addrs. by intros ->. Qed.

(** The address table with slot [k] filled. *)
Lemma grow_slot v i a k : fs_ok sb v -> quiet v -> inode_ok sb v i -> is_data sb a ->
  used sb v a = false -> 0 <= k < 13 -> iaddr i k = 0 ->
  grown sb i v a (set_iaddr k a i) (v_alloc sb a v).
Proof.
  intros Hok Hq [Hl Hn Hd] Ha Hf Hk Hz. destruct (data_range v a (fo_sb _ _ Hok) Ha) as [Hra Hna].
  assert (Hik : iaddrs i !! Z.to_nat k = Some 0) by (rewrite <- Hz; by apply iaddr_lookup).
  constructor.
  - by apply fs_ok_alloc.
  - cbn. by rewrite length_insert.
  - done.
  - unfold iblocks, all_addrs. destruct (decide (k = NDIRECT)) as [->|Hne].
    + assert (E1 : ind_addrs v i = []) by (unfold ind_addrs, ind; by rewrite Hz).
      assert (E2 : ind (set_iaddr NDIRECT a i) = a).
      { unfold ind, iaddr. cbn. rewrite nth_lookup, list_lookup_insert_eq by (unfold NDIRECT; lia). done. }
      assert (E3 : ind_addrs (v_alloc sb a v) (set_iaddr NDIRECT a i) = replicate 128 0).
      { unfold ind_addrs. rewrite E2, (proj2 (Z.eqb_neq a 0)) by done. rewrite v_alloc_new.
        apply get_addrs_zero. }
      rewrite E1, E3, app_nil_r, filter_app. cbn [iaddrs set_iaddr].
      rewrite (filter_nz_insert _ _ a Hik Hna).
      replace (filter (fun x => x <> 0) (replicate 128 0)) with (@nil Z) by (vm_compute; done).
      by rewrite app_nil_r.
    + assert (E1 : ind (set_iaddr k a i) = ind i).
      { unfold ind, iaddr. cbn. rewrite !nth_lookup, list_lookup_insert_ne; [done|]. unfold NDIRECT in *. lia. }
      assert (E2 : ind_addrs (v_alloc sb a v) (set_iaddr k a i) = ind_addrs v i).
      { rewrite (ind_addrs_eq _ i) by done. destruct (decide (ind i = 0)) as [E0|E0].
        - unfold ind_addrs. by rewrite E0.
        - apply ind_addrs_keep. destruct (Hd (ind i)) as [Hdi Hui]; [by apply ind_in|].
          apply v_alloc_keep; try done. unfold is_bmap, is_data in *. lia. }
      rewrite E2, !filter_app. cbn [iaddrs set_iaddr].
      by rewrite (filter_nz_insert _ _ a Hik Hna).
  - done.
  - intros b Hb. by apply used_alloc.
  - intros b Hu _ Hb _. by apply v_alloc_keep.
  - done.
  - intros Hi. unfold ind, iaddr in *. cbn. rewrite !nth_lookup in *.
    destruct (decide (k = NDIRECT)) as [->|Hne]; [by rewrite Hik in Hi|].
    rewrite list_lookup_insert_ne; [done|]. unfold NDIRECT in *. lia.
  - done.
Qed.

(** The same for slot [j] of the indirect block. *)
Lemma grow_indirect v i a j : fs_ok sb v -> quiet v -> inode_ok sb v i -> is_data sb a ->
  used sb v a = false -> is_u32 a -> ind i <> 0 -> 0 <= j < 128 ->
  get32 (vdata v (ind i)) (4 * j) = 0 ->
  let v' := v_upd (ind i) (put32 (vdata v (ind i)) (4 * j) a) (v_alloc sb a v) in
  ind_addrs v' i = <[Z.to_nat j := a]> (ind_addrs v i) /\ grown sb i v a i v'.
Proof.
  intros Hok Hq Hio Ha Hf Hu32 Hi Hj Hz v'. pose proof Hio as [Hl Hn Hd].
  destruct (data_range v a (fo_sb _ _ Hok) Ha) as [Hra Hna].
  destruct (Hd (ind i)) as [Hdi Hui]; [by apply ind_in|].
  assert (Hwf : block_wf (vdata v (ind i))).
  { apply (fo_wf _ _ Hok), (data_home sb); [apply Hok|done]. }
  assert (Ei : ind_addrs v i = get_addrs (vdata v (ind i)) 0 128).
  { unfold ind_addrs. by rewrite (proj2 (Z.eqb_neq _ 0)). }
  assert (E : ind_addrs v' i = <[Z.to_nat j := a]> (ind_addrs v i)).
  { rewrite Ei. unfold ind_addrs. rewrite (proj2 (Z.eqb_neq _ 0)) by done.
    unfold v'. cbn [vdata v_upd]. rewrite fn_lookup_insert.
    replace (4 * j) with (0 + 4 * Z.of_nat (Z.to_nat j)) by lia.
    apply get_addrs_put; [lia|lia| |done]. destruct Hwf as [-> _]. unfold BSIZE. lia. }
  assert (Hij : ind_addrs v i !! Z.to_nat j = Some 0).
  { rewrite Ei. destruct (lookup_lt_is_Some_2 (get_addrs (vdata v (ind i)) 0 128) (Z.to_nat j)) as [x Hx];
      [rewrite length_get_addrs; lia|]. rewrite Hx.
    rewrite <- Hz. replace (4 * j) with (0 + 4 * Z.of_nat (Z.to_nat j)) by lia.
    rewrite <- (get_addrs_nth 128) by lia. by rewrite nth_lookup, Hx. }
  split; [done|]. constructor.
  - apply fs_ok_upd_data; [by apply fs_ok_alloc|done|]. by apply put32_wf.
  - done.
  - by destruct i.
  - unfold iblocks, all_addrs. rewrite E, !filter_app.
    rewrite (filter_nz_insert _ _ a Hij Hna). by rewrite Permutation_middle.
  - done.
  - intros b Hb. unfold v'. rewrite used_upd_data by done. by apply used_alloc.
  - intros b Hub _ Hb Hne. unfold v'. cbn [vdata v_upd]. rewrite fn_lookup_insert_ne by (symmetry; auto).
    by apply v_alloc_keep.
  - done.
  - done.
  - done.
Qed.
End grow.

(** * The block map *)

(** One allocation may be needed for the indirect block. *)
Definition ki (i : inode) : Z := if ind i =? 0 then 1 else 0.
(** Blocks that are logged at most once however many blocks are written. *)
Definition Bi (B : gset Z) (i : inode) : gset Z := if ind i =? 0 then B else {[ind i]} ∪ B.

(** What [bmap(ip, bn)] does to the inode and the disk. *)
Record mapped (sb : superblock) (bn : Z) (i : inode) (v : bview) (a : Z) (i' : inode) (v' : bview) : Prop := {
  mp_fs : fs_ok sb v';
  mp_ok : inode_ok sb v' i';
  mp_inode : i' = with_addrs (iaddrs i') i;
  mp_at : bmap_of v' i' bn = a;
  mp_data : is_data sb a;
  mp_other : forall bn', 0 <= bn' < MAXFILE -> bn' <> bn -> bmap_of v' i' bn' = bmap_of v i bn';
  mp_new : bmap_of v i bn = 0 -> used sb v a = false /\ vdata v' a = zero_block;
  mp_old : bmap_of v i bn <> 0 -> a = bmap_of v i bn /\ v' = v /\ i' = i;
  mp_mono : forall b, 0 <= b < sb_size sb -> used sb v b = true -> used sb v' b = true;
  mp_keep : forall b, used sb v b = true -> 0 <= b < sb_size sb -> ~ is_bmap sb b ->
    (ind i <> 0 -> b <> ind i) ->
    vdata v' b = vdata v b;
  mp_blocks : forall b, b ∈ iblocks v' i' -> b ∈ iblocks v i \/ used sb v b = false;
  mp_quiet : quiet v';
  mp_nfree : Z.of_nat (nfree sb v) + ki i' <= Z.of_nat (nfree sb v') + 1 + ki i;
  mp_op : same_op v v'
}.

Section bmap_facts.
Variable sb : superblock.
Implicit Types (v : bview) (i : inode) (a b bn : Z).

Lemma ki_range i : 0 <= ki i <= 1.
Proof. unfold ki. destruct (ind i =? 0); lia. Qed.

Lemma iaddr_set i k j a : 0 <= j -> 0 <= k < Z.of_nat (length (iaddrs i)) ->
  iaddr (set_iaddr k a i) j = if j =? k then a else iaddr i j.
Proof.
  intros Hj Hk. unfold iaddr. cbn. rewrite !nth_lookup. destruct (Z.eqb_spec j k) as [->|Hne].
  - by rewrite list_lookup_insert_eq by lia.
  - by rewrite list_lookup_insert_ne by lia.
Qed.

Lemma used_bound v b : sb_ok sb v -> is_data sb b -> 0 <= b < sb_size sb.
Proof. intros Hs Hb. by apply (data_range sb v b). Qed.

(** An existing block. *)
Lemma mapped_hit v i bn : fs_ok sb v -> inode_ok sb v i -> quiet v -> 0 <= bn < MAXFILE ->
  bmap_of v i bn <> 0 -> mapped sb bn i v (bmap_of v i bn) i v.
Proof.
  intros Hok Hio Hq Hbn Hnz. constructor; try done.
  - by destruct i.
  - apply (io_data _ _ _ Hio). apply bmap_of_in; [apply Hio|done|done].
  - auto.
  - lia.
Qed.

Lemma grown_mapped v i bn a i' v' : grown sb i v a i' v' -> inode_ok sb v i ->
  bmap_of v i bn = 0 -> bmap_of v' i' bn = a -> vdata v' a = zero_block ->
  (forall bn', 0 <= bn' < MAXFILE -> bn' <> bn -> bmap_of v' i' bn' = bmap_of v i bn') ->
  mapped sb bn i v a i' v'.
Proof.
  intros G Hio H0 Hat Hz Hoth. pose proof (grown_ok _ _ _ _ _ _ G Hio) as Hio'.
  destruct G as [G1 G2 G3 G4 [G5 G5'] G6 G7 G8 G9 G10].
  destruct (data_range sb v' a (fo_sb _ _ G1) G5).
  constructor; try done.
  - intros b Hb Hu. rewrite G6, Hu by done. apply orb_true_r.
  - intros b Hb. rewrite G4 in Hb. apply elem_of_cons in Hb as [->|Hb]; [by right|by left].
  - rewrite (nfree_alloc sb v v' a) by done. unfold ki. pose proof (ki_range i).
    destruct (Z.eqb_spec (ind i') 0), (Z.eqb_spec (ind i) 0) as [|E]; lia.
Qed.

Lemma bmap_of_direct v v' i a bn : length (iaddrs i) = 13%nat -> 0 <= bn < NDIRECT ->
  ind_addrs v' (set_iaddr bn a i) = ind_addrs v i ->
  bmap_of v' (set_iaddr bn a i) bn = a /\
  (forall bn', 0 <= bn' -> bn' <> bn -> bmap_of v' (set_iaddr bn a i) bn' = bmap_of v i bn').
Proof.
  unfold bmap_of, NDIRECT. intros Hl Hbn E. split.
  - rewrite (proj2 (Z.ltb_lt _ _)) by lia. rewrite iaddr_set by lia. by rewrite Z.eqb_refl.
  - intros bn' Hbn' Hne. destruct (Z.ltb_spec bn' 12); [|by rewrite E].
    rewrite iaddr_set by lia. by rewrite (proj2 (Z.eqb_neq _ _)).
Qed.

Lemma nth_replicate_0 k n : nth k (replicate n 0) 0 = 0.
Proof.
  rewrite nth_lookup. destruct (replicate n 0 !! k) as [x|] eqn:E; [|done].
  by apply lookup_replicate in E as [-> _].
Qed.

(** Allocating the indirect block maps nothing yet. *)
Lemma bmap_of_newind v i a bn : length (iaddrs i) = 13%nat -> ind i = 0 -> a <> 0 -> 0 <= bn ->
  bmap_of (v_alloc sb a v) (set_iaddr NDIRECT a i) bn = bmap_of v i bn.
Proof.
  unfold bmap_of. intros Hl Hi Ha Hbn. destruct (Z.ltb_spec bn NDIRECT) as [H|H].
  - rewrite iaddr_set by (unfold NDIRECT; lia). by rewrite (proj2 (Z.eqb_neq _ _)) by lia.
  - unfold ind_addrs. rewrite Hi. cbn [Z.eqb].
    assert (E : ind (set_iaddr NDIRECT a i) = a).
    { unfold ind. rewrite iaddr_set by (unfold NDIRECT; lia). done. }
    rewrite E, (proj2 (Z.eqb_neq a 0)) by done. rewrite v_alloc_new, get_addrs_zero.
    rewrite nth_replicate_0. by destruct (Z.to_nat (bn - NDIRECT)).
Qed.

Lemma bmap_of_indirect v v' i a j : (Z.to_nat j < length (ind_addrs v i))%nat -> 0 <= j ->
  ind_addrs v' i = <[Z.to_nat j := a]> (ind_addrs v i) ->
  bmap_of v' i (NDIRECT + j) = a /\
  (forall bn', 0 <= bn' -> bn' <> NDIRECT + j -> bmap_of v' i bn' = bmap_of v i bn').
Proof.
  unfold bmap_of. intros Hl Hj E. split.
  - rewrite (proj2 (Z.ltb_ge _ _)) by lia. replace (NDIRECT + j - NDIRECT) with j by lia.
    rewrite E, nth_lookup, list_lookup_insert_eq by done. done.
  - intros bn' Hbn' Hne. destruct (Z.ltb_spec bn' NDIRECT); [done|].
    rewrite E, !nth_lookup, list_lookup_insert_ne by lia. done.
Qed.
(** A fresh block in a direct slot. *)
Lemma mapped_direct v i a bn : fs_ok sb v -> quiet v -> inode_ok sb v i -> is_data sb a ->
  used sb v a = false -> 0 <= bn < NDIRECT -> iaddr i bn = 0 ->
  mapped sb bn i v a (set_iaddr bn a i) (v_alloc sb a v) /\ ind (set_iaddr bn a i) = ind i.
Proof.
  intros Hok Hq Hio Hda Hf Hbn Hz.
  pose proof (grow_slot sb v i a bn Hok Hq Hio Hda Hf ltac:(unfold NDIRECT in *; lia) Hz) as G.
  assert (Ei : ind (set_iaddr bn a i) = ind i).
  { unfold ind. rewrite iaddr_set; [|unfold NDIRECT; lia|rewrite (io_len _ _ _ Hio); unfold NDIRECT in *; lia].
    rewrite (proj2 (Z.eqb_neq _ _)); [done|lia]. }
  assert (Ea : ind_addrs (v_alloc sb a v) (set_iaddr bn a i) = ind_addrs v i).
  { rewrite (ind_addrs_eq _ i) by done. destruct (decide (ind i = 0)) as [E0|E0].
    - unfold ind_addrs. by rewrite E0.
    - apply ind_addrs_keep. destruct (io_data _ _ _ Hio (ind i)) as [Hdi Hui]; [apply ind_in; [apply Hio|done]|].
      apply v_alloc_keep; try done. unfold is_bmap, is_data in *. lia. }
  destruct (bmap_of_direct v (v_alloc sb a v) i a bn (io_len _ _ _ Hio) Hbn Ea) as [E1 E2].
  split; [|done]. apply grown_mapped; try done.
  - unfold bmap_of. by rewrite (proj2 (Z.ltb_lt _ _)) by lia.
  - apply v_alloc_new.
  - intros bn' Hb' Hne. apply E2; [lia|done].
Qed.

(** The entry of the indirect block. *)
Lemma bmap_of_ind v i j : ind i <> 0 -> 0 <= j < NINDIRECT ->
  bmap_of v i (NDIRECT + j) = get32 (vdata v (ind i)) (4 * j).
Proof.
  unfold NINDIRECT. intros Hi Hj. unfold bmap_of. rewrite (proj2 (Z.ltb_ge _ _)) by lia.
  unfold ind_addrs. rewrite (proj2 (Z.eqb_neq _ 0)) by done.
  rewrite get_addrs_nth by lia. f_equal. lia.
Qed.

(** A fresh block in a slot of the indirect block. *)
Lemma mapped_indirect v i a j : fs_ok sb v -> quiet v -> inode_ok sb v i -> is_data sb a ->
  used sb v a = false -> ind i <> 0 -> 0 <= j < NINDIRECT -> get32 (vdata v (ind i)) (4 * j) = 0 ->
  mapped sb (NDIRECT + j) i v a i
    (v_upd (ind i) (put32 (vdata v (ind i)) (4 * j) a) (v_alloc sb a v)).
Proof.
  intros Hok Hq Hio Hda Hf Hi Hj E0.
  destruct (io_data _ _ _ Hio (ind i)) as [Hdi Hui]; [apply ind_in; [apply Hio|done]|].
  destruct (grow_indirect sb v i a j Hok Hq Hio Hda Hf) as [Eia G]; try done.
  { destruct (data_range sb v a (fo_sb _ _ Hok) Hda). pose proof (so_int _ _ (fo_sb _ _ Hok)).
    unfold is_u32. lia. }
  destruct (bmap_of_indirect v (v_upd (ind i) (put32 (vdata v (ind i)) (4 * j) a) (v_alloc sb a v))
    i a j) as [E1 E2]; [| |exact Eia|].
  { unfold ind_addrs. rewrite (proj2 (Z.eqb_neq _ 0)) by done. rewrite length_get_addrs.
    unfold NINDIRECT in Hj. lia. } { lia. }
  apply grown_mapped; try done.
  - by rewrite bmap_of_ind.
  - cbn [vdata v_upd]. rewrite fn_lookup_insert_ne; [apply v_alloc_new|].
    intros E. subst a. congruence.
  - intros bn' Hb' Hne. apply E2; [lia|done].
Qed.
End bmap_facts.

Section bmap.
Context {T : Type} {BC : BufferCache T}.
#[local] Notation st := (fsst T).
Variables (p : Z) (B : gset Z).
Implicit Types (s : st) (v : bview) (c : ctx) (ip : nat) (a bn : Z).

Lemma mapped_after_ind sb v i b0 i1 v1 bn a i' v' :
  grown sb i v b0 i1 v1 -> ind i = 0 -> ind i1 = b0 -> bmap_of v i bn = 0 ->
  (forall bn', 0 <= bn' -> bmap_of v1 i1 bn' = bmap_of v i bn') -> 0 <= bn ->
  mapped sb bn i1 v1 a i' v' -> mapped sb bn i v a i' v'.
Proof.
  intros G Hi Hi1 H0 Hsame Hbn M.
  destruct M as [M1 M2 M3 M4 M5 M6 M7 M8 M9 M10 M11 M12 M13 M14].
  pose proof (gr_fs _ _ _ _ _ _ G) as [Hs1 _ _]. destruct (gr_free _ _ _ _ _ _ G) as [Hd0 Hf0].
  pose proof (gr_used _ _ _ _ _ _ G) as Hu.
  destruct (data_range sb v1 b0 Hs1 Hd0) as [Hr0 Hn0].
  assert (Hfree : forall b, is_data sb b -> used sb v1 b = false -> used sb v b = false).
  { intros b Hb Hub. rewrite Hu in Hub by by apply (used_bound sb v1).
    by apply orb_false_elim in Hub as [_ ?]. }
  constructor; try done.
  - rewrite M3, (gr_inode _ _ _ _ _ _ G). done.
  - intros bn' Hb' Hne. rewrite M6 by done. apply Hsame. lia.
  - intros _. destruct M7 as [Hua Hz]; [by rewrite Hsame|]. split; [by apply Hfree|done].
  - intros b Hb Hub. apply M9; [done|]. rewrite Hu, Hub by done. apply orb_true_r.
  - intros b Hub Hb Hnb Hni. rewrite M10; try done.
    + by apply (gr_keep _ _ _ _ _ _ G).
    + rewrite Hu, Hub by done. apply orb_true_r.
    + intros _ ->. congruence.
  - intros b Hb. destruct (io_data _ _ _ M2 b Hb) as [Hdb _]. apply M11 in Hb as [Hb|Hb].
    + rewrite (gr_perm _ _ _ _ _ _ G) in Hb. apply elem_of_cons in Hb as [->|Hb]; [by right|by left].
    + right. by apply Hfree.
  - rewrite (nfree_alloc sb v v1 b0) by done. revert M13. unfold ki. rewrite Hi, Hi1.
    rewrite (proj2 (Z.eqb_neq b0 0)) by done. cbn [Z.eqb]. lia.
  - eapply same_op_trans; [apply G|done].
Qed.

Lemma room_alloc Bx K sb a v : has_bmap sb Bx -> 0 <= a < sb_size sb -> 0 <= K ->
  room Bx (K + 1) v -> room ({[a]} ∪ Bx) K (v_alloc sb a v).
Proof.
  intros HB Ha HK Hr. unfold v_alloc, v_mark. apply room_in; [set_solver|].
  apply room_in; [apply elem_of_union_r, HB, Ha|]. by apply room_grow.
Qed.

Lemma has_bmap_Bi sb i : has_bmap sb B -> has_bmap sb (Bi B i).
Proof. intros HB b Hb. unfold Bi. destruct (ind i =? 0); [by apply HB|]. apply elem_of_union_r. by apply HB. Qed.

Lemma is_data_u32 sb v a : sb_ok sb v -> is_data sb a -> is_u32 a.
Proof.
  intros Hs Ha. destruct (data_range sb v a Hs Ha). pose proof (so_int _ _ Hs). unfold is_u32. lia.
Qed.

(** What [bmap] is called with, and what it leaves. *)
Definition bmap_post sb bn i v k s ip (Q : Z -> ctx -> st -> Prop) c : Prop :=
  forall a c' s' i' v', same_thread c c' -> frel p s' v' -> only_inode ip i' s s' ->
    mapped sb bn i v a i' v' -> room ({[a]} ∪ Bi B i') (ki i' + k) v' -> Q a c' s'.

(** The direct slots. *)
Lemma bmap_direct_wp bn k ip s v c (Q : Z -> ctx -> st -> Prop) :
  let sb := fsb s in let i := icache s ip in
  frel p s v -> fs_ok sb v -> quiet v -> inode_ok sb v i -> idev i = 1 -> has_bmap sb B ->
  0 <= k -> room (Bi B i) (ki i + (k + 1)) v -> held c = [] -> mypid c = p ->
  0 <= bn < NDIRECT -> iaddr i bn = 0 -> (0 < nfree sb v)%nat ->
  bmap_post sb bn i v k s ip Q c ->
  wp (a ← balloc (idev i); seti ip (set_iaddr bn a);; mret a) c s Q.
Proof.
  intros sb i Hr Hok Hq Hio Hdev HB Hk Hrm Hc Hp Hbn Hz Hnf HQ. pose proof (ki_range i). rewrite Hdev.
  wp_step. apply (balloc_wp p (Bi B i) _ v); try done.
  { by apply quiet_opens. } { by apply has_bmap_Bi. }
  { eapply room_less; [exact Hrm|lia]. } { by apply nfree_exists. }
  intros a c1 t1 Hth Ha Hf _ Hr1. fold sb in Hf, Ha, Hr1. do 2 wp_step. wp_step.
  assert (Hda : is_data sb a) by (by apply (free_data sb v)).
  destruct (mapped_direct sb v i a bn Hok Hq Hio Hda Hf Hbn Hz) as [HM Ei].
  apply (HQ a c1 _ (set_iaddr bn a i) (v_alloc sb a v)); try done.
  - constructor; [done|by rewrite upd_inode_same|]. intros. rewrite upd_inode_ne by done. done.
  - unfold Bi, ki. rewrite Ei. fold (Bi B i) (ki i). apply room_alloc; [by apply has_bmap_Bi|done|lia|].
    by rewrite <- Z.add_assoc.
Qed.

Lemma fs_ok_open sb v i b : fs_ok sb v -> fs_ok sb (v_open i b v).
Proof. intros [H1 H2 H3]. constructor; [by destruct H1|exact H2|exact H3]. Qed.

(** The part of [bmap] after the indirect block is known. *)
Lemma bmap_indirect_wp j k ip s v c (Q : Z -> ctx -> st -> Prop) :
  let sb := fsb s in let i := icache s ip in
  frel p s v -> fs_ok sb v -> quiet v -> inode_ok sb v i -> has_bmap sb B ->
  0 <= k -> room (Bi B i) (ki i + (k + 1)) v -> held c = [] -> mypid c = p ->
  0 <= j < NINDIRECT -> ind i <> 0 ->
  (bmap_of v i (NDIRECT + j) = 0 -> (0 < nfree sb v)%nat) ->
  bmap_post sb (NDIRECT + j) i v k s ip Q c ->
  wp (bp ← bread 1 (ind i);
      d ← bdata bp;
      a ← (if get32 d (4 * j) =? 0 then
             a ← balloc 1; d ← bdata bp; bstore bp (put32 d (4 * j) a);; log_write bp;; mret a
           else mret (get32 d (4 * j)));
      brelse bp;; mret a) c s Q.
Proof.
  intros sb i Hr Hok Hq Hio HB Hk Hrm Hc Hp Hj Hi Hnf HQ. unfold NINDIRECT in Hj.
  destruct (io_data _ _ _ Hio (ind i)) as [Hdi Hui]; [apply ind_in; [apply Hio|done]|].
  assert (Eki : ki i = 0) by (unfold ki; by rewrite (proj2 (Z.eqb_neq _ 0))).
  assert (EBi : Bi B i = {[ind i]} ∪ B) by (unfold Bi; by rewrite (proj2 (Z.eqb_neq _ 0))).
  assert (Hat : bmap_of v i (NDIRECT + j) = get32 (vdata v (ind i)) (4 * j)).
  { by apply bmap_of_ind. }
  pose proof (opens_room (Bi B i) sb _ v (quiet_opens sb v Hq) Hrm) as Hbr.
  wp_step. apply (wp_bread p _ _ v); try done; [by apply (data_home sb); [apply Hok|]|by apply quiet_not_open|].
  intros bp c1 t1 Hth1 Hbp Hr1 Hd1. do 2 wp_step. cbn [fbuf set_fbuf]. rewrite Hd1.
  assert (Hc1 : held c1 = []) by (by rewrite (st_held _ _ Hth1)).
  assert (Hp1 : mypid c1 = p) by (by rewrite (st_pid _ _ Hth1)).
  wp_step. destruct (Z.eqb_spec (get32 (vdata v (ind i)) (4 * j)) 0) as [E0|E0].
  - wp_step. apply (balloc_wp p (Bi B i) _ (v_open bp (ind i) v)); try done.
    { by apply fs_ok_open. }
    { destruct Hq as [Hq1 Hq2]. constructor; [|intros x b|done].
      - cbn. rewrite Hq1. rewrite insert_empty, map_size_singleton. lia.
      - cbn. rewrite Hq1, insert_empty. intros [<- <-]%lookup_singleton_Some. done. }
    { by apply has_bmap_Bi. } { apply room_open. eapply room_less; [exact Hrm|lia]. }
    { apply nfree_exists. apply Hnf. congruence. }
    intros a c2 t2 Hth2 Ha Hf _ Hr2. cbn [fsb set_fbuf] in Ha, Hf, Hr2. fold sb in Ha, Hf, Hr2.
    change (used sb v a = false) in Hf.
    change (frel p (set_fbuf t2 (set_fbuf t1 s)) (v_open bp (ind i) (v_alloc sb a v))) in Hr2.
    assert (Hda : is_data sb a) by (by apply (free_data sb v)).
    do 2 wp_step. cbn [fbuf set_fbuf].
    assert (Ed : bc_data bp t2 = vdata v (ind i)).
    { rewrite (bc_data_law p t2 _ bp (ind i) Hr2) by (cbn; apply lookup_insert_eq).
      change (vdata (v_alloc sb a v) (ind i) = vdata v (ind i)). apply v_alloc_keep; try done.
      unfold is_bmap, is_data in *. lia. }
    rewrite Ed.
    assert (Hrm2 : room ({[a]} ∪ Bi B i) (ki i + k) (v_alloc sb a v)).
    { apply room_alloc; [by apply has_bmap_Bi|done|lia|]. by rewrite <- Z.add_assoc. }
    apply (wp_store_held p bp (ind i) _ _ (v_alloc sb a v)); try done.
    { by rewrite (st_held _ _ Hth2). } { by rewrite (st_pid _ _ Hth2). }
    { by eapply room_log. } { apply Hrm2. }
    intros c3 t3 Hth3 Hr3. do 2 wp_step.
    apply (wp_brelse_logged p bp (ind i) _ _ _ _ _ Hr3).
    { by rewrite (st_held _ _ Hth3), (st_held _ _ Hth2). }
    { by rewrite (st_pid _ _ Hth3), (st_pid _ _ Hth2). } { done. }
    { cbn. destruct Hq as [_ ->]. set_solver. }
    intros c4 t4 Hth4 Hr4. wp_step.
    eapply (HQ a c4 _ i); [eauto using same_thread_trans|exact Hr4| | |].
    + constructor; [done|done|]. intros. done.
    + by apply mapped_indirect.
    + apply room_in; [rewrite EBi; set_solver|done].
  - wp_step. wp_step. apply (wp_brelse_read p bp (ind i) _ v); try done.
    { by destruct Hq as [_ ->]. }
    intros c2 t2 Hth2 Hr2. wp_step.
    eapply (HQ _ c2 _ i v); [eauto using same_thread_trans|exact Hr2| | |].
    + constructor; [done|done|]. intros. done.
    + rewrite <- Hat. apply mapped_hit; try done; [unfold MAXFILE, NDIRECT, NINDIRECT; lia|congruence].
    + apply room_grow; [by rewrite <- Z.add_assoc|lia].
Qed.

Lemma only_inode_trans ip i1 i2 s s1 s2 :
  only_inode ip i1 s s1 -> only_inode ip i2 s1 s2 -> only_inode ip i2 s s2.
Proof.
  intros [H1 H2 H3] [H4 H5 H6]. constructor; [congruence|done|]. intros ip' Hne.
  rewrite H6 by done. by apply H3.
Qed.

(** [bmap]: the [bn]th block of the file, allocated if there is none. *)
Lemma bmap_wp bn k ip s v c (Q : Z -> ctx -> st -> Prop) :
  let sb := fsb s in let i := icache s ip in
  frel p s v -> fs_ok sb v -> quiet v -> inode_ok sb v i -> idev i = 1 -> has_bmap sb B ->
  0 <= k -> room (Bi B i) (ki i + (k + 1)) v -> held c = [] -> mypid c = p ->
  0 <= bn < MAXFILE -> (bmap_of v i bn = 0 -> 1 + ki i <= Z.of_nat (nfree sb v)) ->
  bmap_post sb bn i v k s ip Q c ->
  wp (bmap ip bn) c s Q.
Proof.
  intros sb i Hr Hok Hq Hio Hdev HB Hk Hrm Hc Hp Hbn Hnf HQ. pose proof (ki_range i) as Hki.
  unfold bmap. do 2 wp_step. unfold id. fold i.
  destruct (Z.ltb_spec bn NDIRECT) as [Hd|Hd].
  - assert (E : bmap_of v i bn = iaddr i bn) by (unfold bmap_of; by rewrite (proj2 (Z.ltb_lt _ _))).
    destruct (Z.eqb_spec (iaddr i bn) 0) as [E0|E0].
    + apply (bmap_direct_wp bn k ip s v); try done; [lia|]. fold sb. specialize (Hnf ltac:(congruence)). lia.
    + wp_step. apply (HQ _ c s i v); [done|exact Hr|done| |].
      * rewrite <- E. apply mapped_hit; try done. congruence.
      * apply room_grow; [by rewrite <- Z.add_assoc|lia].
  - unfold MAXFILE in Hbn. rewrite (proj2 (Z.ltb_lt _ _)) by lia. fold (ind i). rewrite Hdev.
    replace bn with (NDIRECT + (bn - NDIRECT)) in HQ, Hnf by lia. set (j := bn - NDIRECT) in *.
    destruct (Z.eqb_spec (ind i) 0) as [E0|E0].
    + assert (Eki : ki i = 1) by (unfold ki; by rewrite E0).
      assert (EBi : Bi B i = B) by (unfold Bi; by rewrite E0). rewrite EBi, Eki in *.
      assert (Hbz : bmap_of v i (NDIRECT + j) = 0).
      { unfold bmap_of. rewrite (proj2 (Z.ltb_ge _ _)) by lia. unfold ind_addrs. rewrite E0.
        by destruct (Z.to_nat (NDIRECT + j - NDIRECT)). }
      specialize (Hnf Hbz).
      wp_step. wp_step. apply (balloc_wp p B _ v); try done.
      { by apply quiet_opens. } { eapply room_less; [exact Hrm|lia]. } { apply nfree_exists. fold sb. lia. }
      intros b0 c1 t1 Hth1 Hb0 Hf _ Hr1. fold sb in Hb0, Hf, Hr1. do 2 wp_step. wp_step.
      assert (Hdb : is_data sb b0) by (by apply (free_data sb v)).
      destruct (data_range sb v b0 (fo_sb _ _ Hok) Hdb) as [_ Hnz].
      pose proof (grow_slot sb v i b0 NDIRECT Hok Hq Hio Hdb Hf ltac:(unfold NDIRECT; lia) E0) as G.
      pose proof (grown_ok _ _ _ _ _ _ G Hio) as Hio1.
      assert (Ei1 : ind (set_iaddr NDIRECT b0 i) = b0).
      { unfold ind. rewrite iaddr_set; [by rewrite Z.eqb_refl|unfold NDIRECT; lia|].
        rewrite (io_len _ _ _ Hio). unfold NDIRECT. lia. }
      set (s1 := upd_inode ip _ _).
      assert (Es1 : icache s1 ip = set_iaddr NDIRECT b0 i) by (unfold s1; by rewrite upd_inode_same).
      assert (Hkeep : only_inode ip (set_iaddr NDIRECT b0 i) s s1).
      { constructor; [done|done|]. intros. unfold s1. by rewrite upd_inode_ne. }
      assert (Hth1c : held c1 = [] /\ mypid c1 = p).
      { rewrite (st_held _ _ Hth1), (st_pid _ _ Hth1). done. }
      rewrite <- Ei1 at 1. rewrite <- Es1.
      apply (bmap_indirect_wp j k ip s1 (v_alloc sb b0 v)); rewrite ?Es1, ?Ei1; try apply Hth1c; try done.
      * apply G.
      * unfold Bi, ki. rewrite Ei1, (proj2 (Z.eqb_neq b0 0)) by done.
        apply room_alloc; [done|done|lia|].
        replace (0 + (k + 1) + 1) with (1 + (k + 1)) by lia. done.
      * unfold NINDIRECT, j in *. lia.
      * intros _. pose proof (nfree_alloc sb v (v_alloc sb b0 v) b0 Hb0 Hf (gr_used _ _ _ _ _ _ G)).
        change (fsb s1) with sb. lia.
      * intros a c' s' i' v' Hth' Hr' Hoi' M' Hrm'.
        apply (HQ a c' s' i' v'); try done.
        -- eauto using same_thread_trans.
        -- by eapply only_inode_trans.
        -- eapply mapped_after_ind; [exact G|done|done|done| |lia|done].
           intros bn' Hbn'. apply bmap_of_newind; [apply Hio|done|done|done].
    + wp_step. wp_step. apply (bmap_indirect_wp j k ip s v); try done.
      * unfold NINDIRECT, j in *. lia.
      * intros Hz. specialize (Hnf Hz). fold sb. lia.
Qed.

(** Reading needs no transaction. *)
Lemma bmap_read_wp bn ip s v c (Q : Z -> ctx -> st -> Prop) :
  let sb := fsb s in let i := icache s ip in
  frel p s v -> fs_ok sb v -> quiet v -> inode_ok sb v i -> idev i = 1 -> buf_room v ->
  held c = [] -> mypid c = p -> 0 <= bn < MAXFILE -> bmap_of v i bn <> 0 ->
  (forall c' t, same_thread c c' -> frel p (set_fbuf t s) v -> Q (bmap_of v i bn) c' (set_fbuf t s)) ->
  wp (bmap ip bn) c s Q.
Proof.
  intros sb i Hr Hok Hq Hio Hdev Hbr Hc Hp Hbn Hnz HQ. unfold bmap. do 2 wp_step. unfold id. fold i.
  destruct (Z.ltb_spec bn NDIRECT) as [Hd|Hd].
  - assert (E : bmap_of v i bn = iaddr i bn) by (unfold bmap_of; by rewrite (proj2 (Z.ltb_lt _ _))).
    rewrite (proj2 (Z.eqb_neq _ 0)) by congruence. wp_step. rewrite <- E.
    specialize (HQ c (fbuf s) (same_thread_refl c)). destruct s. by apply HQ.
  - unfold MAXFILE in Hbn. rewrite (proj2 (Z.ltb_lt _ _)) by lia. fold (ind i).
    assert (Hi : ind i <> 0).
    { intros E. apply Hnz. unfold bmap_of. rewrite (proj2 (Z.ltb_ge _ _)) by done.
      unfold ind_addrs. rewrite E. cbn [Z.eqb]. by destruct (Z.to_nat (bn - NDIRECT)). }
    assert (Hat : bmap_of v i bn = get32 (vdata v (ind i)) (4 * (bn - NDIRECT))).
    { unfold bmap_of. rewrite (proj2 (Z.ltb_ge _ _)) by done. unfold ind_addrs, NINDIRECT in *.
      rewrite (proj2 (Z.eqb_neq _ 0)) by done. rewrite get_addrs_nth by lia. f_equal. lia. }
    rewrite (proj2 (Z.eqb_neq _ 0)) by done. do 2 wp_step. rewrite Hdev.
    destruct (io_data _ _ _ Hio (ind i)) as [Hdi Hui]; [apply ind_in; [apply Hio|done]|].
    wp_step. apply (wp_bread p _ _ v); try done; [by apply (data_home sb); [apply Hok|]|by apply quiet_not_open|].
    intros bp c1 t1 Hth1 Hbp Hr1 Hd1. do 2 wp_step. cbn [fbuf set_fbuf]. rewrite Hd1, <- Hat.
    rewrite (proj2 (Z.eqb_neq _ 0)) by done. do 2 wp_step.
    wp_step. apply (wp_brelse_read p bp (ind i) _ v); try done.
    { by rewrite (st_held _ _ Hth1). } { by rewrite (st_pid _ _ Hth1). } { by destruct Hq as [_ ->]. }
    intros c2 t2 Hth2 Hr2. wp_step. apply HQ; [eauto using same_thread_trans|done].
Qed.
End bmap.
