(* ===== verification/FsRw.v ===== *)
(** * Reading and writing inode content (fs.c): readi, writei *)
From stdpp Require Import functions.
From S2P Require Import Prelude CString Mmu Block Sleeplock Log Buffers Fs FsBlocks FsInode FsFile.
#[local] Set Default Proof Using "Type".

(** The [n] bytes of the file from [off] on, and all of them. *)
Definition file_at (v : bview) (i : inode) (off n : Z) : list Z := byte_at v i <$> seqZ off n.
Definition file_bytes (v : bview) (i : inode) : list Z := file_at v i 0 (isize i).

(** A regular file or directory without holes, within the size limit. *)
Record file_ok (sb : superblock) (v : bview) (i : inode) : Prop := {
  fl_inode : inode_ok sb v i;
  fl_disk : on_disk sb i;
  fl_range : irange i;
  fl_nodev : itype i <> T_DEV;
  fl_size : 0 <= isize i <= MAXFILE * BSIZE;
  fl_full : forall bn, 0 <= bn -> bn * BSIZE < isize i -> bmap_of v i bn <> 0
}.

Section slices.
Implicit Types (d : block) (o m : Z).

Lemma slice_seqZ d o m : 0 <= o -> 0 <= m -> o + m <= Z.of_nat (length d) ->
  slice d o m = get8 d <$> seqZ o m.
Proof.
  intros Ho Hm Hl. unfold slice. apply list_eq. intros k.
  destruct (decide (k < Z.to_nat m)%nat) as [Hk|Hk].
  - rewrite lookup_take_lt, lookup_drop by done. rewrite list_lookup_fmap, lookup_seqZ_lt by lia.
    cbn. unfold get8. rewrite nth_lookup.
    replace (Z.to_nat (o + Z.of_nat k)) with (Z.to_nat o + k)%nat by lia.
    destruct (lookup_lt_is_Some_2 d (Z.to_nat o + k)) as [x ->]; [lia|done].
  - rewrite lookup_take_ge by lia. rewrite list_lookup_fmap, lookup_seqZ_ge by lia. done.
Qed.

Lemma length_file_at v i off n : 0 <= n -> length (file_at v i off n) = Z.to_nat n.
Proof. intros. unfold file_at. by rewrite length_fmap, length_seqZ. Qed.

Lemma file_at_app v i off m n : 0 <= m -> 0 <= n ->
  file_at v i off (m + n) = file_at v i off m ++ file_at v i (off + m) n.
Proof. intros. unfold file_at. by rewrite seqZ_app, fmap_app by lia. Qed.

(** The part of a file inside one block. *)
Lemma file_at_block v i off m : 0 <= off -> 0 <= m -> off mod BSIZE + m <= BSIZE ->
  block_wf (vdata v (bmap_of v i (off / BSIZE))) ->
  slice (vdata v (bmap_of v i (off / BSIZE))) (off mod BSIZE) m = file_at v i off m.
Proof.
  intros Ho Hm Hle [Hl _]. assert (0 <= off mod BSIZE) by (apply Z.mod_pos_bound; unfold BSIZE; lia).
  rewrite slice_seqZ by lia. unfold file_at. apply list_eq. intros k. rewrite !list_lookup_fmap.
  destruct (decide (Z.of_nat k < m)) as [Hk|Hk].
  - rewrite !lookup_seqZ_lt by lia. cbn. f_equal. unfold byte_at.
    assert (E1 : (off + Z.of_nat k) / BSIZE = off / BSIZE) by (unfold BSIZE in *; Z.div_mod_to_equations; lia).
    assert (E2 : (off + Z.of_nat k) mod BSIZE = off mod BSIZE + Z.of_nat k)
      by (unfold BSIZE in *; Z.div_mod_to_equations; lia).
    by rewrite E1, E2.
  - by rewrite !lookup_seqZ_ge by lia.
Qed.
End slices.

Lemma bn_range sb v i off : file_ok sb v i -> 0 <= off < isize i ->
  0 <= off / BSIZE < MAXFILE /\ bmap_of v i (off / BSIZE) <> 0.
Proof.
  intros F Ho. pose proof (fl_size _ _ _ F). unfold BSIZE, MAXFILE, NDIRECT, NINDIRECT in *.
  split; [Z.div_mod_to_equations; lia|]. apply (fl_full _ _ _ F); [Z.div_mod_to_equations; lia|].
  unfold BSIZE. Z.div_mod_to_equations. lia.
Qed.

Lemma bmap_of_wf sb v i bn : fs_ok sb v -> inode_ok sb v i -> 0 <= bn < MAXFILE ->
  bmap_of v i bn <> 0 ->
  is_data sb (bmap_of v i bn) /\ home v (bmap_of v i bn) /\ block_wf (vdata v (bmap_of v i bn)).
Proof.
  intros Hok Hio Hbn Hnz. destruct (io_data _ _ _ Hio (bmap_of v i bn)) as [Hd _].
  { apply bmap_of_in; [apply Hio|done|done]. }
  assert (Hh : home v (bmap_of v i bn)) by (apply (data_home sb); [apply Hok|done]).
  split; [done|]. split; [done|]. by apply (fo_wf _ _ Hok).
Qed.

(** * Writing *)

(** How many blocks the [n] bytes from [off] on touch. *)
Definition nblk (off n : Z) : Z := if n =? 0 then 0 else (off mod BSIZE + n + 511) / BSIZE.

(** The file after writing [src] at [off]. *)
Record written (sb : superblock) (i : inode) (v : bview) (off : Z) (src : list Z)
    (i' : inode) (v' : bview) : Prop := {
  wr_fs : fs_ok sb v';
  wr_ok : inode_ok sb v' i';
  wr_inode : i' = with_addrs (iaddrs i') i;
  wr_quiet : quiet v';
  wr_in : forall q, off <= q < off + Z.of_nat (length src) ->
    bmap_of v' i' (q / BSIZE) <> 0 /\ byte_at v' i' q = nth (Z.to_nat (q - off)) src 0;
  wr_out : forall q, 0 <= q < MAXFILE * BSIZE -> ~ (off <= q < off + Z.of_nat (length src)) ->
    bmap_of v i (q / BSIZE) <> 0 ->
    bmap_of v' i' (q / BSIZE) <> 0 /\ byte_at v' i' q = byte_at v i q;
  wr_keep : forall b, 0 <= b < sb_size sb -> used sb v b = true -> ~ is_bmap sb b ->
    b ∉ iblocks v i -> vdata v' b = vdata v b;
  wr_mono : forall b, 0 <= b < sb_size sb -> used sb v b = true -> used sb v' b = true;
  wr_blocks : forall b, b ∈ iblocks v' i' -> b ∈ iblocks v i \/ used sb v b = false;
  wr_same : (forall q, off <= q < off + Z.of_nat (length src) -> bmap_of v i (q / BSIZE) <> 0) -> i' = i
}.

Section written.
Variable sb : superblock.
Implicit Types (v : bview) (i : inode) (a b bn off : Z) (src : list Z).

Lemma written_nil v i off : fs_ok sb v -> inode_ok sb v i -> quiet v -> written sb i v off [] i v.
Proof.
  intros. constructor; try done.
  - by destruct i.
  - intros q. simpl. lia.
  - auto.
Qed.

Lemma same_block off m q : 0 <= off -> 0 < m -> off mod BSIZE + m <= BSIZE -> off <= q < off + m ->
  q / BSIZE = off / BSIZE /\ q mod BSIZE = off mod BSIZE + (q - off).
Proof. intros. unfold BSIZE in *. Z.div_mod_to_equations. lia. Qed.

(** Storing a chunk into the block that [bmap] returned. *)
Lemma written_chunk v i off src a i1 v1 : fs_ok sb v -> inode_ok sb v i ->
  mapped sb (off / BSIZE) i v a i1 v1 -> 0 <= off -> off / BSIZE < MAXFILE ->
  0 < Z.of_nat (length src) -> off mod BSIZE + Z.of_nat (length src) <= BSIZE -> Forall is_u8 src ->
  let v2 := v_upd a (splice (vdata v1 a) (off mod BSIZE) src) v1 in
  written sb i v off src i1 v2 /\ (forall bn, bmap_of v2 i1 bn = bmap_of v1 i1 bn).
Proof.
  intros Hok Hio M Ho Hbn Hlen Hfit HF v2. set (bn := off / BSIZE) in *.
  assert (H0 : 0 <= bn) by (apply Z.div_pos; unfold BSIZE; lia).
  assert (Hmod : 0 <= off mod BSIZE) by (apply Z.mod_pos_bound; unfold BSIZE; lia).
  pose proof M as [M1 M2 M3 M4 M5 M6 M7 M8 M9 M10 M11 M12 _ _].
  destruct (data_range sb v1 a (fo_sb _ _ M1) M5) as [Hra Hna].
  assert (Hai : a <> ind i1) by (rewrite <- M4; apply (bmap_of_ne_ind sb); [done|lia|congruence]).
  assert (Hwa : block_wf (vdata v1 a)).
  { apply (fo_wf _ _ M1), (data_home sb); [apply M1|done]. }
  assert (Eia : ind_addrs v2 i1 = ind_addrs v1 i1).
  { apply ind_addrs_keep. unfold v2. cbn. by rewrite fn_lookup_insert_ne. }
  assert (Ebm : forall bn', bmap_of v2 i1 bn' = bmap_of v1 i1 bn').
  { intros bn'. unfold bmap_of. by rewrite Eia. }
  assert (Eib : iblocks v2 i1 = iblocks v1 i1) by (unfold iblocks, all_addrs; by rewrite Eia).
  assert (Hok2 : fs_ok sb v2).
  { apply fs_ok_upd_data; [done|done|]. by apply splice_wf. }
  assert (Hused : forall b, 0 <= b < sb_size sb -> used sb v2 b = used sb v1 b).
  { intros b Hb. by apply used_upd_data. }
  assert (Hva : vdata v2 a = splice (vdata v1 a) (off mod BSIZE) src).
  { unfold v2. cbn. by rewrite fn_lookup_insert. }
  assert (Hvn : forall b, b <> a -> vdata v2 b = vdata v1 b).
  { intros b Hb. unfold v2. cbn. by rewrite fn_lookup_insert_ne. }
  assert (Hnew : a ∈ iblocks v i \/ used sb v a = false).
  { destruct (decide (bmap_of v i bn = 0)) as [E|E]; [right; by apply M7|left].
    destruct (M8 E) as (-> & _ & _). apply bmap_of_in; [apply Hio|lia|done]. }
  split; [|done]. constructor; try done.
  - destruct M2 as [L N D]. constructor; rewrite ?Eib; try done. intros b Hb.
    destruct (D b Hb) as [Hd Hu]. split; [done|]. rewrite Hused; [done|].
    by apply (used_bound sb v1); [apply M1|].
  - intros q Hq. destruct (same_block off (Z.of_nat (length src)) q) as [E1 E2]; try done.
    fold bn in E1. unfold byte_at. rewrite E1, Ebm, M4, E2. split; [done|]. rewrite Hva.
    destruct Hwa as [Hl _]. rewrite get8_splice by lia. unfold in_range.
    rewrite (proj2 (Z.leb_le _ _)), (proj2 (Z.ltb_lt _ _)) by lia. cbn [andb]. f_equal. lia.
  - intros q Hq Hn Hnz. unfold byte_at. rewrite Ebm.
    assert (Hqr : 0 <= q / BSIZE < MAXFILE).
    { unfold MAXFILE, NDIRECT, NINDIRECT, BSIZE in *. Z.div_mod_to_equations. lia. }
    destruct (decide (q / BSIZE = bn)) as [E|E].
    + rewrite E in *. rewrite M4. split; [done|]. destruct (M8 Hnz) as (<- & -> & _). rewrite Hva.
      assert (Hqm : 0 <= q mod BSIZE < BSIZE) by (apply Z.mod_pos_bound; unfold BSIZE; lia).
      destruct Hwa as [Hl _]. rewrite get8_splice by lia. unfold in_range.
      assert (Hout : q mod BSIZE < off mod BSIZE \/
                     off mod BSIZE + Z.of_nat (length src) <= q mod BSIZE).
      { unfold bn, BSIZE in *. Z.div_mod_to_equations. lia. }
      zcases; done.
    + rewrite M6 by done. split; [done|].
      destruct (bmap_of_wf sb v i _ Hok Hio Hqr Hnz) as (Hd & _ & _).
      destruct (io_data _ _ _ Hio (bmap_of v i (q / BSIZE))) as [_ Hu].
      { apply bmap_of_in; [apply Hio|done|done]. }
      rewrite Hvn; cycle 1.
      { intros E'. apply E.
        apply (bmap_of_inj sb v1 i1 (q / BSIZE) bn M2 Hqr (conj H0 Hbn)).
        - rewrite M6 by done. done.
        - rewrite M6 by done. congruence. }
      rewrite M10; try done.
      * by apply (used_bound sb v); [apply Hok|].
      * unfold is_bmap, is_data in *. lia.
      * intros _. by apply (bmap_of_ne_ind sb).
  - intros b Hb Hu Hnb Hni. rewrite Hvn.
    + apply M10; try done. intros Hi ->. apply Hni. apply ind_in; [apply Hio|done].
    + intros ->. destruct Hnew; [done|congruence].
  - intros b Hb Hu. rewrite Hused by done. by apply M9.
  - intros b Hb. rewrite Eib in Hb. by apply M11.
  - intros Hall. apply M8. apply Hall. lia.
Qed.

Lemma written_app v i off src1 i1 v1 src2 i2 v2 : 0 <= off ->
  off + Z.of_nat (length src1) + Z.of_nat (length src2) <= MAXFILE * BSIZE ->
  written sb i v off src1 i1 v1 -> written sb i1 v1 (off + Z.of_nat (length src1)) src2 i2 v2 ->
  written sb i v off (src1 ++ src2) i2 v2.
Proof.
  intros Ho Hmax W1 W2. destruct W1 as [A1 A2 A3 A4 A5 A6 A7 A8 A9 A10], W2 as [B1 B2 B3 B4 B5 B6 B7 B8 B9 B10].
  constructor; try done; rewrite ?length_app, ?Nat2Z.inj_add.
  - rewrite B3, A3. done.
  - intros q Hq. destruct (Z.lt_ge_cases q (off + Z.of_nat (length src1))) as [Hlt|Hge].
    + destruct (A5 q) as [Hz Hb]; [lia|]. destruct (B6 q) as [Hz' Hb']; [lia|lia|done|].
      split; [done|]. rewrite Hb', Hb, app_nth1 by lia. done.
    + destruct (B5 q) as [Hz' Hb']; [lia|]. split; [done|]. rewrite Hb', app_nth2 by lia.
      f_equal. lia.
  - intros q Hq Hn Hz. destruct (A6 q) as [Hz1 Hb1]; [lia|lia|done|].
    destruct (B6 q) as [Hz2 Hb2]; [lia|lia|done|]. split; [done|congruence].
  - intros b Hb Hu Hnb Hni. rewrite B7; try done; [by apply A7|by apply A8|].
    intros Hin. apply A9 in Hin as [Hin|Hin]; [done|congruence].
  - intros b Hb Hu. by apply B8, A8.
  - intros b Hb. destruct (io_data _ _ _ B2 b Hb) as [Hd _].
    assert (Hr : 0 <= b < sb_size sb) by (by apply (used_bound sb v2); [apply B1|]).
    apply B9 in Hb as [Hb|Hb]; [by apply A9|]. right.
    apply not_true_iff_false. intros Hu. apply A8 in Hu; [congruence|done].
  - intros Hall. rewrite B10.
    + apply A10. intros q Hq. apply Hall. lia.
    + intros q Hq. apply A6; [lia|lia|]. apply Hall. lia.
Qed.

Lemma nblk_range off n : 0 <= n -> 0 <= nblk off n.
Proof.
  intros Hn. unfold nblk. destruct (n =? 0); [lia|]. apply Z.div_pos; unfold BSIZE; [|lia].
  pose proof (Z.mod_pos_bound off 512). lia.
Qed.

Lemma nblk_step off n m : 0 <= off -> 0 < n -> m = Z.min n (BSIZE - off mod BSIZE) ->
  0 < m <= n /\ off mod BSIZE + m <= BSIZE /\ nblk off n = 1 + nblk (off + m) (n - m).
Proof.
  intros Ho Hn ->. pose proof (Z.mod_pos_bound off BSIZE ltac:(unfold BSIZE; lia)).
  split; [lia|]. split; [lia|]. unfold nblk. rewrite (proj2 (Z.eqb_neq n 0)) by lia.
  destruct (Z.eqb_spec (n - Z.min n (BSIZE - off mod BSIZE)) 0) as [E|E].
  - unfold BSIZE in *. Z.div_mod_to_equations. lia.
  - assert (Em : Z.min n (BSIZE - off mod BSIZE) = BSIZE - off mod BSIZE) by lia. rewrite Em.
    unfold BSIZE in *. Z.div_mod_to_equations. lia.
Qed.

Lemma nblk_range' off n q : 0 <= off -> off <= q < off + n ->
  off / BSIZE <= q / BSIZE < off / BSIZE + nblk off n.
Proof.
  intros Ho Hq. unfold nblk. rewrite (proj2 (Z.eqb_neq n 0)) by lia.
  unfold BSIZE in *. Z.div_mod_to_equations. lia.
Qed.

Lemma nblk_last off n bn : 0 <= off -> 0 <= n -> off / BSIZE <= bn < off / BSIZE + nblk off n ->
  0 <= bn /\ bn * BSIZE < off + n.
Proof.
  intros Ho Hn. unfold nblk. destruct (Z.eqb_spec n 0); [lia|]. unfold BSIZE. Z.div_mod_to_equations. lia.
Qed.
End written.

(** * The file as a whole *)

(** The bytes [l] with [src] written over them at [off]. *)
Definition overwrite (l : list Z) (off : Z) (src : list Z) : list Z :=
  take (Z.to_nat off) l ++ src ++ drop (Z.to_nat off + length src) l.

(** What [writei] promises: the file's bytes, and that nothing else changed. *)
Record wrote (sb : superblock) (i : inode) (v : bview) (off : Z) (src : list Z)
    (i' : inode) (v' : bview) : Prop := {
  wo_fs : fs_ok sb v';
  wo_quiet : quiet v';
  wo_file : file_ok sb v' i';
  wo_inode : i' = set_isize (Z.max (isize i) (off + Z.of_nat (length src))) (with_addrs (iaddrs i') i);
  wo_bytes : file_bytes v' i' = overwrite (file_bytes v i) off src;
  wo_keep : forall b, 0 <= b < sb_size sb -> used sb v b = true -> ~ is_bmap sb b ->
    b ∉ iblocks v i -> b <> IBLOCK (inum i) sb -> vdata v' b = vdata v b;
  wo_mono : forall b, 0 <= b < sb_size sb -> used sb v b = true -> used sb v' b = true;
  wo_blocks : forall b, b ∈ iblocks v' i' -> b ∈ iblocks v i \/ used sb v b = false;
  wo_others : forall n, 0 <= n < sb_ninodes sb -> n <> inum i -> dinode_of sb v' n = dinode_of sb v n;
  wo_sync : dinode_of sb v (inum i) = with_disk i inode0 ->
    dinode_of sb v' (inum i) = with_disk i' inode0
}.

Section wrote.
Variable sb : superblock.
Implicit Types (v : bview) (i : inode) (a b bn off : Z) (src : list Z).

Lemma iblock_used v n : fs_ok sb v -> 0 <= n < sb_ninodes sb ->
  0 <= IBLOCK n sb < sb_size sb /\ used sb v (IBLOCK n sb) = true /\ ~ is_bmap sb (IBLOCK n sb) /\
  ~ is_data sb (IBLOCK n sb).
Proof.
  intros Hok Hn. destruct (iblock_home sb v n (fo_sb _ _ Hok) Hn) as [[Hh _] Hlt].
  pose proof (fo_sb _ _ Hok) as Hs.
  assert (0 <= sb_size sb / BPB) by (apply Z.div_pos; [apply Hs|unfold BPB, BSIZE; lia]).
  assert (Hd : IBLOCK n sb < dstart sb) by (unfold dstart; lia).
  split; [pose proof (so_data _ _ Hs); lia|]. split; [apply (fo_meta _ _ Hok); lia|].
  unfold is_bmap, is_data. lia.
Qed.

(** Updating an inode block moves no file block. *)
Lemma meta_upd v i n d : fs_ok sb v -> inode_ok sb v i -> 0 <= n < sb_ninodes sb ->
  let v' := v_upd (IBLOCK n sb) d v in
  (forall bn, bmap_of v' i bn = bmap_of v i bn) /\ iblocks v' i = iblocks v i /\
  (forall q, 0 <= q < MAXFILE * BSIZE -> bmap_of v i (q / BSIZE) <> 0 -> byte_at v' i q = byte_at v i q).
Proof.
  intros Hok Hio Hn v'. destruct (iblock_used v n Hok Hn) as (_ & _ & _ & Hnd).
  assert (Hk : forall a, is_data sb a -> vdata v' a = vdata v a).
  { intros a Ha. unfold v'. cbn. rewrite fn_lookup_insert_ne; [done|]. by intros <-. }
  assert (Eia : ind_addrs v' i = ind_addrs v i).
  { destruct (decide (ind i = 0)) as [E|E]; [unfold ind_addrs; by rewrite E|].
    apply ind_addrs_keep, Hk, (io_data _ _ _ Hio). apply ind_in; [apply Hio|done]. }
  assert (Ebm : forall bn, bmap_of v' i bn = bmap_of v i bn) by (intros bn; unfold bmap_of; by rewrite Eia).
  split; [done|]. split; [unfold iblocks, all_addrs; by rewrite Eia|].
  intros q Hq Hz. unfold byte_at. rewrite Ebm, Hk; [done|].
  apply (io_data _ _ _ Hio), bmap_of_in; [apply Hio| |done].
  unfold MAXFILE, NDIRECT, NINDIRECT, BSIZE in *. Z.div_mod_to_equations. lia.
Qed.

Lemma inode_ok_upd v i n d : fs_ok sb v -> inode_ok sb v i -> 0 <= n < sb_ninodes sb ->
  inode_ok sb (v_upd (IBLOCK n sb) d v) i.
Proof.
  intros Hok Hio Hn. destruct (meta_upd v i n d Hok Hio Hn) as (_ & E & _).
  destruct (iblock_home sb v n (fo_sb _ _ Hok) Hn) as [_ Hlt].
  destruct Hio as [H1 H2 H3]. constructor; rewrite ?E; try done. intros a Ha.
  destruct (H3 a Ha) as [Hd Hu]. split; [done|]. rewrite used_upd_meta; [done|done|].
  by apply (used_bound sb v); [apply Hok|].
Qed.

Lemma inode_ok_fields v i l x : inode_ok sb v (with_addrs l i) -> inode_ok sb v (set_isize x (with_addrs l i)).
Proof. intros [H1 H2 H3]. by constructor. Qed.

(** Addresses fit their 32 bits. *)
Lemma addrs_u32 v i : sb_ok sb v -> inode_ok sb v i -> Forall is_u32 (iaddrs i).
Proof.
  intros Hs Hio. apply Forall_forall. intros a Ha. destruct (decide (a = 0)) as [->|Hz]; [wrap_lia|].
  apply (is_data_u32 sb v); [done|]. apply (io_data _ _ _ Hio). unfold iblocks, all_addrs.
  apply list_elem_of_filter. split; [done|]. apply elem_of_app. by left.
Qed.

Lemma written_bytes v i off src i' v' : file_ok sb v i -> 0 <= off <= isize i ->
  off + Z.of_nat (length src) <= MAXFILE * BSIZE -> written sb i v off src i' v' ->
  file_at v' i' 0 (Z.max (isize i) (off + Z.of_nat (length src))) = overwrite (file_bytes v i) off src.
Proof.
  intros F Ho Hmax W. pose proof (fl_size _ _ _ F) as Hsz. set (n := Z.of_nat (length src)) in *.
  apply list_eq. intros k. unfold overwrite, file_bytes, file_at. rewrite list_lookup_fmap.
  assert (Hold : forall j, (j < Z.to_nat (isize i))%nat ->
    (byte_at v i <$> seqZ 0 (isize i)) !! j = Some (byte_at v i (Z.of_nat j))).
  { intros j Hj. rewrite list_lookup_fmap, lookup_seqZ_lt by lia. done. }
  assert (Hlen : length (byte_at v i <$> seqZ 0 (isize i)) = Z.to_nat (isize i)).
  { by rewrite length_fmap, length_seqZ. }
  destruct (decide (Z.of_nat k < Z.max (isize i) (off + n))) as [Hk|Hk].
  - rewrite lookup_seqZ_lt by lia. cbn [fmap option_fmap option_map]. rewrite Z.add_0_l.
    destruct (Z.lt_ge_cases (Z.of_nat k) off) as [H1|H1].
    + rewrite lookup_app_l by (rewrite length_take, Hlen; lia). rewrite lookup_take_lt, Hold by lia.
      f_equal. apply (wr_out _ _ _ _ _ _ _ W); [lia|fold n; lia|]. apply (bn_range sb v i); [done|lia].
    + rewrite lookup_app_r by (rewrite length_take, Hlen; lia). rewrite length_take, Hlen.
      destruct (Z.lt_ge_cases (Z.of_nat k) (off + n)) as [H2|H2].
      * rewrite lookup_app_l by lia.
        destruct (wr_in _ _ _ _ _ _ _ W (Z.of_nat k)) as [_ ->]; [fold n; lia|].
        rewrite nth_lookup. replace (k - Z.to_nat off `min` Z.to_nat (isize i))%nat with (Z.to_nat (Z.of_nat k - off)) by lia.
        destruct (lookup_lt_is_Some_2 src (Z.to_nat (Z.of_nat k - off))) as [x ->]; [lia|done].
      * rewrite lookup_app_r by lia. rewrite lookup_drop.
        replace (Z.to_nat off + length src + (k - Z.to_nat off `min` Z.to_nat (isize i) - length src))%nat with k by lia.
        rewrite Hold by lia. f_equal.
        apply (wr_out _ _ _ _ _ _ _ W); [lia|fold n; lia|]. apply (bn_range sb v i); [done|lia].
  - rewrite lookup_seqZ_ge by lia. symmetry. apply lookup_ge_None_2.
    rewrite !length_app, length_take, length_drop, Hlen. lia.
Qed.

Lemma written_full v i off src i' v' : file_ok sb v i -> 0 <= off <= isize i ->
  off + Z.of_nat (length src) <= MAXFILE * BSIZE -> written sb i v off src i' v' ->
  forall bn, 0 <= bn -> bn * BSIZE < Z.max (isize i) (off + Z.of_nat (length src)) ->
  bmap_of v' i' bn <> 0.
Proof.
  intros F Ho Hmax W bn Hbn Hlt. pose proof (fl_size _ _ _ F) as Hsz.
  assert (E : bn * BSIZE / BSIZE = bn) by (apply Z.div_mul; unfold BSIZE; lia).
  rewrite <- E. assert (0 <= bn * BSIZE) by (unfold BSIZE; lia).
  destruct (decide (off <= bn * BSIZE < off + Z.of_nat (length src))) as [Hin|Hout].
  - by apply (wr_in _ _ _ _ _ _ _ W).
  - apply (wr_out _ _ _ _ _ _ _ W); [lia|done|]. rewrite E. apply (fl_full _ _ _ F); [done|lia].
Qed.

(** An extending write ends with [iupdate]. *)
Lemma wrote_extend v i off src i' v' : file_ok sb v i -> fs_ok sb v -> 0 <= off <= isize i ->
  off + Z.of_nat (length src) <= MAXFILE * BSIZE -> isize i < off + Z.of_nat (length src) ->
  written sb i v off src i' v' ->
  let i2 := set_isize (off + Z.of_nat (length src)) i' in
  wrote sb i v off src i2 (v_iupd sb i2 v').
Proof.
  intros F Hok Ho Hmax Hext W i2. set (n := Z.of_nat (length src)) in *.
  destruct W as [W1 W2 W3 W4 W5 W6 W7 W8 W9 W10] eqn:HW. clear HW.
  assert (Hnum : inum i2 = inum i) by (unfold i2; rewrite W3; done).
  pose proof (fl_disk _ _ _ F) as [Hdev Hn].
  assert (Hio2 : inode_ok sb v' i2) by (destruct W2; by constructor).
  assert (Emax : Z.max (isize i) (off + n) = off + n) by lia.
  destruct (meta_upd v' i2 (inum i2) (store_dinode (vdata v' (IBLOCK (inum i2) sb)) (dinode_off (inum i2)) i2)
    W1 Hio2) as (Ebm & Eib & Eby); [by rewrite Hnum|]. fold (v_iupd sb i2 v') in Ebm, Eib, Eby.
  assert (Hfull : forall bn, 0 <= bn -> bn * BSIZE < isize i2 -> bmap_of v' i2 bn <> 0).
  { intros bn H1 H2. apply (written_full v i off src i' v'); try done. fold n. rewrite Emax. exact H2. }
  assert (Hrg : irange i2).
  { destruct (fl_range _ _ _ F) as [R1 R2 R3 R4 R5 R6 R7]. unfold i2. rewrite W3.
    constructor; cbn; try done.
    - unfold MAXFILE, NDIRECT, NINDIRECT, BSIZE in Hmax. wrap_lia.
    - apply W2.
    - apply (addrs_u32 v'); [apply W1|done]. }
  assert (Hn2 : 0 <= inum i2 < sb_ninodes sb) by (by rewrite Hnum).
  constructor.
  - by apply fs_ok_iupd.
  - done.
  - constructor; try done.
    + by apply inode_ok_upd.
    + unfold i2. rewrite W3. done.
    + unfold i2. rewrite W3. apply F.
    + unfold i2. cbn. lia.
    + intros bn H1 H2. rewrite Ebm. by apply Hfull.
  - fold n. rewrite Emax. unfold i2. rewrite W3 at 1. done.
  - unfold file_bytes at 1. unfold i2 at 3. cbn [isize set_isize]. fold n.
    rewrite <- (written_bytes v i off src i' v') by done. fold n. rewrite Emax.
    unfold file_at. apply list_fmap_ext. intros k q Hq. apply lookup_seqZ in Hq as [-> Hq].
    apply Eby; [lia|]. rewrite Z.add_0_l. apply Hfull; [apply Z.div_pos; unfold BSIZE; lia|].
    unfold i2. cbn. fold n. unfold BSIZE in *. Z.div_mod_to_equations. lia.
  - intros b Hb Hu Hnb Hni Hne. unfold v_iupd. rewrite Hnum. cbn [vdata v_upd].
    rewrite fn_lookup_insert_ne by congruence.
    by apply W7.
  - intros b Hb Hu. unfold v_iupd. rewrite used_upd_meta; [by apply W8| |done].
    by destruct (iblock_home sb v (inum i2) (fo_sb _ _ Hok) Hn2).
  - intros b Hb. rewrite Eib in Hb. by apply W9.
  - intros m Hm Hne. rewrite dinode_of_iupd by (done || lia). rewrite Hnum, (proj2 (Z.eqb_neq _ _)) by done.
    destruct (iblock_used v m Hok Hm) as (U1 & U2 & U3 & U4). unfold dinode_of. rewrite W7; try done.
    intros Hin. by apply U4, (io_data _ _ _ (fl_inode _ _ _ F)).
  - intros _. rewrite <- Hnum, dinode_of_iupd by (done || lia). by rewrite Z.eqb_refl.
Qed.

(** A write inside the file changes no inode. *)
Lemma wrote_inside v i off src i' v' : file_ok sb v i -> fs_ok sb v -> 0 <= off ->
  off + Z.of_nat (length src) <= isize i -> written sb i v off src i' v' ->
  wrote sb i v off src i' v'.
Proof.
  intros F Hok Ho Hin W. set (n := Z.of_nat (length src)) in *. pose proof (fl_size _ _ _ F) as Hsz.
  assert (Emax : Z.max (isize i) (off + n) = isize i) by lia.
  assert (i' = i) as ->.
  { apply (wr_same _ _ _ _ _ _ _ W). intros q Hq. apply (bn_range sb v i); [done|fold n in Hq; lia]. }
  assert (Hdin : forall m, 0 <= m < sb_ninodes sb -> dinode_of sb v' m = dinode_of sb v m).
  { intros m Hm. destruct (iblock_used v m Hok Hm) as (U1 & U2 & U3 & U4). unfold dinode_of.
    rewrite (wr_keep _ _ _ _ _ _ _ W); try done. intros Hb. by apply U4, (io_data _ _ _ (fl_inode _ _ _ F)). }
  constructor; try apply W.
  - destruct F as [F1 F2 F3 F4 F5 F6]. constructor; try done; [apply W|].
    intros bn H1 H2. apply (written_full v i off src i v'); try done; [lia|fold n; lia|fold n; lia].
  - fold n. rewrite Emax. by destruct i.
  - unfold file_bytes at 1. rewrite <- (written_bytes v i off src i v') by (done || (fold n; lia)).
    fold n. by rewrite Emax.
  - intros b Hb Hu Hnb Hni _. by apply (wr_keep _ _ _ _ _ _ _ W).
  - intros m Hm _. by apply Hdin.
  - intros E. rewrite Hdin; [done|]. apply F.
Qed.
End wrote.

(** A block that is already logged needs no reservation. *)
Lemma room_drop B k v a : a ∈ vlogged v -> room ({[a]} ∪ B) k v -> room B k v.
Proof.
  intros Ha [H1 H2 H3 H4]. constructor; try done.
  replace (vlogged v ∪ B) with (vlogged v ∪ ({[a]} ∪ B)); [done|]. set_solver.
Qed.

(** The blocks that a write of [n] bytes at [off] has to allocate. *)
Definition missing (v : bview) (i : inode) (off n : Z) : Z :=
  Z.of_nat (length (filter (fun bn => bmap_of v i bn = 0) (seqZ (off / BSIZE) (nblk off n)))).

(** Either no block is missing, or there are enough free ones. *)
Definition space (sb : superblock) (v : bview) (i : inode) (off n : Z) : Prop :=
  missing v i off n = 0 \/ missing v i off n + ki i <= Z.of_nat (nfree sb v).

(** The free blocks that a write of [n] bytes at [off] used up, at most; no
    block of the file is given up. *)
Record spent (sb : superblock) (i : inode) (v : bview) (off n : Z) (i' : inode) (v' : bview) : Prop := {
  sp_free : Z.of_nat (nfree sb v) + ki i' <= Z.of_nat (nfree sb v') + missing v i off n + ki i;
  sp_mapped : forall bn, 0 <= bn < MAXFILE -> bmap_of v i bn <> 0 -> bmap_of v' i' bn <> 0;
  sp_op : same_op v v'
}.

Section missing.
Implicit Types (v : bview) (i : inode) (off n m : Z).

Lemma missing_step v i off n m : 0 <= off -> 0 < n -> m = Z.min n (BSIZE - off mod BSIZE) ->
  missing v i off n = (if decide (bmap_of v i (off / BSIZE) = 0) then 1 else 0) + missing v i (off + m) (n - m).
Proof.
  intros Ho Hn Hm. destruct (nblk_step off n m Ho Hn Hm) as (Hr & Hfit & En).
  pose proof (nblk_range (off + m) (n - m) ltac:(lia)) as Hnb.
  unfold missing. rewrite seqZ_cons, filter_cons by lia.
  replace (Z.pred (nblk off n)) with (nblk (off + m) (n - m)) by lia.
  assert (E : seqZ (Z.succ (off / BSIZE)) (nblk (off + m) (n - m)) = seqZ ((off + m) / BSIZE) (nblk (off + m) (n - m))).
  { destruct (decide (n = m)) as [->|Hne]; [by rewrite Z.sub_diag|]. f_equal.
    assert (m = BSIZE - off mod BSIZE) as -> by lia. unfold BSIZE. Z.div_mod_to_equations. lia. }
  rewrite E. destruct (decide _); [rewrite length_cons|]; lia.
Qed.

Lemma missing_le v i off n : 0 <= n -> 0 <= missing v i off n <= nblk off n.
Proof.
  intros Hn. unfold missing. pose proof (nblk_range off n Hn).
  pose proof (length_filter (fun bn => bmap_of v i bn = 0) (seqZ (off / BSIZE) (nblk off n))) as H1.
  rewrite length_seqZ in H1. lia.
Qed.

Lemma spent_nil sb v i off : spent sb i v off 0 i v.
Proof. constructor; [unfold missing, nblk; cbn; lia|done|done]. Qed.

Lemma missing_ext v i v' i' off n :
  (forall bn, off / BSIZE <= bn < off / BSIZE + nblk off n -> bmap_of v' i' bn = bmap_of v i bn) ->
  missing v' i' off n = missing v i off n.
Proof.
  intros H. unfold missing. do 2 f_equal. apply list_filter_iff_in. intros bn Hbn%elem_of_seqZ.
  by rewrite H.
Qed.
End missing.

Section rw.
Context {T : Type} {BC : BufferCache T}.
#[local] Notation st := (fsst T).
Variables (p : Z) (B : gset Z).
Implicit Types (s : st) (v : bview) (c : ctx) (ip : nat) (a bn off n : Z).

Lemma readi_loop_wp fuel ip s v off n tot c (Q : list Z -> ctx -> st -> Prop) :
  let sb := fsb s in let i := icache s ip in
  frel p s v -> fs_ok sb v -> quiet v -> file_ok sb v i -> buf_room v ->
  held c = [] -> mypid c = p -> 0 <= off -> tot <= n -> off + (n - tot) <= isize i ->
  n - tot + off mod BSIZE <= Z.of_nat fuel * BSIZE \/ tot = n ->
  (forall c' t, same_thread c c' -> frel p (set_fbuf t s) v ->
     Q (file_at v i off (n - tot)) c' (set_fbuf t s)) ->
  wp (readi_loop fuel ip off n tot) c s Q.
Proof.
  revert s off tot c Q. induction fuel as [|fuel IH]; intros s off tot c Q sb i Hr Hok Hq F Hbr Hc Hp
    Ho Ht Hsz Hf HQ; cbn [readi_loop].
  all: assert (0 <= off mod BSIZE < BSIZE) as Hmod by (apply Z.mod_pos_bound; unfold BSIZE; lia).
  all: destruct (Z.ltb_spec tot n) as [Hlt|Hge].
  2, 4: wp_step; replace (n - tot) with 0 in HQ by lia;
    specialize (HQ c (fbuf s) (same_thread_refl c)); destruct s; by apply HQ.
  { lia. }
  destruct (bn_range sb v i off F) as [Hbn Hnz]; [lia|].
  destruct (bmap_of_wf sb v i _ Hok (fl_inode _ _ _ F) Hbn Hnz) as (Hda & Hh & Hwf).
  do 2 wp_step. wp_step. apply (bmap_read_wp p _ _ _ v); try done; [apply F|apply F|].
  fold i. intros c1 t1 Hth1 Hr1. cbn [icache set_fbuf]. fold i.
  rewrite (proj1 (fl_disk _ _ _ F)).
  assert (Hc1 : held c1 = []) by (by rewrite (st_held _ _ Hth1)).
  assert (Hp1 : mypid c1 = p) by (by rewrite (st_pid _ _ Hth1)).
  wp_step. apply (wp_bread p _ _ v); try done; [by apply quiet_not_open|].
  intros bp c2 t2 Hth2 Hbp Hr2 Hd2. rewrite set_fbuf_set in *. do 2 wp_step. cbn [fbuf set_fbuf]. rewrite Hd2.
  wp_step. apply (wp_brelse_read p bp (bmap_of v i (off / BSIZE)) _ v); try done.
  { by rewrite (st_held _ _ Hth2). } { by rewrite (st_pid _ _ Hth2). } { by destruct Hq as [_ ->]. }
  intros c3 t3 Hth3 Hr3. rewrite set_fbuf_set in *.
  set (m := Z.min (n - tot) (BSIZE - off mod BSIZE)).
  assert (Hm : 0 < m <= n - tot /\ off mod BSIZE + m <= BSIZE) by (unfold m; lia).
  wp_step. apply IH; try done.
  - by rewrite (st_held _ _ Hth3), (st_held _ _ Hth2).
  - by rewrite (st_pid _ _ Hth3), (st_pid _ _ Hth2).
  - lia.
  - lia.
  - cbn [icache set_fbuf]. fold i. lia.
  - destruct (decide (m = n - tot)) as [->|Hne]; [right; lia|left].
    assert (m = BSIZE - off mod BSIZE) as E by (unfold m in *; lia).
    assert ((off + m) mod BSIZE = 0) as ->.
    { rewrite E. unfold BSIZE in *. Z.div_mod_to_equations. lia. }
    destruct Hf as [Hf|Hf]; [|lia]. unfold BSIZE in *. lia.
  - intros c4 t4 Hth4 Hr4. rewrite set_fbuf_set in *. wp_step.
    cbn [icache set_fbuf]. fold i. rewrite file_at_block by (done || lia).
    replace (n - (tot + m)) with (n - tot - m) by lia.
    rewrite <- file_at_app by lia. replace (m + (n - tot - m)) with (n - tot) by lia.
    apply HQ; [|done]. eauto using same_thread_trans.
Qed.

Lemma writei_loop_wp fuel k ip src s v off c (Q : Z -> ctx -> st -> Prop) :
  let sb := fsb s in let i := icache s ip in let n := Z.of_nat (length src) in
  frel p s v -> fs_ok sb v -> quiet v -> inode_ok sb v i -> idev i = 1 -> has_bmap sb B ->
  0 <= k -> room (Bi B i) (ki i + (nblk off n + k)) v -> held c = [] -> mypid c = p ->
  0 <= off -> off + n <= MAXFILE * BSIZE -> Forall is_u8 src -> space sb v i off n ->
  nblk off n <= Z.of_nat fuel ->
  (forall c' s' i' v', same_thread c c' -> frel p s' v' -> only_inode ip i' s s' ->
     written sb i v off src i' v' -> spent sb i v off n i' v' -> room (Bi B i') (ki i' + k) v' ->
     Q (off + n) c' s') ->
  wp (writei_loop fuel ip src off) c s Q.
Proof.
  revert src s v off c Q. induction fuel as [|fuel IH];
    intros src s v off c Q sb i n Hr Hok Hq Hio Hdev HB Hk Hrm Hc Hp Ho Hmax HF Hsp Hf HQ;
    cbn [writei_loop].
  all: destruct (Z.ltb_spec 0 (Z.of_nat (length src))) as [Hlt|Hge].
  2, 4: wp_step; assert (src = []) as -> by (apply nil_length_inv; lia); rewrite Z.add_0_r in HQ;
    apply (HQ c s i v); [done|done|done|by apply written_nil|apply spent_nil|exact Hrm].
  { exfalso. destruct (nblk_step off n _ Ho Hlt eq_refl) as (_ & _ & E). 
    pose proof (nblk_range (off + Z.min n (BSIZE - off mod BSIZE)) (n - Z.min n (BSIZE - off mod BSIZE))). lia. }
  set (m := Z.min n (BSIZE - off mod BSIZE)).
  destruct (nblk_step off n m Ho Hlt eq_refl) as (Hm & Hfit & En).
  pose proof (nblk_range (off + m) (n - m) ltac:(lia)) as Hnb.
  pose proof (missing_step v i off n m Ho Hlt eq_refl) as Em.
  pose proof (missing_le v i (off + m) (n - m) ltac:(lia)) as Hmi.
  assert (Hbn : 0 <= off / BSIZE < MAXFILE).
  { unfold MAXFILE, NDIRECT, NINDIRECT, BSIZE in *. Z.div_mod_to_equations. lia. }
  do 2 wp_step. wp_step. apply (bmap_wp p B _ (nblk (off + m) (n - m) + k) _ _ v); try done.
  { lia. } { fold i. by replace (nblk (off + m) (n - m) + k + 1) with (nblk off n + k) by lia. }
  { intros Hz. fold sb i in Hz |- *. rewrite decide_True in Em by done. destruct Hsp as [Hsp|Hsp]; lia. }
  intros a c1 s1 i1 v1 Hth1 Hr1 Hoi1 M1 Hrm1. fold i sb in M1. fold i. rewrite Hdev.
  assert (Hc1 : held c1 = []) by (by rewrite (st_held _ _ Hth1)).
  assert (Hp1 : mypid c1 = p) by (by rewrite (st_pid _ _ Hth1)).
  pose proof (mp_quiet _ _ _ _ _ _ _ M1) as Hq1. pose proof (mp_fs _ _ _ _ _ _ _ M1) as Hok1.
  pose proof (mp_data _ _ _ _ _ _ _ M1) as Hda.
  wp_step. apply (wp_bread p _ _ v1); try done.
  { apply (data_home sb); [apply Hok1|done]. } { by apply quiet_not_open. }
  { by eapply (opens_room _ sb), Hrm1; apply quiet_opens. }
  intros bp c2 t2 Hth2 Hbp Hr2 Hd2. do 2 wp_step. cbn [fbuf set_fbuf]. rewrite Hd2. fold n. fold m.
  apply (wp_store_log p bp a _ _ v1); try done.
  { by rewrite (st_held _ _ Hth2). } { by rewrite (st_pid _ _ Hth2). }
  { by destruct Hq1 as [_ ->]. } { by eapply room_log. } { apply Hrm1. }
  intros c3 t3 Hth3 Hr3. rewrite set_fbuf_set in *.
  set (src1 := take (Z.to_nat m) src) in *. set (src2 := drop (Z.to_nat m) src).
  assert (Hl1 : Z.of_nat (length src1) = m) by (unfold src1; rewrite length_take; lia).
  assert (Hl2 : Z.of_nat (length src2) = n - m) by (unfold src2; rewrite length_drop; lia).
  destruct (written_chunk sb v i off src1 a i1 v1 Hok Hio M1) as [W1 Ebm]; try lia; [by apply Forall_take|].
  set (v2 := v_upd a _ v1) in *.
  assert (Hoi2 : icache (set_fbuf t3 s1) ip = i1) by apply Hoi1.
  assert (Esb : fsb (set_fbuf t3 s1) = sb) by apply Hoi1.
  assert (Emi : missing v2 i1 (off + m) (n - m) = missing v i (off + m) (n - m)).
  { apply missing_ext. intros bn Hbn'. rewrite Ebm. apply (mp_other _ _ _ _ _ _ _ M1).
    - destruct (nblk_last (off + m) (n - m) bn) as (? & ?); [lia|lia|done|]. unfold BSIZE in *. lia.
    - intros ->. assert (n <> m) by (intros En'; rewrite <- En', Z.sub_diag in Hbn'; cbn in Hbn'; lia).
      assert (m = BSIZE - off mod BSIZE) as Em' by (unfold m in *; lia).
      rewrite Em' in Hbn'. unfold BSIZE in *. Z.div_mod_to_equations. lia. }
  pose proof (mp_nfree _ _ _ _ _ _ _ M1) as Hnf.
  assert (Enf : nfree sb v2 = nfree sb v1).
  { apply nfree_ext. intros b Hb. by apply used_upd_data. }
  apply (IH src2 _ v2); rewrite ?Hoi2, ?Esb, ?Hl2; try done.
  - apply W1.
  - apply W1.
  - rewrite (mp_inode _ _ _ _ _ _ _ M1). done.
  - apply (room_drop _ _ _ a); [unfold v2; cbn; set_solver|]. apply room_in; [set_solver|done].
  - by rewrite (st_held _ _ Hth3), (st_held _ _ Hth2).
  - by rewrite (st_pid _ _ Hth3), (st_pid _ _ Hth2).
  - lia.
  - lia.
  - by apply Forall_drop.
  - unfold space. rewrite Emi, Enf. destruct Hsp as [Hsp|Hsp]; [left; case_decide; lia|right].
    case_decide as Hz; [lia|]. destruct (mp_old _ _ _ _ _ _ _ M1 Hz) as (_ & Ev & Ei). rewrite Ev, Ei. lia.
  - lia.
  - intros c' s' i' v' Hth' Hr' Hoi' W' Hs' Hrm'. replace (off + m + (n - m)) with (off + n) by lia.
    apply (HQ c' s' i' v'); try done.
    + eauto using same_thread_trans.
    + eapply only_inode_trans; [exact Hoi1|]. destruct Hoi' as [O1 O2 O3]. by constructor.
    + rewrite <- (take_drop (Z.to_nat m) src). fold src1 src2.
      apply written_app with i1 v2; try done; [lia|]. by rewrite Hl1.
    + destruct Hs' as [S1 S2 S3]. constructor.
      * rewrite Emi, Enf in S1. case_decide as Hz; [lia|].
        destruct (mp_old _ _ _ _ _ _ _ M1 Hz) as (_ & Ev & Ei). rewrite Ev, Ei in S1. lia.
      * intros bn Hbn' Hz. apply S2; [done|]. rewrite Ebm.
        destruct (decide (bn = off / BSIZE)) as [->|Hne]; [|by rewrite (mp_other _ _ _ _ _ _ _ M1)].
        rewrite (mp_at _ _ _ _ _ _ _ M1). by apply (data_range sb v1); [apply Hok1|].
      * eapply same_op_trans; [apply M1|done].
Qed.

(** The device switch plays no part for files and directories. *)
Variable devread : Z -> option (nat -> Z -> M st (Z * list Z)).

(** The number of bytes [readi] delivers. *)
Definition read_len (i : inode) off n : Z := if off + n >? isize i then isize i - off else n.

Lemma readi_wp ip s v off n c (Q : Z * list Z -> ctx -> st -> Prop) :
  let sb := fsb s in let i := icache s ip in
  frel p s v -> fs_ok sb v -> quiet v -> file_ok sb v i -> buf_room v ->
  held c = [] -> mypid c = p -> 0 <= off <= isize i -> 0 <= n -> is_u32 (off + n) ->
  (forall c' t, same_thread c c' -> frel p (set_fbuf t s) v ->
     Q (read_len i off n, file_at v i off (read_len i off n)) c' (set_fbuf t s)) ->
  wp (readi devread ip off n) c s Q.
Proof.
  intros sb i Hr Hok Hq F Hbr Hc Hp Ho Hn Hu HQ. unfold readi. do 2 wp_step. unfold id. fold i.
  rewrite (proj2 (Z.eqb_neq _ _) (fl_nodev _ _ _ F)).
  rewrite u32_small, Z.gtb_ltb, (proj2 (Z.ltb_ge (isize i) off)) by (done || lia). cbn [orb].
  rewrite (proj2 (Z.ltb_ge (off + n) off)) by lia. cbn match. fold (read_len i off n).
  assert (Hl : 0 <= read_len i off n <= n /\ off + read_len i off n <= isize i).
  { unfold read_len. zcases; lia. }
  wp_step. apply (readi_loop_wp _ _ _ v); try done; try lia.
  - fold i. lia.
  - left. unfold BSIZE. Z.div_mod_to_equations. lia.
  - intros c' t Hth Hr'. wp_step. fold i. rewrite Z.sub_0_r. by apply HQ.
Qed.
End rw.

Section writei.
Context {T : Type} {BC : BufferCache T}.
#[local] Notation st := (fsst T).
Variables (p : Z) (B : gset Z).
Variable devwrite : Z -> option (nat -> list Z -> M st Z).
Implicit Types (s : st) (v : bview) (c : ctx) (ip : nat) (off : Z).

Lemma writei_wp k ip src off s v c (Q : Z -> ctx -> st -> Prop) :
  let sb := fsb s in let i := icache s ip in let n := Z.of_nat (length src) in
  frel p s v -> fs_ok sb v -> quiet v -> file_ok sb v i -> has_bmap sb B -> 0 <= k ->
  room (Bi B i) (ki i + (nblk off n + (k + 1))) v -> held c = [] -> mypid c = p ->
  0 <= off <= isize i -> off + n <= MAXFILE * BSIZE -> Forall is_u8 src -> space sb v i off n ->
  (forall c' s' i' v', same_thread c c' -> frel p s' v' -> only_inode ip i' s s' ->
     wrote sb i v off src i' v' -> spent sb i v off n i' v' -> room (Bi B i') (ki i' + k) v' ->
     Q n c' s') ->
  wp (writei devwrite ip src off) c s Q.
Proof.
  intros sb i n Hr Hok Hq F HB Hk Hrm Hc Hp Ho Hmax HF Hsp HQ. unfold writei. fold n.
  do 2 wp_step. unfold id. fold i. rewrite (proj2 (Z.eqb_neq _ _) (fl_nodev _ _ _ F)).
  assert (Hu : u32 (off + n) = off + n).
  { apply u32_small. unfold MAXFILE, NDIRECT, NINDIRECT, BSIZE in Hmax. wrap_lia. }
  rewrite Hu, !Z.gtb_ltb, (proj2 (Z.ltb_ge (isize i) off)) by lia. cbn [orb].
  rewrite (proj2 (Z.ltb_ge (off + n) off)), (proj2 (Z.ltb_ge (MAXFILE * BSIZE) (off + n))) by lia.
  wp_step. apply (writei_loop_wp p B _ (k + 1) ip src s v); try done.
  - apply F.
  - apply F.
  - lia.
  - lia.
  - fold n. unfold nblk. destruct (Z.eqb_spec n 0); [lia|].
    pose proof (Z.mod_pos_bound off BSIZE ltac:(unfold BSIZE; lia)).
    unfold BSIZE in *. Z.div_mod_to_equations. lia.
  - fold sb i n. intros c1 s1 i1 v1 Hth1 Hr1 Hoi1 W Hsp1 Hrm1. do 2 wp_step.
    assert (Ei : icache s1 ip = i1) by apply Hoi1. assert (Esb : fsb s1 = sb) by apply Hoi1.
    rewrite Ei. pose proof (wr_inode _ _ _ _ _ _ _ W) as E1.
    assert (Esz : isize i1 = isize i) by (rewrite E1; done). rewrite Esz.
    assert (Hki1 := ki_range i1). rewrite Z.gtb_ltb. wp_step. wp_step.
    + apply andb_prop in H as [_ Hlt]. apply Z.ltb_lt in Hlt. do 2 wp_step.
      set (i2 := set_isize (off + n) i1).
      assert (Ei2 : icache (upd_inode ip (set_isize (off + n)) s1) ip = i2).
      { by rewrite upd_inode_same, Ei. }
      apply (iupdate_wp p (Bi B i1) (ki i1 + (k + 1)) ip _ v1); rewrite ?Ei2; cbn [fsb upd_inode];
        rewrite ?Esb; try done.
      * apply W.
      * apply quiet_opens, W.
      * by rewrite (st_held _ _ Hth1).
      * by rewrite (st_pid _ _ Hth1).
      * unfold i2, on_disk. rewrite E1. apply F.
      * intros c2 t2 Hth2 Hr2. wp_step.
        apply (HQ c2 _ i2 (v_iupd sb i2 v1)); [eauto using same_thread_trans|exact Hr2| | | |].
        -- destruct Hoi1 as [O1 O2 O3]. constructor; [done|exact Ei2|].
           intros ip' Hne. cbn [icache set_fbuf]. rewrite upd_inode_ne by done. by apply O3.
        -- by apply wrote_extend.
        -- destruct Hsp1 as [S1 S2 S3]. destruct (meta_upd sb v1 i2 (inum i2)
             (store_dinode (vdata v1 (IBLOCK (inum i2) sb)) (dinode_off (inum i2)) i2)) as (Ebm & _).
           ++ apply W.
           ++ destruct (wr_ok _ _ _ _ _ _ _ W). by constructor.
           ++ unfold i2. rewrite E1. apply F.
           ++ constructor.
              ** rewrite (nfree_ext sb (v_iupd sb i2 v1) v1); [exact S1|]. intros b Hb. unfold v_iupd.
                 apply used_upd_meta; [|done]. unfold i2. rewrite E1.
                 by destruct (iblock_home sb v (inum i) (fo_sb _ _ Hok) (proj2 (fl_disk _ _ _ F))).
              ** intros bn H1 H2. fold (v_iupd sb i2 v1) in Ebm. rewrite Ebm. by apply S2.
              ** done.
        -- change (Bi B i2) with (Bi B i1). change (ki i2) with (ki i1).
           apply room_new; [by rewrite <- Z.add_assoc|lia].
    + wp_step. apply (HQ c1 s1 i1 v1); try done.
      * apply wrote_inside; try done; [lia|]. fold n. apply andb_false_iff in H as [H|H].
        -- apply Z.ltb_ge in H. lia.
        -- apply Z.ltb_ge in H. lia.
      * eapply room_less; [exact Hrm1|lia].
Qed.
End writei.
