(* ===== verification/FsTrunc.v ===== *)
(** * Freeing content and inodes (fs.c): itrunc, iput *)
From stdpp Require Import functions.
From S2P Require Import Prelude CString Mmu Block Sleeplock Log Buffers Fs FsBlocks FsInode FsFile FsRw.
#[local] Set Default Proof Using "Type".

Definition nz (l : list Z) : list Z := filter (fun a => a <> 0) l.

(** [v'] is [v] with the blocks of [l] freed: only the bitmap changed. *)
Record freed (sb : superblock) (B : gset Z) (v : bview) (l : list Z) (v' : bview) : Prop := {
  fr_fs : fs_ok sb v';
  fr_used : forall b, 0 <= b < sb_size sb -> used sb v' b = used sb v b && negb (bool_decide (b ∈ l));
  fr_data : forall b, ~ is_bmap sb b -> vdata v' b = vdata v b;
  fr_open : vopen v' = vopen v;
  fr_unlogged : vunlogged v' = vunlogged v;
  fr_room : forall k, room B k v -> room B k v'
}.

Section freed.
Variables (sb : superblock) (B : gset Z).
Implicit Types (v : bview) (a b : Z) (l : list Z).

Lemma freed_nil v : fs_ok sb v -> freed sb B v [] v.
Proof.
  intros Hok. constructor; try done. intros b Hb. rewrite bool_decide_false by apply not_elem_of_nil.
  by rewrite andb_true_r.
Qed.

Lemma freed_one v a : has_bmap sb B -> fs_ok sb v -> is_data sb a ->
  freed sb B v [a] (v_free sb a v).
Proof.
  intros HB Hok Ha. destruct (data_range sb v a (fo_sb _ _ Hok) Ha) as [Hr _].
  constructor; try done.
  - by apply fs_ok_free.
  - intros b Hb. rewrite used_free by done. rewrite andb_comm. f_equal. f_equal.
    destruct (Z.eqb_spec b a) as [->|Hne].
    + rewrite bool_decide_true; [done|constructor].
    + rewrite bool_decide_false; [done|]. by intros ->%list_elem_of_singleton.
  - intros b Hb. unfold v_free. cbn. rewrite fn_lookup_insert_ne; [done|]. intros <-.
    by apply Hb, bblock_bmap.
  - intros k. apply room_in. by apply HB.
Qed.

Lemma freed_app v1 l1 v2 l2 v3 :
  freed sb B v1 l1 v2 -> freed sb B v2 l2 v3 -> freed sb B v1 (l1 ++ l2) v3.
Proof.
  intros [A1 A2 A3 A4 A5 A6] [C1 C2 C3 C4 C5 C6]. constructor; try congruence.
  - intros b Hb. rewrite C2, A2 by done. rewrite <- andb_assoc, <- negb_orb. f_equal. f_equal.
    rewrite <- bool_decide_or. apply bool_decide_ext. set_solver.
  - intros b Hb. rewrite C3, A3; done.
  - auto.
Qed.

Lemma freed_opens v l v' : freed sb B v l v' -> opens_ok sb v ->
  (forall i b, vopen v !! i = Some b -> b ∉ l) -> opens_ok sb v'.
Proof.
  intros [A1 A2 A3 A4 A5 A6] [O1 O2 O3] Hn. constructor; rewrite ?A4, ?A5; try done.
  intros i b Hi. destruct (O2 i b Hi) as [Hd Hu]. split; [done|].
  rewrite A2, Hu by by apply (used_bound sb v'); [apply A1|].
  rewrite bool_decide_false; [done|]. by eapply Hn.
Qed.

Lemma v_open_close bp b v : vopen v !! bp = Some b -> v_open bp b (v_close bp v) = v.
Proof.
  intros H. destruct v. unfold v_open, v_close. cbn in *. f_equal.
  rewrite insert_delete_eq. by apply insert_id.
Qed.

Lemma freed_close v l v' bp b : vopen v !! bp = None -> freed sb B (v_open bp b v) l v' ->
  vopen v' !! bp = Some b /\ freed sb B v l (v_close bp v').
Proof.
  intros Hn [A1 A2 A3 A4 A5 A6]. cbn in *. split; [rewrite A4; apply lookup_insert_eq|].
  constructor; try done.
  - destruct A1 as [H1 H2 H3]. constructor; [by destruct H1|exact H2|exact H3].
  - cbn. rewrite A4. by apply delete_insert_id.
  - intros k Hk. destruct (A6 k (room_open _ _ _ _ _ Hk)). by constructor.
Qed.
End freed.

Lemma nz_cons a l : nz (a :: l) = if decide (a <> 0) then a :: nz l else nz l.
Proof. unfold nz. rewrite filter_cons. done. Qed.
Lemma nz_app l1 l2 : nz (l1 ++ l2) = nz l1 ++ nz l2.
Proof. apply filter_app. Qed.

Lemma wp_bind_assoc {S A C D} (m : M S A) (f : A -> M S C) (k : C -> M S D) c s Q :
  wp (m ≫= f) c s (fun a c' s' => wp (k a) c' s' Q) -> wp (m ≫= fun x => f x ≫= k) c s Q.
Proof.
  intros H. apply wp_bind_inv in H. apply wp_bind. eapply wp_mono; [|exact H].
  intros a c' s' H'. by apply wp_bind.
Qed.

Section trunc.
Context {T : Type} {BC : BufferCache T}.
#[local] Notation st := (fsst T).
Variables (p : Z) (B : gset Z).
Implicit Types (s : st) (v : bview) (c : ctx) (ip : nat) (l : list Z).

(** The loop over the entries of the indirect block. *)
Lemma itrunc_indirect_wp n j bp d s v c (Q : unit -> ctx -> st -> Prop) :
  let sb := fsb s in let l := nz (get_addrs d (4 * j) n) in
  frel p s v -> fs_ok sb v -> has_bmap sb B -> room B 0 v -> opens_ok sb v ->
  (exists b, vopen v !! bp = Some b /\ vdata v b = d /\ b ∉ l) ->
  held c = [] -> mypid c = p -> NoDup l ->
  (forall a, a ∈ l -> is_data sb a /\ used sb v a = true /\ forall i, vopen v !! i <> Some a) ->
  (forall c' t v', same_thread c c' -> frel p (set_fbuf t s) v' -> freed sb B v l v' ->
     Q tt c' (set_fbuf t s)) ->
  wp (itrunc_indirect n j 1 bp) c s Q.
Proof.
  revert j s v c Q. induction n as [|n IH];
    intros j s v c Q sb l Hr Hok HB Hrm Ho (bd & Hbp & Hd & Hbd) Hc Hp Hnd Hl HQ; cbn [itrunc_indirect].
  { wp_step. specialize (HQ c (fbuf s) v (same_thread_refl c)). destruct s. apply HQ; [done|].
    by apply freed_nil. }
  do 2 wp_step. rewrite (bc_data_law p _ v bp bd Hr Hbp), Hd.
  assert (El : l = nz (get32 d (4 * j) :: get_addrs d (4 * (j + 1)) n)).
  { unfold l. cbn [get_addrs]. by replace (4 * j + 4) with (4 * (j + 1)) by lia. }
  rewrite nz_cons in El. set (a := get32 d (4 * j)) in *. set (l' := nz (get_addrs d (4 * (j + 1)) n)) in *.
  wp_step. destruct (Z.eqb_spec a 0) as [E|E]; cbn [negb]; (wp_step; try done).
  - rewrite decide_False in El by naive_solver. rewrite El in *.
    apply (IH (j + 1) s v); try done. by exists bd.
  - rewrite decide_True in El by done. rewrite El in *. apply NoDup_cons in Hnd as [Hna Hnd].
    destruct (Hl a) as (Hda & Hua & Hoa); [constructor|].
    assert (Hra : 0 <= a < sb_size sb) by (by apply (used_bound sb v); [apply Hok|]).
    apply (bfree_wp p B a _ v); try done.
    intros c1 t1 Hth1 Hr1. fold sb in Hr1. pose proof (freed_one sb B v a HB Hok Hda) as Fa.
    assert (Hbmd : ~ is_bmap sb bd).
    { destruct (oo_data _ _ Ho _ _ Hbp) as [Hdb _]. unfold is_bmap, is_data in *. lia. }
    apply (IH (j + 1) _ (v_free sb a v)); try done.
    + apply Fa.
    + by apply Fa.
    + eapply freed_opens; [exact Fa|done|]. intros i b Hi Hb. apply list_elem_of_singleton in Hb as ->.
      by apply (Hoa i).
    + exists bd. split; [done|]. split; [by rewrite (fr_data _ _ _ _ _ Fa)|]. set_solver.
    + by rewrite (st_held _ _ Hth1).
    + by rewrite (st_pid _ _ Hth1).
    + intros x Hx. destruct (Hl x) as (Hdx & Hux & Hox); [by constructor|]. split; [done|]. split; [|done].
      rewrite (fr_used _ _ _ _ _ Fa) by by apply (used_bound sb v); [apply Hok|].
      cbn [fsb set_fbuf]. fold sb. rewrite Hux, bool_decide_false; [done|].
      intros ->%list_elem_of_singleton. done.
    + intros c' t v' Hth' Hr' F'. rewrite set_fbuf_set in *.
      apply (HQ c' t v'); [eauto using same_thread_trans|done|]. cbn [fsb set_fbuf] in F'.
      change (a :: l') with ([a] ++ l'). by eapply freed_app.
Qed.

(** The loop over the direct slots. *)
Definition zeroed (n k : nat) (l : list Z) : list Z := take k l ++ replicate n 0 ++ drop (k + n) l.

Lemma zeroed_step n k (l : list Z) : (k + S n <= length l)%nat ->
  zeroed n (S k) (<[k := 0]> l) = zeroed (S n) k l.
Proof.
  intros Hl. unfold zeroed. rewrite insert_take_drop by lia.
  assert (Ht : length (take k l) = k) by (rewrite length_take; lia).
  rewrite take_app_ge by lia. rewrite Ht. replace (S k - k)%nat with 1%nat by lia. cbn [take].
  rewrite drop_app_ge by lia. rewrite Ht. replace (S k + n - k)%nat with (S n) by lia. cbn [drop replicate].
  rewrite drop_drop. rewrite <- app_assoc. cbn. rewrite take_0. cbn.
  by replace (k + S n)%nat with (S (k + n)) by lia.
Qed.

Lemma itrunc_direct_wp n k ip s v c (Q : unit -> ctx -> st -> Prop) :
  let sb := fsb s in let i := icache s ip in
  let l := nz (take n (drop k (iaddrs i))) in
  frel p s v -> fs_ok sb v -> has_bmap sb B -> room B 0 v -> opens_ok sb v -> vopen v = ∅ ->
  held c = [] -> mypid c = p -> idev i = 1 -> (k + n <= length (iaddrs i))%nat -> NoDup l ->
  (forall a, a ∈ l -> is_data sb a /\ used sb v a = true) ->
  (forall c' s' v', same_thread c c' -> frel p s' v' -> freed sb B v l v' ->
     only_inode ip (with_addrs (zeroed n k (iaddrs i)) i) s s' -> Q tt c' s') ->
  wp (itrunc_direct n (Z.of_nat k) ip) c s Q.
Proof.
  revert k s v c Q. induction n as [|n IH];
    intros k s v c Q sb i l Hr Hok HB Hrm Ho Hop Hc Hp Hdev Hlen Hnd Hl HQ; cbn [itrunc_direct].
  { wp_step. apply (HQ c s v); [done|done|by apply freed_nil|].
    constructor; [done| |done]. unfold zeroed. cbn [replicate app]. rewrite Nat.add_0_r, take_drop.
    fold i. by destruct i. }
  destruct (lookup_lt_is_Some_2 (iaddrs i) k) as [a Ha]; [lia|].
  assert (Ea : iaddr i (Z.of_nat k) = a) by (unfold iaddr; by rewrite Nat2Z.id, nth_lookup, Ha).
  assert (El : l = nz (a :: take n (drop (S k) (iaddrs i)))).
  { unfold l. by rewrite (drop_S _ a k Ha). }
  rewrite nz_cons in El. set (l' := nz (take n (drop (S k) (iaddrs i)))) in *.
  do 2 wp_step. unfold id. fold i. rewrite Ea, Hdev. replace (Z.of_nat k + 1) with (Z.of_nat (S k)) by lia.
  wp_step. destruct (Z.eqb_spec a 0) as [E|E]; cbn [negb]; (wp_step; try done).
  - rewrite decide_False in El by naive_solver. rewrite El in *.
    apply (IH (S k) s v); try done; [fold i; lia|]. fold sb i l'.
    intros c' s' v' Hth' Hr' F' Hoi'. apply (HQ c' s' v'); try done.
    replace (zeroed (S n) k (iaddrs i)) with (zeroed n (S k) (iaddrs i)); [done|].
    rewrite <- zeroed_step by lia. f_equal. symmetry. apply list_insert_id. congruence.
  - rewrite decide_True in El by done. rewrite El in *. apply NoDup_cons in Hnd as [Hna Hnd].
    destruct (Hl a) as (Hda & Hua); [constructor|].
    assert (Hra : 0 <= a < sb_size sb) by (by apply (used_bound sb v); [apply Hok|]).
    wp_step. apply (bfree_wp p B a _ v); try done.
    intros c1 t1 Hth1 Hr1. fold sb in Hr1. pose proof (freed_one sb B v a HB Hok Hda) as Fa. wp_step.
    set (s1 := upd_inode ip _ _).
    assert (E1 : icache s1 ip = with_addrs (<[k := 0]> (iaddrs i)) i).
    { unfold s1. rewrite upd_inode_same. cbn [icache set_fbuf]. fold i. unfold set_iaddr. by rewrite Nat2Z.id. }
    assert (El' : nz (take n (drop (S k) (<[k := 0]> (iaddrs i)))) = l').
    { unfold l'. rewrite drop_insert_lt by lia. done. }
    apply (IH (S k) s1 (v_free sb a v)); rewrite ?E1; cbn [iaddrs with_addrs idev]; rewrite ?El'; try done.
    + apply Fa.
    + by apply Fa.
    + eapply freed_opens; [exact Fa|done|]. intros j b. by rewrite Hop, lookup_empty.
    + by rewrite (st_held _ _ Hth1).
    + by rewrite (st_pid _ _ Hth1).
    + rewrite length_insert. lia.
    + intros x Hx. destruct (Hl x) as (Hdx & Hux); [by constructor|]. split; [done|].
      change (fsb s1) with sb. rewrite (fr_used _ _ _ _ _ Fa) by by apply (used_bound sb v); [apply Hok|].
      rewrite Hux, bool_decide_false; [done|]. intros ->%list_elem_of_singleton. done.
    + intros c' s' v' Hth' Hr' F' Hoi'. apply (HQ c' s' v'); try done.
      * eauto using same_thread_trans.
      * change (a :: l') with ([a] ++ l'). by eapply freed_app.
      * rewrite zeroed_step in Hoi' by lia. destruct Hoi' as [O1 O2 O3]. constructor; [done|exact O2|].
        intros ip' Hne. rewrite O3 by done. unfold s1. by rewrite upd_inode_ne.
Qed.

(** The inode after [itrunc], and what it frees. *)
Definition emptied (i : inode) : inode := set_isize 0 (with_addrs (replicate 13 0) i).

Lemma iblocks_split v i : length (iaddrs i) = 13%nat ->
  iblocks v i = nz (take 12 (iaddrs i)) ++ nz [ind i] ++ nz (ind_addrs v i).
Proof.
  intros Hl. unfold iblocks, all_addrs. fold (nz (iaddrs i ++ ind_addrs v i)).
  rewrite nz_app, <- (take_drop 12 (iaddrs i)) at 1. rewrite nz_app, <- app_assoc. f_equal. f_equal.
  assert (H12 : iaddrs i !! 12%nat = Some (ind i)) by (apply (iaddr_lookup i 12); [done|lia]).
  rewrite (drop_S _ _ _ H12). by rewrite drop_ge by lia.
Qed.

(** The blocks in the order [itrunc] frees them. *)
Definition trunc_list (v : bview) (i : inode) : list Z :=
  nz (take 12 (iaddrs i)) ++ nz (ind_addrs v i) ++ nz [ind i].

Lemma trunc_list_perm v i : length (iaddrs i) = 13%nat -> trunc_list v i ≡ₚ iblocks v i.
Proof. intros Hl. rewrite (iblocks_split v i Hl). unfold trunc_list. by rewrite (Permutation_app_comm (nz [ind i])). Qed.

(** The middle of [itrunc]: the indirect block. *)
Lemma itrunc_ind_wp ip s v c (Q : unit -> ctx -> st -> Prop) :
  let sb := fsb s in let i := icache s ip in
  let l := nz (ind_addrs v i) ++ nz [ind i] in
  frel p s v -> fs_ok sb v -> has_bmap sb B -> room B 0 v -> quiet v ->
  held c = [] -> mypid c = p -> idev i = 1 -> length (iaddrs i) = 13%nat -> NoDup l ->
  (forall a, a ∈ l -> is_data sb a /\ used sb v a = true) ->
  (forall c' s' v', same_thread c c' -> frel p s' v' -> freed sb B v l v' ->
     only_inode ip (set_iaddr NDIRECT 0 i) s s' -> Q tt c' s') ->
  wp (x ← geti ip id;
      when (negb (iaddr x NDIRECT =? 0)) (
        bp ← bread (idev x) (iaddr x NDIRECT);
        itrunc_indirect (Z.to_nat NINDIRECT) 0 (idev x) bp;;
        brelse bp;;
        bfree (idev x) (iaddr x NDIRECT);;
        seti ip (set_iaddr NDIRECT 0))) c s Q.
Proof.
  intros sb i l Hr Hok HB Hrm Hq Hc Hp Hdev Hlen Hnd Hl HQ. do 2 wp_step. unfold id. fold i. fold (ind i).
  destruct (Z.eqb_spec (ind i) 0) as [E|E]; cbn [negb]; (wp_step; try done).
  { apply (HQ c s v); try done.
    - unfold l, ind_addrs, nz. rewrite E. by apply freed_nil.
    - constructor; [done| |done]. fold i. unfold set_iaddr.
      rewrite list_insert_id; [by destruct i|]. rewrite <- E.
      apply (iaddr_lookup i NDIRECT); [done|unfold NDIRECT; lia]. }
  assert (Eia : ind_addrs v i = get_addrs (vdata v (ind i)) 0 128).
  { unfold ind_addrs. by rewrite (proj2 (Z.eqb_neq _ 0)). }
  assert (Enz : nz [ind i] = [ind i]) by (rewrite nz_cons, decide_True by done; done).
  unfold l in Hnd, Hl, HQ. rewrite Enz in Hnd, Hl, HQ. clear l. set (l := nz (ind_addrs v i)) in *.
  apply NoDup_app in Hnd as (Hnd & Hdis & _).
  assert (Hil : ind i ∉ l) by (intros Hx; apply (Hdis _ Hx); constructor).
  destruct (Hl (ind i)) as [Hdi Hui]; [apply elem_of_app; right; constructor|]. rewrite Hdev.
  pose proof (quiet_opens sb v Hq) as Hops. destruct (Hq) as [Hq1 Hq2].
  wp_step. apply (wp_bread p _ _ v); try done.
  { apply (data_home sb); [apply Hok|done]. } { by apply quiet_not_open. } { by eapply opens_room. }
  intros bp c1 t1 Hth1 Hbp Hr1 Hd1. wp_step.
  assert (Hopen : vopen (v_open bp (ind i) v) = {[bp := ind i]}).
  { cbn. by rewrite Hq1, insert_empty. }
  assert (El : nz (get_addrs (vdata v (ind i)) (4 * 0) (Z.to_nat NINDIRECT)) = l).
  { unfold l. by rewrite Eia. }
  apply (itrunc_indirect_wp _ 0 bp (vdata v (ind i)) _ (v_open bp (ind i) v)); rewrite ?El; try done.
  - by apply fs_ok_open.
  - by apply room_open.
  - constructor; [rewrite Hopen, map_size_singleton; lia| |done].
    rewrite Hopen. intros x b [<- <-]%lookup_singleton_Some. done.
  - exists (ind i). split; [cbn; apply lookup_insert_eq|]. split; [done|]. done.
  - by rewrite (st_held _ _ Hth1).
  - by rewrite (st_pid _ _ Hth1).
  - intros a Ha.
    destruct (Hl a) as [Hda Hua]; [apply elem_of_app; by left|]. split; [done|]. split; [done|]. intros j.
    rewrite Hopen. intros [_ Ej]%lookup_singleton_Some. apply Hil. by rewrite Ej.
  - intros c2 t2 v2 Hth2 Hr2 F2. rewrite set_fbuf_set in *. cbn [fsb set_fbuf] in F2. fold sb in F2.
    apply freed_close in F2 as [Hb2 F2]; [|done].
    assert (Hc2 : held c2 = []) by (by rewrite (st_held _ _ Hth2), (st_held _ _ Hth1)).
    assert (Hp2 : mypid c2 = p) by (by rewrite (st_pid _ _ Hth2), (st_pid _ _ Hth1)).
    rewrite <- (v_open_close bp (ind i) v2 Hb2) in Hr2. set (v3 := v_close bp v2) in *.
    assert (Hq3 : quiet v3) by (split; [by rewrite (fr_open _ _ _ _ _ F2)|by rewrite (fr_unlogged _ _ _ _ _ F2)]).
    wp_step. apply (wp_brelse_read p bp (ind i) _ v3); try done.
    { by rewrite (proj1 Hq3), lookup_empty. } { by rewrite (proj2 Hq3). }
    intros c3 t3 Hth3 Hr3. rewrite set_fbuf_set in *. wp_step.
    assert (Hir : 0 <= ind i < sb_size sb) by (by apply (used_bound sb v); [apply Hok|]).
    apply (bfree_wp p B (ind i) _ v3); try done.
    + apply F2.
    + by apply quiet_opens.
    + by apply F2.
    + by rewrite (st_held _ _ Hth3).
    + by rewrite (st_pid _ _ Hth3).
    + cbn [fsb set_fbuf]. fold sb. rewrite (fr_used _ _ _ _ _ F2), Hui, bool_decide_false by done. done.
    + intros c4 t4 Hth4 Hr4. rewrite set_fbuf_set in *. wp_step.
      apply (HQ c4 _ (v_free sb (ind i) v3)); [eauto 6 using same_thread_trans|exact Hr4| |].
      * eapply freed_app; [exact F2|]. apply freed_one; [done|apply F2|done].
      * constructor; [done|by rewrite upd_inode_same|]. intros. by rewrite upd_inode_ne.
Qed.

(** [v'] is [v] with the blocks of [i] freed and the inode [i'] in its place. *)
Record truncated (sb : superblock) (i i' : inode) (v v' : bview) : Prop := {
  tr_fs : fs_ok sb v';
  tr_quiet : quiet v';
  tr_used : forall b, 0 <= b < sb_size sb ->
    used sb v' b = used sb v b && negb (bool_decide (b ∈ iblocks v i));
  tr_data : forall b, ~ is_bmap sb b -> b <> IBLOCK (inum i) sb -> vdata v' b = vdata v b;
  tr_sync : dinode_of sb v' (inum i) = with_disk i' inode0;
  tr_others : forall n, 0 <= n < sb_ninodes sb -> n <> inum i -> dinode_of sb v' n = dinode_of sb v n
}.

Lemma emptied_range i : irange i -> irange (emptied i).
Proof.
  intros [R1 R2 R3 R4 R5 R6 R7]. constructor; cbn [emptied set_isize with_addrs itype imajor iminor inlink isize iaddrs];
    try done. by apply Forall_replicate.
Qed.

Lemma freed_truncated sb i v l v1 : freed sb B v l v1 -> l ≡ₚ iblocks v i -> fs_ok sb v -> quiet v ->
  on_disk sb i -> irange i -> truncated sb i (emptied i) v (v_iupd sb (emptied i) v1).
Proof.
  intros [F1 F2 F3 F4 F5 F6] Hp Hok [Hq1 Hq2] [Hdev Hn] Hrg.
  assert (Hnm : inum (emptied i) = inum i) by done.
  assert (Hr2 : irange (emptied i)) by by apply emptied_range.
  constructor.
  - by apply fs_ok_iupd.
  - split; cbn; congruence.
  - intros b Hb. unfold v_iupd. rewrite used_upd_meta; [|by apply (iblock_home sb v (inum i) (fo_sb _ _ Hok) Hn)|done].
    rewrite F2 by done. do 2 f_equal. apply bool_decide_ext. by rewrite Hp.
  - intros b Hb Hne. unfold v_iupd. rewrite Hnm. cbn [vdata v_upd]. rewrite fn_lookup_insert_ne by congruence.
    by apply F3.
  - rewrite <- Hnm at 1. rewrite dinode_of_iupd by (done || (rewrite Hnm; lia)). by rewrite Z.eqb_refl.
  - intros n Hn' Hne. rewrite dinode_of_iupd by (done || lia). rewrite Hnm, (proj2 (Z.eqb_neq _ _)) by done.
    destruct (iblock_home sb v n (fo_sb _ _ Hok) Hn') as [_ Hlt]. unfold dinode_of. rewrite F3; [done|].
    unfold is_bmap. lia.
Qed.

Lemma itrunc_wp k ip s v c (Q : unit -> ctx -> st -> Prop) :
  let sb := fsb s in let i := icache s ip in
  frel p s v -> fs_ok sb v -> has_bmap sb B -> room B (k + 1) v -> 0 <= k -> quiet v ->
  held c = [] -> mypid c = p -> on_disk sb i -> irange i -> inode_ok sb v i ->
  (forall c' s' v', same_thread c c' -> frel p s' v' -> truncated sb i (emptied i) v v' -> room B k v' ->
     only_inode ip (emptied i) s s' -> Q tt c' s') ->
  wp (itrunc ip) c s Q.
Proof.
  intros sb i Hr Hok HB Hrm Hk Hq Hc Hp Hod Hrg Hio HQ. pose proof (io_len _ _ _ Hio) as Hlen.
  pose proof (trunc_list_perm v i Hlen) as Hperm.
  assert (Hnd : NoDup (trunc_list v i)) by (rewrite Hperm; apply Hio).
  assert (Hall : forall a, a ∈ trunc_list v i -> is_data sb a /\ used sb v a = true).
  { intros a. rewrite Hperm. apply Hio. }
  unfold trunc_list in Hnd, Hall. apply NoDup_app in Hnd as (Hnd1 & Hdis & Hnd2).
  assert (Hrm0 : room B 0 v) by (eapply room_less; [exact Hrm|lia]).
  unfold itrunc. wp_step. change 0 with (Z.of_nat 0) at 1.
  apply (itrunc_direct_wp 12 0 ip s v); try done.
  - by apply quiet_opens.
  - apply Hq.
  - apply Hod.
  - fold i. lia.
  - intros a Ha. apply Hall, elem_of_app. by left.
  - fold i sb. intros c1 s1 v1 Hth1 Hr1 F1 [O1 O2 O3]. cbn [drop] in F1.
    set (i1 := with_addrs (zeroed 12 0 (iaddrs i)) i) in *.
    assert (Hz : zeroed 12 0 (iaddrs i) = replicate 12 0 ++ [ind i]).
    { unfold zeroed. rewrite take_0, app_nil_l. change (0 + 12)%nat with 12%nat. f_equal.
      assert (H12 : iaddrs i !! 12%nat = Some (ind i)) by (apply (iaddr_lookup i 12); [done|lia]).
      rewrite (drop_S _ _ _ H12). by rewrite drop_ge by lia. }
    assert (Ei1 : ind i1 = ind i) by (unfold ind, iaddr, i1; cbn [iaddrs with_addrs]; by rewrite Hz).
    assert (Eia : ind_addrs v1 i1 = ind_addrs v i).
    { rewrite (ind_addrs_eq _ i i1 Ei1). destruct (decide (ind i = 0)) as [E|E].
      - unfold ind_addrs. by rewrite E.
      - apply ind_addrs_keep, F1. destruct (io_data _ _ _ Hio (ind i)) as [Hd _]; [by apply ind_in|].
        unfold is_bmap, is_data in *. lia. }
    assert (Hq1 : quiet v1).
    { split; [rewrite (fr_open _ _ _ _ _ F1)|rewrite (fr_unlogged _ _ _ _ _ F1)]; apply Hq. }
    apply wp_bind_assoc. change (wp (geti ip id ≫= fun x => when (negb (iaddr x NDIRECT =? 0))
      (bp ← bread (idev x) (iaddr x NDIRECT);
        itrunc_indirect (Z.to_nat NINDIRECT) 0 (idev x) bp;; brelse bp;;
        bfree (idev x) (iaddr x NDIRECT);; seti ip (set_iaddr NDIRECT 0))) c1 s1
      (fun _ c' s' => wp (seti ip (set_isize 0);; iupdate ip) c' s' Q)).
    apply (itrunc_ind_wp ip s1 v1); rewrite ?O1, ?O2, ?Ei1, ?Eia; try done.
    + apply F1.
    + by apply F1.
    + by rewrite (st_held _ _ Hth1).
    + by rewrite (st_pid _ _ Hth1).
    + apply Hod.
    + unfold i1. cbn [iaddrs with_addrs]. by rewrite Hz.
    + intros a Ha. destruct (Hall a) as [Hd Hu]; [apply elem_of_app; by right|]. split; [done|].
      rewrite (fr_used _ _ _ _ _ F1) by by apply (used_bound sb v); [apply Hok|].
      rewrite Hu, bool_decide_false; [done|]. intros Hin. by apply (Hdis a).
    + intros c2 s2 v2 Hth2 Hr2 F2 [P1 P2 P3]. pose proof (freed_app _ _ _ _ _ _ _ F1 F2) as F12.
      do 2 wp_step. set (s3 := upd_inode ip (set_isize 0) s2).
      assert (E3 : icache s3 ip = emptied i).
      { unfold s3. rewrite upd_inode_same, P2. unfold emptied, set_iaddr, set_isize, i1.
        cbn [iaddrs with_addrs idev inum iref islp ivalid itype imajor iminor inlink]. rewrite Hz. done. }
      assert (Esb : fsb s3 = sb) by (change (fsb s3) with (fsb s2); by rewrite P1, O1).
      apply (iupdate_wp p B (k + 1) ip s3 v2); rewrite ?E3, ?Esb; try done.
      * apply F2.
      * apply quiet_opens. destruct Hq as [Hqa Hqb].
        split; [rewrite (fr_open _ _ _ _ _ F12)|rewrite (fr_unlogged _ _ _ _ _ F12)]; done.
      * by apply F12.
      * by rewrite (st_held _ _ Hth2), (st_held _ _ Hth1).
      * by rewrite (st_pid _ _ Hth2), (st_pid _ _ Hth1).
      * intros c4 t4 Hth4 Hr4. apply (HQ c4 _ (v_iupd sb (emptied i) v2)); [eauto using same_thread_trans|exact Hr4| | |].
        -- by eapply freed_truncated.
        -- apply room_new; [by apply F12|done].
        -- constructor; [done|exact E3|]. intros ip' Hne. cbn [icache set_fbuf]. unfold s3.
           rewrite upd_inode_ne by done. rewrite P3 by done. by apply O3.
Qed.

Lemma truncated_iupd sb i j j' v v' : truncated sb i j v v' -> on_disk sb i -> inum j' = inum i ->
  irange j' -> truncated sb i j' v (v_iupd sb j' v').
Proof.
  intros [F1 F2 F3 F4 F5 F6] [Hdev Hn] Ej Hrg. destruct F2 as [Hq1 Hq2].
  constructor.
  - apply fs_ok_iupd; [done|by rewrite Ej].
  - split; cbn; congruence.
  - intros b Hb. unfold v_iupd. rewrite Ej, used_upd_meta; [by apply F3| |done].
    by apply (iblock_home sb v' (inum i) (fo_sb _ _ F1) Hn).
  - intros b Hb Hne. unfold v_iupd. rewrite Ej. cbn [vdata v_upd]. rewrite fn_lookup_insert_ne by congruence.
    by apply F4.
  - rewrite dinode_of_iupd by (done || rewrite ?Ej; lia). by rewrite Ej, Z.eqb_refl.
  - intros n Hn' Hne. rewrite dinode_of_iupd by (done || rewrite ?Ej; lia).
    rewrite Ej, (proj2 (Z.eqb_neq _ _)) by done. by apply F6.
Qed.

(** The end of [iput], which gives up the reference. *)
Lemma iput_tail_wp ip s c (Q : unit -> ctx -> st -> Prop) :
  held c = [] ->
  (forall c' s', same_thread c c' -> fbuf s' = fbuf s ->
     only_inode ip (set_iref (iref (icache s ip) - 1) (set_islp initsleeplock (icache s ip))) s s' ->
     Q tt c' s') ->
  wp (inode_releasesleep ip;; acquire Licache;;
      seti ip (fun x => set_iref (iref x - 1) x);; release Licache) c s Q.
Proof.
  intros Hc HQ. wp_step. apply releasesleep_wp; [rewrite Hc; apply not_elem_of_nil|rewrite Hc; apply not_elem_of_nil|done|].
  wp_step. apply wp_acquire; [cbn; rewrite Hc; apply not_elem_of_nil|]. do 2 wp_step. wp_step. apply HQ; [|done|].
  - by constructor.
  - constructor; [done| |].
    + rewrite upd_inode_same. by rewrite upd_inode_same.
    + intros ip' Hne. by rewrite !upd_inode_ne.
Qed.

(** A reference that is not the last to an unlinked inode. *)
Lemma iput_keep_wp ip s c (Q : unit -> ctx -> st -> Prop) :
  let i := icache s ip in
  held c = [] -> locked (islp i) = false -> ~ (ivalid i = true /\ inlink i = 0 /\ iref i = 1) ->
  (forall c' s', same_thread c c' -> fbuf s' = fbuf s ->
     only_inode ip (set_iref (iref i - 1) (set_islp initsleeplock i)) s s' -> Q tt c' s') ->
  wp (iput ip) c s Q.
Proof.
  intros i Hc Hl Hk HQ. unfold iput. wp_step.
  apply acquiresleep_wp; [done|rewrite Hc; apply not_elem_of_nil|].
  set (s1 := upd_inode ip _ s).
  assert (E1 : icache s1 ip = set_islp (Sleeplock true (mypid c)) i) by apply upd_inode_same.
  assert (Htail : forall c1, same_thread c c1 ->
    wp (inode_releasesleep ip;; acquire Licache;;
        seti ip (fun x => set_iref (iref x - 1) x);; release Licache) c1 s1 Q).
  { intros c1 Hth. apply iput_tail_wp; [by rewrite (st_held _ _ Hth)|].
    intros c' s' Hth' Hf' [O1 O2 O3]. apply HQ; [eauto using same_thread_trans|done|].
    constructor; [done|by rewrite O2, E1|]. intros ip' Hne. rewrite O3 by done. by apply upd_inode_ne. }
  do 2 wp_step. unfold id. rewrite E1. cbn [ivalid inlink set_islp]. wp_step. wp_step.
  - wp_step. apply wp_acquire; [rewrite Hc; apply not_elem_of_nil|]. do 2 wp_step. rewrite E1. cbn [iref set_islp]. do 2 wp_step.
    wp_step; [|by apply Htail; destruct c]. exfalso. apply Hk.
    match goal with H : _ && _ = true |- _ => apply andb_true_iff in H as [? ?%Z.eqb_eq] end.
    match goal with H : (_ =? 1) = true |- _ => apply Z.eqb_eq in H end. done.
  - by apply Htail.
Qed.

(** The last reference to an unlinked inode frees the inode and its blocks. *)
Lemma iput_free_wp ip s v c (Q : unit -> ctx -> st -> Prop) :
  let sb := fsb s in let i := icache s ip in
  frel p s v -> fs_ok sb v -> has_bmap sb B -> room B 2 v -> quiet v ->
  held c = [] -> mypid c = p -> on_disk sb i -> irange i -> inode_ok sb v i ->
  locked (islp i) = false -> ivalid i = true -> inlink i = 0 -> iref i = 1 ->
  (forall c' s' v' i', same_thread c c' -> frel p s' v' ->
     truncated sb i (set_itype 0 (emptied i)) v v' -> room B 0 v' ->
     only_inode ip i' s s' -> iref i' = 0 -> ivalid i' = false -> islp i' = initsleeplock -> Q tt c' s') ->
  wp (iput ip) c s Q.
Proof.
  intros sb i Hr Hok HB Hrm Hq Hc Hp Hod Hrg Hio Hl Hva Hnl Href HQ. unfold iput. wp_step.
  apply acquiresleep_wp; [done|rewrite Hc; apply not_elem_of_nil|].
  set (s1 := upd_inode ip _ s). set (i1 := set_islp (Sleeplock true (mypid c)) i).
  assert (E1 : icache s1 ip = i1) by apply upd_inode_same.
  do 2 wp_step. unfold id. rewrite E1. change (ivalid i1) with (ivalid i). change (inlink i1) with (inlink i).
  rewrite Hva, Hnl. wp_step. apply wp_when; [intros _|done].
  wp_step. apply wp_acquire; [rewrite Hc; apply not_elem_of_nil|]. do 2 wp_step. rewrite E1. change (iref i1) with (iref i).
  do 2 wp_step. apply wp_when; [intros _|by rewrite Href].
  replace (set_held (held c) (set_held (Licache :: held c) c)) with c by by destruct c.
  wp_step. apply (itrunc_wp 1 ip s1 v); rewrite ?E1; try done;
    [by destruct Hrg|by destruct Hio|].
  intros c2 s2 v2 Hth2 Hr2 F2' Hrm2 [O1 O2 O3]. do 2 wp_step.
  assert (F2 : truncated sb i (emptied i) v v2) by (destruct F2'; by constructor).
  set (s3 := upd_inode ip (set_itype 0) s2).
  assert (E3 : icache s3 ip = set_itype 0 (emptied i1)) by (unfold s3; by rewrite upd_inode_same, O2).
  assert (Esb : fsb s3 = sb) by (change (fsb s3) with (fsb s2); by rewrite O1).
  assert (Hrg3 : irange (set_itype 0 (emptied i))).
  { destruct (emptied_range i Hrg). by constructor. }
  wp_step. apply (iupdate_wp p B 1 ip s3 v2); rewrite ?E3, ?Esb; try done.
  - apply F2.
  - apply quiet_opens, F2.
  - rewrite (st_held _ _ Hth2). done.
  - rewrite (st_pid _ _ Hth2). done.
  - intros c4 t4 Hth4 Hr4. wp_step. apply iput_tail_wp.
    { rewrite (st_held _ _ Hth4), (st_held _ _ Hth2). done. }
    intros c5 s5 Hth5 Hf5 [P1 P2 P3].
    apply (HQ c5 s5 (v_iupd sb (set_itype 0 (emptied i)) v2) (icache s5 ip)).
    + eapply same_thread_trans; [|exact Hth5]. eapply same_thread_trans; [|exact Hth4].
      eapply same_thread_trans; [|exact Hth2]. by constructor.
    + unfold frel. rewrite Hf5. exact Hr4.
    + eapply truncated_iupd; [exact F2|done|done|done].
    + by apply room_new.
    + constructor; [by rewrite P1|done|]. intros ip' Hne. rewrite P3 by done. rewrite upd_inode_ne by done.
      cbn [icache set_fbuf]. unfold s3. rewrite upd_inode_ne by done. rewrite O3 by done. by apply upd_inode_ne.
    + rewrite P2. rewrite upd_inode_same. cbn [icache set_fbuf]. rewrite E3. cbn. lia.
    + rewrite P2. rewrite upd_inode_same. done.
    + rewrite P2. done.
Qed.
End trunc.
