(* ===== verification/FsDir.v ===== *)
(** * Directories (fs.c): dirlookup, dirlink, and path elements
    A directory's bytes are read as a list of slots, each an inode number and
    a name; [dirlookup] is a search of that list and [dirlink] fills a slot. *)
From stdpp Require Import functions.
From S2P Require Import Prelude CString Mmu Block Sleeplock Log Buffers Fs FsBlocks FsInode FsFile FsRw FsTrunc.
#[local] Set Default Proof Using "Type".

(** * Names *)

(** The name in a buffer of [n] bytes: what comes before the first NUL. *)
Fixpoint cname (n : nat) (l : list Z) : list Z :=
  match n, l with
  | S n', c :: l' => if c =? 0 then [] else c :: cname n' l'
  | _, _ => []
  end.
Definition dname (l : list Z) : list Z := cname DIRSIZ l.

Section names.
Implicit Types (s t l : list Z) (n : nat).

Lemma cname_unfold n l : cname (S n) l = if hd 0 l =? 0 then [] else hd 0 l :: cname n (tl l).
Proof. by destruct l. Qed.

Lemma strncmp_cname n : forall s t, strncmp_l n s t = 0 <-> cname n s = cname n t.
Proof.
  induction n as [|n IH]; intros s t; [done|]. rewrite !cname_unfold. cbn [strncmp_l].
  destruct (Z.eqb_spec (hd 0 s) 0) as [E|E], (Z.eqb_spec (hd 0 t) 0) as [F|F]; cbn [negb andb].
  - rewrite E, F. done.
  - split; [lia|done].
  - destruct (Z.eqb_spec (hd 0 s) (hd 0 t)); [congruence|]. split; [lia|done].
  - destruct (Z.eqb_spec (hd 0 s) (hd 0 t)) as [G|G].
    + rewrite G, IH. split; congruence.
    + split; [lia|]. congruence.
Qed.

(** [namecmp] decides equality of names. *)
Lemma namecmp_dname s t : namecmp s t = 0 <-> dname s = dname t.
Proof. apply strncmp_cname. Qed.

Lemma length_strncpy n : forall t, length (strncpy_l n t) = n.
Proof.
  induction n as [|n IH]; intros t; [done|]. cbn [strncpy_l].
  destruct (hd 0 t =? 0); [by rewrite length_replicate|]. cbn. by rewrite IH.
Qed.

Lemma cname_zeros n m : cname n (replicate m 0) = [].
Proof. by destruct n, m. Qed.

Lemma cname_strncpy n : forall t, cname n (strncpy_l n t) = cname n t.
Proof.
  induction n as [|n IH]; intros t; [done|]. rewrite (cname_unfold n t). cbn [strncpy_l].
  destruct (hd 0 t =? 0) eqn:E; [apply cname_zeros|]. cbn [cname]. by rewrite E, IH.
Qed.

Lemma strncpy_u8 n : forall t, Forall is_u8 t -> Forall is_u8 (strncpy_l n t).
Proof.
  induction n as [|n IH]; intros t Ht; [done|]. cbn [strncpy_l].
  destruct (hd 0 t =? 0); [by apply Forall_replicate|].
  destruct Ht; cbn [hd tl]; constructor; try done; by apply IH.
Qed.
End names.

(** * Slots *)

(** A slot of a directory: its inode number, 0 when it is free, and its name. *)
Definition dent (e : list Z) : Z * list Z := (de_inum e, dname (de_name e)).
Fixpoint chunks (n : nat) (l : list Z) : list (list Z) :=
  match n with O => [] | S n' => take 16 l :: chunks n' (drop 16 l) end.
Definition dents (l : list Z) : list (Z * list Z) := dent <$> chunks (length l / 16) l.

(** The abstract directory operations. *)
Definition dir_find (name : list Z) (es : list (Z * list Z)) : option (nat * (Z * list Z)) :=
  list_find (fun e => e.1 <> 0 /\ e.2 = name) es.
Definition dir_free (es : list (Z * list Z)) : nat :=
  match list_find (fun e => e.1 = 0) es with Some (k, _) => k | None => length es end.
Definition dir_set (k : nat) (e : Z * list Z) (es : list (Z * list Z)) : list (Z * list Z) :=
  take k es ++ e :: drop (S k) es.

Section slots.
Implicit Types (l : list Z) (es : list (Z * list Z)) (name : list Z).

Lemma length_chunks n l : length (chunks n l) = n.
Proof. revert l. induction n as [|n IH]; intros l; cbn; [done|]. by rewrite IH. Qed.

Lemma chunks_app a b l1 l2 : length l1 = (16 * a)%nat ->
  chunks (a + b) (l1 ++ l2) = chunks a l1 ++ chunks b l2.
Proof.
  revert l1. induction a as [|a IH]; intros l1 Hl.
  { by destruct l1. }
  cbn [chunks Nat.add app]. rewrite take_app_le, drop_app_le by lia. f_equal. apply IH.
  rewrite length_drop. lia.
Qed.

Lemma length_dents l : length (dents l) = (length l / 16)%nat.
Proof. unfold dents. by rewrite length_fmap, length_chunks. Qed.

Lemma dents_app l1 l2 k : length l1 = (16 * k)%nat -> dents (l1 ++ l2) = dents l1 ++ dents l2.
Proof.
  intros Hl. unfold dents. rewrite length_app, Hl.
  replace ((16 * k + length l2) / 16)%nat with (k + length l2 / 16)%nat
    by (rewrite (Nat.mul_comm 16 k), Nat.div_add_l; lia).
  rewrite chunks_app by done. rewrite fmap_app. f_equal. f_equal. f_equal.
  symmetry. rewrite Nat.mul_comm. by apply Nat.div_mul.
Qed.

Lemma dents_one e : length e = 16%nat -> dents e = [dent e].
Proof. intros He. unfold dents. rewrite He. cbn [Nat.div Nat.divmod fst chunks fmap list_fmap]. by rewrite take_ge by lia. Qed.

Lemma dents_take l k : (16 * k <= length l)%nat -> dents (take (16 * k) l) = take k (dents l).
Proof.
  intros Hk. rewrite <- (take_drop (16 * k) l) at 2.
  assert (Hl : length (take (16 * k) l) = (16 * k)%nat) by (rewrite length_take; lia).
  rewrite (dents_app _ _ k) by done. rewrite take_app_length'; [done|].
  rewrite length_dents, Hl, Nat.mul_comm. symmetry. by apply Nat.div_mul.
Qed.

Lemma dents_drop l k : (16 * k <= length l)%nat -> dents (drop (16 * k) l) = drop k (dents l).
Proof.
  intros Hk. rewrite <- (take_drop (16 * k) l) at 2.
  assert (Hl : length (take (16 * k) l) = (16 * k)%nat) by (rewrite length_take; lia).
  rewrite (dents_app _ _ k) by done. rewrite drop_app_length'; [done|].
  rewrite length_dents, Hl, Nat.mul_comm. symmetry. by apply Nat.div_mul.
Qed.

Lemma dents_lookup l k : (16 * k + 16 <= length l)%nat ->
  dents l !! k = Some (dent (slice l (16 * Z.of_nat k) 16)).
Proof.
  intros Hk. assert (E : dents l !! k = dents (drop (16 * k) l) !! 0%nat).
  { rewrite dents_drop, lookup_drop by lia. by rewrite Nat.add_0_r. }
  rewrite E. rewrite <- (take_drop 16 (drop (16 * k) l)).
  assert (Hl : length (take 16 (drop (16 * k) l)) = 16%nat) by (rewrite length_take, length_drop; lia).
  rewrite (dents_app _ _ 1), dents_one by done. cbn. unfold slice.
  by replace (Z.to_nat (16 * Z.of_nat k)) with (16 * k)%nat by lia.
Qed.

(** Overwriting one slot. *)
Lemma dents_overwrite l k e : (16 * k <= length l)%nat -> (length l mod 16 = 0)%nat -> length e = 16%nat ->
  dents (overwrite l (16 * Z.of_nat k) e) = dir_set k (dent e) (dents l).
Proof.
  intros Hk Hm He. unfold overwrite, dir_set. replace (Z.to_nat (16 * Z.of_nat k)) with (16 * k)%nat by lia.
  rewrite (dents_app _ _ k) by (rewrite length_take; lia).
  rewrite (dents_app _ _ 1) by lia. rewrite dents_take, (dents_one e), He by done. cbn [app]. f_equal. f_equal.
  destruct (decide (16 * S k <= length l)%nat) as [H|H].
  - rewrite <- dents_drop by done. do 2 f_equal. lia.
  - rewrite !drop_ge; [done| |lia]. rewrite length_dents.
    apply Nat.Div0.div_exact in Hm. lia.
Qed.

Lemma mk_dirent_facts num name : 0 <= num < 65536 ->
  length (mk_dirent num name) = 16%nat /\ dent (mk_dirent num name) = (num, dname name).
Proof.
  intros Hn. split.
  - unfold mk_dirent. rewrite length_app, length_strncpy. done.
  - unfold dent, mk_dirent. f_equal; [|by apply cname_strncpy].
    unfold de_inum, get16, get8. change (u8 num + 256 * u8 (num / 256) = num). wrap_lia.
Qed.
End slots.

(** ** The abstract directory *)
Section adir.
Implicit Types (es : list (Z * list Z)) (name : list Z) (k : nat).

Lemma dir_free_bound es : (dir_free es <= length es)%nat.
Proof.
  unfold dir_free. destruct (list_find _ es) as [[k e]|] eqn:E; [|lia].
  apply list_find_Some in E as (H%lookup_lt_Some & _). lia.
Qed.

(** The slot [dirlink] fills is free. *)
Lemma dir_free_free es e : es !! dir_free es = Some e -> e.1 = 0.
Proof.
  unfold dir_free. destruct (list_find _ es) as [[k e']|] eqn:E; intros He.
  - apply list_find_Some in E as (H & H' & _). congruence.
  - apply lookup_lt_Some in He. lia.
Qed.

Lemma dir_set_lookup k e es j : (k <= length es)%nat ->
  dir_set k e es !! j = if decide (j = k) then Some e else es !! j.
Proof.
  intros Hk. unfold dir_set. assert (Ht : length (take k es) = k) by (rewrite length_take; lia).
  destruct (decide (j = k)) as [->|Hne].
  - rewrite lookup_app_r by lia. by rewrite Ht, Nat.sub_diag.
  - destruct (decide (j < k)%nat).
    + rewrite lookup_app_l by lia. by rewrite lookup_take_lt by lia.
    + rewrite lookup_app_r by lia. rewrite Ht. destruct (j - k)%nat as [|m] eqn:Em; [lia|].
      change (drop (S k) es !! m = es !! j). rewrite lookup_drop. f_equal. lia.
Qed.

Lemma dir_free_at es k e : es !! k = Some e -> e.1 = 0 ->
  (forall j f, (j < k)%nat -> es !! j = Some f -> f.1 <> 0) -> dir_free es = k.
Proof.
  intros He H0 Hlt. unfold dir_free.
  assert (list_find (fun x : Z * list Z => x.1 = 0) es = Some (k, e)) as ->; [|done].
  apply list_find_Some. split; [done|]. split; [done|]. intros j f Hj Hk. by apply (Hlt j).
Qed.

Lemma dir_free_end es : (forall j f, es !! j = Some f -> f.1 <> 0) -> dir_free es = length es.
Proof.
  intros H. unfold dir_free. destruct (list_find _ es) as [[k e]|] eqn:E; [|done].
  apply list_find_Some in E as (H1 & H2 & _). by apply H in H1.
Qed.

(** No name is bound twice. *)
Definition dir_nodup es : Prop := forall j k e f, es !! j = Some e -> es !! k = Some f ->
  e.1 <> 0 -> f.1 <> 0 -> e.2 = f.2 -> j = k.

Lemma dir_find_iff es name k e : dir_nodup es ->
  dir_find name es = Some (k, e) <-> es !! k = Some e /\ e.1 <> 0 /\ e.2 = name.
Proof.
  intros Hnd. unfold dir_find. rewrite list_find_Some. split.
  - intros (H1 & [H2 H3] & _). done.
  - intros (H1 & H2 & H3). split; [done|]. split; [done|]. intros j f Hj Hlt [Hf Hn].
    assert (j = k) by (eapply Hnd; eauto; congruence). lia.
Qed.

(** Binding a fresh name: it is found, other names are found as before, and
    names stay unique. *)
Lemma dir_link es num name : dir_nodup es -> num <> 0 -> dir_find name es = None ->
  let k := dir_free es in let es' := dir_set k (num, name) es in
  dir_nodup es' /\ dir_find name es' = Some (k, (num, name)) /\
  (forall other, other <> name -> dir_find other es' = dir_find other es).
Proof.
  intros Hnd Hnum Hnone k es'. pose proof (dir_free_bound es) as Hk. fold k in Hk.
  assert (Hno : forall j e, es !! j = Some e -> e.1 <> 0 -> e.2 <> name).
  { intros j e He H1 H2. apply list_find_None in Hnone. rewrite Forall_lookup in Hnone. by apply (Hnone j e). }
  assert (Hlk : forall j, es' !! j = if decide (j = k) then Some (num, name) else es !! j).
  { intros j. by apply dir_set_lookup. }
  assert (Hnd' : dir_nodup es').
  { intros j j' e f. rewrite !Hlk. intros He Hf He1 Hf1 Hn.
    destruct (decide (j = k)), (decide (j' = k)); simplify_eq/=; try done.
    - exfalso. by eapply Hno. - exfalso. by eapply Hno. - by eapply Hnd. }
  split; [done|]. split.
  - apply dir_find_iff; [done|]. rewrite Hlk, decide_True by done. done.
  - intros other Hne. apply option_eq. intros [j e]. rewrite !dir_find_iff by done. rewrite Hlk.
    destruct (decide (j = k)) as [->|]; [|done]. split; intros (H1 & H2 & H3).
    + simplify_eq/=.
    + by apply dir_free_free in H1.
Qed.
End adir.

(** * The operations *)

(** A directory: a file of whole slots. *)
Record dir_ok (sb : superblock) (v : bview) (i : inode) : Prop := {
  do_file : file_ok sb v i;
  do_type : itype i = T_DIR;
  do_size : isize i mod 16 = 0
}.

Lemma slice_file v i off n : 0 <= off -> 0 <= n -> off + n <= isize i ->
  slice (file_bytes v i) off n = file_at v i off n.
Proof.
  intros Ho Hn Hs. unfold slice, file_bytes. replace (isize i) with (off + (n + (isize i - off - n))) by lia.
  rewrite !file_at_app by lia. rewrite Z.add_0_l.
  rewrite drop_app_length' by (rewrite length_file_at; lia).
  by rewrite take_app_length' by (rewrite length_file_at; lia).
Qed.

Lemma mk_dirent_u8 num name : Forall is_u8 name -> Forall is_u8 (mk_dirent num name).
Proof.
  intros H. unfold mk_dirent. apply Forall_app. split; [|by apply strncpy_u8].
  repeat constructor; wrap_lia.
Qed.

Lemma nblk_slot k : nblk (16 * Z.of_nat k) 16 = 1.
Proof. unfold nblk, BSIZE. cbn [Z.eqb]. Z.div_mod_to_equations. lia. Qed.

Section dirs.
Context {T : Type} {BC : BufferCache T}.
#[local] Notation st := (fsst T).
Variables (p : Z).
Variable devread : Z -> option (nat -> Z -> M st (Z * list Z)).
Implicit Types (s : st) (v : bview) (c : ctx) (dp : nat) (off : Z) (name : list Z).

Definition slots v (i : inode) : list (Z * list Z) := dents (file_bytes v i).

Lemma length_slots v i : 0 <= isize i -> length (slots v i) = Z.to_nat (isize i / 16).
Proof.
  intros H. unfold slots. rewrite length_dents. unfold file_bytes. rewrite length_file_at by done.
  rewrite Z2Nat.inj_div by lia. done.
Qed.

(** Reading one slot. *)
Lemma read_slot dp s v c k (Q : Z * list Z -> ctx -> st -> Prop) :
  let sb := fsb s in let i := icache s dp in
  frel p s v -> fs_ok sb v -> quiet v -> dir_ok sb v i -> buf_room v -> held c = [] -> mypid c = p ->
  (k < length (slots v i))%nat ->
  (forall e c' t, same_thread c c' -> frel p (set_fbuf t s) v -> slots v i !! k = Some (dent e) ->
     Q (DESIZE, e) c' (set_fbuf t s)) ->
  wp (readi devread dp (16 * Z.of_nat k) DESIZE) c s Q.
Proof.
  intros sb i Hr Hok Hq [Hf Hty Hsz] Hbr Hc Hp Hk HQ. destruct (fl_size _ _ _ Hf) as [Hs1 Hs2].
  rewrite length_slots in Hk by done.
  assert (Hb : 16 * Z.of_nat k + 16 <= isize i) by (Z.div_mod_to_equations; lia).
  assert (Hrl : read_len i (16 * Z.of_nat k) DESIZE = 16).
  { unfold read_len, DESIZE. zcases. }
  apply (readi_wp p devread dp s v); try done; fold i.
  - lia.
  - unfold DESIZE, MAXFILE, BSIZE, NDIRECT, NINDIRECT in *. unfold BSIZE in *. wrap_lia.
  - rewrite Hrl. intros c' t Hth Hr'. apply HQ; [done|done|]. unfold slots.
    rewrite dents_lookup, slice_file by (unfold file_bytes; rewrite ?length_file_at; lia). done.
Qed.

Lemma dirlookup_loop_wp fuel k dp name s v c (Q : option (Z * Z) -> ctx -> st -> Prop) :
  let sb := fsb s in let i := icache s dp in
  frel p s v -> fs_ok sb v -> quiet v -> dir_ok sb v i -> buf_room v -> held c = [] -> mypid c = p ->
  (length (slots v i) < fuel + k)%nat -> (k <= length (slots v i))%nat ->
  (forall c' t, same_thread c c' -> frel p (set_fbuf t s) v ->
     Q ((fun x : nat * (Z * list Z) => (16 * Z.of_nat (k + x.1), x.2.1)) <$>
        dir_find (dname name) (drop k (slots v i))) c' (set_fbuf t s)) ->
  wp (dirlookup_loop devread fuel dp name (16 * Z.of_nat k)) c s Q.
Proof.
  revert k s c Q. induction fuel as [|fuel IH]; intros k s c Q sb i Hr Hok Hq Hd Hbr Hc Hp Hf Hk HQ; [lia|].
  cbn [dirlookup_loop]. pose proof (fl_size _ _ _ (do_file _ _ _ Hd)) as [Hs1 Hs2].
  pose proof (length_slots v i Hs1) as Hlen. pose proof (do_size _ _ _ Hd) as Hsz.
  do 2 wp_step. fold i. destruct (Z.ltb_spec (16 * Z.of_nat k) (isize i)) as [Hlt|Hge].
  - assert (Hk' : (k < length (slots v i))%nat) by (Z.div_mod_to_equations; lia).
    wp_step. apply (read_slot dp s v); try done. fold sb i. intros e c1 t1 Hth1 Hr1 He. cbn [fst snd].
    rewrite Z.eqb_refl. cbn [negb].
    assert (Hd' : drop k (slots v i) = dent e :: drop (S k) (slots v i)) by by apply drop_S.
    rewrite Hd' in HQ. unfold dir_find in HQ. cbn [list_find] in HQ.
    assert (Hnext : ~ ((dent e).1 <> 0 /\ (dent e).2 = dname name) ->
      wp (dirlookup_loop devread fuel dp name (16 * Z.of_nat k + DESIZE)) c1 (set_fbuf t1 s) Q).
    { intros Hno. replace (16 * Z.of_nat k + DESIZE) with (16 * Z.of_nat (S k)) by (unfold DESIZE; lia).
      apply IH; try done; [by rewrite (st_held _ _ Hth1)|by rewrite (st_pid _ _ Hth1)| |].
      - change (icache (set_fbuf t1 s) dp) with i. lia.
      - intros c' t Hth' Hr'. change (icache (set_fbuf t1 s) dp) with i. rewrite set_fbuf_set in *.
        rewrite decide_False in HQ by done. specialize (HQ c' t).
        unfold dir_find. destruct (list_find _ (drop (S k) _)) as [[j f]|]; cbn in HQ |- *;
          [rewrite Nat.add_succ_r in HQ|]; apply HQ; eauto using same_thread_trans. }
    destruct (Z.eqb_spec (de_inum e) 0) as [E|E]; [apply Hnext; cbn; naive_solver|].
    destruct (Z.eqb_spec (namecmp name (de_name e)) 0) as [N|N].
    + wp_step. rewrite decide_True in HQ by (split; [done|]; symmetry; by apply namecmp_dname).
      specialize (HQ c1 t1 Hth1 Hr1). cbn in HQ. by rewrite Nat.add_0_r in HQ.
    + apply Hnext. cbn. intros [_ Hn]. apply N. by apply namecmp_dname.
  - wp_step. assert (k = length (slots v i)) as -> by (Z.div_mod_to_equations; lia).
    rewrite drop_all in HQ. specialize (HQ c (fbuf s)). destruct s. by apply HQ.
Qed.

Lemma cache_ok_fbuf t s : cache_ok s -> cache_ok (set_fbuf t s).
Proof. intros [H1 H2]. by constructor. Qed.

(** The search of [dirlookup] as a whole. *)
Lemma dirlookup_search_wp dp name s v c (Q : option (Z * Z) -> ctx -> st -> Prop) :
  let sb := fsb s in let i := icache s dp in
  frel p s v -> fs_ok sb v -> quiet v -> dir_ok sb v i -> buf_room v -> held c = [] -> mypid c = p ->
  (forall c' t, same_thread c c' -> frel p (set_fbuf t s) v ->
     Q ((fun x : nat * (Z * list Z) => (16 * Z.of_nat x.1, x.2.1)) <$>
        dir_find (dname name) (slots v i)) c' (set_fbuf t s)) ->
  wp (dirlookup_loop devread (Z.to_nat (isize i / DESIZE + 2)) dp name 0) c s Q.
Proof.
  intros sb i Hr Hok Hq Hd Hbr Hc Hp HQ. pose proof (fl_size _ _ _ (do_file _ _ _ Hd)) as [Hs1 Hs2].
  pose proof (length_slots v i Hs1) as Hlen.
  apply (dirlookup_loop_wp _ 0 dp name s v); try done.
  - fold i. unfold DESIZE. assert (0 <= isize i / 16) by (apply Z.div_pos; lia). lia.
  - lia.
Qed.

Lemma dirlookup_none_wp dp name s v c (Q : option (nat * Z) -> ctx -> st -> Prop) :
  let sb := fsb s in let i := icache s dp in
  frel p s v -> fs_ok sb v -> quiet v -> dir_ok sb v i -> buf_room v -> held c = [] -> mypid c = p ->
  dir_find (dname name) (slots v i) = None ->
  (forall c' t, same_thread c c' -> frel p (set_fbuf t s) v -> Q None c' (set_fbuf t s)) ->
  wp (dirlookup devread dp name) c s Q.
Proof.
  intros sb i Hr Hok Hq Hd Hbr Hc Hp Hnone HQ. unfold dirlookup. do 2 wp_step. unfold id. fold i.
  rewrite (do_type _ _ _ Hd). cbn [negb Z.eqb T_DIR Pos.eqb]. wp_step.
  apply (dirlookup_search_wp dp name s v); try done. fold i. rewrite Hnone. intros c' t Hth Hr'.
  cbn [fmap option_fmap option_map]. wp_step. by apply HQ.
Qed.

Lemma dirlookup_found_wp dp name k num s v c (Q : option (nat * Z) -> ctx -> st -> Prop) :
  let sb := fsb s in let i := icache s dp in
  frel p s v -> fs_ok sb v -> quiet v -> dir_ok sb v i -> buf_room v -> held c = [] -> mypid c = p ->
  cache_ok s ->
  (exists ip, (ip < NINODE)%nat /\ (holds 1 num (icache s ip) \/ iref (icache s ip) = 0)) ->
  dir_find (dname name) (slots v i) = Some (k, (num, dname name)) ->
  (forall ip x' c' s', same_thread c c' -> (ip < NINODE)%nat -> iget_entry 1 num (icache s ip) x' ->
     (iref (icache s ip) = 0 -> forall j, (j < NINODE)%nat -> ~ holds 1 num (icache s j)) ->
     only_inode ip x' s s' -> frel p s' v -> cache_ok s' -> Q (Some (ip, 16 * Z.of_nat k)) c' s') ->
  wp (dirlookup devread dp name) c s Q.
Proof.
  intros sb i Hr Hok Hq Hd Hbr Hc Hp Hco Hex Hf HQ. unfold dirlookup. do 2 wp_step. unfold id. fold i.
  rewrite (do_type _ _ _ Hd). cbn [negb Z.eqb T_DIR Pos.eqb]. wp_step.
  apply (dirlookup_search_wp dp name s v); try done. fold i. rewrite Hf. intros c' t Hth Hr'.
  cbn [fmap option_fmap option_map fst snd].
  rewrite (proj1 (fl_disk _ _ _ (do_file _ _ _ Hd))). wp_step.
  apply iget_wp; [by apply cache_ok_fbuf|rewrite (st_held _ _ Hth), Hc; apply not_elem_of_nil|done|].
  intros ip x' s' Hip Hx Hfresh [O1 O2 O3] Hfb Hco'. wp_step. apply (HQ ip x'); try done.
  unfold frel. rewrite Hfb. exact Hr'.
Qed.

Lemma dirlink_loop_wp fuel k dp s v c (Q : Z -> ctx -> st -> Prop) :
  let sb := fsb s in let i := icache s dp in
  frel p s v -> fs_ok sb v -> quiet v -> dir_ok sb v i -> buf_room v -> held c = [] -> mypid c = p ->
  (length (slots v i) < fuel + k)%nat -> (k <= length (slots v i))%nat ->
  (forall j f, (j < k)%nat -> slots v i !! j = Some f -> f.1 <> 0) ->
  (forall c' t, same_thread c c' -> frel p (set_fbuf t s) v ->
     Q (16 * Z.of_nat (dir_free (slots v i))) c' (set_fbuf t s)) ->
  wp (dirlink_loop devread fuel dp (16 * Z.of_nat k)) c s Q.
Proof.
  revert k s c Q. induction fuel as [|fuel IH]; intros k s c Q sb i Hr Hok Hq Hd Hbr Hc Hp Hf Hk Hlow HQ; [lia|].
  cbn [dirlink_loop]. pose proof (fl_size _ _ _ (do_file _ _ _ Hd)) as [Hs1 Hs2].
  pose proof (length_slots v i Hs1) as Hlen. pose proof (do_size _ _ _ Hd) as Hsz.
  do 2 wp_step. fold i. destruct (Z.ltb_spec (16 * Z.of_nat k) (isize i)) as [Hlt|Hge].
  - assert (Hk' : (k < length (slots v i))%nat) by (Z.div_mod_to_equations; lia).
    wp_step. apply (read_slot dp s v); try done. fold sb i. intros e c1 t1 Hth1 Hr1 He. cbn [fst snd].
    rewrite Z.eqb_refl. cbn [negb]. destruct (Z.eqb_spec (de_inum e) 0) as [E|E].
    + wp_step. rewrite (dir_free_at _ k (dent e)) in HQ by done. by apply HQ.
    + replace (16 * Z.of_nat k + DESIZE) with (16 * Z.of_nat (S k)) by (unfold DESIZE; lia).
      apply IH; try done; [by rewrite (st_held _ _ Hth1)|by rewrite (st_pid _ _ Hth1)| | |];
        change (icache (set_fbuf t1 s) dp) with i.
      * lia.
      * intros j f Hj Hf'. destruct (decide (j = k)) as [->|]; [by simplify_eq|]. apply (Hlow j); [lia|done].
      * intros c' t Hth' Hr'. rewrite set_fbuf_set in *. apply HQ; eauto using same_thread_trans.
  - wp_step. assert (k = length (slots v i)) as -> by (Z.div_mod_to_equations; lia).
    rewrite dir_free_end in HQ; [|intros j f Hf'; apply (Hlow j f); [by eapply lookup_lt_Some|done]].
    specialize (HQ c (fbuf s)). destruct s. by apply HQ.
Qed.

Variables (B : gset Z) (devwrite : Z -> option (nat -> list Z -> M st Z)).

(** [dirlink] of a name that is not bound. *)
Lemma dirlink_new_wp kk dp name num s v c (Q : Z -> ctx -> st -> Prop) :
  let sb := fsb s in let i := icache s dp in
  let k := dir_free (slots v i) in
  frel p s v -> fs_ok sb v -> quiet v -> dir_ok sb v i -> has_bmap sb B -> 0 <= kk ->
  room (Bi B i) (ki i + (kk + 2)) v -> buf_room v -> held c = [] -> mypid c = p ->
  0 <= num < 65536 -> Forall is_u8 name -> isize i + 16 <= MAXFILE * BSIZE ->
  1 + ki i <= Z.of_nat (nfree sb v) ->
  dir_find (dname name) (slots v i) = None ->
  (forall c' s' i' v', same_thread c c' -> frel p s' v' -> only_inode dp i' s s' ->
     wrote sb i v (16 * Z.of_nat k) (mk_dirent num name) i' v' -> dir_ok sb v' i' ->
     slots v' i' = dir_set k (num, dname name) (slots v i) ->
     room (Bi B i') (ki i' + kk) v' -> Q 0 c' s') ->
  wp (dirlink devread devwrite dp name num) c s Q.
Proof.
  intros sb i k Hr Hok Hq Hd HB Hkk Hrm Hbr Hc Hp Hnum Hname Hmax Hfree Hnone HQ. unfold dirlink.
  wp_step. apply (dirlookup_none_wp dp name s v); try done. intros c1 t1 Hth1 Hr1.
  do 2 wp_step. change (icache (set_fbuf t1 s) dp) with i.
  pose proof (fl_size _ _ _ (do_file _ _ _ Hd)) as [Hs1 Hs2].
  pose proof (length_slots v i Hs1) as Hlen. pose proof (do_size _ _ _ Hd) as Hsz.
  pose proof (dir_free_bound (slots v i)) as Hkb. fold k in Hkb.
  assert (Hoff : 0 <= 16 * Z.of_nat k <= isize i) by (Z.div_mod_to_equations; lia).
  destruct (mk_dirent_facts num name Hnum) as [Hl16 Hdent].
  wp_step. apply (dirlink_loop_wp _ 0 dp _ v); try done; change (icache (set_fbuf t1 s) dp) with i.
  - by rewrite (st_held _ _ Hth1).
  - by rewrite (st_pid _ _ Hth1).
  - unfold DESIZE. assert (0 <= isize i / 16) by (apply Z.div_pos; lia). lia.
  - lia.
  - lia.
  - intros c2 t2 Hth2 Hr2. rewrite set_fbuf_set in *. fold k. wp_step.
    apply (writei_wp p B devwrite kk dp _ _ _ v); rewrite ?Hl16; try done;
      change (icache (set_fbuf t2 s) dp) with i; change (fsb (set_fbuf t2 s)) with sb.
    + apply Hd.
    + change (Z.of_nat 16) with 16. rewrite nblk_slot. by replace (1 + (kk + 1)) with (kk + 2) by lia.
    + by rewrite (st_held _ _ Hth2), (st_held _ _ Hth1).
    + by rewrite (st_pid _ _ Hth2), (st_pid _ _ Hth1).
    + lia.
    + by apply mk_dirent_u8.
    + right. change (Z.of_nat 16) with 16.
      pose proof (missing_le v i (16 * Z.of_nat k) 16 ltac:(lia)) as Hmi. rewrite nblk_slot in Hmi. lia.
    + intros c3 s3 i' v' Hth3 Hr3 [O1 O2 O3] Hw _ Hrm'. change (negb (Z.of_nat 16 =? DESIZE)) with false.
      cbv iota. wp_step. apply (HQ c3 s3 i' v'); [eauto using same_thread_trans|done|by constructor|done| | |done].
      * constructor; [apply Hw| |]; rewrite (wo_inode _ _ _ _ _ _ _ Hw); [apply Hd|].
        rewrite Hl16. cbn [isize set_isize]. Z.div_mod_to_equations. lia.
      * unfold slots. rewrite (wo_bytes _ _ _ _ _ _ _ Hw), dents_overwrite, Hdent; [done| | |done];
          unfold file_bytes; rewrite length_file_at by lia; [lia|].
        apply Nat2Z.inj. by rewrite Nat2Z.inj_mod, Z2Nat.id.
Qed.

(** A name that leads back to the directory itself: the [iput] in [dirlink]
    waits for the lock that the caller of [dirlink] holds. *)
Lemma dirlink_self_blocks dp name num k s v c :
  let sb := fsb s in let i := icache s dp in
  frel p s v -> fs_ok sb v -> quiet v -> dir_ok sb v i -> buf_room v -> held c = [] -> mypid c = p ->
  cache_ok s -> (dp < NINODE)%nat -> 1 <= iref i -> locked (islp i) = true ->
  dir_find (dname name) (slots v i) = Some (k, (inum i, dname name)) ->
  blocks (dirlink devread devwrite dp name num) c s (fun ch _ s' => ch = ChInodeLock dp /\
    islp (icache s' dp) = islp i).
Proof.
  intros sb i Hr Hok Hq Hd Hbr Hc Hp Hco Hdp Href Hl Hf. unfold dirlink. apply blocks_bind.
  pose proof (proj1 (fl_disk _ _ _ (do_file _ _ _ Hd))) as Hdev. fold i in Hdev.
  assert (Hh : holds 1 (inum i) (icache s dp)) by (fold i; split; [lia|done]).
  apply (dirlookup_found_wp dp name k (inum i) s v); try done.
  { exists dp. auto. }
  intros ip x' c' s' Hth Hip Hx Hfresh [O1 O2 O3] Hr' Hco'.
  assert (ip = dp) as ->.
  { destruct Hx as [[(H1 & H2 & H3) _]|[H0 _]]; [|by destruct (Hfresh H0 dp)].
    apply (co_uniq _ Hco); [done|done|done|fold i; lia|by fold i; congruence|done]. }
  apply blocks_bind_l. unfold iput. apply blocks_bind_l. unfold inode_acquiresleep.
  assert (Ex : islp (icache s' dp) = islp i).
  { rewrite O2. destruct Hx as [[_ ->]|[_ ->]]; done. }
  apply acquiresleep_blocks; [by rewrite Ex|by rewrite (st_held _ _ Hth)|]. done.
Qed.
End dirs.

(** * Path elements *)

(** The pieces of a path between slashes; the elements are those that are
    not empty. *)
Fixpoint split_path (p : list Z) : list (list Z) :=
  match p with
  | [] => [[]]
  | c :: p' =>
      if c =? ch_slash then [] :: split_path p'
      else match split_path p' with e :: es => (c :: e) :: es | [] => [[c]] end
  end.
Definition path_elems (p : list Z) : list (list Z) := filter (fun e => e <> []) (split_path p).

Section paths.
Implicit Types (q r e : list Z).

Lemma take_elem_split q : forall e r, take_elem q = (e, r) ->
  split_path q = e :: match r with [] => [] | _ :: r' => split_path r' end /\
  (length r <= length q)%nat /\ (length r + length e = length q)%nat /\ (r = [] \/ exists r', r = ch_slash :: r').
Proof.
  induction q as [|x q IH]; intros e r H; cbn [take_elem split_path] in *.
  - simplify_eq. cbn. auto with lia.
  - destruct (Z.eqb_spec x ch_slash) as [->|Hx]; [simplify_eq; cbn [length]; split_and!; [done|lia|lia|eauto]|].
    destruct (take_elem q) as [e0 r0]. simplify_eq.
    destruct (IH _ _ eq_refl) as (H1 & H2 & H3 & H4). rewrite H1. cbn [length].
    split; [done|]. split; [lia|]. split; [lia|exact H4].
Qed.

Lemma skip_slashes_elems q : path_elems (skip_slashes q) = path_elems q.
Proof.
  induction q as [|x q IH]; [done|]. cbn [skip_slashes].
  destruct (Z.eqb_spec x ch_slash) as [->|Hx]; [|done]. rewrite IH. unfold path_elems. cbn [split_path].
  by rewrite Z.eqb_refl, filter_cons_False by naive_solver.
Qed.

Lemma skip_slashes_length q : (length (skip_slashes q) <= length q)%nat.
Proof. induction q as [|x q IH]; cbn; [lia|]. destruct (x =? ch_slash); cbn; lia. Qed.

Lemma skip_slashes_head q : skip_slashes q = [] \/ exists x q', skip_slashes q = x :: q' /\ x <> ch_slash.
Proof.
  induction q as [|x q IH]; [by left|]. cbn [skip_slashes].
  destruct (Z.eqb_spec x ch_slash); [done|]. right. eauto.
Qed.

(** [skipelem] takes the elements one by one, each cut to [DIRSIZ] bytes. *)
Lemma skipelem_elems q :
  match skipelem q with
  | None => path_elems q = []
  | Some (nm, r) => exists e, path_elems q = e :: path_elems r /\ e <> [] /\ nm = take DIRSIZ e /\
      (length r < length q)%nat /\ hd 0 r <> ch_slash
  end.
Proof.
  unfold skipelem. rewrite <- (skip_slashes_elems q). pose proof (skip_slashes_length q) as Hle.
  destruct (skip_slashes_head q) as [E|(x & q' & E & Hx)]; rewrite E in *; [done|].
  destruct (take_elem (x :: q')) as [e r] eqn:Et.
  destruct (take_elem_split _ _ _ Et) as (H1 & H2 & H3 & H4).
  assert (He : e <> []).
  { cbn [take_elem] in Et. rewrite (proj2 (Z.eqb_neq _ _)) in Et by done.
    destruct (take_elem q'). simplify_eq. done. }
  exists e. pose proof (skip_slashes_length r) as Hlr. split_and!; [|done|done| |].
  - rewrite skip_slashes_elems. unfold path_elems at 1. rewrite H1, filter_cons_True by done. f_equal.
    destruct H4 as [->|[r' ->]]; [done|]. unfold path_elems. cbn [split_path].
    by rewrite Z.eqb_refl, filter_cons_False by naive_solver.
  - destruct e; [done|]. cbn in *. lia.
  - destruct (skip_slashes_head r) as [->|(y & r' & -> & Hy)]; [done|exact Hy].
Qed.
End paths.
