(* ===== verification/FsSpec.v ===== *)
(** * What the file system promises, with an example volume
    The theorems of the block allocator, of inode content and of directories,
    stated over any buffer cache that satisfies the interface, and applied to
    a small volume run on the logged buffer cache of bio.c and log.c. *)
From stdpp Require Import functions.
From S2P Require Import Prelude CString Mmu Block Sleeplock Bio Log LogSpec LogOps Buffers LogBuf.
From S2P Require Import Fs FsBlocks FsInode FsFile FsRw FsTrunc FsDir.
#[local] Set Default Proof Using "Type".

(** * An example volume
    100 blocks: a log of 30 blocks at 2, inodes at 32, the bitmap at 35, data
    from 36 on.  Inode 1 is the root directory with the entries [.], [..] and
    [f]; inode 2 is the file [f], 600 bytes in blocks 37 and 38. *)
Definition ex_sb : superblock := Superblock 100 64 16 30 2 32 35.
Definition ch_dot : list Z := [46].
Definition ch_f : list Z := [102].
Definition ex_root : inode :=
  Inode 1 1 1 (Sleeplock true 1) true T_DIR 0 0 1 48 (36 :: replicate 12 0).
Definition ex_file : inode :=
  Inode 1 2 1 initsleeplock true T_FILE 0 0 1 600 (37 :: 38 :: replicate 11 0).
(** The file's inode after its last name is gone. *)
Definition ex_gone : inode :=
  Inode 1 3 1 initsleeplock true T_FILE 0 0 0 10 (39 :: replicate 12 0).
Definition ex_disk (b : Z) : block :=
  if b =? 32 then store_dinode (store_dinode (store_dinode zero_block 64 ex_root) 128 ex_file) 192 ex_gone
  else if b =? 35 then [255; 255; 255; 255; 255] ++ replicate 507 0
  else if b =? 36 then
    mk_dirent 1 ch_dot ++ mk_dirent 1 [46; 46] ++ mk_dirent 2 ch_f ++ replicate 464 0
  else if b =? 37 then replicate 512 97
  else if b =? 38 then replicate 512 98
  else zero_block.
Definition ex_view : bview := cold_view ex_disk 100 2 30 1.
Definition ex_icache (n : nat) : inode :=
  match n with 0 => ex_root | 1 => ex_file | 2 => ex_gone | _ => inode0 end%nat.
Definition ex_st : fsst lst := Fsst (cold_lst ex_disk 100 2 30 1) ex_sb ex_icache.
Definition ex_B : gset Z := {[35]}.

Lemma ex_rel : frel 1 ex_st ex_view.
Proof. apply cold_lrel; unfold LOGSIZE, MAXOPBLOCKS; lia. Qed.

Lemma ex_disk_wf b : block_wf (ex_disk b).
Proof.
  unfold ex_disk. repeat case_match; try (by apply zero_block_wf).
  - repeat apply store_dinode_wf. apply zero_block_wf.
  - split; [done|]. apply Forall_app. split; [by_decide|by apply Forall_replicate].
  - split; [done|]. by_decide.
  - split; [done|]. by apply Forall_replicate.
  - split; [done|]. by apply Forall_replicate.
Qed.

Lemma ex_fs_ok : fs_ok ex_sb ex_view.
Proof.
  constructor.
  - constructor; by vm_compute.
  - intros b Hb. assert (Hall : Forall (fun b => used ex_sb ex_view b = true) (seqZ 0 36)) by by_decide.
    rewrite Forall_forall in Hall. apply Hall, elem_of_seqZ. exact Hb.
  - intros b _. apply ex_disk_wf.
Qed.

Lemma ex_quiet : quiet ex_view.
Proof. done. Qed.
Lemma ex_has_bmap : has_bmap ex_sb ex_B.
Proof.
  intros b Hb. apply elem_of_singleton. unfold BBLOCK, BPB, BSIZE. cbn [sb_size sb_bmapstart ex_sb] in *.
  Z.div_mod_to_equations. lia.
Qed.
Lemma ex_room B k : Z.of_nat (size B) + k <= 27 -> 0 <= k -> room B k ex_view.
Proof.
  intros H Hk. constructor; cbn [vlogged vlsize vops ex_view cold_view]; try done.
  rewrite union_empty_l_L. lia.
Qed.
Lemma ex_buf_room : buf_room ex_view.
Proof. by_decide. Qed.
Lemma ex_cache_ok : cache_ok ex_st.
Proof.
  constructor; cbn [icache ex_st].
  - intros [|[|[|?]]] _; cbn; lia.
  - intros [|[|[|?]]] [|[|[|?]]] _ _; cbn; lia.
Qed.

Lemma ex_inode_ok i l : iblocks ex_view i = l -> length (iaddrs i) = 13%nat -> NoDup l ->
  Forall (fun a => is_data ex_sb a /\ used ex_sb ex_view a = true) l -> inode_ok ex_sb ex_view i.
Proof. intros <- Hl Hn Hf. constructor; [done|done|]. by apply Forall_forall. Qed.
Lemma ex_irange i : length (iaddrs i) = 13%nat ->
  Forall (fun x => -32768 <= x < 32768) [itype i; imajor i; iminor i; inlink i] ->
  Forall is_u32 (isize i :: iaddrs i) -> irange i.
Proof.
  intros Hl Hs Hu. apply Forall_cons in Hu as [? ?]. rewrite !Forall_cons in Hs.
  destruct Hs as (? & ? & ? & ? & _). by constructor.
Qed.

#[local] Instance is_data_dec sb a : Decision (is_data sb a).
Proof. unfold is_data. apply _. Defined.

Lemma ex_file_ok : file_ok ex_sb ex_view ex_file.
Proof.
  constructor; try done.
  - apply (ex_inode_ok _ [37; 38]); [by vm_compute|done|by_decide|by_decide].
  - apply ex_irange; [done|by_decide|by_decide].
  - intros bn H0 H1. cbn [isize ex_file] in H1. unfold BSIZE in H1.
    assert (bn = 0 \/ bn = 1) as [-> | ->] by lia; by vm_compute.
Qed.
Lemma ex_root_ok : dir_ok ex_sb ex_view ex_root.
Proof.
  constructor; [constructor; try done|done|done].
  - apply (ex_inode_ok _ [36]); [by vm_compute|done|by_decide|by_decide].
  - apply ex_irange; [done|by_decide|by_decide].
  - intros bn H0 H1. cbn [isize ex_root] in H1. unfold BSIZE in H1. assert (bn = 0) as -> by lia. by vm_compute.
Qed.
Lemma ex_gone_ok : inode_ok ex_sb ex_view ex_gone.
Proof. apply (ex_inode_ok _ [39]); [by vm_compute|done|by_decide|by_decide]. Qed.
Lemma ex_slots : slots ex_view ex_root = [(1, ch_dot); (1, [46; 46]); (2, ch_f)].
Proof. by vm_compute. Qed.

(** * Theorems *)

Section promises.
Context {T : Type} {BC : BufferCache T}.
Implicit Types (s : fsst T) (v : bview) (c : ctx).

(** Balloc takes the lowest free block of the volume, marks exactly that
    block in the bitmap and returns it zeroed, leaving all other blocks that
    are in use alone; when every block is in use it panics. *)
Theorem balloc_correct p B s v c :
  let sb := fsb s in
  frel p s v -> fs_ok sb v -> opens_ok sb v -> has_bmap sb B -> room B 1 v ->
  held c = [] -> mypid c = p ->
  (forall b, 0 <= b < sb_size sb -> used sb v b = true) /\
    panics (balloc 1) c s "balloc: out of blocks" \/
  wp (balloc 1) c s (fun a c' s' => exists v', frel p s' v' /\ fs_ok sb v' /\
    is_data sb a /\ used sb v a = false /\ vdata v' a = zero_block /\
    (forall b, 0 <= b < a -> used sb v b = true) /\
    (forall b, 0 <= b < sb_size sb -> used sb v' b = (b =? a) || used sb v b) /\
    (forall b, used sb v b = true -> ~ is_bmap sb b -> vdata v' b = vdata v b) /\
    icache s' = icache s).
Proof.
  intros sb Hr Hok Ho HB Hrm Hc Hp.
  destruct (decide (Exists (fun b => used sb v b = false) (seqZ 0 (sb_size sb)))) as [Hex|Hno].
  - right. apply Exists_exists in Hex as (f & Hf%elem_of_seqZ & Hu).
    apply (balloc_wp p B s v); try done. { exists f. fold sb. split; [lia|done]. }
    intros a c' t Hth Ha Hua Hlow Hr'. fold sb in Ha, Hua, Hlow, Hr'.
    pose proof (free_data sb v a Hok Ha Hua) as Hd.
    exists (v_alloc sb a v). split_and!; try done.
    + by apply fs_ok_alloc.
    + apply v_alloc_new.
    + intros b Hb. by apply used_alloc.
    + intros b Hb Hnb. by apply v_alloc_keep.
  - left. rewrite <- Forall_Exists_neg in Hno. rewrite Forall_forall in Hno.
    assert (Hall : forall b, 0 <= b < sb_size sb -> used sb v b = true).
    { intros b Hb. apply not_false_is_true. apply (Hno b). apply elem_of_seqZ. clear -Hb. lia. }
    split; [done|]. unfold balloc. apply panics_bind. wp_step.
    pose proof (so_pos _ _ (fo_sb _ _ Hok)) as Hpos. pose proof (fuel_enough sb Hpos) as Hfu.
    apply (balloc_loop_full p B _ 0 s v); try done; [eapply room_less; [exact Hrm|lia]|].
    assert (0 <= sb_size sb / BPB) by (apply Z.div_pos; [done|unfold BPB, BSIZE; lia]). fold sb. lia.
Qed.

Lemma read_len_range (i : inode) off n : 0 <= off <= isize i -> 0 <= n -> 0 <= read_len i off n.
Proof. unfold read_len. zcases. Qed.

(** Reading up to the end of the file takes what the bytes have there. *)
Lemma read_slice v (i : inode) off n : 0 <= off <= isize i -> 0 <= n ->
  file_at v i off (read_len i off n) = slice (file_bytes v i) off n.
Proof.
  intros Ho Hn. rewrite <- slice_file by (unfold read_len; try lia; zcases).
  unfold read_len. rewrite Z.gtb_ltb. destruct (Z.ltb_spec (isize i) (off + n)); [|done].
  unfold slice. rewrite !take_ge; [done| |];
    rewrite length_drop; unfold file_bytes; rewrite length_file_at; lia.
Qed.

(** C23: reading [n] bytes at [off] of a file or directory returns the bytes
    the file has there and their number (fewer at the end of the file), and
    changes neither the file system nor the inode cache. *)
Theorem readi_correct p devread ip off n s v c :
  let sb := fsb s in let i := icache s ip in
  frel p s v -> fs_ok sb v -> quiet v -> file_ok sb v i -> buf_room v ->
  held c = [] -> mypid c = p -> 0 <= off <= isize i -> 0 <= n -> is_u32 (off + n) ->
  wp (readi devread ip off n) c s (fun r c' s' => same_thread c c' /\ frel p s' v /\ icache s' = icache s /\
    snd r = slice (file_bytes v i) off n /\ fst r = Z.of_nat (length (snd r))).
Proof.
  intros sb i Hr Hok Hq Hf Hb Hc Hp Hoff Hn Hu. apply (readi_wp p devread ip s v); try done.
  intros c' t Hth Hr'. fold i. cbn [fst snd]. rewrite read_slice by lia.
  split_and!; try done. pose proof (read_len_range i off n Hoff Hn).
  rewrite <- read_slice, length_file_at by lia. lia.
Qed.

(** C2: writing bytes at [off] inside or at the end of a file, with room for
    them on the volume and in the transaction, returns their number; the
    file then has exactly these bytes there and its other bytes as before,
    grown if need be; its inode is updated on disk, no other inode and no
    block of another file changes, and the volume stays well formed. *)
Theorem writei_correct p B devwrite k ip src off s v c :
  let sb := fsb s in let i := icache s ip in let n := Z.of_nat (length src) in
  frel p s v -> fs_ok sb v -> quiet v -> file_ok sb v i -> has_bmap sb B -> 0 <= k ->
  room (Bi B i) (ki i + (nblk off n + (k + 1))) v -> held c = [] -> mypid c = p ->
  0 <= off <= isize i -> off + n <= MAXFILE * BSIZE -> Forall is_u8 src -> space sb v i off n ->
  wp (writei devwrite ip src off) c s (fun r c' s' => r = n /\ exists i' v',
    frel p s' v' /\ only_inode ip i' s s' /\ wrote sb i v off src i' v' /\
    file_bytes v' i' = overwrite (file_bytes v i) off src).
Proof.
  intros sb i n Hr Hok Hq Hf HB Hk Hrm Hc Hp Hoff Hmax Hsrc Hsp.
  apply (writei_wp p B devwrite k ip src off s v); try done.
  intros c' s' i' v' Hth Hr' Hoi Hw _ Hrm'. split; [done|]. exists i', v'. split_and!; try done. apply Hw.
Qed.

(** C14: giving up a reference to a cached inode.  If it is the last one and
    no directory names the inode, its blocks become free, its type on disk
    becomes 0 and the entry is invalid; otherwise only the reference count
    changes.  No other inode and no block outside the bitmap and the inode's
    own inode block changes. *)
Theorem iput_correct p B ip s v c :
  let sb := fsb s in let i := icache s ip in
  frel p s v -> fs_ok sb v -> has_bmap sb B -> room B 2 v -> quiet v ->
  held c = [] -> mypid c = p -> on_disk sb i -> irange i -> inode_ok sb v i ->
  locked (islp i) = false ->
  wp (iput ip) c s (fun _ c' s' => exists v' i', frel p s' v' /\ only_inode ip i' s s' /\
    iref i' = iref i - 1 /\ locked (islp i') = false /\
    if ivalid i && (inlink i =? 0) && (iref i =? 1)
    then ivalid i' = false /\ truncated sb i (set_itype 0 (emptied i)) v v'
    else v' = v /\ i' = set_iref (iref i - 1) (set_islp initsleeplock i)).
Proof.
  intros sb i Hr Hok HB Hrm Hq Hc Hp Hod Hrg Hio Hl.
  destruct (ivalid i && (inlink i =? 0) && (iref i =? 1)) eqn:E.
  - apply andb_true_iff in E as [[E1 E2%Z.eqb_eq]%andb_true_iff E3%Z.eqb_eq].
    apply (iput_free_wp p B ip s v); try done.
    intros c' s' v' i' Hth Hr' Ht Hrm' Hoi H1 H2 H3. exists v', i'. fold i. rewrite H1, H2, H3, E3.
    split_and!; try done; lia.
  - apply iput_keep_wp; try done.
    + fold i. intros (H1 & H2 & H3). by rewrite H1, H2, H3 in E.
    + intros c' s' Hth Hf Hoi. exists v, (set_iref (iref i - 1) (set_islp initsleeplock i)).
      split_and!; try done. unfold frel. by rewrite Hf.
Qed.

(** C11: binding a name that a directory does not have yet.  [dirlink]
    returns 0; afterwards the name leads to the given inode number, every
    other name to the one it led to before, and names are still unique.  The
    directory is written as by [writei], so no other file changes. *)
Theorem dirlink_correct p B devread devwrite dp name num s v c :
  let sb := fsb s in let i := icache s dp in
  frel p s v -> fs_ok sb v -> quiet v -> dir_ok sb v i -> has_bmap sb B ->
  room (Bi B i) (ki i + 2) v -> buf_room v -> held c = [] -> mypid c = p ->
  0 < num < 65536 -> Forall is_u8 name -> isize i + 16 <= MAXFILE * BSIZE ->
  1 + ki i <= Z.of_nat (nfree sb v) ->
  dir_nodup (slots v i) -> dir_find (dname name) (slots v i) = None ->
  wp (dirlink devread devwrite dp name num) c s (fun r c' s' => r = 0 /\ exists i' v' k,
    frel p s' v' /\ only_inode dp i' s s' /\ dir_ok sb v' i' /\
    wrote sb i v (16 * Z.of_nat k) (mk_dirent num name) i' v' /\
    dir_nodup (slots v' i') /\
    dir_find (dname name) (slots v' i') = Some (k, (num, dname name)) /\
    forall other, other <> dname name -> dir_find other (slots v' i') = dir_find other (slots v i)).
Proof.
  intros sb i Hr Hok Hq Hd HB Hrm Hbr Hc Hp Hnum Hname Hmax Hfree Hnd Hnone.
  apply (dirlink_new_wp p devread B devwrite 0 dp name num s v); try done; [fold i; lia|].
  fold sb i. intros c' s' i' v' Hth Hr' Hoi Hw Hd' Hs Hrm'. split; [done|].
  exists i', v', (dir_free (slots v i)).
  destruct (dir_link (slots v i) num (dname name) Hnd) as (H1 & H2 & H3); [lia|done|].
  rewrite <- Hs in H1, H2, H3. auto 10.
Qed.

(** C37: linking a file under a name that leads back to the directory itself,
    such as [.]: [dirlink] is called with the directory locked, and the
    [iput] on its error path sleeps on that same lock, so the caller waits
    for itself instead of getting the error. *)
Theorem dirlink_self_deadlock p devread devwrite dp name num k s v c :
  let sb := fsb s in let i := icache s dp in
  frel p s v -> fs_ok sb v -> quiet v -> dir_ok sb v i -> buf_room v -> held c = [] -> mypid c = p ->
  cache_ok s -> (dp < NINODE)%nat -> 1 <= iref i -> islp i = Sleeplock true p ->
  dir_find (dname name) (slots v i) = Some (k, (inum i, dname name)) ->
  blocks (dirlink devread devwrite dp name num) c s (fun ch c' s' =>
    ch = ChInodeLock dp /\ islp (icache s' dp) = Sleeplock true (mypid c)).
Proof.
  intros sb i Hr Hok Hq Hd Hbr Hc Hp Hco Hdp Href Hl Hf. rewrite Hp, <- Hl.
  apply (dirlink_self_blocks p devread devwrite dp name num k s v); try done. fold i. by rewrite Hl.
Qed.
End promises.

Definition no_dev {A} (_ : Z) : option A := None.

Lemma balloc_correct_witness :
  (forall b, 0 <= b < sb_size (fsb ex_st) -> used (fsb ex_st) ex_view b = true) /\
    panics (balloc 1) ctx0 ex_st "balloc: out of blocks" \/
  wp (balloc 1) ctx0 ex_st (fun a c' s' => exists v', frel 1 s' v' /\ fs_ok (fsb ex_st) v' /\
    is_data (fsb ex_st) a /\ used (fsb ex_st) ex_view a = false /\ vdata v' a = zero_block /\
    (forall b, 0 <= b < a -> used (fsb ex_st) ex_view b = true) /\
    (forall b, 0 <= b < sb_size (fsb ex_st) ->
       used (fsb ex_st) v' b = (b =? a) || used (fsb ex_st) ex_view b) /\
    (forall b, used (fsb ex_st) ex_view b = true -> ~ is_bmap (fsb ex_st) b -> vdata v' b = vdata ex_view b) /\
    icache s' = icache ex_st).
Proof.
  apply (balloc_correct 1 ex_B ex_st ex_view ctx0 ex_rel ex_fs_ok); try done.
  - by apply quiet_opens.
  - apply ex_has_bmap.
Defined.

Lemma readi_correct_witness :
  wp (readi no_dev 1 500 200) ctx0 ex_st (fun r c' s' => same_thread ctx0 c' /\ frel 1 s' ex_view /\
    icache s' = icache ex_st /\ snd r = slice (file_bytes ex_view (icache ex_st 1%nat)) 500 200 /\
    fst r = Z.of_nat (length (snd r))).
Proof.
  apply (readi_correct 1 no_dev 1 500 200 ex_st ex_view ctx0 ex_rel ex_fs_ok ex_quiet ex_file_ok ex_buf_room);
    by vm_compute.
Defined.

Lemma writei_correct_witness :
  wp (writei no_dev 1 (replicate 20 120) 590) ctx0 ex_st (fun r c' s' => r = 20 /\ exists i' v',
    frel 1 s' v' /\ only_inode 1 i' ex_st s' /\
    wrote ex_sb ex_file ex_view 590 (replicate 20 120) i' v' /\
    file_bytes v' i' = overwrite (file_bytes ex_view ex_file) 590 (replicate 20 120)).
Proof.
  apply (writei_correct 1 ex_B no_dev 0 1 (replicate 20 120) 590 ex_st ex_view ctx0 ex_rel ex_fs_ok
    ex_quiet ex_file_ok ex_has_bmap); try done.
  - by apply Forall_replicate.
  - right. by vm_compute.
Defined.

Lemma iput_correct_witness :
  wp (iput 2) ctx0 ex_st (fun _ c' s' => exists v' i', frel 1 s' v' /\ only_inode 2 i' ex_st s' /\
    iref i' = 0 /\ locked (islp i') = false /\
    (ivalid i' = false /\ truncated ex_sb ex_gone (set_itype 0 (emptied ex_gone)) ex_view v')).
Proof.
  apply (iput_correct 1 ex_B 2 ex_st ex_view ctx0 ex_rel ex_fs_ok ex_has_bmap); try done.
  - apply ex_irange; [done|by_decide|by_decide].
  - apply ex_gone_ok.
Defined.

Lemma dirlink_correct_witness :
  wp (dirlink no_dev no_dev 0 [103] 3) ctx0 ex_st (fun r c' s' => r = 0 /\ exists i' v' k,
    frel 1 s' v' /\ only_inode 0 i' ex_st s' /\ dir_ok ex_sb v' i' /\
    wrote ex_sb ex_root ex_view (16 * Z.of_nat k) (mk_dirent 3 [103]) i' v' /\
    dir_nodup (slots v' i') /\ dir_find (dname [103]) (slots v' i') = Some (k, (3, dname [103])) /\
    forall other, other <> dname [103] -> dir_find other (slots v' i') = dir_find other (slots ex_view ex_root)).
Proof.
  apply (dirlink_correct 1 ex_B no_dev no_dev 0 [103] 3 ex_st ex_view ctx0 ex_rel ex_fs_ok ex_quiet
    ex_root_ok ex_has_bmap); try done.
  - apply ex_buf_room.
  - by_decide.
  - change (dir_nodup (slots ex_view ex_root)). rewrite ex_slots.
    intros [|[|[|?]]] [|[|[|?]]] e f He Hf; simplify_eq/=; done.
Defined.

Lemma dirlink_self_deadlock_witness :
  blocks (dirlink no_dev no_dev 0 ch_dot 2) ctx0 ex_st (fun ch c' s' =>
    ch = ChInodeLock 0 /\ islp (icache s' 0%nat) = Sleeplock true (mypid ctx0)).
Proof.
  apply (dirlink_self_deadlock 1 no_dev no_dev 0 ch_dot 2 0 ex_st ex_view ctx0 ex_rel ex_fs_ok ex_quiet
    ex_root_ok ex_buf_room); try done.
  - apply ex_cache_ok.
  - by_decide.
Defined.

(** A path is taken apart into its elements, the maximal pieces without
    slashes: [skipelem] returns the first element, cut to the 14 bytes of a
    directory entry, and a shorter path with the remaining elements and no
    leading slash; it returns null exactly when there is no element left. *)
Theorem skipelem_correct q :
  match skipelem q with
  | None => path_elems q = []
  | Some (nm, r) => exists e, path_elems q = e :: path_elems r /\ e <> [] /\ nm = take DIRSIZ e /\
      (length r < length q)%nat /\ hd 0 r <> ch_slash
  end.
Proof. apply skipelem_elems. Qed.
