(* ===== verification/File.v ===== *)
(** * Open files (file.c, pipe.c: pipealloc)
    The system-wide table of open files, over the file system and the pipes.
    A [struct file*] is an index into the table. *)
From stdpp Require Import functions.
From S2P Require Import Prelude CString Mmu Kalloc Pipe Block Sleeplock Log Buffers Fs.

(** [struct file] (file.h). *)
Inductive ftype := FD_NONE | FD_PIPE | FD_INODE.
#[export] Instance ftype_eq_dec : EqDecision ftype.
Proof. solve_decision. Defined.
Record file := File {
  ty : ftype;
  ref : Z;
  readable : bool;
  writable : bool;
  fpipe : Z;
  fip : nat;
  off : Z
}.
Definition file0 : file := File FD_NONE 0 false false 0 0 0.
Definition set_ref (r : Z) (f : file) : file :=
  File (ty f) r (readable f) (writable f) (fpipe f) (fip f) (off f).
Definition set_off (o : Z) (f : file) : file :=
  File (ty f) (ref f) (readable f) (writable f) (fpipe f) (fip f) o.
Definition set_ty (t : ftype) (f : file) : file :=
  File t (ref f) (readable f) (writable f) (fpipe f) (fip f) (off f).

(** The file system, the pipes with the page allocator, and [ftable]. *)
Record fst_ (T : Type) := Fst { ffs : fsst T; fpst : pst; ftab : nat -> file }.
Arguments Fst {T} _ _ _.
Arguments ffs {T} _.
Arguments fpst {T} _.
Arguments ftab {T} _.

Section file.
Context {T : Type} {BC : BufferCache T}.
#[local] Notation fs := (fst_ T).

Definition set_ffs (x : fsst T) (s : fs) : fs := Fst x (fpst s) (ftab s).
Definition set_fpst (x : pst) (s : fs) : fs := Fst (ffs s) x (ftab s).
Definition upd_file (f : nat) (g : file -> file) (s : fs) : fs :=
  Fst (ffs s) (fpst s) (<[f := g (ftab s f)]> (ftab s)).
Definition onfs {A} (m : M (fsst T) A) : M fs A := zoom ffs set_ffs m.
Definition onpipe {A} (m : M pst A) : M fs A := zoom fpst set_fpst m.
Definition getf {A} (f : nat) (g : file -> A) : M fs A := gets (fun s => g (ftab s f)).
Definition setf (f : nat) (g : file -> file) : M fs unit := modify (upd_file f g).

(** The scan of [filealloc]. *)
Fixpoint free_file (n i : nat) (t : nat -> file) : option nat :=
  match n with
  | O => None
  | S n' => if ref (t i) =? 0 then Some i else free_file n' (S i) t
  end.
Definition filealloc : M fs (option nat) :=
  acquire Lftable;;
  t ← gets ftab;
  match free_file NFILE 0 t with
  | Some f => setf f (set_ref 1);; release Lftable;; mret (Some f)
  | None => release Lftable;; mret None
  end.

Definition filedup (f : nat) : M fs nat :=
  acquire Lftable;;
  r ← getf f ref;
  if r <? 1 then panic "filedup" else
  setf f (fun x => set_ref (ref x + 1) x);;
  release Lftable;;
  mret f.

(** The address of the end of the kernel, and the device switch. *)
Variable kend : Z.
Variable devread : Z -> option (nat -> Z -> M (fsst T) (Z * list Z)).
Variable devwrite : Z -> option (nat -> list Z -> M (fsst T) Z).

Definition fileclose (f : nat) : M fs unit :=
  acquire Lftable;;
  r ← getf f ref;
  if r <? 1 then panic "fileclose" else
  setf f (fun x => set_ref (ref x - 1) x);;
  if r - 1 >? 0 then release Lftable
  else
    ff ← getf f id;
    setf f (fun x => set_ty FD_NONE (set_ref 0 x));;
    release Lftable;;
    match ty ff with
    | FD_PIPE => onpipe (pipeclose kend (fpipe ff) (writable ff))
    | FD_INODE => onfs begin_op;; onfs (iput (fip ff));; onfs end_op
    | FD_NONE => mret tt
    end.

Definition filestat (f : nat) : M fs (option stat) :=
  x ← getf f id;
  match ty x with
  | FD_INODE =>
      onfs (ilock (fip x));;
      st ← onfs (stati (fip x));
      onfs (iunlock (fip x));;
      mret (Some st)
  | _ => mret None
  end.

(** [fileread]: the return value and the bytes stored through [addr]. *)
Definition fileread (f : nat) (n : Z) : M fs (Z * list Z) :=
  x ← getf f id;
  if negb (readable x) then mret (-1, []) else
  match ty x with
  | FD_PIPE => onpipe (piperead (fpipe x) n)
  | FD_INODE =>
      onfs (ilock (fip x));;
      r ← onfs (readi devread (fip x) (off x) (u32 n));
      when (r.1 >? 0) (setf f (fun y => set_off (u32 (off y + r.1)) y));;
      onfs (iunlock (fip x));;
      mret r
  | FD_NONE => panic "fileread"
  end.

(** [filewrite] of the bytes [src].  Its loop writes [max] bytes per
    transaction. *)
Definition wmax : Z := (MAXOPBLOCKS - 1 - 1 - 2) / 2 * 512.
Fixpoint filewrite_loop (fuel : nat) (f : nat) (src : list Z) : M fs bool :=
  if 0 <? Z.of_nat (length src) then
    match fuel with
    | O => fun _ _ => NoFuel
    | S fuel' =>
        let n1 := Z.min (Z.of_nat (length src)) wmax in
        x ← getf f id;
        onfs begin_op;;
        onfs (ilock (fip x));;
        r ← onfs (writei devwrite (fip x) (take (Z.to_nat n1) src) (off x));
        when (r >? 0) (setf f (fun y => set_off (u32 (off y + r)) y));;
        onfs (iunlock (fip x));;
        onfs end_op;;
        if r <? 0 then mret false
        else if negb (r =? n1) then panic "short filewrite"
        else filewrite_loop fuel' f (drop (Z.to_nat n1) src)
    end
  else mret true.
Definition filewrite (f : nat) (src : list Z) : M fs Z :=
  x ← getf f id;
  if negb (writable x) then mret (-1) else
  match ty x with
  | FD_PIPE => onpipe (pipewrite (fpipe x) src)
  | FD_INODE =>
      ok ← filewrite_loop (length src) f src;
      mret (if (ok : bool) then Z.of_nat (length src) else -1)
  | FD_NONE => panic "filewrite"
  end.

(** [pipealloc] (pipe.c): both ends, or nothing. *)
Definition close_opt (f : option nat) : M fs unit :=
  match f with Some f => fileclose f | None => mret tt end.
Definition pipealloc : M fs (option (nat * nat)) :=
  f0 ← filealloc;
  match f0 with
  | None => mret None
  | Some r0 =>
      f1 ← filealloc;
      match f1 with
      | None => close_opt f0;; mret None
      | Some r1 =>
          p ← onpipe pipe_new;
          if p =? 0 then close_opt f0;; close_opt f1;; mret None
          else
            setf r0 (fun x => File FD_PIPE (ref x) true false p (fip x) (off x));;
            setf r1 (fun x => File FD_PIPE (ref x) false true p (fip x) (off x));;
            mret (Some (r0, r1))
      end
  end.
End file.
#[export] Hint Unfold getf setf onfs onpipe : wp_unfold.
