(* ===== verification/FileSpec.v ===== *)
(** * What the file layer promises (file.c)
    [filewrite] splits a long write into transactions that fit the log;
    [fileread] and [filewrite] move the offset of the open file.  The theorems
    are stated over any buffer cache that satisfies the interface. *)
From stdpp Require Import functions.
From S2P Require Import Prelude CString Mmu Kalloc Pipe Block Sleeplock Bio Log LogSpec LogOps Buffers LogBuf.
From S2P Require Import Fs FsBlocks FsInode FsFile FsRw FsTrunc FsDir FsSpec File.
#[local] Set Default Proof Using "Type".

(** * Sequences of writes *)

Lemma overwrite_app (l s1 s2 : list Z) off : 0 <= off <= Z.of_nat (length l) ->
  overwrite (overwrite l off s1) (off + Z.of_nat (length s1)) s2 = overwrite l off (s1 ++ s2).
Proof.
  intros Ho. unfold overwrite. replace (Z.to_nat (off + Z.of_nat (length s1))) with (Z.to_nat off + length s1)%nat by lia.
  assert (Hl : length (take (Z.to_nat off) l) = Z.to_nat off) by (rewrite length_take; lia).
  rewrite take_app, Hl. replace (Z.to_nat off + length s1 - Z.to_nat off)%nat with (length s1) by lia.
  rewrite take_app_length, (take_ge (take _ l)) by (rewrite Hl; lia).
  rewrite drop_app, Hl, (drop_ge (take _ l)) by (rewrite Hl; lia). cbn [app].
  rewrite drop_app, drop_ge by lia. cbn [app]. rewrite drop_drop, <- !app_assoc, length_app.
  do 4 f_equal. lia.
Qed.

Section seq.
Variable sb : superblock.
Implicit Types (v : bview) (i : inode) (off n : Z) (src : list Z).

Lemma file_len v i : 0 <= isize i -> Z.of_nat (length (file_bytes v i)) = isize i.
Proof. intros H. unfold file_bytes. rewrite length_file_at; lia. Qed.

Lemma wrote_nil v i off : fs_ok sb v -> quiet v -> file_ok sb v i -> 0 <= off <= isize i ->
  wrote sb i v off [] i v.
Proof.
  intros Hok Hq F Ho. apply wrote_inside; try done; [lia|simpl; lia|]. apply written_nil; try done. apply F.
Qed.

Lemma wrote_app v i off src1 i1 v1 src2 i2 v2 : fs_ok sb v -> file_ok sb v i -> 0 <= off <= isize i ->
  wrote sb i v off src1 i1 v1 -> wrote sb i1 v1 (off + Z.of_nat (length src1)) src2 i2 v2 ->
  wrote sb i v off (src1 ++ src2) i2 v2.
Proof.
  intros Hok F Ho [A1 A2 A3 A4 A5 A6 A7 A8 A9 A10] [B1 B2 B3 B4 B5 B6 B7 B8 B9 B10].
  assert (En : inum i1 = inum i) by (by rewrite A4).
  constructor; try done; rewrite ?length_app, ?Nat2Z.inj_add.
  - rewrite B4, A4. cbn [iaddrs isize set_isize with_addrs]. unfold set_isize, with_addrs. cbn. f_equal. lia.
  - rewrite B5, A5. apply overwrite_app. rewrite file_len; [done|]. apply F.
  - intros b Hb Hu Hnb Hni Hne. rewrite B6; try done; [by apply A6|by apply A7| |congruence].
    intros Hin. apply A8 in Hin as [Hin|Hin]; [done|congruence].
  - intros b Hb Hu. by apply B7, A7.
  - intros b Hb. destruct (io_data _ _ _ (fl_inode _ _ _ B3) b Hb) as [Hd _].
    assert (Hr : 0 <= b < sb_size sb) by (by apply (used_bound sb v2); [apply B1|]).
    apply B8 in Hb as [Hb|Hb]; [by apply A8|]. right.
    apply not_true_iff_false. intros Hu. apply A7 in Hu; [congruence|done].
  - intros m Hm Hne. rewrite B9, A9; [done|done|done|done|congruence].
  - intros E. rewrite <- En. apply B10. rewrite En. by apply A10.
Qed.

Lemma nblk_in off n bn : 0 <= off -> 0 < n -> off / BSIZE <= bn -> bn * BSIZE < off + n ->
  bn < off / BSIZE + nblk off n.
Proof.
  intros Ho Hn. unfold nblk. rewrite (proj2 (Z.eqb_neq n 0)) by lia. unfold BSIZE.
  Z.div_mod_to_equations. lia.
Qed.

(** The blocks a write has to allocate are allocated by its two halves. *)
Lemma missing_app v i i1 v1 off n1 n2 : 0 <= off -> 0 <= n1 -> 0 <= n2 -> off + n1 + n2 <= MAXFILE * BSIZE ->
  (forall q, off <= q < off + n1 -> bmap_of v1 i1 (q / BSIZE) <> 0) ->
  (forall bn, 0 <= bn < MAXFILE -> bmap_of v i bn <> 0 -> bmap_of v1 i1 bn <> 0) ->
  missing v1 i1 (off + n1) n2 + missing v i off n1 <= missing v i off (n1 + n2).
Proof.
  intros Ho H1 H2 Hmax Hin Hmono. unfold missing. rewrite <- Nat2Z.inj_add, <- length_app.
  apply Nat2Z.inj_le, submseteq_length, NoDup_submseteq.
  - apply NoDup_app. split_and!; [apply NoDup_filter, NoDup_seqZ| |apply NoDup_filter, NoDup_seqZ].
    intros bn [Hz _]%list_elem_of_filter [_ Hb%elem_of_seqZ]%list_elem_of_filter.
    destruct (nblk_last off n1 bn) as [Hb0 Hb1]; [done|done|done|]. revert Hz.
    replace bn with (Z.max off (bn * BSIZE) / BSIZE).
    + apply Hin. destruct (Z.eqb_spec n1 0) as [->|]; [cbn in Hb; lia|]. lia.
    + unfold BSIZE in *. Z.div_mod_to_equations. lia.
  - intros bn Hb. apply list_elem_of_filter. apply elem_of_app in Hb.
    destruct Hb as [[Hz Hb%elem_of_seqZ]%list_elem_of_filter|[Hz Hb%elem_of_seqZ]%list_elem_of_filter].
    + destruct (nblk_last (off + n1) n2 bn) as [Hb0 Hb1]; [lia|done|done|].
      assert (0 < n2) by (destruct (Z.eqb_spec n2 0) as [->|]; [cbn in Hb; lia|lia]).
      split.
      * destruct (decide (bmap_of v i bn = 0)) as [|Hn]; [done|]. destruct (Hmono bn); [|done|done].
        unfold BSIZE in *. lia.
      * apply elem_of_seqZ. assert (off / BSIZE <= (off + n1) / BSIZE) by (apply Z.div_le_mono; unfold BSIZE; lia).
        split; [lia|]. apply nblk_in; lia.
    + split; [done|]. destruct (nblk_last off n1 bn) as [Hb0 Hb1]; [done|done|done|].
      apply elem_of_seqZ. split; [lia|].
      assert (0 < n1) by (destruct (Z.eqb_spec n1 0) as [->|]; [cbn in Hb; lia|lia]).
      apply nblk_in; lia.
Qed.

(** Space for the beginning of a write. *)
Lemma space_first v i off n1 n2 : 0 <= off -> 0 <= n1 -> 0 <= n2 ->
  space sb v i off (n1 + n2) -> space sb v i off n1.
Proof.
  intros Ho H1 H2 Hsp. assert (missing v i off n1 <= missing v i off (n1 + n2)).
  { unfold missing. apply Nat2Z.inj_le, submseteq_length, NoDup_submseteq; [apply NoDup_filter, NoDup_seqZ|].
    intros bn [Hz Hb%elem_of_seqZ]%list_elem_of_filter. apply list_elem_of_filter. split; [done|].
    destruct (nblk_last off n1 bn) as [Hb0 Hb1]; [done|done|done|]. apply elem_of_seqZ. split; [lia|].
    assert (0 < n1) by (destruct (Z.eqb_spec n1 0) as [->|]; [cbn in Hb; lia|lia]).
    apply nblk_in; lia. }
  pose proof (missing_le v i off n1 H1). unfold space in *. lia.
Qed.

(** Space for the rest of a write. *)
Lemma space_rest v i off src i1 v1 n2 : 0 <= off <= isize i -> 0 <= n2 ->
  off + Z.of_nat (length src) + n2 <= MAXFILE * BSIZE ->
  wrote sb i v off src i1 v1 -> spent sb i v off (Z.of_nat (length src)) i1 v1 ->
  space sb v i off (Z.of_nat (length src) + n2) -> space sb v1 i1 (off + Z.of_nat (length src)) n2.
Proof.
  intros Ho Hn2 Hmax W [S1 S2 _] Hsp. set (n1 := Z.of_nat (length src)) in *.
  assert (Hm : missing v1 i1 (off + n1) n2 + missing v i off n1 <= missing v i off (n1 + n2)).
  { apply missing_app; try done; try lia. intros q Hq.
    apply (bn_range sb v1 i1); [apply W|]. rewrite (wo_inode _ _ _ _ _ _ _ W). cbn. fold n1. lia. }
  pose proof (missing_le v1 i1 (off + n1) n2 Hn2). pose proof (missing_le v i off n1 ltac:(lia)).
  unfold space in *. destruct Hsp as [Hsp|Hsp]; [left; lia|right; lia].
Qed.
End seq.

(** * Transactions *)

(** The view between transactions, with room for the bitmap blocks [B] and
    one chunk of [filewrite] in the log. *)
Record idle (B : gset Z) (v : bview) : Prop := {
  id_ops : vops v = 0;
  id_logged : vlogged v = ∅;
  id_room : Z.of_nat (size B) + 9 <= vlsize v <= LOGSIZE
}.

Section ops.
Variable sb : superblock.
Implicit Types (v : bview) (i : inode) (n : Z) (l : gset Z).

Lemma fs_ok_ops v n l : fs_ok sb v -> fs_ok sb (v_ops n l v).
Proof. intros [[] ? ?]. constructor; [by constructor|done|done]. Qed.
Lemma file_ok_ops v i n l : file_ok sb v i -> file_ok sb (v_ops n l v) i.
Proof. intros [[] ? ? ? ? ?]. by constructor. Qed.
Lemma wrote_ops v i off src i' v' n l n' l' : wrote sb i (v_ops n l v) off src i' v' ->
  wrote sb i v off src i' (v_ops n' l' v').
Proof. intros [? ? ? ? ? ? ? ? ? ?]. constructor; try done; [by apply fs_ok_ops|by apply file_ok_ops]. Qed.

Lemma file_ok_islp v i x : file_ok sb v i -> file_ok sb v (set_islp x i).
Proof. intros [[] [] [] ? ? ?]. constructor; try done; by constructor. Qed.
Lemma wrote_islp v i off src i' v' x : wrote sb i v off src i' v' ->
  wrote sb (set_islp x i) v off src (set_islp x i') v'.
Proof.
  intros [? ? ? E ? ? ? ? ? ?]. constructor; try done; [by apply file_ok_islp|]. by rewrite E at 1.
Qed.

Lemma chunk_room B i v off n : idle B v -> 0 <= n <= wmax ->
  room (Bi B i) (ki i + (nblk off n + (0 + 1))) (v_ops 1 ∅ v).
Proof.
  intros [I1 I2 I3] Hn. assert (Hnb : 0 <= nblk off n <= 4).
  { unfold nblk. destruct (n =? 0); [lia|]. change wmax with 1536 in Hn. unfold BSIZE.
    Z.div_mod_to_equations. lia. }
  assert (Z.of_nat (size (Bi B i)) + ki i <= Z.of_nat (size B) + 1).
  { unfold Bi, ki. destruct (ind i =? 0); [lia|]. pose proof (size_union_le {[ind i]} B).
    rewrite size_singleton in *. lia. }
  pose proof (ki_range i). constructor; cbn [vlogged vlsize vops v_ops]; [|lia|lia|lia].
  rewrite union_empty_l_L. lia.
Qed.
End ops.

Section filelayer.
Context {T : Type} {BC : BufferCache T}.
#[local] Notation st := (fst_ T).
Variables (p : Z) (B : gset Z).
Variable devread : Z -> option (nat -> Z -> M (fsst T) (Z * list Z)).
Variable devwrite : Z -> option (nat -> list Z -> M (fsst T) Z).
Implicit Types (s : st) (v : bview) (c : ctx) (f : nat) (src : list Z).

(** [f] is an open file on a cached inode that nobody has locked, between
    transactions. *)
Record open_file (s : st) (f : nat) (v : bview) : Prop := {
  of_ty : ty (ftab s f) = FD_INODE;
  of_rel : frel p (ffs s) v;
  of_fs : fs_ok (fsb (ffs s)) v;
  of_quiet : quiet v;
  of_idle : idle B v;
  of_file : file_ok (fsb (ffs s)) v (icache (ffs s) (fip (ftab s f)));
  of_valid : ivalid (icache (ffs s) (fip (ftab s f))) = true;
  of_ref : 1 <= iref (icache (ffs s) (fip (ftab s f)));
  of_free : islp (icache (ffs s) (fip (ftab s f))) = initsleeplock;
  of_off : 0 <= off (ftab s f) <= isize (icache (ffs s) (fip (ftab s f)))
}.

(** Only the offset of [f] changes in the table of open files. *)
Record moved (f : nat) (o : Z) (s s' : st) : Prop := {
  mv_file : ftab s' f = set_off o (ftab s f);
  mv_others : forall f', f' <> f -> ftab s' f' = ftab s f';
  mv_pipes : fpst s' = fpst s
}.

Lemma moved_trans f o1 o2 s1 s2 s3 : moved f o1 s1 s2 -> moved f o2 s2 s3 -> moved f o2 s1 s3.
Proof.
  intros [A1 A2 A3] [B1 B2 B3]. constructor; [by rewrite B1, A1| |congruence].
  intros f' Hf. by rewrite B2, A2.
Qed.

(** One round of the loop: a transaction that writes one chunk. *)
Lemma chunk_wp {A} (k : Z -> M st A) f src s v c (Q : A -> ctx -> st -> Prop) :
  let x := ftab s f in let sb := fsb (ffs s) in let i := icache (ffs s) (fip x) in
  let n := Z.of_nat (length src) in
  open_file s f v -> has_bmap sb B -> held c = [] -> mypid c = p -> 0 < n <= wmax ->
  off x + n <= MAXFILE * BSIZE -> Forall is_u8 src -> space sb v i (off x) n ->
  (forall c' s' i' v', same_thread c c' -> open_file s' f v' -> only_inode (fip x) i' (ffs s) (ffs s') ->
     wrote sb i v (off x) src i' v' -> spent sb i v (off x) n i' v' -> moved f (off x + n) s s' ->
     wp (k n) c' s' Q) ->
  wp (onfs begin_op;; onfs (ilock (fip x));;
      r ← onfs (writei devwrite (fip x) src (off x));
      when (r >? 0) (setf f (fun y => set_off (u32 (off y + r)) y));;
      onfs (iunlock (fip x));; onfs end_op;; k r) c s Q.
Proof.
  intros x sb i n [O1 O2 O3 O4 O5 O6 O7 O8 O9 O10] HB Hc Hp Hn Hmax HF Hsp HQ.
  fold x in O6, O7, O8, O9, O10. fold sb i in O3, O6, O7, O8, O9, O10. pose proof O5 as [I1 I2 I3].
  assert (Hr1 : room (Bi B i) (ki i + (nblk (off x) n + (0 + 1))) (v_ops 1 ∅ v)) by (apply chunk_room; [done|lia]).
  do 2 wp_step. apply (wp_begin_op p _ v); try done. intros c1 t1 Hth1 Hf1.
  do 2 wp_step. cbn [ffs set_ffs]. apply (ilock_wp p _ _ (v_ops 1 ∅ v)); cbn [fsb icache set_fbuf]; fold sb i; try done.
  { by apply fs_ok_ops. } { by apply quiet_opens. } { eapply room_buf; [exact Hr1|]. cbn [vopen v_ops]. rewrite (proj1 O4), map_size_empty. lia. }
  { by rewrite (st_held _ _ Hth1). } { by rewrite (st_pid _ _ Hth1). } { apply O6. } { by rewrite O9. } { by rewrite O7. }
  intros c2 s2 Hth2 Hf2 [L1 L2 L3]. cbn [fsb icache set_fbuf] in L1, L2, L3. fold sb in L1.
  unfold locked_inode in L2. rewrite O7 in L2.
  set (il := set_islp (Sleeplock true p) i) in *.
  do 2 wp_step. cbn [ffs set_ffs]. apply (writei_wp p B devwrite 0 (fip x) src (off x) s2 (v_ops 1 ∅ v));
    rewrite ?L1, ?L2; try done.
  { by apply fs_ok_ops. } { by apply file_ok_ops, file_ok_islp. }
  { by rewrite (st_held _ _ Hth2), (st_held _ _ Hth1). } { by rewrite (st_pid _ _ Hth2), (st_pid _ _ Hth1). }
  intros c3 s3 i3 v3 Hth3 Hf3 [W1 W2 W3] Hw Hs Hr3. fold n.
  wp_step. rewrite (proj2 (Z.gtb_lt n 0)) by lia. wp_step; [|done]. wp_step.
  pose proof (wo_inode _ _ _ _ _ _ _ Hw) as E3. fold n in E3.
  assert (Hth : same_thread c c3) by eauto using same_thread_trans.
  assert (Hu : u32 (off x + n) = off x + n).
  { apply u32_small. unfold MAXFILE, NDIRECT, NINDIRECT, BSIZE in Hmax. wrap_lia. }
  do 2 wp_step. cbn [ffs upd_file set_ffs]. apply (iunlock_wp p); rewrite ?W2.
  { by rewrite (st_held _ _ Hth). } { by rewrite (st_pid _ _ Hth). } { by rewrite E3. } { by rewrite E3. }
  set (s4 := upd_inode (fip x) (set_islp initsleeplock) s3). set (i4 := set_islp initsleeplock i3).
  assert (E4 : icache s4 (fip x) = i4) by (unfold s4; by rewrite upd_inode_same, W2).
  assert (Hio : only_inode (fip x) i4 (ffs s) s4).
  { constructor; [by change (fsb s3 = sb); rewrite W1, L1|done|]. intros ip' Hne. unfold s4. rewrite upd_inode_ne by done.
    by rewrite W3, L3. }
  do 2 wp_step. cbn [ffs set_ffs upd_file]. apply (wp_end_op p _ v3); try done.
  { cbn. by rewrite (st_held _ _ Hth). } { cbn. by rewrite (st_pid _ _ Hth). }
  { apply Hs. } { apply Hw. } { apply Hw. }
  intros c5 t5 Hth5 Hf5. cbn [ffs set_ffs upd_file].
  assert (Hw' : wrote sb i v (off x) src i4 (v_ops 0 ∅ v3)).
  { replace i with (set_islp initsleeplock il); [by apply wrote_islp, (wrote_ops _ _ _ _ _ _ _ 1 ∅)|].
    unfold il. rewrite <- O9. by destruct i. }
  assert (Esb : fsb (set_fbuf t5 s4) = sb) by (change (fsb s3 = sb); by rewrite W1, L1).
  apply (HQ _ _ i4 (v_ops 0 ∅ v3)); try done.
  - eapply same_thread_trans; [exact Hth|]. eapply same_thread_trans; [apply same_thread_woken|done].
  - constructor; cbn [ffs ftab set_ffs upd_file]; rewrite ?fn_lookup_insert; fold x; cbn [ty fip off set_off].
    + done.
    + done.
    + rewrite Esb. apply Hw'.
    + apply Hw'.
    + split; [done|done|]. cbn. destruct Hs as [_ _ [_ ->]]. done.
    + rewrite Esb. cbn [icache set_fbuf]. rewrite E4. apply Hw'.
    + cbn [icache set_fbuf]. rewrite E4. unfold i4. by rewrite E3.
    + cbn [icache set_fbuf]. rewrite E4. unfold i4. by rewrite E3.
    + cbn [icache set_fbuf]. by rewrite E4.
    + cbn [icache set_fbuf]. rewrite E4, Hu. unfold i4. rewrite E3. cbn. lia.
  - destruct Hio as [? ? ?]. by constructor.
  - destruct Hs as [S1 S2 S3]. constructor; [done|done|]. split; [by rewrite I1|apply S3].
  - constructor; cbn [ftab set_ffs upd_file fpst]; [rewrite fn_lookup_insert; fold x; by rewrite Hu| |done].
    intros f' Hne. by rewrite fn_lookup_insert_ne.
Qed.

Lemma filewrite_loop_wp fuel f src s v c (Q : bool -> ctx -> st -> Prop) :
  let x := ftab s f in let sb := fsb (ffs s) in let i := icache (ffs s) (fip x) in
  let n := Z.of_nat (length src) in
  open_file s f v -> has_bmap sb B -> held c = [] -> mypid c = p -> (length src <= fuel)%nat ->
  off x + n <= MAXFILE * BSIZE -> Forall is_u8 src -> space sb v i (off x) n ->
  (forall c' s' i' v', same_thread c c' -> open_file s' f v' -> only_inode (fip x) i' (ffs s) (ffs s') ->
     wrote sb i v (off x) src i' v' -> moved f (off x + n) s s' -> Q true c' s') ->
  wp (filewrite_loop devwrite fuel f src) c s Q.
Proof.
  revert src s v c Q. induction fuel as [|fuel IH]; intros src s v c Q x sb i n Hof HB Hc Hp Hf Hmax HF Hsp HQ.
  all: cbn [filewrite_loop]; destruct (Z.ltb_spec 0 (Z.of_nat (length src))) as [Hlt|Hge].
  2, 4: assert (src = []) as -> by (apply nil_length_inv; lia); wp_step;
    apply (HQ c s i v); [done|done|done|apply wrote_nil; apply Hof|];
    rewrite Z.add_0_r; constructor; [unfold x; by destruct (ftab s f)|done|done].
  { lia. }
  set (n1 := Z.min (Z.of_nat (length src)) wmax).
  assert (Hn1 : 0 < n1 <= n /\ n1 <= wmax) by (unfold n1, n; change wmax with 1536; lia).
  set (src1 := take (Z.to_nat n1) src). set (src2 := drop (Z.to_nat n1) src).
  assert (Hl1 : Z.of_nat (length src1) = n1) by (unfold src1; rewrite length_take; lia).
  assert (Hl2 : Z.of_nat (length src2) = n - n1) by (unfold src2; rewrite length_drop; lia).
  do 2 wp_step. change (id (ftab s f)) with x.
  apply (chunk_wp _ f src1 s v); try done; fold x sb i; rewrite ?Hl1; try lia.
  { by apply Forall_take. } { apply (space_first _ _ _ _ _ (n - n1)); [apply Hof|lia|lia|]. by replace (n1 + (n - n1)) with n by lia. }
  intros c1 s1 i1 v1 Hth1 Hof1 Hoi1 Hw1 Hs1 Hm1.
  rewrite (proj2 (Z.ltb_ge n1 0)), Z.eqb_refl by lia. cbn [negb].
  destruct Hoi1 as [P1 P2 P3]. pose proof (mv_file _ _ _ _ Hm1) as Ef. fold x in Ef.
  assert (Eip : fip (ftab s1 f) = fip x) by (by rewrite Ef).
  assert (Eoff : off (ftab s1 f) = off x + n1) by (by rewrite Ef).
  apply (IH src2 s1 v1); rewrite ?Eip, ?Eoff, ?P1, ?P2, ?Hl2; try done.
  { by rewrite (st_held _ _ Hth1). } { by rewrite (st_pid _ _ Hth1). } { lia. } { fold n in Hmax. lia. }
  { by apply Forall_drop. }
  { rewrite <- Hl1. apply (space_rest sb v i (off x) src1); [apply Hof|lia|rewrite Hl1; lia|done|by rewrite Hl1|].
    rewrite Hl1. by replace (n1 + (n - n1)) with n by lia. }
  intros c2 s2 i2 v2 Hth2 Hof2 [R1 R2 R3] Hw2 Hm2. apply (HQ c2 s2 i2 v2); try done.
  - eauto using same_thread_trans.
  - constructor; [by rewrite R1|done|]. intros ip' Hne. by rewrite R3, P3.
  - unfold src1, src2 in *. rewrite <- (take_drop (Z.to_nat n1) src).
    apply (wrote_app _ _ _ _ _ i1 v1); [apply Hof|apply Hof|apply Hof|done|by rewrite Hl1].
  - replace (off x + n) with (off x + n1 + (n - n1)) by lia. by eapply moved_trans.
Qed.

Lemma filewrite_wp f src s v c (Q : Z -> ctx -> st -> Prop) :
  let x := ftab s f in let sb := fsb (ffs s) in let i := icache (ffs s) (fip x) in
  let n := Z.of_nat (length src) in
  open_file s f v -> writable x = true -> has_bmap sb B -> held c = [] -> mypid c = p ->
  off x + n <= MAXFILE * BSIZE -> Forall is_u8 src -> space sb v i (off x) n ->
  (forall c' s' i' v', same_thread c c' -> open_file s' f v' -> only_inode (fip x) i' (ffs s) (ffs s') ->
     wrote sb i v (off x) src i' v' -> moved f (off x + n) s s' -> Q n c' s') ->
  wp (filewrite devwrite f src) c s Q.
Proof.
  intros x sb i n Hof Hw HB Hc Hp Hmax HF Hsp HQ. unfold filewrite. do 2 wp_step. change (id (ftab s f)) with x.
  rewrite Hw. cbn [negb]. assert (ty x = FD_INODE) as -> by apply Hof. wp_step.
  by apply (filewrite_loop_wp _ f src s v).
Qed.

Lemma idle_buf_room v : quiet v -> idle B v -> buf_room v.
Proof.
  intros [Hq _] [_ Hl _]. unfold buf_room, vopen_blocks. rewrite Hq, Hl, map_img_empty_L, union_empty_l_L, size_empty.
  unfold NBUF, MAXOPBLOCKS. lia.
Qed.

Lemma fileread_wp f n s v c (Q : Z * list Z -> ctx -> st -> Prop) :
  let x := ftab s f in let i := icache (ffs s) (fip x) in
  open_file s f v -> readable x = true -> held c = [] -> mypid c = p -> 0 <= n -> is_u32 (off x + n) ->
  (forall c' s', let r := slice (file_bytes v i) (off x) n in
     same_thread c c' -> open_file s' f v -> only_inode (fip x) i (ffs s) (ffs s') ->
     moved f (off x + Z.of_nat (length r)) s s' -> Q (Z.of_nat (length r), r) c' s') ->
  wp (fileread devread f n) c s Q.
Proof.
  intros x i Hof Hrd Hc Hp Hn Hu HQ. unfold fileread. do 2 wp_step. change (id (ftab s f)) with x.
  rewrite Hrd. cbn [negb]. assert (ty x = FD_INODE) as -> by apply Hof.
  pose proof Hof as [O1 O2 O3 O4 O5 O6 O7 O8 O9 O10]. fold x in O6, O7, O8, O9, O10. fold i in O6, O7, O8, O9, O10.
  do 2 wp_step. apply (ilock_wp p _ _ v); fold i; try done.
  { by apply quiet_opens. } { by apply idle_buf_room. } { apply O6. } { by rewrite O9. } { by rewrite O7. }
  intros c2 s2 Hth2 Hf2 [L1 L2 L3]. unfold locked_inode in L2. rewrite O7 in L2.
  set (il := set_islp (Sleeplock true p) i) in *.
  assert (Eil : set_islp initsleeplock il = i) by (unfold il; rewrite <- O9; by destruct i).
  set (r := slice (file_bytes v i) (off x) n) in HQ.
  assert (Hr : read_len i (off x) n = Z.of_nat (length r)).
  { pose proof (read_len_range i (off x) n O10 Hn). unfold r. rewrite <- read_slice, length_file_at; lia. }
  assert (Hlen : Z.of_nat (length r) <= n /\ off x + Z.of_nat (length r) <= isize i).
  { rewrite <- Hr. unfold read_len. zcases. }
  assert (Htail : forall c3 t3 s3, same_thread c2 c3 -> frel p (set_fbuf t3 s2) v -> ffs s3 = set_fbuf t3 s2 ->
    moved f (off x + Z.of_nat (length r)) s s3 ->
    wp (onfs (iunlock (fip x));; mret (Z.of_nat (length r), r)) c3 s3 Q).
  { intros c3 t3 s3 Hth3 Hf3 E3 Hm. do 2 wp_step. rewrite E3.
    apply (iunlock_wp p); cbn [icache set_fbuf]; rewrite ?L2; try done.
    { by rewrite (st_held _ _ Hth3), (st_held _ _ Hth2). } { by rewrite (st_pid _ _ Hth3), (st_pid _ _ Hth2). }
    wp_step. set (s4 := upd_inode (fip x) (set_islp initsleeplock) (set_fbuf t3 s2)).
    assert (E4 : icache s4 (fip x) = i).
    { unfold s4. rewrite upd_inode_same. cbn [icache set_fbuf]. by rewrite L2. }
    pose proof (mv_file _ _ _ _ Hm) as Ef. fold x in Ef.
    apply HQ.
    - eapply same_thread_trans; [exact Hth2|]. eapply same_thread_trans; [exact Hth3|apply same_thread_woken].
    - constructor; cbn [ffs ftab set_ffs]; rewrite ?Ef; cbn [ty fip off set_off]; rewrite ?E4; try done.
      + change (fsb s4) with (fsb s2). by rewrite L1.
      + change (fsb s4) with (fsb s2). by rewrite L1.
      + lia.
    - constructor; [exact L1|exact E4|]. intros ip' Hne. cbn [ffs set_ffs]. unfold s4. rewrite upd_inode_ne by done.
      by apply L3.
    - destruct Hm as [? ? ?]. by constructor. }
  do 2 wp_step. cbn [ffs set_ffs]. rewrite (u32_small n) by wrap_lia.
  apply (readi_wp p devread _ s2 v); rewrite ?L1, ?L2; try done.
  { by apply file_ok_islp. } { by apply idle_buf_room. }
  { by rewrite (st_held _ _ Hth2). } { by rewrite (st_pid _ _ Hth2). }
  intros c3 t3 Hth3 Hf3. change (read_len il (off x) n) with (read_len i (off x) n).
  change (file_at v il) with (file_at v i). rewrite read_slice by done. rewrite Hr. fold r.
  wp_step. cbn [fst]. wp_step.
  - wp_step. apply (Htail _ t3); try done. apply Z.gtb_lt in H.
    constructor; cbn [ftab upd_file set_ffs fpst]; [|intros; by rewrite fn_lookup_insert_ne|done].
    rewrite fn_lookup_insert. fold x. rewrite u32_small; [done|]. wrap_lia.
  - apply (Htail _ t3); try done. rewrite Z.gtb_ltb in H. apply Z.ltb_ge in H.
    constructor; cbn [ftab set_ffs fpst]; [|done|done].
    replace (off x + Z.of_nat (length r)) with (off x) by lia. unfold x. by destruct (ftab s f).
Qed.

(** The same inode through another open file. *)
Lemma open_file_other s f g v : open_file s f v -> ty (ftab s g) = FD_INODE ->
  fip (ftab s g) = fip (ftab s f) -> 0 <= off (ftab s g) <= isize (icache (ffs s) (fip (ftab s f))) ->
  open_file s g v.
Proof. intros [O1 O2 O3 O4 O5 O6 O7 O8 O9 O10] Ht E Ho. constructor; rewrite ?E; done. Qed.

Lemma slice_overwrite (l src : list Z) o : 0 <= o <= Z.of_nat (length l) ->
  slice (overwrite l o src) o (Z.of_nat (length src)) = src.
Proof.
  intros Ho. unfold slice, overwrite. assert (Hl : length (take (Z.to_nat o) l) = Z.to_nat o) by (rewrite length_take; lia).
  rewrite drop_app_length' by done. rewrite Nat2Z.id. apply take_app_length.
Qed.

(** C18: writing to an open file.  However long the buffer, [filewrite] writes
    it in transactions that fit the log and returns its length: the file has
    exactly these bytes at the old offset and its other bytes as before, the
    offset has moved behind them, the inode is unlocked again and everything
    is committed; no other file, inode or open file changes.  A file opened
    for reading only is left alone and the result is -1. *)
Theorem filewrite_correct f src s v c :
  let x := ftab s f in let sb := fsb (ffs s) in let i := icache (ffs s) (fip x) in
  let n := Z.of_nat (length src) in
  open_file s f v -> has_bmap sb B -> held c = [] -> mypid c = p ->
  off x + n <= MAXFILE * BSIZE -> Forall is_u8 src -> space sb v i (off x) n ->
  wp (filewrite devwrite f src) c s (fun r c' s' =>
    if writable x then r = n /\ same_thread c c' /\ exists i' v',
      open_file s' f v' /\ only_inode (fip x) i' (ffs s) (ffs s') /\
      wrote sb i v (off x) src i' v' /\ moved f (off x + n) s s'
    else r = -1 /\ s' = s).
Proof.
  intros x sb i n Hof HB Hc Hp Hmax HF Hsp. destruct (writable x) eqn:Hw.
  - apply (filewrite_wp f src s v); try done. intros c' s' i' v' H1 H2 H3 H4 H5.
    split; [done|]. split; [done|]. by exists i', v'.
  - unfold filewrite. do 2 wp_step. change (id (ftab s f)) with x. rewrite Hw. cbn [negb]. by wp_step.
Qed.

(** C22: what is written to a file is what is read from it: bytes written
    through one open file are returned by a read through another open file on
    the same inode that stands at the same offset. *)
Theorem file_write_read f g src s v c :
  let x := ftab s f in let y := ftab s g in let sb := fsb (ffs s) in
  let i := icache (ffs s) (fip x) in let n := Z.of_nat (length src) in
  open_file s f v -> has_bmap sb B -> held c = [] -> mypid c = p -> writable x = true ->
  off x + n <= MAXFILE * BSIZE -> Forall is_u8 src -> space sb v i (off x) n ->
  g <> f -> ty y = FD_INODE -> readable y = true -> fip y = fip x -> off y = off x ->
  wp (filewrite devwrite f src;; fileread devread g n) c s (fun r _ _ => r = (n, src)).
Proof.
  intros x y sb i n Hof HB Hc Hp Hw Hmax HF Hsp Hg Hty Hrd Hip Hoff. wp_step.
  apply (filewrite_wp f src s v); try done. intros c1 s1 i1 v1 Hth1 Hof1 [P1 P2 P3] Hwr [M1 M2 M3].
  fold x in P2, Hwr. fold i in Hwr.
  assert (Ey : ftab s1 g = y) by by apply M2.
  assert (Eip : fip (ftab s1 f) = fip x) by (by rewrite M1). pose proof (of_off _ _ _ Hof) as Ho. fold x i in Ho.
  assert (Hsz : isize i1 = Z.max (isize i) (off x + n)) by (by rewrite (wo_inode _ _ _ _ _ _ _ Hwr)).
  apply (fileread_wp g n s1 v1); rewrite ?Ey, ?Hip, ?Hoff, ?P2; try done.
  - apply (open_file_other s1 f); rewrite ?Ey, ?Eip, ?P2; try done. rewrite Hoff, Hsz. lia.
  - by rewrite (st_held _ _ Hth1).
  - by rewrite (st_pid _ _ Hth1).
  - lia.
  - unfold MAXFILE, NDIRECT, NINDIRECT, BSIZE in Hmax. wrap_lia.
  - intros c2 s2 r _ _ _ _. unfold r. rewrite (wo_bytes _ _ _ _ _ _ _ Hwr).
    rewrite slice_overwrite; [done|]. rewrite file_len; [done|lia].
Qed.
End filelayer.

(** * An example: the file of the volume of FsSpec.v, open twice *)
Definition ex_view0 : bview := v_ops 0 ∅ ex_view.
Definition ex_fst : fst_ lst :=
  Fst (Fsst (cold_lst ex_disk 100 2 30 0) ex_sb ex_icache) (Pst (Kst (fun _ => 0) 0 0) (fun _ => Pipe [] 0 0 false false))
    (fun f => match f with
              | 0 => File FD_INODE 1 false true 0 1 600
              | 1 => File FD_INODE 1 true false 0 1 600
              | _ => file0
              end%nat).

Lemma ex_open f : (f < 2)%nat -> open_file 1 ex_B ex_fst f ex_view0.
Proof.
  intros Hf. assert (fip (ftab ex_fst f) = 1%nat /\ off (ftab ex_fst f) = 600 /\ ty (ftab ex_fst f) = FD_INODE)
    as (E1 & E2 & E3) by (destruct f as [|[|]]; [done|done|lia]).
  constructor; rewrite ?E1, ?E2, ?E3; try done.
  - apply cold_lrel; unfold LOGSIZE, MAXOPBLOCKS; lia.
  - apply (fs_ok_ops ex_sb ex_view), ex_fs_ok.
  - apply (file_ok_ops ex_sb ex_view), ex_file_ok.
Qed.

(** 2000 bytes appended to the 600 of the file: two transactions. *)
Definition ex_src : list Z := replicate 2000 120.

Lemma filewrite_correct_witness :
  wp (filewrite no_dev 0 ex_src) ctx0 ex_fst (fun r c' s' =>
    if writable (ftab ex_fst 0%nat) then r = 2000 /\ same_thread ctx0 c' /\ exists i' v',
      open_file 1 ex_B s' 0 v' /\ only_inode 1 i' (ffs ex_fst) (ffs s') /\
      wrote ex_sb ex_file ex_view0 600 ex_src i' v' /\ moved 0 2600 ex_fst s'
    else r = -1 /\ s' = ex_fst).
Proof.
  apply (filewrite_correct 1 ex_B no_dev 0 ex_src ex_fst ex_view0 ctx0); try done.
  - apply ex_open. lia.
  - apply ex_has_bmap.
  - by apply Forall_replicate.
  - right. by vm_compute.
Defined.

Lemma file_write_read_witness :
  wp (filewrite no_dev 0 ex_src;; fileread no_dev 1 2000) ctx0 ex_fst (fun r _ _ => r = (2000, ex_src)).
Proof.
  apply (file_write_read 1 ex_B no_dev no_dev 0 1 ex_src ex_fst ex_view0 ctx0); try done.
  - apply ex_open. lia.
  - apply ex_has_bmap.
  - by apply Forall_replicate.
  - right. by vm_compute.
Defined.
