(* ===== verification/Syscall.v ===== *)
(** * System call arguments (syscall.c)
    The kernel reads a system call's arguments from the memory of the calling
    process.  [uproc] is what these routines see of the process: its size,
    its memory as seen through its page table, and the saved stack pointer. *)
From S2P Require Import Prelude CString Mmu.

(** System call numbers (syscall.h). *)
Inductive sysno :=
| SYS_fork | SYS_exit | SYS_wait | SYS_pipe | SYS_read | SYS_kill | SYS_exec
| SYS_fstat | SYS_chdir | SYS_dup | SYS_getpid | SYS_sbrk | SYS_sleep | SYS_uptime
| SYS_open | SYS_write | SYS_mknod | SYS_unlink | SYS_link | SYS_mkdir | SYS_close.
Definition sysnos : list sysno :=
  [SYS_fork; SYS_exit; SYS_wait; SYS_pipe; SYS_read; SYS_kill; SYS_exec; SYS_fstat; SYS_chdir;
   SYS_dup; SYS_getpid; SYS_sbrk; SYS_sleep; SYS_uptime; SYS_open; SYS_write; SYS_mknod;
   SYS_unlink; SYS_link; SYS_mkdir; SYS_close].

Record uproc := Uproc { usz : Z; umem : mem; uesp : Z }.

(** [*ip], or [None] for -1. *)
Definition fetchint (u : uproc) (addr : Z) : option Z :=
  if (addr >=? usz u) || (u32 (addr + 4) >? usz u) then None
  else Some (i32 (load32 (umem u) addr)).

(** The loop of [fetchstr]: the bytes from [s] to the first NUL below [ep]. *)
Fixpoint fetchstr_loop (fuel : nat) (m : mem) (s ep : Z) : option (list Z) :=
  match fuel with
  | O => None
  | S f =>
      if s <? ep then
        if m s =? 0 then Some [] else option_map (cons (m s)) (fetchstr_loop f m (s + 1) ep)
      else None
  end.
(** The string at [addr]; the length the source returns is its length. *)
Definition fetchstr (u : uproc) (addr : Z) : option (list Z) :=
  if addr >=? usz u then None
  else fetchstr_loop (Z.to_nat (usz u - addr) + 1) (umem u) addr (usz u).

Definition argint (u : uproc) (n : Z) : option Z := fetchint u (u32 (uesp u + 4 + 4 * n)).

Definition argptr (u : uproc) (n size : Z) : option Z :=
  match argint u n with
  | None => None
  | Some i =>
      if (size <? 0) || (u32 i >=? usz u) || (u32 (u32 i + size) >? usz u) then None
      else Some (u32 i)
  end.

Definition argstr (u : uproc) (n : Z) : option (list Z) :=
  match argint u n with
  | None => None
  | Some addr => fetchstr u (u32 addr)
  end.

(** The bytes at [a]. *)
Definition bytes_at (m : mem) (a : Z) (n : nat) : list Z := (fun k => m (a + Z.of_nat k)) <$> seq 0 n.
(** Storing bytes through a user pointer. *)
Fixpoint put_bytes (m : mem) (a : Z) (bs : list Z) : mem :=
  match bs with [] => m | b :: bs' => put_bytes (store8 m a b) (a + 1) bs' end.

(** The invariant of a process's size: user memory ends below the kernel. *)
Definition uproc_ok (u : uproc) : Prop := 0 <= usz u <= KERNBASE /\ mem_wf (umem u).

Section args.
Implicit Types (u : uproc) (a n : Z).

Lemma load32_u32 m a : mem_wf m -> is_u32 (load32 m a).
Proof.
  intros Hm. pose proof (Hm a). pose proof (Hm (a + 1)). pose proof (Hm (a + 2)). pose proof (Hm (a + 3)).
  unfold load32. wrap_lia.
Qed.

Lemma fetchstr_loop_spec fuel m s ep r : fetchstr_loop fuel m s ep = Some r ->
  s + Z.of_nat (length r) < ep /\ r = bytes_at m s (length r) /\ Forall (fun b => b <> 0) r /\
  m (s + Z.of_nat (length r)) = 0.
Proof.
  revert s r. induction fuel as [|f IH]; intros s r H; cbn [fetchstr_loop] in H; [done|].
  destruct (Z.ltb_spec s ep) as [Hlt|]; [|done]. destruct (Z.eqb_spec (m s) 0) as [E|E].
  - simplify_eq. cbn. rewrite Z.add_0_r. auto.
  - destruct (fetchstr_loop f m (s + 1) ep) as [r'|] eqn:Er; [|done]. cbn in H. simplify_eq.
    destruct (IH _ _ Er) as (H1 & H2 & H3 & H4). cbn [length]. split_and!.
    + lia.
    + unfold bytes_at. cbn [seq fmap list_fmap]. rewrite Z.add_0_r. f_equal. rewrite H2 at 1.
      unfold bytes_at. rewrite <- seq_shift, <- list_fmap_compose. apply list_fmap_ext.
      intros ? x _. cbn. f_equal. lia.
    + by constructor.
    + rewrite <- H4. f_equal. lia.
Qed.

(** Enough fuel: the loop finds the first NUL below [ep]. *)
Lemma fetchstr_loop_total k fuel m s ep : s + Z.of_nat k < ep -> m (s + Z.of_nat k) = 0 ->
  (k < fuel)%nat -> exists r, fetchstr_loop fuel m s ep = Some r /\ (length r <= k)%nat.
Proof.
  revert fuel s. induction k as [|k IH]; intros fuel s Hk H0 Hf; (destruct fuel as [|f]; [lia|]);
    cbn [fetchstr_loop]; rewrite (proj2 (Z.ltb_lt s ep)) by lia.
  - rewrite Z.add_0_r in H0. rewrite H0. cbn. eauto.
  - destruct (m s =? 0); [exists []; cbn; split; [done|lia]|].
    destruct (IH f (s + 1)) as (r & -> & Hr); [lia|rewrite <- H0; f_equal; lia|lia|].
    exists (m s :: r). cbn. split; [done|lia].
Qed.
End args.

(** C24: a pointer argument that [argptr] accepts points to [size] bytes that
    all lie in the memory of the process, below the kernel, whatever 32-bit
    value the process passed and however the sum in the check wraps. *)
Theorem argptr_in_bounds u n size a : uproc_ok u -> is_i32 size -> argptr u n size = Some a ->
  0 <= size /\ 0 <= a /\ a + size <= usz u /\ a + size <= KERNBASE.
Proof.
  intros [Hsz Hm] Hi. unfold argptr. destruct (argint u n) as [i|]; [|done].
  destruct (Z.ltb_spec size 0); cbn [orb]; [done|].
  rewrite Z.geb_leb. destruct (Z.leb_spec (usz u) (u32 i)); cbn [orb]; [done|].
  rewrite Z.gtb_ltb. destruct (Z.ltb_spec (usz u) (u32 (u32 i + size))); [done|]. intros [= <-].
  pose proof (u32_range i) as Hr. unfold KERNBASE in *. rewrite (u32_small (u32 i + size)) in * by wrap_lia.
  unfold is_u32 in Hr. lia.
Qed.

(** [argint] delivers the 32-bit word the process pushed for the argument
    exactly when that word lies within its memory, and -1 otherwise. *)
Theorem argint_correct u n : uproc_ok u -> is_u32 (uesp u) -> 0 <= n < 8 -> uesp u + 40 < 4294967296 ->
  let a := uesp u + 4 + 4 * n in
  argint u n = if decide (a + 4 <= usz u) then Some (i32 (load32 (umem u) a)) else None.
Proof.
  intros [Hsz Hm] Hr Hn Hov a. unfold argint, fetchint. assert (Ha : is_u32 a) by (unfold a; wrap_lia).
  fold a. rewrite (u32_small _ Ha). rewrite (u32_small (a + 4)) by (unfold a in *; wrap_lia).
  rewrite Z.geb_leb, Z.gtb_ltb.
  destruct (Z.leb_spec (usz u) a), (Z.ltb_spec (usz u) (a + 4)); cbn [orb]; case_decide; (done || lia).
Qed.

(** A string argument that [argstr] accepts is the NUL-free byte sequence
    at the address the process passed, and it and its NUL lie within the
    memory of the process; the search succeeds whenever there is such a NUL. *)
Theorem argstr_correct u n i : uproc_ok u -> argint u n = Some i ->
  match argstr u n with
  | Some r => u32 i + Z.of_nat (length r) < usz u /\ r = bytes_at (umem u) (u32 i) (length r) /\
      Forall (fun b => b <> 0) r /\ umem u (u32 i + Z.of_nat (length r)) = 0
  | None => forall k, u32 i + Z.of_nat k < usz u -> umem u (u32 i + Z.of_nat k) <> 0
  end.
Proof.
  intros [Hsz Hm] Hi. unfold argstr. rewrite Hi. unfold fetchstr. rewrite Z.geb_leb.
  destruct (Z.leb_spec (usz u) (u32 i)); [intros k; lia|].
  destruct (fetchstr_loop _ _ _ _) as [r|] eqn:E; [by apply fetchstr_loop_spec in E|].
  intros k Hk H0. destruct (fetchstr_loop_total k (Z.to_nat (usz u - u32 i) + 1) (umem u) (u32 i) (usz u))
    as (r & Hr & _); [done|done|lia|]. congruence.
Qed.

(** An example process of two pages that calls with a path argument. *)
Definition ex_uproc : uproc :=
  Uproc 8192 (fun x => if x =? 8000 then 47 else if x =? 4004 then 64 else if x =? 4005 then 31
                       else if x =? 4008 then 12 else 0) 4000.
Lemma ex_uproc_ok : uproc_ok ex_uproc.
Proof.
  split; [unfold KERNBASE; cbn; lia|]. intros x. unfold ex_uproc. cbn [umem].
  repeat case_match; by_decide.
Qed.

Lemma argptr_in_bounds_witness : 0 <= 12 /\ 0 <= 8000 /\ 8000 + 12 <= 8192 /\ 8000 + 12 <= KERNBASE.
Proof. apply (argptr_in_bounds ex_uproc 0 12 8000 ex_uproc_ok); by vm_compute. Defined.
Lemma argint_correct_witness : argint ex_uproc 1 = Some 12.
Proof. apply (argint_correct ex_uproc 1 ex_uproc_ok); by vm_compute. Defined.
Lemma argstr_correct_witness :
  match argstr ex_uproc 0 with
  | Some r => 8000 + Z.of_nat (length r) < 8192 /\ r = bytes_at (umem ex_uproc) 8000 (length r) /\
      Forall (fun b => b <> 0) r /\ umem ex_uproc (8000 + Z.of_nat (length r)) = 0
  | None => forall k, 8000 + Z.of_nat k < 8192 -> umem ex_uproc (8000 + Z.of_nat k) <> 0
  end.
Proof. apply (argstr_correct ex_uproc 0 8000 ex_uproc_ok). by vm_compute. Defined.
