(* ===== verification/Spinlock.v ===== *)
(** * Spin locks on several CPUs (spinlock.c)
    [acquire] and [release] step by step: every read and write of the lock is
    a step of its own, and the steps of all CPUs interleave.  This is the
    multi-CPU side of the locks that the other files use through
    [Prelude.acquire] and [Prelude.release]. *)
From stdpp Require Import functions relations.
From S2P Require Import Prelude.
#[local] Set Default Proof Using "Type".

(** Interrupt state of a CPU: [ncli], [intena] (proc.h) and EFLAGS.IF. *)
Record cpu := Cpu { ncli : Z; intena : bool; if_flag : bool }.

Definition pushcli (c : cpu) : cpu :=
  Cpu (ncli c + 1) (if ncli c =? 0 then if_flag c else intena c) false.
(** [inr] is a panic. *)
Definition popcli (c : cpu) : cpu + string :=
  if if_flag c then inr "popcli - interruptible"%string
  else if ncli c - 1 <? 0 then inr "popcli"%string
  else inl (Cpu (ncli c - 1) (intena c) ((ncli c - 1 =? 0) && intena c)).

(** [struct spinlock]: [locked] and [cpu]. *)
Record spinlock := Spinlock { sl_locked : bool; sl_cpu : option nat }.
Definition initlock : spinlock := Spinlock false None.

(** Where a CPU is: in [acquire] before reading [locked] and [cpu] in
    [holding], at the [xchg], before recording itself as the owner; inside
    the critical section; in [release] before the check, before clearing
    [cpu], before clearing [locked], before [popcli]. *)
Inductive pc := Idle | A_locked | A_cpu | A_xchg | A_own | Crit | R_cpu | R_unlock | R_pop | Panicked.
#[export] Instance pc_eq_dec : EqDecision pc.
Proof. solve_decision. Defined.

Record lmach := Lmach { lk : spinlock; cpus : nat -> cpu; pcs : nat -> pc }.
Definition goto (k : nat) (p : pc) (m : lmach) : lmach := Lmach (lk m) (cpus m) (<[k := p]> (pcs m)).
Definition with_lk (l : spinlock) (m : lmach) : lmach := Lmach l (cpus m) (pcs m).
Definition with_cpu (k : nat) (c : cpu) (m : lmach) : lmach := Lmach (lk m) (<[k := c]> (cpus m)) (pcs m).

Inductive lstep (m : lmach) : lmach -> Prop :=
(* [acquire] *)
| l_push k : pcs m k = Idle -> lstep m (goto k A_locked (with_cpu k (pushcli (cpus m k)) m))
| l_free k : pcs m k = A_locked -> sl_locked (lk m) = false -> lstep m (goto k A_xchg m)
| l_taken k : pcs m k = A_locked -> sl_locked (lk m) = true -> lstep m (goto k A_cpu m)
| l_mine k : pcs m k = A_cpu -> sl_cpu (lk m) = Some k -> lstep m (goto k Panicked m)
| l_other k : pcs m k = A_cpu -> sl_cpu (lk m) <> Some k -> lstep m (goto k A_xchg m)
| l_spin k : pcs m k = A_xchg -> sl_locked (lk m) = true -> lstep m m
| l_xchg k : pcs m k = A_xchg -> sl_locked (lk m) = false ->
    lstep m (goto k A_own (with_lk (Spinlock true (sl_cpu (lk m))) m))
| l_own k : pcs m k = A_own -> lstep m (goto k Crit (with_lk (Spinlock (sl_locked (lk m)) (Some k)) m))
(* [release] *)
| l_check k : pcs m k = Crit -> sl_locked (lk m) = true -> sl_cpu (lk m) = Some k -> lstep m (goto k R_cpu m)
| l_bad k : pcs m k = Crit -> ~ (sl_locked (lk m) = true /\ sl_cpu (lk m) = Some k) -> lstep m (goto k Panicked m)
| l_clear k : pcs m k = R_cpu -> lstep m (goto k R_unlock (with_lk (Spinlock (sl_locked (lk m)) None) m))
| l_unlock k : pcs m k = R_unlock -> lstep m (goto k R_pop (with_lk (Spinlock false (sl_cpu (lk m))) m))
| l_pop k c : pcs m k = R_pop -> popcli (cpus m k) = inl c -> lstep m (goto k Idle (with_cpu k c m))
| l_poppanic k s : pcs m k = R_pop -> popcli (cpus m k) = inr s -> lstep m (goto k Panicked m).

(** Between taking the lock and giving it back. *)
Definition inside (p : pc) : Prop := p = A_own \/ p = Crit \/ p = R_cpu \/ p = R_unlock.
#[export] Instance inside_dec p : Decision (inside p).
Proof. unfold inside. apply _. Defined.

(** A CPU in a state that [pushcli] and [popcli] keep consistent. *)
Definition cpu_ok (c : cpu) : Prop := 0 <= ncli c /\ (0 < ncli c -> if_flag c = false).

Section spinlock.
(** What each CPU was doing before: its interrupt state. *)
Variable base : nat -> cpu.
Hypothesis Hbase : forall k, cpu_ok (base k).
Implicit Types (m : lmach) (k : nat).

Record linv m : Prop := {
  li_excl : forall j k, inside (pcs m j) -> inside (pcs m k) -> j = k;
  li_locked : sl_locked (lk m) = true <-> exists k, inside (pcs m k);
  li_owner : forall k, sl_cpu (lk m) = Some k <-> pcs m k = Crit \/ pcs m k = R_cpu;
  li_safe : forall k, pcs m k <> Panicked;
  li_cpu : forall k, pcs m k <> Idle -> cpus m k = pushcli (base k);
  li_idle : forall k, pcs m k = Idle -> ncli (cpus m k) = ncli (base k) /\
    if_flag (cpus m k) = if_flag (base k) /\ (0 < ncli (base k) -> intena (cpus m k) = intena (base k))
}.

Lemma goto_same k p m : pcs (goto k p m) k = p.
Proof. apply fn_lookup_insert. Qed.
Lemma goto_ne j k p m : j <> k -> pcs (goto k p m) j = pcs m j.
Proof. intros H. apply fn_lookup_insert_ne. congruence. Qed.

(** Leaving the critical section restores the interrupt state. *)
Lemma push_pop c : cpu_ok c -> exists c', popcli (pushcli c) = inl c' /\ ncli c' = ncli c /\
  if_flag c' = if_flag c /\ (0 < ncli c -> intena c' = intena c).
Proof.
  intros [H1 H2]. unfold popcli, pushcli. cbn [if_flag ncli intena].
  destruct (Z.ltb_spec (ncli c + 1 - 1) 0); [lia|]. eexists. split; [done|]. cbn. split; [lia|].
  destruct (Z.eqb_spec (ncli c) 0) as [E|E].
  - rewrite (proj2 (Z.eqb_eq _ _)) by lia. split; [done|lia].
  - rewrite (proj2 (Z.eqb_neq (ncli c + 1 - 1) 0)) by lia. split; [|done]. rewrite H2 by lia. done.
Qed.

Lemma push_idle c b : cpu_ok b -> ncli c = ncli b -> if_flag c = if_flag b ->
  (0 < ncli b -> intena c = intena b) -> pushcli c = pushcli b.
Proof.
  intros [H1 _] En Ef Ei. unfold pushcli. rewrite En, Ef. f_equal.
  destruct (Z.eqb_spec (ncli b) 0); [done|]. apply Ei. lia.
Qed.

(** A step of CPU [k] from [p] to [p'] that keeps the lock's state in line. *)
Lemma linv_goto m k p' l : linv m ->
  let m' := goto k p' (with_lk l m) in
  pcs m k <> Idle -> p' <> Panicked -> p' <> Idle ->
  (inside p' -> inside (pcs m k) \/ sl_locked (lk m) = false) ->
  (sl_locked l = true <-> exists j, inside (pcs m' j)) ->
  (forall j, sl_cpu l = Some j <-> pcs m' j = Crit \/ pcs m' j = R_cpu) ->
  linv m'.
Proof.
  intros [I1 I2 I3 I4 I5 I6] m' Hk Hp Hi Hin Hl Ho.
  assert (Hpc : forall j, pcs m' j = if decide (j = k) then p' else pcs m j).
  { intros j. unfold m'. case_decide as E; [subst; apply goto_same|by rewrite goto_ne]. }
  assert (Hin' : forall j, j <> k -> inside p' -> ~ inside (pcs m j)).
  { intros j Hj Hp' Hj'. destruct (Hin Hp') as [H|H]; [by apply Hj, (I1 j k)|].
    assert (sl_locked (lk m) = true) by (apply I2; eauto). congruence. }
  constructor; try done.
  - intros i j. rewrite !Hpc. do 2 case_decide; subst; intros A1 A2; try done.
    + by destruct (Hin' j).
    + by destruct (Hin' i).
    + by apply I1.
  - intros j. rewrite Hpc. case_decide; [done|apply I4].
  - intros j. rewrite Hpc. case_decide as E; [subst; intros _; by apply I5|apply I5].
  - intros j. rewrite Hpc. case_decide; [done|]. apply I6.
Qed.

(** Facts about the new positions when one CPU moves. *)
Lemma inside_moves m k p' l : (forall j, j <> k -> ~ inside (pcs m j)) ->
  (exists j, inside (pcs (goto k p' (with_lk l m)) j)) <-> inside p'.
Proof.
  intros Hno. split.
  - intros [j Hj]. destruct (decide (j = k)) as [->|Hne]; [by rewrite goto_same in Hj|].
    rewrite goto_ne in Hj by done. by destruct (Hno j).
  - intros Hp. exists k. by rewrite goto_same.
Qed.
Lemma inside_stays m k p' l : ~ inside p' -> ~ inside (pcs m k) ->
  (exists j, inside (pcs (goto k p' (with_lk l m)) j)) <-> exists j, inside (pcs m j).
Proof.
  intros H1 H2. split; intros [j Hj]; exists j; (destruct (decide (j = k)) as [->|Hne];
    [by rewrite ?goto_same in Hj |by rewrite goto_ne in * by done]).
Qed.
Definition owning (p : pc) : Prop := p = Crit \/ p = R_cpu.
Lemma owner_stays m k p' l : linv m -> sl_cpu l = sl_cpu (lk m) -> (owning p' <-> owning (pcs m k)) ->
  forall j, sl_cpu l = Some j <-> owning (pcs (goto k p' (with_lk l m)) j).
Proof.
  intros Hm -> Hp j. rewrite (li_owner _ Hm j). fold (owning (pcs m j)).
  destruct (decide (j = k)) as [->|Hne]; [by rewrite goto_same|by rewrite goto_ne].
Qed.
Lemma others_outside m k : linv m -> inside (pcs m k) \/ sl_locked (lk m) = false ->
  forall j, j <> k -> ~ inside (pcs m j).
Proof.
  intros Hm [H|H] j Hj Hin; [by apply Hj, (li_excl _ Hm)|].
  assert (sl_locked (lk m) = true) by (apply (li_locked _ Hm); eauto). congruence.
Qed.

(** Outside the critical section nothing about the lock changes. *)
Lemma linv_out m k p' : linv m -> ~ inside (pcs m k) -> pcs m k <> Idle -> ~ inside p' -> p' <> Panicked ->
  p' <> Idle -> linv (goto k p' m).
Proof.
  intros Hm Hk Hki Hp Hpp Hpi. change (linv (goto k p' (with_lk (lk m) (Lmach (lk m) (cpus m) (pcs m))))).
  replace (Lmach (lk m) (cpus m) (pcs m)) with m by by destruct m.
  apply linv_goto; try done.
  - rewrite inside_stays by done. apply Hm.
  - apply owner_stays; [done|done|]. unfold owning. unfold inside in *. naive_solver.
Qed.

(** Inside it, the lock follows. *)
Lemma linv_in m k p' l : linv m -> inside (pcs m k) \/ sl_locked (lk m) = false -> pcs m k <> Idle ->
  p' <> Panicked -> p' <> Idle -> (sl_locked l = true <-> inside p') ->
  (forall j, sl_cpu l = Some j <-> j = k /\ owning p') -> linv (goto k p' (with_lk l m)).
Proof.
  intros Hm Hin Hk Hp Hi Hl Ho. pose proof (others_outside m k Hm Hin) as Hno.
  apply linv_goto; try done.
  - by rewrite inside_moves.
  - intros j. rewrite Ho. destruct (decide (j = k)) as [->|Hne].
    + rewrite goto_same. unfold owning. naive_solver.
    + rewrite goto_ne by done. specialize (Hno j Hne). cbn. unfold inside in Hno. naive_solver.
Qed.

Lemma lstep_inv m m' : linv m -> lstep m m' -> linv m'.
Proof using Hbase base.
  intros Hm Hs. destruct Hs as [k Hk|k Hk Hl|k Hk Hl|k Hk Ho|k Hk Ho|k Hk Hl|k Hk Hl|k Hk|k Hk Hl Ho|k Hk Hb|k Hk|k Hk|k c Hk Hp|k s Hk Hp].
  - (* pushcli *)
    destruct Hm as [I1 I2 I3 I4 I5 I6]. destruct (I6 k Hk) as (C1 & C2 & C3).
    assert (Hpc : forall j, pcs (goto k A_locked (with_cpu k (pushcli (cpus m k)) m)) j =
      if decide (j = k) then A_locked else pcs m j).
    { intros j. case_decide as E; [subst; apply goto_same|by rewrite goto_ne]. }
    assert (Hout : ~ inside Idle /\ ~ inside A_locked) by (unfold inside; naive_solver). destruct Hout as [O1 O2].
    constructor; cbn [lk cpus goto with_cpu].
    + intros i j. rewrite !Hpc. do 2 case_decide; subst; try done. apply I1.
    + rewrite I2. split; intros [j Hj]; exists j; rewrite Hpc in *; case_decide; subst; congruence.
    + intros j. rewrite I3, Hpc. case_decide; subst; [rewrite Hk; naive_solver|done].
    + intros j. rewrite Hpc. by case_decide.
    + intros j. rewrite Hpc. case_decide as E; [|by rewrite fn_lookup_insert_ne by done; apply I5].
      subst. intros _. rewrite fn_lookup_insert. by apply push_idle.
    + intros j. rewrite Hpc. case_decide as E; [done|]. rewrite fn_lookup_insert_ne by done. apply I6.
  - apply linv_out; try done; rewrite ?Hk; unfold inside; naive_solver.
  - apply linv_out; try done; rewrite ?Hk; unfold inside; naive_solver.
  - apply (li_owner _ Hm) in Ho. exfalso. rewrite Hk in Ho. naive_solver.
  - apply linv_out; try done; rewrite ?Hk; unfold inside; naive_solver.
  - done.
  - apply linv_in; try done; [by right|by rewrite Hk| |]; cbn; unfold inside, owning; [naive_solver|].
    intros j. rewrite (li_owner _ Hm j). split; [|naive_solver]. intros Hj. exfalso.
    apply (others_outside m k Hm (or_intror Hl) j); [|unfold inside; naive_solver]. intros ->. rewrite Hk in Hj. naive_solver.
  - assert (Hin : inside (pcs m k)) by (rewrite Hk; unfold inside; auto).
    apply linv_in; try done; [by left|by rewrite Hk| |]; cbn; unfold inside, owning.
    + rewrite (li_locked _ Hm). split; [auto|eauto].
    + intros j. naive_solver.
  - assert (Hin : inside (pcs m k)) by (rewrite Hk; unfold inside; auto).
    replace (goto k R_cpu m) with (goto k R_cpu (with_lk (lk m) m)) by by destruct m.
    apply linv_in; try done; [by left|by rewrite Hk| |].
    + split; [unfold inside; auto|done].
    + intros j. rewrite Ho. unfold owning. naive_solver.
  - exfalso. apply Hb. assert (Hin : inside (pcs m k)) by (rewrite Hk; unfold inside; auto).
    split; [apply (li_locked _ Hm); eauto|]. apply (li_owner _ Hm). by left.
  - assert (Hin : inside (pcs m k)) by (rewrite Hk; unfold inside; auto).
    apply linv_in; try done; [by left|by rewrite Hk| |]; cbn.
    + rewrite (li_locked _ Hm). split; [unfold inside; auto|eauto].
    + intros j. unfold owning. naive_solver.
  - assert (Hin : inside (pcs m k)) by (rewrite Hk; unfold inside; auto).
    apply linv_in; try done; [by left|by rewrite Hk| |]; cbn.
    + split; [done|]. unfold inside. naive_solver.
    + intros j. rewrite (li_owner _ Hm j). split; [|unfold owning; naive_solver]. intros Hj. exfalso.
      assert (j = k) as -> by (apply (li_excl _ Hm); [unfold inside; naive_solver|done]).
      rewrite Hk in Hj. naive_solver.
  - (* popcli *)
    destruct Hm as [I1 I2 I3 I4 I5 I6]. assert (Hc : cpus m k = pushcli (base k)) by (apply I5; congruence).
    destruct (push_pop (base k) (Hbase k)) as (c' & P1 & P2 & P3 & P4). rewrite Hc, P1 in Hp. injection Hp as <-.
    assert (Hpc : forall j, pcs (goto k Idle (with_cpu k c' m)) j = if decide (j = k) then Idle else pcs m j).
    { intros j. case_decide as E; [subst; apply goto_same|by rewrite goto_ne]. }
    assert (Hout : ~ inside Idle /\ ~ inside R_pop) by (unfold inside; naive_solver). destruct Hout as [O1 O2].
    constructor; cbn [lk cpus goto with_cpu].
    + intros i j. rewrite !Hpc. do 2 case_decide; subst; try done. apply I1.
    + rewrite I2. split; intros [j Hj]; exists j; rewrite Hpc in *; case_decide; subst; congruence.
    + intros j. rewrite I3, Hpc. case_decide; subst; [rewrite Hk; naive_solver|done].
    + intros j. rewrite Hpc. by case_decide.
    + intros j. rewrite Hpc. case_decide as E; [done|]. rewrite fn_lookup_insert_ne by done. apply I5.
    + intros j. rewrite Hpc. case_decide as E; [|by rewrite fn_lookup_insert_ne by done; apply I6].
      subst. intros _. by rewrite fn_lookup_insert.
  - exfalso. assert (Hc : cpus m k = pushcli (base k)) by (apply (li_cpu _ Hm); congruence).
    destruct (push_pop (base k) (Hbase k)) as (c' & P1 & _). congruence.
Qed.
End spinlock.

(** The machine at boot: the lock initialised, no CPU near it. *)
Definition lboot (base : nat -> cpu) : lmach := Lmach initlock base (fun _ => Idle).

Lemma lboot_inv base : (forall k, cpu_ok (base k)) -> linv base (lboot base).
Proof.
  intros Hb. constructor; cbn; try done.
  - intros j k [|[|[|]]]; done.
  - split; [done|]. intros [k [|[|[|]]]]; done.
  - intros k. naive_solver.
Qed.

(** C19: however the CPUs interleave the individual reads and writes of
    [acquire] and [release], at most one CPU is between taking the lock and
    giving it back; [holding] is true for that CPU and no other; neither
    routine panics; the owner runs with interrupts off, and a CPU that has
    left [release] has its interrupt flag and nesting depth back. *)
Theorem spinlock_correct base m : (forall k, cpu_ok (base k)) -> rtc lstep (lboot base) m ->
  (forall j k, inside (pcs m j) -> inside (pcs m k) -> j = k) /\
  (forall k, pcs m k = Crit -> lk m = Spinlock true (Some k) /\ if_flag (cpus m k) = false) /\
  (forall k, ~ inside (pcs m k) -> sl_cpu (lk m) <> Some k) /\
  (forall k, pcs m k <> Panicked) /\
  (forall k, pcs m k = Idle -> ncli (cpus m k) = ncli (base k) /\ if_flag (cpus m k) = if_flag (base k)).
Proof.
  intros Hb Hs. assert (Hm : linv base m).
  { remember (lboot base) as m0. assert (H0 : linv base m0) by (subst; by apply lboot_inv). clear Heqm0.
    induction Hs as [|x y z Hxy Hyz IH]; [done|]. apply IH. by eapply lstep_inv. }
  split_and!.
  - apply (li_excl _ _ Hm).
  - intros k Hk. split; [|by rewrite (li_cpu _ _ Hm k) by congruence].
    assert (E1 : sl_locked (lk m) = true).
    { apply (li_locked _ _ Hm). exists k. rewrite Hk. unfold inside. auto. }
    assert (E2 : sl_cpu (lk m) = Some k) by (apply (li_owner _ _ Hm); by left).
    destruct (lk m). cbn in *. congruence.
  - intros k Hk Ho. apply Hk. apply (li_owner _ _ Hm) in Ho. unfold inside. naive_solver.
  - apply (li_safe _ _ Hm).
  - intros k Hk. destruct (li_idle _ _ Hm k Hk) as (? & ? & _). done.
Qed.

Definition ex_base (k : nat) : cpu := Cpu 0 false true.
Definition ex_l1 : lmach := goto 0 A_locked (with_cpu 0 (pushcli (ex_base 0)) (lboot ex_base)).
Definition ex_l2 : lmach := goto 0 A_xchg ex_l1.
Definition ex_l3 : lmach := goto 0 A_own (with_lk (Spinlock true None) ex_l2).
Definition ex_l4 : lmach := goto 0 Crit (with_lk (Spinlock true (Some 0%nat)) ex_l3).
Lemma spinlock_correct_witness :
  pcs ex_l4 0%nat = Crit /\ lk ex_l4 = Spinlock true (Some 0%nat) /\ if_flag (cpus ex_l4 0%nat) = false.
Proof.
  split; [done|]. refine (proj1 (proj2 (spinlock_correct ex_base ex_l4 _ _)) 0%nat eq_refl); [by intros|].
  apply (rtc_l _ _ ex_l1); [exact (l_push (lboot ex_base) 0 eq_refl)|]. apply (rtc_l _ _ ex_l2); [exact (l_free ex_l1 0 eq_refl eq_refl)|].
  apply (rtc_l _ _ ex_l3); [exact (l_xchg ex_l2 0 eq_refl eq_refl)|]. apply (rtc_l _ _ ex_l4); [exact (l_own ex_l3 0 eq_refl)|].
  apply rtc_refl.
Defined.
