(* ===== verification/SleepWake.v ===== *)
(** * Sleep and wakeup with a condition lock (proc.c: sleep, wakeup)
    The hand-over of locks in [sleep], step by step: threads wait for a
    condition that a lock protects, others make the condition true and call
    [wakeup] with that lock held.  The steps of all threads interleave. *)
From stdpp Require Import functions relations.
From S2P Require Import Prelude.
#[local] Set Default Proof Using "Type".

(** A waiting thread runs [acquire(lk); while(!cond) sleep(chan, lk); ...;
    release(lk)]; a waking thread runs
    [acquire(lk); cond = 1; wakeup(chan); release(lk)]. *)
Inductive tpc :=
| Start              (* outside *)
| Test               (* holds lk, before testing the condition *)
| Sl_acq             (* in sleep: holds lk, before acquire(&ptable.lock) *)
| Sl_rel             (* holds both, before release(lk) *)
| Sl_sleep           (* holds ptable.lock, before p->state = SLEEPING and sched *)
| Sleeping           (* p->state == SLEEPING *)
| Runnable           (* woken, waiting to run *)
| Sl_back            (* runs again, holds ptable.lock *)
| Sl_reacq           (* released ptable.lock, before acquire(lk) *)
| Done               (* the condition was true; holds lk *)
| Wk_set             (* holds lk, before making the condition true *)
| Wk_acq             (* before acquire(&ptable.lock) in wakeup *)
| Wk_wake            (* holds both, before wakeup1 *)
| Wk_rel             (* after wakeup1, before release(&ptable.lock) *)
| Wk_out.            (* before release(lk) *)
#[export] Instance tpc_eq_dec : EqDecision tpc.
Proof. solve_decision. Defined.

Record wmach := Wmach { cond : bool; lk_free : bool; pt_free : bool; tpcs : nat -> tpc }.
Definition wgoto (m : wmach) (t : nat) (p : tpc) : nat -> tpc := <[t := p]> (tpcs m).
(** [wakeup1]: every sleeper becomes runnable. *)
Definition wake_all (f : nat -> tpc) (t : nat) : tpc := if decide (f t = Sleeping) then Runnable else f t.

Inductive wstep (m : wmach) : wmach -> Prop :=
| w_enter t p : tpcs m t = Start -> lk_free m = true -> p = Test \/ p = Wk_set ->
    wstep m (Wmach (cond m) false (pt_free m) (wgoto m t p))
| w_test_true t : tpcs m t = Test -> cond m = true ->
    wstep m (Wmach (cond m) (lk_free m) (pt_free m) (wgoto m t Done))
| w_test_false t : tpcs m t = Test -> cond m = false ->
    wstep m (Wmach (cond m) (lk_free m) (pt_free m) (wgoto m t Sl_acq))
| w_sl_acq t : tpcs m t = Sl_acq -> pt_free m = true ->
    wstep m (Wmach (cond m) (lk_free m) false (wgoto m t Sl_rel))
| w_sl_rel t : tpcs m t = Sl_rel -> wstep m (Wmach (cond m) true (pt_free m) (wgoto m t Sl_sleep))
| w_sl_sleep t : tpcs m t = Sl_sleep -> wstep m (Wmach (cond m) (lk_free m) true (wgoto m t Sleeping))
| w_sched t : tpcs m t = Runnable -> pt_free m = true ->
    wstep m (Wmach (cond m) (lk_free m) false (wgoto m t Sl_back))
| w_sl_back t : tpcs m t = Sl_back -> wstep m (Wmach (cond m) (lk_free m) true (wgoto m t Sl_reacq))
| w_sl_reacq t : tpcs m t = Sl_reacq -> lk_free m = true ->
    wstep m (Wmach (cond m) false (pt_free m) (wgoto m t Test))
(* The condition held; the thread may make it false again before it leaves. *)
| w_leave t b : tpcs m t = Done -> (b = true -> cond m = true) ->
    wstep m (Wmach b true (pt_free m) (wgoto m t Start))
| w_set t : tpcs m t = Wk_set -> wstep m (Wmach true (lk_free m) (pt_free m) (wgoto m t Wk_acq))
| w_wk_acq t : tpcs m t = Wk_acq -> pt_free m = true ->
    wstep m (Wmach (cond m) (lk_free m) false (wgoto m t Wk_wake))
| w_wake t : tpcs m t = Wk_wake ->
    wstep m (Wmach (cond m) (lk_free m) (pt_free m) (<[t := Wk_rel]> (wake_all (tpcs m))))
| w_wk_rel t : tpcs m t = Wk_rel -> wstep m (Wmach (cond m) (lk_free m) true (wgoto m t Wk_out))
| w_wk_out t : tpcs m t = Wk_out -> wstep m (Wmach (cond m) true (pt_free m) (wgoto m t Start)).

(** Who holds which lock. *)
Definition has_lk (p : tpc) : bool :=
  match p with
  | Test | Sl_acq | Sl_rel | Done | Wk_set | Wk_acq | Wk_wake | Wk_rel | Wk_out => true
  | _ => false
  end.
Definition has_pt (p : tpc) : bool :=
  match p with Sl_rel | Sl_sleep | Sl_back | Wk_wake | Wk_rel => true | _ => false end.
(** About to wake the sleepers. *)
Definition waking (p : tpc) : Prop := p = Wk_acq \/ p = Wk_wake.

Record winv (m : wmach) : Prop := {
  wi_lk : forall t, has_lk (tpcs m t) = true -> lk_free m = false;
  wi_lk1 : forall t u, has_lk (tpcs m t) = true -> has_lk (tpcs m u) = true -> t = u;
  wi_pt : forall t, has_pt (tpcs m t) = true -> pt_free m = false;
  wi_pt1 : forall t u, has_pt (tpcs m t) = true -> has_pt (tpcs m u) = true -> t = u;
  wi_false : forall t, tpcs m t = Sl_acq \/ tpcs m t = Sl_rel -> cond m = false;
  wi_wake : forall t, tpcs m t = Sl_sleep \/ tpcs m t = Sleeping -> cond m = true ->
    exists u, waking (tpcs m u)
}.

Section winv.
Implicit Types (m : wmach) (t u : nat).

Lemma wgoto_eq m t p u : wgoto m t p u = if decide (u = t) then p else tpcs m u.
Proof. unfold wgoto. case_decide as E; [subst; apply fn_lookup_insert|]. by apply fn_lookup_insert_ne. Qed.

(** A step of one thread between positions [q] and [p]: the locks it takes
    and releases. *)
Lemma winv_goto m t p c l k : winv m ->
  let q := tpcs m t in
  (has_lk p = true -> l = false /\ (has_lk q = true \/ lk_free m = true)) ->
  (has_lk p = false -> l = if has_lk q then true else lk_free m) ->
  (has_pt p = true -> k = false /\ (has_pt q = true \/ pt_free m = true)) ->
  (has_pt p = false -> k = if has_pt q then true else pt_free m) ->
  (c = cond m \/ has_lk q = true) ->
  (p = Sl_acq \/ p = Sl_rel -> c = false) ->
  (p = Sl_sleep \/ p = Sleeping -> c = true -> (q = Sl_rel \/ q = Sl_sleep)) ->
  (c = true -> cond m = false -> waking p) ->
  (waking q -> waking p) -> (q = Sl_sleep -> p = Sleeping) -> q <> Sleeping ->
  winv (Wmach c l k (wgoto m t p)).
Proof.
  intros [I1 I2 I3 I4 I5 I6] q L1 L2 P1 P2 C1 C2 C3 C4 W1 W2 W3.
  assert (Hlk : forall u, u <> t -> has_lk p = true -> has_lk (tpcs m u) = true -> False).
  { intros u Hu Hp Hl. destruct (L1 Hp) as [_ [H|H]]; [by apply Hu, (I2 u t)|]. rewrite (I1 u Hl) in H. done. }
  assert (Hpt : forall u, u <> t -> has_pt p = true -> has_pt (tpcs m u) = true -> False).
  { intros u Hu Hp Hl. destruct (P1 Hp) as [_ [H|H]]; [by apply Hu, (I4 u t)|]. rewrite (I3 u Hl) in H. done. }
  constructor; cbn [cond lk_free pt_free tpcs].
  - intros u. rewrite wgoto_eq. case_decide as E; [by intros H; apply L1|]. intros H.
    destruct (has_lk p) eqn:Ep; [by apply L1|]. rewrite (L2 eq_refl). destruct (has_lk q) eqn:Eq; [|by apply (I1 u)].
    exfalso. by apply E, (I2 u t).
  - intros u v. rewrite !wgoto_eq. do 2 case_decide; subst; intros H1 H2; try done.
    + exfalso. by apply (Hlk v). + exfalso. by apply (Hlk u). + by apply I2.
  - intros u. rewrite wgoto_eq. case_decide as E; [by intros H; apply P1|]. intros H.
    destruct (has_pt p) eqn:Ep; [by apply P1|]. rewrite (P2 eq_refl). destruct (has_pt q) eqn:Eq; [|by apply (I3 u)].
    exfalso. by apply E, (I4 u t).
  - intros u v. rewrite !wgoto_eq. do 2 case_decide; subst; intros H1 H2; try done.
    + exfalso. by apply (Hpt v). + exfalso. by apply (Hpt u). + by apply I4.
  - intros u. rewrite wgoto_eq. case_decide as E; [apply C2|]. intros H.
    assert (Hu : has_lk (tpcs m u) = true) by (by destruct H as [-> | ->]).
    destruct C1 as [->|Hq]; [by apply (I5 u)|]. exfalso. by apply E, (I2 u t).
  - intros u Hu Hc. destruct (cond m) eqn:Ec.
    + destruct (decide (u = t)) as [->|Hne].
      * rewrite wgoto_eq, decide_True in Hu by done.
        destruct (C3 Hu Hc) as [Hq|Hq]; [by specialize (I5 t (or_intror Hq))|].
        destruct (I6 t (or_introl Hq) eq_refl) as [w Hw]. exists w. rewrite wgoto_eq.
        case_decide; [by subst; apply W1|done].
      * rewrite wgoto_eq, decide_False in Hu by done. destruct (I6 u Hu eq_refl) as [w Hw].
        exists w. rewrite wgoto_eq. case_decide; [by subst; apply W1|done].
    + exists t. rewrite wgoto_eq, decide_True by done. by apply C4.
Qed.

Lemma winv_wake m t : winv m -> tpcs m t = Wk_wake ->
  winv (Wmach (cond m) (lk_free m) (pt_free m) (<[t := Wk_rel]> (wake_all (tpcs m)))).
Proof.
  intros [I1 I2 I3 I4 I5 I6] Ht. set (f := <[t := Wk_rel]> _).
  assert (Hf : forall u, f u = if decide (u = t) then Wk_rel else wake_all (tpcs m) u).
  { intros u. unfold f. case_decide as E; [subst; apply fn_lookup_insert|]. by apply fn_lookup_insert_ne. }
  assert (Hlk : forall u, has_lk (f u) = has_lk (tpcs m u)).
  { intros u. rewrite Hf. case_decide as E; [subst; by rewrite Ht|]. unfold wake_all. by case_decide as H; [rewrite H|]. }
  assert (Hpt : forall u, has_pt (f u) = has_pt (tpcs m u)).
  { intros u. rewrite Hf. case_decide as E; [subst; by rewrite Ht|]. unfold wake_all. by case_decide as H; [rewrite H|]. }
  constructor; cbn [cond lk_free pt_free tpcs].
  - intros u. rewrite Hlk. apply I1.
  - intros u v. rewrite !Hlk. apply I2.
  - intros u. rewrite Hpt. apply I3.
  - intros u v. rewrite !Hpt. apply I4.
  - intros u. rewrite Hf. unfold wake_all. repeat case_decide; [naive_solver|naive_solver|]. apply I5.
  - intros u Hu Hc. exfalso. rewrite Hf in Hu. unfold wake_all in Hu.
    repeat case_decide; [naive_solver|naive_solver|]. destruct Hu as [Hu|Hu]; [|done].
    assert (u = t) by (apply I4; [by rewrite Hu|by rewrite Ht]). done.
Qed.

Lemma wstep_inv m m' : winv m -> wstep m m' -> winv m'.
Proof.
  intros Hm Hs.
  destruct Hs as [t p Ht Hl [-> | ->]|t Ht Hc|t Ht Hc|t Ht Hp|t Ht|t Ht|t Ht Hp|t Ht|t Ht Hl|t b Ht Hb|t Ht|t Ht Hp|t Ht|t Ht|t Ht];
    try (by apply winv_wake);
    (pose proof (wi_lk _ Hm t) as HL; pose proof (wi_pt _ Hm t) as HP; rewrite Ht in HL, HP; cbn in HL, HP;
     apply winv_goto; [done|rewrite ?Ht; unfold waking; cbn [has_lk has_pt]; try (intros; intuition congruence)..]).
  - intros _. apply (wi_false _ Hm t). by left.
Qed.
End winv.

Definition wboot (c : bool) : wmach := Wmach c true true (fun _ => Start).

Lemma wboot_inv c : winv (wboot c).
Proof. constructor; cbn; naive_solver. Qed.

(** C20: [sleep] loses no wakeup.  Whenever the condition is true and a
    process sleeps on it, some process that has made it true is still on its
    way to [wakeup1] and will wake the sleeper; so once no [wakeup] is under
    way, nobody sleeps on a condition that is true. *)
Theorem no_lost_wakeup c m t : rtc wstep (wboot c) m -> tpcs m t = Sleeping -> cond m = true ->
  exists u, waking (tpcs m u).
Proof.
  intros Hs Ht Hc. assert (Hm : winv m).
  { remember (wboot c) as m0. assert (H0 : winv m0) by (subst; apply wboot_inv). clear Heqm0 Ht Hc.
    induction Hs as [|x y z Hxy Hyz IH]; [done|]. apply IH. by eapply wstep_inv. }
  apply (wi_wake _ Hm t); [by right|done].
Qed.

Definition ex_w1 : wmach := Wmach false false true (wgoto (wboot false) 0 Test).
Definition ex_w2 : wmach := Wmach false false true (wgoto ex_w1 0 Sl_acq).
Definition ex_w3 : wmach := Wmach false false false (wgoto ex_w2 0 Sl_rel).
Definition ex_w4 : wmach := Wmach false true false (wgoto ex_w3 0 Sl_sleep).
Definition ex_w5 : wmach := Wmach false false false (wgoto ex_w4 1 Wk_set).
Definition ex_w6 : wmach := Wmach true false false (wgoto ex_w5 1 Wk_acq).
Definition ex_w7 : wmach := Wmach true false true (wgoto ex_w6 0 Sleeping).
Lemma no_lost_wakeup_witness : tpcs ex_w7 0%nat = Sleeping /\ exists u, waking (tpcs ex_w7 u).
Proof.
  split; [done|]. apply (no_lost_wakeup false ex_w7 0); [|done|done].
  apply (rtc_l _ _ ex_w1); [exact (w_enter (wboot false) 0 Test eq_refl eq_refl (or_introl eq_refl))|].
  apply (rtc_l _ _ ex_w2); [exact (w_test_false ex_w1 0 eq_refl eq_refl)|].
  apply (rtc_l _ _ ex_w3); [exact (w_sl_acq ex_w2 0 eq_refl eq_refl)|].
  apply (rtc_l _ _ ex_w4); [exact (w_sl_rel ex_w3 0 eq_refl)|].
  apply (rtc_l _ _ ex_w5); [exact (w_enter ex_w4 1 Wk_set eq_refl eq_refl (or_intror eq_refl))|].
  apply (rtc_l _ _ ex_w6); [exact (w_set ex_w5 1 eq_refl)|].
  apply (rtc_l _ _ ex_w7); [exact (w_sl_sleep ex_w6 0 eq_refl)|].
  apply rtc_refl.
Defined.
