(* ===== verification/Proc.v ===== *)
(** * The process table (proc.c): scheduling state
    The process table and the operations that run under [ptable.lock]:
    allocation of a slot, sleeping and waking, killing, exiting, reaping and
    the choice of the scheduler.  fork, exit and wait as a whole, with the
    memory and the files they handle, are built from these in Kernel.v. *)
From stdpp Require Import functions.
From S2P Require Import Prelude CString Mmu.
#[local] Set Default Proof Using "Type".

Inductive procstate := UNUSED | EMBRYO | SLEEPING | RUNNABLE | RUNNING | ZOMBIE.
#[export] Instance procstate_eq_dec : EqDecision procstate.
Proof. solve_decision. Defined.

(** [struct trapframe] (x86.h); the general registers other than eax and the
    padding are kept as one list. *)
Record trapframe := Trapframe {
  tf_regs : list Z;
  tf_eax : Z;
  tf_ds : Z; tf_es : Z;
  tf_trapno : Z; tf_err : Z;
  tf_eip : Z; tf_cs : Z; tf_eflags : Z; tf_esp : Z; tf_ss : Z
}.
Definition tf0 : trapframe := Trapframe (replicate 7 0) 0 0 0 0 0 0 0 0 0 0.
Definition set_eax (v : Z) (t : trapframe) : trapframe :=
  Trapframe (tf_regs t) v (tf_ds t) (tf_es t) (tf_trapno t) (tf_err t) (tf_eip t) (tf_cs t)
    (tf_eflags t) (tf_esp t) (tf_ss t).

(** [struct proc] (proc.h).  A [struct proc*] is an index into the table; the
    saved kernel context is where [swtch] resumes and is not kept here. *)
Record proc := Proc {
  psz : Z;
  pgdir : Z;
  kstack : Z;
  state : procstate;
  pid : Z;
  parent : option nat;
  tf : trapframe;
  pchan : option chan;
  killed : bool;
  ofile : nat -> option nat;
  cwd : option nat;
  pname : list Z
}.
Definition proc0 : proc :=
  Proc 0 0 0 UNUSED 0 None tf0 None false (fun _ => None) None (replicate 16 0).

Definition set_state (x : procstate) (p : proc) : proc :=
  Proc (psz p) (pgdir p) (kstack p) x (pid p) (parent p) (tf p) (pchan p) (killed p) (ofile p) (cwd p) (pname p).
Definition set_pid (x : Z) (p : proc) : proc :=
  Proc (psz p) (pgdir p) (kstack p) (state p) x (parent p) (tf p) (pchan p) (killed p) (ofile p) (cwd p) (pname p).
Definition set_parent (x : option nat) (p : proc) : proc :=
  Proc (psz p) (pgdir p) (kstack p) (state p) (pid p) x (tf p) (pchan p) (killed p) (ofile p) (cwd p) (pname p).
Definition set_tf (x : trapframe) (p : proc) : proc :=
  Proc (psz p) (pgdir p) (kstack p) (state p) (pid p) (parent p) x (pchan p) (killed p) (ofile p) (cwd p) (pname p).
Definition set_chan (x : option chan) (p : proc) : proc :=
  Proc (psz p) (pgdir p) (kstack p) (state p) (pid p) (parent p) (tf p) x (killed p) (ofile p) (cwd p) (pname p).
Definition set_killed (x : bool) (p : proc) : proc :=
  Proc (psz p) (pgdir p) (kstack p) (state p) (pid p) (parent p) (tf p) (pchan p) x (ofile p) (cwd p) (pname p).
Definition set_ofile (fd : nat) (x : option nat) (p : proc) : proc :=
  Proc (psz p) (pgdir p) (kstack p) (state p) (pid p) (parent p) (tf p) (pchan p) (killed p)
    (<[fd := x]> (ofile p)) (cwd p) (pname p).
Definition set_cwd (x : option nat) (p : proc) : proc :=
  Proc (psz p) (pgdir p) (kstack p) (state p) (pid p) (parent p) (tf p) (pchan p) (killed p) (ofile p) x (pname p).
Definition set_pname (x : list Z) (p : proc) : proc :=
  Proc (psz p) (pgdir p) (kstack p) (state p) (pid p) (parent p) (tf p) (pchan p) (killed p) (ofile p) (cwd p) x.
Definition set_vm (sz pg : Z) (p : proc) : proc :=
  Proc sz pg (kstack p) (state p) (pid p) (parent p) (tf p) (pchan p) (killed p) (ofile p) (cwd p) (pname p).
Definition set_kstack (x : Z) (p : proc) : proc :=
  Proc (psz p) (pgdir p) x (state p) (pid p) (parent p) (tf p) (pchan p) (killed p) (ofile p) (cwd p) (pname p).

(** [ptable.proc], [nextpid] and [initproc]. *)
Record ptab := Ptab { procs : nat -> proc; nextpid : Z; initproc : option nat }.

Definition upd_proc (i : nat) (f : proc -> proc) (s : ptab) : ptab :=
  Ptab (<[i := f (procs s i)]> (procs s)) (nextpid s) (initproc s).
Definition getp {A} (i : nat) (f : proc -> A) : M ptab A := gets (fun s => f (procs s i)).
Definition setp (i : nat) (f : proc -> proc) : M ptab unit := modify (upd_proc i f).

(** The loops over the table: the first slot from [i] on that satisfies [P]. *)
Fixpoint find_proc (P : proc -> bool) (n i : nat) (t : nat -> proc) : option nat :=
  match n with
  | O => None
  | S n' => if P (t i) then Some i else find_proc P n' (S i) t
  end.
Definition is_state (x : procstate) (p : proc) : bool := bool_decide (state p = x).

(** [allocproc] up to the release of the lock. *)
Definition alloc_slot : M ptab (option nat) :=
  acquire Lptable;;
  t ← gets procs;
  match find_proc (is_state UNUSED) NPROC 0 t with
  | None => release Lptable;; mret None
  | Some i =>
      n ← gets nextpid;
      setp i (fun p => set_pid n (set_state EMBRYO p));;
      modify (fun s => Ptab (procs s) (i32 (nextpid s + 1)) (initproc s));;
      release Lptable;;
      mret (Some i)
  end.

(** [wakeup1]: every sleeper on the channel becomes runnable. *)
Definition wake (ch : chan) (p : proc) : proc :=
  if bool_decide (state p = SLEEPING) && bool_decide (pchan p = Some ch) then set_state RUNNABLE p else p.
Fixpoint wakeup1_loop (n i : nat) (ch : chan) (t : nat -> proc) : nat -> proc :=
  match n with
  | O => t
  | S n' => wakeup1_loop n' (S i) ch (<[i := wake ch (t i)]> t)
  end.
Definition wakeup1 (ch : chan) : M ptab unit :=
  modify (fun s => Ptab (wakeup1_loop NPROC 0 ch (procs s)) (nextpid s) (initproc s)).
Definition wakeup (ch : chan) : M ptab unit :=
  acquire Lptable;; wakeup1 ch;; release Lptable.

Definition kill (p : Z) : M ptab Z :=
  acquire Lptable;;
  t ← gets procs;
  match find_proc (fun x => pid x =? p) NPROC 0 t with
  | Some i =>
      setp i (set_killed true);;
      x ← getp i state;
      when (bool_decide (x = SLEEPING)) (setp i (set_state RUNNABLE));;
      release Lptable;;
      mret 0
  | None => release Lptable;; mret (-1)
  end.

(** [sched]: the checks before the switch to the scheduler, which is a
    [Block]; its channel says where a sleeper waits and is idle otherwise. *)
Definition sched {A} (cur : nat) (ch : chan) : M ptab A :=
  h ← getctx held;
  x ← getp cur state;
  if negb (bool_decide (Lptable ∈ h)) then panic "sched ptable.lock"
  else if negb (bool_decide (h = [Lptable])) then panic "sched locks"
  else if bool_decide (x = RUNNING) then panic "sched running"
  else fun c s => Block ch c s.

(** [sleep(chan, lk)] up to the switch; [sleep_tail] is what runs when the
    process is scheduled again. *)
Definition sleep {A} (cur : nat) (ch : chan) (lk : lockid) : M ptab A :=
  (if decide (lk = Lptable) then mret tt else acquire Lptable;; release lk);;
  setp cur (set_chan (Some ch));;
  setp cur (set_state SLEEPING);;
  sched cur ch.
Definition sleep_tail (cur : nat) (lk : lockid) : M ptab unit :=
  setp cur (set_chan None);;
  (if decide (lk = Lptable) then mret tt else release Lptable;; acquire lk).

(** [yield] up to the switch. *)
Definition yield {A} (cur : nat) : M ptab A :=
  acquire Lptable;;
  setp cur (set_state RUNNABLE);;
  sched cur (ChProc cur).

(** The part of [exit] under the lock: wake the parent, give the children to
    init, become a zombie. *)
Fixpoint reparent_loop (n i : nat) (cur : nat) : M ptab unit :=
  match n with
  | O => mret tt
  | S n' =>
      p ← getp i id;
      when (bool_decide (parent p = Some cur)) (
        ini ← gets initproc;
        setp i (set_parent ini);;
        match ini with
        | Some k => when (bool_decide (state p = ZOMBIE)) (wakeup1 (ChProc k))
        | None => mret tt
        end);;
      reparent_loop n' (S i) cur
  end.
Definition exit_section (cur : nat) : M ptab unit :=
  q ← getp cur parent;
  match q with Some q => wakeup1 (ChProc q) | None => mret tt end;;
  reparent_loop NPROC 0 cur;;
  setp cur (set_state ZOMBIE).

(** The scan of [wait]: a zombie child, and whether there is a child. *)
Definition is_child (cur : nat) (p : proc) : bool := bool_decide (parent p = Some cur).
Definition zombie_child (cur : nat) (p : proc) : bool := is_child cur p && is_state ZOMBIE p.
Definition wait_scan (cur : nat) (t : nat -> proc) : option nat * bool :=
  (find_proc (zombie_child cur) NPROC 0 t,
   match find_proc (is_child cur) NPROC 0 t with Some _ => true | None => false end).
(** The slot of a reaped child, after its memory has been freed. *)
Definition reaped (p : proc) : proc :=
  set_state UNUSED (set_killed false (set_pname (<[0%nat := 0]> (pname p))
    (set_parent None (set_pid 0 (set_kstack 0 p))))).

(** The choice of [scheduler]: the first runnable slot from [i] on. *)
Definition pick (i : nat) (t : nat -> proc) : option nat :=
  find_proc (is_state RUNNABLE) (NPROC - i) i t.

#[export] Hint Unfold getp setp : wp_unfold.

(** * Lemmas on the loops *)

Section loops.
Implicit Types (t : nat -> proc) (i j n : nat).

Lemma find_proc_spec P n i t :
  match find_proc P n i t with
  | Some k => (i <= k < i + n)%nat /\ P (t k) = true /\ forall j, (i <= j < k)%nat -> P (t j) = false
  | None => forall j, (i <= j < i + n)%nat -> P (t j) = false
  end.
Proof.
  revert i. induction n as [|n IH]; intros i; cbn [find_proc]; [intros; lia|].
  destruct (P (t i)) eqn:E; [split; [lia|]; split; [done|intros; lia]|].
  specialize (IH (S i)). destruct (find_proc P n (S i) t) as [k|].
  - destruct IH as (H1 & H2 & H3). split; [lia|]. split; [done|]. intros j Hj.
    destruct (decide (j = i)) as [->|]; [done|]. apply H3. lia.
  - intros j Hj. destruct (decide (j = i)) as [->|]; [done|]. apply IH. lia.
Qed.

Lemma wakeup1_loop_spec n i ch t j :
  wakeup1_loop n i ch t j = if decide (i <= j < i + n)%nat then wake ch (t j) else t j.
Proof.
  revert i t. induction n as [|n IH]; intros i t; cbn [wakeup1_loop].
  - by rewrite decide_False by lia.
  - rewrite IH. destruct (decide (j = i)) as [->|Hne].
    + rewrite decide_False, decide_True, fn_lookup_insert by lia. done.
    + rewrite fn_lookup_insert_ne by done. do 2 case_decide; try lia; done.
Qed.
End loops.

#[global] Arguments find_proc : simpl never.
#[global] Arguments wakeup1_loop : simpl never.
#[global] Arguments reparent_loop : simpl never.
#[global] Arguments NPROC : simpl never.
