(* ===== verification/Sched.v ===== *)
(** * Processes and CPUs: an invariant of the whole machine (proc.c)
    A machine is the process table with what each CPU runs and, for each
    process, the slot it is filling in [fork].  Its steps are the critical
    sections of proc.c, run by any CPU in any order. *)
From stdpp Require Import functions relations.
From S2P Require Import Prelude CString Mmu Proc.
#[local] Set Default Proof Using "Type".

Record machine := Machine {
  mp : ptab;
  mcpu : nat -> option nat;    (* [cpus[k].proc] *)
  mnew : nat -> option nat     (* the variable [np] of [fork] *)
}.

(** A CPU that takes [ptable.lock] with no other lock held. *)
Definition cpu_ctx : ctx := Ctx [] 0 false [].

Definition set_proc (m : machine) (i : nat) (f : proc -> proc) : machine :=
  Machine (upd_proc i f (mp m)) (mcpu m) (mnew m).

Inductive mstep (m : machine) : machine -> Prop :=
(* [scheduler]: an idle CPU picks a runnable process. *)
| step_pick k i p : mcpu m k = None -> pick i (procs (mp m)) = Some p ->
    mstep m (Machine (upd_proc p (set_state RUNNING) (mp m)) (<[k := Some p]> (mcpu m)) (mnew m))
(* The running process gives up its CPU. *)
| step_yield k p ch c' s' : mcpu m k = Some p ->
    yield (A := unit) p cpu_ctx (mp m) = Block ch c' s' ->
    mstep m (Machine s' (<[k := None]> (mcpu m)) (mnew m))
| step_sleep k p ch lk c' s' : mcpu m k = Some p -> (forall q, ch <> ChProc q) -> lk <> Lptable ->
    sleep (A := unit) p ch lk (set_held [lk] cpu_ctx) (mp m) = Block ch c' s' ->
    mstep m (Machine s' (<[k := None]> (mcpu m)) (mnew m))
(* It resumes, clears its channel, or is marked killed by a fault. *)
| step_resume k p : mcpu m k = Some p -> mstep m (set_proc m p (set_chan None))
| step_fault k p : mcpu m k = Some p -> mstep m (set_proc m p (set_killed true))
(* Calls of [wakeup] and [kill]. *)
| step_wakeup ch c' s' : wakeup ch cpu_ctx (mp m) = Ok tt c' s' ->
    mstep m (Machine s' (mcpu m) (mnew m))
| step_kill n r c' s' : kill n cpu_ctx (mp m) = Ok r c' s' ->
    mstep m (Machine s' (mcpu m) (mnew m))
(* [fork]: a slot is taken, given a parent, and made runnable or given up. *)
| step_alloc k p i c' s' : mcpu m k = Some p -> mnew m p = None ->
    alloc_slot cpu_ctx (mp m) = Ok (Some i) c' s' ->
    mstep m (Machine s' (mcpu m) (<[p := Some i]> (mnew m)))
| step_parent k p i : mcpu m k = Some p -> mnew m p = Some i -> mstep m (set_proc m i (set_parent (Some p)))
| step_forkfail k p i : mcpu m k = Some p -> mnew m p = Some i -> parent (procs (mp m) i) = None ->
    mstep m (Machine (upd_proc i (set_state UNUSED) (mp m)) (mcpu m) (<[p := None]> (mnew m)))
| step_forkdone k p i : mcpu m k = Some p -> mnew m p = Some i -> parent (procs (mp m) i) = Some p ->
    mstep m (Machine (upd_proc i (set_state RUNNABLE) (mp m)) (mcpu m) (<[p := None]> (mnew m)))
(* [exit] and [wait]. *)
| step_exit k p c' s' : mcpu m k = Some p -> mnew m p = None -> initproc (mp m) <> Some p ->
    exit_section p cpu_ctx (mp m) = Ok tt c' s' ->
    mstep m (Machine s' (<[k := None]> (mcpu m)) (mnew m))
| step_reap k p z b : mcpu m k = Some p -> mnew m p = None -> wait_scan p (procs (mp m)) = (Some z, b) ->
    mstep m (set_proc m z reaped)
| step_wait k p ch c' s' : mcpu m k = Some p -> mnew m p = None ->
    wait_scan p (procs (mp m)) = (None, true) -> killed (procs (mp m) p) = false ->
    sleep (A := unit) p (ChProc p) Lptable (set_held [Lptable] cpu_ctx) (mp m) = Block ch c' s' ->
    mstep m (Machine s' (<[k := None]> (mcpu m)) (mnew m)).

(** Scheduled or waiting to be. *)
Definition live (p : proc) : Prop := state p = RUNNABLE \/ state p = RUNNING \/ state p = SLEEPING.

Record minv (m : machine) : Prop := {
  mi_cpu : forall k p, mcpu m k = Some p -> (p < NPROC)%nat /\ state (procs (mp m) p) = RUNNING;
  mi_run : forall p, (p < NPROC)%nat -> state (procs (mp m) p) = RUNNING -> exists k, mcpu m k = Some p;
  mi_inj : forall k k' p, mcpu m k = Some p -> mcpu m k' = Some p -> k = k';
  mi_pid : forall p, (p < NPROC)%nat -> state (procs (mp m) p) <> UNUSED ->
    0 < pid (procs (mp m) p) < nextpid (mp m);
  mi_uniq : forall p q, (p < NPROC)%nat -> (q < NPROC)%nat -> state (procs (mp m) p) <> UNUSED ->
    state (procs (mp m) q) <> UNUSED -> pid (procs (mp m) p) = pid (procs (mp m) q) -> p = q;
  mi_next : 0 < nextpid (mp m);
  mi_init : exists i, initproc (mp m) = Some i /\ (i < NPROC)%nat /\ live (procs (mp m) i);
  mi_unused : forall p, (p < NPROC)%nat -> state (procs (mp m) p) = UNUSED -> parent (procs (mp m) p) = None;
  mi_embryo : forall p q, (p < NPROC)%nat -> state (procs (mp m) p) = EMBRYO ->
    parent (procs (mp m) p) = Some q -> mnew m q = Some p;
  mi_parent : forall p, (p < NPROC)%nat -> state (procs (mp m) p) <> UNUSED ->
    state (procs (mp m) p) <> EMBRYO -> initproc (mp m) <> Some p ->
    exists q, parent (procs (mp m) p) = Some q /\ (q < NPROC)%nat /\ live (procs (mp m) q);
  mi_new : forall p i, mnew m p = Some i -> (p < NPROC)%nat /\ (i < NPROC)%nat /\
    live (procs (mp m) p) /\ state (procs (mp m) i) = EMBRYO;
  mi_newinj : forall p q i, mnew m p = Some i -> mnew m q = Some i -> p = q;
  mi_wait : forall p q, (p < NPROC)%nat -> state (procs (mp m) p) = SLEEPING ->
    pchan (procs (mp m) p) = Some (ChProc q) -> q = p /\
    forall z, (z < NPROC)%nat -> parent (procs (mp m) z) = Some p -> state (procs (mp m) z) <> ZOMBIE;
  mi_self : forall p, (p < NPROC)%nat -> parent (procs (mp m) p) <> Some p;
  mi_root : forall i, initproc (mp m) = Some i -> parent (procs (mp m) i) = None
}.

(** * What the operations do to the table *)
Lemma run_wp {S A} (m : M S A) c s a c' s' (Q : A -> S -> Prop) :
  m c s = Ok a c' s' -> wp m c s (fun a _ s' => Q a s') -> Q a s'.
Proof. unfold wp. by intros ->. Qed.
Lemma run_blocks {S A} (m : M S A) c s ch c' s' (Q : S -> Prop) :
  m c s = Block ch c' s' -> blocks m c s (fun _ _ s' => Q s') -> Q s'.
Proof. unfold blocks. by intros ->. Qed.

Section effects.
Implicit Types (s : ptab) (i j p : nat).

Lemma upd_same i f s : procs (upd_proc i f s) i = f (procs s i).
Proof. apply fn_lookup_insert. Qed.
Lemma upd_ne i j f s : j <> i -> procs (upd_proc i f s) j = procs s j.
Proof. intros H. apply fn_lookup_insert_ne. congruence. Qed.

Lemma wakeup_run ch s c' s' : wakeup ch cpu_ctx s = Ok tt c' s' ->
  s' = Ptab (wakeup1_loop NPROC 0 ch (procs s)) (nextpid s) (initproc s).
Proof.
  intros H. apply (run_wp _ _ _ _ _ _ (fun _ s' => s' = _) H). unfold wakeup, wakeup1. by repeat wp_step.
Qed.

Lemma kill_run n s r c' s' : kill n cpu_ctx s = Ok r c' s' ->
  match find_proc (fun x => pid x =? n) NPROC 0 (procs s) with
  | None => r = -1 /\ s' = s
  | Some i => r = 0 /\ s' = (let s1 := upd_proc i (set_killed true) s in
      if bool_decide (state (procs s i) = SLEEPING) then upd_proc i (set_state RUNNABLE) s1 else s1)
  end.
Proof.
  intros H. pattern r, s'. apply (run_wp _ _ _ _ _ _ _ H). unfold kill. do 4 wp_step. destruct (find_proc _ NPROC 0 (procs s)) as [i|].
  - do 4 wp_step. rewrite upd_same. cbn [state set_killed]. wp_step.
    destruct (bool_decide (state (procs s i) = SLEEPING)); repeat wp_step; done.
  - repeat wp_step. done.
Qed.

Lemma alloc_run s i c' s' : alloc_slot cpu_ctx s = Ok (Some i) c' s' ->
  (i < NPROC)%nat /\ state (procs s i) = UNUSED /\
  s' = Ptab (<[i := set_pid (nextpid s) (set_state EMBRYO (procs s i))]> (procs s)) (i32 (nextpid s + 1)) (initproc s).
Proof.
  intros H. revert H. set (Q := fun (r : option nat) s' => match r with None => True | Some i =>
    (i < NPROC)%nat /\ state (procs s i) = UNUSED /\ s' = Ptab (<[i := set_pid (nextpid s)
      (set_state EMBRYO (procs s i))]> (procs s)) (i32 (nextpid s + 1)) (initproc s) end).
  intros H. apply (run_wp _ _ _ _ _ _ Q H). unfold alloc_slot, Q.
  pose proof (find_proc_spec (is_state UNUSED) NPROC 0 (procs s)) as Hf. do 4 wp_step.
  destruct (find_proc _ NPROC 0 (procs s)) as [j|]; repeat wp_step; [|done].
  destruct Hf as (H1 & H2%bool_decide_eq_true & _). split; [lia|]. done.
Qed.

Lemma sched_run {A} p ch c s (Q : chan -> ctx -> ptab -> Prop) : held c = [Lptable] ->
  state (procs s p) <> RUNNING -> Q ch c s -> blocks (sched (A := A) p ch) c s Q.
Proof.
  intros Hc Hs HQ. unfold sched. apply blocks_bind. wp_step. apply blocks_bind. wp_step. rewrite Hc.
  rewrite (bool_decide_true (Lptable ∈ _)) by constructor. rewrite (bool_decide_true (_ = _)) by done.
  by rewrite bool_decide_false.
Qed.

Lemma yield_run p s ch c' s' : yield (A := unit) p cpu_ctx s = Block ch c' s' ->
  s' = upd_proc p (set_state RUNNABLE) s.
Proof.
  intros H. apply (run_blocks _ _ _ _ _ _ (fun s' => s' = _) H). unfold yield.
  apply blocks_bind. wp_step. apply blocks_bind. wp_step. apply sched_run; [done|by rewrite upd_same|done].
Qed.

Lemma sleep_run p ch lk s ch' c' s' : sleep (A := unit) p ch lk (set_held [lk] cpu_ctx) s = Block ch' c' s' ->
  s' = upd_proc p (set_state SLEEPING) (upd_proc p (set_chan (Some ch)) s).
Proof.
  intros H. apply (run_blocks _ _ _ _ _ _ (fun s' => s' = _) H). unfold sleep.
  apply blocks_bind. destruct (decide (lk = Lptable)) as [->|Hne].
  - wp_step. apply blocks_bind. wp_step. apply blocks_bind. wp_step.
    apply sched_run; [done|by rewrite upd_same|done].
  - do 2 wp_step.
    apply wp_release; [cbn; by right; constructor|]. apply blocks_bind. wp_step. apply blocks_bind. wp_step.
    apply sched_run; [|by rewrite upd_same|done]. cbn.
    rewrite decide_False, decide_True by congruence. done.
Qed.

(** ** exit *)

(** At most woken up. *)
Record soft (a b : proc) : Prop := {
  so_pid : pid b = pid a;
  so_chan : pchan b = pchan a;
  so_state : state b = state a \/ (state a = SLEEPING /\ state b = RUNNABLE)
}.
(** Asleep in [wait]. *)
Definition waiting (p : proc) (k : nat) : Prop := state p = SLEEPING /\ pchan p = Some (ChProc k).

Lemma soft_refl a : soft a a.
Proof. constructor; auto. Qed.
Lemma soft_trans a b c : soft a b -> soft b c -> soft a c.
Proof. intros [H1 H2 H3] [G1 G2 G3]. constructor; [congruence|congruence|]. destruct H3 as [|[]], G3 as [|[]]; naive_solver congruence. Qed.
Lemma soft_wake ch a : soft a (wake ch a) /\ parent (wake ch a) = parent a.
Proof.
  unfold wake. destruct (bool_decide (state a = SLEEPING)) eqn:E; cbn [andb]; [|by split; [apply soft_refl|]].
  apply bool_decide_eq_true in E. destruct (bool_decide _); [|by split; [apply soft_refl|]].
  split; [|done]. constructor; auto.
Qed.
Lemma soft_waiting a b k : soft a b -> ~ waiting a k -> ~ waiting b k.
Proof. intros [H1 H2 H3] Hn [G1 G2]. apply Hn. destruct H3 as [|[]]; split; congruence. Qed.
Lemma soft_zombie a b : soft a b -> state b = ZOMBIE <-> state a = ZOMBIE.
Proof. intros [H1 H2 H3]. destruct H3 as [->|[-> ->]]; done. Qed.
Lemma wake_waiting k a : ~ waiting (wake (ChProc k) a) k.
Proof.
  intros [H1 H2]. unfold wake in *. destruct (bool_decide (state a = SLEEPING)) eqn:E; cbn [andb] in *.
  - destruct (bool_decide (pchan a = Some (ChProc k))) eqn:F; [done|].
    apply bool_decide_eq_false in F. done.
  - apply bool_decide_eq_false in E. done.
Qed.

(** The table after [wakeup1] of the wait channel of [k]. *)
#[local] Notation woken_tab k t := (wakeup1_loop NPROC 0 (ChProc k) t).
Lemma woken_tab_spec k t j : soft (t j) (woken_tab k t j) /\ parent (woken_tab k t j) = parent (t j).
Proof. rewrite wakeup1_loop_spec. case_decide; [apply soft_wake|]. by split; [apply soft_refl|]. Qed.
Lemma woken_tab_waiting k t : (k < NPROC)%nat -> ~ waiting (woken_tab k t k) k.
Proof. intros Hk. rewrite wakeup1_loop_spec, decide_True by lia. apply wake_waiting. Qed.

(** The table after the loop of [exit] over the slots from [i] on. *)
Record reparented (cur k n i : nat) (s s' : ptab) : Prop := {
  rp_next : nextpid s' = nextpid s;
  rp_init : initproc s' = initproc s;
  rp_soft : forall j, soft (procs s j) (procs s' j);
  rp_parent : forall j, parent (procs s' j) =
    if decide ((i <= j < i + n)%nat /\ parent (procs s j) = Some cur) then Some k else parent (procs s j);
  rp_wake : forall j, (i <= j < i + n)%nat -> parent (procs s j) = Some cur ->
    state (procs s j) = ZOMBIE -> ~ waiting (procs s' k) k
}.

Lemma reparent_loop_wp cur k n : forall i s c (Q : unit -> ctx -> ptab -> Prop),
  initproc s = Some k -> (k < NPROC)%nat ->
  (forall s', reparented cur k n i s s' -> Q tt c s') -> wp (reparent_loop n i cur) c s Q.
Proof.
  induction n as [|n IH]; intros i s c Q Hi Hk HQ.
  { change (wp (mret tt) c s Q). wp_step. apply HQ. constructor; try done; [by intros; apply soft_refl| |lia].
    intros j. rewrite decide_False by lia. done. }
  change (reparent_loop (S n) i cur) with (
    p ← getp i id;
    when (bool_decide (parent p = Some cur)) (
      ini ← gets initproc;
      setp i (set_parent ini);;
      match ini with
      | Some k => when (bool_decide (state p = ZOMBIE)) (wakeup1 (ChProc k))
      | None => mret tt
      end);;
    reparent_loop n (S i) cur).
  do 3 wp_step. unfold id. apply wp_when.
  - intros Hp%bool_decide_eq_true. do 2 wp_step. rewrite Hi. do 2 wp_step.
    set (s1 := upd_proc i (set_parent (Some k)) s).
    assert (Hs1 : forall j, soft (procs s j) (procs s1 j)).
    { intros j. unfold s1. destruct (decide (j = i)) as [->|]; [rewrite upd_same; by constructor; auto|].
      rewrite upd_ne by done. apply soft_refl. }
    assert (Hp1 : forall j, parent (procs s1 j) = if decide (j = i) then Some k else parent (procs s j)).
    { intros j. unfold s1. destruct (decide (j = i)) as [->|]; [by rewrite upd_same|by rewrite upd_ne]. }
    set (zz := bool_decide (state (procs s i) = ZOMBIE)).
    set (s2 := if zz then Ptab (woken_tab k (procs s1)) (nextpid s1) (initproc s1) else s1).
    assert (H2 : initproc s2 = Some k /\ nextpid s2 = nextpid s /\
      (forall j, soft (procs s j) (procs s2 j)) /\ (forall j, parent (procs s2 j) = parent (procs s1 j)) /\
      (zz = true -> ~ waiting (procs s2 k) k)).
    { unfold s2. destruct zz; [|done]. cbn [initproc nextpid procs]. split_and!; try done.
      - intros j. eapply soft_trans; [apply Hs1|apply woken_tab_spec].
      - intros j. apply woken_tab_spec.
      - intros _. by apply woken_tab_waiting. }
    destruct H2 as (G1 & G2 & G3 & G4 & G5).
    assert (Hrest : wp (reparent_loop n (S i) cur) c s2 Q).
    { apply IH; [done|done|]. intros s' [R1 R2 R3 R4 R5]. apply HQ. constructor.
      - congruence.
      - congruence.
      - intros j. eapply soft_trans; [apply G3|apply R3].
      - intros j. rewrite R4, G4, Hp1. destruct (decide (j = i)) as [->|].
        + rewrite decide_False by lia. by rewrite decide_True by (split; [lia|done]).
        + apply decide_ext. split; (intros [? ?]; split; [lia|done]).
      - intros j Hj Hpj Hz. destruct (decide (j = i)) as [->|].
        + eapply soft_waiting; [apply R3|]. apply G5. by apply bool_decide_eq_true.
        + apply (R5 j); [lia| |].
          * rewrite G4, Hp1, decide_False by done. done.
          * by apply (soft_zombie _ _ (G3 j)). }
    apply wp_when; intros E; fold zz in E.
    + unfold wakeup1. wp_step. unfold s2 in Hrest. rewrite E in Hrest.
      exact Hrest.
    + unfold s2 in Hrest. rewrite E in Hrest. exact Hrest.
  - intros Hp%bool_decide_eq_false. apply IH; [done|done|]. intros s' [R1 R2 R3 R4 R5]. apply HQ.
    constructor; try done.
    + intros j. rewrite R4. apply decide_ext. destruct (decide (j = i)) as [->|];
        (split; intros [? ?]; first [exfalso; lia|exfalso; by apply Hp|split; [lia|done]]).
    + intros j Hj Hpj Hz. destruct (decide (j = i)) as [->|]; [done|]. apply (R5 j); [lia|done|done].
Qed.

(** The table after the critical section of [exit]. *)
Record exited (cur k : nat) (s s' : ptab) : Prop := {
  ex_next : nextpid s' = nextpid s;
  ex_init : initproc s' = initproc s;
  ex_cur : state (procs s' cur) = ZOMBIE /\ pid (procs s' cur) = pid (procs s cur);
  ex_soft : forall j, j <> cur -> soft (procs s j) (procs s' j);
  ex_parent : forall j, (j < NPROC)%nat -> parent (procs s' j) =
    if decide (parent (procs s j) = Some cur) then Some k else parent (procs s j);
  ex_winit : forall j, (j < NPROC)%nat -> parent (procs s j) = Some cur ->
    state (procs s j) = ZOMBIE -> ~ waiting (procs s' k) k;
  ex_wparent : forall q, parent (procs s cur) = Some q -> (q < NPROC)%nat -> ~ waiting (procs s' q) q
}.

Lemma exit_section_wp cur k s c (Q : unit -> ctx -> ptab -> Prop) :
  initproc s = Some k -> (k < NPROC)%nat ->
  (forall s', exited cur k s s' -> Q tt c s') -> wp (exit_section cur) c s Q.
Proof.
  intros Hi Hk HQ. unfold exit_section. do 3 wp_step.
  assert (Hgo : forall s1, nextpid s1 = nextpid s -> initproc s1 = initproc s ->
    (forall j, soft (procs s j) (procs s1 j) /\ parent (procs s1 j) = parent (procs s j)) ->
    (forall q, parent (procs s cur) = Some q -> (q < NPROC)%nat -> ~ waiting (procs s1 q) q) ->
    wp (reparent_loop NPROC 0 cur;; setp cur (set_state ZOMBIE)) c s1 Q).
  { intros s1 G1 G2 G3 G4. wp_step. apply (reparent_loop_wp cur k); [congruence|done|].
    intros s2 [R1 R2 R3 R4 R5]. wp_step. apply HQ.
    assert (Hnw : forall j, ~ waiting (procs s2 j) j -> ~ waiting (procs (upd_proc cur (set_state ZOMBIE) s2) j) j).
    { intros j Hj [W1 W2]. destruct (decide (j = cur)) as [->|]; [by rewrite upd_same in W1|].
      rewrite upd_ne in W1, W2 by done. by apply Hj. }
    constructor; cbn [nextpid initproc upd_proc].
    - congruence.
    - congruence.
    - rewrite upd_same. split; [done|]. cbn. rewrite (so_pid _ _ (R3 cur)). apply G3.
    - intros j Hj. rewrite upd_ne by done. eapply soft_trans; [apply G3|apply R3].
    - intros j Hj. assert (parent (procs (upd_proc cur (set_state ZOMBIE) s2) j) = parent (procs s2 j)) as ->.
      { destruct (decide (j = cur)) as [->|]; [by rewrite upd_same|by rewrite upd_ne]. }
      rewrite R4. rewrite (proj2 (G3 j)). apply decide_ext. split; [by intros [_ ?]|]. intros ?. split; [lia|done].
    - intros j Hj Hp Hz. apply Hnw. apply (R5 j); [lia|by rewrite (proj2 (G3 j))|].
      by apply (soft_zombie _ _ (proj1 (G3 j))).
    - intros q Hq Hlt. apply Hnw. eapply soft_waiting; [apply R3|]. by apply G4. }
  destruct (parent (procs s cur)) as [q|].
  - unfold wakeup1. wp_step. apply Hgo; [done|done| |].
    + intros j. cbn [procs]. apply woken_tab_spec.
    + intros q' [= <-] Hq. cbn [procs]. by apply woken_tab_waiting.
  - wp_step. apply Hgo; [done|done| |done]. intros j. by split; [apply soft_refl|].
Qed.

Lemma exit_run cur k s c' s' : exit_section cur cpu_ctx s = Ok tt c' s' ->
  initproc s = Some k -> (k < NPROC)%nat -> exited cur k s s'.
Proof.
  intros H Hi Hk. apply (run_wp _ _ _ _ _ _ (fun _ s' => exited cur k s s') H).
  by apply (exit_section_wp cur k).
Qed.
End effects.

(** * Preservation *)

(** Nothing that the invariant sees changes, except that sleepers may be woken. *)
Record gentle (a b : proc) : Prop := {
  ge_pid : pid b = pid a;
  ge_parent : parent b = parent a;
  ge_chan : state b = SLEEPING -> pchan b = pchan a;
  ge_state : state b = state a \/ (state a = SLEEPING /\ state b = RUNNABLE)
}.

Section preservation.
Implicit Types (m : machine) (s : ptab) (i j k p q : nat).

Lemma gentle_state a b x : gentle a b -> x <> SLEEPING -> x <> RUNNABLE -> state b = x <-> state a = x.
Proof. intros [_ _ _ [->|[-> ->]]]; naive_solver. Qed.
Lemma gentle_live a b : gentle a b -> live a -> live b.
Proof. intros [_ _ _ [H|[H1 H2]]]; unfold live; [by rewrite H|rewrite H2; auto]. Qed.
Lemma gentle_sleep a b : gentle a b -> state b = SLEEPING -> state a = SLEEPING /\ pchan b = pchan a.
Proof. intros [_ _ H3 [H|[H1 H2]]] Hs; split; try congruence; auto. Qed.

Lemma minv_gentle m s : minv m -> nextpid s = nextpid (mp m) -> initproc s = initproc (mp m) ->
  (forall j, gentle (procs (mp m) j) (procs s j)) -> minv (Machine s (mcpu m) (mnew m)).
Proof.
  intros Hm Hn Hi Hg.
  assert (Hst : forall j x, x <> SLEEPING -> x <> RUNNABLE -> state (procs s j) = x <-> state (procs (mp m) j) = x)
    by (intros; by apply gentle_state).
  assert (Hpid : forall j, pid (procs s j) = pid (procs (mp m) j)) by (intros j; apply Hg).
  assert (Hpar : forall j, parent (procs s j) = parent (procs (mp m) j)) by (intros j; apply Hg).
  assert (Hlive : forall j, live (procs (mp m) j) -> live (procs s j)) by (intros j; by apply gentle_live).
  destruct Hm as [I1 I2 I3 I4 I5 I6 I7 I8 I9 I10 I11 I12 I13 I14 I15].
  constructor; cbn [mp mcpu mnew]; rewrite ?Hn, ?Hi; try done.
  - intros k p Hk. rewrite Hst by done. eauto.
  - intros p Hp. rewrite Hst by done. eauto.
  - intros p Hp. rewrite Hst, Hpid by done. eauto.
  - intros p q Hp Hq. rewrite !Hst, !Hpid by done. eauto.
  - destruct I7 as (i & E1 & E2 & E3). eauto.
  - intros p Hp. rewrite Hst, Hpar by done. eauto.
  - intros p q Hp. rewrite Hst, Hpar by done. eauto.
  - intros p Hp. rewrite !Hst, Hpar by done. intros H1 H2 H3.
    destruct (I10 p Hp H1 H2 H3) as (q & Q1 & Q2 & Q3). eauto.
  - intros p i Hpi. rewrite Hst by done. destruct (I11 p i Hpi) as (N1 & N2 & N3 & N4). auto.
  - intros p q Hp Hs Hc. destruct (gentle_sleep _ _ (Hg p) Hs) as [S1 S2]. rewrite S2 in Hc.
    destruct (I13 p q Hp S1 Hc) as [W1 W2]. split; [done|]. intros z. rewrite Hpar, Hst by done. auto.
  - intros p Hp. rewrite Hpar. auto.
  - intros i Hi'. rewrite Hpar. auto.
Qed.

(** A process moves between the live states, with its CPU. *)
Lemma minv_move m p f cpu' : minv m -> (p < NPROC)%nat -> live (procs (mp m) p) ->
  let b := f (procs (mp m) p) in
  live b -> pid b = pid (procs (mp m) p) -> parent b = parent (procs (mp m) p) ->
  (state b = SLEEPING -> forall q, pchan b = Some (ChProc q) -> q = p /\
     forall z, (z < NPROC)%nat -> parent (procs (mp m) z) = Some p -> state (procs (mp m) z) <> ZOMBIE) ->
  (forall k q, cpu' k = Some q -> (q < NPROC)%nat /\ state (procs (upd_proc p f (mp m)) q) = RUNNING) ->
  (forall q, (q < NPROC)%nat -> state (procs (upd_proc p f (mp m)) q) = RUNNING -> exists k, cpu' k = Some q) ->
  (forall k k' q, cpu' k = Some q -> cpu' k' = Some q -> k = k') ->
  minv (Machine (upd_proc p f (mp m)) cpu' (mnew m)).
Proof.
  intros Hm Hp Hl b Hlb Hpid Hpar Hw C1 C2 C3. destruct Hm as [I1 I2 I3 I4 I5 I6 I7 I8 I9 I10 I11 I12 I13 I14 I15].
  set (t' := procs (upd_proc p f (mp m))).
  assert (Ht : forall j, t' j = if decide (j = p) then b else procs (mp m) j).
  { intros j. unfold t'. case_decide as E; [subst; apply upd_same|by apply upd_ne]. }
  assert (Hst : forall j x, (x = UNUSED \/ x = EMBRYO \/ x = ZOMBIE) -> state (t' j) = x <-> state (procs (mp m) j) = x).
  { intros j x Hx. rewrite Ht. case_decide as E; [subst j|done].
    destruct Hlb as [E1|[E1|E1]], Hl as [E2|[E2|E2]]; rewrite E1, E2; naive_solver. }
  assert (Hpd : forall j, pid (t' j) = pid (procs (mp m) j)) by (intros j; rewrite Ht; case_decide; by subst).
  assert (Hpr : forall j, parent (t' j) = parent (procs (mp m) j)) by (intros j; rewrite Ht; case_decide; by subst).
  assert (Hlv : forall j, live (procs (mp m) j) -> live (t' j)) by (intros j; rewrite Ht; case_decide; by subst).
  constructor; cbn [mp mcpu mnew]; cbn [nextpid initproc upd_proc]; fold t'; try done.
  - intros j Hj. rewrite Hst, Hpd by auto. eauto.
  - intros j q Hj Hq. rewrite !Hst, !Hpd by auto. eauto.
  - destruct I7 as (i & E1 & E2 & E3). eauto.
  - intros j Hj. rewrite Hst, Hpr by auto. eauto.
  - intros j q Hj. rewrite Hst, Hpr by auto. eauto.
  - intros j Hj. rewrite !Hst, Hpr by auto. intros H1 H2 H3.
    destruct (I10 j Hj H1 H2 H3) as (q & Q1 & Q2 & Q3). eauto.
  - intros q i Hqi. rewrite Hst by auto. destruct (I11 q i Hqi) as (N1 & N2 & N3 & N4). auto.
  - intros j q Hj Hs Hc. rewrite Ht in Hs, Hc.
    assert (Hz : forall z x, parent (t' z) = Some x <-> parent (procs (mp m) z) = Some x) by (intros; by rewrite Hpr).
    case_decide as E; [subst j|].
    + destruct (Hw Hs q Hc) as [W1 W2]. split; [done|]. intros z. rewrite Hz, Hst by auto. auto.
    + destruct (I13 j q Hj Hs Hc) as [W1 W2]. split; [done|]. intros z. rewrite Hz, Hst by auto. auto.
  - intros j Hj. rewrite Hpr. auto.
  - intros j Hj. rewrite Hpr. auto.
Qed.

Lemma pick_spec i (t : nat -> proc) p : pick i t = Some p -> (p < NPROC)%nat /\ state (t p) = RUNNABLE.
Proof.
  unfold pick. intros H. pose proof (find_proc_spec (is_state RUNNABLE) (NPROC - i) i t) as Hs.
  rewrite H in Hs. destruct Hs as (H1 & H2%bool_decide_eq_true & _). split; [lia|done].
Qed.

Lemma minv_pick m k i p : minv m -> mcpu m k = None -> pick i (procs (mp m)) = Some p ->
  minv (Machine (upd_proc p (set_state RUNNING) (mp m)) (<[k := Some p]> (mcpu m)) (mnew m)).
Proof.
  intros Hm Hk Hpk. apply pick_spec in Hpk as [Hp Hs].
  assert (Hno : forall k', mcpu m k' <> Some p).
  { intros k' Hk'. destruct (mi_cpu _ Hm k' p Hk') as [_ E]. congruence. }
  apply minv_move; try done; [by left|by right; left| | |].
  - intros k' q. destruct (decide (k' = k)) as [->|Hne].
    + rewrite fn_lookup_insert. intros [= <-]. by rewrite upd_same.
    + rewrite fn_lookup_insert_ne by done. intros Hq. rewrite upd_ne; [by apply (mi_cpu _ Hm k')|].
      intros ->. by apply (Hno k').
  - intros q Hq Hs'. destruct (decide (q = p)) as [->|Hne].
    + exists k. by rewrite fn_lookup_insert.
    + rewrite upd_ne in Hs' by done. destruct (mi_run _ Hm q Hq Hs') as [k' Hk']. exists k'.
      rewrite fn_lookup_insert_ne; [done|]. intros ->. congruence.
  - intros k1 k2 q. destruct (decide (k1 = k)) as [->|H1], (decide (k2 = k)) as [->|H2]; try done;
      rewrite ?fn_lookup_insert; rewrite ?fn_lookup_insert_ne by done.
    + intros [= <-] Hc. by apply Hno in Hc.
    + intros Hc [= <-]. by apply Hno in Hc.
    + apply (mi_inj _ Hm).
Qed.

(** The running process leaves its CPU. *)
Lemma cpu_stop m k p (t' : nat -> proc) : minv m -> mcpu m k = Some p -> state (t' p) <> RUNNING ->
  (forall q, (q < NPROC)%nat -> q <> p -> state (t' q) = RUNNING <-> state (procs (mp m) q) = RUNNING) ->
  let cpu' := <[k := None]> (mcpu m) in
  (forall k' q, cpu' k' = Some q -> (q < NPROC)%nat /\ state (t' q) = RUNNING) /\
  (forall q, (q < NPROC)%nat -> state (t' q) = RUNNING -> exists k', cpu' k' = Some q) /\
  (forall k1 k2 q, cpu' k1 = Some q -> cpu' k2 = Some q -> k1 = k2).
Proof.
  intros Hm Hk Hs Hoth cpu'.
  assert (Hc : forall k', cpu' k' = if decide (k' = k) then None else mcpu m k').
  { intros k'. unfold cpu'. case_decide; [subst; apply fn_lookup_insert|by apply fn_lookup_insert_ne]. }
  split_and!.
  - intros k' q. rewrite Hc. case_decide as E; [done|]. intros Hq. destruct (mi_cpu _ Hm k' q Hq) as [Q1 Q2].
    split; [done|]. apply Hoth; [done| |done]. intros ->. apply E. by apply (mi_inj _ Hm k' k p).
  - intros q Hq Hr. destruct (decide (q = p)) as [->|Hne]; [done|]. apply Hoth in Hr; [|done|done].
    destruct (mi_run _ Hm q Hq Hr) as [k' Hk']. exists k'. rewrite Hc, decide_False; [done|]. intros ->. congruence.
  - intros k1 k2 q. rewrite !Hc. do 2 case_decide; try done. apply (mi_inj _ Hm).
Qed.

Lemma minv_stop m k p f : minv m -> mcpu m k = Some p ->
  let b := f (procs (mp m) p) in
  state b = RUNNABLE \/ state b = SLEEPING -> pid b = pid (procs (mp m) p) ->
  parent b = parent (procs (mp m) p) ->
  (state b = SLEEPING -> forall q, pchan b = Some (ChProc q) -> q = p /\
     forall z, (z < NPROC)%nat -> parent (procs (mp m) z) = Some p -> state (procs (mp m) z) <> ZOMBIE) ->
  minv (Machine (upd_proc p f (mp m)) (<[k := None]> (mcpu m)) (mnew m)).
Proof.
  intros Hm Hk b Hb Hpid Hpar Hw. destruct (mi_cpu _ Hm k p Hk) as [Hp Hr].
  destruct (cpu_stop m k p (procs (upd_proc p f (mp m))) Hm Hk) as (C1 & C2 & C3).
  - rewrite upd_same. fold b. destruct Hb as [-> | ->]; done.
  - intros q Hq Hne. by rewrite upd_ne.
  - apply minv_move; try done; [by right; left|]. fold b. unfold live. tauto.
Qed.

Lemma upd_upd p f g s j : procs (upd_proc p f (upd_proc p g s)) j = procs (upd_proc p (fun x => f (g x)) s) j.
Proof.
  destruct (decide (j = p)) as [->|]; [by rewrite !upd_same|by rewrite !upd_ne].
Qed.

Lemma minv_ext s0 s cp nw : minv (Machine s0 cp nw) -> nextpid s = nextpid s0 -> initproc s = initproc s0 ->
  (forall j, procs s j = procs s0 j) -> minv (Machine s cp nw).
Proof.
  intros Hm H1 H2 H3. apply (minv_gentle _ s Hm); try done. intros j. cbn. rewrite H3. constructor; auto.
Qed.

Lemma minv_sleep m k p ch : minv m -> mcpu m k = Some p ->
  (forall q, ch = ChProc q -> q = p /\
     forall z, (z < NPROC)%nat -> parent (procs (mp m) z) = Some p -> state (procs (mp m) z) <> ZOMBIE) ->
  minv (Machine (upd_proc p (set_state SLEEPING) (upd_proc p (set_chan (Some ch)) (mp m)))
    (<[k := None]> (mcpu m)) (mnew m)).
Proof.
  intros Hm Hk Hw.
  apply (minv_ext (upd_proc p (fun x => set_state SLEEPING (set_chan (Some ch) x)) (mp m))); try done.
  - apply minv_stop; try done; [by right|]. intros _ q. cbn. intros [= ->]. by apply Hw.
  - intros j. apply upd_upd.
Qed.

Lemma upd_eq p f s j : procs (upd_proc p f s) j = if decide (j = p) then f (procs s p) else procs s j.
Proof. case_decide as E; [subst; apply upd_same|by apply upd_ne]. Qed.

Lemma minv_alloc m k p i : minv m -> mcpu m k = Some p -> mnew m p = None -> (i < NPROC)%nat ->
  state (procs (mp m) i) = UNUSED -> nextpid (mp m) + 1 < 2147483648 ->
  minv (Machine (Ptab (<[i := set_pid (nextpid (mp m)) (set_state EMBRYO (procs (mp m) i))]> (procs (mp m)))
    (i32 (nextpid (mp m) + 1)) (initproc (mp m))) (mcpu m) (<[p := Some i]> (mnew m))).
Proof.
  intros Hm Hk Hnp Hi Hu Hb. pose proof (mi_unused _ Hm i Hi Hu) as Hpar.
  destruct Hm as [I1 I2 I3 I4 I5 I6 I7 I8 I9 I10 I11 I12 I13 I14 I15].
  rewrite i32_small by wrap_lia. set (t' := <[i := _]> (procs (mp m))).
  assert (Ht : forall j, t' j = if decide (j = i) then set_pid (nextpid (mp m)) (set_state EMBRYO (procs (mp m) i))
    else procs (mp m) j).
  { intros j. unfold t'. case_decide as E; [subst; apply fn_lookup_insert|by apply fn_lookup_insert_ne]. }
  assert (Hni : forall q, mnew m q <> Some i).
  { intros q Hq. destruct (I11 q i Hq) as (_ & _ & _ & E). congruence. }
  destruct (I1 k p Hk) as [Hp Hrun]. assert (Hpi : p <> i) by (intros ->; congruence).
  assert (Hlv : forall j, live (procs (mp m) j) -> live (t' j)).
  { intros j Hj. rewrite Ht. case_decide as E; [|done]. subst. unfold live in Hj. rewrite Hu in Hj. naive_solver. }
  constructor; cbn [mp mcpu mnew procs nextpid initproc]; try done.
  - intros k' q Hq. rewrite Ht. destruct (I1 k' q Hq). rewrite decide_False by (intros ->; congruence). done.
  - intros q Hq. rewrite Ht. case_decide; [done|]. by apply I2.
  - intros q Hq. rewrite Ht. case_decide; cbn; [lia|]. intros Hs. specialize (I4 q Hq Hs). lia.
  - intros q r Hq Hr. rewrite !Ht. do 2 case_decide; cbn; intros G1 G2 G3; subst; try done.
    + specialize (I4 r Hr G2). lia.
    + specialize (I4 q Hq G1). lia.
    + by apply I5.
  - lia.
  - destruct I7 as (x & E1 & E2 & E3). eauto.
  - intros q Hq. rewrite Ht. case_decide; [done|]. by apply I8.
  - intros q r Hq. rewrite Ht. case_decide as E; cbn; intros G1 G2; [congruence|].
    rewrite fn_lookup_insert_ne; [by apply I9|]. intros <-.
    specialize (I9 q p Hq G1 G2). congruence.
  - intros q Hq. rewrite Ht. case_decide; [done|]. intros G1 G2 G3.
    destruct (I10 q Hq G1 G2 G3) as (r & R1 & R2 & R3). eauto.
  - intros q x. destruct (decide (q = p)) as [->|Hne].
    + rewrite fn_lookup_insert. intros [= <-]. rewrite (Ht i), decide_True by done.
      split_and!; try done. apply Hlv. by right; left.
    + rewrite fn_lookup_insert_ne by done. intros Hq. destruct (I11 q x Hq) as (N1 & N2 & N3 & N4).
      rewrite (Ht x), decide_False by (intros ->; congruence). auto.
  - intros q r x. destruct (decide (q = p)) as [->|], (decide (r = p)) as [->|]; try done;
      rewrite ?fn_lookup_insert; rewrite ?fn_lookup_insert_ne by done.
    + intros [= <-] Hr. by apply Hni in Hr.
    + intros Hr [= <-]. by apply Hni in Hr.
    + apply I12.
  - intros q r Hq. rewrite Ht. case_decide; [done|]. intros G1 G2. destruct (I13 q r Hq G1 G2) as [W1 W2].
    split; [done|]. intros z Hz. rewrite Ht. case_decide; [done|]. auto.
  - intros q Hq. rewrite Ht. case_decide; subst; cbn; [congruence|auto].
  - intros q Hq. rewrite Ht. case_decide; subst; cbn; auto.
Qed.

Lemma minv_parent m k p i : minv m -> mcpu m k = Some p -> mnew m p = Some i ->
  minv (set_proc m i (set_parent (Some p))).
Proof.
  intros Hm Hk Hn. destruct Hm as [I1 I2 I3 I4 I5 I6 I7 I8 I9 I10 I11 I12 I13 I14 I15].
  destruct (I11 p i Hn) as (Np & Ni & Nl & Ne). destruct (I1 k p Hk) as [Hp Hrun].
  assert (Hst : forall j, state (procs (upd_proc i (set_parent (Some p)) (mp m)) j) = state (procs (mp m) j)).
  { intros j. rewrite upd_eq. by case_decide; subst. }
  assert (Hlv : forall j, live (procs (mp m) j) -> live (procs (upd_proc i (set_parent (Some p)) (mp m)) j)).
  { intros j. unfold live. by rewrite Hst. }
  constructor; cbn [mp mcpu mnew set_proc]; cbn [nextpid initproc upd_proc]; try done.
  - intros k' q Hq. rewrite Hst. eauto.
  - intros q Hq. rewrite Hst. eauto.
  - intros q Hq. rewrite Hst, upd_eq. case_decide; subst; cbn; eauto.
  - intros q r Hq Hr. rewrite !Hst, !upd_eq. do 2 case_decide; subst; cbn; eauto.
  - destruct I7 as (x & E1 & E2 & E3). eauto.
  - intros q Hq. rewrite Hst, upd_eq. case_decide; subst; cbn; [congruence|eauto].
  - intros q r Hq. rewrite Hst, upd_eq. case_decide; subst; cbn; [by intros _ [= <-]|eauto].
  - intros q Hq. rewrite Hst, upd_eq. case_decide; subst; [congruence|]. intros G1 G2 G3.
    destruct (I10 q Hq G1 G2 G3) as (r & R1 & R2 & R3). eauto.
  - intros q x Hq. rewrite Hst. destruct (I11 q x Hq) as (N1 & N2 & N3 & N4). auto.
  - intros q r Hq. rewrite Hst, upd_eq. case_decide; subst; [congruence|]. intros G1 G2.
    destruct (I13 q r Hq G1 G2) as [W1 W2]. split; [done|]. intros z Hz. rewrite Hst, upd_eq.
    case_decide; subst; cbn; [congruence|auto].
  - intros q Hq. rewrite upd_eq. case_decide; subst; cbn; [|auto]. intros [= ->]. congruence.
  - intros q Hq. rewrite upd_eq. case_decide; subst; cbn; [|auto]. exfalso.
    destruct I7 as (x & E1 & E2 & E3). assert (x = i) as -> by congruence. unfold live in E3. rewrite Ne in E3. naive_solver.
Qed.

(** The end of [fork]: the new slot becomes runnable, or unused again. *)
Lemma minv_forked m k p i x : minv m -> mcpu m k = Some p -> mnew m p = Some i ->
  (x = RUNNABLE /\ parent (procs (mp m) i) = Some p \/ x = UNUSED /\ parent (procs (mp m) i) = None) ->
  minv (Machine (upd_proc i (set_state x) (mp m)) (mcpu m) (<[p := None]> (mnew m))).
Proof.
  intros Hm Hk Hn Hx. destruct Hm as [I1 I2 I3 I4 I5 I6 I7 I8 I9 I10 I11 I12 I13 I14 I15].
  destruct (I11 p i Hn) as (Np & Ni & Nl & Ne). destruct (I1 k p Hk) as [Hp Hrun].
  set (t' := procs (upd_proc i (set_state x) (mp m))).
  assert (Ht : forall j, t' j = if decide (j = i) then set_state x (procs (mp m) i) else procs (mp m) j)
    by (intros j; apply upd_eq).
  assert (Hxr : x <> RUNNING /\ x <> EMBRYO /\ x <> ZOMBIE /\ x <> SLEEPING) by naive_solver.
  destruct Hxr as (X1 & X2 & X3 & X4).
  assert (Hlv : forall j, live (procs (mp m) j) -> live (t' j)).
  { intros j Hj. rewrite Ht. case_decide as E; [|done]. subst. unfold live in Hj. rewrite Ne in Hj. naive_solver. }
  assert (Hpd : forall j, pid (t' j) = pid (procs (mp m) j)) by (intros j; rewrite Ht; by case_decide; subst).
  assert (Hpr : forall j, parent (t' j) = parent (procs (mp m) j)) by (intros j; rewrite Ht; by case_decide; subst).
  assert (Hnew : forall q y, (<[p := None]> (mnew m)) q = Some y -> q <> p /\ mnew m q = Some y).
  { intros q y. destruct (decide (q = p)) as [->|]; [by rewrite fn_lookup_insert|].
    by rewrite fn_lookup_insert_ne. }
  assert (Huu : forall j, (j < NPROC)%nat -> state (t' j) <> UNUSED -> state (procs (mp m) j) <> UNUSED).
  { intros j Hj. rewrite Ht. case_decide; subst; [congruence|done]. }
  constructor; cbn [mp mcpu mnew]; cbn [nextpid initproc upd_proc]; fold t'; try done.
  - intros k' q Hq. destruct (I1 k' q Hq). rewrite Ht, decide_False by (intros ->; congruence). done.
  - intros q Hq. rewrite Ht. case_decide; [done|]. by apply I2.
  - intros q Hq Hs. rewrite Hpd. auto.
  - intros q r Hq Hr Hs1 Hs2. rewrite !Hpd. auto.
  - destruct I7 as (y & E1 & E2 & E3). eauto.
  - intros q Hq. rewrite Hpr, Ht. case_decide; subst; cbn; [naive_solver|]. by apply I8.
  - intros q r Hq. rewrite Hpr, Ht. case_decide; subst; cbn; [done|]. intros G1 G2.
    rewrite fn_lookup_insert_ne; [by apply I9|]. intros <-.
    pose proof (I9 q p Hq G1 G2). congruence.
  - intros q Hq. rewrite Hpr, Ht. case_decide; subst; cbn.
    + intros G1 G2 G3. destruct Hx as [[-> Hpp]|[-> _]]; [|done]. exists p. split; [done|]. split; [done|].
      by apply Hlv.
    + intros G1 G2 G3. destruct (I10 q Hq G1 G2 G3) as (r & R1 & R2 & R3). eauto.
  - intros q y Hq. apply Hnew in Hq as [Hqp Hq]. destruct (I11 q y Hq) as (N1 & N2 & N3 & N4).
    split_and!; try done; [by apply Hlv|]. rewrite Ht, decide_False; [done|]. intros ->.
    apply Hqp. by apply (I12 q p i).
  - intros q r y Hq Hr. apply Hnew in Hq as [_ Hq]. apply Hnew in Hr as [_ Hr]. by apply (I12 q r y).
  - intros q r Hq. rewrite Ht. case_decide; subst; cbn; [done|]. intros G1 G2.
    destruct (I13 q r Hq G1 G2) as [W1 W2]. split; [done|]. intros z Hz. rewrite Hpr, Ht.
    case_decide; subst; cbn; [done|auto].
  - intros q Hq. rewrite Hpr. auto.
  - intros q Hq. rewrite Hpr. auto.
Qed.

(** [wait] frees the slot of a zombie child. *)
Lemma minv_reap m k p z b : minv m -> mcpu m k = Some p -> wait_scan p (procs (mp m)) = (Some z, b) ->
  minv (set_proc m z reaped).
Proof.
  intros Hm Hk Hs. unfold wait_scan in Hs. injection Hs as Hs _.
  pose proof (find_proc_spec (zombie_child p) NPROC 0 (procs (mp m))) as Hf. rewrite Hs in Hf.
  destruct Hf as (Hz & [Hzp Hzz]%andb_true_iff & _).
  apply bool_decide_eq_true in Hzp. apply bool_decide_eq_true in Hzz.
  destruct Hm as [I1 I2 I3 I4 I5 I6 I7 I8 I9 I10 I11 I12 I13 I14 I15].
  set (t' := procs (upd_proc z reaped (mp m))).
  assert (Ht : forall j, t' j = if decide (j = z) then reaped (procs (mp m) z) else procs (mp m) j)
    by (intros j; apply upd_eq).
  assert (Hlv : forall j, live (procs (mp m) j) -> live (t' j)).
  { intros j Hj. rewrite Ht. case_decide as E; [|done]. subst. unfold live in Hj. rewrite Hzz in Hj. naive_solver. }
  constructor; cbn [mp mcpu mnew set_proc]; cbn [nextpid initproc upd_proc]; fold t'; try done.
  - intros k' q Hq. destruct (I1 k' q Hq). rewrite Ht, decide_False by (intros ->; congruence). done.
  - intros q Hq. rewrite Ht. case_decide; [done|]. by apply I2.
  - intros q Hq. rewrite Ht. case_decide; [done|]. by apply I4.
  - intros q r Hq Hr. rewrite !Ht. do 2 case_decide; cbn; try done. by apply I5.
  - destruct I7 as (y & E1 & E2 & E3). eauto.
  - intros q Hq. rewrite Ht. case_decide; [done|]. by apply I8.
  - intros q r Hq. rewrite Ht. case_decide; [done|]. by apply I9.
  - intros q Hq. rewrite Ht. case_decide; [done|]. intros G1 G2 G3.
    destruct (I10 q Hq G1 G2 G3) as (r & R1 & R2 & R3). eauto.
  - intros q y Hq. destruct (I11 q y Hq) as (N1 & N2 & N3 & N4).
    split_and!; try done; [by apply Hlv|]. rewrite Ht, decide_False; [done|]. intros ->. congruence.
  - intros q r Hq. rewrite Ht. case_decide; [done|]. intros G1 G2.
    destruct (I13 q r Hq G1 G2) as [W1 W2]. split; [done|]. intros y Hy. rewrite Ht.
    case_decide; [done|auto].
  - intros q Hq. rewrite Ht. case_decide; [done|auto].
  - intros q Hq. rewrite Ht. case_decide; [done|auto].
Qed.

Lemma minv_exit m k p i s' : minv m -> mcpu m k = Some p -> mnew m p = None -> initproc (mp m) = Some i ->
  i <> p -> exited p i (mp m) s' -> minv (Machine s' (<[k := None]> (mcpu m)) (mnew m)).
Proof.
  intros Hm Hk Hnp Hi Hip [X1 X2 [X3 X3'] X4 X5 X6 X7]. destruct (mi_cpu _ Hm k p Hk) as [Hp Hrun].
  assert (Hst : forall j x, j <> p -> x <> SLEEPING -> x <> RUNNABLE ->
    state (procs s' j) = x <-> state (procs (mp m) j) = x).
  { intros j x Hj N1 N2. destruct (so_state _ _ (X4 j Hj)) as [->|[E1 E2]]; [done|]. rewrite E1, E2. naive_solver. }
  assert (Hlv : forall j, j <> p -> live (procs (mp m) j) -> live (procs s' j)).
  { intros j Hj. unfold live. destruct (so_state _ _ (X4 j Hj)) as [->|[E1 E2]]; [done|]. rewrite E2. auto. }
  assert (Hpd : forall j, pid (procs s' j) = pid (procs (mp m) j)).
  { intros j. destruct (decide (j = p)) as [->|]; [done|]. by apply X4. }
  assert (Huu : forall j, state (procs s' j) <> UNUSED -> state (procs (mp m) j) <> UNUSED).
  { intros j. destruct (decide (j = p)) as [->|]; [congruence|]. by rewrite Hst. }
  destruct (cpu_stop m k p (procs s') Hm Hk) as (C1 & C2 & C3); [congruence|intros; by apply Hst|].
  destruct Hm as [I1 I2 I3 I4 I5 I6 I7 I8 I9 I10 I11 I12 I13 I14 I15].
  assert (Hili : (i < NPROC)%nat /\ live (procs (mp m) i)).
  { destruct I7 as (x & E1 & E2 & E3). by assert (x = i) as -> by congruence. }
  destruct Hili as [Hilt Hil].
  constructor; cbn [mp mcpu mnew]; rewrite ?X1, ?X2; try done.
  - intros q Hq Hs. rewrite Hpd. auto.
  - intros q r Hq Hr Hs1 Hs2. rewrite !Hpd. auto.
  - exists i. split; [done|]. split; [done|]. by apply Hlv.
  - intros q Hq Hs. destruct (decide (q = p)) as [->|Hne]; [congruence|]. apply Hst in Hs; [|done..].
    rewrite X5 by done. rewrite (I8 q Hq Hs). done.
  - intros q r Hq Hs. destruct (decide (q = p)) as [->|Hne]; [congruence|]. apply Hst in Hs; [|done..].
    rewrite X5 by done. case_decide as E; [|by apply I9]. pose proof (I9 q p Hq Hs E). congruence.
  - intros q Hq G1 G2 G3. rewrite X5 by done. case_decide as E; [exists i; auto|].
    destruct (I10 q Hq) as (r & R1 & R2 & R3); [by apply Huu| |done|].
    { destruct (decide (q = p)) as [->|]; [congruence|]. by rewrite <- Hst. }
    exists r. split; [done|]. split; [done|]. apply Hlv; [|done]. congruence.
  - intros q y Hq. destruct (I11 q y Hq) as (N1 & N2 & N3 & N4).
    assert (q <> p) by congruence. assert (y <> p) by congruence.
    split_and!; try done; [by apply Hlv|]. by apply Hst.
  - intros q r Hq Hs Hc. destruct (decide (q = p)) as [->|Hne]; [congruence|].
    destruct (X4 q Hne) as [S1 S2 S3]. rewrite S2 in Hc.
    assert (Hso : state (procs (mp m) q) = SLEEPING) by (destruct S3 as [|[]]; congruence).
    destruct (I13 q r Hq Hso Hc) as [-> W2]. split; [done|]. intros z Hz Hpz Hzz.
    assert (Hwq : waiting (procs s' q) q) by (split; congruence).
    rewrite X5 in Hpz by done. destruct (decide (z = p)) as [->|Hzp].
    + case_decide as E; [by apply (I14 p Hp)|]. by apply (X7 q Hpz Hq).
    + apply Hst in Hzz; [|done..]. case_decide as E; [|by apply (W2 z Hz)].
      injection Hpz as <-. by apply (X6 z Hz E Hzz).
  - intros q Hq. rewrite X5 by done. case_decide as E; [|auto]. intros [= <-]. rewrite (I15 i Hi) in E. done.
  - intros q Hq. assert (q = i) as -> by congruence. rewrite X5 by done. by rewrite (I15 i Hi).
Qed.
End preservation.

(** * Theorems *)

Lemma mstep_inv m m' : minv m -> nextpid (mp m) + 1 < 2147483648 -> mstep m m' ->
  minv m' /\ nextpid (mp m') <= nextpid (mp m) + 1.
Proof.
  intros Hm Hb Hs. destruct (mi_init _ Hm) as (i0 & Hi0 & Hi1 & Hi2). pose proof (mi_next _ Hm) as Hpos.
  destruct Hs as [k i p Hk Hp|k p ch c' s' Hk Hy|k p ch lk c' s' Hk Hch Hlk Hs|k p Hk|k p Hk|ch c' s' Hw|n r c' s' Hkl|
    k p i c' s' Hk Hn Ha|k p i Hk Hn|k p i Hk Hn Hp|k p i Hk Hn Hp|k p c' s' Hk Hn Hni Hx|k p z b Hk Hn Hw|
    k p ch c' s' Hk Hn Hw Hkl Hs].
  - split; [by eapply minv_pick|cbn; lia].
  - apply yield_run in Hy as ->. split; [|cbn; lia]. apply minv_stop; try done; [by left].
  - apply sleep_run in Hs as ->. split; [|cbn; lia]. apply minv_sleep; try done. intros q ->. by destruct (Hch q).
  - split; [|cbn; lia]. apply minv_gentle; [done|done|done|]. intros j. rewrite upd_eq. case_decide as E.
    + subst. destruct (mi_cpu _ Hm k p Hk) as [_ Hr]. constructor; cbn; auto. congruence.
    + constructor; auto.
  - split; [|cbn; lia]. apply minv_gentle; [done|done|done|]. intros j. rewrite upd_eq. case_decide; subst; constructor; auto.
  - apply wakeup_run in Hw as ->. split; [|cbn; lia]. apply minv_gentle; [done|done|done|]. intros j. cbn [procs].
    rewrite wakeup1_loop_spec. case_decide; [|constructor; auto].
    destruct (soft_wake ch (procs (mp m) j)) as [[S1 S2 S3] S4]. constructor; auto.
  - apply kill_run in Hkl. destruct (find_proc _ NPROC 0 _) as [i|]; destruct Hkl as [_ ->];
      [|split; [by destruct m|cbn; lia]].
    destruct (bool_decide_reflect (state (procs (mp m) i) = SLEEPING)) as [E|E]; (split; [|cbn; lia]);
      (apply minv_gentle; [done|done|done|]; intros j).
    + rewrite upd_upd, upd_eq. case_decide; subst; constructor; auto.
    + rewrite upd_eq. case_decide; subst; constructor; auto.
  - apply alloc_run in Ha as (A1 & A2 & ->). split; [by eapply minv_alloc|]. cbn. rewrite i32_small by wrap_lia. lia.
  - split; [by eapply minv_parent|cbn; lia].
  - split; [eapply minv_forked; eauto|cbn; lia].
  - split; [eapply minv_forked; eauto|cbn; lia].
  - apply (exit_run p i0) in Hx; [|done|done]. split; [|cbn [mp]; rewrite (ex_next _ _ _ _ Hx); lia].
    eapply minv_exit; eauto. congruence.
  - split; [by eapply minv_reap|cbn; lia].
  - apply sleep_run in Hs as ->. split; [|cbn; lia]. apply minv_sleep; try done. intros q [= <-]. split; [done|].
    intros z Hz Hpz Hzz. unfold wait_scan in Hw. injection Hw as Hw _.
    pose proof (find_proc_spec (zombie_child p) NPROC 0 (procs (mp m))) as Hf. rewrite Hw in Hf.
    specialize (Hf z). unfold zombie_child, is_child, is_state in Hf. rewrite !bool_decide_true in Hf by done.
    assert (true = false) by (apply Hf; lia). done.
Qed.

(** After [userinit]: the first process is runnable, nothing runs yet. *)
Definition boot_procs (i : nat) : proc :=
  if decide (i = 0%nat) then set_state RUNNABLE (set_pid 1 proc0) else proc0.
Definition boot_machine : machine := Machine (Ptab boot_procs 2 (Some 0%nat)) (fun _ => None) (fun _ => None).

Lemma boot_inv : minv boot_machine.
Proof.
  constructor; cbn [mp mcpu mnew boot_machine procs nextpid initproc]; unfold boot_procs; try done;
    try (intros p; case_decide; cbn; naive_solver lia).
  - intros p q _ _. do 2 case_decide; subst; cbn; try done.
  - exists 0%nat. split; [done|]. split; [by vm_compute; lia|by left].
Qed.

Lemma machine_inv n m : nsteps mstep n boot_machine m -> Z.of_nat n < 2147483640 ->
  minv m /\ nextpid (mp m) <= 2 + Z.of_nat n.
Proof.
  intros H. revert n m H. induction n as [|n IH]; intros m Hs Hn.
  - inversion Hs; subst. split; [apply boot_inv|cbn; lia].
  - apply nsteps_inv_r in Hs as (m1 & H1 & H2). destruct (IH m1 H1) as [I1 I2]; [lia|].
    destruct (mstep_inv m1 m) as [J1 J2]; [done|lia|done|]. split; [done|lia].
Qed.

(** C28: whatever the CPUs do, in any interleaving of the critical sections of
    proc.c, a process is RUNNING exactly when it is the current process of a
    CPU, and of one CPU only. *)
Theorem running_on_one_cpu n m p : nsteps mstep n boot_machine m -> Z.of_nat n < 2147483640 ->
  (p < NPROC)%nat ->
  state (procs (mp m) p) = RUNNING <-> exists k, mcpu m k = Some p /\ forall k', mcpu m k' = Some p -> k' = k.
Proof.
  intros Hn Hb Hp. destruct (machine_inv n m Hn Hb) as [Hm _]. split.
  - intros Hs. destruct (mi_run _ Hm p Hp Hs) as [k Hk]. exists k. split; [done|]. intros k' Hk'.
    by apply (mi_inj _ Hm k' k p).
  - intros (k & Hk & _). by apply (mi_cpu _ Hm k p).
Qed.

(** C8: a zombie is never lost: in every reachable state it has a parent that
    is scheduled or can be, and that does not sleep in [wait]; so the parent's
    scan in [wait] will find it.  The same holds for orphans, which exit has
    handed to init. *)
Theorem zombie_never_lost n m z : nsteps mstep n boot_machine m -> Z.of_nat n < 2147483640 ->
  (z < NPROC)%nat -> state (procs (mp m) z) = ZOMBIE ->
  exists q, parent (procs (mp m) z) = Some q /\ (q < NPROC)%nat /\ live (procs (mp m) q) /\
    ~ (state (procs (mp m) q) = SLEEPING /\ exists r, pchan (procs (mp m) q) = Some (ChProc r)) /\
    zombie_child q (procs (mp m) z) = true.
Proof.
  intros Hn Hb Hz Hs. destruct (machine_inv n m Hn Hb) as [Hm _].
  destruct (mi_parent _ Hm z Hz) as (q & Q1 & Q2 & Q3); [congruence|congruence| |].
  { intros Hi. destruct (mi_init _ Hm) as (i & E1 & E2 & E3). assert (i = z) as -> by congruence.
    unfold live in E3. rewrite Hs in E3. naive_solver. }
  exists q. split; [done|]. split; [done|]. split; [done|]. split.
  - intros [W1 [r W2]]. destruct (mi_wait _ Hm q r Q2 W1 W2) as [_ W3]. by apply (W3 z).
  - unfold zombie_child, is_child, is_state. by rewrite !bool_decide_true.
Qed.

(** Process ids identify processes: no two slots in use have the same pid,
    and every pid is positive and was handed out by [allocproc] (as long as
    [nextpid] has not run through all 31 bits). *)
Theorem pids_unique n m p q : nsteps mstep n boot_machine m -> Z.of_nat n < 2147483640 ->
  (p < NPROC)%nat -> (q < NPROC)%nat ->
  state (procs (mp m) p) <> UNUSED -> state (procs (mp m) q) <> UNUSED ->
  0 < pid (procs (mp m) p) < nextpid (mp m) /\ (pid (procs (mp m) p) = pid (procs (mp m) q) -> p = q).
Proof.
  intros Hn Hb Hp Hq Sp Sq. destruct (machine_inv n m Hn Hb) as [Hm _]. split.
  - by apply (mi_pid _ Hm).
  - by apply (mi_uniq _ Hm).
Qed.

(** A run in which init forks a child and the child exits on a second CPU. *)
Definition ex_m1 : machine :=
  Machine (upd_proc 0 (set_state RUNNING) (mp boot_machine)) (<[0%nat := Some 0%nat]> (fun _ => None)) (fun _ => None).
Definition ex_m2 : machine :=
  Machine (Ptab (<[1%nat := set_pid 2 (set_state EMBRYO (procs (mp ex_m1) 1%nat))]> (procs (mp ex_m1))) 3 (Some 0%nat))
    (mcpu ex_m1) (<[0%nat := Some 1%nat]> (mnew ex_m1)).
Definition ex_m3 : machine := set_proc ex_m2 1 (set_parent (Some 0%nat)).
Definition ex_m4 : machine :=
  Machine (upd_proc 1 (set_state RUNNABLE) (mp ex_m3)) (mcpu ex_m3) (<[0%nat := None]> (mnew ex_m3)).
Definition ex_m5 : machine :=
  Machine (upd_proc 1 (set_state RUNNING) (mp ex_m4)) (<[1%nat := Some 1%nat]> (mcpu ex_m4)) (mnew ex_m4).

Lemma ex_run5 : nsteps mstep 5 boot_machine ex_m5.
Proof.
  apply (nsteps_l _ _ _ ex_m1); [by apply (step_pick boot_machine 0 0 0)|].
  apply (nsteps_l _ _ _ ex_m2); [by apply (step_alloc ex_m1 0 0 1 cpu_ctx (mp ex_m2))|].
  apply (nsteps_l _ _ _ ex_m3); [by apply (step_parent ex_m2 0 0 1)|].
  apply (nsteps_l _ _ _ ex_m4); [by apply (step_forkdone ex_m3 0 0 1)|].
  apply (nsteps_l _ _ _ ex_m5); [by apply (step_pick ex_m4 1 1 1)|].
  apply nsteps_O.
Qed.

Lemma ex_exit : exists m, nsteps mstep 6 boot_machine m /\ state (procs (mp m) 1%nat) = ZOMBIE.
Proof.
  destruct (wp_ok (exit_section 1) cpu_ctx (mp ex_m5) (fun _ _ s' => exited 1 0 (mp ex_m5) s'))
    as ([] & c' & s' & Hrun & Hex).
  { apply (exit_section_wp 1 0); [done|by vm_compute; lia|done]. }
  exists (Machine s' (<[1%nat := None]> (mcpu ex_m5)) (mnew ex_m5)). split; [|apply (ex_cur _ _ _ _ Hex)].
  eapply nsteps_r; [apply ex_run5|]. by apply (step_exit ex_m5 1 1 c').
Qed.

Lemma running_on_one_cpu_witness :
  state (procs (mp ex_m5) 1%nat) = RUNNING <->
  exists k, mcpu ex_m5 k = Some 1%nat /\ forall k', mcpu ex_m5 k' = Some 1%nat -> k' = k.
Proof. apply (running_on_one_cpu 5 ex_m5 1 ex_run5); [lia|by vm_compute; lia]. Defined.

Lemma zombie_never_lost_witness : exists m q, state (procs (mp m) 1%nat) = ZOMBIE /\
  parent (procs (mp m) 1%nat) = Some q /\ live (procs (mp m) q).
Proof.
  destruct ex_exit as (m & Hm & Hz).
  destruct (zombie_never_lost 6 m 1 Hm) as (q & Q1 & Q2 & Q3 & _); [lia|by vm_compute; lia|done|].
  exists m, q. auto.
Defined.

Lemma pids_unique_witness :
  0 < pid (procs (mp ex_m5) 1%nat) < nextpid (mp ex_m5) /\
  (pid (procs (mp ex_m5) 1%nat) = pid (procs (mp ex_m5) 0%nat) -> 1%nat = 0%nat).
Proof. apply (pids_unique 5 ex_m5 1 0 ex_run5); [lia|by vm_compute; lia|by vm_compute; lia|done|done]. Defined.

(** ** kill *)

Lemma kill_wp n s c (Q : Z -> ctx -> ptab -> Prop) : Lptable ∉ held c ->
  match find_proc (fun x => pid x =? n) NPROC 0 (procs s) with
  | None => Q (-1) c s
  | Some i => Q 0 c (let s1 := upd_proc i (set_killed true) s in
      if bool_decide (state (procs s i) = SLEEPING) then upd_proc i (set_state RUNNABLE) s1 else s1)
  end -> wp (kill n) c s Q.
Proof.
  intros Hc HQ. unfold kill. wp_step. apply wp_acquire; [done|]. do 2 wp_step.
  destruct (find_proc _ NPROC 0 (procs s)) as [i|].
  - do 4 wp_step. rewrite upd_same. cbn [state set_killed]. wp_step.
    destruct (bool_decide (state (procs s i) = SLEEPING)); repeat wp_step; by destruct c.
  - repeat wp_step. by destruct c.
Qed.

(** [kill] finds the process with the pid: it marks it killed, makes it
    runnable if it sleeps, and returns 0, leaving every other slot alone; with
    no such slot it returns -1 and changes nothing. *)
Theorem kill_correct n s c : Lptable ∉ held c ->
  wp (kill n) c s (fun r c' s' => c' = c /\
    match find_proc (fun x => pid x =? n) NPROC 0 (procs s) with
    | None => r = -1 /\ s' = s /\ forall i, (i < NPROC)%nat -> pid (procs s i) <> n
    | Some i => r = 0 /\ (i < NPROC)%nat /\ pid (procs s i) = n /\
        killed (procs s' i) = true /\ pid (procs s' i) = n /\
        state (procs s' i) = (if decide (state (procs s i) = SLEEPING) then RUNNABLE else state (procs s i)) /\
        forall j, j <> i -> procs s' j = procs s j
    end).
Proof.
  intros Hc. apply kill_wp; [done|]. pose proof (find_proc_spec (fun x => pid x =? n) NPROC 0 (procs s)) as Hf.
  destruct (find_proc _ NPROC 0 (procs s)) as [i|].
  - destruct Hf as (H1 & H2%Z.eqb_eq & _). split; [done|]. split; [done|]. split; [lia|]. split; [done|].
    destruct (bool_decide_reflect (state (procs s i) = SLEEPING)) as [E|E].
    + rewrite !upd_same, decide_True by done. split_and!; try done. intros j Hj. by rewrite !upd_ne.
    + rewrite !upd_same, decide_False by done. split_and!; try done. intros j Hj. by rewrite !upd_ne.
  - split_and!; try done. intros i Hi. apply Z.eqb_neq, Hf. lia.
Qed.

(** C36: a free slot has pid 0, so [kill(0)] succeeds on the first free slot
    although there is no such process; [allocproc] does not clear the flag,
    and the next process that gets the slot starts out killed. *)
Theorem kill_zero_poisons s i c : Lptable ∉ held c -> (i < NPROC)%nat ->
  state (procs s i) = UNUSED -> pid (procs s i) = 0 ->
  (forall j, (j < i)%nat -> state (procs s j) <> UNUSED /\ pid (procs s j) <> 0) ->
  wp (kill 0) c s (fun r c1 s1 => r = 0 /\ c1 = c /\
    wp alloc_slot c1 s1 (fun p _ s2 => p = Some i /\ state (procs s2 i) = EMBRYO /\ killed (procs s2 i) = true)).
Proof.
  intros Hc Hi Hu Hp Hlow. apply kill_wp; [done|].
  pose proof (find_proc_spec (fun x => pid x =? 0) NPROC 0 (procs s)) as Hf.
  destruct (find_proc _ NPROC 0 (procs s)) as [k|]; [|specialize (Hf i); rewrite Hp in Hf; cbn in Hf;
    by assert (true = false) by (apply Hf; lia)].
  destruct Hf as (K1 & K2%Z.eqb_eq & K3). assert (k = i) as ->.
  { destruct (decide (k < i)%nat) as [Hlt|]; [by destruct (Hlow k Hlt)|].
    destruct (decide (i < k)%nat) as [Hlt|]; [|lia]. specialize (K3 i ltac:(lia)). by rewrite Hp in K3. }
  split; [done|]. split; [done|]. rewrite bool_decide_false by congruence.
  unfold alloc_slot. wp_step. apply wp_acquire; [done|]. do 2 wp_step. set (s1 := upd_proc i (set_killed true) s).
  pose proof (find_proc_spec (is_state UNUSED) NPROC 0 (procs s1)) as Hf.
  assert (Hs1 : forall j, state (procs s1 j) = state (procs s j)).
  { intros j. unfold s1. rewrite upd_eq. by case_decide; subst. }
  unfold is_state in Hf. destruct (find_proc _ NPROC 0 (procs s1)) as [k|].
  - destruct Hf as (H1 & H2%bool_decide_eq_true & H3). rewrite Hs1 in H2. assert (k = i) as ->.
    { destruct (decide (k < i)%nat) as [Hlt|]; [by destruct (Hlow k Hlt)|].
      destruct (decide (i < k)%nat) as [Hlt|]; [|lia]. specialize (H3 i ltac:(lia)).
      rewrite Hs1, Hu in H3. by rewrite bool_decide_true in H3. }
    repeat wp_step. cbn [procs]. rewrite upd_same. unfold s1. by rewrite upd_same.
  - specialize (Hf i ltac:(lia)). rewrite Hs1, Hu in Hf. by rewrite bool_decide_true in Hf.
Qed.

Lemma kill_correct_witness : wp (kill 2) cpu_ctx (mp ex_m5) (fun r c' s' => c' = cpu_ctx /\
    match find_proc (fun x => pid x =? 2) NPROC 0 (procs (mp ex_m5)) with
    | None => r = -1 /\ s' = mp ex_m5 /\ forall i, (i < NPROC)%nat -> pid (procs (mp ex_m5) i) <> 2
    | Some i => r = 0 /\ (i < NPROC)%nat /\ pid (procs (mp ex_m5) i) = 2 /\
        killed (procs s' i) = true /\ pid (procs s' i) = 2 /\
        state (procs s' i) = (if decide (state (procs (mp ex_m5) i) = SLEEPING) then RUNNABLE
                              else state (procs (mp ex_m5) i)) /\
        forall j, j <> i -> procs s' j = procs (mp ex_m5) j
    end).
Proof. apply (kill_correct 2 (mp ex_m5) cpu_ctx). apply not_elem_of_nil. Defined.

Lemma kill_zero_poisons_witness :
  wp (kill 0) cpu_ctx (mp boot_machine) (fun r c1 s1 => r = 0 /\ c1 = cpu_ctx /\
    wp alloc_slot c1 s1 (fun p _ s2 => p = Some 1%nat /\ state (procs s2 1%nat) = EMBRYO /\
      killed (procs s2 1%nat) = true)).
Proof.
  apply (kill_zero_poisons (mp boot_machine) 1 cpu_ctx); [apply not_elem_of_nil|by vm_compute; lia|done|done|].
  intros [|j] Hj; [done|lia].
Defined.
