(* ===== verification/Kernel.v ===== *)
(** * Processes as a whole (proc.c, sysproc.c)
    The kernel's state: memory and files (File.v), the process table (Proc.v)
    and the clock.  [cur] is [myproc()].  fork, exit and wait are the
    compositions of the critical sections of Proc.v with the memory and file
    operations around them. *)
From stdpp Require Import functions.
From S2P Require Import Prelude CString Mmu Kalloc Vm Pipe Block Sleeplock Log Buffers Fs File Proc.

Record kernel (T : Type) := Kernel { kfile : fst_ T; kpt : ptab; ticks : Z }.
Arguments Kernel {T} _ _ _.
Arguments kfile {T} _.
Arguments kpt {T} _.
Arguments ticks {T} _.

Section kernel.
Context {T : Type} {BC : BufferCache T}.
#[local] Notation K := (kernel T).

Definition set_kfile (x : fst_ T) (s : K) : K := Kernel x (kpt s) (ticks s).
Definition set_kpt (x : ptab) (s : K) : K := Kernel (kfile s) x (ticks s).
Definition kmem (s : K) : kst := pk (fpst (kfile s)).
Definition set_kmem (x : kst) (s : K) : K :=
  set_kfile (set_fpst (Pst x (pipes (fpst (kfile s)))) (kfile s)) s.
Definition onfile {A} (m : M (fst_ T) A) : M K A := zoom kfile set_kfile m.
Definition onpt {A} (m : M ptab A) : M K A := zoom kpt set_kpt m.
Definition onvm {A} (m : M kst A) : M K A := zoom kmem set_kmem m.

(** What the kernel is linked with: the end of the kernel, the addresses of
    [trapret] and [forkret], the device switch, and the first program. *)
Variables (kend kdata trapret forkret : Z).
Variable devread : Z -> option (nat -> Z -> M (fsst T) (Z * list Z)).
Variable devwrite : Z -> option (nat -> list Z -> M (fsst T) Z).
Variable initcode : list Z.

Definition TFSIZE : Z := 76.
Definition CTXSIZE : Z := 20.

(** The kernel stack of a new process: it starts at [forkret], which returns
    to [trapret]. *)
Definition init_kstack (k : Z) : M kst unit :=
  let sp := k + KSTACKSIZE - TFSIZE in
  Vm.put32 (sp - 4) trapret;;
  kmemset (sp - 4 - CTXSIZE) 0 CTXSIZE;;
  Vm.put32 (sp - 4 - CTXSIZE + 16) forkret.

Definition allocproc : M K (option nat) :=
  r ← onpt alloc_slot;
  match r with
  | None => mret None
  | Some p =>
      k ← onvm kalloc;
      onpt (setp p (set_kstack k));;
      if k =? 0 then onpt (setp p (set_state UNUSED));; mret None
      else onvm (init_kstack k);; mret (Some p)
  end.

(** [(SEG_UCODE << 3) | DPL_USER], [(SEG_UDATA << 3) | DPL_USER], [FL_IF]. *)
Definition USER_CS : Z := Z.lor (Z.shiftl 3 3) 3.
Definition USER_DS : Z := Z.lor (Z.shiftl 4 3) 3.
Definition FL_IF : Z := 512.

(** [safestrcpy(p->name, src, sizeof(p->name))] on the bytes of the array. *)
Fixpoint safestrcpy_l (n : nat) (src old : list Z) : list Z :=
  match n with
  | O => old
  | S n' =>
      if (n' =? 0)%nat then 0 :: tl old
      else if hd 0 src =? 0 then 0 :: 0 :: tl (tl old)
      else hd 0 src :: safestrcpy_l n' (tl src) (tl old)
  end.
Definition set_name (src : list Z) (p : proc) : proc := set_pname (safestrcpy_l 16 src (pname p)) p.

Definition userinit : M K unit :=
  r ← allocproc;
  match r with
  | None => panic "trap"
  | Some p =>
      onpt (modify (fun s => Ptab (procs s) (nextpid s) (Some p)));;
      pg ← onvm (setupkvm kend kdata);
      if pg =? 0 then panic "userinit: out of memory?" else
      onvm (inituvm pg initcode (Z.of_nat (length initcode)));;
      onpt (setp p (set_vm PGSIZE pg));;
      onpt (setp p (set_tf (Trapframe (replicate 7 0) 0 USER_DS USER_DS 0 0 0 USER_CS FL_IF PGSIZE USER_DS)));;
      onpt (setp p (set_name [105; 110; 105; 116; 99; 111; 100; 101]));;
      d ← onfile (onfs (namei devread 0 [ch_slash]));
      onpt (setp p (set_cwd d));;
      acquire Lptable;;
      onpt (setp p (set_state RUNNABLE));;
      release Lptable
  end.

(** The loops over descriptors. *)
Fixpoint dup_files (n fd : nat) (cur np : nat) : M K unit :=
  match n with
  | O => mret tt
  | S n' =>
      f ← onpt (getp cur (fun p => ofile p fd));
      match f with
      | Some f => g ← onfile (filedup f); onpt (setp np (set_ofile fd (Some g)))
      | None => mret tt
      end;;
      dup_files n' (S fd) cur np
  end.
Fixpoint close_files (n fd : nat) (cur : nat) : M K unit :=
  match n with
  | O => mret tt
  | S n' =>
      f ← onpt (getp cur (fun p => ofile p fd));
      match f with
      | Some f => onfile (fileclose kend f);; onpt (setp cur (set_ofile fd None))
      | None => mret tt
      end;;
      close_files n' (S fd) cur
  end.

(** A process without a directory cannot be resumed; the kernel would fault. *)
Definition the_cwd (p : proc) : nat := match cwd p with Some d => d | None => 0 end.

Definition fork (cur : nat) : M K Z :=
  r ← allocproc;
  match r with
  | None => mret (-1)
  | Some np =>
      c ← onpt (getp cur id);
      pg ← onvm (copyuvm kend kdata (pgdir c) (psz c));
      onpt (setp np (fun q => set_vm (psz q) pg q));;
      if pg =? 0 then
        ks ← onpt (getp np kstack);
        onvm (kfree kend ks);;
        onpt (setp np (set_kstack 0));;
        onpt (setp np (set_state UNUSED));;
        mret (-1)
      else
        onpt (setp np (fun q => set_vm (psz c) (pgdir q) q));;
        onpt (setp np (set_parent (Some cur)));;
        onpt (setp np (set_tf (set_eax 0 (tf c))));;
        dup_files NOFILE 0 cur np;;
        d ← onfile (onfs (idup (the_cwd c)));
        onpt (setp np (set_cwd (Some d)));;
        onpt (setp np (set_name (pname c)));;
        p ← onpt (getp np pid);
        acquire Lptable;;
        onpt (setp np (set_state RUNNABLE));;
        release Lptable;;
        mret p
  end.

Definition exit {A} (cur : nat) : M K A :=
  ini ← onpt (gets initproc);
  if bool_decide (ini = Some cur) then panic "init exiting" else
  close_files NOFILE 0 cur;;
  onfile (onfs begin_op);;
  c ← onpt (getp cur id);
  onfile (onfs (iput (the_cwd c)));;
  onfile (onfs end_op);;
  onpt (setp cur (set_cwd None));;
  acquire Lptable;;
  onpt (exit_section cur);;
  onpt (sched cur (ChProc cur)).

(** One round of the loop of [wait]; a caller that sleeps scans again. *)
Definition wait (cur : nat) : M K Z :=
  acquire Lptable;;
  t ← onpt (gets procs);
  match wait_scan cur t with
  | (Some z, _) =>
      let p := t z in
      onvm (kfree kend (kstack p));;
      onpt (setp z (set_kstack 0));;
      onvm (freevm kend (pgdir p));;
      onpt (setp z reaped);;
      release Lptable;;
      mret (pid p)
  | (None, kids) =>
      if negb kids || killed (t cur) then release Lptable;; mret (-1)
      else onpt (sleep cur (ChProc cur) Lptable)
  end.

(** [switchuvm]: its checks; what it loads into the CPU is not state here. *)
Definition switchuvm (p : nat) : M ptab unit :=
  x ← getp p id;
  if kstack x =? 0 then panic "switchuvm: no kstack"
  else if pgdir x =? 0 then panic "switchuvm: no pgdir"
  else mret tt.

Definition growproc (cur : nat) (n : Z) : M K Z :=
  c ← onpt (getp cur id);
  let sz := psz c in
  r ← (if n >? 0 then onvm (allocuvm kend (pgdir c) sz (u32 (sz + n)))
       else if n <? 0 then onvm (deallocuvm kend (pgdir c) sz (u32 (sz + n)))
       else mret sz);
  if negb (n =? 0) && (r =? 0) then mret (-1)
  else
    onpt (setp cur (set_vm r (pgdir c)));;
    onpt (switchuvm cur);;
    mret 0.

(** ** sysproc.c *)
Definition sys_getpid (cur : nat) : M K Z := onpt (getp cur pid).
Definition sys_kill (arg : option Z) : M K Z :=
  match arg with None => mret (-1) | Some p => onpt (kill p) end.
Definition sys_sbrk (cur : nat) (arg : option Z) : M K Z :=
  match arg with
  | None => mret (-1)
  | Some n =>
      addr ← onpt (getp cur psz);
      r ← growproc cur n;
      if r <? 0 then mret (-1) else mret (i32 addr)
  end.

(** One round of the loop of [sys_sleep], started at [ticks0]. *)
Definition sleep_round (cur : nat) (ticks0 n : Z) : M K Z :=
  t ← gets ticks;
  if u32 (t - ticks0) <? u32 n then
    k ← onpt (getp cur killed);
    if (k : bool) then release Lticks;; mret (-1)
    else onpt (sleep cur ChTicks Lticks)
  else release Lticks;; mret 0.
Definition sys_sleep (cur : nat) (arg : option Z) : M K Z :=
  match arg with
  | None => mret (-1)
  | Some n =>
      acquire Lticks;;
      ticks0 ← gets ticks;
      sleep_round cur ticks0 n
  end.
Definition sys_uptime : M K Z :=
  acquire Lticks;;
  x ← gets ticks;
  release Lticks;;
  mret (i32 x).
End kernel.
