(* ===== verification/KernelSpec.v ===== *)
(** * Creating a process: fork and growproc as a whole (proc.c)

    [fork] over the whole kernel: the slot, the kernel stack, the copied
    memory, the shared open files and the directory, on success and when
    memory runs out. *)
From stdpp Require Import functions.
From S2P Require Import Prelude CString Mmu Kalloc Vm PageTable UserVm CopyVm VmSpec ForkVm Pipe.
From S2P Require Import Block Sleeplock Log Buffers LogBuf Fs FsBlocks FsInode FsSpec File FileSpec Proc Kernel.
#[local] Set Default Proof Using "Type".
#[local] Hint Unfold onfile onpt onvm : wp_unfold.

(** * The pieces *)

Lemma alloc_slot_wp s c (Q : option nat -> ctx -> ptab -> Prop) : Lptable ∉ held c ->
  ((forall i, (i < NPROC)%nat -> state (procs s i) <> UNUSED) -> Q None c s) ->
  (forall i, (i < NPROC)%nat -> state (procs s i) = UNUSED ->
     Q (Some i) c (Ptab (<[i := set_pid (nextpid s) (set_state EMBRYO (procs s i))]> (procs s))
       (i32 (nextpid s + 1)) (initproc s))) ->
  wp alloc_slot c s Q.
Proof.
  intros Hc HN HS. unfold alloc_slot. wp_step. apply wp_acquire; [done|]. do 2 wp_step.
  pose proof (find_proc_spec (is_state UNUSED) NPROC 0 (procs s)) as Hf.
  destruct (find_proc _ NPROC 0 (procs s)) as [i|].
  - destruct Hf as (H1 & H2%bool_decide_eq_true & _). do 2 wp_step. do 2 wp_step. do 2 wp_step. do 2 wp_step. wp_step.
    specialize (HS i ltac:(lia) H2). by destruct c.
  - repeat wp_step. assert (HN' : Q None c s).
    { apply HN. intros i Hi. specialize (Hf i ltac:(lia)). by apply bool_decide_eq_false in Hf. }
    by destruct c.
Qed.

(** The new kernel stack is written inside its page only. *)
Lemma init_kstack_wp trapret forkret k s c (Q : unit -> ctx -> kst -> Prop) : mem_wf (kmemory s) ->
  KERNBASE <= k < KERNBASE + PHYSTOP ->
  (forall m', mem_wf m' -> (forall x, ~ in_page k x -> m' x = kmemory s x) -> Q tt c (set_memory m' s)) ->
  wp (init_kstack trapret forkret k) c s Q.
Proof.
  intros Hw Hk HQ. unfold init_kstack. repeat wp_step.
  apply (HQ (store32 (memset (store32 (kmemory s) _ trapret) _ 0 CTXSIZE) _ forkret)).
  - apply store32_wf, memset_wf. by apply store32_wf.
  - intros x Hx. unfold in_page, PGSIZE, KSTACKSIZE, TFSIZE, CTXSIZE, KERNBASE, PHYSTOP in *. unfold store32 at 1.
    rewrite memset_at by lia. unfold in_range, store32. zcases; done.
Qed.

Lemma filedup_wp {T} f (s : fst_ T) c (Q : nat -> ctx -> fst_ T -> Prop) : Lftable ∉ held c -> 1 <= ref (ftab s f) ->
  Q f c (upd_file f (fun x => set_ref (ref x + 1) x) s) -> wp (filedup f) c s Q.
Proof.
  intros Hc Hr HQ. unfold filedup. wp_step. apply wp_acquire; [done|]. do 2 wp_step.
  rewrite (proj2 (Z.ltb_ge _ _)) by lia. repeat wp_step. by destruct c.
Qed.

(** ** The descriptors *)
Section files.
Context {T : Type}.
#[local] Notation K := (kernel T).

(** How many of the descriptors [fd .. fd + n) are open on [f]. *)
Definition fd_count (ofs : nat -> option nat) (n fd f : nat) : Z :=
  Z.of_nat (length (filter (fun d => ofs d = Some f) (seq fd n))).
(** The table of files with the references of these descriptors added. *)
Definition with_refs (ofs : nat -> option nat) (n fd : nat) (s : fst_ T) (f : nat) : file :=
  set_ref (ref (ftab s f) + fd_count ofs n fd f) (ftab s f).

Lemma fd_count_S ofs n fd f : fd_count ofs (S n) fd f =
  (if decide (ofs fd = Some f) then 1 else 0) + fd_count ofs n (S fd) f.
Proof. unfold fd_count. cbn [seq]. rewrite filter_cons. destruct (decide _); rewrite ?length_cons; lia. Qed.

(** What [dup_files] leaves: the child has the parent's open files. *)
Record duped (cur np n fd : nat) (s s' : K) : Prop := {
  du_fs : ffs (kfile s') = ffs (kfile s) /\ fpst (kfile s') = fpst (kfile s) /\ ticks s' = ticks s;
  du_tab : forall f, ftab (kfile s') f = with_refs (ofile (procs (kpt s) cur)) n fd (kfile s) f;
  du_pt : nextpid (kpt s') = nextpid (kpt s) /\ initproc (kpt s') = initproc (kpt s);
  du_others : forall j, j <> np -> procs (kpt s') j = procs (kpt s) j;
  du_child : exists ofs, procs (kpt s') np = Proc (psz (procs (kpt s) np)) (pgdir (procs (kpt s) np))
      (kstack (procs (kpt s) np)) (state (procs (kpt s) np)) (pid (procs (kpt s) np)) (parent (procs (kpt s) np))
      (tf (procs (kpt s) np)) (pchan (procs (kpt s) np)) (killed (procs (kpt s) np)) ofs (cwd (procs (kpt s) np))
      (pname (procs (kpt s) np)) /\
    forall d, ofs d = if decide (fd <= d < fd + n)%nat
                     then match ofile (procs (kpt s) cur) d with Some f => Some f | None => ofile (procs (kpt s) np) d end
                     else ofile (procs (kpt s) np) d
}.

Lemma set_kpt_id (s : K) : set_kpt (kpt s) s = s.
Proof. by destruct s. Qed.

Lemma duped_none cur np n fd (s s' : K) : ofile (procs (kpt s) cur) fd = None ->
  duped cur np n (S fd) s s' -> duped cur np (S n) fd s s'.
Proof.
  intros Hn [H1 H2 H3 H4 (ofs & H5 & H6)]. constructor; try done.
  - intros f. rewrite H2. unfold with_refs. rewrite fd_count_S, decide_False by (by rewrite Hn). done.
  - exists ofs. split; [done|]. intros d. rewrite H6. destruct (decide (d = fd)) as [->|Hd].
    + rewrite decide_False, decide_True by lia. by rewrite Hn.
    + by rewrite (decide_ext (S fd <= d < S fd + n)%nat (fd <= d < fd + S n)%nat) by lia.
Qed.

Lemma duped_some cur np n fd f (s s' : K) : cur <> np -> ofile (procs (kpt s) cur) fd = Some f ->
  duped cur np n (S fd)
    (set_kpt (upd_proc np (set_ofile fd (Some f)) (kpt s))
      (set_kfile (upd_file f (fun x => set_ref (ref x + 1) x) (kfile s)) s)) s' ->
  duped cur np (S n) fd s s'.
Proof.
  intros Hne Hf [H1 H2 H3 H4 (ofs & H5 & H6)].
  cbn [kfile kpt ticks set_kpt set_kfile ffs fpst ftab upd_file nextpid initproc upd_proc procs] in *.
  rewrite !fn_lookup_insert in H5, H6. rewrite fn_lookup_insert_ne in H2, H6 by done. constructor; try done.
  - intros g. rewrite H2. unfold with_refs. rewrite fd_count_S, Hf. cbn [ftab upd_file].
    destruct (decide (f = g)) as [->|Hg].
    + rewrite fn_lookup_insert, decide_True by done. unfold set_ref. cbn. f_equal. lia.
    + rewrite fn_lookup_insert_ne, decide_False by congruence. done.
  - intros j Hj. rewrite H4 by done. by apply fn_lookup_insert_ne.
  - exists ofs. split; [exact H5|]. intros d. rewrite H6. cbn [ofile set_ofile].
    destruct (decide (d = fd)) as [->|Hd].
    + rewrite decide_False, decide_True by lia. by rewrite Hf, fn_lookup_insert.
    + rewrite fn_lookup_insert_ne by done.
      by rewrite (decide_ext (S fd <= d < S fd + n)%nat (fd <= d < fd + S n)%nat) by lia.
Qed.

Lemma dup_files_wp n : forall fd cur np (s : K) c (Q : unit -> ctx -> K -> Prop), cur <> np -> Lftable ∉ held c ->
  (forall d f, (fd <= d < fd + n)%nat -> ofile (procs (kpt s) cur) d = Some f -> 1 <= ref (ftab (kfile s) f)) ->
  (forall s', duped cur np n fd s s' -> Q tt c s') ->
  wp (dup_files n fd cur np) c s Q.
Proof.
  induction n as [|n IH]; intros fd cur np s c Q Hne Hc Hrf HQ; cbn [dup_files].
  { wp_step. apply HQ. constructor; try done.
    - intros f. unfold with_refs, fd_count. cbn. rewrite Z.add_0_r. by destruct (ftab (kfile s) f).
    - exists (ofile (procs (kpt s) np)). split; [by destruct (procs (kpt s) np)|].
      intros d. rewrite decide_False by lia. done. }
  do 3 wp_step. rewrite set_kpt_id. destruct (ofile (procs (kpt s) cur) fd) as [f|] eqn:Ef.
  - do 3 wp_step. apply filedup_wp; [done|by apply (Hrf fd); [lia|]|]. do 2 wp_step.
    apply IH; [done|done| |].
    + cbn [kpt set_kpt kfile set_kfile procs upd_proc ftab upd_file]. intros d g Hd. rewrite fn_lookup_insert_ne by done.
      intros Hg. specialize (Hrf d g ltac:(lia) Hg). destruct (decide (f = g)) as [->|].
      * rewrite fn_lookup_insert. cbn. lia.
      * by rewrite fn_lookup_insert_ne.
    + intros s' Hd. by apply HQ, (duped_some _ _ _ _ f).
  - do 2 wp_step. apply IH; [done|done| |].
    + intros d g Hd. apply Hrf. lia.
    + intros s' Hd. by apply HQ, duped_none.
Qed.
End files.

(** * allocproc and fork *)
Section fork.
Context {T : Type} {BC : BufferCache T}.
#[local] Notation K := (kernel T).
Variables kend kdata trapret forkret : Z.

(** Everything but memory and processes. *)
Record files_same (s s' : K) : Prop := {
  sm_fs : ffs (kfile s') = ffs (kfile s);
  sm_tab : ftab (kfile s') = ftab (kfile s);
  sm_pipes : pipes (fpst (kfile s')) = pipes (fpst (kfile s));
  sm_ticks : ticks s' = ticks s
}.
(** A free slot holds no open file: [exit] has closed them. *)
Definition slots_clean (s : K) : Prop := forall i d, (i < NPROC)%nat -> (d < NOFILE)%nat ->
  state (procs (kpt s) i) = UNUSED -> ofile (procs (kpt s) i) d = None.

(** Slot [i], free before, is free again; it has used up a pid. *)
Record slot_back (i : nat) (s s' : K) : Prop := {
  sb_slot : (i < NPROC)%nat /\ state (procs (kpt s) i) = UNUSED;
  sb_files : files_same s s';
  sb_others : forall j, j <> i -> procs (kpt s') j = procs (kpt s) j;
  sb_same : exists pg, (pg = 0 \/ pg = pgdir (procs (kpt s) i)) /\
    procs (kpt s') i = set_kstack 0 (set_vm (psz (procs (kpt s) i)) pg (set_pid (nextpid (kpt s)) (procs (kpt s) i)));
  sb_next : nextpid (kpt s') = i32 (nextpid (kpt s) + 1) /\ initproc (kpt s') = initproc (kpt s)
}.

(** A failed creation that needed [n] pages: no slot is free and nothing
    happened, or there were not [n] pages and the slot is given back. *)
Definition not_created (n : Z) (l : list Z) (s s' : K) : Prop :=
  ((forall i, (i < NPROC)%nat -> state (procs (kpt s) i) <> UNUSED) /\ s' = s) \/
  (Z.of_nat (length l) < n /\ exists i, slot_back i s s').

(** A new slot with its kernel stack [k], taken from the free list. *)
Record embryo (i : nat) (k : Z) (l : list Z) (s s' : K) : Prop := {
  em_slot : (i < NPROC)%nat /\ state (procs (kpt s) i) = UNUSED;
  em_files : files_same s s';
  em_child : procs (kpt s') i = set_kstack k (set_pid (nextpid (kpt s)) (set_state EMBRYO (procs (kpt s) i)));
  em_others : forall j, j <> i -> procs (kpt s') j = procs (kpt s) j;
  em_next : nextpid (kpt s') = i32 (nextpid (kpt s) + 1) /\ initproc (kpt s') = initproc (kpt s);
  em_lock : use_lock (kmem s') = use_lock (kmem s);
  em_mem : exists s1, kinv kend s1 l /\ kmemory s1 = kmemory (kmem s) /\ kmem s' = set_memory (kmemory (kmem s')) s1 /\
    mem_wf (kmemory (kmem s'));
  em_out : forall x, ~ in_page k x -> kmemory (kmem s') x = kmemory (kmem s) x
}.

Lemma allocproc_wp s c l (Q : option nat -> ctx -> K -> Prop) : kinv kend (kmem s) l -> held c = [] ->
  (forall s', not_created 1 l s s' -> kmem s' = kmem s -> Q None c s') ->
  (forall i k l' s', l = k :: l' -> embryo i k l' s s' -> Q (Some i) c s') ->
  wp (allocproc trapret forkret) c s Q.
Proof.
  intros Hk Hc HN HS. unfold allocproc. do 2 wp_step. apply alloc_slot_wp; [rewrite Hc; set_solver| |].
  { intros Hno. wp_step. rewrite set_kpt_id. apply HN; [by left|done]. }
  intros i Hi Hu. do 2 wp_step. eapply wp_mono; [|apply kalloc_wp with (l := l); [done|right; rewrite Hc; set_solver]].
  intros k ? s1 (-> & Hm1 & Hu1 & Hr). do 3 wp_step. destruct l as [|k' l].
  - destruct Hr as [-> ->]. cbn [Z.eqb]. do 4 wp_step. apply HN; [|done].
    right. split; [done|]. exists i. constructor; cbn; try done.
    + intros j Hj. by rewrite !fn_lookup_insert_ne.
    + exists (pgdir (procs (kpt s) i)). split; [by right|]. rewrite !fn_lookup_insert. unfold set_kstack, set_vm, set_pid.
      cbn. by rewrite Hu.
  - destruct Hr as [-> Hk1].
    assert (Hp : valid_page kend k') by (pose proof (kinv_valid _ _ _ Hk) as HF; by apply Forall_cons in HF as [? _]).
    rewrite (proj2 (Z.eqb_neq k' 0) (valid_page_nonzero _ _ Hp)). do 2 wp_step.
    apply init_kstack_wp; [apply Hk1|apply Hp|]. intros m' Hw' Ho'. wp_step. apply (HS i k' l); [done|].
    constructor; cbn; try done.
    + by rewrite !fn_lookup_insert.
    + intros j Hj. by rewrite !fn_lookup_insert_ne.
    + by exists s1.
    + intros x Hx. rewrite Ho' by done. cbn. by rewrite Hm1.
Qed.

Lemma embryo_parent i k l s s1 pg : uinv kend (kmem s) pg (k :: l) -> embryo i k l s s1 ->
  uinv kend (kmem s1) pg l /\ space_kept (kmemory (kmem s)) (kmemory (kmem s1)) pg /\ valid_page kend k /\ (k ∉ l) /\
  (forall q x, q ∈ own_pages (kmemory (kmem s)) pg -> in_page q x -> ~ in_page k x).
Proof.
  intros Hi [_ _ _ _ _ _ (sA & HkA & HmA & E & Hw) Ho].
  assert (Ht : taken kend pg (kmem s) (kmem s1) k l) by (rewrite E; by apply take_page).
  destruct (taken_uinv kend pg _ _ k l Hi Ht) as (Hi1 & Hpool & Hk).
  assert (Hap : forall q x, q ∈ own_pages (kmemory (kmem s)) pg -> in_page q x -> ~ in_page k x).
  { intros q x Hq Hx. by apply (own_apart kend (kmem s) pg (k :: l) q); [| |left|]. }
  split_and!; try done.
  - intros q x Hq Hx. apply Ho. by apply (Hap q).
  - apply Ht.
  - intros Hin. apply Hk. right. unfold upool. set_solver.
Qed.

(** The state after a successful [fork] of [cur] into slot [np]. *)
Record forked (cur np : nat) (l : list Z) (s s' : K) : Prop := {
  fk_slot : (np < NPROC)%nat /\ np <> cur /\ state (procs (kpt s) np) = UNUSED;
  fk_child : let p := procs (kpt s) cur in let q := procs (kpt s') np in
    state q = RUNNABLE /\ pid q = nextpid (kpt s) /\ parent q = Some cur /\ psz q = psz p /\
    tf q = set_eax 0 (tf p) /\ cwd q = Some (the_cwd p) /\ killed q = killed (procs (kpt s) np) /\
    pname q = safestrcpy_l 16 (pname p) (pname (procs (kpt s) np));
  fk_files : forall d, (d < NOFILE)%nat -> ofile (procs (kpt s') np) d = ofile (procs (kpt s) cur) d;
  fk_refs : forall f, ftab (kfile s') f = with_refs (ofile (procs (kpt s) cur)) NOFILE 0 (kfile s) f;
  fk_cwd : ffs (kfile s') = upd_inode (the_cwd (procs (kpt s) cur)) (fun x => set_iref (iref x + 1) x) (ffs (kfile s));
  fk_rest : pipes (fpst (kfile s')) = pipes (fpst (kfile s)) /\ ticks s' = ticks s /\
    nextpid (kpt s') = i32 (nextpid (kpt s) + 1) /\ initproc (kpt s') = initproc (kpt s);
  fk_others : forall j, j <> np -> procs (kpt s') j = procs (kpt s) j;
  fk_memory : exists l', let p := procs (kpt s) cur in let q := procs (kpt s') np in
    uinv kend (kmem s') (pgdir q) l' /\ uinv kend (kmem s') (pgdir p) l' /\
    kstack q :: pgdir q :: upool (pgdir q) (kmem s') l' ≡ₚ l /\
    (forall a, 0 <= a < 4096 * npages (psz p) ->
      user_ok (kmemory (kmem s')) (pgdir q) a = user_ok (kmemory (kmem s)) (pgdir p) a /\
      ubyte (kmemory (kmem s')) (pgdir q) a = ubyte (kmemory (kmem s)) (pgdir p) a) /\
    (forall a, 4096 * npages (psz p) <= a < KERNBASE -> user_ok (kmemory (kmem s')) (pgdir q) a = false)
}.

Lemma slots_clean_back i (s s' : K) : slots_clean s -> slot_back i s s' -> slots_clean s'.
Proof.
  intros Hcl [[B1 B2] _ B3 (pg & _ & B4) _] j d Hj Hd Hst. destruct (decide (j = i)) as [->|Hne].
  - rewrite B4. cbn. by apply Hcl.
  - rewrite B3 in Hst |- * by done. by apply Hcl.
Qed.

Lemma slots_clean_forked cur np l (s s' : K) : slots_clean s -> forked cur np l s s' -> slots_clean s'.
Proof.
  intros Hcl Hf j d Hj Hd Hst. destruct (decide (j = np)) as [->|Hne].
  - destruct (fk_child _ _ _ _ _ Hf) as [Hr _]. by rewrite Hr in Hst.
  - rewrite (fk_others _ _ _ _ _ Hf) in Hst |- * by done. by apply Hcl.
Qed.

(** The slot once its directory [pg] is set. *)
Record born (i : nat) (k pg : Z) (s s' : K) : Prop := {
  bn_slot : (i < NPROC)%nat /\ state (procs (kpt s) i) = UNUSED;
  bn_files : files_same s s';
  bn_child : procs (kpt s') i = set_kstack k (set_vm (psz (procs (kpt s) i)) pg
    (set_pid (nextpid (kpt s)) (set_state EMBRYO (procs (kpt s) i))));
  bn_others : forall j, j <> i -> procs (kpt s') j = procs (kpt s) j;
  bn_next : nextpid (kpt s') = i32 (nextpid (kpt s) + 1) /\ initproc (kpt s') = initproc (kpt s)
}.

Lemma embryo_born i k l pg m s s1 : embryo i k l s s1 ->
  born i k pg s (set_kpt (upd_proc i (fun q => set_vm (psz q) pg q) (kpt s1)) (set_kmem m s1)).
Proof.
  intros [E1 E2 E3 E4 E5 _ _ _]. constructor; cbn; try done.
  - by destruct E2.
  - rewrite fn_lookup_insert, E3. done.
  - intros j Hj. rewrite fn_lookup_insert_ne by done. by apply E4.
Qed.

(** Out of memory: the slot and its kernel stack are given back. *)
Lemma fork_undo_wp np k s s2 c l n (Q : Z -> ctx -> K -> Prop) : born np k 0 s s2 -> held c = [] ->
  kinv kend (kmem s2) l -> valid_page kend k -> (k ∉ l) -> Z.of_nat (S (length l)) < n ->
  (forall s', (exists i, slot_back i s s') -> kinv kend (kmem s') (k :: l) ->
     (forall x, ~ in_page k x -> kmemory (kmem s') x = kmemory (kmem s2) x) -> Q (-1) c s') ->
  wp (ks ← onpt (getp np kstack);
      onvm (kfree kend ks);;
      onpt (setp np (set_kstack 0));;
      onpt (setp np (set_state UNUSED));;
      mret (-1)) c s2 Q.
Proof.
  intros [[B1 B1'] B2 B3 B4 B5] Hc Hk Hvk Hkl Hn HQ. do 3 wp_step. rewrite set_kpt_id, B3. cbn [kstack set_kstack]. do 2 wp_step.
  eapply wp_mono; [|apply (kfree_wp kend) with (l := l); [exact Hk|done|done|right; rewrite Hc; set_solver]].
  intros _ ? m3 (-> & Hk3 & Hu3 & Ho3). do 3 wp_step. do 3 wp_step. wp_step. apply HQ; [|done|exact Ho3].
  exists np. constructor; cbn; try done.
  - by destruct B2.
  - intros j Hj. rewrite !fn_lookup_insert_ne by done. by apply B4.
  - exists 0. split; [by left|]. rewrite !fn_lookup_insert, B3. unfold set_kstack, set_vm, set_pid. cbn. by rewrite B1'.
Qed.

(** The child filled in from the parent. *)
Lemma fork_fill_wp cur np k pg s s2 c l (Q : Z -> ctx -> K -> Prop) : let p := procs (kpt s) cur in
  born np k pg s s2 -> np <> cur -> held c = [] -> slots_clean s ->
  (forall d f, (d < NOFILE)%nat -> ofile p d = Some f -> 1 <= ref (ftab (kfile s) f)) ->
  (exists l', uinv kend (kmem s2) pg l' /\ uinv kend (kmem s2) (pgdir p) l' /\
    k :: pg :: upool pg (kmem s2) l' ≡ₚ l /\
    (forall a, 0 <= a < 4096 * npages (psz p) ->
      user_ok (kmemory (kmem s2)) pg a = user_ok (kmemory (kmem s)) (pgdir p) a /\
      ubyte (kmemory (kmem s2)) pg a = ubyte (kmemory (kmem s)) (pgdir p) a) /\
    (forall a, 4096 * npages (psz p) <= a < KERNBASE -> user_ok (kmemory (kmem s2)) pg a = false)) ->
  (forall s', kmem s' = kmem s2 -> forked cur np l s s' -> Q (nextpid (kpt s)) c s') ->
  wp (onpt (setp np (fun q => set_vm (psz p) (pgdir q) q));;
      onpt (setp np (set_parent (Some cur)));;
      onpt (setp np (set_tf (set_eax 0 (tf p))));;
      dup_files NOFILE 0 cur np;;
      d ← onfile (onfs (idup (the_cwd p)));
      onpt (setp np (set_cwd (Some d)));;
      onpt (setp np (set_name (pname p)));;
      p ← onpt (getp np pid);
      acquire Lptable;;
      onpt (setp np (set_state RUNNABLE));;
      release Lptable;;
      mret p) c s2 Q.
Proof.
  intros p [[B1 B1'] B2 B3 B4 B5] Hne Hc Hcl Href Hmem HQ. do 3 wp_step. do 3 wp_step. do 3 wp_step. wp_step.
  apply dup_files_wp; [done|rewrite Hc; set_solver| |].
  { cbn [kpt kfile set_kpt set_kmem procs upd_proc ftab set_kfile set_fpst]. intros d f Hd.
    rewrite !fn_lookup_insert_ne by done. rewrite (B4 cur), (sm_tab _ _ B2) by done. apply Href. lia. }
  intros s4 Hdu. do 3 wp_step. apply idup_wp; [rewrite Hc; set_solver|].
  do 3 wp_step. do 3 wp_step. do 3 wp_step. wp_step. apply wp_acquire; [rewrite Hc; set_solver|].
  do 3 wp_step. do 2 wp_step. wp_step.
  cbn [kpt kfile ticks set_kpt set_kfile procs upd_proc ffs set_ffs]. rewrite !fn_lookup_insert.
  destruct Hdu as [(D1 & D2 & D3) D4 [D5 D6] D7 (ofs & D8 & D9)].
  cbn [kpt kfile ticks set_kpt set_kmem set_kfile procs upd_proc ffs ftab fpst set_fpst nextpid initproc] in *.
  rewrite !fn_lookup_insert, B3 in D8. rewrite !fn_lookup_insert, B3 in D9. cbn in D8, D9.
  rewrite !fn_lookup_insert_ne, (B4 cur) in D9 by done. fold p in D9.
  assert (Epid : pid (procs (kpt s4) np) = nextpid (kpt s)) by (by rewrite D8).
  cbn [pid set_name set_pname set_cwd]. rewrite Epid.
  set (s5 := set_kpt _ _). replace (set_held _ _) with c by by destruct c.
  assert (Ech : procs (kpt s5) np = set_state RUNNABLE (set_name (pname p) (set_cwd (Some (the_cwd p)) (procs (kpt s4) np)))).
  { unfold s5. cbn. by rewrite !fn_lookup_insert. }
  assert (Em5 : kmem s5 = kmem s2) by (unfold s5, kmem; cbn; by rewrite D2).
  apply HQ; [done|]. constructor.
  - done.
  - by rewrite Ech, D8.
  - intros d Hd. rewrite Ech. cbn. rewrite D8. cbn. rewrite D9, decide_True by lia.
    rewrite (Hcl np d B1 Hd B1'). by destruct (ofile _ _).
  - intros f. unfold s5. cbn. rewrite D4. unfold with_refs. cbn [ftab kfile set_kfile set_fpst].
    rewrite !fn_lookup_insert_ne, (B4 cur) by done. unfold with_refs. cbn. by rewrite (sm_tab _ _ B2).
  - unfold s5. cbn. by rewrite D1, (sm_fs _ _ B2).
  - unfold s5. cbn. rewrite D2, D3, D5, D6. cbn. by destruct B2, B5.
  - intros j Hj. unfold s5. cbn. rewrite !fn_lookup_insert_ne, D7 by done.
    rewrite !fn_lookup_insert_ne by done. by apply B4.
  - cbv zeta. rewrite Em5. by rewrite Ech, D8.
Qed.

Hypothesis Hkend : KERNBASE < kend.
Hypothesis Hdata : KERNLINK < kdata /\ kdata mod 4096 = 0 /\ kdata < KERNBASE + PHYSTOP.

Lemma fork_wp cur s c l (Q : Z -> ctx -> K -> Prop) :
  let p := procs (kpt s) cur in
  uinv kend (kmem s) (pgdir p) l -> held c = [] -> 0 <= psz p <= KERNBASE -> state p <> UNUSED ->
  (forall vpn, 0 <= vpn < npages (psz p) -> flag (pte (kmemory (kmem s)) (pgdir p) vpn) PTE_P = true) ->
  (forall d f, (d < NOFILE)%nat -> ofile p d = Some f -> 1 <= ref (ftab (kfile s) f)) ->
  slots_clean s ->
  (forall s' l', not_created (1027 + npages (psz p)) l s s' -> kinv kend (kmem s') l' -> l' ≡ₚ l ->
     space_kept (kmemory (kmem s)) (kmemory (kmem s')) (pgdir p) -> Q (-1) c s') ->
  (forall s' np, forked cur np l s s' -> space_kept (kmemory (kmem s)) (kmemory (kmem s')) (pgdir p) ->
     Q (nextpid (kpt s)) c s') ->
  wp (fork kend kdata trapret forkret cur) c s Q.
Proof using Hkend Hdata.
  intros p Hi Hc Hsz Hst Hpres Href Hcl HN HS. assert (H0 : 0 <= npages (psz p)) by (unfold npages; wrap_lia).
  unfold fork. wp_step. apply (allocproc_wp s c l); [apply Hi|done| |].
  { intros s' Hno Hm. wp_step. apply (HN s' l); rewrite ?Hm; [|apply Hi|done|done].
    destruct Hno as [?|[Hl ?]]; [by left|right]. split; [lia|done]. }
  intros np k l1 s1 -> He. destruct (embryo_parent _ _ _ _ _ _ Hi He) as (Hi1 & Hk1 & Hvk & Hkl & Hap).
  assert (Hne : np <> cur) by (intros ->; by apply Hst, He).
  do 3 wp_step. rewrite set_kpt_id. unfold id. rewrite (em_others _ _ _ _ _ He cur) by done. fold p.
  assert (Hpte : forall vpn, is_vpn vpn -> pte (kmemory (kmem s1)) (pgdir p) vpn = pte (kmemory (kmem s)) (pgdir p) vpn).
  { intros vpn Hvpn. by apply kept_pte. }
  do 2 wp_step. eapply wp_mono; [|apply (copyuvm_wp kend kdata Hkend Hdata) with (l := l1); try done].
  all: cbn beta.
  2: right; rewrite Hc; set_solver.
  2: { intros vpn Hvpn. rewrite Hpte; [by apply Hpres|]. unfold is_vpn, npages, KERNBASE in *. wrap_lia. }
  intros pg ? m2 (-> & Hu2 & Hk2 & l2 & Hres). pose proof (embryo_born _ _ _ pg m2 _ _ He) as Hb.
  assert (Hk02 : space_kept (kmemory (kmem s)) (kmemory m2) (pgdir p)).
  { intros q x Hq Hx. rewrite <- (Hk1 q x Hq Hx). apply (Hk2 q); [|done]. unfold own_pages in *.
    rewrite (tabs_frame (kmemory (kmem s))) by (intros y Hy; apply (Hk1 (pgdir p)); [left|done]).
    rewrite (upages_ext (kmemory (kmem s))) by done. done. }
  do 3 wp_step. destruct Hres as [(Hpg & [_ C2 C3 C4 C5] & _)|(-> & Hkm2 & Hl2 & Hlen)].
  - rewrite (proj2 (Z.eqb_neq pg 0)) by done.
    apply (fork_fill_wp cur np k pg s _ c (k :: l1)); try done; [|intros s' Em Hf; by apply (HS s' np); [|rewrite Em]].
    exists l2. cbn. fold p. split_and!; [done| |by rewrite C3| |].
    + apply (kept_uinv kend (kmem s) m2 _ (k :: pg :: tabs (kmemory m2) pg ++ upages (kmemory m2) pg) (k :: l1));
        try done; [apply C2|]. rewrite <- C3. unfold upool. by rewrite <- !app_comm_cons, <- app_assoc.
    + intros a Ha. destruct (copied_same kend (kmemory (kmem s1)) (pgdir p) (kmemory m2) pg a) as [-> ->].
      { apply C4. Z.div_mod_to_equations. lia. }
      assert (Hv : 0 <= a / 4096 < npages (psz p)) by (Z.div_mod_to_equations; lia).
      apply (kept_user _ _ _ _ Hk1); [unfold npages, KERNBASE in *; wrap_lia|by apply Hpres].
    + intros a Ha. unfold user_ok. rewrite C5; [done|]. unfold KERNBASE in Ha. Z.div_mod_to_equations. lia.
  - cbn [Z.eqb]. assert (E : length l2 = length l1) by by apply Permutation_length.
    apply (fork_undo_wp np k s _ c l2 (1027 + npages (psz p))); try done; [by rewrite Hl2|rewrite E; lia|].
    intros s' Hsb Hk3 Ho3. apply (HN s' (k :: l2)); [|done|by rewrite Hl2|].
    + right. split; [cbn [length]; lia|done].
    + intros q x Hq Hx. rewrite <- (Hk02 q x Hq Hx). apply Ho3. by apply (Hap q).
Qed.

(** C3: [fork].  On success the child is a free slot with the next pid,
    runnable, whose memory reads like the parent's at every address below its
    size and is not mapped above, whose registers are the parent's with 0 in
    eax, and which has exactly the parent's open files and its directory, each
    with its reference counted; its pages and kernel stack come from the free
    list, both address spaces are well formed beside what is left of it, and
    no other process changes.  [fork] fails only when no slot is free, and then
    nothing has changed, or when fewer pages are free than the copy and its
    tables can take; it then returns -1 with every page back on the free list
    and the slot free again, one pid used up and the slot's stale pid, kernel
    stack and directory the only traces.  The parent's memory is never
    touched, and free slots hold no files as before. *)
Theorem fork_correct cur s c l :
  let p := procs (kpt s) cur in
  uinv kend (kmem s) (pgdir p) l -> held c = [] -> 0 <= psz p <= KERNBASE -> state p <> UNUSED ->
  (forall vpn, 0 <= vpn < npages (psz p) -> flag (pte (kmemory (kmem s)) (pgdir p) vpn) PTE_P = true) ->
  (forall d f, (d < NOFILE)%nat -> ofile p d = Some f -> 1 <= ref (ftab (kfile s) f)) ->
  slots_clean s ->
  wp (fork kend kdata trapret forkret cur) c s (fun r c' s' => c' = c /\ slots_clean s' /\
    space_kept (kmemory (kmem s)) (kmemory (kmem s')) (pgdir p) /\
    ((r = nextpid (kpt s) /\ exists np, forked cur np l s s') \/
     (r = -1 /\ not_created (1027 + npages (psz p)) l s s' /\ exists l', kinv kend (kmem s') l' /\ l' ≡ₚ l))).
Proof using Hkend Hdata.
  intros p Hi Hc Hsz Hst Hpres Href Hcl. apply (fork_wp cur s c l); try done.
  - intros s' l' Hno Hk Hl Hkept. split_and!; [done| |done|].
    + destruct Hno as [[_ ->]|[_ (i & Hb)]]; [done|by apply (slots_clean_back i s)].
    + right. split_and!; try done. by exists l'.
  - intros s' np Hf Hkept. split_and!; [done|by apply (slots_clean_forked cur np l s)|done|].
    left. split; [done|]. by exists np.
Qed.

End fork.

(** * growproc *)
Section grow.
Context {T : Type}.
#[local] Notation K := (kernel T).
Variable kend : Z.
Hypothesis Hkend : KERNBASE < kend.

Lemma set_vm_id p : set_vm (psz p) (pgdir p) p = p.
Proof. by destruct p. Qed.

(** The end of [growproc]. *)
Lemma set_size_wp cur sz (s : K) c (Q : Z -> ctx -> K -> Prop) : let p := procs (kpt s) cur in
  kstack p <> 0 -> pgdir p <> 0 ->
  (forall s', kfile s' = kfile s -> ticks s' = ticks s -> (forall j, j <> cur -> procs (kpt s') j = procs (kpt s) j) ->
     procs (kpt s') cur = set_vm sz (pgdir p) p -> Q 0 c s') ->
  wp (onpt (setp cur (set_vm sz (pgdir p)));; onpt (switchuvm cur);; mret 0) c s Q.
Proof.
  intros p Hk Hp HQ. do 3 wp_step. do 2 wp_step. unfold switchuvm. do 2 wp_step.
  cbn [kpt set_kpt procs upd_proc]. unfold id. rewrite fn_lookup_insert. cbn [kstack pgdir set_vm].
  fold p. rewrite (proj2 (Z.eqb_neq _ _) Hk), (proj2 (Z.eqb_neq _ _) Hp). do 2 wp_step. apply HQ; try done.
  - intros j Hj. cbn. by rewrite fn_lookup_insert_ne.
  - cbn. by rewrite fn_lookup_insert.
Qed.

Lemma unmap_none lo hi old vpn : hi <= lo -> unmap_view lo hi old vpn = old vpn.
Proof. intros H. unfold unmap_view. zcases; done. Qed.

(** The pages of [cur] after an operation that kept its directory. *)
Definition same_ptes (pg : Z) (s s' : K) : Prop :=
  forall vpn, is_vpn vpn -> pte (kmemory (kmem s')) pg vpn = pte (kmemory (kmem s)) pg vpn.

(** What every branch of [growproc] keeps. *)
Record grown_by (cur : nat) (l : list Z) (s s' : K) : Prop := {
  gb_files : files_same s s';
  gb_others : forall j, j <> cur -> procs (kpt s') j = procs (kpt s) j;
  gb_pages : exists l', ueff kend (pgdir (procs (kpt s) cur)) (kmem s) (kmem s') l l'
}.

Section growproc.
Variables (cur : nat) (n : Z) (s : K) (c : ctx) (l : list Z).
Let p := procs (kpt s) cur.
Let sz := psz p + n.
Hypothesis Hi : uinv kend (kmem s) (pgdir p) l.
Hypothesis Hc : held c = [].
Hypothesis Hsz : 0 < psz p < KERNBASE.
Hypothesis Hn : is_i32 n.
Hypothesis Hks : kstack p <> 0.

Lemma grow_pg : pgdir p <> 0.
Proof using Hi. apply (valid_page_nonzero kend). apply Hi. Qed.

(** From memory [m1] with the size [z] stored, or with the old size. *)
Lemma grow_end m1 l1 z (Q : Z -> ctx -> K -> Prop) : ueff kend (pgdir p) (kmem s) m1 l l1 ->
  (forall s', grown_by cur l s s' -> kmem s' = m1 ->
     procs (kpt s') cur = (if z =? 0 then p else set_vm z (pgdir p) p) ->
     Q (if z =? 0 then -1 else 0) c s') ->
  wp (if z =? 0 then mret (-1) else onpt (setp cur (set_vm z (pgdir p)));; onpt (switchuvm cur);; mret 0)
    c (set_kmem m1 s) Q.
Proof using Hi Hks.
  intros He HQ. destruct (z =? 0).
  - wp_step. apply HQ; [|done|done]. constructor; [done|done|by exists l1].
  - apply (set_size_wp cur z (set_kmem m1 s)); [done|exact grow_pg|]. intros s' F1 F2 F3 F4.
    assert (Em : kmem s' = m1) by (unfold kmem; by rewrite F1).
    apply HQ; [|done|done]. constructor; [by constructor; rewrite ?F1, ?F2|done|]. exists l1. by rewrite Em.
Qed.

Lemma growproc_grow : 0 < n ->
  (forall vpn, npages (psz p) <= vpn < 524288 -> pte (kmemory (kmem s)) (pgdir p) vpn = 0) ->
  wp (growproc kend cur n) c s (fun r c' s' => c' = c /\ grown_by cur l s s' /\
    ((r = 0 /\ sz < KERNBASE /\ procs (kpt s') cur = set_vm sz (pgdir p) p /\
      fresh_pages (pgdir p) (npages (psz p)) (npages sz) l (kmem s) (kmem s')) \/
     (r = -1 /\ procs (kpt s') cur = p /\ same_ptes (pgdir p) s s' /\
      (KERNBASE <= sz \/ Z.of_nat (length l) <= 1024 + (npages sz - npages (psz p)))))).
Proof using Hkend Hi Hc Hsz Hn Hks.
  intros Hpos Habs. assert (Hkf : kmem_free c (kmem s)) by (right; rewrite Hc; set_solver).
  assert (Hu : u32 (psz p + n) = sz) by (unfold sz, KERNBASE, is_i32 in *; apply u32_small; wrap_lia).
  unfold growproc. do 3 wp_step. rewrite set_kpt_id. change (id (procs (kpt s) cur)) with p.
  rewrite Z.gtb_ltb, (proj2 (Z.ltb_lt 0 n)), Hu by done.
  do 2 wp_step. eapply wp_mono; [|apply (allocuvm_wp kend Hkend) with (l := l); try done; try lia].
  2: { intros Hlt vpn Hv. apply Habs. unfold npages, KERNBASE in *. wrap_lia. }
  intros r ? m1 (-> & l1 & He & Hr). rewrite (proj2 (Z.eqb_neq n 0)) by lia. cbn [negb andb].
  apply (grow_end m1 l1); [done|]. intros s' Hg Em Hp. split_and!; [done|done|]. rewrite Em.
  rewrite Z.geb_leb, (proj2 (Z.ltb_ge sz (psz p))) in Hr by (unfold sz; lia).
  assert (Hsp : sz <> 0) by (unfold sz; lia). unfold same_ptes. rewrite Em.
  destruct (Z.leb_spec KERNBASE sz); [destruct Hr as [-> ->]|destruct Hr as [[-> Hf]|(-> & Hp' & Hlen)]].
  - right. by auto.
  - rewrite (proj2 (Z.eqb_neq sz 0)) in Hp |- * by done. by left.
  - right. by auto.
Qed.

Lemma growproc_shrink : n <= 0 ->
  wp (growproc kend cur n) c s (fun r c' s' => c' = c /\ grown_by cur l s s' /\
    if sz <? 0 then r = 0 /\ procs (kpt s') cur = p /\ same_ptes (pgdir p) s s'
    else (if sz =? 0 then r = -1 /\ procs (kpt s') cur = p else r = 0 /\ procs (kpt s') cur = set_vm sz (pgdir p) p) /\
      forall vpn, is_vpn vpn -> pte (kmemory (kmem s')) (pgdir p) vpn =
        unmap_view (npages sz) (npages (psz p)) (pte (kmemory (kmem s)) (pgdir p)) vpn).
Proof using Hkend Hi Hc Hsz Hn Hks.
  intros Hneg. assert (Hkf : kmem_free c (kmem s)) by (right; rewrite Hc; set_solver).
  unfold growproc. do 3 wp_step. rewrite set_kpt_id. change (id (procs (kpt s) cur)) with p.
  rewrite Z.gtb_ltb, (proj2 (Z.ltb_ge 0 n)) by done.
  assert (Hmin : Z.min (psz p) (u32 sz) = if sz <? 0 then psz p else sz).
  { unfold sz, KERNBASE in *. destruct (Z.ltb_spec (psz p + n) 0); [|rewrite u32_small]; wrap_lia. }
  destruct (Z.ltb_spec n 0) as [Hlt|Hz].
  - do 2 wp_step. eapply wp_mono; [|apply (deallocuvm_wp kend Hkend) with (l := l); try done; [apply u32_range|lia]].
    intros r ? m1 (-> & _ & -> & l1 & Hd & Hp). rewrite (proj2 (Z.eqb_neq n 0)) by lia. cbn [negb andb].
    fold sz in Hp |- *. rewrite Hmin. apply (grow_end m1 l1); [by apply udrop_ueff|]. intros s' Hg Em Hp'.
    split_and!; [done|done|]. unfold same_ptes. rewrite Em. destruct (Z.ltb_spec sz 0).
    + rewrite (proj2 (Z.eqb_neq (psz p) 0)) in Hp' |- * by lia. rewrite set_vm_id in Hp'. split_and!; [done|done|].
      intros vpn Hv. rewrite Hp by done. apply unmap_none. unfold npages, sz, KERNBASE in *. wrap_lia.
    + split; [by destruct (sz =? 0)|]. intros vpn Hv. rewrite Hp by done.
      assert (u32 sz = sz) as -> by (apply u32_small; unfold sz, KERNBASE in *; wrap_lia). done.
  - assert (E : sz = psz p) by (unfold sz; lia). wp_step. assert (n = 0) as E0 by lia. rewrite E0. cbn [Z.eqb negb andb].
    rewrite E, (proj2 (Z.ltb_ge (psz p) 0)), (proj2 (Z.eqb_neq (psz p) 0)) by lia.
    apply (set_size_wp cur (psz p) s); [done|exact grow_pg|]. intros s' F1 F2 F3 F4.
    assert (Em : kmem s' = kmem s) by (unfold kmem; by rewrite F1). split; [done|]. split; [|split; [done|]].
    + constructor; [by constructor; rewrite ?F1, ?F2|done|]. exists l. rewrite Em. by apply ueff_refl.
    + intros vpn _. rewrite Em. by rewrite unmap_none by lia.
Qed.
End growproc.

(** [growproc] on every branch.  Growing adds zeroed pages up to the new
    size or, past the user's half of memory or out of pages, fails and changes
    nothing; shrinking unmaps exactly the pages
    above the new size.  Two cases stand out: asked to shrink below zero it
    succeeds and does nothing, and asked to shrink to zero it frees all the
    memory, keeps the old size and reports failure. *)
Theorem growproc_correct cur n s c l :
  let p := procs (kpt s) cur in let sz := psz p + n in
  uinv kend (kmem s) (pgdir p) l -> held c = [] -> 0 < psz p < KERNBASE -> is_i32 n -> kstack p <> 0 ->
  (forall vpn, npages (psz p) <= vpn < 524288 -> pte (kmemory (kmem s)) (pgdir p) vpn = 0) ->
  wp (growproc kend cur n) c s (fun r c' s' => c' = c /\ grown_by cur l s s' /\
    if 0 <? n then
      (r = 0 /\ sz < KERNBASE /\ procs (kpt s') cur = set_vm sz (pgdir p) p /\
       fresh_pages (pgdir p) (npages (psz p)) (npages sz) l (kmem s) (kmem s')) \/
      (r = -1 /\ procs (kpt s') cur = p /\ same_ptes (pgdir p) s s' /\
       (KERNBASE <= sz \/ Z.of_nat (length l) <= 1024 + (npages sz - npages (psz p))))
    else if sz <? 0 then r = 0 /\ procs (kpt s') cur = p /\ same_ptes (pgdir p) s s'
    else (if sz =? 0 then r = -1 /\ procs (kpt s') cur = p else r = 0 /\ procs (kpt s') cur = set_vm sz (pgdir p) p) /\
      forall vpn, is_vpn vpn -> pte (kmemory (kmem s')) (pgdir p) vpn =
        unmap_view (npages sz) (npages (psz p)) (pte (kmemory (kmem s)) (pgdir p)) vpn).
Proof using Hkend.
  intros p sz Hi Hc Hsz Hn Hks Habs. destruct (Z.ltb_spec 0 n).
  - by apply growproc_grow.
  - by apply growproc_shrink.
Qed.
End grow.

(** * An example: a process with two pages and an open file *)
Definition ex_proc : proc :=
  Proc 5000 (kpage 4) (kpage 20) RUNNING 1 None tf0 None false
    (fun d => match d with 0%nat => Some 1%nat | _ => None end) (Some 0%nat) (replicate 16 0).
Definition ex_kernel : kernel lst :=
  Kernel (Fst (ffs ex_fst) (Pst ex2_kst (pipes (fpst ex_fst))) (ftab ex_fst))
    (Ptab (fun i => match i with 0%nat => ex_proc | _ => proc0 end) 2 (Some 0%nat)) 0.

(** With 1200 free pages and free slots [fork] gives process 2. *)
Lemma fork_correct_witness : let s := set_kmem (with_free ex2_mem 1200) ex_kernel in
  wp (fork (kpage 0) 2148536320 0 0 0) ctx0 s (fun r c' s' => c' = ctx0 /\ slots_clean s' /\
    space_kept ex2_mem (kmemory (kmem s')) (kpage 4) /\ r = 2 /\ exists np, forked (kpage 0) 0 np (many 1200) s s').
Proof.
  intros s. eapply wp_mono; [|apply (fork_correct (kpage 0) 2148536320 0 0) with (s := s) (l := many 1200)].
  - intros r c' s' (-> & Hcl & Hk & [[-> Hf]|(_ & [[Hno _]|[Hno _]] & _)]).
    + split_and!; try done. change (space_kept (kmemory (with_free ex2_mem 1200)) (kmemory (kmem s')) (kpage 4)) in Hk.
      intros q x Hq Hx. rewrite <- (ex2_kept 1200 q x Hq Hx). apply (Hk q); [|done].
      unfold own_pages in *. rewrite (tabs_frame ex2_mem), (upages_ext ex2_mem); [done|..].
      * intros vpn Hv. by apply (kept_pte _ _ _ _ (ex2_kept 1200)).
      * intros y Hy. apply (ex2_kept 1200 (kpage 4)); [left|done].
    + exfalso. apply (Hno 1%nat); [unfold NPROC; lia|done].
    + exfalso. rewrite length_many in Hno. change (npages _) with 2 in Hno. lia.
  - done.
  - done.
  - apply (ex2_free 1200). lia.
  - done.
  - done.
  - done.
  - intros vpn Hv. change (npages _) with 2 in Hv. change (pgdir _) with (kpage 4).
    change (kmemory (kmem s)) with (kmemory (with_free ex2_mem 1200)). rewrite (kept_pte _ _ _ _ (ex2_kept 1200)) by (unfold is_vpn; lia).
    assert (vpn = 0 \/ vpn = 1) as [-> | ->] by lia; by vm_compute.
  - intros [|d] f _ Hf; [|done]. injection Hf as <-. done.
  - by intros [|i] d _ _ Hs.
Defined.

Lemma growproc_correct_witness :
  wp (growproc (kpage 0) 0 (-5000)) ctx0 ex_kernel (fun r _ s' => r = -1 /\ psz (procs (kpt s') 0%nat) = 5000 /\
    forall vpn, 0 <= vpn < 2 -> pte (kmemory (kmem s')) (kpage 4) vpn = 0).
Proof.
  eapply wp_mono; [|apply (growproc_correct (kpage 0)) with (s := ex_kernel) (l := []); try done].
  - intros r c' s' (_ & _ & [Hr Hp] & Hpte). change (psz (procs (kpt ex_kernel) 0%nat)) with 5000 in Hpte.
    cbn in Hr, Hp. rewrite Hp. split_and!; [done|done|]. intros vpn Hv. change (pgdir _) with (kpage 4) in Hpte.
    rewrite Hpte by (unfold is_vpn; lia). assert (vpn = 0 \/ vpn = 1) as [-> | ->] by lia; by vm_compute.
  - apply ex2_uinv.
  - intros vpn Hv. change (npages _) with 2 in Hv. change (pgdir _) with (kpage 4).
    change (kmemory (kmem ex_kernel)) with ex2_mem. rewrite ex2_pte by (unfold is_vpn; lia). by zcases.
Defined.
