(* ===== verification/Exec.v ===== *)
(** * Program loading (exec.c)
    [exec] over the kernel state.  The ELF header and program headers are
    read as bytes; [goto bad] is the value [None] of the steps below. *)
From stdpp Require Import functions.
From S2P Require Import Prelude CString Mmu Kalloc Vm Pipe Block Sleeplock Log Buffers Fs File Proc Kernel.

Definition ELF_MAGIC : Z := 1179403647.
Definition ELF_PROG_LOAD : Z := 1.
Definition ELFSIZE : Z := 52.
Definition PHSIZE : Z := 32.

(** [struct elfhdr] and [struct proghdr] (elf.h), the fields [exec] uses. *)
Record elfhdr := Elfhdr { e_magic : Z; e_entry : Z; e_phoff : Z; e_phnum : Z }.
Definition decode_elf (b : list Z) : elfhdr :=
  Elfhdr (Block.get32 b 0) (Block.get32 b 24) (Block.get32 b 28) (get16 b 44).
Record proghdr := Proghdr { p_type : Z; p_off : Z; p_vaddr : Z; p_filesz : Z; p_memsz : Z }.
Definition decode_ph (b : list Z) : proghdr :=
  Proghdr (Block.get32 b 0) (Block.get32 b 4) (Block.get32 b 8) (Block.get32 b 16) (Block.get32 b 20).

Definition word_bytes (w : Z) : list Z := [u8 w; u8 (w / 256); u8 (w / 65536); u8 (w / 16777216)].

(** The last element of a path, for [p->name]. *)
Fixpoint last_elem (last path : list Z) : list Z :=
  match path with
  | [] => last
  | c :: r => if c =? ch_slash then last_elem r r else last_elem last r
  end.

Section exec.
Context {T : Type} {BC : BufferCache T}.
#[local] Notation K := (kernel T).
Variables (kend kdata : Z).
Variable devread : Z -> option (nat -> Z -> M (fsst T) (Z * list Z)).

Definition fs {A} (m : M (fsst T) A) : M K A := onfile (onfs m).
Definition vm (A : Type) (m : M kst A) : M K A := onvm m.

(** [readi] into memory at the kernel address [dst]. *)
Definition readi_mem (ip : nat) (dst off n : Z) : M K Z :=
  r ← fs (readi devread ip off n);
  onvm (kcopyin dst (snd r));;
  mret (fst r).

(** The loop over the program headers: the new size, or [None] for [bad]. *)
Fixpoint load_segments (fuel : nat) (ip : nat) (pg off sz : Z) : M K (option Z) :=
  match fuel with
  | O => mret (Some sz)
  | S f =>
      r ← fs (readi devread ip (u32 off) PHSIZE);
      if negb (fst r =? PHSIZE) then mret None else
      let ph := decode_ph (snd r) in
      if negb (p_type ph =? ELF_PROG_LOAD) then load_segments f ip pg (off + PHSIZE) sz
      else if p_memsz ph <? p_filesz ph then mret None
      else if u32 (p_vaddr ph + p_memsz ph) <? p_vaddr ph then mret None
      else
        sz' ← onvm (allocuvm kend pg sz (u32 (p_vaddr ph + p_memsz ph)));
        if sz' =? 0 then mret None
        else if negb (p_vaddr ph mod PGSIZE =? 0) then mret None
        else
          r ← loaduvm vm (readi_mem ip) pg (p_vaddr ph) (p_off ph) (p_filesz ph);
          if r <? 0 then mret None else load_segments f ip pg (off + PHSIZE) sz'
  end.

(** Pushing the argument strings; [us] are the pointers pushed so far. *)
Fixpoint push_args (argv : list (list Z)) (argc : nat) (pg sp : Z) (us : list Z) : M K (option (Z * list Z)) :=
  match argv with
  | [] => mret (Some (sp, us))
  | a :: argv' =>
      if (MAXARG <=? argc)%nat then mret None else
      let sp := Z.land (u32 (sp - (Z.of_nat (length a) + 1))) (Z.lnot 3) in
      r ← onvm (copyout pg sp (a ++ [0]));
      if r <? 0 then mret None else push_args argv' (S argc) pg sp (us ++ [sp])
  end.

(** The stack and the arguments above the loaded image: size and stack
    pointer. *)
Definition build_stack (pg sz : Z) (argv : list (list Z)) : M K (option (Z * Z)) :=
  let sz := PGROUNDUP sz in
  sz ← onvm (allocuvm kend pg sz (u32 (sz + 2 * PGSIZE)));
  if sz =? 0 then mret None else
  onvm (clearpteu pg (u32 (sz - 2 * PGSIZE)));;
  r ← push_args argv 0 pg sz [];
  match r with
  | None => mret None
  | Some (sp, us) =>
      let argc := Z.of_nat (length argv) in
      let ustack := [4294967295; argc; u32 (sp - (argc + 1) * 4)] ++ us ++ [0] in
      let sp := u32 (sp - (3 + argc + 1) * 4) in
      r ← onvm (copyout pg sp (mjoin (word_bytes <$> ustack)));
      if r <? 0 then mret None else mret (Some (sz, sp))
  end.

(** [bad:], before and after the inode has been given up. *)
Definition bad_locked (pg : Z) (ip : nat) : M K Z :=
  when (negb (pg =? 0)) (onvm (freevm kend pg));;
  fs (iunlockput ip);;
  fs end_op;;
  mret (-1).
Definition bad_unlocked (pg : Z) : M K Z := onvm (freevm kend pg);; mret (-1).

Definition exec (cur : nat) (path : list Z) (argv : list (list Z)) : M K Z :=
  fs begin_op;;
  c ← onpt (getp cur id);
  r ← fs (namei devread (the_cwd c) path);
  match r with
  | None => fs end_op;; mret (-1)
  | Some ip =>
      fs (ilock ip);;
      h ← fs (readi devread ip 0 ELFSIZE);
      if negb (fst h =? ELFSIZE) then bad_locked 0 ip else
      let elf := decode_elf (snd h) in
      if negb (e_magic elf =? ELF_MAGIC) then bad_locked 0 ip else
      pg ← onvm (setupkvm kend kdata);
      if pg =? 0 then bad_locked 0 ip else
      l ← load_segments (Z.to_nat (e_phnum elf)) ip pg (e_phoff elf) 0;
      match l with
      | None => bad_locked pg ip
      | Some sz =>
          fs (iunlockput ip);;
          fs end_op;;
          b ← build_stack pg sz argv;
          match b with
          | None => bad_unlocked pg
          | Some (sz, sp) =>
              onpt (setp cur (set_name (last_elem path path)));;
              c ← onpt (getp cur id);
              onpt (setp cur (set_vm sz pg));;
              onpt (setp cur (fun p => set_tf (Trapframe (tf_regs (tf p)) (tf_eax (tf p)) (tf_ds (tf p))
                (tf_es (tf p)) (tf_trapno (tf p)) (tf_err (tf p)) (e_entry elf) (tf_cs (tf p))
                (tf_eflags (tf p)) sp (tf_ss (tf p))) p));;
              onpt (switchuvm cur);;
              onvm (freevm kend (pgdir c));;
              mret 0
          end
      end
  end.
End exec.
