(* ===== verification/ExecSpec.v ===== *)
(** * What exec promises of the stack (exec.c)

    The stack that [exec] builds above the loaded image, as a function from
    addresses to bytes: a closed page, the argument strings and the frame
    that the program's [main] expects. *)
From stdpp Require Import functions.
From S2P Require Import Prelude CString Mmu Kalloc Vm PageTable UserVm CopyVm VmSpec ForkVm ImageVm Pipe.
From S2P Require Import Block Sleeplock Log Buffers LogBuf Fs File Proc Kernel KernelSpec Exec.
#[local] Set Default Proof Using "Type".

(** ** The argument stack *)

(** A little-endian word of an image. *)
Definition uword (f : Z -> Z) (a : Z) : Z := f a + 256 * f (a + 1) + 65536 * f (a + 2) + 16777216 * f (a + 3).

(** The room a string takes: its bytes and the NUL, in words. *)
Definition arg_room (a : list Z) : Z := 4 * ((Z.of_nat (length a) + 4) / 4).
Definition args_room (argv : list (list Z)) : Z := fold_right (fun a n => arg_room a + n) 0 argv.
(** The strings below [sp], one under the other. *)
Fixpoint arg_ptrs (sp : Z) (argv : list (list Z)) : list Z :=
  match argv with [] => [] | a :: r => (sp - arg_room a) :: arg_ptrs (sp - arg_room a) r end.
Fixpoint put_args (f : Z -> Z) (sp : Z) (argv : list (list Z)) : Z -> Z :=
  match argv with
  | [] => f
  | a :: r => put_args (fwrite f (sp - arg_room a) (a ++ [0])) (sp - arg_room a) r
  end.

(** What [main] finds at its stack pointer. *)
Record args_at (f : Z -> Z) (sp : Z) (argv : list (list Z)) : Prop := {
  aa_ret : uword f sp = 4294967295;
  aa_argc : uword f (sp + 4) = Z.of_nat (length argv);
  aa_argv : uword f (sp + 8) = sp + 12;
  aa_ptr : forall i a, argv !! i = Some a -> forall j, (j <= length a)%nat ->
    f (uword f (sp + 12 + 4 * Z.of_nat i) + Z.of_nat j) = nth j (a ++ [0]) 0;
  aa_null : uword f (sp + 12 + 4 * Z.of_nat (length argv)) = 0
}.

Lemma arg_room_pos a : Z.of_nat (length a) + 1 <= arg_room a.
Proof. unfold arg_room. Z.div_mod_to_equations. lia. Qed.
Lemma args_room_pos argv : 0 <= args_room argv.
Proof. induction argv as [|a r IH]; cbn [args_room fold_right]; [done|]. fold (args_room r). pose proof (arg_room_pos a). lia. Qed.

Lemma args_room_mod argv : args_room argv mod 4 = 0.
Proof.
  induction argv as [|a r IH]; cbn [args_room fold_right]; [done|]. fold (args_room r). unfold arg_room.
  Z.div_mod_to_equations. lia.
Qed.

Lemma next_sp sp a : is_u32 sp -> sp mod 4 = 0 -> arg_room a <= sp ->
  Z.land (u32 (sp - (Z.of_nat (length a) + 1))) (Z.lnot 3) = sp - arg_room a.
Proof.
  intros Hs Hm Hr. pose proof (arg_room_pos a). rewrite u32_small by (unfold is_u32 in *; lia).
  rewrite land_lnot. change 3 with (Z.ones 2). rewrite Z.land_ones by lia. change (2 ^ 2) with 4.
  unfold arg_room in *. Z.div_mod_to_equations. lia.
Qed.

Lemma fwrite_out f a bs x : ~ a <= x < a + Z.of_nat (length bs) -> fwrite f a bs x = f x.
Proof. intros H. unfold fwrite, in_range. by zcases. Qed.
Lemma fwrite_in f a bs j : (j < length bs)%nat -> fwrite f a bs (a + Z.of_nat j) = nth j bs 0.
Proof. intros H. unfold fwrite, in_range. zcases. f_equal. lia. Qed.

(** Strings are written below the ones before. *)
Lemma put_args_above f sp argv x : sp <= x -> put_args f sp argv x = f x.
Proof.
  revert f sp. induction argv as [|a r IH]; intros f sp Hx; cbn [put_args]; [done|].
  pose proof (arg_room_pos a). rewrite IH by lia. apply fwrite_out. rewrite length_app. cbn. lia.
Qed.
Lemma put_args_below f sp argv x : x < sp - args_room argv -> put_args f sp argv x = f x.
Proof.
  revert f sp. induction argv as [|a r IH]; intros f sp Hx; cbn [put_args args_room fold_right] in *; [done|].
  fold (args_room r) in Hx. pose proof (args_room_pos r). rewrite IH by lia. apply fwrite_out. lia.
Qed.

Lemma put_args_string f sp argv : forall i a, argv !! i = Some a -> exists p, arg_ptrs sp argv !! i = Some p /\
  sp - args_room argv <= p /\ p + Z.of_nat (length a) < sp /\
  forall j, (j <= length a)%nat -> put_args f sp argv (p + Z.of_nat j) = nth j (a ++ [0]) 0.
Proof.
  revert f sp. induction argv as [|b r IH]; intros f sp i a Hi; [done|].
  cbn [arg_ptrs put_args args_room fold_right]. fold (args_room r). pose proof (args_room_pos r). pose proof (arg_room_pos b).
  destruct i as [|i].
  - injection Hi as ->. exists (sp - arg_room a). split_and!; [done|lia|lia|]. intros j Hj.
    rewrite put_args_above by lia. apply fwrite_in. rewrite length_app. cbn. lia.
  - destruct (IH (fwrite f (sp - arg_room b) (b ++ [0])) (sp - arg_room b) i a Hi) as (p & P1 & P2 & P3 & P4).
    exists p. split_and!; [done|lia|lia|done].
Qed.

Lemma arg_ptrs_range sp argv : Forall (fun p => sp - args_room argv <= p < sp) (arg_ptrs sp argv).
Proof.
  revert sp. induction argv as [|a r IH]; intros sp; cbn [arg_ptrs args_room fold_right]; constructor;
    fold (args_room r) in *; pose proof (args_room_pos r); pose proof (arg_room_pos a); [lia|].
  eapply Forall_impl; [apply IH|]. cbn. intros; lia.
Qed.
Lemma length_arg_ptrs sp argv : length (arg_ptrs sp argv) = length argv.
Proof. revert sp. induction argv as [|a r IH]; intros sp; cbn; [done|]. by rewrite IH. Qed.

(** The words of the stack frame. *)
Definition words (ws : list Z) : list Z := mjoin (word_bytes <$> ws).
Lemma words_cons w ws : words (w :: ws) = word_bytes w ++ words ws.
Proof. done. Qed.
Lemma length_words ws : length (words ws) = (4 * length ws)%nat.
Proof. induction ws as [|w ws IH]; [done|]. rewrite words_cons, length_app, IH. cbn [length word_bytes]. lia. Qed.
Lemma words_u8 ws : Forall is_u8 (words ws).
Proof.
  induction ws as [|w ws IH]; [constructor|]. rewrite words_cons. apply Forall_app. split; [|done].
  unfold word_bytes. repeat constructor; apply u8_range.
Qed.
Lemma words_nth ws k w i : ws !! k = Some w -> (i < 4)%nat -> nth (4 * k + i) (words ws) 0 = nth i (word_bytes w) 0.
Proof.
  revert k. induction ws as [|x ws IH]; intros k Hk Hi; [done|]. rewrite words_cons. destruct k as [|k].
  - injection Hk as ->. apply app_nth1. cbn. lia.
  - rewrite app_nth2 by (cbn; lia). rewrite <- (IH k Hk Hi). f_equal. cbn [length word_bytes]. lia.
Qed.
Lemma uword_words f a ws k w : ws !! k = Some w -> is_u32 w -> uword (fwrite f a (words ws)) (a + 4 * Z.of_nat k) = w.
Proof.
  intros Hk Hw. pose proof (lookup_lt_Some _ _ _ Hk) as Hl.
  assert (E : forall i, (i < 4)%nat -> fwrite f a (words ws) (a + 4 * Z.of_nat k + Z.of_nat i) = nth i (word_bytes w) 0).
  { intros i Hi. rewrite <- (words_nth ws k w i Hk Hi).
    replace (a + 4 * Z.of_nat k + Z.of_nat i) with (a + Z.of_nat (4 * k + i)) by lia.
    apply fwrite_in. rewrite length_words. lia. }
  unfold uword. pose proof (E 0%nat ltac:(lia)) as E0. pose proof (E 1%nat ltac:(lia)) as E1.
  pose proof (E 2%nat ltac:(lia)) as E2. pose proof (E 3%nat ltac:(lia)) as E3.
  change (Z.of_nat 0) with 0 in E0. change (Z.of_nat 1) with 1 in E1. change (Z.of_nat 2) with 2 in E2.
  change (Z.of_nat 3) with 3 in E3. rewrite Z.add_0_r in E0. rewrite E0, E1, E2, E3. cbn [nth word_bytes]. wrap_lia.
Qed.

(** The frame that [exec] pushes below the strings. *)
Definition frame_words (sp : Z) (argv : list (list Z)) : list Z :=
  [4294967295; Z.of_nat (length argv); sp - args_room argv - 4 * (Z.of_nat (length argv) + 1)] ++ arg_ptrs sp argv ++ [0].
Definition frame_sp (sp : Z) (argv : list (list Z)) : Z := sp - args_room argv - 4 * (4 + Z.of_nat (length argv)).
Definition put_stack (f : Z -> Z) (sp : Z) (argv : list (list Z)) : Z -> Z :=
  fwrite (put_args f sp argv) (frame_sp sp argv) (words (frame_words sp argv)).

Lemma length_frame sp argv : length (words (frame_words sp argv)) = (4 * (4 + length argv))%nat.
Proof. rewrite length_words. unfold frame_words. rewrite !length_app, length_arg_ptrs. cbn. lia. Qed.

Lemma put_stack_args f sp argv : 0 <= frame_sp sp argv -> is_u32 sp -> args_at (put_stack f sp argv) (frame_sp sp argv) argv.
Proof.
  intros H0 Hs. pose proof (args_room_pos argv) as Hr. unfold is_u32 in Hs.
  assert (Hw : forall k w, frame_words sp argv !! k = Some w -> is_u32 w ->
    uword (put_stack f sp argv) (frame_sp sp argv + 4 * Z.of_nat k) = w) by (intros; by apply uword_words).
  assert (Hp : forall i p, arg_ptrs sp argv !! i = Some p ->
    uword (put_stack f sp argv) (frame_sp sp argv + 12 + 4 * Z.of_nat i) = p).
  { intros i p Hi. replace (frame_sp sp argv + 12 + 4 * Z.of_nat i) with (frame_sp sp argv + 4 * Z.of_nat (3 + i)) by lia.
    apply Hw.
    - unfold frame_words. rewrite lookup_app_r by (cbn; lia). cbn [length]. replace (3 + i - 3)%nat with i by lia.
      by apply lookup_app_l_Some.
    - pose proof (arg_ptrs_range sp argv) as HF. rewrite Forall_lookup in HF. specialize (HF i p Hi).
      unfold is_u32, frame_sp in *. cbn in HF. lia. }
  constructor.
  - rewrite <- (Z.add_0_r (frame_sp sp argv)). by apply (Hw 0%nat).
  - apply (Hw 1%nat); [done|]. unfold is_u32, frame_sp in *. lia.
  - pose proof (Hw 2%nat _ eq_refl) as H2. change (4 * Z.of_nat 2) with 8 in H2. rewrite H2; unfold is_u32, frame_sp in *; lia.
  - intros i a Hi j Hj. destruct (put_args_string f sp argv i a Hi) as (p & P1 & P2 & P3 & P4).
    rewrite (Hp i p P1). unfold put_stack. rewrite fwrite_out; [by apply P4|]. rewrite length_frame. unfold frame_sp. lia.
  - replace (frame_sp sp argv + 12 + 4 * Z.of_nat (length argv)) with (frame_sp sp argv + 4 * Z.of_nat (3 + length argv)) by lia.
    apply Hw; [|done]. unfold frame_words. rewrite lookup_app_r by (cbn; lia). cbn [length].
    rewrite lookup_app_r by (rewrite length_arg_ptrs; lia). rewrite length_arg_ptrs.
    by replace (3 + length argv - 3 - length argv)%nat with 0%nat by lia.
Qed.
Lemma put_stack_below f sp argv x : x < frame_sp sp argv -> put_stack f sp argv x = f x.
Proof.
  intros Hx. unfold put_stack. rewrite fwrite_out by lia. apply put_args_below. unfold frame_sp in Hx. lia.
Qed.

Section exec.
Context {T : Type} {BC : BufferCache T}.
#[local] Abbreviation K := (kernel T).
Variable kend : Z.
Hypothesis Hkend : KERNBASE < kend.

Lemma kmem_set (k : kst) (s : K) : kmem (set_kmem k s) = k.
Proof. done. Qed.
Lemma set_kmem_set (k k' : kst) (s : K) : set_kmem k (set_kmem k' s) = set_kmem k s.
Proof. done. Qed.
Lemma wp_onvm {A} (m : M kst A) c (s : K) Q :
  wp m c (kmem s) (fun a c' k => Q a c' (set_kmem k s)) -> wp (onvm m) c s Q.
Proof. apply wp_zoom. Qed.

Lemma image_resize g f pg sz sz' s l : image kend g f pg sz s l -> npages sz' = npages sz -> 0 <= sz' < KERNBASE ->
  image kend g f pg sz' s l.
Proof. intros [A1 A2 A3 A4 A5] E H. by constructor; rewrite ?E. Qed.

Lemma image_guard g g' f pg sz s l : image kend g f pg sz s l -> (forall v, g' v = g v) -> image kend g' f pg sz s l.
Proof. intros [A1 A2 A3 A4 A5] E. constructor; try done; intros; rewrite E in *; eauto. Qed.

(** The strings are pushed, as long as they stay above [lo]. *)
Lemma push_args_wp g pg sz lo l argv : forall f argc sp us c (s : K) (Q : option (Z * list Z) -> ctx -> K -> Prop),
  image kend g f pg sz (kmem s) l -> (forall a, lo <= a < 4096 * npages sz -> g (a / 4096) = false) ->
  0 <= lo -> lo + args_room argv <= sp -> sp <= 4096 * npages sz -> sp mod 4 = 0 ->
  (argc + length argv <= MAXARG)%nat -> Forall (Forall is_u8) argv ->
  (forall k, image kend g (put_args f sp argv) pg sz k l -> moves pg (kmem s) k l l ->
     Q (Some (sp - args_room argv, us ++ arg_ptrs sp argv)) c (set_kmem k s)) ->
  wp (push_args argv argc pg sp us) c s Q.
Proof.
  induction argv as [|a r IH]; intros f argc sp us c s Q I Hg H0 Hlo Hsp Hm Hn Hb HQ; cbn [push_args].
  - wp_step. cbn in HQ. rewrite Z.sub_0_r, app_nil_r in HQ.
    replace s with (set_kmem (kmem s) s) by (by destruct s as [[? [? ?] ?] ? ?]). by apply HQ.
  - cbn [args_room fold_right arg_ptrs put_args length] in *. fold (args_room r) in *.
    apply Forall_cons in Hb as [Ha Hb]. pose proof (args_room_pos r). pose proof (arg_room_pos a).
    pose proof (im_sz _ _ _ _ _ _ _ I) as Hz.
    assert (Hu : is_u32 sp) by (unfold is_u32, npages, KERNBASE in *; Z.div_mod_to_equations; lia).
    rewrite (proj2 (Nat.leb_gt _ _)) by lia. rewrite next_sp by (done || lia). wp_step. apply wp_onvm.
    eapply wp_mono; [|apply (image_copyout kend g f pg sz _ _ c _ l I)].
    + intros x ? k (-> & -> & I' & Mv). cbn [Z.ltb]. change (0 <? 0) with false. cbv iota.
      apply (IH (fwrite f (sp - arg_room a) (a ++ [0]))); rewrite ?kmem_set; try done; try lia.
      * unfold arg_room in *. Z.div_mod_to_equations. lia.
      * intros k' I2 M2. rewrite set_kmem_set.
        replace (sp - arg_room a - args_room r) with (sp - (arg_room a + args_room r)) by lia. rewrite <- app_assoc.
        apply HQ; [done|]. by apply (moves_trans pg _ k _ _ l).
    + apply Forall_app. split; [done|]. by constructor.
    + lia.
    + rewrite length_app. cbn [length]. lia.
    + intros x Hx. rewrite length_app in Hx. cbn [length] in Hx. apply Hg. lia.
Qed.

(** The stack of a new program: two pages, the lower one closed. *)
Definition stack_top (sz : Z) : Z := 4096 * npages sz + 8192.
Definition guard (sz v : Z) : bool := v =? npages sz.

Lemma build_stack_wp f pg sz argv l c (s : K) (Q : option (Z * Z) -> ctx -> K -> Prop) :
  image kend (fun _ => false) f pg sz (kmem s) l -> Lkmem ∉ held c -> stack_top sz < KERNBASE ->
  args_room argv + 4 * (4 + Z.of_nat (length argv)) <= 4096 -> (length argv <= MAXARG)%nat ->
  Forall (Forall is_u8) argv ->
  (forall k l', moves pg (kmem s) k l l' ->
     image kend (guard sz) (put_stack (fzero f (4096 * npages sz)) (stack_top sz) argv) pg (stack_top sz) k l' ->
     Q (Some (stack_top sz, frame_sp (stack_top sz) argv)) c (set_kmem k s)) ->
  (forall k l', moves pg (kmem s) k l l' -> uinv kend k pg l' -> Z.of_nat (length l) <= 1026 -> Q None c (set_kmem k s)) ->
  wp (build_stack kend pg sz argv) c s Q.
Proof using Hkend.
  intros I Hc Ht Hr Hn Hb HS HN. pose proof (im_sz _ _ _ _ _ _ _ I) as Hz. pose proof (args_room_pos argv) as Hp.
  unfold stack_top, guard, frame_sp in *. unfold KERNBASE in *.
  assert (Er : PGROUNDUP sz = 4096 * npages sz) by (rewrite PGROUNDUP_eq; unfold npages in *; wrap_lia).
  set (n := npages sz) in *. assert (Hn0 : 0 <= n) by (unfold n, npages; Z.div_mod_to_equations; lia).
  assert (En : npages (4096 * n) = n) by (unfold npages; Z.div_mod_to_equations; lia).
  assert (En2 : npages (4096 * n + 8192) = n + 2) by (unfold npages; Z.div_mod_to_equations; lia).
  unfold build_stack. rewrite Er. wp_step. apply wp_onvm. unfold PGSIZE. rewrite u32_small by (unfold is_u32; lia).
  change (2 * 4096) with 8192.
  eapply wp_mono; [|apply (image_alloc kend Hkend (fun _ => false) f pg (4096 * n) (4096 * n + 8192) c _ l); [|done|unfold KERNBASE; lia|done]].
  2: { apply (image_resize _ _ _ sz); [done|done|unfold KERNBASE; lia]. }
  rewrite En. intros r ? k (-> & l' & Mv & [(-> & I1)|(-> & I1 & Hlen)]).
  2: { cbn [Z.eqb]. wp_step. eapply HN; [done|apply I1|lia]. }
  rewrite (proj2 (Z.eqb_neq _ 0)) by lia. wp_step. apply wp_onvm. rewrite u32_small by (unfold is_u32; lia).
  replace (4096 * n + 8192 - 8192) with (4096 * n) by lia.
  eapply wp_mono; [|apply (image_clearpteu kend _ _ pg (4096 * n + 8192) n c _ l' I1); [lia|done]].
  intros _ ? k2 (-> & I2 & M2). rewrite ?kmem_set, ?set_kmem_set in *. wp_step.
  apply (image_guard _ (fun v => v =? n)) in I2; [|intros v; by rewrite orb_false_r].
  apply (push_args_wp _ pg (4096 * n + 8192) (4096 * n + 4096) l' argv _ 0 _ [] c (set_kmem k2 s) _ I2);
    rewrite ?En2, ?kmem_set; try lia.
  { intros a Ha. apply Z.eqb_neq. Z.div_mod_to_equations. lia. }
  { Z.div_mod_to_equations. lia. }
  { done. }
  intros k3 I3 M3. rewrite ?set_kmem_set. cbn [app]. wp_step. apply wp_onvm. rewrite kmem_set.
  assert (Hu : forall x, 0 <= x <= 4096 * n + 8192 -> u32 x = x) by (intros; apply u32_small; unfold is_u32; lia).
  rewrite !Hu by lia.
  set (sp := 4096 * n + 8192 - args_room argv - (3 + Z.of_nat (length argv) + 1) * 4).
  assert (Es : sp = frame_sp (4096 * n + 8192) argv) by (unfold sp, frame_sp; lia).
  match goal with |- context [copyout _ _ ?w] => assert (Ew : w = words (frame_words (4096 * n + 8192) argv)) end.
  { unfold words, frame_words. rewrite (Z.mul_comm 4). done. }
  rewrite Ew, Es. clear Ew. clearbody sp. subst sp.
  eapply wp_mono; [|apply (image_copyout kend _ _ pg (4096 * n + 8192) _ _ c _ l' I3); rewrite ?length_frame, ?En2;
    [apply words_u8|unfold frame_sp; lia|unfold frame_sp; lia|]].
  - intros x ? k4 (-> & -> & I4 & M4). change (0 <? 0) with false. wp_step. rewrite ?set_kmem_set.
    apply (HS k4 l'); [|done]. apply (moves_trans pg _ k _ _ l'); [done|]. apply (moves_trans pg _ k2 _ _ l'); [done|].
    by apply (moves_trans pg _ k3 _ _ l').
  - unfold frame_sp. intros a Ha. apply Z.eqb_neq. Z.div_mod_to_equations. lia.
Qed.

(** C30: The stack of a new program.  Above an image of [sz] bytes [build_stack]
    either maps two zeroed pages, the lower of them closed to the user, and
    leaves on the upper one what the program's [main] expects at its stack
    pointer: the return address 0xffffffff, [argc], [argv] and the strings it
    points to, ended by a null pointer.  The image below is as before.  Or it
    runs out of memory, and the new pages can be freed with the directory;
    that takes a free list too short for two pages and a full set of tables.
    Only pages of this address space and of the free list are touched. *)
Theorem build_stack_correct f pg sz argv l c (s : K) :
  image kend (fun _ => false) f pg sz (kmem s) l -> Lkmem ∉ held c -> stack_top sz < KERNBASE ->
  args_room argv + 4 * (4 + Z.of_nat (length argv)) <= 4096 -> (length argv <= MAXARG)%nat ->
  Forall (Forall is_u8) argv ->
  wp (build_stack kend pg sz argv) c s (fun r c' s' => c' = c /\ exists k l',
    s' = set_kmem k s /\ moves pg (kmem s) k l l' /\
    match r with
    | Some (top, sp) => top = stack_top sz /\ top - 4096 <= sp <= top - 16 /\ sp mod 4 = 0 /\
        exists f', image kend (guard sz) f' pg top k l' /\ args_at f' sp argv /\
          (forall a, a < 4096 * npages sz -> f' a = f a) /\ (forall a, 4096 * npages sz <= a < sp -> f' a = 0)
    | None => uinv kend k pg l' /\ Z.of_nat (length l) <= 1026
    end).
Proof using Hkend.
  intros I Hc Ht Hr Hn Hb. pose proof (im_sz _ _ _ _ _ _ _ I) as Hz. pose proof (args_room_pos argv) as Hp.
  assert (H0 : 0 <= npages sz) by (unfold npages; Z.div_mod_to_equations; lia).
  apply (build_stack_wp f pg sz argv l); try done.
  - intros k l' Mv I'. split; [done|]. exists k, l'. split_and!; try done; [unfold frame_sp; lia|unfold frame_sp; lia| |].
    { unfold frame_sp, stack_top. rewrite Zminus_mod, (Zminus_mod _ (args_room argv)), args_room_mod.
      Z.div_mod_to_equations. lia. }
    eexists. split; [exact I'|]. split.
    + apply put_stack_args; unfold is_u32, frame_sp, stack_top, KERNBASE in *; lia.
    + split; intros a Ha; (rewrite put_stack_below; [unfold fzero; by zcases|]); [|lia].
      unfold frame_sp, stack_top. lia.
  - intros k l' Mv U Hlen. split; [done|]. by exists k, l'.
Qed.
End exec.

(** * An example: [echo hi] on an empty image, with 1200 free pages *)
Definition ex_args : list (list Z) := [[101; 99; 104; 111]; [104; 105]].

Lemma zero_pte pg v : pte (fun _ => 0) pg v = 0.
Proof. by rewrite table_of_pte. Qed.
Lemma zero_uinv : uinv (kpage 0) (Kst (fun _ => 0) 1 0) (kpage 4) [].
Proof.
  assert (Hu : upages (fun _ => 0) (kpage 4) = []) by (apply upages_none; intros; by rewrite zero_pte).
  assert (Ht : tabs (fun _ => 0) (kpage 4) = []) by by apply tabs_none.
  assert (Hn : NoDup [kpage 4]) by by_decide.
  constructor; [constructor|..]; simpl; rewrite ?Ht, ?Hu; try done. constructor; [apply zero_wf|done|done|constructor].
Qed.
Lemma zero_low q : q ∈ own_pages (fun _ => 0) (kpage 4) -> q + 4096 <= kpage 100.
Proof.
  unfold own_pages. rewrite upages_none by (intros; by rewrite zero_pte). rewrite tabs_none by done.
  intros ->%list_elem_of_singleton. unfold kpage. lia.
Qed.
Lemma zero_image n : Z.of_nat n <= 2000 ->
  image (kpage 0) (fun _ => false) (fun _ => 0) (kpage 4) 0 (with_free (fun _ => 0) n) (many n).
Proof.
  intros Hn. constructor; [|done|..]; change (npages 0) with 0; [|lia| |lia].
  - by apply with_free_uinv; [|..|apply zero_uinv|apply zero_low].
  - intros v Hv. rewrite (kept_pte (fun _ => 0)); [apply zero_pte|by apply with_free_kept, zero_low|unfold is_vpn; lia].
Qed.

Lemma build_stack_correct_witness :
  wp (build_stack (kpage 0) (kpage 4) 0 ex_args) ctx0 (set_kmem (with_free (fun _ => 0) 1200) ex_kernel) (fun r c' s' =>
    c' = ctx0 /\ exists sp f l', r = Some (8192, sp) /\ 4096 <= sp < 8192 /\
      image (kpage 0) (guard 0) f (kpage 4) 8192 (kmem s') l' /\ uword f (sp + 4) = 2).
Proof.
  eapply wp_mono; [|apply (build_stack_correct (kpage 0) eq_refl (fun _ => 0) (kpage 4) 0 ex_args (many 1200) ctx0)].
  - intros r c' s' (-> & k & l' & -> & _ & Hr). split; [done|]. destruct r as [[top sp]|].
    2: { destruct Hr as [_ Hlen]. exfalso. rewrite length_many in Hlen. lia. }
    destruct Hr as (-> & Hs & _ & f & I & A & _). change (stack_top 0) with 8192 in *.
    exists sp, f, l'. split_and!; [done|lia|lia|done|]. apply (aa_argc _ _ _ A).
  - apply (zero_image 1200). lia.
  - by apply not_elem_of_nil.
  - done.
  - done.
  - unfold MAXARG, ex_args. cbn. lia.
  - repeat constructor; done.
Defined.
