(* ===== verification/SysFile.v ===== *)
(** * File system calls (sysfile.c)
    Each system call as a whole: its arguments from the memory of the calling
    process, the file operations, and the results stored through user
    pointers. *)
From stdpp Require Import functions.
From S2P Require Import Prelude CString Mmu Kalloc Vm PageTable UserVm CopyVm Pipe Block Sleeplock Log Buffers.
From S2P Require Import Fs File Proc Kernel Exec Syscall.

(** Flags of [open] (fcntl.h). *)
Definition O_RDONLY : Z := 0.
Definition O_WRONLY : Z := 1.
Definition O_RDWR : Z := 2.
Definition O_CREATE : Z := 512.
Definition ch_dot : Z := 46.

Section sysfile.
Context {T : Type} {BC : BufferCache T}.
#[local] Notation K := (kernel T).
Variables (kend kdata : Z).
Variable devread : Z -> option (nat -> Z -> M (fsst T) (Z * list Z)).
Variable devwrite : Z -> option (nat -> list Z -> M (fsst T) Z).
(** [myproc()]. *)
Variable cur : nat.

(** What the argument routines see of the process. *)
Definition uproc_of (s : K) : uproc :=
  let p := procs (kpt s) cur in
  Uproc (psz p) (fun a => ubyte (kmemory (kmem s)) (pgdir p) a) (tf_esp (tf p)).
Definition arg {A} (f : uproc -> A) : M K A := gets (fun s => f (uproc_of s)).

(** Stores through a user pointer. *)
Fixpoint ustore (m : mem) (pg a : Z) (bs : list Z) : mem :=
  match bs with
  | [] => m
  | b :: bs' => ustore (store8 m (P2V (PTE_ADDR (pte m pg (a / 4096))) + a mod 4096) b) pg (a + 1) bs'
  end.
Definition put_user (a : Z) (bs : list Z) : M K unit :=
  pg ← onpt (getp cur pgdir);
  onvm (modify (fun s => set_memory (ustore (kmemory s) pg a bs) s)).
(** The bytes behind a user pointer. *)
Definition get_user (a : Z) (n : Z) : M K (list Z) := arg (fun u => bytes_at (umem u) a (Z.to_nat n)).

Definition argfd (n : Z) : M K (option (nat * nat)) :=
  a ← arg (fun u => argint u n);
  match a with
  | None => mret None
  | Some fd =>
      if (fd <? 0) || (fd >=? Z.of_nat NOFILE) then mret None
      else
        f ← onpt (getp cur (fun p => ofile p (Z.to_nat fd)));
        mret (option_map (fun f => (Z.to_nat fd, f)) f)
  end.

(** The scan of [fdalloc]. *)
Fixpoint free_fd (n fd : nat) (o : nat -> option nat) : option nat :=
  match n with
  | O => None
  | S n' => match o fd with None => Some fd | Some _ => free_fd n' (S fd) o end
  end.
Definition fdalloc (f : nat) : M K Z :=
  o ← onpt (getp cur ofile);
  match free_fd NOFILE 0 o with
  | Some fd => onpt (setp cur (set_ofile fd (Some f)));; mret (Z.of_nat fd)
  | None => mret (-1)
  end.

Definition sys_dup : M K Z :=
  r ← argfd 0;
  match r with
  | None => mret (-1)
  | Some (_, f) =>
      fd ← fdalloc f;
      if fd <? 0 then mret (-1) else onfile (filedup f);; mret fd
  end.

Definition sys_read : M K Z :=
  r ← argfd 0;
  n ← arg (fun u => argint u 2);
  match r, n with
  | Some (_, f), Some n =>
      p ← arg (fun u => argptr u 1 n);
      match p with
      | None => mret (-1)
      | Some p => x ← onfile (fileread devread f n); put_user p (snd x);; mret (fst x)
      end
  | _, _ => mret (-1)
  end.

Definition sys_write : M K Z :=
  r ← argfd 0;
  n ← arg (fun u => argint u 2);
  match r, n with
  | Some (_, f), Some n =>
      p ← arg (fun u => argptr u 1 n);
      match p with
      | None => mret (-1)
      | Some p => bs ← get_user p n; onfile (filewrite devwrite f bs)
      end
  | _, _ => mret (-1)
  end.

Definition sys_close : M K Z :=
  r ← argfd 0;
  match r with
  | None => mret (-1)
  | Some (fd, f) =>
      onpt (setp cur (set_ofile fd None));;
      onfile (fileclose kend f);;
      mret 0
  end.

(** [struct stat] in user memory: the fields at their offsets. *)
Definition put_stat (a : Z) (st : stat) : M K unit :=
  put_user (a + 4) (word_bytes (st_dev st));;
  put_user (a + 8) (word_bytes (st_ino st));;
  put_user a (take 2 (word_bytes (st_type st)));;
  put_user (a + 12) (take 2 (word_bytes (st_nlink st)));;
  put_user (a + 16) (word_bytes (st_size st)).
Definition sys_fstat : M K Z :=
  r ← argfd 0;
  p ← arg (fun u => argptr u 1 20);
  match r, p with
  | Some (_, f), Some p =>
      st ← onfile (filestat f);
      match st with
      | Some st => put_stat p st;; mret 0
      | None => mret (-1)
      end
  | _, _ => mret (-1)
  end.

Definition cwd_of : M K nat := onpt (getp cur the_cwd).
Definition knamei (path : list Z) : M K (option nat) := d ← cwd_of; fs (namei devread d path).
Definition knameiparent (path : list Z) : M K (option (nat * list Z)) :=
  d ← cwd_of; fs (nameiparent devread d path).
Definition seti_nlink (ip : nat) (d : Z) : M K unit :=
  fs (seti ip (fun x => set_inlink (i16 (inlink x + d)) x)).

(** [bad:] of [sys_link]. *)
Definition link_bad (ip : nat) : M K Z :=
  fs (ilock ip);;
  seti_nlink ip (-1);;
  fs (iupdate ip);;
  fs (iunlockput ip);;
  fs end_op;;
  mret (-1).
Definition sys_link : M K Z :=
  o ← arg (fun u => argstr u 0);
  n ← arg (fun u => argstr u 1);
  match o, n with
  | Some old, Some new =>
      fs begin_op;;
      r ← knamei old;
      match r with
      | None => fs end_op;; mret (-1)
      | Some ip =>
          fs (ilock ip);;
          t ← fs (geti ip itype);
          if t =? T_DIR then fs (iunlockput ip);; fs end_op;; mret (-1)
          else
            seti_nlink ip 1;;
            fs (iupdate ip);;
            fs (iunlock ip);;
            r ← knameiparent new;
            match r with
            | None => link_bad ip
            | Some (dp, name) =>
                fs (ilock dp);;
                d ← fs (geti dp idev);
                i ← fs (geti ip id);
                if negb (d =? idev i) then fs (iunlockput dp);; link_bad ip
                else
                  k ← fs (dirlink devread devwrite dp name (inum i));
                  if k <? 0 then fs (iunlockput dp);; link_bad ip
                  else fs (iunlockput dp);; fs (iput ip);; fs end_op;; mret 0
            end
      end
  | _, _ => mret (-1)
  end.

(** The loop of [isdirempty]. *)
Fixpoint isdirempty_loop (fuel : nat) (dp : nat) (off : Z) : M (fsst T) bool :=
  match fuel with
  | O => fun _ _ => NoFuel
  | S f =>
      sz ← geti dp isize;
      if off <? sz then
        r ← readi devread dp off DESIZE;
        if negb (fst r =? DESIZE) then panic "isdirempty: readi"
        else if negb (de_inum (snd r) =? 0) then mret false
        else isdirempty_loop f dp (off + DESIZE)
      else mret true
  end.
Definition isdirempty (dp : nat) : M (fsst T) bool :=
  sz ← geti dp isize;
  isdirempty_loop (Z.to_nat (sz / DESIZE + 2)) dp (2 * DESIZE).

(** [bad:] of [sys_unlink]. *)
Definition unlink_bad (dp : nat) : M K Z := fs (iunlockput dp);; fs end_op;; mret (-1).
Definition sys_unlink : M K Z :=
  p ← arg (fun u => argstr u 0);
  match p with
  | None => mret (-1)
  | Some path =>
      fs begin_op;;
      r ← knameiparent path;
      match r with
      | None => fs end_op;; mret (-1)
      | Some (dp, name) =>
          fs (ilock dp);;
          if (namecmp name [ch_dot] =? 0) || (namecmp name [ch_dot; ch_dot] =? 0) then unlink_bad dp
          else
            l ← fs (dirlookup devread dp name);
            match l with
            | None => unlink_bad dp
            | Some (ip, off) =>
                fs (ilock ip);;
                i ← fs (geti ip id);
                if inlink i <? 1 then panic "unlink: nlink < 1" else
                e ← (if itype i =? T_DIR then fs (isdirempty ip) else mret true);
                if negb (e : bool) then fs (iunlockput ip);; unlink_bad dp
                else
                  w ← fs (writei devwrite dp (replicate 16 0) off);
                  if negb (w =? DESIZE) then panic "unlink: writei" else
                  when (itype i =? T_DIR) (seti_nlink dp (-1);; fs (iupdate dp));;
                  fs (iunlockput dp);;
                  seti_nlink ip (-1);;
                  fs (iupdate ip);;
                  fs (iunlockput ip);;
                  fs end_op;;
                  mret 0
            end
      end
  end.

(** [create]: the inode, locked. *)
Definition create (path : list Z) (type major minor : Z) : M K (option nat) :=
  r ← knameiparent path;
  match r with
  | None => mret None
  | Some (dp, name) =>
      fs (ilock dp);;
      l ← fs (dirlookup devread dp name);
      match l with
      | Some (ip, _) =>
          fs (iunlockput dp);;
          fs (ilock ip);;
          t ← fs (geti ip itype);
          if (type =? T_FILE) && (t =? T_FILE) then mret (Some ip)
          else fs (iunlockput ip);; mret None
      | None =>
          dv ← fs (geti dp idev);
          ip ← fs (ialloc dv type);
          fs (ilock ip);;
          fs (seti ip (fun x => set_inlink 1 (set_idevno major minor x)));;
          fs (iupdate ip);;
          i ← fs (geti ip inum);
          when (type =? T_DIR) (
            seti_nlink dp 1;;
            fs (iupdate dp);;
            a ← fs (dirlink devread devwrite ip [ch_dot] i);
            if a <? 0 then panic "create dots" else
            dn ← fs (geti dp inum);
            b ← fs (dirlink devread devwrite ip [ch_dot; ch_dot] dn);
            if b <? 0 then panic "create dots" else mret tt);;
          k ← fs (dirlink devread devwrite dp name i);
          if k <? 0 then panic "create: dirlink" else
          fs (iunlockput dp);;
          mret (Some ip)
      end
  end.

(** The inode [sys_open] opens, locked; [None] after [end_op]. *)
Definition open_inode (path : list Z) (omode : Z) : M K (option nat) :=
  if negb (Z.land omode O_CREATE =? 0) then
    r ← create path T_FILE 0 0;
    match r with Some ip => mret (Some ip) | None => fs end_op;; mret None end
  else
    r ← knamei path;
    match r with
    | None => fs end_op;; mret None
    | Some ip =>
        fs (ilock ip);;
        t ← fs (geti ip itype);
        if (t =? T_DIR) && negb (omode =? O_RDONLY)
        then fs (iunlockput ip);; fs end_op;; mret None
        else mret (Some ip)
    end.
Definition sys_open : M K Z :=
  p ← arg (fun u => argstr u 0);
  m ← arg (fun u => argint u 1);
  match p, m with
  | Some path, Some omode =>
      fs begin_op;;
      r ← open_inode path omode;
      match r with
      | None => mret (-1)
      | Some ip =>
          f ← onfile filealloc;
          fd ← match f with Some f => fdalloc f | None => mret (-1) end;
          if fd <? 0 then
            onfile (close_opt kend f);;
            fs (iunlockput ip);;
            fs end_op;;
            mret (-1)
          else
            fs (iunlock ip);;
            fs end_op;;
            match f with
            | Some f => onfile (setf f (fun x => File FD_INODE (ref x) (Z.land omode O_WRONLY =? 0)
                (negb (Z.land omode O_WRONLY =? 0) || negb (Z.land omode O_RDWR =? 0)) (fpipe x) ip 0))
            | None => mret tt
            end;;
            mret fd
      end
  | _, _ => mret (-1)
  end.

Definition sys_mkdir : M K Z :=
  fs begin_op;;
  p ← arg (fun u => argstr u 0);
  r ← match p with Some path => create path T_DIR 0 0 | None => mret None end;
  match r with
  | None => fs end_op;; mret (-1)
  | Some ip => fs (iunlockput ip);; fs end_op;; mret 0
  end.

Definition sys_mknod : M K Z :=
  fs begin_op;;
  p ← arg (fun u => argstr u 0);
  a ← arg (fun u => argint u 1);
  b ← arg (fun u => argint u 2);
  r ← match p, a, b with
      | Some path, Some major, Some minor => create path T_DEV (i16 major) (i16 minor)
      | _, _, _ => mret None
      end;
  match r with
  | None => fs end_op;; mret (-1)
  | Some ip => fs (iunlockput ip);; fs end_op;; mret 0
  end.

Definition sys_chdir : M K Z :=
  fs begin_op;;
  p ← arg (fun u => argstr u 0);
  r ← match p with Some path => knamei path | None => mret None end;
  match r with
  | None => fs end_op;; mret (-1)
  | Some ip =>
      fs (ilock ip);;
      t ← fs (geti ip itype);
      if negb (t =? T_DIR) then fs (iunlockput ip);; fs end_op;; mret (-1)
      else
        fs (iunlock ip);;
        d ← cwd_of;
        fs (iput d);;
        fs end_op;;
        onpt (setp cur (set_cwd (Some ip)));;
        mret 0
  end.

(** The argument vector of [exec]: [None] for -1. *)
Fixpoint fetch_argv (fuel : nat) (u : uproc) (uargv i : Z) : option (list (list Z)) :=
  match fuel with
  | O => None
  | S f =>
      match fetchint u (u32 (uargv + 4 * i)) with
      | None => None
      | Some a =>
          if u32 a =? 0 then Some []
          else match fetchstr u (u32 a) with
               | None => None
               | Some s => option_map (cons s) (fetch_argv f u uargv (i + 1))
               end
      end
  end.
Definition sys_exec : M K Z :=
  p ← arg (fun u => argstr u 0);
  a ← arg (fun u => argint u 1);
  match p, a with
  | Some path, Some uargv =>
      v ← arg (fun u => fetch_argv MAXARG u (u32 uargv) 0);
      match v with
      | Some argv => exec kend kdata devread cur path argv
      | None => mret (-1)
      end
  | _, _ => mret (-1)
  end.

Definition sys_pipe : M K Z :=
  p ← arg (fun u => argptr u 0 8);
  match p with
  | None => mret (-1)
  | Some p =>
      r ← onfile (pipealloc kend);
      match r with
      | None => mret (-1)
      | Some (rf, wf) =>
          fd0 ← fdalloc rf;
          fd1 ← (if fd0 <? 0 then mret (-1) else fdalloc wf);
          if (fd0 <? 0) || (fd1 <? 0) then
            when (fd0 >=? 0) (onpt (setp cur (set_ofile (Z.to_nat fd0) None)));;
            onfile (fileclose kend rf);;
            onfile (fileclose kend wf);;
            mret (-1)
          else
            put_user p (word_bytes fd0);;
            put_user (p + 4) (word_bytes fd1);;
            mret 0
      end
  end.
End sysfile.
