(* ===== verification/Trap.v ===== *)
(** * System call dispatch and traps (syscall.c: syscall; trap.c: trap) *)
From stdpp Require Import functions.
From S2P Require Import Prelude CString Mmu Kalloc Vm Pipe Block Sleeplock Log Buffers.
From S2P Require Import Fs File Proc Kernel Exec Syscall SysFile.

(** Trap numbers (traps.h). *)
Definition T_SYSCALL : Z := 64.
Definition T_IRQ0 : Z := 32.
Definition IRQ_TIMER : Z := 0.
Definition IRQ_KBD : Z := 1.
Definition IRQ_COM1 : Z := 4.
Definition IRQ_IDE : Z := 14.
Definition IRQ_SPURIOUS : Z := 31.

(** The index into [syscalls[]]; the number 0 and numbers beyond the table
    have no entry. *)
Definition sys_of (num : Z) : option sysno :=
  if (num >? 0) && (num <? Z.of_nat (S (length sysnos))) then sysnos !! Z.to_nat (num - 1) else None.

Section trap.
Context {T : Type} {BC : BufferCache T}.
#[local] Notation K := (kernel T).
Variables (kend kdata trapret forkret : Z).
Variable devread : Z -> option (nat -> Z -> M (fsst T) (Z * list Z)).
Variable devwrite : Z -> option (nat -> list Z -> M (fsst T) Z).
(** The device interrupt handlers. *)
Variables (ideintr kbdintr uartintr : M K unit).

(** The entries of [syscalls[]]. *)
Definition handler (cur : nat) (n : sysno) : M K Z :=
  match n with
  | SYS_fork => fork kend kdata trapret forkret cur
  | SYS_exit => exit kend cur
  | SYS_wait => wait kend cur
  | SYS_pipe => sys_pipe kend cur
  | SYS_read => sys_read devread cur
  | SYS_kill => a ← arg cur (fun u => argint u 0); sys_kill a
  | SYS_exec => sys_exec kend kdata devread cur
  | SYS_fstat => sys_fstat cur
  | SYS_chdir => sys_chdir devread cur
  | SYS_dup => sys_dup cur
  | SYS_getpid => sys_getpid cur
  | SYS_sbrk => a ← arg cur (fun u => argint u 0); sys_sbrk kend cur a
  | SYS_sleep => a ← arg cur (fun u => argint u 0); sys_sleep cur a
  | SYS_uptime => sys_uptime
  | SYS_open => sys_open kend devread devwrite cur
  | SYS_write => sys_write devwrite cur
  | SYS_mknod => sys_mknod devread devwrite cur
  | SYS_unlink => sys_unlink devread devwrite cur
  | SYS_link => sys_link devread devwrite cur
  | SYS_mkdir => sys_mkdir devread devwrite cur
  | SYS_close => sys_close kend cur
  end.

Definition syscall (cur : nat) : M K unit :=
  num ← onpt (getp cur (fun p => i32 (tf_eax (tf p))));
  match sys_of num with
  | Some n => r ← handler cur n; onpt (setp cur (fun p => set_tf (set_eax (u32 r) (tf p)) p))
  | None => onpt (setp cur (fun p => set_tf (set_eax (u32 (-1)) (tf p)) p))
  end.

(** [exit()] if the process has been killed. *)
Definition exit_if_killed (cur : nat) : M K unit :=
  k ← onpt (getp cur killed);
  if (k : bool) then exit kend cur else mret tt.

(** The clock tick of CPU 0. *)
Definition tick : M K unit :=
  acquire Lticks;;
  modify (fun s => Kernel (kfile s) (kpt s) (u32 (ticks s + 1)));;
  onpt (wakeup ChTicks);;
  release Lticks.

(** The switch of [trap]; [cpu] is [cpuid()], [cur] is [myproc()]. *)
Definition trap_irq (cpu : nat) (cur : option nat) (f : trapframe) : M K unit :=
  let n := tf_trapno f in
  if n =? T_IRQ0 + IRQ_TIMER then when (cpu =? 0)%nat tick
  else if n =? T_IRQ0 + IRQ_IDE then ideintr
  else if n =? T_IRQ0 + IRQ_IDE + 1 then mret tt
  else if n =? T_IRQ0 + IRQ_KBD then kbdintr
  else if n =? T_IRQ0 + IRQ_COM1 then uartintr
  else if (n =? T_IRQ0 + 7) || (n =? T_IRQ0 + IRQ_SPURIOUS) then mret tt
  else
    match cur with
    | Some c => if Z.land (tf_cs f) 3 =? 0 then panic "trap" else onpt (setp c (set_killed true))
    | None => panic "trap"
    end.

(** The check of [trap] before and after it yields. *)
Definition exit_killed_user (cur : option nat) (f : trapframe) : M K unit :=
  match cur with
  | Some c =>
      k ← onpt (getp c killed);
      if k && (Z.land (tf_cs f) 3 =? 3) then exit kend c else mret tt
  | None => mret tt
  end.

Definition trap (cpu : nat) (cur : option nat) (f : trapframe) : M K unit :=
  if tf_trapno f =? T_SYSCALL then
    match cur with
    | Some c =>
        exit_if_killed c;;
        onpt (setp c (set_tf f));;
        syscall c;;
        exit_if_killed c
    | None => panic "trap"
    end
  else
    trap_irq cpu cur f;;
    exit_killed_user cur f;;
    match cur with
    | Some c =>
        x ← onpt (getp c state);
        when (bool_decide (x = RUNNING) && (tf_trapno f =? T_IRQ0 + IRQ_TIMER)) (onpt (yield c))
    | None => mret tt
    end;;
    exit_killed_user cur f.
End trap.
