(* ===== verification/Grep.v ===== *)
(** * grep (grep.c)

    The matcher against the language that a pattern denotes, and the loop
    that reads a file in buffers of 1024 bytes against the list of its lines.
    C strings are the lists of their bytes before the NUL; what [read]
    returns, call by call, is the input of the loop and what it writes is its
    output. *)
From S2P Require Import Prelude.

Definition ch_nl : Z := 10.
Definition ch_hat : Z := 94.
Definition ch_dollar : Z := 36.
Definition ch_star : Z := 42.
Definition ch_any : Z := 46.

(** * The code *)

(** The loop of [matchstar]; [here] is [matchhere(re, .)]. *)
Definition matchstar (here : list Z -> bool) (c : Z) : list Z -> bool :=
  fix loop (text : list Z) : bool :=
    if here text then true
    else match text with
         | [] => false
         | t :: text' => if (t =? c) || (c =? ch_any) then loop text' else false
         end.

Fixpoint matchhere (re : list Z) : list Z -> bool :=
  match re with
  | [] => fun _ => true
  | c :: re1 =>
      let one text :=
        if (c =? ch_dollar) && bool_decide (re1 = []) then bool_decide (text = [])
        else match text with
             | [] => false
             | t :: text' => if (c =? ch_any) || (c =? t) then matchhere re1 text' else false
             end in
      match re1 with
      | s :: re2 => if s =? ch_star then matchstar (matchhere re2) c else one
      | [] => one
      end
  end.

(** The loop of [match]. *)
Fixpoint match_any (re text : list Z) : bool :=
  if matchhere re text then true
  else match text with [] => false | _ :: text' => match_any re text' end.

Definition match_ (re text : list Z) : bool :=
  match re with
  | c :: re' => if c =? ch_hat then matchhere re' text else match_any re text
  | [] => match_any re text
  end.

(** [strchr(p, '\n')]: the bytes before the newline and those after it. *)
Fixpoint split_nl (p : list Z) : option (list Z * list Z) :=
  match p with
  | [] => None
  | b :: p' =>
      if b =? ch_nl then Some ([], p')
      else if b =? 0 then None
      else match split_nl p' with Some (l, r) => Some (b :: l, r) | None => None end
  end.

(** The inner loop of [grep]: what is left at [p], and what is written. *)
Fixpoint scan (fuel : nat) (re p : list Z) : list Z * list Z :=
  match split_nl p with
  | None => (p, [])
  | Some (l, r) =>
      match fuel with
      | O => (p, [])
      | S f => let '(rest, out) := scan f re r in
               (rest, (if match_ re l then l ++ [ch_nl] else []) ++ out)
      end
  end.

Definition BUFSZ : nat := 1024.

(** One round of [grep]: the bytes kept in [buf], and what is written. *)
Definition round (re pend chunk : list Z) : list Z * list Z :=
  let data := pend ++ chunk in
  let '(rest, out) := scan (length data) re data in
  (if bool_decide (length rest = length data) then [] else rest, out).

(** [grep]: [reads] are the results of its calls to [read], up to the one
    that returns 0. *)
Fixpoint grep (re pend : list Z) (reads : list (list Z)) : list Z :=
  match reads with
  | [] => []
  | chunk :: reads' => let '(pend', out) := round re pend chunk in out ++ grep re pend' reads'
  end.

(** Reading a file: each [read] returns all that fits, while there is some. *)
Fixpoint file_reads (fuel : nat) (re pend inp : list Z) : list (list Z) :=
  match fuel with
  | O => []
  | S f =>
      let chunk := take (BUFSZ - length pend - 1) inp in
      if bool_decide (chunk = []) then []
      else chunk :: file_reads f re (fst (round re pend chunk)) (drop (length chunk) inp)
  end.

(** * Patterns *)

Inductive item := One (c : Z) | Star (c : Z).
Definition admits (c t : Z) : Prop := c = ch_any \/ c = t.

(** The items of a pattern, and whether it ends with [$]. *)
Fixpoint parse (re : list Z) : list item * bool :=
  match re with
  | [] => ([], false)
  | c :: re1 =>
      let one := if (c =? ch_dollar) && bool_decide (re1 = []) then ([], true)
                 else let '(its, e) := parse re1 in (One c :: its, e) in
      match re1 with
      | s :: re2 => if s =? ch_star then let '(its, e) := parse re2 in (Star c :: its, e) else one
      | [] => one
      end
  end.

(** The texts that a sequence of items denotes. *)
Inductive lang : list item -> list Z -> Prop :=
| lang_nil : lang [] []
| lang_one c t its u : admits c t -> lang its u -> lang (One c :: its) (t :: u)
| lang_star c ts its u : Forall (admits c) ts -> lang its u -> lang (Star c :: its) (ts ++ u).

(** [re] matches a prefix of the text. *)
Definition prefix_match (re text : list Z) : Prop :=
  exists u v, text = u ++ v /\ lang (fst (parse re)) u /\ (snd (parse re) = true -> v = []).

Lemma matchstar_spec here c (P : list Z -> Prop) text : (forall t, here t = true <-> P t) ->
  matchstar here c text = true <-> exists ts r, text = ts ++ r /\ Forall (admits c) ts /\ P r.
Proof.
  intros Hh. induction text as [|t text IH]; cbn [matchstar]; destruct (here _) eqn:E.
  - split; [|done]. intros _. exists [], []. by rewrite <- Hh.
  - split; [done|]. intros (ts & r & Ht & _ & HP). symmetry in Ht. apply app_eq_nil in Ht as [-> ->].
    apply Hh in HP. congruence.
  - split; [|done]. intros _. exists [], (t :: text). by rewrite <- Hh.
  - fold (matchstar here c text). destruct ((t =? c) || (c =? ch_any)) eqn:Ec.
    + rewrite IH. split.
      * intros (ts & r & -> & Hf & HP). exists (t :: ts), r. split; [done|]. split; [|done]. constructor; [|done].
        apply orb_true_iff in Ec as [->%Z.eqb_eq| ->%Z.eqb_eq]; [by right|by left].
      * intros (ts & r & Ht & Hf & HP). destruct ts as [|t' ts]; simplify_eq/=.
        { apply Hh in HP. congruence. }
        apply Forall_cons in Hf as [_ Hf]. by exists ts, r.
    + split; [done|]. intros (ts & r & Ht & Hf & HP). destruct ts as [|t' ts]; simplify_eq/=.
      { apply Hh in HP. congruence. }
      apply Forall_cons in Hf as [Ha _]. apply orb_false_elim in Ec as [E1%Z.eqb_neq E2%Z.eqb_neq].
      destruct Ha; congruence.
Qed.

(** The rule for the common case of one character. *)
Lemma prefix_one c re1 text : ~ (c = ch_dollar /\ re1 = []) -> hd 0 re1 <> ch_star ->
  prefix_match (c :: re1) text <-> exists t text', text = t :: text' /\ admits c t /\ prefix_match re1 text'.
Proof.
  intros Hd Hs. assert (E : parse (c :: re1) = (One c :: fst (parse re1), snd (parse re1))).
  { cbn [parse]. replace ((c =? ch_dollar) && bool_decide (re1 = [])) with false.
    - destruct re1 as [|s re2]; [done|]. rewrite (proj2 (Z.eqb_neq s ch_star)) by done. by destruct (parse (s :: re2)).
    - symmetry. apply andb_false_iff. destruct (decide (re1 = [])) as [Hr|]; [left|right; by apply bool_decide_eq_false].
      apply Z.eqb_neq. intros ->. by apply Hd. }
  unfold prefix_match. rewrite E. cbn [fst snd]. split.
  - intros (u & v & -> & Hl & Hv). inversion Hl as [|? t ? u' Ha Hl'|]; subst. exists t, (u' ++ v). split; [done|].
    split; [done|]. by exists u', v.
  - intros (t & ? & -> & Ha & u & v & -> & Hl & Hv). exists (t :: u), v. split; [done|]. split; [|done].
    by constructor.
Qed.

Lemma prefix_star c re2 text :
  prefix_match (c :: ch_star :: re2) text <->
  exists ts r, text = ts ++ r /\ Forall (admits c) ts /\ prefix_match re2 r.
Proof.
  assert (E : parse (c :: ch_star :: re2) = (Star c :: fst (parse re2), snd (parse re2))).
  { cbn [parse]. rewrite Z.eqb_refl. by destruct (parse re2). }
  unfold prefix_match. rewrite E. cbn [fst snd]. split.
  - intros (u & v & -> & Hl & Hv). inversion Hl as [| |? ts ? u' Hf Hl']; subst. exists ts, (u' ++ v).
    split; [by rewrite app_assoc|]. split; [done|]. by exists u', v.
  - intros (ts & ? & -> & Hf & u & v & -> & Hl & Hv). exists (ts ++ u), v. split; [by rewrite app_assoc|].
    split; [|done]. by constructor.
Qed.

Lemma matchhere_spec re text : matchhere re text = true <-> prefix_match re text.
Proof.
  revert text. induction re as [re IH] using (induction_ltof1 _ (@length Z)); intros text; unfold ltof in IH.
  destruct re as [|c re1].
  { split; [|done]. intros _. exists [], text. split; [done|]. split; [constructor|done]. }
  destruct (decide (hd 0 re1 = ch_star)) as [Hs|Hs].
  { destruct re1 as [|s re2]; [done|]. cbn in Hs. subst s. cbn [matchhere]. rewrite Z.eqb_refl, prefix_star.
    apply matchstar_spec. apply IH. simpl. lia. }
  assert (Em : matchhere (c :: re1) text =
    if (c =? ch_dollar) && bool_decide (re1 = []) then bool_decide (text = [])
    else match text with
         | [] => false
         | t :: text' => if (c =? ch_any) || (c =? t) then matchhere re1 text' else false
         end).
  { cbn [matchhere]. destruct re1 as [|s re2]; [done|]. by rewrite (proj2 (Z.eqb_neq s ch_star)). }
  rewrite Em. clear Em. destruct ((c =? ch_dollar) && bool_decide (re1 = [])) eqn:Ed.
  - apply andb_true_iff in Ed as [->%Z.eqb_eq ->%bool_decide_eq_true]. rewrite bool_decide_eq_true.
    unfold prefix_match. cbn [parse fst snd]. split.
    + intros ->. exists [], []. split; [done|]. split; [constructor|done].
    + intros (u & v & -> & Hl & Hv). inversion Hl. by rewrite Hv.
  - rewrite prefix_one; [|intros [-> ->]; done|done]. destruct text as [|t text].
    + split; [done|]. by intros (? & ? & ? & _).
    + destruct ((c =? ch_any) || (c =? t)) eqn:Ec.
      * rewrite IH by (simpl; lia). split.
        -- intros Hp. exists t, text. split; [done|]. split; [|done].
           apply orb_true_iff in Ec as [->%Z.eqb_eq| ->%Z.eqb_eq]; [by left|by right].
        -- intros (? & ? & ? & _ & Hp). by simplify_eq.
      * split; [done|]. intros (? & ? & ? & Ha & _). simplify_eq.
        apply orb_false_elim in Ec as [E1%Z.eqb_neq E2%Z.eqb_neq]. by destruct Ha.
Qed.

Lemma match_any_spec re text : match_any re text = true <-> exists a b, text = a ++ b /\ prefix_match re b.
Proof.
  induction text as [|t text IH]; cbn [match_any]; destruct (matchhere re _) eqn:E.
  - split; [|done]. intros _. exists [], []. split; [done|]. by apply matchhere_spec.
  - split; [done|]. intros (a & b & Hab & Hp). symmetry in Hab. apply app_eq_nil in Hab as [-> ->].
    apply matchhere_spec in Hp. congruence.
  - split; [|done]. intros _. exists [], (t :: text). split; [done|]. by apply matchhere_spec.
  - rewrite IH. split.
    + intros (a & b & -> & Hp). by exists (t :: a), b.
    + intros ([|t' a] & b & Hab & Hp); simplify_eq/=; [|by exists a, b]. apply matchhere_spec in Hp. congruence.
Qed.

(** C35: the matcher decides the language of the pattern: a text matches
    exactly when some part of it, at its start for a pattern with [^] and at
    its end for one with [$], is a word of the pattern, where [.] stands for
    any character and [c*] for any number of [c]. *)
Theorem match_correct re text :
  let hat := bool_decide (hd 0 re = ch_hat) in let body := if hat then tl re else re in
  match_ re text = true <-> exists a u b, text = a ++ u ++ b /\ lang (fst (parse body)) u /\
    (hat = true -> a = []) /\ (snd (parse body) = true -> b = []).
Proof.
  intros hat body. assert (E : match_ re text = if hat then matchhere body text else match_any body text).
  { unfold match_, body, hat. destruct re as [|c re]; [done|]. cbn [hd tl].
    destruct (Z.eqb_spec c ch_hat); [by rewrite bool_decide_true|by rewrite bool_decide_false]. }
  rewrite E. destruct hat.
  - rewrite matchhere_spec. unfold prefix_match. split.
    + intros (u & v & H). exists [], u, v. naive_solver.
    + intros (a & u & b & -> & Hl & Ha & Hb). rewrite Ha by done. by exists u, b.
  - rewrite match_any_spec. unfold prefix_match. split.
    + intros (a & ? & -> & u & b & -> & H). exists a, u, b. naive_solver.
    + intros (a & u & b & -> & Hl & _ & Hb). exists a, (u ++ b). split; [done|]. by exists u, b.
Qed.

(** * Lines *)

(** The lines of a text that end with a newline. *)
Fixpoint lines (p : list Z) : list (list Z) :=
  match p with
  | [] => []
  | b :: p' => if b =? ch_nl then [] :: lines p'
               else match lines p' with [] => [] | l :: ls => (b :: l) :: ls end
  end.

(** The lines that match, each with its newline. *)
Definition matching (re : list Z) (ls : list (list Z)) : list Z :=
  concat ((fun l => l ++ [ch_nl]) <$> filter (fun l => match_ re l = true) ls).

Lemma matching_cons re l ls :
  matching re (l :: ls) = (if match_ re l then l ++ [ch_nl] else []) ++ matching re ls.
Proof. unfold matching. rewrite filter_cons. destruct (match_ re l); [rewrite decide_True by done|rewrite decide_False by done]; done. Qed.

Lemma matching_app re ls ls' : matching re (ls ++ ls') = matching re ls ++ matching re ls'.
Proof. unfold matching. by rewrite filter_app, fmap_app, concat_app. Qed.

Lemma lines_nl l r : ch_nl ∉ l -> lines (l ++ ch_nl :: r) = l :: lines r.
Proof.
  induction l as [|b l IH]; intros Hn; [done|]. apply not_elem_of_cons in Hn as [Hb Hn].
  cbn [app lines]. by rewrite (proj2 (Z.eqb_neq b ch_nl)), IH.
Qed.

Lemma lines_none p : ch_nl ∉ p -> lines p = [].
Proof.
  induction p as [|b p IH]; intros Hn; [done|]. apply not_elem_of_cons in Hn as [Hb Hn].
  cbn [lines]. by rewrite (proj2 (Z.eqb_neq b ch_nl)), IH.
Qed.

Lemma split_nl_spec p : 0 ∉ p ->
  match split_nl p with
  | None => ch_nl ∉ p
  | Some (l, r) => p = l ++ ch_nl :: r /\ ch_nl ∉ l
  end.
Proof.
  induction p as [|b p IH]; intros Hn; cbn [split_nl]; [apply not_elem_of_nil|].
  apply not_elem_of_cons in Hn as [Hb Hn]. destruct (Z.eqb_spec b ch_nl) as [->|Hnl].
  { split; [done|apply not_elem_of_nil]. }
  rewrite (proj2 (Z.eqb_neq b 0)) by done. specialize (IH Hn). destruct (split_nl p) as [[l r]|].
  - destruct IH as [-> Hl]. split; [done|]. by apply not_elem_of_cons.
  - by apply not_elem_of_cons.
Qed.

Lemma scan_none re fuel p : ch_nl ∉ p -> 0 ∉ p -> scan fuel re p = (p, []).
Proof.
  intros Hn H0. pose proof (split_nl_spec p H0) as Hs. destruct fuel; cbn [scan]; destruct (split_nl p) as [[l r]|];
    try done; destruct Hs as [-> _]; set_solver.
Qed.

(** The inner loop writes the matching lines and stops at the last newline. *)
Lemma scan_spec re fuel : forall p, 0 ∉ p -> (length p <= fuel)%nat ->
  exists rest, scan fuel re p = (rest, matching re (lines p)) /\ ch_nl ∉ rest /\
    rest `suffix_of` p /\ (forall z, lines (p ++ z) = lines p ++ lines (rest ++ z)) /\
    (length rest = length p -> ch_nl ∉ p).
Proof.
  induction fuel as [|fuel IH]; intros p H0 Hl; cbn [scan]; pose proof (split_nl_spec p H0) as Hs;
    destruct (split_nl p) as [[l r]|].
  1: { destruct Hs as [-> _]. rewrite length_app in Hl. simpl in Hl. lia. }
  1, 3: exists p; rewrite lines_none by done; done.
  destruct Hs as [-> Hn]. rewrite length_app in Hl. simpl in Hl.
  destruct (IH r) as (rest & -> & R1 & R2 & R3 & R4); [set_solver|lia|].
  exists rest. rewrite lines_nl, matching_cons by done. split; [done|]. split; [done|]. split; [|split].
  - destruct R2 as [k ->]. exists (l ++ ch_nl :: k). by rewrite <- app_assoc.
  - intros z. rewrite <- app_assoc. cbn [app]. by rewrite lines_nl, R3.
  - intros Hlen. apply suffix_length in R2. rewrite length_app in Hlen. simpl in Hlen. lia.
Qed.

Lemma long_line p r : ch_nl ∉ p -> Forall (fun l => (length l < length p)%nat) (lines (p ++ r)) ->
  lines (p ++ r) = lines r.
Proof.
  intros Hn HF. destruct (decide (ch_nl ∈ r)) as [Hin|Hout].
  - exfalso. destruct (list_elem_of_split_l _ _ Hin) as (a & b & -> & Ha).
    rewrite app_assoc, lines_nl in HF by set_solver. apply Forall_cons in HF as [HF _].
    rewrite length_app in HF. lia.
  - rewrite !lines_none; [done|done|set_solver].
Qed.

Lemma grep_file_spec re fuel : forall pend inp, ch_nl ∉ pend -> 0 ∉ pend ++ inp -> (length pend < BUFSZ - 1)%nat ->
  (length inp < fuel)%nat -> Forall (fun l => (length l < BUFSZ - 1)%nat) (lines (pend ++ inp)) ->
  grep re pend (file_reads fuel re pend inp) = matching re (lines (pend ++ inp)).
Proof.
  induction fuel as [|fuel IH]; intros pend inp Hnl H0 Hp Hf HF; [lia|]. cbn [file_reads].
  set (chunk := take (BUFSZ - length pend - 1) inp). set (inp' := drop (length chunk) inp).
  destruct (bool_decide_reflect (chunk = [])) as [Hc|Hc].
  { assert (inp = []) as ->.
    { destruct inp; [done|]. unfold chunk in Hc. destruct (BUFSZ - length pend - 1)%nat eqn:E; [lia|done]. }
    rewrite app_nil_r, lines_none by done. done. }
  assert (Ei : inp = chunk ++ inp').
  { unfold inp', chunk. rewrite length_take. destruct (Nat.le_ge_cases (BUFSZ - length pend - 1) (length inp)).
    - rewrite Nat.min_l by done. by rewrite take_drop.
    - rewrite Nat.min_r, take_ge, drop_all, app_nil_r by done. done. }
  assert (Hcl : (0 < length chunk)%nat) by (destruct chunk; simpl; [done|lia]).
  assert (Hcm : length chunk = ((BUFSZ - length pend - 1) `min` length inp)%nat) by (unfold chunk; apply length_take).
  cbn [grep]. unfold round at 1 2. set (data := pend ++ chunk).
  assert (Ed : pend ++ inp = data ++ inp') by (unfold data; rewrite Ei at 1; by rewrite app_assoc).
  rewrite Ed in H0, HF |- *.
  destruct (scan_spec re (length data) data) as (rest & Es & R1 & R2 & R3 & R4); [set_solver|done|].
  rewrite Es. cbn [fst]. pose proof (suffix_length _ _ R2) as Hrl. 
  assert (Hdl : (length data <= BUFSZ - 1)%nat) by (unfold data; rewrite length_app; lia).
  assert (Hil : (length inp' < fuel)%nat) by (unfold inp'; rewrite length_drop; lia).
  destruct (bool_decide_reflect (length rest = length data)) as [Hsame|Hdiff].
  - specialize (R4 Hsame). assert (El : lines (data ++ inp') = lines inp').
    { destruct (Nat.le_gt_cases (BUFSZ - 1) (length data)).
      - apply long_line; [done|]. eapply Forall_impl; [exact HF|]. intros l Hl. cbv beta in *. lia.
      - assert (inp' = []) as ->; [|rewrite !lines_none; [done|apply not_elem_of_nil|by rewrite app_nil_r]].
        apply nil_length_inv. unfold data in *. rewrite length_app in *. unfold inp'. rewrite length_drop. lia. }
    rewrite (lines_none data) by done. rewrite El in HF |- *. cbn [app matching]. apply IH; try done.
    + apply not_elem_of_nil.
    + set_solver.
    + unfold BUFSZ. simpl. lia.
  - rewrite R3 in HF |- *. apply Forall_app in HF as [_ HF]. rewrite matching_app. f_equal. apply IH; try done.
    + destruct R2 as [k Hk]. rewrite Hk in H0. set_solver.
    + lia.
Qed.

(** Grep of a file prints exactly its matching lines, in order.  The
    file must be text (no NUL) whose lines fit the buffer; a last line
    without a newline is not looked at. *)
Theorem grep_correct re inp : 0 ∉ inp -> Forall (fun l => (length l < BUFSZ - 1)%nat) (lines inp) ->
  grep re [] (file_reads (S (length inp)) re [] inp) = matching re (lines inp).
Proof. intros H0 HF. apply grep_file_spec; try done; [apply not_elem_of_nil|unfold BUFSZ; simpl; lia|lia]. Qed.

(** "abc\nxay\n" and the pattern "a.". *)
Lemma grep_correct_witness :
  grep [97; 46] [] (file_reads 9 [97; 46] [] [97; 98; 99; 10; 120; 121; 10; 97]) = [97; 98; 99; 10].
Proof.
  etransitivity; [apply (grep_correct [97; 46] [97; 98; 99; 10; 120; 121; 10; 97])|done].
  - by_decide.
  - by_decide.
Defined.

(** Reads that end in the middle of a line, as from a pipe, lose the
    beginning of the line: the bytes read so far are dropped whenever they
    contain no newline.  A line that matches is then not printed. *)
Theorem grep_drops_partial re l1 l2 reads : ch_nl ∉ l1 -> ch_nl ∉ l2 -> 0 ∉ l1 ++ l2 ->
  match_ re l2 = false ->
  grep re [] (l1 :: (l2 ++ [ch_nl]) :: reads) = grep re [] reads.
Proof.
  intros H1 H2 H0 Hm. cbn [grep]. unfold round. cbn [app].
  rewrite (scan_none re _ l1) by (done || set_solver). rewrite bool_decide_true by done. cbn [app].
  rewrite length_app, Nat.add_1_r. cbn [scan].
  assert (Es : split_nl (l2 ++ [ch_nl]) = Some (l2, [])).
  { clear -H2 H0. assert (H0' : 0 ∉ l2) by set_solver. clear H0. induction l2 as [|b l2 IH]; [done|].
    apply not_elem_of_cons in H2 as [Hb H2]. apply not_elem_of_cons in H0' as [Hz H0']. cbn [app split_nl].
    by rewrite (proj2 (Z.eqb_neq b ch_nl)), (proj2 (Z.eqb_neq b 0)), IH by done. }
  rewrite Es, Hm. rewrite (scan_none re _ []) by apply not_elem_of_nil.
  rewrite bool_decide_false by (simpl; lia). done.
Qed.

(** "ab" and "c\n" read separately: the line "abc" is not found. *)
Lemma grep_drops_partial_witness :
  grep [97] [] [[97; 98]; [99; 10]] = [] /\ matching [97] (lines [97; 98; 99; 10]) = [97; 98; 99; 10].
Proof.
  split; [|done]. etransitivity; [apply (grep_drops_partial [97] [97; 98] [99] [])|done].
  - by_decide.
  - by_decide.
  - by_decide.
  - done.
Defined.
