(* ===== verification/Ports.v ===== *)
(** * Devices behind I/O ports

    The port instructions of x86.h on a machine whose devices are a state
    [D], and what the drivers rely on in their devices: the keyboard
    controller hands out scan codes in order, the serial port bytes in order,
    and an ATA disk executes the command written to its registers.  The
    drivers are verified for any devices with these properties; an example of
    each is given. *)
From S2P Require Import Prelude.

(** A property of small numbers, checked one by one. *)
Lemma seqZ_check (P : Z -> bool) n : forallb P (seqZ 0 n) = true -> forall i, 0 <= i < n -> P i = true.
Proof.
  intros E i Hi. rewrite forallb_forall in E. apply E, list_elem_of_In, elem_of_seqZ. lia.
Qed.

(** [inb], [outb], and [insl], [outsl] of [n] words as bytes. *)
Class Ports (D : Type) := {
  inb : Z -> D -> Z * D;
  outb : Z -> Z -> D -> D;
  insl : Z -> nat -> D -> list Z * D;
  outsl : Z -> list Z -> D -> D
}.

(** ** The keyboard controller: the scan codes not yet read. *)
Class Keyboard (D : Type) `{Ports D} := {
  scancodes : D -> list Z;
  kbd_wf : forall d, Forall is_u8 (scancodes d);
  kbd_status : forall d, let r := inb 100 d in
    (Z.land r.1 1 <> 0 <-> scancodes d <> []) /\ scancodes r.2 = scancodes d;
  kbd_data : forall d c l, scancodes d = c :: l -> let r := inb 96 d in r.1 = c /\ scancodes r.2 = l
}.

(** ** The serial port: bytes received and sent, and the line control
    register, whose top bit redirects the data port to the divisor. *)
Class Serial (D : Type) `{Ports D} := {
  received : D -> list Z;
  sent : D -> list Z;
  line_control : D -> Z;
  ser_wf : forall d, Forall is_u8 (received d);
  ser_status : forall d, let r := inb 1021 d in
    (Z.land r.1 1 <> 0 <-> received d <> []) /\ r.1 <> 255 /\
    received r.2 = received d /\ sent r.2 = sent d /\ line_control r.2 = line_control d;
  ser_ident : forall d, let r := inb 1018 d in
    received r.2 = received d /\ sent r.2 = sent d /\ line_control r.2 = line_control d;
  ser_data : forall d, Z.testbit (line_control d) 7 = false -> let r := inb 1016 d in
    (received d <> [] -> r.1 = hd 0 (received d)) /\
    received r.2 = tl (received d) /\ sent r.2 = sent d /\ line_control r.2 = line_control d;
  ser_send : forall d c, let d' := outb 1016 c d in
    sent d' = sent d ++ (if Z.testbit (line_control d) 7 then [] else [u8 c]) /\
    received d' = received d /\ line_control d' = line_control d;
  ser_control : forall d c, let d' := outb 1019 c d in
    line_control d' = u8 c /\ received d' = received d /\ sent d' = sent d;
  ser_setup : forall p d c, p ∈ [1017; 1018; 1020] -> let d' := outb p c d in
    received d' = received d /\ sent d' = sent d /\ line_control d' = line_control d
}.

(** ** ATA disks: two drives behind one set of registers.  [sectors d v n] is
    what a read of sector [n] of drive [v] returns from now on; [polls d] is
    the number of status reads before the controller is ready; [phase d] is
    the transfer the last command asks for; [failed d] its error bit. *)
Inductive aphase := PIdle | PIn (drive lba : Z) | POut (drive lba : Z).

Record taskfile := Taskfile { tf_count : Z; tf_lba0 : Z; tf_lba1 : Z; tf_lba2 : Z; tf_dev : Z }.

(** The task-file register behind a port. *)
Definition tf_set (p v : Z) (t : taskfile) : taskfile :=
  let 'Taskfile n l0 l1 l2 dv := t in
  if p =? 498 then Taskfile (u8 v) l0 l1 l2 dv
  else if p =? 499 then Taskfile n (u8 v) l1 l2 dv
  else if p =? 500 then Taskfile n l0 (u8 v) l2 dv
  else if p =? 501 then Taskfile n l0 l1 (u8 v) dv
  else if p =? 502 then Taskfile n l0 l1 l2 (u8 v)
  else t.

Definition tf_lba (t : taskfile) : Z :=
  tf_lba0 t + 256 * tf_lba1 t + 65536 * tf_lba2 t + 16777216 * (tf_dev t mod 16).
Definition tf_drive (t : taskfile) : Z := tf_dev t / 16 mod 2.

(** One sector replaced. *)
Definition upd_sector (f : Z -> Z -> list Z) (v n : Z) (b : list Z) : Z -> Z -> list Z :=
  fun v' n' => if (v' =? v) && (n' =? n) then b else f v' n'.

Class Ata (D : Type) `{Ports D} := {
  sectors : D -> Z -> Z -> list Z;
  tf : D -> taskfile;
  phase : D -> aphase;
  polls : D -> nat;
  failed : D -> bool;
  max_polls : nat;
  ata_polls : forall d, (polls d <= max_polls)%nat;
  ata_wf : forall d v n, length (sectors d v n) = 512%nat /\ Forall is_u8 (sectors d v n);
  ata_status : forall d, let r := inb 503 d in
    (Z.land r.1 192 = 64 <-> polls d = 0%nat) /\
    (polls d = 0%nat -> Z.land r.1 33 <> 0 <-> failed d = true) /\
    polls r.2 = pred (polls d) /\ sectors r.2 = sectors d /\ tf r.2 = tf d /\
    phase r.2 = phase d /\ failed r.2 = failed d;
  ata_reg : forall p v d, p ∈ [498; 499; 500; 501; 502; 1014] -> let d' := outb p v d in
    tf d' = tf_set p v (tf d) /\ sectors d' = sectors d /\ phase d' = phase d /\
    polls d' = polls d /\ failed d' = failed d;
  (* the one-sector commands, given to a ready controller *)
  ata_command : forall v d, polls d = 0%nat -> tf_count (tf d) = 1 -> v = 32 \/ v = 48 ->
    let d' := outb 503 v d in
    phase d' = (if v =? 32 then PIn else POut) (tf_drive (tf d)) (tf_lba (tf d)) /\
    sectors d' = sectors d;
  ata_in : forall d v n, polls d = 0%nat -> failed d = false -> phase d = PIn v n ->
    let r := insl 496 128 d in
    r.1 = sectors d v n /\ phase r.2 = PIdle /\ polls r.2 = 0%nat /\ sectors r.2 = sectors d;
  ata_out : forall d v n bs, phase d = POut v n -> length bs = 512%nat -> Forall is_u8 bs ->
    let d' := outsl 496 bs d in
    phase d' = PIdle /\ sectors d' = upd_sector (sectors d) v n bs
}.

(** ** Example devices *)

(** A keyboard controller that is a queue. *)
Record bytes_queue := BytesQueue { bq : list Z; bq_wf : Forall is_u8 bq }.

Definition bq_tail (q : bytes_queue) : bytes_queue.
Proof. refine (BytesQueue (tl (bq q)) _). destruct q as [[|c l] Hl]; [exact Hl|exact (Forall_inv_tail Hl)]. Defined.

#[export] Instance bq_ports : Ports bytes_queue := {
  inb p q := if p =? 100 then ((if decide (bq q = []) then 0 else 1), q)
             else if p =? 96 then (hd 0 (bq q), bq_tail q) else (0, q);
  outb _ _ q := q;
  insl _ _ q := ([], q);
  outsl _ _ q := q
}.

#[export, refine] Instance bq_keyboard : Keyboard bytes_queue := { scancodes := bq }.
Proof.
  - intros d. apply bq_wf.
  - intros d. cbn. split; [|done]. case_decide as Hd; cbn; [by rewrite Hd|done].
  - intros d c l E. cbn. rewrite E. done.
Defined.

(** A serial port between two lists. *)
Record serial_line := SerialLine {
  sl_in : list Z; sl_out : list Z; sl_lcr : Z; sl_wf : Forall is_u8 sl_in
}.

Definition sl_tail (q : serial_line) : serial_line.
Proof.
  refine (SerialLine (tl (sl_in q)) (sl_out q) (sl_lcr q) _).
  destruct q as [[|c l] o r Hl]; [exact Hl|exact (Forall_inv_tail Hl)].
Defined.

#[export] Instance sl_ports : Ports serial_line := {
  inb p q := if p =? 1021 then ((if decide (sl_in q = []) then 0 else 1), q)
             else if p =? 1016 then (hd 0 (sl_in q), sl_tail q) else (0, q);
  outb p v q :=
    if p =? 1016 then
      SerialLine (sl_in q) (sl_out q ++ (if Z.testbit (sl_lcr q) 7 then [] else [u8 v]))
        (sl_lcr q) (sl_wf q)
    else if p =? 1019 then SerialLine (sl_in q) (sl_out q) (u8 v) (sl_wf q) else q;
  insl _ _ q := ([], q);
  outsl _ _ q := q
}.

#[export, refine] Instance sl_serial : Serial serial_line := {
  received := sl_in; sent := sl_out; line_control := sl_lcr
}.
Proof.
  - intros d. apply sl_wf.
  - intros d. cbn. case_decide as Hd; cbn; [by rewrite Hd|done].
  - done.
  - intros d _. cbn. by split_and!.
  - done.
  - done.
  - intros p d c Hp. rewrite !elem_of_cons, elem_of_nil in Hp. by destruct_or! Hp; subst.
Defined.

(** An ATA disk that is always ready. *)
Record ata_disk := AtaDisk {
  ad_sectors : Z -> Z -> list Z;
  ad_tf : taskfile;
  ad_phase : aphase;
  ad_failed : bool;
  ad_wf : forall v n, length (ad_sectors v n) = 512%nat /\ Forall is_u8 (ad_sectors v n)
}.

Definition sector_data (bs : list Z) : Prop := length bs = 512%nat /\ Forall is_u8 bs.
#[export] Instance sector_data_dec bs : Decision (sector_data bs).
Proof. unfold sector_data, is_u8. apply _. Defined.

Definition ad_write (a : ata_disk) (v n : Z) (bs : list Z) : ata_disk.
Proof.
  refine (AtaDisk (if decide (sector_data bs) then upd_sector (ad_sectors a) v n bs
                   else ad_sectors a) (ad_tf a) PIdle (ad_failed a) _).
  intros v' n'. destruct (decide (sector_data bs)) as [Hb|_]; [|apply ad_wf].
  unfold upd_sector. destruct ((v' =? v) && (n' =? n)); [exact Hb|apply ad_wf].
Defined.

Definition ad_set (a : ata_disk) (t : taskfile) (p : aphase) : ata_disk :=
  AtaDisk (ad_sectors a) t p (ad_failed a) (ad_wf a).

#[export] Instance ad_ports : Ports ata_disk := {
  inb p a := ((if ad_failed a then 65 else 64), a);
  outb p v a :=
    if p =? 503 then
      ad_set a (ad_tf a) ((if v =? 32 then PIn else POut) (tf_drive (ad_tf a)) (tf_lba (ad_tf a)))
    else ad_set a (tf_set p v (ad_tf a)) (ad_phase a);
  insl p n a := match ad_phase a with
                | PIn v m => (ad_sectors a v m, ad_set a (ad_tf a) PIdle)
                | _ => ([], a)
                end;
  outsl p bs a := match ad_phase a with POut v n => ad_write a v n bs | _ => a end
}.

#[export, refine] Instance ad_ata : Ata ata_disk := {
  sectors := ad_sectors; tf := ad_tf; phase := ad_phase; polls _ := 0%nat;
  failed := ad_failed; max_polls := 0%nat
}.
Proof.
  - done.
  - intros d v n. apply ad_wf.
  - intros d. cbn. by destruct (ad_failed d).
  - intros p v d Hp. rewrite !elem_of_cons, elem_of_nil in Hp. by destruct_or! Hp; subst.
  - intros v d _ _ _. done.
  - intros d v n _ _ E. cbn. by rewrite E.
  - intros d v n bs E Hl Hb. cbn. rewrite E. cbn. split; [done|].
    by rewrite decide_True by done.
Defined.
