(* ===== verification/Apic.v ===== *)
(** * Interrupt controllers and the real-time clock (ioapic.c, lapic.c,
    picirq.c)

    The controllers are register files behind memory-mapped words; the
    classes below state what the drivers rely on in them, and the theorems
    say how the machine is configured once the drivers have run. *)
From S2P Require Import Prelude CString Mmu Ports.
#[local] Set Default Proof Using "Type".

(** Reads and writes of a 32-bit device register at an address. *)
Class Mmio (D : Type) := {
  mmio_read : Z -> D -> Z * D;
  mmio_write : Z -> Z -> D -> D
}.

Definition T_IRQ0 : Z := 32.
Definition IRQ_TIMER : Z := 0.
Definition IRQ_KBD : Z := 1.
Definition IRQ_COM1 : Z := 4.
Definition IRQ_IDE : Z := 14.
Definition IRQ_ERROR : Z := 19.
Definition IRQ_SPURIOUS : Z := 31.

(** ** The I/O APIC *)

Definition IOAPIC : Z := 4273995776.
Definition REG_ID : Z := 0.
Definition REG_VER : Z := 1.
Definition REG_TABLE : Z := 16.
Definition INT_DISABLED : Z := 65536.

(** The writable bits of the two words of a redirection entry: vector,
    delivery mode, destination mode, polarity, trigger mode and mask in the
    low word, the destination in the high word. *)
Definition rw_bits (r : Z) : Z := if Z.even r then 110591 else 4278190080.

(** The I/O APIC: a window on a file of registers.  Word 0 of the window
    selects a register, word 4 (at byte 16) is that register. *)
Class IoApic (D : Type) `{Mmio D} := {
  io_sel : D -> Z;
  io_reg : D -> Z -> Z;
  io_select : forall d v, let d' := mmio_write IOAPIC v d in
    io_sel d' = v /\ io_reg d' = io_reg d;
  io_read : forall d, let r := mmio_read (IOAPIC + 16) d in
    r.1 = io_reg d (io_sel d) /\ io_sel r.2 = io_sel d /\ io_reg r.2 = io_reg d;
  io_write : forall d v, REG_TABLE <= io_sel d -> let d' := mmio_write (IOAPIC + 16) v d in
    Z.land (io_reg d' (io_sel d)) (rw_bits (io_sel d)) = Z.land v (rw_bits (io_sel d)) /\
    (forall r, r <> io_sel d -> io_reg d' r = io_reg d r)
}.

Section ioapic.
Context {D : Type} `{Mmio D}.

Definition ioapicread (reg : Z) (d : D) : Z * D :=
  mmio_read (IOAPIC + 16) (mmio_write IOAPIC reg d).

Definition ioapicwrite (reg v : Z) (d : D) : D :=
  mmio_write (IOAPIC + 16) v (mmio_write IOAPIC reg d).

(** The loop of [ioapicinit] from entry [i], [n] entries to go. *)
Fixpoint ioapicinit_loop (n : nat) (i : Z) (d : D) : D :=
  match n with
  | O => d
  | S n' =>
      let d := ioapicwrite (REG_TABLE + 2 * i) (Z.lor INT_DISABLED (T_IRQ0 + i)) d in
      let d := ioapicwrite (REG_TABLE + 2 * i + 1) 0 d in
      ioapicinit_loop n' (i + 1) d
  end.

(** The result tells whether the warning was printed. *)
Definition ioapicinit (ioapicid : Z) (d : D) : bool * D :=
  let '(v, d) := ioapicread REG_VER d in
  let maxintr := Z.land (Z.shiftr v 16) 255 in
  let '(i, d) := ioapicread REG_ID d in
  let id := Z.shiftr i 24 in
  (negb (id =? ioapicid), ioapicinit_loop (Z.to_nat (maxintr + 1)) 0 d).

Definition ioapicenable (irq cpunum : Z) (d : D) : D :=
  let d := ioapicwrite (REG_TABLE + 2 * irq) (T_IRQ0 + irq) d in
  ioapicwrite (REG_TABLE + 2 * irq + 1) (u32 (Z.shiftl cpunum 24)) d.

(** *** What the redirection table says *)

Context `{!IoApic D}.

(** The entry of an interrupt line: masked or not, and the vector,
    trigger, polarity, mode and destination it is delivered with. *)
Definition redir (d : D) (irq : Z) : Z * Z :=
  (Z.land (io_reg d (REG_TABLE + 2 * irq)) (rw_bits 0),
   Z.land (io_reg d (REG_TABLE + 2 * irq + 1)) (rw_bits 1)).

(** Number of the last redirection entry. *)
Definition max_redir (d : D) : Z := Z.land (Z.shiftr (io_reg d REG_VER) 16) 255.

Definition masked (irq : Z) : Z * Z := (INT_DISABLED + T_IRQ0 + irq, 0).
Definition routed (irq cpu : Z) : Z * Z := (T_IRQ0 + irq, cpu * 16777216).

Lemma ioapicread_spec reg d : let r := ioapicread reg d in
  r.1 = io_reg d reg /\ io_reg r.2 = io_reg d.
Proof.
  cbv zeta. unfold ioapicread. destruct (io_select d reg) as [Hs Hr].
  destruct (io_read (mmio_write IOAPIC reg d)) as (H1 & H2 & H3). by rewrite H1, H3, Hs, Hr.
Qed.

Lemma ioapicwrite_spec reg v d : REG_TABLE <= reg -> let d' := ioapicwrite reg v d in
  Z.land (io_reg d' reg) (rw_bits reg) = Z.land v (rw_bits reg) /\
  (forall r, r <> reg -> io_reg d' r = io_reg d r).
Proof.
  intros Hreg. cbv zeta. unfold ioapicwrite. destruct (io_select d reg) as [Hs Hr].
  pose proof (io_write (mmio_write IOAPIC reg d) v) as Hw. rewrite Hs in Hw.
  destruct (Hw Hreg) as [H1 H2]. split; [done|]. intros r Hne. by rewrite H2, Hr.
Qed.

Lemma rw_bits_even i : rw_bits (REG_TABLE + 2 * i) = rw_bits 0.
Proof. unfold rw_bits, REG_TABLE. by rewrite Z.even_add, Z.even_mul. Qed.
Lemma rw_bits_odd i : rw_bits (REG_TABLE + 2 * i + 1) = rw_bits 1.
Proof. unfold rw_bits, REG_TABLE. by rewrite !Z.even_add, Z.even_mul. Qed.

(** Writing the two words of an entry sets it, and no other. *)
Lemma redir_write d irq lo hi : 0 <= irq ->
  let d' := ioapicwrite (REG_TABLE + 2 * irq + 1) hi (ioapicwrite (REG_TABLE + 2 * irq) lo d) in
  redir d' irq = (Z.land lo (rw_bits 0), Z.land hi (rw_bits 1)) /\
  (forall j, j <> irq -> redir d' j = redir d j) /\
  (forall r, r < REG_TABLE -> io_reg d' r = io_reg d r).
Proof.
  intros Hi. cbv zeta. unfold REG_TABLE.
  destruct (ioapicwrite_spec (16 + 2 * irq) lo d ltac:(unfold REG_TABLE; lia)) as [H1 H2].
  set (d1 := ioapicwrite _ lo d) in *.
  destruct (ioapicwrite_spec (16 + 2 * irq + 1) hi d1 ltac:(unfold REG_TABLE; lia)) as [H3 H4].
  set (d2 := ioapicwrite _ hi d1) in *.
  pose proof (rw_bits_even irq) as E0. pose proof (rw_bits_odd irq) as E1.
  unfold REG_TABLE in E0, E1. rewrite E0 in H1. rewrite E1 in H3.
  split_and!.
  - unfold redir, REG_TABLE. rewrite H4 by lia. by rewrite H1, H3.
  - intros j Hj. unfold redir, REG_TABLE. rewrite !H4, !H2 by lia. done.
  - intros r Hr. rewrite H4, H2 by lia. done.
Qed.

Lemma ioapicinit_loop_spec n : forall i d, 0 <= i -> i + Z.of_nat n <= 224 ->
  let d' := ioapicinit_loop n i d in
  (forall j, i <= j < i + Z.of_nat n -> redir d' j = masked j) /\
  (forall j, j < i -> redir d' j = redir d j) /\
  (forall r, r < REG_TABLE -> io_reg d' r = io_reg d r).
Proof.
  induction n as [|n IH]; intros i d Hi Hn; cbn zeta.
  - split_and!; [lia|done|done].
  - cbn [ioapicinit_loop]. cbv zeta.
    destruct (redir_write d i (Z.lor INT_DISABLED (T_IRQ0 + i)) 0 Hi) as (H1 & H2 & H3).
    set (d1 := ioapicwrite _ 0 _) in *.
    destruct (IH (i + 1) d1 ltac:(lia) ltac:(lia)) as (H4 & H5 & H6).
    split_and!.
    + intros j Hj. destruct (Z.eq_dec j i) as [->|Hne]; [|apply H4; lia].
      rewrite H5 by lia. rewrite H1. unfold masked, INT_DISABLED, T_IRQ0.
      rewrite <- Z.add_assoc. f_equal.
      assert (E : forallb (fun i => Z.land (Z.lor 65536 (32 + i)) (rw_bits 0) =? 65536 + (32 + i))
                    (seqZ 0 224) = true) by by vm_compute.
      apply Z.eqb_eq, (seqZ_check _ _ E). lia.
    + intros j Hj. rewrite H5 by lia. apply H2. lia.
    + intros r Hr. rewrite H6 by done. by apply H3.
Qed.

Lemma ioapicenable_spec irq cpu d : 0 <= irq < 224 -> 0 <= cpu < 256 ->
  let d' := ioapicenable irq cpu d in
  redir d' irq = routed irq cpu /\ (forall j, j <> irq -> redir d' j = redir d j) /\
  (forall r, r < REG_TABLE -> io_reg d' r = io_reg d r).
Proof.
  intros Hi Hc. cbv zeta. unfold ioapicenable. cbv zeta.
  destruct (redir_write d irq (T_IRQ0 + irq) (u32 (Z.shiftl cpu 24)) ltac:(lia)) as (H1 & H2 & H3).
  split_and!; [|done|done]. rewrite H1. unfold routed, T_IRQ0. f_equal.
  - assert (E : forallb (fun i => Z.land (32 + i) (rw_bits 0) =? 32 + i) (seqZ 0 224) = true)
      by by vm_compute.
    apply Z.eqb_eq, (seqZ_check _ _ E). lia.
  - assert (E : forallb (fun c => Z.land (u32 (Z.shiftl c 24)) (rw_bits 1) =? c * 16777216)
              (seqZ 0 256) = true) by by vm_compute.
    apply Z.eqb_eq, (seqZ_check _ _ E). lia.
Qed.

(** The kernel's routing of device interrupts, as [main] sets it up: the
    table is initialised, then the console, the serial port and the disk
    enable their lines. *)
Definition route_devices (ioapicid ncpu : Z) (d : D) : D :=
  let d := (ioapicinit ioapicid d).2 in
  let d := ioapicenable IRQ_KBD 0 d in
  let d := ioapicenable IRQ_COM1 0 d in
  ioapicenable IRQ_IDE (ncpu - 1) d.

(** After start-up the I/O APIC delivers exactly the interrupts the
    kernel handles: the keyboard and the serial port to processor 0, the
    disk to the last processor, each with the vector the trap handler
    expects, edge triggered and active high; every other line is masked. *)
Theorem route_devices_correct ioapicid ncpu d irq : max_redir d < 224 -> 14 <= max_redir d ->
  1 <= ncpu <= 256 -> 0 <= irq <= max_redir d ->
  redir (route_devices ioapicid ncpu d) irq =
    if irq =? IRQ_KBD then routed irq 0
    else if irq =? IRQ_COM1 then routed irq 0
    else if irq =? IRQ_IDE then routed irq (ncpu - 1)
    else masked irq.
Proof.
  intros Hm Hm' Hn Hi. unfold route_devices, ioapicinit.
  destruct (ioapicread REG_VER d) as [v d1] eqn:E1.
  pose proof (ioapicread_spec REG_VER d) as [Hv Hd1]. rewrite E1 in Hv, Hd1. cbn [fst snd] in Hv, Hd1.
  destruct (ioapicread REG_ID d1) as [i d2] eqn:E2.
  pose proof (ioapicread_spec REG_ID d1) as [_ Hd2]. rewrite E2 in Hd2. cbn [fst snd] in Hd2.
  cbv zeta. cbn [snd]. subst v. fold (max_redir d).
  assert (H0 : 0 <= max_redir d) by lia.
  destruct (ioapicinit_loop_spec (Z.to_nat (max_redir d + 1)) 0 d2) as (Ha & _ & _); [lia|lia|].
  set (d3 := ioapicinit_loop _ _ _) in *.
  destruct (ioapicenable_spec IRQ_KBD 0 d3) as (Hk & Hk' & _); [unfold IRQ_KBD; lia|lia|].
  set (d4 := ioapicenable IRQ_KBD 0 d3) in *.
  destruct (ioapicenable_spec IRQ_COM1 0 d4) as (Hc & Hc' & _); [unfold IRQ_COM1; lia|lia|].
  set (d5 := ioapicenable IRQ_COM1 0 d4) in *.
  destruct (ioapicenable_spec IRQ_IDE (ncpu - 1) d5) as (He & He' & _); [unfold IRQ_IDE; lia|lia|].
  unfold IRQ_KBD, IRQ_COM1, IRQ_IDE in *.
  zcases; subst; try (by rewrite He', Hc', Hk by lia);
    try (by rewrite He', Hc by lia); [done|].
  rewrite He', Hc', Hk' by lia. apply Ha. lia.
Qed.
End ioapic.

(** [picinit]: both legacy controllers are masked. *)
Definition picinit {D} `{Ports D} (d : D) : D := outb (160 + 1) 255 (outb (32 + 1) 255 d).

(** ** The local APIC *)

Definition ID : Z := 8.
Definition VER : Z := 12.
Definition TPR : Z := 32.
Definition EOI : Z := 44.
Definition SVR : Z := 60.
Definition ENABLE : Z := 256.
Definition ESR : Z := 160.
Definition ICRLO : Z := 192.
Definition INIT : Z := 1280.
Definition STARTUP : Z := 1536.
Definition DELIVS : Z := 4096.
Definition ASSERT : Z := 16384.
Definition LEVEL : Z := 32768.
Definition BCAST : Z := 524288.
Definition ICRHI : Z := 196.
Definition TIMER : Z := 200.
Definition X1 : Z := 11.
Definition PERIODIC : Z := 131072.
Definition PCINT : Z := 208.
Definition LINT0 : Z := 212.
Definition LINT1 : Z := 216.
Definition ERROR : Z := 220.
Definition MASKED : Z := 65536.
Definition TICR : Z := 224.
Definition TDCR : Z := 248.

(** The local APIC at [base]: its registers, the interprocessor interrupts
    it has sent as pairs of destination and command, and how many more reads
    of the command register show the last one on its way. *)
Class Lapic (D : Type) (base : Z) `{Mmio D, Ports D} := {
  l_reg : D -> Z -> Z;
  l_ipis : D -> list (Z * Z);
  l_busy : D -> nat;
  l_max_busy : nat;
  l_busy_le : forall d, (l_busy d <= l_max_busy)%nat;
  l_read : forall d i, i ∈ [ID; VER] -> let r := mmio_read (base + 4 * i) d in
    r.1 = l_reg d i /\ l_reg r.2 = l_reg d /\ l_ipis r.2 = l_ipis d;
  l_status : forall d, let r := mmio_read (base + 4 * ICRLO) d in
    (Z.land r.1 DELIVS = 0 <-> l_busy d = 0%nat) /\ l_busy r.2 = pred (l_busy d) /\
    l_reg r.2 = l_reg d /\ l_ipis r.2 = l_ipis d;
  l_write : forall d i v,
    i ∈ [SVR; TDCR; TIMER; TICR; LINT0; LINT1; PCINT; ERROR; ICRHI; TPR] ->
    let d' := mmio_write (base + 4 * i) v d in
    l_reg d' i = v /\ (forall j, j <> i -> l_reg d' j = l_reg d j) /\ l_ipis d' = l_ipis d;
  l_ack : forall d i v, i ∈ [EOI; ESR] -> let d' := mmio_write (base + 4 * i) v d in
    l_reg d' = l_reg d /\ l_ipis d' = l_ipis d;
  l_command : forall d v, let d' := mmio_write (base + 4 * ICRLO) v d in
    l_reg d' = l_reg d /\ l_ipis d' = l_ipis d ++ [(l_reg d ICRHI, v)];
  (* the ports of the clock are another device's *)
  l_ports : forall p v d, p ∈ [112; 113] -> let d' := outb p v d in
    l_reg d' = l_reg d /\ l_ipis d' = l_ipis d
}.

Section lapic.
Context {D : Type} `{Mmio D, Ports D} (lapic : Z).

Definition lapicw (index value : Z) (d : D) : D :=
  (mmio_read (lapic + 4 * ID) (mmio_write (lapic + 4 * index) value d)).2.

(** The wait for the delivery of an interprocessor interrupt. *)
Fixpoint deliver_loop (fuel : nat) (d : D) : option D :=
  match fuel with
  | O => None
  | S fuel' =>
      let '(v, d) := mmio_read (lapic + 4 * ICRLO) d in
      if negb (Z.land v DELIVS =? 0) then deliver_loop fuel' d else Some d
  end.

Definition lapicinit (fuel : nat) (d : D) : option D :=
  if lapic =? 0 then Some d else
  let d := lapicw SVR (Z.lor ENABLE (T_IRQ0 + IRQ_SPURIOUS)) d in
  let d := lapicw TDCR X1 d in
  let d := lapicw TIMER (Z.lor PERIODIC (T_IRQ0 + IRQ_TIMER)) d in
  let d := lapicw TICR 10000000 d in
  let d := lapicw LINT0 MASKED d in
  let d := lapicw LINT1 MASKED d in
  let '(v, d) := mmio_read (lapic + 4 * VER) d in
  let d := if 4 <=? Z.land (Z.shiftr v 16) 255 then lapicw PCINT MASKED d else d in
  let d := lapicw ERROR (T_IRQ0 + IRQ_ERROR) d in
  let d := lapicw ESR 0 d in
  let d := lapicw ESR 0 d in
  let d := lapicw EOI 0 d in
  let d := lapicw ICRHI 0 d in
  let d := lapicw ICRLO (Z.lor (Z.lor BCAST INIT) LEVEL) d in
  d ← deliver_loop fuel d;
  Some (lapicw TPR 0 d).

Definition lapicid (d : D) : Z * D :=
  if lapic =? 0 then (0, d) else
  let '(v, d) := mmio_read (lapic + 4 * ID) d in (Z.shiftr v 24, d).

Definition lapiceoi (d : D) : D := if lapic =? 0 then d else lapicw EOI 0 d.

Definition CMOS_PORT : Z := 112.
Definition CMOS_RETURN : Z := 113.

(** A little-endian halfword store. *)

(** The warm reset vector, at 40:67. *)
Definition WARM_RESET : Z := P2V (Z.lor (Z.shiftl 64 4) 103).

(** [microdelay] does nothing. *)
Definition lapicstartap (apicid addr : Z) (m : mem) (d : D) : mem * D :=
  let d := outb CMOS_PORT 15 d in
  let d := outb (CMOS_PORT + 1) 10 d in
  let m := store16 m WARM_RESET 0 in
  let m := store16 m (WARM_RESET + 2) (Z.shiftr addr 4) in
  let d := lapicw ICRHI (u32 (Z.shiftl apicid 24)) d in
  let d := lapicw ICRLO (Z.lor (Z.lor INIT LEVEL) ASSERT) d in
  let d := lapicw ICRLO (Z.lor INIT LEVEL) d in
  let d := lapicw ICRHI (u32 (Z.shiftl apicid 24)) d in
  let d := lapicw ICRLO (Z.lor STARTUP (Z.shiftr addr 12)) d in
  let d := lapicw ICRHI (u32 (Z.shiftl apicid 24)) d in
  let d := lapicw ICRLO (Z.lor STARTUP (Z.shiftr addr 12)) d in
  (m, d).

(** *** What the local APIC has been told *)

Context `{!Lapic D lapic}.

(** A register write, as seen in the registers and the interrupts sent. *)
Lemma lapicw_write i v d : i ∈ [SVR; TDCR; TIMER; TICR; LINT0; LINT1; PCINT; ERROR; ICRHI; TPR] ->
  let d' := lapicw i v d in
  l_reg d' i = v /\ (forall j, j <> i -> l_reg d' j = l_reg d j) /\ l_ipis d' = l_ipis d.
Proof.
  intros Hi. cbv zeta. unfold lapicw. destruct (l_write d i v Hi) as (H1 & H2 & H3).
  destruct (l_read (mmio_write (lapic + 4 * i) v d) ID) as (_ & H4 & H5); [by_decide|].
  by rewrite H4, H5.
Qed.
Lemma lapicw_ack i v d : i ∈ [EOI; ESR] ->
  l_reg (lapicw i v d) = l_reg d /\ l_ipis (lapicw i v d) = l_ipis d.
Proof.
  intros Hi. unfold lapicw. destruct (l_ack d i v Hi) as (H1 & H2).
  destruct (l_read (mmio_write (lapic + 4 * i) v d) ID) as (_ & H4 & H5); [by_decide|].
  by rewrite H4, H5.
Qed.
Lemma lapicw_command v d :
  l_reg (lapicw ICRLO v d) = l_reg d /\
  l_ipis (lapicw ICRLO v d) = l_ipis d ++ [(l_reg d ICRHI, v)].
Proof.
  unfold lapicw. destruct (l_command d v) as (H1 & H2).
  destruct (l_read (mmio_write (lapic + 4 * ICRLO) v d) ID) as (_ & H4 & H5); [by_decide|].
  by rewrite H4, H5.
Qed.

Lemma deliver_loop_ok fuel d : (l_busy d < fuel)%nat -> exists d',
  deliver_loop fuel d = Some d' /\ l_reg d' = l_reg d /\ l_ipis d' = l_ipis d.
Proof.
  revert d. induction fuel as [|fuel IH]; intros d Hf; [lia|]. cbn [deliver_loop].
  destruct (l_status d) as (H1 & H2 & H3 & H4).
  destruct (mmio_read (lapic + 4 * ICRLO) d) as [v d1]. cbn [fst snd] in *.
  destruct (Z.eqb_spec (Z.land v DELIVS) 0) as [E|E]; cbn [negb].
  - eauto.
  - assert (l_busy d <> 0%nat) by tauto.
    destruct (IH d1) as (d' & -> & Er & Ep); [lia|]. exists d'. by rewrite Er, Ep.
Qed.

(** One step of reasoning about a sequence of register writes: the last
    write is the one at the head of [lapicw i v d]. *)
Ltac lapic_step :=
  match goal with
  | |- context [l_reg (lapicw ICRLO ?v ?d)] => rewrite (proj1 (lapicw_command v d))
  | |- context [l_ipis (lapicw ICRLO ?v ?d)] => rewrite (proj2 (lapicw_command v d))
  | |- context [l_reg (lapicw EOI ?v ?d)] => rewrite (proj1 (lapicw_ack EOI v d ltac:(by_decide)))
  | |- context [l_ipis (lapicw EOI ?v ?d)] => rewrite (proj2 (lapicw_ack EOI v d ltac:(by_decide)))
  | |- context [l_reg (lapicw ESR ?v ?d)] => rewrite (proj1 (lapicw_ack ESR v d ltac:(by_decide)))
  | |- context [l_ipis (lapicw ESR ?v ?d)] => rewrite (proj2 (lapicw_ack ESR v d ltac:(by_decide)))
  | |- context [l_ipis (lapicw ?i ?v ?d)] =>
      rewrite (proj2 (proj2 (lapicw_write i v d ltac:(by_decide))))
  | |- context [l_reg (lapicw ?i ?v ?d) ?i] =>
      rewrite (proj1 (lapicw_write i v d ltac:(by_decide)))
  | |- context [l_reg (lapicw ?i ?v ?d) ?j] =>
      rewrite (proj1 (proj2 (lapicw_write i v d ltac:(by_decide))) j ltac:(done))
  end.
Ltac lapic_steps := repeat (lapic_step; cbn beta).

(** Initialising the local APIC returns, with the unit enabled and its
    spurious vector set, the timer periodic at the timer vector, the two
    interrupt pins masked, the error vector set, the priority open to every
    interrupt, and one broadcast INIT de-assert sent. *)
Theorem lapicinit_correct fuel d : lapic <> 0 -> (l_max_busy (D := D) (base := lapic) < fuel)%nat ->
  exists d', lapicinit fuel d = Some d' /\
    l_ipis d' = l_ipis d ++ [(0, 558336)] /\
    l_reg d' SVR = 319 /\ l_reg d' TIMER = PERIODIC + 32 /\ l_reg d' TICR = 10000000 /\
    l_reg d' TDCR = X1 /\ l_reg d' LINT0 = MASKED /\ l_reg d' LINT1 = MASKED /\
    l_reg d' ERROR = 51 /\ l_reg d' TPR = 0 /\
    l_reg d' PCINT =
      (if 4 <=? Z.land (Z.shiftr (l_reg d VER) 16) 255 then MASKED else l_reg d PCINT).
Proof.
  intros Hl Hf. unfold lapicinit. rewrite (proj2 (Z.eqb_neq _ _)) by done. cbv zeta.
  set (d1 := lapicw LINT1 _ _).
  destruct (l_read d1 VER ltac:(by_decide)) as (Hv & Hr & Hp).
  destruct (mmio_read (lapic + 4 * VER) d1) as [v d2]. cbn [fst snd] in *.
  assert (Ev : v = l_reg d VER) by (rewrite Hv; unfold d1; by lapic_steps).
  rewrite Ev. clear Hv v Ev.
  match goal with |- context [deliver_loop fuel ?x] => set (d3 := x) end.
  destruct (deliver_loop_ok fuel d3) as (d4 & -> & Hr4 & Hp4).
  { eapply Nat.le_lt_trans; [apply l_busy_le|done]. }
  cbn [option_bind mbind]. eexists; split; [reflexivity|].
  split_and!; lapic_steps; rewrite ?Hr4, ?Hp4; unfold d3;
    destruct (4 <=? Z.land (Z.shiftr (l_reg d VER) 16) 255); lapic_steps;
    rewrite ?Hr, ?Hp; unfold d1; lapic_steps; done.
Qed.

(** Starting another processor sends it, and no one else, the universal
    start-up sequence: INIT asserted, INIT de-asserted, and two start-up
    interrupts carrying the page number of the entry code; the warm reset
    vector points at that code and no other memory changes. *)
Theorem lapicstartap_correct apicid addr m d : 0 <= apicid < 256 -> 0 <= addr < 1048576 ->
  addr mod 4096 = 0 ->
  let '(m', d') := lapicstartap apicid addr m d in
  l_ipis d' = l_ipis d ++
    [(apicid * 16777216, 50432); (apicid * 16777216, 34048);
     (apicid * 16777216, STARTUP + addr / 4096); (apicid * 16777216, STARTUP + addr / 4096)] /\
  load32 m' WARM_RESET = addr / 16 * 65536 /\
  (forall a, ~ (WARM_RESET <= a < WARM_RESET + 4) -> m' a = m a).
Proof.
  intros Hi Ha Hm. unfold lapicstartap. cbv zeta.
  assert (E1 : u32 (Z.shiftl apicid 24) = apicid * 16777216).
  { rewrite Z.shiftl_mul_pow2 by lia. change (2 ^ 24) with 16777216. wrap_lia. }
  assert (E2 : Z.lor STARTUP (Z.shiftr addr 12) = STARTUP + addr / 4096).
  { rewrite Z.shiftr_div_pow2 by lia. change (2 ^ 12) with 4096.
    assert (Hq : 0 <= addr / 4096 < 256) by wrap_lia. revert Hq. generalize (addr / 4096). intros q Hq.
    assert (E : forallb (fun q => Z.lor STARTUP q =? STARTUP + q) (seqZ 0 256) = true)
      by by vm_compute.
    apply Z.eqb_eq, (seqZ_check _ _ E). lia. }
  rewrite E1, E2. split_and!.
  - set (d0 := outb (CMOS_PORT + 1) 10 _).
    assert (Hd0 : l_ipis d0 = l_ipis d).
    { unfold d0. rewrite (proj2 (l_ports (CMOS_PORT + 1) 10 _ ltac:(by_decide))).
      by rewrite (proj2 (l_ports CMOS_PORT 15 _ ltac:(by_decide))). }
    lapic_steps. rewrite Hd0, <- !app_assoc. done.
  - rewrite Z.shiftr_div_pow2 by lia. change (2 ^ 4) with 16.
    unfold load32, store16, store8. zcases. wrap_lia.
  - intros a Hna. unfold store16, store8. zcases.
Qed.
End lapic.

(** ** The real-time clock *)

Definition CMOS_STATA : Z := 10.
Definition CMOS_STATB : Z := 11.
Definition CMOS_UIP : Z := 128.
Definition SECS : Z := 0.
Definition MINS : Z := 2.
Definition HOURS : Z := 4.
Definition DAY : Z := 7.
Definition MONTH : Z := 8.
Definition YEAR : Z := 9.

(** [struct rtcdate] (date.h). *)
Record rtcdate := Rtcdate {
  second : Z; minute : Z; hour : Z; day : Z; month : Z; year : Z
}.
#[export] Instance rtcdate_eq_dec : EqDecision rtcdate.
Proof. solve_decision. Defined.

(** The register of the clock that holds a part of the date. *)
Definition date_reg (t : rtcdate) (r : Z) : option Z :=
  if r =? SECS then Some (second t) else if r =? MINS then Some (minute t)
  else if r =? HOURS then Some (hour t) else if r =? DAY then Some (day t)
  else if r =? MONTH then Some (month t) else if r =? YEAR then Some (year t) else None.

(** The clock: it advances by at most a second per port access, shows the
    date of the current second, and shows the same second again only after a
    whole number of minutes.  [still d] is a number of accesses during which
    it is known to stand still, with no update in progress. *)
Class Rtc (D : Type) `{Ports D} := {
  now : D -> Z;
  clock : Z -> rtcdate;
  statb : D -> Z;
  rsel : D -> Z;
  still : D -> nat;
  rtc_second : forall t t', second (clock t) = second (clock t') -> (t - t') mod 60 = 0;
  rtc_select : forall r d, let d' := outb 112 r d in
    rsel d' = r /\ statb d' = statb d /\ now d <= now d' <= now d + 1 /\
    (still d <> 0%nat -> now d' = now d) /\ (still d <= S (still d'))%nat;
  rtc_read : forall d, let r := inb 113 d in
    (forall v, date_reg (clock (now d)) (rsel d) = Some v -> r.1 = v) /\
    (rsel d = 11 -> r.1 = statb d) /\
    (rsel d = 10 -> still d <> 0%nat -> Z.land r.1 128 = 0) /\
    statb r.2 = statb d /\ now d <= now r.2 <= now d + 1 /\
    (still d <> 0%nat -> now r.2 = now d) /\ (still d <= S (still r.2))%nat
}.

Section cmos.
Context {D : Type} `{Ports D}.

Definition cmos_read (reg : Z) (d : D) : Z * D := inb CMOS_RETURN (outb CMOS_PORT reg d).

Definition fill_rtcdate (d : D) : rtcdate * D :=
  let '(s, d) := cmos_read SECS d in
  let '(mi, d) := cmos_read MINS d in
  let '(h, d) := cmos_read HOURS d in
  let '(dy, d) := cmos_read DAY d in
  let '(mo, d) := cmos_read MONTH d in
  let '(y, d) := cmos_read YEAR d in
  (Rtcdate s mi h dy mo y, d).

(** The loop: two equal readings with no update in progress between them. *)
Fixpoint cmos_loop (fuel : nat) (d : D) : option (rtcdate * D) :=
  match fuel with
  | O => None
  | S fuel' =>
      let '(t1, d) := fill_rtcdate d in
      let '(a, d) := cmos_read CMOS_STATA d in
      if negb (Z.land a CMOS_UIP =? 0) then cmos_loop fuel' d else
      let '(t2, d) := fill_rtcdate d in
      if decide (t1 = t2) then Some (t1, d) else cmos_loop fuel' d
  end.

Definition CONV (x : Z) : Z := Z.shiftr x 4 * 10 + Z.land x 15.

Definition cmostime (fuel : nat) (d : D) : option (rtcdate * D) :=
  let '(sb, d) := cmos_read CMOS_STATB d in
  let bcd := Z.land sb 4 =? 0 in
  '(t1, d) ← cmos_loop fuel d;
  let t1 := if bcd then Rtcdate (CONV (second t1)) (CONV (minute t1)) (CONV (hour t1))
                          (CONV (day t1)) (CONV (month t1)) (CONV (year t1)) else t1 in
  Some (Rtcdate (second t1) (minute t1) (hour t1) (day t1) (month t1) (year t1 + 2000), d).

Context `{!Rtc D}.

(** A step of the clock over [n] port accesses. *)
Definition passes (n : nat) (d d' : D) : Prop :=
  now d <= now d' <= now d + Z.of_nat n /\ statb d' = statb d /\
  ((n <= still d)%nat -> now d' = now d) /\ (still d <= n + still d')%nat.

Lemma passes_trans n m d1 d2 d3 : passes n d1 d2 -> passes m d2 d3 -> passes (n + m) d1 d3.
Proof.
  intros (H1 & H2 & H3 & H4) (K1 & K2 & K3 & K4). split_and!; [lia|lia|congruence| |lia].
  intros Hs. rewrite K3, H3 by lia. done.
Qed.

(** Reading a part of the date gives that part as of some moment during
    the read. *)
Lemma cmos_read_spec reg d : let r := cmos_read reg d in
  passes 2 d r.2 /\
  (exists t, now d <= t <= now r.2 /\ forall v, date_reg (clock t) reg = Some v -> r.1 = v) /\
  (reg = 11 -> r.1 = statb d) /\ (reg = 10 -> (2 <= still d)%nat -> Z.land r.1 128 = 0).
Proof.
  cbv zeta. unfold cmos_read, CMOS_RETURN, CMOS_PORT.
  destruct (rtc_select reg d) as (H1 & H2 & H3 & H4 & H5).
  destruct (rtc_read (outb 112 reg d)) as (K1 & K2 & K3 & K4 & K5 & K6 & K7).
  rewrite H1 in *. split_and!.
  - split_and!; [lia|lia|congruence| |lia]. intros Hs. rewrite K6, H4 by lia. done.
  - exists (now (outb 112 reg d)). split; [lia|done].
  - intros E. rewrite K2 by done. done.
  - intros E Hs. apply K3; [done|lia].
Qed.

(** Read one part: [Hp] is how the clock passes, [t] the moment, [He] the value. *)
Ltac read_part reg d Hp t He :=
  let Hr := fresh in let v := fresh "v" in let d' := fresh "d" in let E := fresh in
  pose proof (cmos_read_spec reg d) as (Hp & (t & Hr & He) & _);
  destruct (cmos_read reg d) as [v d'] eqn:E; cbn [fst snd] in *; clear E;
  specialize (He _ eq_refl).

(** The six parts, each as of some moment during the reading, in order. *)
Lemma fill_rtcdate_spec d : let r := fill_rtcdate d in
  passes 12 d r.2 /\
  exists t1 t2 t3 t4 t5 t6,
    r.1 = Rtcdate (second (clock t1)) (minute (clock t2)) (hour (clock t3))
            (day (clock t4)) (month (clock t5)) (year (clock t6)) /\
    now d <= t1 /\ t1 <= now r.2 /\
    Forall (fun t => t1 <= t <= now r.2) [t2; t3; t4; t5; t6].
Proof.
  cbv zeta. unfold fill_rtcdate.
  read_part SECS d P1 t1 E1. read_part MINS d0 P2 t2 E2. read_part HOURS d1 P3 t3 E3.
  read_part DAY d2 P4 t4 E4. read_part MONTH d3 P5 t5 E5. read_part YEAR d4 P6 t6 E6.
  cbn [fst snd]. split.
  - apply (passes_trans 2 10 _ d0); [done|]. apply (passes_trans 2 8 _ d1); [done|].
    apply (passes_trans 2 6 _ d2); [done|]. apply (passes_trans 2 4 _ d3); [done|].
    by apply (passes_trans 2 2 _ d4).
  - exists t1, t2, t3, t4, t5, t6. subst.
    destruct P1 as (P1 & _), P2 as (P2 & _), P3 as (P3 & _), P4 as (P4 & _), P5 as (P5 & _), P6 as (P6 & _).
    split_and!; [done|lia|lia|]. repeat (apply Forall_cons; split; [lia|]). constructor.
Qed.

Lemma cmos_loop_sound fuel : forall d t d', cmos_loop fuel d = Some (t, d') ->
  statb d' = statb d /\ exists u, now d <= u <= now d' /\ t = clock u.
Proof.
  induction fuel as [|fuel IH]; intros d t d'; [done|]. cbn [cmos_loop].
  destruct (fill_rtcdate_spec d) as (P1 & t1 & t2 & t3 & t4 & t5 & t6 & E1 & Hl & Hu & Hr).
  destruct (fill_rtcdate d) as [r1 d1]. cbn [fst snd] in *.
  destruct (cmos_read_spec CMOS_STATA d1) as (P2 & _ & _ & _).
  destruct (cmos_read CMOS_STATA d1) as [a d2]. cbn [fst snd] in *.
  pose proof (passes_trans _ _ _ _ _ P1 P2) as P12.
  destruct (Z.land a CMOS_UIP =? 0); cbn [negb].
  2: { intros E. destruct (IH _ _ _ E) as (Hb & u & Hu' & ->). destruct P12 as (? & ? & _).
       split; [congruence|]. exists u. split; [lia|done]. }
  destruct (fill_rtcdate_spec d2) as (P3 & u1 & u2 & u3 & u4 & u5 & u6 & E2 & Kl & Ku & Kr).
  destruct (fill_rtcdate d2) as [r2 d3]. cbn [fst snd] in *.
  pose proof (passes_trans _ _ _ _ _ P12 P3) as P. destruct P as (Pn & Pb & _).
  destruct P1 as (Pn1 & _), P2 as (Pn2 & _), P3 as (Pn3 & _).
  case_decide as E.
  - intros [= <- <-]. split; [done|]. exists t1. split; [lia|].
    rewrite E1, E2 in E. injection E as Es _ _ _ _ _. apply rtc_second in Es.
    assert (u1 = t1) by (cbn in Pn; wrap_lia). subst u1.
    rewrite !Forall_cons in Hr. destruct Hr as (? & ? & ? & ? & ? & _).
    assert (t2 = t1 /\ t3 = t1 /\ t4 = t1 /\ t5 = t1 /\ t6 = t1) as (-> & -> & -> & -> & ->) by lia.
    rewrite E1. by destruct (clock t1).
  - intros E'. destruct (IH _ _ _ E') as (Hb & u & Hu' & ->).
    split; [congruence|]. exists u. split; [lia|done].
Qed.

(** A reading while the clock stands still is the date it stands at. *)
Lemma fill_rtcdate_still d : (12 <= still d)%nat -> (fill_rtcdate d).1 = clock (now d).
Proof.
  intros Hs. destruct (fill_rtcdate_spec d) as (P & t1 & t2 & t3 & t4 & t5 & t6 & -> & Hl & Hu & Hr).
  destruct P as (_ & _ & Pn & _). rewrite Pn in * by done.
  rewrite !Forall_cons in Hr. destruct Hr as (? & ? & ? & ? & ? & _).
  assert (t1 = now d) as -> by lia.
  assert (t2 = now d /\ t3 = now d /\ t4 = now d /\ t5 = now d /\ t6 = now d)
    as (-> & -> & -> & -> & ->) by lia.
  by destruct (clock (now d)).
Qed.

Lemma cmos_loop_still fuel d : (26 <= still d)%nat ->
  exists d', cmos_loop (S fuel) d = Some (clock (now d), d').
Proof.
  intros Hs. cbn [cmos_loop]. pose proof (fill_rtcdate_still d ltac:(lia)) as E1.
  destruct (fill_rtcdate_spec d) as ((_ & _ & P1 & P1') & _).
  destruct (fill_rtcdate d) as [r1 d1]. cbn [fst snd] in *.
  destruct (cmos_read_spec CMOS_STATA d1) as ((_ & _ & P2 & P2') & _ & _ & Hb).
  destruct (cmos_read CMOS_STATA d1) as [a d2]. cbn [fst snd] in *.
  unfold CMOS_UIP. rewrite Hb by (done || lia). cbn [Z.eqb negb].
  pose proof (fill_rtcdate_still d2 ltac:(lia)) as E2.
  destruct (fill_rtcdate d2) as [r2 d3]. cbn [fst snd] in *. subst r1 r2.
  rewrite P2, P1 by lia. rewrite decide_True by done. eauto.
Qed.

(** A binary-coded decimal byte. *)
Definition to_bcd (n : Z) : Z := n / 10 * 16 + n mod 10.

(** [t] is the date [x] in the clock's encoding. *)
Definition encodes (bcd : bool) (x t : rtcdate) : Prop :=
  let e := if bcd then to_bcd else fun n => n in
  t = Rtcdate (e (second x)) (e (minute x)) (e (hour x)) (e (day x)) (e (month x)) (e (year x)) /\
  Forall (fun n => 0 <= n < 100) [second x; minute x; hour x; day x; month x; year x].

Lemma CONV_to_bcd n : 0 <= n < 100 -> CONV (to_bcd n) = n.
Proof.
  intros Hn. assert (E : forallb (fun n => CONV (to_bcd n) =? n) (seqZ 0 100) = true)
    by by vm_compute.
  apply Z.eqb_eq, (seqZ_check _ _ E). lia.
Qed.

(** The date read from the clock is never torn, although its six parts
    are read one at a time from a running clock: whatever is returned is the
    date of one single moment during the call, in either encoding; and a
    clock that stands still for the first 28 port accesses is read at once. *)
Theorem cmostime_correct (date : Z -> rtcdate) fuel d :
  (forall t, encodes (Z.land (statb d) 4 =? 0) (date t) (clock t)) ->
  let dated t := Rtcdate (second (date t)) (minute (date t)) (hour (date t)) (day (date t))
                   (month (date t)) (year (date t) + 2000) in
  (forall r d', cmostime fuel d = Some (r, d') -> exists t, now d <= t <= now d' /\ r = dated t) /\
  ((28 <= still d)%nat -> (0 < fuel)%nat ->
     exists d', cmostime fuel d = Some (dated (now d), d')).
Proof.
  intros He. cbv zeta. unfold cmostime.
  destruct (cmos_read_spec CMOS_STATB d) as ((P1 & P2 & P3 & P4) & _ & Hb & _).
  destruct (cmos_read CMOS_STATB d) as [sb d1]. cbn [fst snd] in *. rewrite (Hb eq_refl).
  assert (Hc : forall u, (let t1 := if Z.land (statb d) 4 =? 0
        then Rtcdate (CONV (second (clock u))) (CONV (minute (clock u))) (CONV (hour (clock u)))
               (CONV (day (clock u))) (CONV (month (clock u))) (CONV (year (clock u)))
        else clock u in
      Rtcdate (second t1) (minute t1) (hour t1) (day t1) (month t1) (year t1 + 2000)) =
      Rtcdate (second (date u)) (minute (date u)) (hour (date u)) (day (date u))
        (month (date u)) (year (date u) + 2000)).
  { intros u. destruct (He u) as [Hu Hr]. rewrite !Forall_cons in Hr.
    destruct Hr as (? & ? & ? & ? & ? & ? & _). rewrite Hu.
    destruct (Z.land (statb d) 4 =? 0); cbn [second minute hour day month year];
      rewrite ?CONV_to_bcd by done; done. }
  split.
  - intros r d'. destruct (cmos_loop fuel d1) as [[t d2]|] eqn:E; [|done].
    cbn [mbind option_bind]. intros [= <- <-].
    destruct (cmos_loop_sound _ _ _ _ E) as (_ & u & Hu & ->). exists u. split; [lia|]. apply Hc.
  - intros Hs Hf. destruct fuel as [|fuel]; [lia|].
    destruct (cmos_loop_still fuel d1) as (d2 & ->); [lia|]. cbn [mbind option_bind].
    eexists. rewrite (Hc (now d1)), P3 by lia. reflexivity.
Qed.
End cmos.

(** ** An example machine *)

(** Register files that keep what is written, a local APIC whose interrupts
    are delivered at once, and a clock that ticks every thousand accesses. *)
Record board := Board {
  b_sel : Z; b_io : Z -> Z; b_lapic : Z -> Z; b_ipis : list (Z * Z); b_cmos : Z; b_ticks : Z
}.
Definition LAPIC_EX : Z := 4276092928.

#[export] Instance board_mmio : Mmio board := {
  mmio_read a b :=
    if a =? IOAPIC + 16 then (b_io b (b_sel b), b)
    else if a =? LAPIC_EX + 4 * ICRLO then (0, b)
    else (b_lapic b ((a - LAPIC_EX) / 4), b);
  mmio_write a v b :=
    let 'Board s io l i c t := b in
    if a =? IOAPIC then Board v io l i c t
    else if a =? IOAPIC + 16 then Board s (fun r => if r =? s then v else io r) l i c t
    else if a =? LAPIC_EX + 4 * ICRLO then Board s io l (i ++ [(l ICRHI, v)]) c t
    else if (a =? LAPIC_EX + 4 * EOI) || (a =? LAPIC_EX + 4 * ESR) then b
    else Board s io (fun r => if r =? (a - LAPIC_EX) / 4 then v else l r) i c t
}.

Definition board_clock (t : Z) : rtcdate := Rtcdate (to_bcd (t mod 60)) 0 0 1 1 (to_bcd 24).

#[export] Instance board_ports : Ports board := {
  inb p b :=
    let 'Board s io l i c t := b in
    (if p =? 113 then default 0 (date_reg (board_clock (t / 1000)) c) else 0,
     Board s io l i c (t + 1));
  outb p v b :=
    let 'Board s io l i c t := b in
    Board s io l i (if p =? 112 then v else c) (t + 1);
  insl _ _ b := ([], b);
  outsl _ _ b := b
}.

#[export, refine] Instance board_ioapic : IoApic board := { io_sel := b_sel; io_reg := b_io }.
Proof.
  - by intros [].
  - by intros [].
  - intros [s io l i c t] v Hs.
    change (Z.land (if s =? s then v else io s) (rw_bits s) = Z.land v (rw_bits s) /\
      (forall r, r <> s -> (if r =? s then v else io r) = io r)).
    rewrite Z.eqb_refl. split; [done|]. intros r Hr. by rewrite (proj2 (Z.eqb_neq _ _)).
Defined.

#[export, refine] Instance board_lapic_ok : Lapic board LAPIC_EX := {
  l_reg := b_lapic; l_ipis := b_ipis; l_busy _ := 0%nat; l_max_busy := 0%nat
}.
Proof.
  - done.
  - intros [s io l i c t] j Hj. rewrite !elem_of_cons, elem_of_nil in Hj.
    by destruct Hj as [-> |[-> |[]]].
  - by intros [].
  - intros [s io l i c t] j v Hj. rewrite !elem_of_cons, elem_of_nil in Hj.
    assert (E : mmio_write (LAPIC_EX + 4 * j) v (Board s io l i c t) =
                Board s io (fun r => if r =? j then v else l r) i c t).
    { destruct_or! Hj; try done; subst j; reflexivity. }
    cbv zeta. rewrite E. cbn [b_lapic b_ipis]. rewrite Z.eqb_refl.
    split_and!; [done| |done]. intros k Hk. by rewrite (proj2 (Z.eqb_neq _ _)).
  - intros [s io l i c t] j v Hj. rewrite !elem_of_cons, elem_of_nil in Hj.
    by destruct Hj as [-> |[-> |[]]].
  - by intros [].
  - by intros p v [].
Defined.

Lemma to_bcd_inj a b : 0 <= a < 100 -> 0 <= b < 100 -> to_bcd a = to_bcd b -> a = b.
Proof. intros Ha Hb E. rewrite <- (CONV_to_bcd a), <- (CONV_to_bcd b) by done. by rewrite E. Qed.

#[export, refine] Instance board_rtc : Rtc board := {
  now b := b_ticks b / 1000; clock := board_clock; statb _ := 0; rsel := b_cmos;
  still b := Z.to_nat (999 - b_ticks b mod 1000)
}.
Proof.
  - intros t t' E. cbn in E. apply to_bcd_inj in E; wrap_lia.
  - intros r [s io l i c t]. cbn. split_and!; wrap_lia.
  - intros [s io l i c t]. cbn. split_and!; try wrap_lia.
    + by intros v ->.
    + intros ->. done.
    + intros -> _. done.
Defined.

Definition board0 : board := Board 0 (fun r => if r =? REG_VER then 1507328 else 7) (fun _ => 0) [] 0 0.

Lemma route_devices_correct_witness :
  redir (route_devices 0 2 board0) 14 = routed 14 1 /\
  redir (route_devices 0 2 board0) 3 = masked 3.
Proof.
  split.
  - apply (route_devices_correct 0 2 board0 14); change (max_redir board0) with 23; lia.
  - apply (route_devices_correct 0 2 board0 3); change (max_redir board0) with 23; lia.
Defined.

Lemma lapicinit_correct_witness :
  exists d', lapicinit LAPIC_EX 1 board0 = Some d' /\ l_ipis d' = [(0, 558336)].
Proof.
  destruct (lapicinit_correct LAPIC_EX 1 board0) as (d' & E & Hi & _); [done|vm_compute; lia|].
  exists d'. split; [exact E|exact Hi].
Defined.

Lemma lapicstartap_correct_witness :
  let '(m', d') := lapicstartap LAPIC_EX 1 28672 (fun _ => 0) board0 in
  load32 m' WARM_RESET = 117440512 /\ length (l_ipis d') = 4%nat.
Proof.
  pose proof (lapicstartap_correct LAPIC_EX 1 28672 (fun _ => 0) board0) as T.
  destruct (lapicstartap LAPIC_EX 1 28672 (fun _ => 0) board0) as [m' d'].
  destruct T as (Hi & Hw & _); [lia|lia|reflexivity|]. rewrite Hi. split; [exact Hw|reflexivity].
Defined.

Lemma cmostime_correct_witness :
  exists d', cmostime 1 board0 = Some (Rtcdate 0 0 0 1 1 2024, d').
Proof.
  refine (proj2 (cmostime_correct (fun t => Rtcdate (t mod 60) 0 0 1 1 24) 1 board0 _) _ _).
  - intros t. split; [reflexivity|]. cbn. repeat (apply Forall_cons; split; [wrap_lia|]). constructor.
  - vm_compute. lia.
  - lia.
Defined.
