(* ===== verification/Kbd.v ===== *)
(** * Keyboard and serial port (kbd.c, kbd.h, uart.c)

    The two drivers that feed the console.  Each hands [consoleintr] a
    routine that returns the next character, or -1 when there is none; the
    theorems follow scan codes and received bytes through the driver and the
    console's line editor to the reader. *)
From S2P Require Import Prelude CString Mmu Console Ports Apic.
#[local] Set Default Proof Using "Type".

(** ** Key tables (kbd.h) *)

Definition KBSTATP : Z := 100.
Definition KBS_DIB : Z := 1.
Definition KBDATAP : Z := 96.

Definition SHIFT : Z := 1.
Definition CTL : Z := 2.
Definition ALT : Z := 4.
Definition CAPSLOCK : Z := 8.
Definition NUMLOCK : Z := 16.
Definition SCROLLLOCK : Z := 32.
Definition E0ESC : Z := 64.

(** An initialised 256-entry array: the entries from index 0 on, then the
    designated ones. *)
Definition table (l : list Z) (des : list (nat * Z)) : list Z :=
  foldl (fun t p => <[p.1 := p.2]> t) (l ++ replicate (256 - length l) 0) des.

Definition shiftcode : list Z := table []
  [(29%nat, CTL); (42%nat, SHIFT); (54%nat, SHIFT); (56%nat, ALT); (157%nat, CTL); (184%nat, ALT)].

Definition togglecode : list Z := table []
  [(58%nat, CAPSLOCK); (69%nat, NUMLOCK); (70%nat, SCROLLLOCK)].

Definition normalmap : list Z := table
  [0; 27; 49; 50; 51; 52; 53; 54; 55; 56; 57; 48; 45; 61; 8; 9;
   113; 119; 101; 114; 116; 121; 117; 105; 111; 112; 91; 93; 10; 0; 97; 115;
   100; 102; 103; 104; 106; 107; 108; 59; 39; 96; 0; 92; 122; 120; 99; 118;
   98; 110; 109; 44; 46; 47; 0; 42; 0; 32; 0; 0; 0; 0; 0; 0;
   0; 0; 0; 0; 0; 0; 0; 55; 56; 57; 45; 52; 53; 54; 43; 49;
   50; 51; 48; 46; 0; 0; 0; 0]
  [(156%nat, 10); (181%nat, 47); (200%nat, 226); (208%nat, 227); (201%nat, 230); (209%nat, 231);
   (203%nat, 228); (205%nat, 229); (151%nat, 224); (207%nat, 225); (210%nat, 232); (211%nat, 233)].

Definition shiftmap : list Z := table
  [0; 27; 33; 64; 35; 36; 37; 94; 38; 42; 40; 41; 95; 43; 8; 9;
   81; 87; 69; 82; 84; 89; 85; 73; 79; 80; 123; 125; 10; 0; 65; 83;
   68; 70; 71; 72; 74; 75; 76; 58; 34; 126; 0; 124; 90; 88; 67; 86;
   66; 78; 77; 60; 62; 63; 0; 42; 0; 32; 0; 0; 0; 0; 0; 0;
   0; 0; 0; 0; 0; 0; 0; 55; 56; 57; 45; 52; 53; 54; 43; 49;
   50; 51; 48; 46; 0; 0; 0; 0]
  [(156%nat, 10); (181%nat, 47); (200%nat, 226); (208%nat, 227); (201%nat, 230); (209%nat, 231);
   (203%nat, 228); (205%nat, 229); (151%nat, 224); (207%nat, 225); (210%nat, 232); (211%nat, 233)].

Definition ctlmap : list Z := table
  [0; 0; 0; 0; 0; 0; 0; 0; 0; 0; 0; 0; 0; 0; 0; 0;
   17; 23; 5; 18; 20; 25; 21; 9; 15; 16; 0; 0; 13; 0; 1; 19;
   4; 6; 7; 8; 10; 11; 12; 0; 0; 0; 0; 28; 26; 24; 3; 22;
   2; 14; 13; 0; 0; 239; 0; 0]
  [(156%nat, 13); (181%nat, 239); (200%nat, 226); (208%nat, 227); (201%nat, 230); (209%nat, 231);
   (203%nat, 228); (205%nat, 229); (151%nat, 224); (207%nat, 225); (210%nat, 232); (211%nat, 233)].

Definition at_ (t : list Z) (i : Z) : Z := nth (Z.to_nat i) t 0.

(** [charcode[i]]. *)
Definition charcode (i : Z) : list Z :=
  if i =? 0 then normalmap else if i =? 1 then shiftmap else ctlmap.

(** ** The keyboard driver *)

(** Lower case to upper case and back. *)
Definition swap_case (c : Z) : Z :=
  if (97 <=? c) && (c <=? 122) then c - 32
  else if (65 <=? c) && (c <=? 90) then c + 32 else c.

(** What [kbdgetc] does with one scan code: the character, or 0, and the
    new modifier state. *)
Definition scan (shift data : Z) : Z * Z :=
  if data =? 224 then (0, Z.lor shift E0ESC)
  else if negb (Z.land data 128 =? 0) then
    let data := if negb (Z.land shift E0ESC =? 0) then data else Z.land data 127 in
    (0, Z.land shift (Z.lnot (Z.lor (at_ shiftcode data) E0ESC)))
  else
    let '(data, shift) :=
      if negb (Z.land shift E0ESC =? 0)
      then (Z.lor data 128, Z.land shift (Z.lnot E0ESC)) else (data, shift) in
    let shift := Z.lor shift (at_ shiftcode data) in
    let shift := Z.lxor shift (at_ togglecode data) in
    let c := at_ (charcode (Z.land shift (Z.lor CTL SHIFT))) data in
    (if negb (Z.land shift CAPSLOCK =? 0) then swap_case c else c, shift).

(** [consoleintr] over a device: [getc] is called until it is negative. *)
Fixpoint getc_all {G} (fuel : nat) (getc : G -> Z * G) (g : G) : option (list Z * G) :=
  match fuel with
  | O => None
  | S fuel' =>
      let '(c, g) := getc g in
      if 0 <=? c then '(cs, g) ← getc_all fuel' getc g; Some (c :: cs, g) else Some ([], g)
  end.

Definition consoleintr_dev {G} (fuel : nat) (getc : G -> Z * G) (g : G) : M cst G :=
  match getc_all fuel getc g with
  | Some (cs, g) => consoleintr cs;; mret g
  | None => fun _ _ => NoFuel
  end.

Section kbd.
Context {D : Type} `{Ports D}.

(** The driver's state: [shift], and the devices. *)
Definition kbdgetc (g : Z * D) : Z * (Z * D) :=
  let '(shift, d) := g in
  let '(st, d) := inb KBSTATP d in
  if Z.land st KBS_DIB =? 0 then (-1, (shift, d)) else
  let '(data, d) := inb KBDATAP d in
  let '(c, shift) := scan shift data in (c, (shift, d)).

Definition kbdintr (fuel : nat) (g : Z * D) : M cst (Z * D) := consoleintr_dev fuel kbdgetc g.

(** ** The serial port driver *)

Definition COM1 : Z := 1016.

(** [uart] (is there a port) and the devices. *)
Definition ust : Type := bool * D.

(** The wait of [uartputc]: at most 128 tries. *)
Fixpoint uart_wait (n : nat) (d : D) : D :=
  match n with
  | O => d
  | S n' => let '(st, d) := inb (COM1 + 5) d in
            if Z.land st 32 =? 0 then uart_wait n' d else d
  end.

Definition uartputc (c : Z) (g : ust) : ust :=
  let '(uart, d) := g in
  if negb uart then g else (uart, outb (COM1 + 0) c (uart_wait 128 d)).

Definition uartgetc (g : ust) : Z * ust :=
  let '(uart, d) := g in
  if negb uart then (-1, g) else
  let '(st, d) := inb (COM1 + 5) d in
  if Z.land st 1 =? 0 then (-1, (uart, d)) else
  let '(c, d) := inb (COM1 + 0) d in (c, (uart, d)).

Definition uartintr (fuel : nat) (g : ust) : M cst ust := consoleintr_dev fuel uartgetc g.

(** The announcement of [uartinit]. *)
Definition banner : list Z := [120; 118; 54; 46; 46; 46; 10].

Definition uartinit `{Mmio D} (d : D) : ust :=
  let d := outb (COM1 + 2) 0 d in
  let d := outb (COM1 + 3) 128 d in
  let d := outb (COM1 + 0) (115200 / 9600) d in
  let d := outb (COM1 + 1) 0 d in
  let d := outb (COM1 + 3) 3 d in
  let d := outb (COM1 + 4) 0 d in
  let d := outb (COM1 + 1) 1 d in
  let '(st, d) := inb (COM1 + 5) d in
  if st =? 255 then (false, d) else
  let d := (inb (COM1 + 2) d).2 in
  let d := (inb (COM1 + 0) d).2 in
  let d := ioapicenable IRQ_COM1 0 d in
  foldl (fun g c => uartputc c g) (true, d) banner.
End kbd.

(** ** Scan codes to characters *)

Fixpoint scans (shift : Z) (l : list Z) : list Z * Z :=
  match l with
  | [] => ([], shift)
  | x :: l' => let '(c, shift) := scan shift x in
               let '(cs, shift) := scans shift l' in (c :: cs, shift)
  end.

Definition shift_ok (s : Z) : Prop := 0 <= s < 128.

(** Whatever the state and the code, the result is a byte and the tables are
    indexed in range; the state stays within its seven flags. *)
Lemma scan_range s x : shift_ok s -> is_u8 x -> is_u8 (scan s x).1 /\ shift_ok (scan s x).2.
Proof.
  unfold shift_ok, is_u8. intros Hs Hx.
  pose (P := fun s => forallb (fun x => let '(c, s') := scan s x in
    (0 <=? c) && (c <? 256) && (0 <=? s') && (s' <? 128)) (seqZ 0 256)).
  assert (E : forallb P (seqZ 0 128) = true) by by vm_compute.
  pose proof (seqZ_check _ _ (seqZ_check _ _ E s Hs) x Hx) as E'. cbv beta in E'.
  destruct (scan s x) as [c s']. cbn [fst snd]. lia.
Qed.

Lemma scans_range l : forall s, shift_ok s -> Forall is_u8 l ->
  Forall is_u8 (scans s l).1 /\ shift_ok (scans s l).2.
Proof.
  induction l as [|x l IH]; intros s Hs Hl; [by split|].
  apply Forall_cons in Hl as [Hx Hl]. cbn [scans].
  destruct (scan_range s x Hs Hx) as [Hc Hs']. destruct (scan s x) as [c s']. cbn [fst snd] in *.
  destruct (IH s' Hs' Hl) as [Hcs Hs'']. destruct (scans s' l) as [cs s'']. cbn [fst snd] in *.
  by split; [constructor|].
Qed.

Lemma scans_app l1 l2 s : scans s (l1 ++ l2) =
  ((scans s l1).1 ++ (scans (scans s l1).2 l2).1, (scans (scans s l1).2 l2).2).
Proof.
  revert s. induction l1 as [|x l1 IH]; intros s; cbn [app scans fst snd].
  - by destruct (scans s l2).
  - destruct (scan s x) as [c s']. rewrite IH. by destruct (scans s' l1) as [? ?].
Qed.

(** A device interrupt followed by a read, when what the device delivers
    edits to one line. *)
Lemma dev_line {G} fuel (getc : G -> Z * G) g ks g' cs n k s :
  running s -> cinv s [] [] -> held k = [] ->
  getc_all fuel getc g = Some (ks, g') -> Forall is_u8 ks ->
  foldl edit_step ([], []) ks = (cs ++ [ch_nl], []) -> Forall plain cs -> (length cs < n)%nat ->
  wp (g ← consoleintr_dev fuel getc g; r ← consoleread n; mret (g, r)) k s (fun '(g1, r) _ s' =>
    r = Z.of_nat (length cs + 1) /\ dst s' = dst s ++ cs ++ [ch_nl] /\ cinv s' [] [] /\ g1 = g').
Proof.
  intros Hs Hi Hk E Hu He Hp Hn. unfold consoleintr_dev. rewrite E.
  pose proof (wp_bind_inv _ _ _ _ _ (intr_read_wp ks cs n k s Hs Hi Hk Hu He Hp Hn)) as Hm.
  apply wp_bind, wp_bind. eapply wp_mono; [|exact Hm]. cbv beta. intros _ k1 s1 Hr.
  apply wp_ret, wp_bind. eapply wp_mono; [|exact Hr]. intros a k2 s2 (-> & Hd & Hc). by apply wp_ret.
Qed.

Section keyboard.
Context {D : Type} `{Keyboard D}.

(** The driver drains the controller. *)
Lemma kbd_drain l : forall fuel s d, scancodes d = l -> shift_ok s -> (length l < fuel)%nat ->
  exists d', getc_all fuel kbdgetc (s, d) = Some ((scans s l).1, ((scans s l).2, d')) /\
    scancodes d' = [].
Proof.
  induction l as [|x l IH]; intros [|fuel] s d E Hs Hf; cbn [length] in Hf; try lia;
    cbn [getc_all]; unfold kbdgetc at 1; unfold KBSTATP, KBDATAP, KBS_DIB;
    destruct (kbd_status d) as [Hst Hsc]; destruct (inb 100 d) as [st d1]; cbn [fst snd] in *.
  - assert (Z.land st 1 = 0) as -> by (destruct (decide (Z.land st 1 = 0)); tauto). cbn. exists d1. by rewrite Hsc.
  - rewrite (proj2 (Z.eqb_neq (Z.land st 1) 0)) by (apply Hst; by rewrite E).
    rewrite E in Hsc. destruct (kbd_data d1 x l Hsc) as [Hx Hl].
    pose proof (kbd_wf d) as Hw. rewrite E in Hw. apply Forall_inv in Hw as Hxr.
    destruct (inb 96 d1) as [v d2]. cbn [fst snd] in *. subst v.
    destruct (scan_range s x Hs Hxr) as [Hc Hs']. cbn [scans].
    destruct (scan s x) as [c s'] eqn:Esc. cbn [fst snd] in *.
    rewrite (proj2 (Z.leb_le 0 c)) by (unfold is_u8 in Hc; lia).
    destruct (IH fuel s' d2 Hl Hs' ltac:(lia)) as (d' & -> & Hd').
    exists d'. cbn [mbind option_bind]. by destruct (scans s' l).
Qed.

(** *** Typing *)

(** A US keyboard as its manufacturer describes it: each row has the scan code
    of its first key, and what is printed on the keys, without and with shift.
    Enter, tab, backslash and the space bar are rows of one key. *)
Definition codes (t : string) : list Z := (fun a => Z.of_N (Ascii.N_of_ascii a)) <$> String.list_ascii_of_string t.
Definition us_rows : list (Z * list Z * list Z) :=
  [ (2, codes "1234567890-=", codes "!@#$%^&*()_+");
    (15, [9], [9]);
    (16, codes "qwertyuiop[]", codes "QWERTYUIOP{}");
    (28, [10], [10]);
    (30, codes "asdfghjkl;'`", codes "ASDFGHJKL:" ++ [34] ++ codes "~");
    (43, codes "\", codes "|");
    (44, codes "zxcvbnm,./", codes "ZXCVBNM<>?");
    (57, codes " ", codes " ") ].
Definition letters : list Z := codes "abcdefghijklmnopqrstuvwxyzABCDEFGHIJKLMNOPQRSTUVWXYZ".

(** The key that [c] is printed on, and whether it is the shifted one. *)
Fixpoint find_key (rows : list (Z * list Z * list Z)) (c : Z) : option (Z * bool) :=
  match rows with
  | [] => None
  | (first, low, up) :: rows' =>
      match list_find (c =.) low, list_find (c =.) up with
      | Some (i, _), _ => Some (first + Z.of_nat i, false)
      | None, Some (i, _) => Some (first + Z.of_nat i, true)
      | None, None => find_key rows' c
      end
  end.

(** Typing [c]: the key is pressed and released, and the left shift key (42)
    is held where the key needs it.  Caps Lock inverts shift for letters. *)
Definition key (caps : bool) (c : Z) : option (list Z) :=
  '(k, sh) ← find_key us_rows c;
  Some (if xorb sh (caps && bool_decide (c ∈ letters)) then [42; k; k + 128; 42 + 128] else [k; k + 128]).

(** Only the lock keys are in effect; Caps Lock is flag 3. *)
Definition locks (s : Z) : Prop := 0 <= s < 64 /\ s mod 8 = 0.
Definition caps_on (s : Z) : bool := Z.testbit s 3.

Definition nonzero (l : list Z) : list Z := filter (fun c => c <> 0) l.

Lemma key_types s c ks : locks s -> 0 < c < 256 -> key (caps_on s) c = Some ks ->
  nonzero (scans s ks).1 = [c] /\ (scans s ks).2 = s.
Proof.
  intros [Hs Hm] Hc Hk.
  pose (P := fun s => negb (s mod 8 =? 0) || forallb (fun c => (c =? 0) ||
    match key (caps_on s) c with
    | Some ks => bool_decide (nonzero (scans s ks).1 = [c] /\ (scans s ks).2 = s)
    | None => true
    end) (seqZ 0 256)).
  assert (E : forallb P (seqZ 0 64) = true) by by vm_compute.
  pose proof (seqZ_check _ _ E s Hs) as E'. unfold P in E'. rewrite Hm in E'.
  rewrite Z.eqb_refl in E'. cbn [negb orb] in E'.
  pose proof (seqZ_check _ _ E' c ltac:(lia)) as E''. cbv beta in E''.
  rewrite (proj2 (Z.eqb_neq c 0)), Hk in E'' by lia. cbn [orb] in E''.
  by apply bool_decide_eq_true in E''.
Qed.

(** The scan codes of typing a text. *)
Fixpoint keys (caps : bool) (cs : list Z) : option (list Z) :=
  match cs with
  | [] => Some []
  | c :: cs' => k ← key caps c; ks ← keys caps cs'; Some (k ++ ks)
  end.

Lemma nonzero_app l1 l2 : nonzero (l1 ++ l2) = nonzero l1 ++ nonzero l2.
Proof. apply filter_app. Qed.

Lemma keys_type cs : forall s ks, locks s -> Forall (fun c => 0 < c < 256) cs -> keys (caps_on s) cs = Some ks ->
  nonzero (scans s ks).1 = cs /\ (scans s ks).2 = s.
Proof.
  induction cs as [|c cs IH]; intros s ks Hs Hc E; cbn [keys] in E.
  - injection E as <-. done.
  - destruct (key (caps_on s) c) as [k|] eqn:Ek; [|done]. cbn [mbind option_bind] in E.
    destruct (keys (caps_on s) cs) as [ks'|] eqn:Eks; [|done]. cbn [mbind option_bind] in E. injection E as <-.
    apply Forall_cons in Hc as [Hc Hcs]. destruct (key_types s c k Hs Hc Ek) as [H1 H2].
    destruct (IH s ks' Hs Hcs Eks) as [H3 H4].
    rewrite scans_app. cbn [fst snd]. rewrite H2, nonzero_app, H1, H3. by split.
Qed.

(** The console ignores the zeros the driver returns for the modifiers. *)
Lemma edit_nonzero ks : forall q, foldl edit_step q ks = foldl edit_step q (nonzero ks).
Proof.
  induction ks as [|c ks IH]; intros [q l]; [done|]. unfold nonzero. rewrite filter_cons. cbn [foldl].
  case_decide as Hc; [apply IH|]. assert (c = 0) as -> by lia. apply IH.
Qed.

(** C33: from the keys to the reader: when the scan codes of typing a text and
    the Enter key on a US keyboard are pending, whatever lock keys are on, the
    keyboard interrupt drains the controller, and a read on the console
    returns exactly the text and the newline. *)
Theorem kbd_line cs ks fuel n shift d k s : running s -> cinv s [] [] -> held k = [] ->
  locks shift -> Forall plain cs ->
  keys (caps_on shift) (cs ++ [ch_nl]) = Some ks -> scancodes d = ks -> (length ks < fuel)%nat ->
  (length cs < 127)%nat -> (length cs < n)%nat ->
  wp (g ← kbdintr fuel (shift, d); r ← consoleread n; mret (g, r)) k s (fun '(g, r) _ s' =>
    r = Z.of_nat (length cs + 1) /\ dst s' = dst s ++ cs ++ [ch_nl] /\
    cinv s' [] [] /\ scancodes g.2 = [] /\ g.1 = shift).
Proof.
  intros Hs Hi Hk Hsh Hp Eks Hd Hf Hl Hn.
  assert (Hso : shift_ok shift) by (unfold locks, shift_ok in *; lia).
  destruct (kbd_drain ks fuel shift d Hd Hso Hf) as (d' & E & Hd').
  pose proof (kbd_wf d) as Hw. rewrite Hd in Hw.
  destruct (scans_range ks shift Hso Hw) as [Hu _].
  destruct (keys_type (cs ++ [ch_nl]) shift ks Hsh) as [Hz Hsh']; [|done|].
  { apply Forall_app. split; [|by repeat constructor]. eapply Forall_impl; [done|]. by intros c []. }
  eapply wp_mono; [|apply (dev_line fuel kbdgetc _ _ _ cs n k s Hs Hi Hk E Hu)].
  - intros [g r] c' s' (-> & Hdst & Hc & ->). by split_and!.
  - rewrite edit_nonzero, Hz. apply edit_line; [by right|done|done].
  - done.
  - done.
Qed.

(** Every printable character is on a key. *)
Lemma key_printable caps c : 32 <= c < 127 -> is_Some (key caps c).
Proof.
  intros Hc. assert (E : forallb (fun c => (c <? 32) || (127 <=? c) ||
    bool_decide (is_Some (key true c)) && bool_decide (is_Some (key false c))) (seqZ 0 256) = true) by by vm_compute.
  pose proof (seqZ_check _ _ E c ltac:(lia)) as E'. cbv beta in E'.
  rewrite (proj2 (Z.ltb_ge _ _)), (proj2 (Z.leb_gt _ _)) in E' by lia. cbn [orb] in E'.
  apply andb_true_iff in E' as [E1%bool_decide_eq_true E2%bool_decide_eq_true]. by destruct caps.
Qed.
End keyboard.

(** ** The serial port *)

Section serial.
Context {D : Type} `{Serial D}.

(** The port is set up for data: the divisor latch is closed. *)
Definition data_mode (d : D) : Prop := Z.testbit (line_control d) 7 = false.

Lemma uart_wait_spec n : forall d, let d' := uart_wait n d in
  received d' = received d /\ sent d' = sent d /\ line_control d' = line_control d.
Proof.
  induction n as [|n IH]; intros d; cbv zeta; cbn [uart_wait]; [done|].
  destruct (ser_status d) as (_ & _ & H1 & H2 & H3). unfold COM1. change (1016 + 5) with 1021.
  destruct (inb 1021 d) as [st d1]. cbn [fst snd] in *.
  destruct (Z.land st 32 =? 0); [|done]. destruct (IH d1) as (K1 & K2 & K3).
  by rewrite K1, K2, K3.
Qed.

(** [uartputc] sends one byte, however long the port is busy. *)
Lemma uartputc_sends c d : data_mode d -> let g := uartputc c (true, d) in
  g.1 = true /\ sent g.2 = sent d ++ [u8 c] /\ received g.2 = received d /\ data_mode g.2.
Proof.
  unfold data_mode. intros Hd. cbv zeta. unfold uartputc, COM1. cbn [negb fst snd].
  change (1016 + 0) with 1016. destruct (uart_wait_spec 128 d) as (H1 & H2 & H3).
  destruct (ser_send (uart_wait 128 d) c) as (K1 & K2 & K3).
  rewrite K1, K2, K3, H3, Hd, H1, H2. done.
Qed.

Lemma uartputs_send cs : forall d, data_mode d ->
  let g := foldl (fun g c => uartputc c g) (true, d) cs in
  g.1 = true /\ sent g.2 = sent d ++ (u8 <$> cs) /\ received g.2 = received d /\ data_mode g.2.
Proof.
  induction cs as [|c cs IH]; intros d Hd; cbv zeta; cbn [foldl].
  - cbn. by rewrite app_nil_r.
  - destruct (uartputc_sends c d Hd) as (H1 & H2 & H3 & H4).
    destruct (uartputc c (true, d)) as [b d1]. cbn [fst snd] in *. subst b.
    destruct (IH d1 H4) as (K1 & K2 & K3 & K4). rewrite K1, K2, K3, H2, H3.
    split_and!; try done. by rewrite fmap_cons, <- app_assoc.
Qed.

(** The driver drains the port. *)
Lemma uart_drain l : forall fuel d, received d = l -> data_mode d -> (length l < fuel)%nat ->
  exists d', getc_all fuel uartgetc (true, d) = Some (l, (true, d')) /\
    received d' = [] /\ sent d' = sent d /\ data_mode d'.
Proof.
  unfold data_mode.
  induction l as [|x l IH]; intros [|fuel] d E Hd Hf; cbn [length] in Hf; try lia;
    cbn [getc_all]; unfold uartgetc at 1; unfold COM1; cbn [negb];
    change (1016 + 5) with 1021; change (1016 + 0) with 1016;
    destruct (ser_status d) as (Hst & _ & Hr & Hse & Hlc);
    destruct (inb 1021 d) as [st d1]; cbn [fst snd] in *.
  - assert (Z.land st 1 = 0) as -> by (destruct (decide (Z.land st 1 = 0)); tauto).
    cbn. exists d1. by rewrite Hr, Hse, Hlc.
  - rewrite (proj2 (Z.eqb_neq (Z.land st 1) 0)) by (apply Hst; by rewrite E).
    destruct (ser_data d1) as (Hx & Hl & Hs1 & Hc1); [by rewrite Hlc|].
    rewrite Hr, E in Hx, Hl. cbn [hd tl] in Hx, Hl.
    pose proof (ser_wf d) as Hw. rewrite E in Hw. apply Forall_inv in Hw as Hxr.
    destruct (inb 1016 d1) as [v d2]. cbn [fst snd] in *. rewrite (Hx ltac:(done)).
    rewrite (proj2 (Z.leb_le 0 x)) by (unfold is_u8 in Hxr; lia).
    destruct (IH fuel d2 Hl) as (d' & -> & K1 & K2 & K3); [by rewrite Hc1, Hlc|lia|].
    exists d'. cbn [mbind option_bind]. by rewrite K2, Hs1, Hse.
Qed.

(** A line received on the serial port is what a read on the console
    returns; nothing is lost and the port is left empty. *)
Theorem uart_line cs fuel n d k s : running s -> cinv s [] [] -> held k = [] ->
  data_mode d -> Forall plain cs -> received d = cs ++ [ch_cr] -> (length cs + 1 < fuel)%nat ->
  (length cs < 127)%nat -> (length cs < n)%nat ->
  wp (g ← uartintr fuel (true, d); r ← consoleread n; mret (g, r)) k s (fun '(g, r) _ s' =>
    r = Z.of_nat (length cs + 1) /\ dst s' = dst s ++ cs ++ [ch_nl] /\
    cinv s' [] [] /\ received g.2 = []).
Proof.
  intros Hs Hi Hk Hm Hp Hr Hf Hl Hn.
  destruct (uart_drain _ fuel d Hr Hm) as (d' & E & Hd' & _); [by rewrite length_app|].
  pose proof (ser_wf d) as Hw. rewrite Hr in Hw.
  eapply wp_mono; [|apply (dev_line fuel uartgetc _ _ _ cs n k s Hs Hi Hk E Hw)]; [|..|done|done].
  - intros [g r] c' s' (-> & Hdst & Hc & ->). done.
  - apply edit_line; [by left|done|done].
Qed.
End serial.

Section uartinit.
Context {D : Type} `{Serial D, !Mmio D}.
(** The interrupt controller is not the serial port. *)
Hypothesis mmio_serial : forall a v (d : D), let d' := mmio_write a v d in
  received d' = received d /\ sent d' = sent d /\ line_control d' = line_control d.

(** [uartinit] finds the port, leaves it in data mode, and has sent the
    banner and nothing else: the divisor bytes do not go out on the line. *)
Theorem uartinit_correct d : let g := uartinit d in
  g.1 = true /\ data_mode g.2 /\ sent g.2 = sent d ++ banner /\ received g.2 = tl (received d).
Proof using mmio_serial.
  cbv zeta. unfold uartinit, COM1. cbv zeta.
  change (1016 + 0) with 1016. change (1016 + 1) with 1017. change (1016 + 2) with 1018.
  change (1016 + 3) with 1019. change (1016 + 4) with 1020. change (1016 + 5) with 1021.
  set (d1 := outb 1018 0 d). destruct (ser_setup 1018 d 0 ltac:(by_decide)) as (A1 & A2 & A3).
  fold d1 in A1, A2, A3. set (d2 := outb 1019 128 d1).
  destruct (ser_control d1 128) as (B1 & B2 & B3). fold d2 in B1, B2, B3.
  set (d3 := outb 1016 (115200 / 9600) d2).
  destruct (ser_send d2 (115200 / 9600)) as (C1 & C2 & C3). fold d3 in C1, C2, C3.
  rewrite B1 in C1. change (Z.testbit (u8 128) 7) with true in C1. cbv iota in C1.
  rewrite app_nil_r in C1.
  set (d4 := outb 1017 0 d3). destruct (ser_setup 1017 d3 0 ltac:(by_decide)) as (D1 & D2 & D3).
  fold d4 in D1, D2, D3. set (d5 := outb 1019 3 d4).
  destruct (ser_control d4 3) as (E1 & E2 & E3). fold d5 in E1, E2, E3.
  set (d6 := outb 1020 0 d5). destruct (ser_setup 1020 d5 0 ltac:(by_decide)) as (F1 & F2 & F3).
  fold d6 in F1, F2, F3.
  set (d7 := outb 1017 1 d6). destruct (ser_setup 1017 d6 1 ltac:(by_decide)) as (G1 & G2 & G3).
  fold d7 in G1, G2, G3.
  assert (HR : received d7 = received d) by congruence.
  assert (HS : sent d7 = sent d) by congruence.
  assert (HL : line_control d7 = 3) by (rewrite G3, F3, E1; done).
  destruct (ser_status d7) as (_ & H1 & H2 & H3 & H4).
  destruct (inb 1021 d7) as [st d8]. cbn [fst snd] in *.
  rewrite (proj2 (Z.eqb_neq st 255)) by done.
  destruct (ser_ident d8) as (I1 & I2 & I3). set (d9 := (inb 1018 d8).2) in *.
  destruct (ser_data d9) as (_ & J1 & J2 & J3); [rewrite I3, H4, HL; done|].
  set (d10 := (inb 1016 d9).2) in *. 
  assert (K : received (ioapicenable IRQ_COM1 0 d10) = received d10 /\
              sent (ioapicenable IRQ_COM1 0 d10) = sent d10 /\
              line_control (ioapicenable IRQ_COM1 0 d10) = line_control d10).
  { unfold ioapicenable, ioapicwrite. cbv zeta.
    split_and!; repeat (rewrite ?(proj1 (mmio_serial _ _ _)), ?(proj1 (proj2 (mmio_serial _ _ _))),
      ?(proj2 (proj2 (mmio_serial _ _ _)))); done. }
  destruct K as (K1 & K2 & K3).
  destruct (uartputs_send banner (ioapicenable IRQ_COM1 0 d10)) as (L1 & L2 & L3 & L4).
  { unfold data_mode. rewrite K3, J3, I3, H4, HL. done. }
  rewrite L1, L2, L3. split_and!; [done|done| |congruence].
  rewrite K2, J2, I2, H3, HS. done.
Qed.
End uartinit.

(** ** Examples *)

(** Typing [aB] and Enter, with Caps Lock on: shift is held for the [a]. *)
Definition ex_scancodes : list Z := [42; 30; 158; 170; 48; 176; 28; 156].
Definition ex_keyboard : bytes_queue := BytesQueue ex_scancodes ltac:(by_decide).

Lemma kbd_line_witness :
  wp (g ← kbdintr 9 (8, ex_keyboard); r ← consoleread 100; mret (g, r)) ctx0 ex_cst
    (fun '(g, r) _ s' =>
      r = Z.of_nat (length (codes "aB") + 1) /\ dst s' = dst ex_cst ++ codes "aB" ++ [ch_nl] /\
      cinv s' [] [] /\ scancodes g.2 = [] /\ g.1 = 8).
Proof.
  apply (kbd_line (codes "aB") ex_scancodes 9 100 8 ex_keyboard ctx0 ex_cst).
  - exact ex_cst_running.
  - exact ex_cst_inv.
  - reflexivity.
  - vm_compute. intuition congruence.
  - by_decide.
  - vm_compute. reflexivity.
  - reflexivity.
  - simpl. lia.
  - simpl. lia.
  - simpl. lia.
Defined.

(** [hi] and a carriage return on the serial line. *)
Definition ex_serial : serial_line := SerialLine [104; 105; 13] [] 3 ltac:(by_decide).

Lemma uart_line_witness :
  wp (g ← uartintr 10 (true, ex_serial); r ← consoleread 100; mret (g, r)) ctx0 ex_cst
    (fun '(g, r) _ s' =>
      r = Z.of_nat (length [104; 105]%Z + 1) /\ dst s' = dst ex_cst ++ [104; 105] ++ [ch_nl] /\
      cinv s' [] [] /\ received g.2 = []).
Proof.
  apply (uart_line [104; 105] 10 100 ex_serial ctx0 ex_cst).
  - exact ex_cst_running.
  - exact ex_cst_inv.
  - reflexivity.
  - reflexivity.
  - by_decide.
  - reflexivity.
  - simpl. lia.
  - simpl. lia.
  - simpl. lia.
Defined.
