(* ===== verification/Ide.v ===== *)
(** * The IDE disk driver (ide.c)

    Processes that call [iderw] append their buffer to a queue and sleep; the
    head of the queue is the request the disk is working on; the interrupt
    handler finishes it, wakes its process and starts the next.  The driver
    is verified for any ATA disk ([Ports.Ata]): requests are served in the
    order they were made, each as the in-memory disk of memide.c would. *)
From stdpp Require Import functions.
From S2P Require Import Prelude CString Mmu Block Sleeplock Bio Ports Apic.
#[local] Set Default Proof Using "Type".

Definition SECTOR_SIZE : Z := 512.
Definition IDE_BSY : Z := 128.
Definition IDE_DRDY : Z := 64.
Definition IDE_DF : Z := 32.
Definition IDE_ERR : Z := 1.
Definition IDE_CMD_READ : Z := 32.
Definition IDE_CMD_WRITE : Z := 48.
Definition IDE_CMD_RDMUL : Z := 196.
Definition IDE_CMD_WRMUL : Z := 197.

Section ide.
Context {D : Type} `{Ports D, Mmio D}.

(** The buffers, their [qnext] fields, and the driver's variables. *)
Record ist := Ist {
  ibufs : nat -> buf;
  qnext : nat -> option nat;
  idequeue : option nat;
  havedisk1 : bool;
  io : D
}.

Definition set_io (d : D) (s : ist) : ist := Ist (ibufs s) (qnext s) (idequeue s) (havedisk1 s) d.
Definition set_queue (q : option nat) (s : ist) : ist := Ist (ibufs s) (qnext s) q (havedisk1 s) (io s).
Definition set_qnext (b : nat) (q : option nat) (s : ist) : ist :=
  Ist (ibufs s) (<[b := q]> (qnext s)) (idequeue s) (havedisk1 s) (io s).
Definition set_ibuf (b : nat) (x : buf) (s : ist) : ist :=
  Ist (<[b := x]> (ibufs s)) (qnext s) (idequeue s) (havedisk1 s) (io s).
Definition set_havedisk1 (s : ist) : ist := Ist (ibufs s) (qnext s) (idequeue s) true (io s).

Definition dinb (p : Z) : M ist Z := fun c s => let '(v, d) := inb p (io s) in Ok v c (set_io d s).
Definition doutb (p v : Z) : M ist unit := modify (fun s => set_io (outb p v (io s)) s).

(** Wait for the disk to become ready; the result is its status. *)
Fixpoint idewait_loop (fuel : nat) : M ist Z :=
  match fuel with
  | O => fun _ _ => NoFuel
  | S fuel' => r ← dinb 503;
               if Z.land r (Z.lor IDE_BSY IDE_DRDY) =? IDE_DRDY then mret r else idewait_loop fuel'
  end.

Definition idewait (fuel : nat) (checkerr : bool) : M ist Z :=
  r ← idewait_loop fuel;
  mret (if checkerr && negb (Z.land r (Z.lor IDE_DF IDE_ERR) =? 0) then -1 else 0).

(** The probe for disk 1. *)
Fixpoint probe_loop (n : nat) : M ist unit :=
  match n with
  | O => mret tt
  | S n' => r ← dinb 503; if negb (r =? 0) then modify set_havedisk1 else probe_loop n'
  end.

Definition ideinit (fuel : nat) (ncpu : Z) : M ist unit :=
  modify (fun s => set_io (ioapicenable IRQ_IDE (ncpu - 1) (io s)) s);;
  idewait fuel false;;
  doutb 502 (Z.lor 224 (Z.shiftl 1 4));;
  probe_loop 1000;;
  doutb 502 (Z.lor 224 (Z.shiftl 0 4)).

Definition sector_per_block : Z := BSIZE / SECTOR_SIZE.
Definition read_cmd : Z := if sector_per_block =? 1 then IDE_CMD_READ else IDE_CMD_RDMUL.
Definition write_cmd : Z := if sector_per_block =? 1 then IDE_CMD_WRITE else IDE_CMD_WRMUL.

(** Start the request for [b]. *)
Definition idestart (fuel : nat) (b : option nat) : M ist unit :=
  match b with
  | None => panic "idestart"
  | Some b =>
      x ← gets (fun s => ibufs s b);
      if FSSIZE <=? blockno x then panic "incorrect blockno" else
      let sector := i32 (blockno x * sector_per_block) in
      if 7 <? sector_per_block then panic "idestart" else
      idewait fuel false;;
      doutb 1014 0;;
      doutb 498 sector_per_block;;
      doutb 499 (Z.land sector 255);;
      doutb 500 (Z.land (Z.shiftr sector 8) 255);;
      doutb 501 (Z.land (Z.shiftr sector 16) 255);;
      doutb 502 (Z.lor (Z.lor 224 (Z.shiftl (Z.land (dev x) 1) 4)) (Z.land (Z.shiftr sector 24) 15));;
      if negb (Z.land (flags x) B_DIRTY =? 0) then
        doutb 503 write_cmd;;
        modify (fun s => set_io (outsl 496 (data x) (io s)) s)
      else doutb 503 read_cmd
  end.

(** Interrupt handler. *)
Definition ideintr (fuel : nat) : M ist unit :=
  acquire Lide;;
  b ← gets idequeue;
  match b with
  | None => release Lide
  | Some b =>
      n ← gets (fun s => qnext s b);
      modify (set_queue n);;
      f ← gets (fun s => flags (ibufs s b));
      (if Z.land f B_DIRTY =? 0 then
         r ← idewait fuel true;
         when (0 <=? r) (fun c s =>
           let '(l, d) := insl 496 (Z.to_nat (BSIZE / 4)) (io s) in
           Ok tt c (set_ibuf b (set_data l (ibufs s b)) (set_io d s)))
       else mret tt);;
      modify (fun s => set_ibuf b (set_flags (Z.lor (flags (ibufs s b)) B_VALID) (ibufs s b)) s);;
      modify (fun s => set_ibuf b (set_flags (Z.land (flags (ibufs s b)) (Z.lnot B_DIRTY)) (ibufs s b)) s);;
      wakeup (ChBuf b);;
      q ← gets idequeue;
      match q with
      | Some _ => idestart fuel q
      | None => mret tt
      end;;
      release Lide
  end.

(** The walk to the end of the queue: [pp] is the address of [idequeue]
    ([None]) or of the [qnext] field of a buffer. *)
Definition read_pp (pp : option nat) (s : ist) : option nat :=
  match pp with None => idequeue s | Some b => qnext s b end.
Definition write_pp (pp q : option nat) : ist -> ist :=
  match pp with None => set_queue q | Some b => set_qnext b q end.

Fixpoint append_loop (fuel : nat) (pp : option nat) (b : nat) : M ist unit :=
  match fuel with
  | O => fun _ _ => NoFuel
  | S fuel' =>
      q ← gets (read_pp pp);
      match q with
      | None => modify (write_pp pp (Some b))
      | Some c => append_loop fuel' (Some c) b
      end
  end.

(** The wait for the request to finish.  A thread that sleeps here tests the
    flags again when it is woken: [iderw_resume]. *)
Definition iderw_wait (b : nat) : M ist unit :=
  f ← gets (fun s => flags (ibufs s b));
  if negb (Z.land f (Z.lor B_VALID B_DIRTY) =? B_VALID) then sleep (ChBuf b) Lide else release Lide.

Definition iderw_resume (b : nat) : M ist unit := acquire Lide;; iderw_wait b.

Definition iderw (fuel : nat) (b : nat) : M ist unit :=
  h ← holdingsleep (fun s => block_lock (ibufs s b)) (Lbuf b);
  if negb h then panic "iderw: buf not locked" else
  x ← gets (fun s => ibufs s b);
  if Z.land (flags x) (Z.lor B_VALID B_DIRTY) =? B_VALID then panic "iderw: nothing to do" else
  d1 ← gets havedisk1;
  if negb (dev x =? 0) && negb d1 then panic "iderw: ide disk 1 not present" else
  acquire Lide;;
  modify (set_qnext b None);;
  append_loop fuel None b;;
  q ← gets idequeue;
  when (bool_decide (q = Some b)) (idestart fuel (Some b));;
  iderw_wait b.
End ide.
Arguments ist : clear implicits.

(** ** What a request means *)

Definition dirty (x : buf) : bool := negb (Z.land (flags x) B_DIRTY =? 0).
Definition drive (x : buf) : Z := Z.land (dev x) 1.

(** A buffer that has work for the disk. *)
Definition request (x : buf) : Prop :=
  (flags x = 0 \/ flags x = B_DIRTY \/ flags x = Z.lor B_VALID B_DIRTY) /\
  0 <= blockno x < FSSIZE /\ length (data x) = 512%nat /\ Forall is_u8 (data x).

(** Two drives of sectors. *)
Abbreviation disks := (Z -> Z -> list Z) (only parsing).

(** Serving a request: the buffer and the disks afterwards. *)
Definition serve (k : disks) (x : buf) : buf * disks :=
  if dirty x then (set_flags B_VALID x, upd_sector k (drive x) (blockno x) (data x))
  else (set_flags B_VALID (set_data (k (drive x) (blockno x)) x), k).

Lemma drive_range x : 0 <= drive x < 2.
Proof.
  unfold drive. change 1 with (Z.ones 1). rewrite Z.land_ones by lia.
  apply Z.mod_pos_bound. done.
Qed.

(** The registers [idestart] writes select the sector of the block. *)
Lemma taskfile_for t n v : 0 <= n < FSSIZE -> 0 <= v < 2 ->
  let t' := tf_set 502 (Z.lor (Z.lor 224 (Z.shiftl v 4)) (Z.land (Z.shiftr n 24) 15))
    (tf_set 501 (Z.land (Z.shiftr n 16) 255) (tf_set 500 (Z.land (Z.shiftr n 8) 255)
      (tf_set 499 (Z.land n 255) (tf_set 498 1 (tf_set 1014 0 t))))) in
  tf_count t' = 1 /\ tf_lba t' = n /\ tf_drive t' = v.
Proof.
  intros Hn Hv. destruct t as [a0 a1 a2 a3 a4]. cbn [tf_set Z.eqb Pos.eqb]. cbv zeta.
  pose (chk := fun n => forallb (fun v =>
    let t' := Taskfile (u8 1) (u8 (Z.land n 255)) (u8 (Z.land (Z.shiftr n 8) 255))
      (u8 (Z.land (Z.shiftr n 16) 255))
      (u8 (Z.lor (Z.lor 224 (Z.shiftl v 4)) (Z.land (Z.shiftr n 24) 15))) in
    (tf_count t' =? 1) && (tf_lba t' =? n) && (tf_drive t' =? v)) (seqZ 0 2)).
  assert (E : forallb chk (seqZ 0 FSSIZE) = true) by by vm_compute.
  pose proof (seqZ_check _ _ (seqZ_check _ _ E n Hn) v Hv) as E'. cbv beta zeta in E'.
  rewrite !andb_true_iff, !Z.eqb_eq in E'. tauto.
Qed.

Section driver.
Context {D : Type} `{Ports D, !Ata D, !Mmio D}.
Abbreviation ist := (ist D).

Lemma idewait_loop_wp fuel : forall c (s : ist) (Q : Z -> ctx -> ist -> Prop),
  (polls (io s) < fuel)%nat ->
  (forall r d', polls d' = 0%nat -> sectors d' = sectors (io s) -> tf d' = tf (io s) ->
     phase d' = phase (io s) -> failed d' = failed (io s) ->
     (Z.land r 33 <> 0 <-> failed (io s) = true) -> Q r c (set_io d' s)) ->
  wp (idewait_loop fuel) c s Q.
Proof.
  induction fuel as [|fuel IH]; intros c s Q Hf HQ; [lia|]. cbn [idewait_loop].
  apply wp_bind. unfold wp at 1, dinb.
  destruct (ata_status (io s)) as (H1 & H2 & H3 & H4 & H5 & H6 & H7).
  destruct (inb 503 (io s)) as [r d1]. cbn [fst snd] in *.
  change (Z.lor IDE_BSY IDE_DRDY) with 192. unfold IDE_DRDY.
  destruct (Z.eqb_spec (Z.land r 192) 64) as [E|E].
  - apply H1 in E. apply wp_ret. apply HQ; try done; [by rewrite H3, E|by apply H2].
  - assert (polls (io s) <> 0%nat) by tauto. apply IH.
    + cbn [io set_io]. lia.
    + cbn [io set_io]. intros r' d' K1 K2 K3 K4 K5 K6. rewrite H7 in K5, K6.
      change (set_io d' (set_io d1 s)) with (set_io d' s). apply HQ; congruence || done.
Qed.

Lemma doutb_wp p v c (s : ist) (Q : unit -> ctx -> ist -> Prop) :
  Q tt c (set_io (outb p v (io s)) s) -> wp (doutb p v) c s Q.
Proof. done. Qed.

(** A request is handed to the disk: a write has taken effect, a read is
    waiting for its data to be collected. *)
Lemma idestart_wp fuel b c (s : ist) (Q : unit -> ctx -> ist -> Prop) :
  request (ibufs s b) -> (max_polls (D := D) < fuel)%nat ->
  (forall d', sectors d' = (serve (sectors (io s)) (ibufs s b)).2 ->
     (dirty (ibufs s b) = false -> phase d' = PIn (drive (ibufs s b)) (blockno (ibufs s b))) ->
     Q tt c (set_io d' s)) ->
  wp (idestart fuel (Some b)) c s Q.
Proof.
  intros (Hfl & Hn & Hlen & Hu8) Hf HQ. unfold idestart. apply wp_bind, wp_gets.
  set (x := ibufs s b) in *. rewrite (proj2 (Z.leb_gt _ _)) by lia. cbv zeta.
  change (7 <? sector_per_block) with false. cbv iota. change sector_per_block with 1.
  rewrite Z.mul_1_r. replace (i32 (blockno x)) with (blockno x) by (unfold FSSIZE in *; wrap_lia).
  apply wp_bind. unfold idewait. apply wp_bind, idewait_loop_wp.
  { eapply Nat.le_lt_trans; [apply ata_polls|done]. }
  intros r d0 P0 S0 T0 Ph0 F0 _. apply wp_ret.
  destruct (ata_reg 1014 0 d0 ltac:(by_decide)) as (T1 & S1 & _ & P1 & _). set (d1 := outb 1014 0 d0) in *.
  destruct (ata_reg 498 1 d1 ltac:(by_decide)) as (T2 & S2 & _ & P2 & _). set (d2 := outb 498 1 d1) in *.
  apply wp_bind, doutb_wp, wp_bind, doutb_wp. cbn [io set_io]. fold d1. fold d2.
  destruct (ata_reg 499 (Z.land (blockno x) 255) d2 ltac:(by_decide)) as (T3 & S3 & _ & P3 & _).
  set (d3 := outb 499 _ d2) in *.
  destruct (ata_reg 500 (Z.land (Z.shiftr (blockno x) 8) 255) d3 ltac:(by_decide)) as (T4 & S4 & _ & P4 & _).
  set (d4 := outb 500 _ d3) in *.
  destruct (ata_reg 501 (Z.land (Z.shiftr (blockno x) 16) 255) d4 ltac:(by_decide)) as (T5 & S5 & _ & P5 & _).
  set (d5 := outb 501 _ d4) in *.
  destruct (ata_reg 502 (Z.lor (Z.lor 224 (Z.shiftl (drive x) 4)) (Z.land (Z.shiftr (blockno x) 24) 15)) d5
    ltac:(by_decide)) as (T6 & S6 & _ & P6 & _). set (d6 := outb 502 _ d5) in *.
  do 3 (apply wp_bind, doutb_wp). apply wp_bind, doutb_wp. cbn [io set_io].
  fold d3. fold d4. fold d5. fold (drive x). fold d6.
  assert (HS : sectors d6 = sectors (io s)) by congruence.
  assert (HP : polls d6 = 0%nat) by congruence.
  destruct (taskfile_for (tf d0) (blockno x) (drive x) Hn (drive_range x)) as (E1 & E2 & E3).
  rewrite <- T1, <- T2, <- T3, <- T4, <- T5, <- T6 in E1, E2, E3.
  fold (dirty x). destruct (dirty x) eqn:Hd.
  - change write_cmd with 48. destruct (ata_command 48 d6 HP E1 ltac:(by right)) as [Hph HS7].
    cbn [Z.eqb Pos.eqb] in Hph. rewrite E2, E3 in Hph.
    apply wp_bind, doutb_wp, wp_modify. cbn [io set_io]. set (d7 := outb 503 48 d6) in *.
    destruct (ata_out d7 _ _ (data x) Hph Hlen Hu8) as [_ HS8].
    apply (HQ (outsl 496 (data x) d7)); [|done]. unfold serve. rewrite Hd, HS8, HS7, HS. done.
  - change read_cmd with 32. destruct (ata_command 32 d6 HP E1 ltac:(by left)) as [Hph HS7].
    cbn [Z.eqb Pos.eqb] in Hph. rewrite E2, E3 in Hph.
    apply doutb_wp. cbn [io set_io]. apply (HQ (outb 503 32 d6)); [|done].
    unfold serve. rewrite Hd, HS7, HS. done.
Qed.

(** *** The queue *)

(** [q] is the chain of buffers from [p] on. *)
Fixpoint chain (nx : nat -> option nat) (p : option nat) (q : list nat) : Prop :=
  match q with
  | [] => p = None
  | b :: q' => p = Some b /\ chain nx (nx b) q'
  end.

Lemma chain_ext nx nx' q : forall p, (forall b, b ∈ q -> nx' b = nx b) -> chain nx p q -> chain nx' p q.
Proof.
  induction q as [|b q IH]; intros p He; [done|]. intros [-> Hc]. split; [done|].
  rewrite He by set_solver. apply IH; [|done]. intros c Hin. apply He. set_solver.
Qed.

Lemma last_cons {A} (q : list A) : forall x d, List.last (x :: q) d = List.last q x.
Proof.
  induction q as [|y q IH]; intros x d; [done|].
  change (List.last (y :: q) d = List.last (y :: q) x). by rewrite !IH.
Qed.
Lemma last_in {A} (q : list A) : forall x, List.last q x ∈ x :: q.
Proof.
  induction q as [|y q IH]; intros x; [by left|]. rewrite last_cons. right. apply IH.
Qed.

(** Linking [b] behind the last buffer of a chain. *)
Lemma chain_snoc nx b q : forall c, NoDup (c :: q) -> b ∉ c :: q -> nx b = None -> chain nx (nx c) q ->
  chain (<[List.last q c := Some b]> nx) (<[List.last q c := Some b]> nx c) (q ++ [b]).
Proof.
  induction q as [|x q IH]; intros c Hnd Hb Hnb Hc.
  - cbn [List.last app]. rewrite fn_lookup_insert. cbn [chain]. split; [done|].
    rewrite fn_lookup_insert_ne by set_solver. done.
  - destruct Hc as [Hx Hc]. apply NoDup_cons in Hnd as [Hcx Hnd].
    rewrite last_cons. pose proof (last_in q x) as Hlin.
    split.
    + rewrite fn_lookup_insert_ne; [done|]. intros E. apply Hcx. by rewrite <- E.
    + apply IH; [done|set_solver|done|done].
Qed.

(** The walk ends at the last buffer. *)
Lemma append_loop_wp b q : forall fuel pp c (s : ist) (Q : unit -> ctx -> ist -> Prop),
  chain (qnext s) (read_pp pp s) q -> (length q < fuel)%nat ->
  Q tt c (write_pp (List.last (Some <$> q) pp) (Some b) s) -> wp (append_loop fuel pp b) c s Q.
Proof.
  induction q as [|x q IH]; intros [|fuel] pp c s Q Hc Hf HQ; cbn [length] in Hf; try lia;
    cbn [append_loop]; apply wp_bind, wp_gets.
  - cbn [chain] in Hc. rewrite Hc. apply wp_modify. exact HQ.
  - destruct Hc as [-> Hc]. apply IH; [exact Hc|lia|].
    by rewrite fmap_cons, last_cons in HQ.
Qed.

(** [q] is the queue and [k] the disks as of the requests served so far; the
    head of the queue has been handed to the disk. *)
Record ide_inv (s : ist) (q : list nat) (k : disks) : Prop := {
  iq_chain : chain (qnext s) (idequeue s) q;
  iq_nodup : NoDup q;
  iq_request : Forall (fun b => request (ibufs s b)) q;
  iq_disk : sectors (io s) = match q with [] => k | b :: _ => (serve k (ibufs s b)).2 end;
  iq_phase : forall b, head q = Some b -> dirty (ibufs s b) = false ->
    phase (io s) = PIn (drive (ibufs s b)) (blockno (ibufs s b))
}.

Lemma request_pending x : request x -> Z.land (flags x) (Z.lor B_VALID B_DIRTY) =? B_VALID = false.
Proof. intros ([-> | [-> | ->]] & _); done. Qed.

Lemma last_some (q : list nat) : forall x, List.last (Some <$> q) (Some x) = Some (List.last q x).
Proof.
  induction q as [|y q IH]; intros x; [done|]. rewrite fmap_cons, !last_cons. apply IH.
Qed.

(** The state change of [iderw] before the wait. *)
Lemma enqueue_wp fuel b q k c (s : ist) (Q : unit -> ctx -> ist -> Prop) :
  ide_inv s q k -> b ∉ q -> request (ibufs s b) ->
  (max_polls (D := D) < fuel)%nat -> (length q < fuel)%nat ->
  (forall s', ide_inv s' (q ++ [b]) k -> ibufs s' = ibufs s -> havedisk1 s' = havedisk1 s -> Q tt c s') ->
  wp (modify (set_qnext b None);; append_loop fuel None b;; p ← gets idequeue;
      when (bool_decide (p = Some b)) (idestart fuel (Some b))) c s Q.
Proof.
  intros [Hch Hnd Hrq Hdk Hph] Hb Hr Hf1 Hf2 HQ. apply wp_bind, wp_modify, wp_bind.
  set (s1 := set_qnext b None s).
  assert (Hc1 : chain (qnext s1) (idequeue s1) q).
  { apply chain_ext with (qnext s); [|done]. intros x Hx. cbn. rewrite fn_lookup_insert_ne; [done|].
    by intros <-. }
  assert (Hn1 : qnext s1 b = None) by (cbn; by rewrite fn_lookup_insert).
  apply append_loop_wp with q; [exact Hc1|done|]. apply wp_bind, wp_gets.
  destruct q as [|b0 q].
  - cbn [write_pp List.last fmap list_fmap]. cbn [idequeue set_queue].
    rewrite bool_decide_true by done. cbn [when]. apply idestart_wp; [done|done|].
    intros d' HS HP. apply HQ; [|done|done]. constructor; cbn.
    + split; [done|]. exact Hn1.
    + apply NoDup_singleton.
    + by apply Forall_singleton.
    + rewrite HS. cbn. by rewrite Hdk.
    + intros ? [= <-]. apply HP.
  - rewrite fmap_cons, last_cons, last_some. cbn [write_pp]. destruct Hc1 as [Hh Hc1].
    cbn [idequeue set_qnext]. cbn [idequeue s1] in Hh. rewrite Hh.
    rewrite bool_decide_false by (intros [= ->]; set_solver). cbn [when]. apply wp_ret.
    apply HQ; [|done|done]. constructor; cbn [app].
    + split; [exact Hh|]. cbn [qnext set_qnext]. by apply chain_snoc.
    + rewrite app_comm_cons. apply NoDup_app. split_and!; [done| |apply NoDup_singleton]. set_solver.
    + rewrite app_comm_cons, Forall_app.
      split; [exact Hrq|by apply Forall_singleton].
    + exact Hdk.
    + intros x [= <-]. by apply Hph.
Qed.

(** Submitting a request: it joins the queue, the buffers do not change, and
    the caller sleeps on its buffer. *)
Lemma iderw_blocks fuel b q k c (s : ist) :
  ide_inv s q k -> b ∉ q -> request (ibufs s b) -> block_lock (ibufs s b) = Sleeplock true (mypid c) ->
  dev (ibufs s b) = 0 \/ havedisk1 s = true -> held c = [] ->
  (max_polls (D := D) < fuel)%nat -> (length q < fuel)%nat ->
  blocks (iderw fuel b) c s (fun ch _ s' =>
    ch = ChBuf b /\ ide_inv s' (q ++ [b]) k /\ ibufs s' = ibufs s /\ havedisk1 s' = havedisk1 s).
Proof.
  intros Hi Hb Hr Hl Hd Hc Hf1 Hf2. unfold iderw.
  apply blocks_bind, holdingsleep_wp; [rewrite Hc; apply not_elem_of_nil|].
  rewrite Hl. cbn [locked lpid]. rewrite Z.eqb_refl. cbn [andb negb].
  apply blocks_bind, wp_gets. rewrite (request_pending _ Hr). apply blocks_bind, wp_gets.
  assert (negb (dev (ibufs s b) =? 0) && negb (havedisk1 s) = false) as ->.
  { destruct Hd as [-> | ->]; [done|]. by rewrite andb_false_r. }
  apply blocks_bind, wp_acquire; [rewrite Hc; apply not_elem_of_nil|].
  pose proof (enqueue_wp fuel b q k (set_held (Lide :: held c) c) s
    (fun _ c' s' => c' = set_held (Lide :: held c) c /\ ide_inv s' (q ++ [b]) k /\
       ibufs s' = ibufs s /\ havedisk1 s' = havedisk1 s) Hi Hb Hr Hf1 Hf2 ltac:(done)) as Hw.
  apply wp_bind_inv in Hw. apply blocks_bind. eapply wp_mono; [|exact Hw]. clear Hw. cbv beta.
  intros _ c1 s1 Hw. apply wp_bind_inv in Hw. apply blocks_bind. eapply wp_mono; [|exact Hw].
  clear Hw. cbv beta. intros _ c2 s2 Hw. apply wp_bind_inv in Hw. apply blocks_bind.
  eapply wp_mono; [|exact Hw]. clear Hw. cbv beta. intros p c3 s3 Hw. apply blocks_bind.
  eapply wp_mono; [|exact Hw]. clear Hw. cbv beta. intros _ c4 s4 (-> & H1 & H2 & H3).
  unfold iderw_wait. apply blocks_bind, wp_gets. rewrite H2, (request_pending _ Hr). cbn [negb].
  apply blocks_sleep; [cbn; by rewrite Hc|]. done.
Qed.

(** What the interrupt makes of the request at the head of the queue: a
    failed read leaves the old data. *)
Definition finish (ok : bool) (k : disks) (x : buf) : buf * disks :=
  if dirty x || ok then serve k x else (set_flags B_VALID x, k).

Lemma finish_disk ok k x : (finish ok k x).2 = (serve k x).2.
Proof. unfold finish, serve. by destruct (dirty x), ok. Qed.

(** The flags after the two updates of the handler. *)
Lemma served_flags x : request x -> Z.land (Z.lor (flags x) B_VALID) (Z.lnot B_DIRTY) = B_VALID.
Proof. intros ([-> | [-> | ->]] & _); done. Qed.

(** Collecting the data of the finished request. *)
Lemma collect_wp fuel b k c (s : ist) (Q : unit -> ctx -> ist -> Prop) :
  request (ibufs s b) -> (max_polls (D := D) < fuel)%nat ->
  sectors (io s) = (serve k (ibufs s b)).2 ->
  (dirty (ibufs s b) = false -> phase (io s) = PIn (drive (ibufs s b)) (blockno (ibufs s b))) ->
  (forall d' x', sectors d' = sectors (io s) ->
     set_flags B_VALID x' = (finish (negb (failed (io s))) k (ibufs s b)).1 ->
     flags x' = flags (ibufs s b) ->
     forall s', qnext s' = qnext s -> idequeue s' = idequeue s -> havedisk1 s' = havedisk1 s ->
       io s' = d' -> ibufs s' b = x' -> (forall j, j <> b -> ibufs s' j = ibufs s j) -> Q tt c s') ->
  wp (f ← gets (fun s => flags (ibufs s b));
      (if Z.land f B_DIRTY =? 0 then
         r ← idewait fuel true;
         when (0 <=? r) (fun c s =>
           let '(l, d) := insl 496 (Z.to_nat (BSIZE / 4)) (io s) in
           Ok tt c (set_ibuf b (set_data l (ibufs s b)) (set_io d s)))
       else mret tt)) c s Q.
Proof.
  intros Hr Hf HS HP HQ. apply wp_bind, wp_gets. set (x := ibufs s b) in *.
  assert (Ed : Z.land (flags x) B_DIRTY =? 0 = negb (dirty x)) by (unfold dirty; by rewrite negb_involutive).
  rewrite Ed. destruct (dirty x) eqn:Hd; cbn [negb].
  - apply wp_ret. eapply (HQ (io s) x); try done. unfold finish, serve. by rewrite Hd.
  - apply wp_bind. unfold idewait. apply wp_bind, idewait_loop_wp.
    { eapply Nat.le_lt_trans; [apply ata_polls|done]. }
    intros r d0 P0 S0 T0 Ph0 F0 Hfail. apply wp_ret.
    change (Z.lor IDE_DF IDE_ERR) with 33. cbn [andb].
    destruct (failed (io s)) eqn:Hfd.
    + rewrite (proj2 (Z.eqb_neq (Z.land r 33) 0)) by (apply Hfail; done). cbn [negb].
      apply wp_when; [done|]. intros _.
      eapply (HQ d0 x); try done. unfold finish, serve. by rewrite Hd.
    + assert (Z.land r 33 = 0) as -> by (destruct (decide (Z.land r 33 = 0)) as [|Hn]; [done|by apply Hfail in Hn]).
      cbn [negb Z.eqb]. apply wp_when; [|done]. intros _. unfold wp. cbn [io set_io].
      destruct (ata_in d0 (drive x) (blockno x) P0 F0) as (I1 & _ & _ & I4); [by rewrite Ph0, HP|].
      change (Z.to_nat (BSIZE / 4)) with 128%nat.
      destruct (insl 496 128 d0) as [l d1]. cbn [fst snd] in *.
      apply (HQ d1 (set_data l x)); try done; [congruence| | |].
      * unfold finish, serve in *. rewrite Hd in *. cbn [orb negb fst snd] in *.
        rewrite I1, S0, HS. done.
      * cbn. by rewrite fn_lookup_insert.
      * intros j Hj. cbn. by rewrite fn_lookup_insert_ne by done.
Qed.

(** The interrupt handler finishes the head of the queue, wakes its process
    and starts the next request. *)
Lemma ideintr_wp fuel b q k c (s : ist) (Q : unit -> ctx -> ist -> Prop) :
  ide_inv s (b :: q) k -> Lide ∉ held c -> Lptable ∉ held c -> (max_polls (D := D) < fuel)%nat ->
  (forall s', let r := finish (negb (failed (io s))) k (ibufs s b) in
     ide_inv s' q r.2 -> ibufs s' b = r.1 -> (forall j, j <> b -> ibufs s' j = ibufs s j) ->
     havedisk1 s' = havedisk1 s -> Q tt (add_woken (ChBuf b) c) s') ->
  wp (ideintr fuel) c s Q.
Proof.
  intros [[Hq Hch] Hnd Hrq Hdk Hph] Hc1 Hc2 Hf HQ. unfold ideintr.
  apply NoDup_cons in Hnd as [Hbq Hnd]. apply Forall_cons in Hrq as [Hrb Hrq].
  apply wp_bind, wp_acquire; [done|]. apply wp_bind, wp_gets. rewrite Hq.
  apply wp_bind, wp_gets, wp_bind, wp_modify.
  set (c1 := set_held (Lide :: held c) c). set (s1 := set_queue (qnext s b) s).
  assert (Hcol : forall QQ : unit -> ctx -> ist -> Prop, (forall d' x', sectors d' = sectors (io s1) ->
     set_flags B_VALID x' = (finish (negb (failed (io s))) k (ibufs s b)).1 ->
     flags x' = flags (ibufs s b) ->
     forall s', qnext s' = qnext s -> idequeue s' = qnext s b -> havedisk1 s' = havedisk1 s ->
       io s' = d' -> ibufs s' b = x' -> (forall j, j <> b -> ibufs s' j = ibufs s j) -> QQ tt c1 s') -> _)
    by exact (fun QQ => collect_wp fuel b k c1 s1 QQ Hrb Hf Hdk (Hph b eq_refl)).
  specialize (Hcol (fun _ c' s' => c' = c1 /\ sectors (io s') = sectors (io s) /\
     set_flags B_VALID (ibufs s' b) = (finish (negb (failed (io s))) k (ibufs s b)).1 /\
     flags (ibufs s' b) = flags (ibufs s b) /\ qnext s' = qnext s /\ idequeue s' = qnext s b /\
     havedisk1 s' = havedisk1 s /\ (forall j, j <> b -> ibufs s' j = ibufs s j))).
  cbv beta in Hcol.
  assert (Hcol' := Hcol ltac:(intros d' x' HS HF Hfl s' E1 E2 E3 E4 E5 E6; by subst d' x')).
  clear Hcol. apply wp_bind_inv in Hcol'. apply wp_bind. eapply wp_mono; [|exact Hcol'].
  clear Hcol'. cbv beta. intros f c2 s2 Hm. apply wp_bind. eapply wp_mono; [|exact Hm].
  clear Hm f c2 s2. cbv beta. intros _ c2 s2 (-> & HS & HF & Hfl & E1 & E2 & E3 & E6).
  do 2 (apply wp_bind, wp_modify).
  set (s3 := set_ibuf b _ (set_ibuf b _ s2)).
  assert (B3 : ibufs s3 b = (finish (negb (failed (io s))) k (ibufs s b)).1).
  { cbn. rewrite !fn_lookup_insert. cbn [flags set_flags]. rewrite Hfl, served_flags by done.
    rewrite <- HF. done. }
  assert (J3 : forall j, j <> b -> ibufs s3 j = ibufs s j).
  { intros j Hj. cbn. rewrite !fn_lookup_insert_ne by done. by apply E6. }
  apply wp_bind, wp_wakeup; [by intros [|]%elem_of_cons|]. apply wp_bind, wp_gets.
  change (idequeue s3) with (idequeue s2). rewrite E2.
  assert (Hch3 : chain (qnext s3) (qnext s b) q) by (change (qnext s3) with (qnext s2); by rewrite E1).
  assert (Hrq3 : Forall (fun j => request (ibufs s3 j)) q).
  { rewrite Forall_forall in Hrq |- *. intros j Hj. rewrite J3 by (intros ->; done). by apply Hrq. }
  destruct q as [|b' q].
  - cbn [chain] in Hch. rewrite Hch. apply wp_bind, wp_ret.
    eapply wp_release_head; [reflexivity|]. replace (set_held _ _) with (add_woken (ChBuf b) c)
      by by destruct c.
    apply HQ; [|exact B3|exact J3|done]. constructor; [|done|done| |done].
    + cbn [chain]. change (idequeue s3) with (idequeue s2). by rewrite E2.
    + change (io s3) with (io s2). by rewrite HS, Hdk, finish_disk.
  - destruct Hch as [Hh Hch]. rewrite Hh. apply wp_bind, idestart_wp.
    { by apply Forall_inv in Hrq3. } { done. }
    intros d' HS' HP'. eapply wp_release_head; [reflexivity|].
    replace (set_held _ _) with (add_woken (ChBuf b) c) by by destruct c.
    apply HQ; [|exact B3|exact J3|done]. constructor; [|done|exact Hrq3| |].
    + change (chain (qnext s3) (idequeue s2) (b' :: q)). by rewrite E2.
    + cbn [io set_io]. rewrite HS'. change (io s3) with (io s2). by rewrite HS, Hdk, finish_disk.
    + intros ? [= <-]. exact HP'.
Qed.

(** An interrupt with nothing queued changes nothing. *)
Lemma ideintr_idle fuel k c (s : ist) (Q : unit -> ctx -> ist -> Prop) :
  ide_inv s [] k -> Lide ∉ held c -> Q tt c s -> wp (ideintr fuel) c s Q.
Proof.
  intros [Hq _ _ _ _] Hc HQ. cbn [chain] in Hq. unfold ideintr.
  apply wp_bind, wp_acquire; [done|]. apply wp_bind, wp_gets. rewrite Hq.
  eapply wp_release_head; [reflexivity|]. by destruct c.
Qed.

(** A woken process returns from [iderw] exactly when its request is done. *)
Lemma iderw_resume_wp b c (s : ist) (Q : unit -> ctx -> ist -> Prop) :
  flags (ibufs s b) = B_VALID -> Lide ∉ held c -> Q tt c s -> wp (iderw_resume b) c s Q.
Proof.
  intros Hf Hc HQ. unfold iderw_resume, iderw_wait. apply wp_bind, wp_acquire; [done|].
  apply wp_bind, wp_gets. rewrite Hf. eapply wp_release_head; [reflexivity|]. by destruct c.
Qed.
Lemma iderw_resume_blocks b c (s : ist) :
  request (ibufs s b) -> held c = [] ->
  blocks (iderw_resume b) c s (fun ch _ s' => ch = ChBuf b /\ s' = s).
Proof.
  intros Hr Hc. unfold iderw_resume, iderw_wait.
  apply blocks_bind, wp_acquire; [rewrite Hc; apply not_elem_of_nil|].
  apply blocks_bind, wp_gets. rewrite (request_pending _ Hr). cbn [negb].
  apply blocks_sleep; [cbn; by rewrite Hc|]. done.
Qed.

(** *** All interleavings *)

(** Runs of the driver: processes call [iderw] on buffers they have locked,
    the disk interrupts, woken processes test their request again, and
    buffers whose owner is not asleep in [iderw] change freely.  [sub] are
    the requests made, in order, with the contents of their buffers; [don]
    the buffers as the handler returned them, in order; [w] the buffers whose
    owners are asleep. *)
Inductive ide_run (fuel : nat) (k0 : disks) :
  ist -> list (nat * buf) -> list (nat * buf) -> list nat -> Prop :=
| run_start s : idequeue s = None -> sectors (io s) = k0 -> ide_run fuel k0 s [] [] []
| run_submit s sub don w b c ch c' s' : ide_run fuel k0 s sub don w ->
    b ∉ w -> (b < NBUF)%nat -> request (ibufs s b) ->
    block_lock (ibufs s b) = Sleeplock true (mypid c) ->
    dev (ibufs s b) = 0 \/ havedisk1 s = true -> held c = [] ->
    iderw fuel b c s = Block ch c' s' ->
    ide_run fuel k0 s' (sub ++ [(b, ibufs s b)]) don (b :: w)
| run_interrupt s sub don w c c' s' : ide_run fuel k0 s sub don w ->
    Lide ∉ held c -> Lptable ∉ held c -> failed (io s) = false ->
    ideintr fuel c s = Ok tt c' s' ->
    ide_run fuel k0 s' sub
      (don ++ match idequeue s with Some b => [(b, ibufs s' b)] | None => [] end) w
| run_return s sub don w b c c' s' : ide_run fuel k0 s sub don w ->
    b ∈ w -> Lide ∉ held c -> iderw_resume b c s = Ok tt c' s' ->
    ide_run fuel k0 s' sub don (filter (fun j => j <> b) w)
| run_client s sub don w b x : ide_run fuel k0 s sub don w -> b ∉ w ->
    ide_run fuel k0 (set_ibuf b x s) sub don w.

(** The requests served one after the other. *)
Fixpoint replay (k : disks) (sub : list (nat * buf)) : list (nat * buf) * disks :=
  match sub with
  | [] => ([], k)
  | (b, x) :: sub' => let '(y, k1) := serve k x in
                      let '(don, k2) := replay k1 sub' in ((b, y) :: don, k2)
  end.

Lemma replay_snoc sub b x : forall k, replay k (sub ++ [(b, x)]) =
  ((replay k sub).1 ++ [(b, (serve (replay k sub).2 x).1)], (serve (replay k sub).2 x).2).
Proof.
  induction sub as [|[b' x'] sub IH]; intros k; cbn [app replay fst snd].
  - by destruct (serve k x).
  - destruct (serve k x') as [y k1]. rewrite IH. by destruct (replay k1 sub) as [don k2].
Qed.

Definition snapshot (s : ist) (q : list nat) : list (nat * buf) := (fun b => (b, ibufs s b)) <$> q.

Lemma snapshot_ext s s' q : (forall b, b ∈ q -> ibufs s' b = ibufs s b) -> snapshot s' q = snapshot s q.
Proof.
  intros He. apply list_fmap_ext. intros i b Hb. rewrite He; [done|]. by eapply list_elem_of_lookup_2.
Qed.

(** The invariant of a run. *)
Record run_inv (k0 : disks) (s : ist) (sub don : list (nat * buf)) (w q : list nat) (k : disks)
    (sub1 : list (nat * buf)) : Prop := {
  ri_inv : ide_inv s q k;
  ri_sub : sub = sub1 ++ snapshot s q;
  ri_replay : replay k0 sub1 = (don, k);
  ri_asleep : forall b, b ∈ q -> b ∈ w;
  ri_done : forall b, b ∈ w -> b ∉ q -> flags (ibufs s b) = B_VALID;
  ri_bound : Forall (fun b => (b < NBUF)%nat) q
}.

Lemma run_inv_length k0 s sub don w q k sub1 :
  run_inv k0 s sub don w q k sub1 -> (length q <= NBUF)%nat.
Proof.
  intros Hr. transitivity (length (seq 0 NBUF)); [|by rewrite length_seq]. apply submseteq_length, NoDup_submseteq.
  - apply (iq_nodup _ _ _ (ri_inv _ _ _ _ _ _ _ _ Hr)).
  - intros b Hb. pose proof (ri_bound _ _ _ _ _ _ _ _ Hr) as Hf. rewrite Forall_forall in Hf.
    specialize (Hf b Hb). apply elem_of_seq. lia.
Qed.

Lemma run_inv_submit k0 s sub don w q k sub1 b s' : run_inv k0 s sub don w q k sub1 ->
  b ∉ w -> (b < NBUF)%nat -> ide_inv s' (q ++ [b]) k -> ibufs s' = ibufs s ->
  run_inv k0 s' (sub ++ [(b, ibufs s b)]) don (b :: w) (q ++ [b]) k sub1.
Proof.
  intros [Hi Hs Hr Ha Hd Hb] Hw Hn Hi' E. constructor; try done.
  - rewrite Hs, <- app_assoc. f_equal. unfold snapshot. rewrite fmap_app, E. done.
  - intros j [Hj | ->%list_elem_of_singleton]%elem_of_app; [right; by apply Ha|by left].
  - intros j [-> |Hj]%elem_of_cons Hnq; rewrite E.
    + destruct Hnq. apply elem_of_app. right. by left.
    + apply Hd; [done|]. intros Hq. apply Hnq, elem_of_app. by left.
  - apply Forall_app. split; [done|by apply Forall_singleton].
Qed.

Lemma run_inv_interrupt k0 s sub don w b q k sub1 s' : run_inv k0 s sub don w (b :: q) k sub1 ->
  ide_inv s' q (serve k (ibufs s b)).2 -> ibufs s' b = (serve k (ibufs s b)).1 ->
  (forall j, j <> b -> ibufs s' j = ibufs s j) ->
  run_inv k0 s' sub (don ++ [(b, ibufs s' b)]) w q (serve k (ibufs s b)).2
    (sub1 ++ [(b, ibufs s b)]).
Proof.
  intros [Hi Hs Hr Ha Hd Hb] Hi' E1 E2.
  pose proof (iq_nodup _ _ _ Hi) as Hnd. apply NoDup_cons in Hnd as [Hbq _].
  constructor; try done.
  - rewrite Hs, <- app_assoc. f_equal. unfold snapshot. rewrite fmap_cons. cbn [app]. f_equal.
    symmetry. apply snapshot_ext. intros j Hj. apply E2. by intros ->.
  - rewrite replay_snoc, Hr, E1. done.
  - intros j Hj. apply Ha. by right.
  - intros j Hj Hnq. destruct (decide (j = b)) as [->|Hne].
    + rewrite E1. unfold serve. by destruct (dirty (ibufs s b)).
    + rewrite E2 by done. apply Hd; [done|]. by intros [|]%elem_of_cons.
  - by apply Forall_cons in Hb as [_ Hb].
Qed.

Lemma run_inv_return k0 s sub don w q k sub1 b : run_inv k0 s sub don w q k sub1 -> b ∉ q ->
  run_inv k0 s sub don (filter (fun j => j <> b) w) q k sub1.
Proof.
  intros [Hi Hs Hr Ha Hd Hb] Hn. constructor; try done.
  - intros j Hj. apply list_elem_of_filter. split; [by intros ->|by apply Ha].
  - intros j Hj. apply list_elem_of_filter in Hj as [_ Hj]. by apply Hd.
Qed.

Lemma run_inv_client k0 s sub don w q k sub1 b x : run_inv k0 s sub don w q k sub1 -> b ∉ w ->
  run_inv k0 (set_ibuf b x s) sub don w q k sub1.
Proof.
  intros [Hi Hs Hr Ha Hd Hb] Hn.
  assert (He : forall j, j <> b -> ibufs (set_ibuf b x s) j = ibufs s j).
  { intros j Hj. cbn. by rewrite fn_lookup_insert_ne. }
  assert (Hq : forall j, j ∈ q -> ibufs (set_ibuf b x s) j = ibufs s j).
  { intros j Hj. apply He. intros ->. by apply Hn, Ha. }
  constructor; try done.
  - destruct Hi as [H1 H2 H3 H4 H5]. constructor; try done.
    + rewrite Forall_forall in H3 |- *. intros j Hj. rewrite Hq by done. by apply H3.
    + cbn [io set_ibuf]. destruct q as [|b' q]; [done|]. rewrite Hq by by left. done.
    + intros b' Hb'. rewrite Hq by (destruct q; [done|]; injection Hb' as ->; by left).
      by apply H5.
  - rewrite Hs. f_equal. symmetry. by apply snapshot_ext.
  - intros j Hj Hnq. rewrite He by (by intros ->). by apply Hd.
Qed.

Section runs.
Context (fuel : nat).
Hypothesis fuel_polls : (max_polls (D := D) < fuel)%nat.
Hypothesis fuel_queue : (NBUF < fuel)%nat.

Lemma finish_sound (d : D) k x : failed d = false -> finish (negb (failed d)) k x = serve k x.
Proof. intros ->. unfold finish. by rewrite orb_true_r. Qed.

Lemma run_preserves k0 s sub don w : ide_run fuel k0 s sub don w ->
  exists q k sub1, run_inv k0 s sub don w q k sub1.
Proof using All.
  induction 1 as [s Hq Hk|s sub don w b c ch c' s' _ (q & k & sub1 & IH) Hw Hn Hr Hl Hd Hc E
    |s sub don w c c' s' _ (q & k & sub1 & IH) H1 H2 Hok E
    |s sub don w b c c' s' _ (q & k & sub1 & IH) Hb Hc E|s sub don w b x _ (q & k & sub1 & IH) Hw].
  - exists [], k0, []. constructor; try done. constructor; try done. apply NoDup_nil_2.
  - exists (q ++ [b]), k, sub1. pose proof (run_inv_length _ _ _ _ _ _ _ _ IH) as Hlen.
    pose proof (iderw_blocks fuel b q k c s (ri_inv _ _ _ _ _ _ _ _ IH)) as Hbl.
    unfold blocks in Hbl. rewrite E in Hbl.
    destruct Hbl as (_ & Hi' & Eb & _); try done; [|lia|].
    + intros Hin. apply Hw. by apply (ri_asleep _ _ _ _ _ _ _ _ IH).
    + by apply run_inv_submit.
  - destruct q as [|b q].
    + exists [], k, sub1. pose proof (ri_inv _ _ _ _ _ _ _ _ IH) as Hi.
      pose proof (iq_chain _ _ _ Hi) as Hq. cbn [chain] in Hq.
      pose proof (ideintr_idle fuel k c s (fun _ _ s1 => s1 = s) Hi H1 eq_refl) as Hw.
      unfold wp in Hw. rewrite E in Hw. subst s'. rewrite Hq, app_nil_r. done.
    + exists q, (serve k (ibufs s b)).2, (sub1 ++ [(b, ibufs s b)]).
      pose proof (ri_inv _ _ _ _ _ _ _ _ IH) as Hi. pose proof (iq_chain _ _ _ Hi) as [Hq _].
      pose proof (ideintr_wp fuel b q k c s (fun _ _ s1 => ide_inv s1 q (serve k (ibufs s b)).2 /\
        ibufs s1 b = (serve k (ibufs s b)).1 /\ forall j, j <> b -> ibufs s1 j = ibufs s j) Hi H1 H2
        fuel_polls) as Hw.
      unfold wp in Hw. rewrite E in Hw. rewrite finish_sound in Hw by done. cbv zeta in Hw.
      destruct Hw as (Hi' & E1 & E2); [done|]. rewrite Hq. by apply run_inv_interrupt.
  - exists q, k, sub1.
    assert (Hnq : b ∉ q).
    { intros Hin. pose proof (iq_request _ _ _ (ri_inv _ _ _ _ _ _ _ _ IH)) as Hf.
      rewrite Forall_forall in Hf. specialize (Hf b Hin). revert E.
      unfold iderw_resume, iderw_wait, acquire, gets, mbind, M_bind, obind.
      rewrite decide_False by done. rewrite (request_pending _ Hf). cbn [negb].
      unfold sleep, sched_out, acquire, release, mbind, M_bind, obind.
      rewrite decide_False by done. repeat case_decide; done. }
    pose proof (iderw_resume_wp b c s (fun _ _ s1 => s1 = s)
      (ri_done _ _ _ _ _ _ _ _ IH b Hb Hnq) Hc eq_refl) as Hw.
    unfold wp in Hw. rewrite E in Hw. subst s'. by apply run_inv_return.
  - exists q, k, sub1. by apply run_inv_client.
Qed.

(** C4: the driver serves its requests one at a time in the order they were
    made, whatever the interleaving of callers and interrupts, as long as the
    disk reports no error.  At any
    moment the requests made are those served, whose results and effect on
    the disks are those of serving them sequentially, followed by those
    still queued, whose owners are asleep with their buffers unchanged.
    A process whose request is served returns as soon as it runs, and an
    interrupt always returns, with the oldest queued request served and its
    owner woken. *)
Theorem ide_linearizable k0 s sub don w : ide_run fuel k0 s sub don w ->
  exists served waiting k,
    sub = served ++ waiting /\ replay k0 served = (don, k) /\
    (waiting = [] -> sectors (io s) = k) /\
    Forall (fun '(b, x) => b ∈ w /\ ibufs s b = x) waiting /\
    (forall b c, b ∈ w -> b ∉ waiting.*1 -> Lide ∉ held c ->
       wp (iderw_resume b) c s (fun _ c' s' => c' = c /\ s' = s)) /\
    (forall c, Lide ∉ held c -> Lptable ∉ held c -> failed (io s) = false ->
       wp (ideintr fuel) c s (fun _ c' s' =>
         match waiting with
         | [] => c' = c /\ s' = s
         | (b, x) :: _ => c' = add_woken (ChBuf b) c /\ ibufs s' b = (serve k x).1
         end)).
Proof using All.
  intros Hrun. destruct (run_preserves _ _ _ _ _ Hrun) as (q & k & sub1 & Hr).
  destruct Hr as [Hi Hs Hrp Ha Hd Hb]. exists sub1, (snapshot s q), k. split_and!; [done|done|..].
  - intros Hq. unfold snapshot in Hq. apply fmap_nil_inv in Hq. subst q. apply (iq_disk _ _ _ Hi).
  - unfold snapshot. rewrite Forall_fmap, Forall_forall. intros b Hin. cbn. by split; [apply Ha|].
  - intros b c Hw Hn Hc. apply iderw_resume_wp; [|done|done]. apply Hd; [done|].
    intros Hq. apply Hn. unfold snapshot. rewrite <- list_fmap_compose. apply list_elem_of_fmap.
    by exists b.
  - intros c H1 H2 Hok. destruct q as [|b q]; cbn [snapshot fmap list_fmap].
    + by eapply ideintr_idle.
    + eapply ideintr_wp; try done. cbv zeta. intros s' _ E _ _. by rewrite finish_sound in E by done.
Qed.
End runs.

(** C40: a read that the disk reports as failed is nevertheless completed: the
    interrupt handler marks the buffer valid without its data having been
    read, and its owner is woken to use whatever the buffer held before. *)
Theorem ideintr_failed_read fuel b q k c (s : ist) :
  ide_inv s (b :: q) k -> dirty (ibufs s b) = false -> failed (io s) = true ->
  Lide ∉ held c -> Lptable ∉ held c -> (max_polls (D := D) < fuel)%nat ->
  wp (ideintr fuel) c s (fun _ c' s' =>
    ibufs s' b = set_flags B_VALID (ibufs s b) /\ ChBuf b ∈ woken c' /\ ide_inv s' q k).
Proof.
  intros Hi Hd Hf H1 H2 Hp. eapply ideintr_wp; [done|done|done|done|].
  unfold finish. rewrite Hf, Hd. cbv zeta. cbn [negb orb fst snd]. intros s' Hi' E _ _.
  split_and!; [done| |done]. destruct c. cbn. set_solver.
Qed.
End driver.

(** ** The two disk drivers *)

(** The in-memory disk driver (memide.c) does to the buffer and the disk
    exactly what serving the request on the IDE disk does, so the buffer
    cache is correct over either. *)
Theorem memide_serves b c (s : bst) : request (bufs s b) -> dev (bufs s b) = 1 ->
  block_lock (bufs s b) = Sleeplock true (mypid c) -> Lbuf b ∉ held c ->
  blockno (bufs s b) < disksize s ->
  wp (Bio.iderw b) c s (fun _ _ s' =>
    let r := serve (fun _ => disk s) (bufs s b) in
    bufs s' b = r.1 /\ (forall n, disk s' n = r.2 1 n)).
Proof.
  intros Hr Hdev Hl Hc Hn. unfold Bio.iderw. wp_step. apply holdingsleep_wp; [done|].
  rewrite Hl. cbn [locked lpid]. rewrite Z.eqb_refl. cbn [andb negb]. do 2 wp_step. unfold id.
  rewrite (request_pending _ Hr), Hdev. change (negb (1 =? 1)) with false. cbn match. do 2 wp_step.
  rewrite Z.geb_leb, (proj2 (Z.leb_gt _ _)) by lia. fold (dirty (bufs s b)).
  unfold serve, drive. rewrite Hdev. change (Z.land 1 1) with 1.
  destruct (dirty (bufs s b)) eqn:Hd; wp_steps; cbn [bufs upd_buf disk fst snd];
    rewrite ?fn_lookup_insert; split.
  - unfold set_flags. cbn. f_equal. destruct Hr as ([E | [E | E]] & _); rewrite E; done.
  - intros n. unfold upd_sector. cbn [Z.eqb Pos.eqb andb]. destruct (Z.eqb_spec n (blockno (bufs s b))) as [->|Hne].
    + by rewrite fn_lookup_insert.
    + by rewrite fn_lookup_insert_ne.
  - unfold set_flags, set_data. cbn. f_equal. unfold dirty in Hd.
    destruct Hr as ([E | [E | E]] & _); by rewrite E in Hd |- *.
  - done.
Qed.

(** ** Examples *)

(** A zeroed disk; one buffer to write to block 5, one to read it back. *)
Lemma ex_zeroes : sector_data (replicate 512 0).
Proof. by_decide. Qed.
Definition ex_disk (err : bool) : ata_disk :=
  AtaDisk (fun _ _ => replicate 512 0) (Taskfile 0 0 0 0 0) PIdle err (fun _ _ => ex_zeroes).
Definition ex_bytes : list Z := replicate 512 7.
Definition ex_bufs (b : nat) : buf :=
  Buf (if Nat.eqb b 0 then B_DIRTY else 0) 1 5 (Sleeplock true 1) 1 0 0
    (if Nat.eqb b 0 then ex_bytes else replicate 512 0).
Definition ex_ide : ist ata_disk := Ist ex_bufs (fun _ => None) None true (ex_disk false).
#[local] Instance ex_mmio : Mmio ata_disk := { mmio_read _ d := (0, d); mmio_write _ _ d := d }.

Lemma ex_request b : request (ex_bufs b).
Proof. unfold request, ex_bufs. destruct (Nat.eqb b 0); (split_and!; [cbn; tauto|done|done|done|by_decide]). Qed.

(** The state a [Block] or a return leaves. *)
Definition after {S A} (o : outcome S A) (s : S) : S :=
  match o with Ok _ _ s' => s' | Block _ _ s' => s' | _ => s end.

Definition ex_ide1 : ist ata_disk := after (iderw 40 0 ctx0 ex_ide) ex_ide.
Definition ex_ide2 : ist ata_disk := after (iderw 40 1 ctx0 ex_ide1) ex_ide.
Definition ex_ide3 : ist ata_disk := after (ideintr 40 ctx0 ex_ide2) ex_ide.
Definition ex_ide4 : ist ata_disk := after (ideintr 40 ctx0 ex_ide3) ex_ide.
Definition ex_k0 : Z -> Z -> list Z := fun _ _ => replicate 512 0.

(** An outcome is what its state, context and channel say. *)
Lemma block_after {S A} (o : outcome S A) s : (if o is Block _ _ _ then True else False) ->
  exists ch c', o = Block ch c' (after o s).
Proof. destruct o as [a c' s'|m|ch c' s'|]; try done. intros _. by exists ch, c'. Qed.
Lemma ok_after {S} (o : outcome S unit) s : (if o is Ok _ _ _ then True else False) ->
  exists c', o = Ok tt c' (after o s).
Proof. destruct o as [[] c' s'|m|ch c' s'|]; try done. intros _. by exists c'. Qed.

Lemma ex_run : ide_run 40 ex_k0 ex_ide4 [(0%nat, ibufs ex_ide 0); (1%nat, ibufs ex_ide1 1)]
  [(0%nat, ibufs ex_ide3 0); (1%nat, ibufs ex_ide4 1)] [1%nat; 0%nat].
Proof.
  assert (R1 : ide_run 40 ex_k0 ex_ide1 [(0%nat, ibufs ex_ide 0)] [] [0%nat]).
  { destruct (block_after (iderw 40 0 ctx0 ex_ide) ex_ide) as (ch & c' & E); [vm_compute; exact I|].
    refine (run_submit 40 ex_k0 ex_ide [] [] [] 0%nat ctx0 ch c' ex_ide1 _ _ _ _ _ _ _ E);
      [by apply run_start|by_decide|unfold NBUF; lia|apply ex_request|done|by right|done]. }
  assert (R2 : ide_run 40 ex_k0 ex_ide2 [(0%nat, ibufs ex_ide 0); (1%nat, ibufs ex_ide1 1)] []
                 [1%nat; 0%nat]).
  { destruct (block_after (iderw 40 1 ctx0 ex_ide1) ex_ide) as (ch & c' & E); [vm_compute; exact I|].
    assert (Eb : ibufs ex_ide1 1%nat = ex_bufs 1) by (vm_compute; reflexivity).
    refine (run_submit 40 ex_k0 ex_ide1 _ [] [0%nat] 1%nat ctx0 ch c' ex_ide2 R1 _ _ _ _ _ _ E);
      [by_decide|unfold NBUF; lia|rewrite Eb; apply ex_request|by rewrite Eb|right; by vm_compute|done]. }
  assert (R3 : ide_run 40 ex_k0 ex_ide3 [(0%nat, ibufs ex_ide 0); (1%nat, ibufs ex_ide1 1)]
                 [(0%nat, ibufs ex_ide3 0)] [1%nat; 0%nat]).
  { destruct (ok_after (ideintr 40 ctx0 ex_ide2) ex_ide) as (c' & E); [vm_compute; exact I|].
    assert (Eq : idequeue ex_ide2 = Some 0%nat) by (vm_compute; reflexivity).
    pose proof (run_interrupt 40 ex_k0 ex_ide2 _ [] _ ctx0 c' ex_ide3 R2) as R. rewrite Eq in R.
    apply R; [by_decide|by_decide|by vm_compute|exact E]. }
  destruct (ok_after (ideintr 40 ctx0 ex_ide3) ex_ide) as (c' & E); [vm_compute; exact I|].
  assert (Eq : idequeue ex_ide3 = Some 1%nat) by (vm_compute; reflexivity).
  pose proof (run_interrupt 40 ex_k0 ex_ide3 _ _ _ ctx0 c' ex_ide4 R3) as R. rewrite Eq in R.
  apply R; [by_decide|by_decide|by vm_compute|exact E].
Qed.

Lemma ide_linearizable_witness :
  exists served waiting k,
    [(0%nat, ibufs ex_ide 0); (1%nat, ibufs ex_ide1 1)] = served ++ waiting /\
    replay ex_k0 served = ([(0%nat, ibufs ex_ide3 0); (1%nat, ibufs ex_ide4 1)], k) /\
    data (ibufs ex_ide4 1) = ex_bytes.
Proof.
  destruct (ide_linearizable 40) with (k0 := ex_k0) (s := ex_ide4)
    (sub := [(0%nat, ibufs ex_ide 0); (1%nat, ibufs ex_ide1 1)])
    (don := [(0%nat, ibufs ex_ide3 0); (1%nat, ibufs ex_ide4 1)]) (w := [1%nat; 0%nat])
    as (served & waiting & k & H1 & H2 & _).
  - simpl. lia.
  - unfold NBUF. lia.
  - exact ex_run.
  - exists served, waiting, k. split; [exact H1|]. split; [exact H2|]. vm_compute. reflexivity.
Defined.

Lemma ideintr_failed_read_witness :
  let s := after (iderw 40 1 ctx0 (Ist ex_bufs (fun _ => None) None true (ex_disk true))) ex_ide in
  wp (ideintr 40) ctx0 s (fun _ c' s' =>
    ibufs s' 1%nat = set_flags B_VALID (ibufs s 1%nat) /\ ChBuf 1 ∈ woken c' /\ ide_inv s' [] ex_k0).
Proof.
  intros s. apply (ideintr_failed_read 40 1%nat [] ex_k0 ctx0 s).
  - constructor.
    + split; reflexivity.
    + apply NoDup_singleton.
    + apply Forall_singleton. exact (ex_request 1).
    + reflexivity.
    + intros b [= <-] _. reflexivity.
  - reflexivity.
  - reflexivity.
  - by_decide.
  - by_decide.
  - simpl. lia.
Defined.

Lemma memide_serves_witness :
  let s := Bst ex_bufs 1000 (fun _ => zero_block) [] in
  wp (Bio.iderw 0) ctx0 s (fun _ _ s' =>
    let r := serve (fun _ => disk s) (bufs s 0%nat) in
    bufs s' 0%nat = r.1 /\ (forall n, disk s' n = r.2 1 n)).
Proof.
  intros s. apply (memide_serves 0%nat ctx0 s).
  - exact (ex_request 0).
  - reflexivity.
  - reflexivity.
  - by_decide.
  - reflexivity.
Defined.
