(* ===== verification/Boot.v ===== *)
(** * The boot loader (bootmain.c)

    [bootmain] reads the kernel's ELF image from the disk, one sector at a
    time, into physical memory.  Sectors overhang the segments they are read
    for; the theorem says under which layout of the segments this does no
    harm, and that memory then holds the kernel when its entry point is
    called. *)
From S2P Require Import Prelude CString Mmu Ports.
#[local] Set Default Proof Using "Type".

Definition SECTSIZE : Z := 512.
Definition ELF_MAGIC : Z := 1179403647.
(** The scratch space for the first page of the image. *)
Definition ELF_AT : Z := 65536.

Definition load16 (m : mem) (a : Z) : Z := m a + 256 * m (a + 1).

(** Bytes stored at [a] on, by the string instruction [insl]. *)
Fixpoint put_bytes (m : mem) (a : Z) (l : list Z) : mem :=
  match l with
  | [] => m
  | x :: l' => put_bytes (store8 m a x) (u32 (a + 1)) l'
  end.

(** The fields of [struct elfhdr] and [struct proghdr] (elf.h) that are used. *)
Definition eh_magic (m : mem) (a : Z) : Z := load32 m a.
Definition eh_entry (m : mem) (a : Z) : Z := load32 m (a + 24).
Definition eh_phoff (m : mem) (a : Z) : Z := load32 m (a + 28).
Definition eh_phnum (m : mem) (a : Z) : Z := load16 m (a + 44).
Definition PHDR : Z := 32.
Definition ph_off (m : mem) (a : Z) : Z := load32 m (a + 4).
Definition ph_paddr (m : mem) (a : Z) : Z := load32 m (a + 12).
Definition ph_filesz (m : mem) (a : Z) : Z := load32 m (a + 16).
Definition ph_memsz (m : mem) (a : Z) : Z := load32 m (a + 20).

Section boot.
Context {D : Type} `{Ports D} (fuel : nat).

Fixpoint waitdisk (n : nat) (d : D) : option D :=
  match n with
  | O => None
  | S n' => let '(r, d) := inb 503 d in
            if negb (Z.land r 192 =? 64) then waitdisk n' d else Some d
  end.

(** Read a single sector at [offset] into [dst]. *)
Definition readsect (dst offset : Z) (s : mem * D) : option (mem * D) :=
  let '(m, d) := s in
  d ← waitdisk fuel d;
  let d := outb 498 1 d in
  let d := outb 499 offset d in
  let d := outb 500 (Z.shiftr offset 8) d in
  let d := outb 501 (Z.shiftr offset 16) d in
  let d := outb 502 (Z.lor (Z.shiftr offset 24) 224) d in
  let d := outb 503 32 d in
  d ← waitdisk fuel d;
  let '(l, d) := insl 496 (Z.to_nat (SECTSIZE / 4)) d in
  Some (put_bytes m dst l, d).

Fixpoint readseg_loop (n : nat) (pa epa offset : Z) (s : mem * D) : option (mem * D) :=
  if negb (pa <? epa) then Some s else
  match n with
  | O => None
  | S n' =>
      s ← readsect pa offset s;
      readseg_loop n' (u32 (pa + SECTSIZE)) epa (u32 (offset + 1)) s
  end.

(** Read [count] bytes at [offset] of the image to [pa]. *)
Definition readseg (pa count offset : Z) (s : mem * D) : option (mem * D) :=
  let epa := u32 (pa + count) in
  let pa := u32 (pa - offset mod SECTSIZE) in
  let offset := u32 (offset / SECTSIZE + 1) in
  readseg_loop (Z.to_nat ((epa - pa) / SECTSIZE + 1)) pa epa offset s.

(** The loop over the program headers from [ph] to [eph]. *)
Fixpoint load_loop (n : nat) (ph eph : Z) (s : mem * D) : option (mem * D) :=
  if negb (ph <? eph) then Some s else
  match n with
  | O => None
  | S n' =>
      let m := s.1 in
      let pa := ph_paddr m ph in
      '(m1, d) ← readseg pa (ph_filesz m ph) (ph_off m ph) s;
      let m2 := if ph_filesz m1 ph <? ph_memsz m1 ph
                then stosb m1 (u32 (pa + ph_filesz m1 ph)) 0 (Z.to_nat (ph_memsz m1 ph - ph_filesz m1 ph))
                else m1 in
      load_loop n' (u32 (ph + PHDR)) eph (m2, d)
  end.

(** The entry point to call, or [None] inside when the image is no ELF file. *)
Definition bootmain (s : mem * D) : option (option Z * (mem * D)) :=
  let elf := ELF_AT in
  s ← readseg elf 4096 0 s;
  let m := s.1 in
  if negb (eh_magic m elf =? ELF_MAGIC) then Some (None, s) else
  let ph := u32 (elf + eh_phoff m elf) in
  let eph := u32 (ph + PHDR * eh_phnum m elf) in
  s ← load_loop (Z.to_nat (eh_phnum m elf)) ph eph s;
  Some (Some (eh_entry s.1 elf), s).
End boot.

(** ** Correctness *)

Lemma put_bytes_spec l : forall m a x, Forall is_u8 l -> 0 <= a -> a + Z.of_nat (length l) < 4294967296 ->
  put_bytes m a l x = if in_range a (Z.of_nat (length l)) x then nth (Z.to_nat (x - a)) l 0 else m x.
Proof.
  induction l as [|y l IH]; intros m a x Hl H0 H1; cbn [put_bytes length] in *.
  - unfold in_range. by zcases.
  - apply Forall_cons in Hl as [Hy Hl]. rewrite u32_small by (unfold is_u32; lia).
    rewrite IH by (done || lia). unfold in_range, store8.
    destruct (Z.eqb_spec x a) as [->|Hne].
    + zcases. rewrite Z.sub_diag. change (u8 y = y). unfold is_u8 in Hy. wrap_lia.
    + zcases; try done. replace (Z.to_nat (x - a)) with (S (Z.to_nat (x - (a + 1)))) by lia. done.
Qed.

(** The registers [readsect] writes select the sector. *)
Lemma taskfile_boot t n : 0 <= n < 268435456 ->
  let t' := tf_set 502 (Z.lor (Z.shiftr n 24) 224) (tf_set 501 (Z.shiftr n 16)
    (tf_set 500 (Z.shiftr n 8) (tf_set 499 n (tf_set 498 1 t)))) in
  tf_count t' = 1 /\ tf_lba t' = n /\ tf_drive t' = 0.
Proof.
  intros Hn. destruct t as [a0 a1 a2 a3 a4]. cbn [tf_set Z.eqb Pos.eqb]. cbv zeta.
  unfold tf_lba, tf_drive. cbn [tf_count tf_lba0 tf_lba1 tf_lba2 tf_dev].
  rewrite !Z.shiftr_div_pow2 by lia.
  change (2 ^ 8) with 256. change (2 ^ 16) with 65536. change (2 ^ 24) with 16777216.
  set (h := n / 16777216). assert (Hh : 0 <= h < 16) by (unfold h; wrap_lia).
  assert (E : forallb (fun h => (u8 (Z.lor h 224) mod 16 =? h) && (u8 (Z.lor h 224) / 16 mod 2 =? 0))
                (seqZ 0 16) = true) by by vm_compute.
  pose proof (seqZ_check _ _ E h Hh) as E'. cbv beta in E'.
  apply andb_true_iff in E' as [E1 E2]. apply Z.eqb_eq in E1, E2.
  rewrite E1, E2. split_and!; [done| |done]. unfold h. wrap_lia.
Qed.

(** ** Segments *)

(** A program header: where a segment is in the image and in memory. *)
Record seg := Seg { s_off : Z; s_paddr : Z; s_filesz : Z; s_memsz : Z }.

(** The memory [readseg] writes for it: whole sectors. *)
Definition sect_start (p : seg) : Z := s_paddr p - s_off p mod 512.
Definition sect_end (p : seg) : Z :=
  sect_start p + 512 * ((s_filesz p + s_off p mod 512 + 511) / 512).

Definition seg_wf (p : seg) : Prop :=
  0 <= s_off p < 4294967296 /\ 0 <= s_filesz p /\ 0 <= sect_start p /\
  s_paddr p + s_filesz p + 512 <= 4294967296 /\ s_paddr p + s_memsz p <= 4294967296.
#[export] Instance seg_wf_dec p : Decision (seg_wf p).
Proof. unfold seg_wf. apply _. Defined.

(** The memory a segment occupies, and all the memory that loading it writes. *)
Definition occupies (p : seg) (x : Z) : Prop :=
  s_paddr p <= x < s_paddr p + Z.max (s_filesz p) (s_memsz p).
Definition writes (p : seg) (x : Z) : Prop :=
  sect_start p <= x < sect_end p \/ occupies p x.

(** The boot sector, and [stack] bytes of stack below it (bootasm.S). *)
Definition loader (stack x : Z) : Prop := 31744 - stack <= x < 31744 + 512.

(** Layouts that can be loaded in order: no segment is loaded over the loader
    or the headers, nor over what a segment before it occupies. *)
Fixpoint layout (stack : Z) (ps : list seg) : Prop :=
  match ps with
  | [] => True
  | p :: ps' => seg_wf p /\ (forall x, writes p x -> ~ loader stack x /\ ~ (ELF_AT <= x < ELF_AT + 4096)) /\
      Forall (fun q => forall x, occupies p x -> ~ writes q x) ps' /\ layout stack ps'
  end.
Lemma layout_loader stack ps x : layout stack ps -> loader stack x -> Forall (fun p => ~ writes p x) ps.
Proof.
  induction ps as [|p ps IH]; intros Hl Hx; constructor; [|by apply IH; [apply Hl|]].
  intros Hw. by apply Hl in Hw as [[] _].
Qed.

(** Memory holds the segment: its bytes of the image, then zeros. *)
Definition loaded (im m : mem) (p : seg) : Prop :=
  (forall i, 0 <= i < s_filesz p -> m (s_paddr p + i) = im (s_off p + i)) /\
  (forall i, s_filesz p <= i < s_memsz p -> m (s_paddr p + i) = 0).

Definition seg_at (im : mem) (ph : Z) : seg :=
  Seg (ph_off im ph) (ph_paddr im ph) (ph_filesz im ph) (ph_memsz im ph).
Fixpoint segs (im : mem) (ph : Z) (n : nat) : list seg :=
  match n with O => [] | S n' => seg_at im ph :: segs im (ph + PHDR) n' end.

(** The first page of the image is in place. *)
Definition headers (im m : mem) : Prop := forall o, 0 <= o < 4096 -> m (ELF_AT + o) = im o.

Lemma headers_load32 im m o : headers im m -> 0 <= o -> o + 4 <= 4096 ->
  load32 m (ELF_AT + o) = load32 im o.
Proof.
  intros Hh H1 H2. unfold load32. rewrite <- !Z.add_assoc. rewrite !Hh by lia. done.
Qed.

Lemma headers_seg im m ph : headers im m -> 0 <= ph -> ph + 32 <= 4096 ->
  seg_at m (ELF_AT + ph) = seg_at im ph.
Proof.
  intros Hh H1 H2. unfold seg_at, ph_off, ph_paddr, ph_filesz, ph_memsz.
  rewrite <- !Z.add_assoc. rewrite !(headers_load32 im m) by (done || lia). done.
Qed.

Section loader.
Context {D : Type} `{Ports D, !Ata D} (fuel : nat).
Hypothesis fuel_polls : (max_polls (D := D) < fuel)%nat.

(** A disk that reports no error, whatever is done to it. *)
Variable healthy : D -> Prop.
Hypothesis healthy_sound : forall d, healthy d -> failed d = false.
Hypothesis healthy_inb : forall p d, healthy d -> healthy (inb p d).2.
Hypothesis healthy_outb : forall p v d, healthy d -> healthy (outb p v d).
Hypothesis healthy_insl : forall p n d, healthy d -> healthy (insl p n d).2.

Lemma waitdisk_ok n : forall d, (polls d < n)%nat -> healthy d -> exists d',
  waitdisk n d = Some d' /\ healthy d' /\ polls d' = 0%nat /\ sectors d' = sectors d /\
  tf d' = tf d /\ phase d' = phase d.
Proof using healthy_inb.
  clear fuel_polls. induction n as [|n IH]; intros d Hn Hh; [lia|]. cbn [waitdisk].
  destruct (ata_status d) as (H1 & _ & H3 & H4 & H5 & H6 & _). pose proof (healthy_inb 503 d Hh) as Hh'.
  destruct (inb 503 d) as [r d1]. cbn [fst snd] in *.
  destruct (Z.eqb_spec (Z.land r 192) 64) as [E|E]; cbn [negb].
  - apply H1 in E. exists d1. split_and!; try done. by rewrite H3, E.
  - assert (polls d <> 0%nat) by tauto.
    destruct (IH d1) as (d' & E1 & E2 & E3 & E4 & E5 & E6); [lia|done|].
    exists d'. rewrite E4, E5, E6. by split_and!.
Qed.

(** A byte of the image: it starts at sector 1 of drive 0. *)
Definition image (d : D) (o : Z) : Z := nth (Z.to_nat (o mod 512)) (sectors d 0 (o / 512 + 1)) 0.

Lemma image_wf d : mem_wf (image d).
Proof.
  intros o. unfold image. destruct (ata_wf d 0 (o / 512 + 1)) as [_ Hb].
  destruct (nth_in_or_default (Z.to_nat (o mod 512)) (sectors d 0 (o / 512 + 1)) 0) as [Hin| ->];
    [|done]. rewrite Forall_forall in Hb. by apply Hb, list_elem_of_In.
Qed.

Lemma readsect_ok dst n m d : 0 <= n < 268435456 -> healthy d -> exists d',
  readsect fuel dst n (m, d) = Some (put_bytes m dst (sectors d 0 n), d') /\
  healthy d' /\ sectors d' = sectors d.
Proof using All.
  intros Hn Hh. unfold readsect.
  destruct (waitdisk_ok fuel d) as (d0 & -> & Hh0 & P0 & S0 & T0 & _);
    [eapply Nat.le_lt_trans; [apply ata_polls|done]|done|].
  cbn [mbind option_bind].
  destruct (ata_reg 498 1 d0 ltac:(by_decide)) as (T1 & S1 & _ & P1 & _). set (d1 := outb 498 1 d0) in *.
  destruct (ata_reg 499 n d1 ltac:(by_decide)) as (T2 & S2 & _ & P2 & _). set (d2 := outb 499 n d1) in *.
  destruct (ata_reg 500 (Z.shiftr n 8) d2 ltac:(by_decide)) as (T3 & S3 & _ & P3 & _).
  set (d3 := outb 500 _ d2) in *.
  destruct (ata_reg 501 (Z.shiftr n 16) d3 ltac:(by_decide)) as (T4 & S4 & _ & P4 & _).
  set (d4 := outb 501 _ d3) in *.
  destruct (ata_reg 502 (Z.lor (Z.shiftr n 24) 224) d4 ltac:(by_decide)) as (T5 & S5 & _ & P5 & _).
  set (d5 := outb 502 _ d4) in *.
  assert (Hh5 : healthy d5) by (do 5 apply healthy_outb; done).
  destruct (taskfile_boot (tf d0) n Hn) as (E1 & E2 & E3).
  rewrite <- T1, <- T2, <- T3, <- T4, <- T5 in E1, E2, E3.
  assert (HP : polls d5 = 0%nat) by congruence.
  destruct (ata_command 32 d5 HP E1 ltac:(by left)) as [Hph S6].
  cbn [Z.eqb Pos.eqb] in Hph. rewrite E2, E3 in Hph. set (d6 := outb 503 32 d5) in *.
  destruct (waitdisk_ok fuel d6) as (d7 & -> & Hh7 & P7 & S7 & _ & Ph7);
    [eapply Nat.le_lt_trans; [apply ata_polls|done]|by apply healthy_outb|].
  cbn [mbind option_bind]. rewrite Hph in Ph7.
  destruct (ata_in d7 0 n P7 (healthy_sound _ Hh7) Ph7) as (I1 & _ & _ & I4).
  pose proof (healthy_insl 496 128 d7 Hh7) as Hh8. change (Z.to_nat (SECTSIZE / 4)) with 128%nat.
  destruct (insl 496 128 d7) as [l d8]. cbn [fst snd] in *.
  assert (HS : sectors d7 = sectors d) by congruence.
  exists d8. rewrite I1, HS. split_and!; [done|done|congruence].
Qed.

(** [j] sectors from [n] on, read to [pa], [pa + 512] and so on. *)
Lemma readseg_loop_ok j : forall k pa epa n m d, healthy d -> 0 <= pa ->
  pa + 512 * Z.of_nat j < 4294967296 -> 1 <= n -> n + Z.of_nat j < 268435456 ->
  512 * (Z.of_nat j - 1) < epa - pa <= 512 * Z.of_nat j -> (j <= k)%nat -> exists m' d',
  readseg_loop fuel k pa epa n (m, d) = Some (m', d') /\ healthy d' /\ sectors d' = sectors d /\
  forall x, m' x = if in_range pa (512 * Z.of_nat j) x
                   then nth (Z.to_nat ((x - pa) mod 512)) (sectors d 0 (n + (x - pa) / 512)) 0 else m x.
Proof using All.
  induction j as [|j IH]; intros k pa epa n m d Hh Hpa Hw Hn Hn' He Hk.
  - exists m, d. split_and!; try done.
    + destruct k; cbn [readseg_loop]; by rewrite (proj2 (Z.ltb_ge _ _)) by lia.
    + intros x. unfold in_range. by zcases.
  - destruct k as [|k]; [lia|]. cbn [readseg_loop]. rewrite (proj2 (Z.ltb_lt _ _)) by lia. cbn [negb].
    destruct (readsect_ok pa n m d) as (d1 & -> & Hh1 & S1); [lia|done|]. cbn [mbind option_bind].
    unfold SECTSIZE. rewrite !u32_small by (unfold is_u32; lia).
    destruct (IH k (pa + 512) epa (n + 1) (put_bytes m pa (sectors d 0 n)) d1)
      as (m' & d' & E & Hh' & S' & Hm); try done; try lia.
    exists m', d'. split_and!; [done|done|congruence|].
    intros x. rewrite Hm, S1. destruct (ata_wf d 0 n) as [Hl Hb].
    rewrite put_bytes_spec by (done || (rewrite ?Hl; lia)). rewrite Hl. unfold in_range.
    destruct (Z.leb_spec pa x); destruct (Z.ltb_spec x (pa + 512 * Z.of_nat (S j))); zcases; cbn [andb];
      try done; try lia.
    + f_equal; [|f_equal]; [f_equal|]; wrap_lia.
    + f_equal; [f_equal; wrap_lia|f_equal; wrap_lia].
Qed.

Lemma readseg_ok p m d : seg_wf p -> healthy d -> exists m' d',
  readseg fuel (s_paddr p) (s_filesz p) (s_off p) (m, d) = Some (m', d') /\
  healthy d' /\ sectors d' = sectors d /\
  forall x, m' x = if (sect_start p <=? x) && (x <? sect_end p)
                   then image d (s_off p + (x - s_paddr p)) else m x.
Proof using All.
  intros (Ho & Hc & Hs & Hw & _) Hh. unfold readseg, SECTSIZE. cbv zeta.
  unfold sect_end, sect_start in *. set (off := s_off p) in *. set (pa := s_paddr p) in *.
  set (cnt := s_filesz p) in *. assert (Hr : 0 <= off mod 512 < 512) by (apply Z.mod_pos_bound; done).
  assert (Hq : 0 <= off / 512 < 8388608) by wrap_lia.
  rewrite !u32_small by (unfold is_u32; lia).
  set (j := Z.to_nat ((cnt + off mod 512 + 511) / 512)).
  assert (Hj : Z.of_nat j = (cnt + off mod 512 + 511) / 512) by (unfold j; rewrite Z2Nat.id; wrap_lia).
  assert (Hj' : 512 * (Z.of_nat j - 1) < cnt + off mod 512 <= 512 * Z.of_nat j) by (rewrite Hj; wrap_lia).
  destruct (readseg_loop_ok j (Z.to_nat ((pa + cnt - (pa - off mod 512)) / 512 + 1))
    (pa - off mod 512) (pa + cnt) (off / 512 + 1) m d) as (m' & d' & E & Hh' & S' & Hm); try done; try lia.
  { apply Nat2Z.inj_le. rewrite Hj, Z2Nat.id; wrap_lia. }
  exists m', d'. split_and!; try done. intros x. rewrite Hm, <- Hj. unfold in_range.
  destruct ((pa - off mod 512 <=? x) && (x <? pa - off mod 512 + 512 * Z.of_nat j)) eqn:Ex; [|done].
  unfold image. f_equal; [f_equal; wrap_lia|f_equal; wrap_lia].
Qed.

(** One segment. *)
Lemma load_one p m d : seg_wf p -> healthy d -> exists m1 d1,
  readseg fuel (s_paddr p) (s_filesz p) (s_off p) (m, d) = Some (m1, d1) /\
  healthy d1 /\ sectors d1 = sectors d /\ (forall x, ~ writes p x -> m1 x = m x) /\
  let m2 := if s_filesz p <? s_memsz p
            then stosb m1 (u32 (s_paddr p + s_filesz p)) 0 (Z.to_nat (s_memsz p - s_filesz p)) else m1 in
  loaded (image d) m2 p /\ (forall x, ~ writes p x -> m2 x = m x).
Proof using All.
  intros Hp Hh. destruct (readseg_ok p m d Hp Hh) as (m1 & d1 & E & Hh1 & S1 & Hm).
  destruct Hp as (Ho & Hc & Hs & Hw & Hz).
  assert (Hr : 0 <= s_off p mod 512 < 512) by (apply Z.mod_pos_bound; done).
  assert (He : s_paddr p + s_filesz p <= sect_end p) by (unfold sect_end, sect_start; wrap_lia).
  assert (Hu : forall x, ~ writes p x -> m1 x = m x).
  { intros x Hx. rewrite Hm. unfold writes in Hx. zcases; tauto. }
  assert (Hi : forall i, 0 <= i < s_filesz p -> m1 (s_paddr p + i) = image d (s_off p + i)).
  { intros i Hi. rewrite Hm. unfold sect_start in *. zcases. f_equal. lia. }
  exists m1, d1. split_and!; try done. cbv zeta.
  destruct (Z.ltb_spec (s_filesz p) (s_memsz p)) as [Hl|Hl].
  - unfold sect_start in Hs. rewrite u32_small by (unfold is_u32; lia). split; [split|].
    + intros i Hi'. rewrite stosb_spec by lia. unfold in_range. zcases. by apply Hi.
    + intros i Hi'. rewrite stosb_spec by lia. unfold in_range. by zcases.
    + intros x Hx. rewrite stosb_spec by lia. unfold in_range. unfold writes, occupies in Hx.
      zcases; by apply Hu.
  - split; [split; [done|lia]|done].
Qed.

Lemma load_loop_ok stack n : forall ph m d, headers (image d) m -> 0 <= ph -> ph + PHDR * Z.of_nat n <= 4096 ->
  healthy d -> layout stack (segs (image d) ph n) -> exists m' d',
  load_loop fuel n (ELF_AT + ph) (ELF_AT + (ph + PHDR * Z.of_nat n)) (m, d) = Some (m', d') /\
  healthy d' /\ sectors d' = sectors d /\ headers (image d) m' /\
  Forall (loaded (image d) m') (segs (image d) ph n) /\
  (forall x, Forall (fun p => ~ writes p x) (segs (image d) ph n) -> m' x = m x).
Proof using All.
  induction n as [|n IH]; intros ph m d Hhd Hph Hle Hh Hlay.
  - exists m, d. cbn [load_loop segs]. rewrite (proj2 (Z.ltb_ge _ _)) by lia. by split_and!.
  - cbn [load_loop]. unfold PHDR in *. rewrite (proj2 (Z.ltb_lt _ _)) by lia. cbn [negb fst].
    cbn [segs layout] in Hlay. destruct Hlay as (Hp & Hhdr & Hprs & Hlay). unfold PHDR in *.
    pose proof (headers_seg (image d) m ph Hhd Hph ltac:(lia)) as Es.
    set (p := seg_at (image d) ph) in *.
    change (ph_paddr m (ELF_AT + ph)) with (s_paddr (seg_at m (ELF_AT + ph))).
    change (ph_filesz m (ELF_AT + ph)) with (s_filesz (seg_at m (ELF_AT + ph))).
    change (ph_off m (ELF_AT + ph)) with (s_off (seg_at m (ELF_AT + ph))). rewrite Es.
    destruct (load_one p m d Hp Hh) as (m1 & d1 & -> & Hh1 & S1 & Hu1 & Hl2 & Hu2).
    cbn [mbind option_bind].
    assert (Hhd1 : headers (image d) m1).
    { intros o Ho. rewrite Hu1; [by apply Hhd|]. intros Hwr. apply Hhdr in Hwr. lia. }
    pose proof (headers_seg (image d) m1 ph Hhd1 Hph ltac:(lia)) as Es1. fold p in Es1.
    cbv zeta. cbv zeta in Hl2, Hu2.
    change (ph_filesz m1 (ELF_AT + ph)) with (s_filesz (seg_at m1 (ELF_AT + ph))).
    change (ph_memsz m1 (ELF_AT + ph)) with (s_memsz (seg_at m1 (ELF_AT + ph))). rewrite Es1.
    set (m2 := if s_filesz p <? s_memsz p then _ else _) in *.
    assert (Hhd2 : headers (image d1) m2).
    { intros o Ho. unfold image. rewrite S1. fold (image d o). rewrite Hu2; [by apply Hhd|].
      intros Hwr. apply Hhdr in Hwr. lia. }
    assert (Eim : image d1 = image d) by (unfold image; by rewrite S1).
    rewrite Eim in Hhd2.
    replace (u32 (ELF_AT + ph + 32)) with (ELF_AT + (ph + 32)) by (unfold ELF_AT; wrap_lia).
    replace (ELF_AT + (ph + 32 * Z.of_nat (S n))) with (ELF_AT + (ph + 32 + 32 * Z.of_nat n)) by lia.
    destruct (IH (ph + 32) m2 d1) as (m' & d' & E & Hh' & S' & Hhd' & Hl' & Hu');
      rewrite ?Eim; try done; try lia.
    rewrite Eim in *. exists m', d'. split_and!; try done; [congruence| |].
    + apply Forall_cons. split; [|done].
      assert (Hk : forall x, occupies p x -> m' x = m2 x).
      { intros x Hx. apply Hu'. eapply Forall_impl; [exact Hprs|]. cbv beta. intros q Hq. by apply Hq. }
      destruct Hl2 as [L1 L2]. unfold occupies in Hk. fold p. split; intros i Hi.
      * rewrite Hk by lia. by apply L1.
      * rewrite Hk by (destruct Hp as (? & ? & ?); lia). by apply L2.
    + intros x Hx. apply Forall_cons in Hx as [Hx1 Hx2]. rewrite Hu' by done. by apply Hu2.
Qed.

(** C31: the boot loader puts the kernel in memory: when the first page of the
    disk image is an ELF header with program headers whose segments can be
    laid out in order, clear of the loader and its stack, the entry point of
    the image is called with every segment loaded, its tail beyond the file
    cleared, and no memory written but the header page and the sectors of the
    segments; the loader and its stack are as they were.  An image without the
    ELF magic is not run. *)
Theorem bootmain_correct stack m d : healthy d ->
  let im := image d in
  let ps := segs im (eh_phoff im 0) (Z.to_nat (eh_phnum im 0)) in
  (eh_magic im 0 <> ELF_MAGIC -> exists s', bootmain fuel (m, d) = Some (None, s')) /\
  (eh_magic im 0 = ELF_MAGIC -> eh_phoff im 0 + PHDR * eh_phnum im 0 <= 4096 -> layout stack ps ->
   exists m' d', bootmain fuel (m, d) = Some (Some (eh_entry im 0), (m', d')) /\
     Forall (loaded im m') ps /\ (forall x, loader stack x -> m' x = m x) /\
     (forall x, ~ (ELF_AT <= x < ELF_AT + 4096) -> Forall (fun p => ~ writes p x) ps -> m' x = m x)).
Proof using All.
  intros Hh. cbv zeta. unfold bootmain.
  destruct (readseg_ok (Seg 0 ELF_AT 4096 0) m d) as (m1 & d1 & E & Hh1 & S1 & Hm);
    [by_decide|done|].
  cbn [s_off s_paddr s_filesz] in *. rewrite E. cbn [mbind option_bind fst].
  change (sect_start _) with ELF_AT in Hm. change (sect_end _) with (ELF_AT + 4096) in Hm.
  assert (Hhd : headers (image d) m1).
  { intros o Ho. rewrite Hm. zcases. f_equal. lia. }
  assert (Eh : forall o, 0 <= o -> o + 4 <= 4096 -> load32 m1 (ELF_AT + o) = load32 (image d) o)
    by (intros; by apply headers_load32).
  assert (Em : eh_magic m1 ELF_AT = eh_magic (image d) 0).
  { unfold eh_magic. rewrite <- (Z.add_0_r ELF_AT). by apply Eh. }
  assert (Eo : eh_phoff m1 ELF_AT = eh_phoff (image d) 0) by by apply Eh.
  assert (En : eh_phnum m1 ELF_AT = eh_phnum (image d) 0).
  { unfold eh_phnum, load16. rewrite <- !Z.add_assoc. by rewrite !Hhd by lia. }
  rewrite Em. split; intros Hmag.
  - rewrite (proj2 (Z.eqb_neq _ _)) by done. cbn [negb]. eauto.
  - intros Hle Hlay.
    assert (Ho : 0 <= eh_phoff (image d) 0) by apply (load32_range (image d)), image_wf.
    assert (Hn : 0 <= eh_phnum (image d) 0).
    { unfold eh_phnum, load16. pose proof (image_wf d (0 + 44)). pose proof (image_wf d (0 + 44 + 1)).
      unfold is_u8 in *. lia. }
    rewrite (proj2 (Z.eqb_eq _ _)) by done. cbn [negb]. rewrite Eo, En.
    set (ph := eh_phoff (image d) 0) in *. set (n := eh_phnum (image d) 0) in *.
    unfold PHDR in *. unfold ELF_AT at 1 2 3. rewrite !u32_small by (unfold is_u32; lia).
    fold ELF_AT.
    assert (Eim : image d1 = image d) by (unfold image; by rewrite S1).
    destruct (load_loop_ok stack (Z.to_nat n) ph m1 d1) as (m' & d' & E' & Hh' & S' & Hhd' & Hl & Hu);
      rewrite ?Eim; try done; [unfold PHDR; lia|].
    rewrite Eim in *. unfold PHDR in E'. rewrite Z2Nat.id in E' by done.
    replace (ELF_AT + ph + 32 * n) with (ELF_AT + (ph + 32 * n)) by lia. rewrite E'.
    cbn [mbind option_bind fst]. exists m', d'.
    assert (Hk : forall x, ~ (ELF_AT <= x < ELF_AT + 4096) -> Forall (fun p => ~ writes p x) (segs (image d) ph (Z.to_nat n)) ->
      m' x = m x) by (intros x Hx Hw; rewrite Hu by done; rewrite Hm; by zcases).
    split_and!; [|done| |done].
    + do 2 f_equal. f_equal. unfold eh_entry. by apply headers_load32.
    + intros x Hx. apply Hk; [unfold loader, ELF_AT in *; lia|by eapply layout_loader].
Qed.
End loader.

(** ** An example *)

(** A disk with a kernel of one segment: three bytes of code at 1MB, and two
    bytes of data that are not in the file. *)
Definition word (w : Z) : list Z := [u8 w; u8 (w / 256); u8 (w / 65536); u8 (w / 16777216)].
Definition ex_header : list Z :=
  word ELF_MAGIC ++ replicate 20 0 ++ word 1048576 ++ word 52 ++ replicate 12 0 ++ [1; 0] ++
  replicate 6 0 ++
  word 1 ++ word 4096 ++ word 2148532224 ++ word 1048576 ++ word 3 ++ word 5 ++ replicate 8 0 ++
  replicate 428 0.
Definition ex_code : list Z := [144; 244; 195] ++ replicate 509 255.
Definition ex_sectors (v n : Z) : list Z :=
  if n =? 1 then ex_header else if n =? 9 then ex_code else replicate 512 0.
Lemma ex_sectors_wf v n : length (ex_sectors v n) = 512%nat /\ Forall is_u8 (ex_sectors v n).
Proof.
  unfold ex_sectors. destruct (n =? 1); [by_decide|]. destruct (n =? 9); by_decide.
Qed.
Definition ex_boot : ata_disk := AtaDisk ex_sectors (Taskfile 0 0 0 0 0) PIdle false ex_sectors_wf.

Lemma bootmain_correct_witness : exists m' d',
  bootmain 1 ((fun _ => 9), ex_boot) = Some (Some 1048576, (m', d')) /\
  loaded (image ex_boot) m' (Seg 4096 1048576 3 5).
Proof.
  destruct (bootmain_correct 1) with (healthy := fun d : ata_disk => ad_failed d = false)
    (m := fun _ : Z => 9) (d := ex_boot) (stack := 1024) as [_ T].
  - simpl. lia.
  - intros d Hd. exact Hd.
  - intros p d Hd. exact Hd.
  - intros p v d Hd. simpl. destruct (p =? 503); exact Hd.
  - intros p n d Hd. simpl. destruct (ad_phase d); exact Hd.
  - reflexivity.
  - destruct T as (m' & d' & E & Hl & _).
    + vm_compute. reflexivity.
    + vm_compute. discriminate.
    + assert (Es : segs (image ex_boot) (eh_phoff (image ex_boot) 0) (Z.to_nat (eh_phnum (image ex_boot) 0))
                   = [Seg 4096 1048576 3 5]) by (vm_compute; reflexivity).
      rewrite Es. split; [by_decide|]. split; [|split; [constructor|exact I]].
      intros x Hx. assert (Hx' : 1048576 <= x) by
        (destruct Hx as [Hx|Hx]; [unfold sect_start in Hx|unfold occupies in Hx];
         cbn [s_paddr s_off] in Hx; [change (4096 mod 512) with 0 in Hx|]; lia).
      unfold ELF_AT, loader. lia.
    + exists m', d'. split; [exact E|].
      assert (Es : segs (image ex_boot) (eh_phoff (image ex_boot) 0) (Z.to_nat (eh_phnum (image ex_boot) 0))
                   = [Seg 4096 1048576 3 5]) by (vm_compute; reflexivity).
      rewrite Es in Hl. apply Forall_inv in Hl. exact Hl.
Defined.
