(* ===== verification/Mp.v ===== *)
(** * Multiprocessor discovery (mp.c)

    The firmware describes the machine in a table that [mpinit] searches for
    in low memory, checks and walks.  [m] is memory, addressed by kernel
    virtual addresses. *)
From S2P Require Import Prelude CString Mmu Ports.
#[local] Set Default Proof Using "Type".

(** Table entry types, and the sizes of the structures (mp.h). *)
Definition MPPROC : Z := 0.
Definition MPBUS : Z := 1.
Definition MPIOAPIC : Z := 2.
Definition MPIOINTR : Z := 3.
Definition MPLINTR : Z := 4.
Definition MPSIZE : Z := 16.
Definition MPCONFSIZE : Z := 44.
Definition MPPROCSIZE : Z := 20.
Definition MPIOAPICSIZE : Z := 8.

(** Fields of [struct mp] and [struct mpconf]. *)
Definition mp_physaddr (m : mem) (p : Z) : Z := load32 m (p + 4).
Definition mp_imcrp (m : mem) (p : Z) : Z := m (p + 12).
Definition conf_length (m : mem) (c : Z) : Z := m (c + 4) + 256 * m (c + 5).
Definition conf_version (m : mem) (c : Z) : Z := m (c + 6).
Definition conf_lapicaddr (m : mem) (c : Z) : Z := load32 m (c + 36).

Definition MP_SIG : list Z := [95; 77; 80; 95].
Definition PCMP_SIG : list Z := [80; 67; 77; 80].

(** [memcmp(p, s, n) == 0] against a constant. *)
Fixpoint sig_at (m : mem) (p : Z) (s : list Z) : bool :=
  match s with [] => true | x :: s' => (m p =? x) && sig_at m (p + 1) s' end.

(** The accumulator of [sum]. *)
Fixpoint sum_from (m : mem) (addr : Z) (len : nat) (acc : Z) : Z :=
  match len with O => acc | S n => sum_from m (addr + 1) n (i32 (acc + m addr)) end.
Definition sum (m : mem) (addr : Z) (len : nat) : Z := u8 (sum_from m addr len 0).

(** Look for an MP structure in the [16 * n] bytes at [p]. *)
Fixpoint mpsearch1_loop (m : mem) (n : nat) (p : Z) : option Z :=
  match n with
  | O => None
  | S n' => if sig_at m p MP_SIG && (sum m p (Z.to_nat MPSIZE) =? 0) then Some p
            else mpsearch1_loop m n' (p + MPSIZE)
  end.
Definition mpsearch1 (m : mem) (a : Z) (len : Z) : option Z :=
  mpsearch1_loop m (Z.to_nat ((len + MPSIZE - 1) / MPSIZE)) (P2V a).

Definition mpsearch (m : mem) : option Z :=
  let bda := P2V 1024 in
  let p := u32 (Z.shiftl (Z.lor (Z.shiftl (m (bda + 15)) 8) (m (bda + 14))) 4) in
  let r := if negb (p =? 0) then mpsearch1 m p 1024
           else
             let p := u32 (Z.lor (Z.shiftl (m (bda + 20)) 8) (m (bda + 19)) * 1024) in
             mpsearch1 m (u32 (p - 1024)) 1024 in
  match r with Some mp => Some mp | None => mpsearch1 m 983040 65536 end.

(** The structure and its configuration table. *)
Definition mpconfig (m : mem) : option (Z * Z) :=
  match mpsearch m with
  | None => None
  | Some mp =>
      if mp_physaddr m mp =? 0 then None else
      let conf := P2V (mp_physaddr m mp) in
      if negb (sig_at m conf PCMP_SIG) then None
      else if negb (conf_version m conf =? 1) && negb (conf_version m conf =? 4) then None
      else if negb (sum m conf (Z.to_nat (conf_length m conf)) =? 0) then None
      else Some (mp, conf)
  end.

(** What [mpinit] finds out: the APIC ids of [cpus[0..ncpu)], the id of the
    I/O APIC, the address of the local APIC; and the devices. *)
Record mpst (D : Type) := Mpst { cpus : list Z; ioapicid : Z; lapic : Z; mpio : D }.
Arguments Mpst {D}. Arguments cpus {D}. Arguments ioapicid {D}. Arguments lapic {D}. Arguments mpio {D}.

Definition set_cpus {D} (l : list Z) (s : mpst D) : mpst D := Mpst l (ioapicid s) (lapic s) (mpio s).
Definition set_ioapicid {D} (i : Z) (s : mpst D) : mpst D := Mpst (cpus s) i (lapic s) (mpio s).
Definition set_lapic {D} (a : Z) (s : mpst D) : mpst D := Mpst (cpus s) (ioapicid s) a (mpio s).
Definition set_mpio {D} (d : D) (s : mpst D) : mpst D := Mpst (cpus s) (ioapicid s) (lapic s) d.

Section mpinit.
Context {D : Type} `{Ports D} (m : mem).

(** The walk over the entries from [p] to [e]; the result is [ismp].  In the
    [default] case the [break] leaves the [switch] only: the loop goes on
    with the same entry. *)
Fixpoint mp_loop (fuel : nat) (ismp : bool) (p e : Z) : M (mpst D) bool :=
  if negb (p <? e) then mret ismp else
  match fuel with
  | O => fun _ _ => NoFuel
  | S f =>
      let t := m p in
      if t =? MPPROC then
        modify (fun s => if (length (cpus s) <? NCPU)%nat then set_cpus (cpus s ++ [m (p + 1)]) s else s);;
        mp_loop f ismp (p + MPPROCSIZE) e
      else if t =? MPIOAPIC then
        modify (set_ioapicid (m (p + 1)));;
        mp_loop f ismp (p + MPIOAPICSIZE) e
      else if (t =? MPBUS) || (t =? MPIOINTR) || (t =? MPLINTR) then
        mp_loop f ismp (p + 8) e
      else mp_loop f false p e
  end.

Definition mpinit (fuel : nat) : M (mpst D) unit :=
  match mpconfig m with
  | None => panic "Expect to run on an SMP"
  | Some (mp, conf) =>
      modify (set_lapic (conf_lapicaddr m conf));;
      ismp ← mp_loop fuel true (conf + MPCONFSIZE) (conf + conf_length m conf);
      if negb ismp then panic "Didn't find a suitable machine" else
      when (negb (mp_imcrp m mp =? 0)) (
        modify (fun s => set_mpio (outb 34 112 (mpio s)) s);;
        modify (fun s => let '(v, d) := inb 35 (mpio s) in set_mpio (outb 35 (Z.lor v 1) d) s))
  end.
End mpinit.

(** ** Correctness *)

(** The entries a table can hold. *)
Inductive entry := EProc (apicid : Z) | EIoapic (apicno : Z) | EOther (type : Z).

(** The bytes at [p] are these entries. *)
Fixpoint table (m : mem) (p : Z) (es : list entry) : Prop :=
  match es with
  | [] => True
  | EProc i :: es' => m p = MPPROC /\ m (p + 1) = i /\ table m (p + MPPROCSIZE) es'
  | EIoapic i :: es' => m p = MPIOAPIC /\ m (p + 1) = i /\ table m (p + MPIOAPICSIZE) es'
  | EOther t :: es' => m p = t /\ (t = MPBUS \/ t = MPIOINTR \/ t = MPLINTR) /\ table m (p + 8) es'
  end.

Definition esize (e : entry) : Z := match e with EProc _ => 20 | _ => 8 end.
Definition tsize (es : list entry) : Z := foldr (fun e n => esize e + n) 0 es.

(** The processors, and the last I/O APIC, of the table. *)
Fixpoint procs (es : list entry) : list Z :=
  match es with [] => [] | EProc i :: es' => i :: procs es' | _ :: es' => procs es' end.
Fixpoint last_ioapic (dflt : Z) (es : list entry) : Z :=
  match es with [] => dflt | EIoapic i :: es' => last_ioapic i es' | _ :: es' => last_ioapic dflt es' end.

Lemma tsize_nonneg es : 0 <= tsize es.
Proof.
  induction es as [|e es IH]; [done|]. change (0 <= esize e + tsize es). destruct e; cbn [esize]; lia.
Qed.

Section walk.
Context {D : Type} `{Ports D} (m : mem).

Lemma tsize_cons e es : tsize (e :: es) = esize e + tsize es.
Proof. done. Qed.

Lemma mp_loop_wp es : forall fuel p c (s : mpst D) (Q : bool -> ctx -> mpst D -> Prop),
  table m p es -> (length es <= fuel)%nat -> (length (cpus s) <= NCPU)%nat ->
  Q true c (Mpst (take NCPU (cpus s ++ procs es)) (last_ioapic (ioapicid s) es) (lapic s) (mpio s)) ->
  wp (mp_loop m fuel true p (p + tsize es)) c s Q.
Proof.
  induction es as [|e es IH]; intros fuel p c s Q Ht Hf Hn HQ.
  - cbn in HQ. rewrite app_nil_r, take_ge in HQ by done.
    destruct fuel; cbn [mp_loop]; rewrite (proj2 (Z.ltb_ge _ _)) by (cbn; lia); apply wp_ret;
      by destruct s.
  - destruct fuel as [|fuel]; [cbn in Hf; lia|]. cbn [length] in Hf. pose proof (tsize_nonneg es) as Hs.
    cbn [mp_loop]. rewrite tsize_cons.
    rewrite (proj2 (Z.ltb_lt _ _)) by (destruct e; cbn [esize]; lia). cbn [negb].
    rewrite Z.add_assoc. destruct e as [i|i|t]; cbn [table procs last_ioapic esize] in *.
    + destruct Ht as (Et & Ei & Ht). rewrite Et. change (MPPROC =? MPPROC) with true. cbv iota.
      apply wp_bind, wp_modify. rewrite Ei. apply IH; [done|lia|..].
      * destruct (Nat.ltb_spec (length (cpus s)) NCPU); [|done].
        cbn [cpus set_cpus]. rewrite length_app. cbn. lia.
      * destruct (Nat.ltb_spec (length (cpus s)) NCPU) as [Hl|Hl]; cbn [set_cpus cpus ioapicid lapic mpio].
        -- by rewrite <- app_assoc.
        -- rewrite take_app_ge in HQ by done. rewrite take_app_ge by done.
           replace (NCPU - length (cpus s))%nat with 0%nat in * by lia. done.
    + destruct Ht as (Et & Ei & Ht). rewrite Et. change (MPIOAPIC =? MPPROC) with false.
      change (MPIOAPIC =? MPIOAPIC) with true. cbv iota.
      apply wp_bind, wp_modify. rewrite Ei. by apply IH; [|lia|..].
    + destruct Ht as (Et & Hty & Ht). rewrite Et.
      assert (t =? MPPROC = false /\ t =? MPIOAPIC = false /\
              (t =? MPBUS) || (t =? MPIOINTR) || (t =? MPLINTR) = true) as (-> & -> & ->)
        by (destruct Hty as [-> | [-> | ->]]; done).
      by apply IH; [|lia|..].
Qed.

(** An entry of unknown type is met again and again. *)
Lemma mp_loop_stuck fuel : forall ismp p e c (s : mpst D),
  p < e -> m p ∉ [MPPROC; MPBUS; MPIOAPIC; MPIOINTR; MPLINTR] ->
  mp_loop m fuel ismp p e c s = NoFuel.
Proof.
  induction fuel as [|fuel IH]; intros ismp p e c s Hp Ht; cbn [mp_loop];
    rewrite (proj2 (Z.ltb_lt _ _)) by done; [done|]. cbn [negb].
  rewrite !not_elem_of_cons in Ht. destruct Ht as (T0 & T1 & T2 & T3 & T4 & _).
  rewrite !(proj2 (Z.eqb_neq (m p) _)) by done. cbn [orb].
  apply IH; [done|]. rewrite !not_elem_of_cons. split_and!; try done. apply not_elem_of_nil.
Qed.

(** Entries before an unknown one are processed; then the loop never ends. *)
Lemma mp_loop_diverges es : forall fuel p e c (s : mpst D),
  table m p es -> p + tsize es < e -> m (p + tsize es) ∉ [MPPROC; MPBUS; MPIOAPIC; MPIOINTR; MPLINTR] ->
  mp_loop m fuel true p e c s = NoFuel.
Proof.
  induction es as [|en es IH]; intros fuel p e c s Ht He Hu.
  - cbn in He, Hu. rewrite Z.add_0_r in He, Hu. by apply mp_loop_stuck.
  - rewrite tsize_cons, Z.add_assoc in He, Hu. pose proof (tsize_nonneg es) as Hs.
    destruct fuel as [|fuel]; cbn [mp_loop];
      rewrite (proj2 (Z.ltb_lt _ _)) by (destruct en; cbn [esize] in *; lia); [done|]. cbn [negb].
    destruct en as [i|i|t]; cbn [table esize] in *.
    + destruct Ht as (Et & Ei & Ht). rewrite Et. change (MPPROC =? MPPROC) with true. cbv iota.
      unfold mbind, M_bind, obind, modify. by apply IH.
    + destruct Ht as (Et & Ei & Ht). rewrite Et. change (MPIOAPIC =? MPPROC) with false.
      change (MPIOAPIC =? MPIOAPIC) with true. cbv iota.
      unfold mbind, M_bind, obind, modify. by apply IH.
    + destruct Ht as (Et & Hty & Ht). rewrite Et.
      assert (t =? MPPROC = false /\ t =? MPIOAPIC = false /\
              (t =? MPBUS) || (t =? MPIOINTR) || (t =? MPLINTR) = true) as (-> & -> & ->)
        by (destruct Hty as [-> | [-> | ->]]; done).
      by apply IH.
Qed.
End walk.

(** *** Searching *)

(** The checksum of the bytes at [a]: they add up to 0 modulo 256. *)
Definition total (m : mem) (a n : Z) : Z := foldr Z.add 0 (m <$> seqZ a n).

Lemma sum_from_spec m n : forall a acc,
  sum_from m a n acc mod 256 = (acc + total m a (Z.of_nat n)) mod 256.
Proof.
  induction n as [|n IH]; intros a acc; cbn [sum_from].
  - cbn. by rewrite Z.add_0_r.
  - rewrite IH. unfold total. rewrite (seqZ_cons a (Z.of_nat (S n))) by lia. rewrite fmap_cons. cbn [foldr].
    replace (Z.succ a) with (a + 1) by lia. replace (Z.pred (Z.of_nat (S n))) with (Z.of_nat n) by lia.
    unfold i32. generalize (foldr Z.add 0 (m <$> seqZ (a + 1) (Z.of_nat n))). intros t. wrap_lia.
Qed.

Lemma sum_spec m a n : sum m a n = total m a (Z.of_nat n) mod 256.
Proof. unfold sum, u8. apply sum_from_spec. Qed.

(** A floating pointer structure: its signature and its checksum. *)
Definition valid_mp (m : mem) (p : Z) : Prop :=
  sig_at m p MP_SIG = true /\ total m p 16 mod 256 = 0.

(** The places [mpsearch] looks at, in order. *)
Definition places (a : Z) (n : nat) : list Z := (fun i => a + 16 * i) <$> seqZ 0 (Z.of_nat n).
Definition ebda (m : mem) : Z := u32 (Z.shiftl (Z.lor (Z.shiftl (m (P2V 1039)) 8) (m (P2V 1038))) 4).
Definition base_end (m : mem) : Z := u32 (Z.lor (Z.shiftl (m (P2V 1044)) 8) (m (P2V 1043)) * 1024).
Definition candidates (m : mem) : list Z :=
  places (P2V (if ebda m =? 0 then u32 (base_end m - 1024) else ebda m)) 64 ++ places (P2V 983040) 4096.

Definition first_valid (m : mem) (l : list Z) (p : Z) : Prop :=
  exists l1 l2, l = l1 ++ p :: l2 /\ Forall (fun q => ~ valid_mp m q) l1 /\ valid_mp m p.

Lemma places_cons a n : places a (S n) = a :: places (a + 16) n.
Proof.
  unfold places. rewrite (seqZ_cons 0 (Z.of_nat (S n))) by lia. rewrite fmap_cons. f_equal; [cbv beta; lia|].
  replace (Z.pred (Z.of_nat (S n))) with (Z.of_nat n) by lia.
  apply list_eq. intros i. rewrite !list_lookup_fmap.
  destruct (decide (Z.of_nat i < Z.of_nat n)).
  - rewrite !lookup_seqZ_lt by lia. cbn. f_equal. lia.
  - rewrite !lookup_seqZ_ge by lia. done.
Qed.

Lemma mpsearch1_loop_spec m n : forall a,
  match mpsearch1_loop m n a with
  | Some p => first_valid m (places a n) p
  | None => Forall (fun q => ~ valid_mp m q) (places a n)
  end.
Proof.
  induction n as [|n IH]; intros a; [apply Forall_nil_2|]. rewrite places_cons. cbn [mpsearch1_loop].
  unfold MPSIZE. rewrite sum_spec. change (Z.of_nat (Z.to_nat 16)) with 16.
  destruct (sig_at m a MP_SIG) eqn:Es; cbn [andb];
    [destruct (Z.eqb_spec (total m a 16 mod 256) 0) as [Et|Et]|].
  - exists [], (places (a + 16) n). by repeat split.
  - specialize (IH (a + 16)). destruct (mpsearch1_loop m n (a + 16)) as [p|].
    + destruct IH as (l1 & l2 & -> & Hl & Hp). exists (a :: l1), l2. split_and!; [done| |done].
      constructor; [|done]. by intros [_ ?].
    + constructor; [|done]. by intros [_ ?].
  - specialize (IH (a + 16)). destruct (mpsearch1_loop m n (a + 16)) as [p|].
    + destruct IH as (l1 & l2 & -> & Hl & Hp). exists (a :: l1), l2. split_and!; [done| |done].
      constructor; [|done]. intros [? _]. congruence.
    + constructor; [|done]. intros [? _]. congruence.
Qed.

Lemma first_valid_app m l l' p : Forall (fun q => ~ valid_mp m q) l -> first_valid m l' p ->
  first_valid m (l ++ l') p.
Proof.
  intros Hl (l1 & l2 & -> & H1 & Hp). exists (l ++ l1), l2. rewrite <- app_assoc.
  split_and!; [done|by apply Forall_app|done].
Qed.
Lemma first_valid_app_l m l l' p : first_valid m l p -> first_valid m (l ++ l') p.
Proof.
  intros (l1 & l2 & -> & H1 & Hp). exists l1, (l2 ++ l'). split_and!; [|done|done].
  by rewrite <- app_assoc.
Qed.

Lemma first_valid_unique m l p q : first_valid m l p -> first_valid m l q -> p = q.
Proof.
  intros (l1 & l2 & E & H1 & Hp) (k1 & k2 & E' & K1 & Hq). subst l.
  revert k1 E' K1. induction l1 as [|x l1 IH]; intros [|y k1] E' K1; cbn in E'; injection E' as -> E'.
  - done.
  - apply Forall_inv in K1. by destruct K1.
  - apply Forall_inv in H1. by destruct H1.
  - apply (IH (Forall_inv_tail H1) k1 E' (Forall_inv_tail K1)).
Qed.

(** [mpsearch] finds the first valid structure among the candidates. *)
Lemma mpsearch_spec m :
  match mpsearch m with
  | Some p => first_valid m (candidates m) p
  | None => Forall (fun q => ~ valid_mp m q) (candidates m)
  end.
Proof.
  unfold mpsearch, candidates. cbv zeta.
  change (P2V 1024 + 15) with (P2V 1039). change (P2V 1024 + 14) with (P2V 1038).
  change (P2V 1024 + 20) with (P2V 1044). change (P2V 1024 + 19) with (P2V 1043).
  fold (ebda m). fold (base_end m).
  set (a := if ebda m =? 0 then u32 (base_end m - 1024) else ebda m).
  assert (E : (if negb (ebda m =? 0) then mpsearch1 m (ebda m) 1024
               else mpsearch1 m (u32 (base_end m - 1024)) 1024) = mpsearch1_loop m 64 (P2V a)).
  { unfold a. by destruct (ebda m =? 0). }
  rewrite E. pose proof (mpsearch1_loop_spec m 64 (P2V a)) as H1.
  destruct (mpsearch1_loop m 64 (P2V a)) as [p|]; [by apply first_valid_app_l|].
  change (mpsearch1 m 983040 65536) with (mpsearch1_loop m 4096 (P2V 983040)).
  pose proof (mpsearch1_loop_spec m 4096 (P2V 983040)) as H2.
  destruct (mpsearch1_loop m 4096 (P2V 983040)) as [p|]; [by apply first_valid_app|by apply Forall_app].
Qed.

(** The firmware's description of a machine: the first valid structure among
    the candidates leads to a configuration table with these entries. *)
Record describes (m : mem) (mp conf : Z) (es : list entry) : Prop := {
  de_mp : first_valid m (candidates m) mp;
  de_addr : mp_physaddr m mp <> 0;
  de_conf : conf = P2V (mp_physaddr m mp);
  de_sig : sig_at m conf PCMP_SIG = true;
  de_version : conf_version m conf = 1 \/ conf_version m conf = 4;
  de_sum : total m conf (conf_length m conf) mod 256 = 0;
  de_table : table m (conf + MPCONFSIZE) es
}.

Lemma mpconfig_describes m mp conf es : describes m mp conf es -> 0 <= conf_length m conf ->
  mpconfig m = Some (mp, conf).
Proof.
  intros [D1 D2 -> D4 D5 D6 D7] Hl. unfold mpconfig. pose proof (mpsearch_spec m) as Hs.
  destruct (mpsearch m) as [p|].
  - rewrite (first_valid_unique m _ p mp Hs D1). rewrite (proj2 (Z.eqb_neq _ _)) by done.
    rewrite D4. cbn [negb]. rewrite sum_spec, Z2Nat.id by done. rewrite D6. change (0 =? 0) with true.
    cbn [negb]. destruct D5 as [-> | ->]; done.
  - destruct D1 as (l1 & l2 & E & _ & Hp). rewrite E in Hs. apply Forall_app in Hs as [_ Hs].
    apply Forall_inv in Hs. done.
Qed.

Section start.
Context {D : Type} `{Ports D} (m : mem).

(** C34: on a machine whose firmware table holds any sequence of entries of
    the known types, [mpinit] records the APIC ids of the first eight
    processors in table order, the id of the last I/O APIC and the address
    of the local APIC, and switches the interrupt mode register when the
    machine has one. *)
Theorem mpinit_correct mp conf es fuel c (d : D) :
  describes m mp conf es -> conf_length m conf = MPCONFSIZE + tsize es -> (length es <= fuel)%nat ->
  wp (mpinit m fuel) c (Mpst [] 0 0 d) (fun _ c' s' =>
    c' = c /\ cpus s' = take NCPU (procs es) /\ ioapicid s' = last_ioapic 0 es /\
    lapic s' = conf_lapicaddr m conf /\
    mpio s' = if mp_imcrp m mp =? 0 then d
              else let d1 := outb 34 112 d in outb 35 (Z.lor (inb 35 d1).1 1) (inb 35 d1).2).
Proof.
  intros Hd Hl Hf. pose proof (tsize_nonneg es) as Hs. unfold mpinit.
  rewrite (mpconfig_describes _ _ _ _ Hd) by (rewrite Hl; unfold MPCONFSIZE; lia).
  apply wp_bind, wp_modify, wp_bind. rewrite Hl, Z.add_assoc.
  apply mp_loop_wp; [apply Hd|done|cbn; lia|]. cbn [negb set_lapic cpus ioapicid lapic mpio app].
  apply wp_when.
  - intros E. apply wp_bind, wp_modify, wp_modify. cbn [mpio set_mpio].
    destruct (mp_imcrp m mp =? 0); [done|]. cbv zeta.
    by destruct (inb 35 (outb 34 112 d)) as [v d2].
  - intros E. destruct (mp_imcrp m mp =? 0); done.
Qed.

(** C39: a table with an entry of a type the kernel does not know hangs it:
    the walk never gets past the entry, and neither the panic meant for this
    case nor anything else is reached, however long one waits. *)
Theorem mpinit_hangs mp conf es fuel c (s : mpst D) :
  describes m mp conf es -> MPCONFSIZE + tsize es < conf_length m conf ->
  m (conf + MPCONFSIZE + tsize es) ∉ [MPPROC; MPBUS; MPIOAPIC; MPIOINTR; MPLINTR] ->
  mpinit m fuel c s = NoFuel.
Proof.
  intros Hd Hl Hu. pose proof (tsize_nonneg es) as Hs. unfold mpinit.
  rewrite (mpconfig_describes _ _ _ _ Hd) by (unfold MPCONFSIZE in *; lia).
  unfold mbind at 1, M_bind at 1, obind at 1, modify at 1.
  unfold mbind at 1, M_bind at 1, obind at 1.
  rewrite (mp_loop_diverges m es) by (apply Hd || done || lia). done.
Qed.
End start.

(** ** Examples *)

(** A structure at the start of the firmware area and its table at 0x9000:
    two processors, a bus and an I/O APIC; and the same table with an entry
    of type 9 behind them. *)
Definition ex_conf (len extra : Z) : list Z :=
  let body := PCMP_SIG ++ [u8 len; u8 (len / 256); 4; 0] ++ replicate 28 0 ++ [0; 0; 224; 254] ++
    replicate 4 0 ++
    [0; 0] ++ replicate 18 0 ++ [0; 1] ++ replicate 18 0 ++ [1] ++ replicate 7 0 ++
    [2; 5] ++ replicate 6 0 ++ replicate 8 extra in
  <[7%nat := u8 (- foldr Z.add 0 (take (Z.to_nat len) body))]> body.
Definition ex_mp : list Z :=
  let body := MP_SIG ++ [0; 144; 0; 0; 1; 4; 0; 0; 0; 0; 0; 0] in
  <[10%nat := u8 (- foldr Z.add 0 body)]> body.
Definition ex_mem (len extra : Z) : mem := fun x =>
  if (P2V 983040 <=? x) && (x <? P2V 983040 + 16) then nth (Z.to_nat (x - P2V 983040)) ex_mp 0
  else if (P2V 36864 <=? x) && (x <? P2V 36864 + 108) then nth (Z.to_nat (x - P2V 36864)) (ex_conf len extra) 0
  else 0.
Definition ex_entries : list entry := [EProc 0; EProc 1; EOther 1; EIoapic 5].

Lemma ex_describes len extra : (len = 100 /\ extra = 0) \/ (len = 108 /\ extra = 9) ->
  describes (ex_mem len extra) (P2V 983040) (P2V 36864) ex_entries.
Proof.
  intros Hc.
  assert (Hs : mpsearch (ex_mem len extra) = Some (P2V 983040))
    by (destruct Hc as [[-> ->]|[-> ->]]; vm_compute; reflexivity).
  pose proof (mpsearch_spec (ex_mem len extra)) as H1. rewrite Hs in H1.
  split; [exact H1|..]; destruct Hc as [[-> ->]|[-> ->]]; vm_compute; intuition congruence.
Qed.

Definition ex_queue : bytes_queue := BytesQueue [] (Forall_nil_2 _).

Lemma mpinit_correct_witness :
  wp (mpinit (ex_mem 100 0) 4) ctx0 (Mpst [] 0 0 ex_queue) (fun _ c' s' =>
    c' = ctx0 /\ cpus s' = [0; 1] /\ ioapicid s' = 5 /\ lapic s' = 4276092928 /\ mpio s' = ex_queue).
Proof.
  apply (mpinit_correct (ex_mem 100 0) (P2V 983040) (P2V 36864) ex_entries 4 ctx0 ex_queue).
  - apply ex_describes. by left.
  - vm_compute. reflexivity.
  - simpl. lia.
Defined.

Lemma mpinit_hangs_witness : mpinit (ex_mem 108 9) 1000 ctx0 (Mpst [] 0 0 ex_queue) = NoFuel.
Proof.
  apply (mpinit_hangs (ex_mem 108 9) (P2V 983040) (P2V 36864) ex_entries).
  - apply ex_describes. by right.
  - vm_compute. reflexivity.
  - by_decide.
Defined.
