(* ===== verification/Umalloc.v ===== *)
(** * The user-level allocator (umalloc.c)

    [malloc] and [free] of Kernighan and Ritchie: a circular list of free
    blocks in address order, threaded through the headers of the blocks.  The
    state is the memory of the process with [freep] and the break; the
    invariant [heap] relates the threaded list to the list of free blocks and
    the list of the blocks in use, all disjoint. *)
From S2P Require Import Prelude CString Mmu.

Record ust := Ust { umem : mem; freep : Z; brk : Z }.
Definition set_umem (m : mem) (s : ust) : ust := Ust m (freep s) (brk s).
Definition set_freep (p : Z) (s : ust) : ust := Ust (umem s) p (brk s).
Definition set_brk (b : Z) (s : ust) : ust := Ust (umem s) (freep s) b.

(** The fields [s.ptr] and [s.size] of the header at [a]. *)
Definition ptr (m : mem) (a : Z) : Z := load32 m a.
Definition size (m : mem) (a : Z) : Z := load32 m (a + 4).
Definition set_ptr (a v : Z) : M ust unit := modify (fun s => set_umem (store32 (umem s) a v) s).
Definition set_size (a v : Z) : M ust unit := modify (fun s => set_umem (store32 (umem s) (a + 4) v) s).

Definition nofuel {A} : M ust A := fun _ _ => NoFuel.

Section umalloc.
(** The address of the static header [base], and the kernel's answer to
    [sbrk]: from a break and an increment, the new break unless it fails. *)
Variable base : Z.
Variable grow : Z -> Z -> option Z.

Definition sbrk (n : Z) : M ust Z :=
  b ← gets brk;
  match grow b (i32 n) with
  | Some b' => modify (set_brk b');; mret b
  | None => mret (u32 (-1))
  end.

(** The loop of [free]: the free block after which [bp] belongs. *)
Fixpoint free_loop (fuel : nat) (bp p : Z) : M ust Z :=
  n ← gets (fun s => ptr (umem s) p);
  if (bp >? p) && (bp <? n) then mret p
  else if (p >=? n) && ((bp >? p) || (bp <? n)) then mret p
  else match fuel with
       | O => nofuel
       | S f => free_loop f bp n
       end.

(** Joining the block with the one after it, or linking to that. *)
Definition link_right (bp p : Z) : M ust unit :=
  sz ← gets (fun s => size (umem s) bp);
  n ← gets (fun s => ptr (umem s) p);
  if u32 (bp + 8 * sz) =? n then
    nsz ← gets (fun s => size (umem s) n);
    set_size bp (u32 (sz + nsz));;
    nn ← gets (fun s => ptr (umem s) n);
    set_ptr bp nn
  else set_ptr bp n.

(** Joining it with the one before it, or linking from that. *)
Definition link_left (bp p : Z) : M ust unit :=
  psz ← gets (fun s => size (umem s) p);
  if u32 (p + 8 * psz) =? bp then
    bsz ← gets (fun s => size (umem s) bp);
    set_size p (u32 (psz + bsz));;
    bn ← gets (fun s => ptr (umem s) bp);
    set_ptr p bn
  else set_ptr p bp.

Definition free (ap : Z) : M ust unit :=
  let bp := u32 (ap - 8) in
  p0 ← gets freep;
  b ← gets brk;
  p ← free_loop (Z.to_nat (b / 8)) bp p0;
  link_right bp p;;
  link_left bp p;;
  modify (set_freep p).

Definition morecore (nu : Z) : M ust Z :=
  let nu := if nu <? 4096 then 4096 else nu in
  p ← sbrk (u32 (nu * 8));
  if p =? u32 (-1) then mret 0
  else
    set_size p nu;;
    free (u32 (p + 8));;
    gets freep.

(** The block [p] is taken: unlinked, or its tail cut off. *)
Definition take_block (nunits prevp p : Z) : M ust Z :=
  sz ← gets (fun s => size (umem s) p);
  p ← (if sz =? nunits then
         n ← gets (fun s => ptr (umem s) p); set_ptr prevp n;; mret p
       else
         set_size p (u32 (sz - nunits));;
         sz' ← gets (fun s => size (umem s) p);
         let p' := u32 (p + 8 * sz') in
         set_size p' nunits;; mret p');
  modify (set_freep prevp);;
  mret (u32 (p + 8)).

Fixpoint malloc_loop (fuel : nat) (nunits prevp p : Z) : M ust Z :=
  sz ← gets (fun s => size (umem s) p);
  if sz >=? nunits then take_block nunits prevp p
  else
    f ← gets freep;
    '(p, full) ← (if p =? f then r ← morecore nunits; mret (r, r =? 0) else mret (p, false));
    if (full : bool) then mret 0
    else
      n ← gets (fun s => ptr (umem s) p);
      match fuel with
      | O => nofuel
      | S k => malloc_loop k nunits p n
      end.

Definition units (nbytes : Z) : Z := u32 (u32 (nbytes + 8 - 1) / 8 + 1).

Definition malloc (nbytes : Z) : M ust Z :=
  let nunits := units nbytes in
  prevp ← gets freep;
  prevp ← (if prevp =? 0 then
             set_ptr base base;; modify (set_freep base);; set_size base 0;; mret base
           else mret prevp);
  b ← gets brk;
  p ← gets (fun s => ptr (umem s) prevp);
  malloc_loop (2 * Z.to_nat (b / 8) + 4) nunits prevp p.

End umalloc.

(** * The invariant *)

(** A block is its address and its size in units of eight bytes. *)
Abbreviation block := (Z * Z)%type.

(** The bytes a block takes up: [base] has size 0 and a header all the same. *)
Definition ext (b : block) : Z := 8 * Z.max 1 b.2.
Definition in_block (b : block) (x : Z) : Prop := b.1 <= x < b.1 + 8 * b.2.
Definition apart (b b' : block) : Prop := b.1 + ext b <= b'.1 \/ b'.1 + ext b' <= b.1.
Definition covered (l : list block) (x : Z) : Prop := exists b, b ∈ l /\ in_block b x.

Fixpoint apart_all (l : list block) : Prop :=
  match l with
  | [] => True
  | b :: l' => Forall (apart b) l' /\ apart_all l'
  end.

(** Each address of the list points to the next one. *)
Fixpoint linked (m : mem) (l : list Z) : Prop :=
  match l with
  | a :: (b :: _) as l' => ptr m a = b /\ linked m l'
  | _ => True
  end.

(** In address order, and no two neighbours that should be one block. *)
Fixpoint gaps (l : list block) : Prop :=
  match l with
  | b :: ((b' :: _) as l') => b.1 + ext b <= b'.1 /\ b.1 + 8 * b.2 <> b'.1 /\ gaps l'
  | _ => True
  end.

Section invariant.
Variable base : Z.

Definition ring (fl : list block) : list block := (base, 0) :: fl.

Record heap (s : ust) (fl ul : list block) : Prop := {
  h_wf : mem_wf (umem s);
  h_base : 0 < base;
  h_brk : base + 8 <= brk s < KERNBASE;
  h_freep : freep s ∈ (ring fl).*1;
  h_ring : linked (umem s) ((ring fl).*1 ++ [base]);
  h_size : Forall (fun b => size (umem s) b.1 = b.2) (ring fl ++ ul);
  h_gaps : gaps (ring fl);
  h_in : Forall (fun b => 1 <= b.2 /\ base + 8 <= b.1 /\ b.1 + 8 * b.2 <= brk s) (fl ++ ul);
  h_apart : forall f u, f ∈ ring fl -> u ∈ ul -> apart f u;
  h_ul : apart_all ul
}.

(** Before the first [malloc] the list does not exist yet. *)
Definition uheap (s : ust) (fl ul : list block) : Prop :=
  heap s fl ul \/
  (freep s = 0 /\ fl = [] /\ ul = [] /\ mem_wf (umem s) /\ 0 < base /\ base + 8 <= brk s < KERNBASE).

(** What an operation leaves alone: the blocks in use, headers included. *)
Definition kept (ul : list block) (s s' : ust) : Prop :=
  forall u x, u ∈ ul -> in_block u x -> umem s' x = umem s x.

(** ** Lists *)

Lemma linked_app m l1 a l2 : linked m (l1 ++ a :: l2) <-> linked m (l1 ++ [a]) /\ linked m (a :: l2).
Proof.
  induction l1 as [|x l1 IH]; [cbn; tauto|].
  destruct l1 as [|y l1]; cbn in *; [tauto|]. rewrite IH. tauto.
Qed.

Lemma linked_cons m a l d : linked m (a :: l ++ [d]) <-> ptr m a = hd d l /\ linked m (l ++ [d]).
Proof. by destruct l. Qed.

Lemma linked_frame m m' l a : (forall x, x ∈ l -> ptr m' x = ptr m x) -> linked m (l ++ [a]) -> linked m' (l ++ [a]).
Proof.
  induction l as [|x l IH]; intros H HL; [done|].
  assert (Hx := H x ltac:(left)). destruct l as [|y l]; cbn in *; [by rewrite Hx|].
  rewrite Hx. destruct HL as [-> HL]. split; [done|]. apply IH; [set_solver|done].
Qed.

Lemma linked_next m l i a b : linked m l -> l !! i = Some a -> l !! S i = Some b -> ptr m a = b.
Proof.
  revert i. induction l as [|x l IH]; intros i HL Ha Hb; [done|].
  destruct l as [|y l]; [by destruct i|]. destruct HL as [Hx HL].
  destruct i; cbn in *; [congruence|]. by apply (IH i).
Qed.

Lemma gaps_app l1 b l2 : gaps (l1 ++ b :: l2) <-> gaps (l1 ++ [b]) /\ gaps (b :: l2).
Proof.
  induction l1 as [|x l1 IH]; [cbn; tauto|].
  destruct l1 as [|y l1]; cbn in *; [tauto|]. rewrite IH. tauto.
Qed.

Lemma gaps_last l b b' : b.1 = b'.1 -> gaps (l ++ [b]) -> gaps (l ++ [b']).
Proof.
  intros E. induction l as [|x l IH]; intros HG; [done|]. destruct l; cbn in *; rewrite <- ?E; tauto.
Qed.

Lemma gaps_tail b l : gaps (b :: l) -> gaps l.
Proof. destruct l; [done|]. intros HG. apply HG. Qed.

Lemma ext_pos b : 8 <= ext b.
Proof. unfold ext. lia. Qed.

Lemma gaps_after b l : gaps (b :: l) -> Forall (fun y => b.1 + ext b <= y.1) l.
Proof.
  revert b. induction l as [|x l IH]; intros b HG; [done|].
  destruct HG as (H1 & _ & HG). constructor; [done|]. eapply Forall_impl; [exact (IH x HG)|].
  cbn. intros y Hy. pose proof (ext_pos x). lia.
Qed.

Lemma gaps_before l b : gaps (l ++ [b]) -> Forall (fun y => y.1 + ext y <= b.1) l.
Proof.
  induction l as [|x l IH]; intros HG; [done|]. constructor.
  - apply gaps_after in HG. apply Forall_app in HG as [_ HG]. apply (Forall_inv HG).
  - apply IH. destruct l; [done|apply HG].
Qed.

Lemma gaps_length b l hi : gaps (b :: l) -> Forall (fun y => y.1 + ext y <= hi) (b :: l) ->
  b.1 + 8 * Z.of_nat (length (b :: l)) <= hi.
Proof.
  revert b. induction l as [|x l IH]; intros b HG HF; pose proof (ext_pos b); apply Forall_cons in HF as [Hb HF].
  - cbn. lia.
  - destruct HG as (H1 & _ & HG). specialize (IH x HG HF). cbn in *. lia.
Qed.

Lemma apart_all_app l1 l2 : apart_all (l1 ++ l2) <->
  apart_all l1 /\ apart_all l2 /\ Forall (fun b => Forall (apart b) l2) l1.
Proof.
  induction l1 as [|b l1 IH]; cbn; [rewrite Forall_nil; tauto|].
  rewrite Forall_app, Forall_cons, IH. tauto.
Qed.

Lemma apart_sym b b' : apart b b' -> apart b' b.
Proof. unfold apart. tauto. Qed.

Lemma apart_byte b b' x : apart b b' -> b.1 <= x < b.1 + 8 -> 1 <= b'.2 -> ~ in_block b' x.
Proof. unfold apart, ext, in_block. lia. Qed.

Lemma ring_next m (l1 : list block) p l2 : linked m ((l1 ++ p :: l2).*1 ++ [base]) -> ptr m p.1 = hd base l2.*1.
Proof.
  rewrite fmap_app, fmap_cons, <- app_assoc. cbn [app]. intros HL. apply linked_app in HL as [_ HL].
  by destruct l2; destruct HL.
Qed.

(** ** The position search of [free] *)

Section search.
Context (s : ust) (l A C : list block) (q : block) (bp : Z).
Hypotheses (Hl : l = A ++ q :: C) (Hhd : hd (base, 0) l = (base, 0)) (Hbase : base < bp).
Hypotheses (HL : linked (umem s) (l.*1 ++ [base])) (HG : gaps l).
Hypotheses (HA : Forall (fun b => b.1 < bp) (A ++ [q])) (HC : Forall (fun b => bp < b.1) C) (Hq0 : base <= q.1).

Lemma walk_low A1 A2 p R fuel c : l = A1 ++ p :: R -> p :: R = A2 ++ q :: C ->
  (length A2 <= fuel)%nat ->
  wp (free_loop fuel bp p.1) c s (fun r c' s' => r = q.1 /\ c' = c /\ s' = s).
Proof using Hl Hbase HL HG HA HC Hq0.
  clear Hhd. revert A1 p R fuel. induction A2 as [|x A2 IH]; intros A1 p R fuel E1 E2 Hf.
  - injection E2 as -> ->. assert (Hn := HL). rewrite E1 in Hn. apply ring_next in Hn.
    apply Forall_app in HA as [_ Hq]. apply Forall_inv in Hq. cbn beta in Hq.
    destruct fuel; cbn [free_loop]; wp_step; wp_step; rewrite Hn; destruct C as [|b C']; cbn [hd fmap list_fmap];
      try (apply Forall_inv in HC; cbn beta in HC); zcases; by wp_step.
  - cbn in E2. injection E2 as <- ->. assert (Hn := HL). rewrite E1 in Hn. apply ring_next in Hn.
    destruct fuel as [|fuel]; [cbn in Hf; lia|]. cbn [free_loop]. wp_step. wp_step. rewrite Hn.
    assert (exists b R', A2 ++ q :: C = b :: R' /\ b.1 < bp) as (b & R' & Eb & Hb).
    { assert (Hx : Forall (fun b => b.1 < bp) (A2 ++ [q])).
      { apply Forall_forall. intros y Hy. rewrite Forall_forall in HA. apply HA.
        assert (E3 : l = (A1 ++ p :: A2) ++ q :: C) by (by rewrite E1, <- app_assoc).
        rewrite Hl in E3. apply app_inj_2 in E3 as [E3 _]; [|done]. rewrite E3. set_solver. }
      destruct A2; cbn in *; eexists _, _; (split; [done|]); by apply Forall_inv in Hx. }
    assert (Hlt : p.1 < b.1).
    { rewrite E1, Eb in HG. apply gaps_app in HG as [_ HG']. destruct HG' as [H _]. pose proof (ext_pos p). lia. }
    rewrite Eb. cbn [fmap list_fmap hd]. zcases. rewrite Eb in E1.
    apply (IH (A1 ++ [p]) b R'); [by rewrite <- app_assoc|done|cbn in Hf; lia].
Qed.

Lemma walk_high R C1 p fuel c : C = C1 ++ p :: R -> (length R + 1 + length A <= fuel)%nat ->
  wp (free_loop fuel bp p.1) c s (fun r c' s' => r = q.1 /\ c' = c /\ s' = s).
Proof using All.
  revert C1 p fuel. induction R as [|r R IH]; intros C1 p fuel E Hf;
    destruct fuel as [|fuel]; try (cbn in Hf; lia); cbn [free_loop]; wp_step; wp_step;
    assert (Hn := HL); rewrite Hl, E, app_comm_cons, app_assoc in Hn; apply ring_next in Hn; rewrite Hn;
    cbn [hd fmap list_fmap];
    assert (Hp : bp < p.1) by (rewrite Forall_forall in HC; apply HC; rewrite E; set_solver).
  - zcases.
    assert (exists l', l = (base, 0) :: l') as [l' El].
    { clear -Hl Hhd. rewrite Hl in *. destruct A; cbn in *; subst; eauto. }
    apply (walk_low [] A (base, 0) l'); [done|by etransitivity; [symmetry; exact El|]|cbn in Hf; lia].
  - assert (p.1 < r.1).
    { rewrite Hl, E, app_comm_cons, app_assoc in HG. apply gaps_app in HG as [_ HG']. destruct HG' as [H _].
      pose proof (ext_pos p). lia. }
    zcases. apply (IH (C1 ++ [p])); [by rewrite <- app_assoc|cbn in Hf; lia].
Qed.

Lemma free_loop_wp p fuel c : p ∈ l.*1 -> (length l <= fuel)%nat ->
  wp (free_loop fuel bp p) c s (fun r c' s' => r = q.1 /\ c' = c /\ s' = s).
Proof using All.
  intros Hp Hf. apply list_elem_of_fmap in Hp as (b & -> & Hb).
  rewrite Hl in Hf. rewrite length_app in Hf. cbn in Hf.
  rewrite Hl in Hb. apply elem_of_app in Hb as [Hb|Hb].
  - apply list_elem_of_split in Hb as (A1 & A2 & E).
    apply (walk_low A1 (b :: A2) b (A2 ++ q :: C)); [by rewrite Hl, E, <- app_assoc|done|].
    rewrite E, length_app in Hf. cbn in *. lia.
  - apply elem_of_cons in Hb as [->|Hb].
    + apply (walk_low A [] q C); [done|done|cbn; lia].
    + apply list_elem_of_split in Hb as (C1 & R & E). apply (walk_high R C1); [done|].
      rewrite E, length_app in Hf. cbn in *. lia.
Qed.

End search.

(** ** free *)

Lemma store_hdr_ne m a v x : ~ a <= x < a + 4 -> store32 m a v x = m x.
Proof. intros H. unfold store32. by destruct (Z.leb_spec a x), (Z.ltb_spec x (a + 4)); cbn; try lia. Qed.

Lemma covered_cons b l x : covered (b :: l) x <-> in_block b x \/ covered l x.
Proof. unfold covered. set_solver. Qed.

Lemma covered_app l1 l2 x : covered (l1 ++ l2) x <-> covered l1 x \/ covered l2 x.
Proof. unfold covered. set_solver. Qed.

Lemma covered_nil x : covered [] x <-> False.
Proof. unfold covered. set_solver. Qed.

Lemma covered_ring fl x : covered (ring fl) x <-> covered fl x.
Proof. unfold ring. rewrite covered_cons. unfold in_block. cbn. intuition lia. Qed.

(** A block address splits the ring. *)
Lemma ring_split l bp : gaps l -> Forall (fun b => b.1 <> bp) l -> (exists b, b ∈ l /\ b.1 < bp) ->
  exists A q C, l = A ++ q :: C /\ Forall (fun b => b.1 < bp) (A ++ [q]) /\ Forall (fun b => bp < b.1) C.
Proof.
  induction l as [|x l IH]; intros HG Hne (b & Hb & Hlt); [by apply not_elem_of_nil in Hb|].
  apply Forall_cons in Hne as [Hx Hne]. assert (Hafter := gaps_after _ _ HG).
  destruct (decide (Exists (fun y => y.1 < bp) l)) as [He|He].
  - destruct IH as (A & q & C & -> & HA & HC); [by destruct l; [|apply HG]|done| |].
    + apply Exists_exists in He. exact He.
    + exists (x :: A), q, C. split; [done|]. split; [|done]. cbn. constructor; [|done].
      apply Forall_app in HA as [_ Hq]. apply Forall_inv in Hq.
      apply Forall_app in Hafter as [_ Ha]. apply Forall_inv in Ha. cbn in *. pose proof (ext_pos x). lia.
  - apply not_Exists_Forall in He; [|intros; apply _]. exists [], x, l. split; [done|].
    assert (x.1 < bp).
    { apply elem_of_cons in Hb as [->|Hb]; [done|]. rewrite Forall_forall in He. by destruct (He b Hb). }
    split; [by constructor|]. apply Forall_forall. intros y Hy. rewrite Forall_forall in He, Hne.
    specialize (He y Hy). specialize (Hne y Hy). cbn in *. lia.
Qed.

Lemma ring_head A q q' C R : hd (base, 0) (A ++ q :: C) = (base, 0) -> (q = (base, 0) -> q' = q) ->
  exists fl', ring fl' = A ++ q' :: R.
Proof.
  intros Hhd Hq. destruct A as [|x A]; cbn in *; [|subst x; by exists (A ++ q' :: R)].
  rewrite (Hq Hhd), Hhd. by exists R.
Qed.

(** What [link_right] joins: the block and the list that follows it. *)
Definition joined_right (b : block) (C : list block) (sz' : Z) (C' : list block) : Prop :=
  (C' = C /\ sz' = b.2 /\ b.1 + 8 * b.2 <> hd base C.*1) \/
  (exists nn, C = (b.1 + 8 * b.2, nn) :: C' /\ sz' = b.2 + nn).

Section free_proof.
Context (s : ust) (fl ul A C : list block) (q b : block).
Hypotheses (Hh : heap s fl (b :: ul)) (Hl : ring fl = A ++ q :: C).
Hypotheses (HA : Forall (fun x => x.1 < b.1) (A ++ [q])) (HC : Forall (fun x => b.1 < x.1) C).

Lemma blk_in : 1 <= b.2 /\ base + 8 <= b.1 /\ b.1 + 8 * b.2 <= brk s < KERNBASE.
Proof using Hh.
  destruct Hh. rewrite Forall_app, Forall_cons in h_in0. lia.
Qed.

Lemma blk_size : size (umem s) b.1 = b.2.
Proof using Hh. destruct Hh. rewrite Forall_app, Forall_cons in h_size0. tauto. Qed.

Lemma free_size x : x ∈ ring fl -> size (umem s) x.1 = x.2.
Proof using Hh. intros Hx. destruct Hh. rewrite Forall_app, Forall_forall in h_size0. by apply h_size0. Qed.

Lemma low_before x : x ∈ A ++ [q] -> x.1 + ext x <= b.1.
Proof using All.
  intros Hx. assert (Ha : apart x b) by (apply (h_apart _ _ _ Hh); [rewrite Hl; set_solver|left]).
  rewrite Forall_forall in HA. specialize (HA x Hx). unfold apart in Ha. pose proof (ext_pos b). lia.
Qed.

Lemma high_after x : x ∈ C -> b.1 + 8 * b.2 <= x.1 /\ 1 <= x.2 /\ x.1 + 8 * x.2 <= brk s.
Proof using All.
  intros Hx. assert (Ha : apart x b) by (apply (h_apart _ _ _ Hh); [rewrite Hl; set_solver|left]).
  rewrite Forall_forall in HC. specialize (HC x Hx). unfold apart, ext in Ha. pose proof blk_in. split; [lia|].
  assert (x ∈ fl).
  { assert (x ∈ ring fl) as [->|Hin]%elem_of_cons by (rewrite Hl; set_solver); [|done]. cbn in *. lia. }
  destruct Hh. rewrite Forall_app, Forall_forall in h_in0. destruct h_in0 as [Hin _]. specialize (Hin x). tauto.
Qed.

Lemma q_next : ptr (umem s) q.1 = hd base C.*1.
Proof using Hh Hl. destruct Hh. rewrite Hl in h_ring0. by apply ring_next in h_ring0. Qed.

Lemma c_next x C' : C = x :: C' -> ptr (umem s) x.1 = hd base C'.*1.
Proof using Hh Hl.
  intros E. destruct Hh. rewrite Hl, (cons_middle q A C), (app_assoc A [q] C), E in h_ring0. by apply ring_next in h_ring0.
Qed.

Lemma C_cases : C = [] \/ exists x C', C = x :: C'.
Proof using. clear. destruct C; eauto. Qed.

Lemma hd_C_range : hd base C.*1 = base \/ b.1 + 8 * b.2 <= hd base C.*1 < KERNBASE.
Proof using All.
  destruct C_cases as [E|(x & C' & E)]; [left; by rewrite E|]. right. rewrite E. cbn. pose proof blk_in.
  destruct (high_after x); [rewrite E; left|]. lia.
Qed.

Lemma link_right_wp c :
  wp (link_right b.1 q.1) c s (fun _ c' s' => c' = c /\ freep s' = freep s /\ brk s' = brk s /\ mem_wf (umem s') /\
    (forall x, ~ b.1 <= x < b.1 + 8 -> umem s' x = umem s x) /\
    exists sz' C', joined_right b C sz' C' /\ size (umem s') b.1 = sz' /\ ptr (umem s') b.1 = hd base C'.*1).
Proof using All.
  unfold link_right. do 4 wp_step. rewrite blk_size, q_next.
  destruct blk_in as (B1 & B2 & B3). assert (Hb0 := h_base _ _ _ Hh). assert (Hwf := h_wf _ _ _ Hh).
  rewrite u32_small by (unfold is_u32, KERNBASE in *; lia).
  destruct (Z.eqb_spec (b.1 + 8 * b.2) (hd base C.*1)) as [Hj|Hj].
  - destruct C_cases as [E|([a nn] & C' & E)]; rewrite E in Hj; cbn in Hj; [lia|]. subst a.
    destruct (high_after (b.1 + 8 * b.2, nn)) as (H1 & H2 & H3); [rewrite E; left|]. cbn in H1, H2, H3.
    assert (Hsz := free_size (b.1 + 8 * b.2, nn)). cbn in Hsz.
    do 2 wp_step. rewrite E. cbn [fmap list_fmap hd fst]. rewrite Hsz by (rewrite Hl, E; set_solver).
    unfold set_size, set_ptr. do 5 wp_step. cbn [umem set_umem freep brk].
    assert (Hn := c_next (b.1 + 8 * b.2, nn) C' E). cbn [fst] in Hn.
    assert (Hn' : ptr (store32 (umem s) (b.1 + 4) (u32 (b.2 + nn))) (b.1 + 8 * b.2) = hd base C'.*1).
    { unfold ptr in *. rewrite load32_store32_ne by lia. done. }
    rewrite Hn'. rewrite (u32_small (b.2 + nn)) by (unfold is_u32, KERNBASE in *; lia).
    split_and!; auto with xv6.
    + intros x Hx. rewrite !store_hdr_ne by lia. done.
    + exists (b.2 + nn), C'. split; [right; by exists nn|]. unfold size, ptr. split.
      * rewrite load32_store32_ne by lia. apply load32_store32. unfold is_u32, KERNBASE in *; lia.
      * apply load32_store32. rewrite <- Hn'. unfold ptr. apply load32_range. auto with xv6.
  - unfold set_ptr. wp_step. cbn [umem set_umem freep brk]. split_and!; auto with xv6.
    + intros x Hx. rewrite store_hdr_ne by lia. done.
    + exists b.2, C. split; [by left|]. unfold size, ptr. split.
      * rewrite load32_store32_ne by lia. exact blk_size.
      * apply load32_store32. rewrite <- q_next. by apply load32_range.
Qed.

(** [link_left] decides the blocks that take the place of [q] and [b]. *)
Definition joined_left (sz' : Z) (N : list block) : Prop :=
  (N = [q; (b.1, sz')] /\ q.1 + 8 * q.2 <> b.1) \/ (N = [(q.1, q.2 + sz')] /\ q.1 + 8 * q.2 = b.1).

Lemma q_in : q ∈ ring fl /\ base <= q.1 /\ 0 <= q.2 /\ q.1 + ext q <= b.1.
Proof using All.
  assert (Hq : q ∈ ring fl) by (rewrite Hl; set_solver). split; [done|].
  assert (Hlow := low_before q ltac:(set_solver)). apply elem_of_cons in Hq as [->|Hq]; [cbn in *; lia|].
  destruct Hh. rewrite Forall_app, Forall_forall in h_in0. destruct h_in0 as [Hin _]. specialize (Hin q Hq). lia.
Qed.

Lemma joined_right_size sz' C' : joined_right b C sz' C' -> b.2 <= sz' /\ b.1 + 8 * sz' <= brk s.
Proof using All.
  pose proof blk_in. intros [(-> & -> & _)|(nn & E & ->)]; [lia|].
  destruct (high_after (b.1 + 8 * b.2, nn)); [rewrite E; left|]. cbn in *. lia.
Qed.

Lemma link_left_wp s1 sz' C' c : joined_right b C sz' C' -> mem_wf (umem s1) ->
  (forall x, ~ b.1 <= x < b.1 + 8 -> umem s1 x = umem s x) ->
  size (umem s1) b.1 = sz' -> ptr (umem s1) b.1 = hd base C'.*1 ->
  wp (link_left b.1 q.1) c s1 (fun _ c' s' => c' = c /\ freep s' = freep s1 /\ brk s' = brk s1 /\ mem_wf (umem s') /\
    (forall x, ~ b.1 <= x < b.1 + 8 -> ~ q.1 <= x < q.1 + 8 -> umem s' x = umem s x) /\
    exists N, joined_left sz' N /\ Forall (fun x => size (umem s') x.1 = x.2) N /\
      linked (umem s') (N.*1 ++ [hd base C'.*1])).
Proof using All.
  intros HJ Hwf Hfr Hsz Hpt. destruct q_in as (Hq & Q1 & Q2 & Q3). destruct blk_in as (B1 & B2 & B3).
  destruct (joined_right_size _ _ HJ) as [J1 J2]. assert (Hb0 := h_base _ _ _ Hh). pose proof (ext_pos q).
  unfold link_left. do 2 wp_step.
  assert (Eq : size (umem s1) q.1 = q.2).
  { rewrite <- (free_size q Hq). unfold size. apply load32_ext. intros x Hx. apply Hfr. lia. }
  rewrite Eq. rewrite u32_small by (unfold is_u32, KERNBASE, ext in *; lia).
  destruct (Z.eqb_spec (q.1 + 8 * q.2) b.1) as [Hj|Hj].
  - do 2 wp_step. rewrite Hsz. unfold set_size, set_ptr. do 5 wp_step. cbn [umem set_umem freep brk].
    assert (Hn' : ptr (store32 (umem s1) (q.1 + 4) (u32 (q.2 + sz'))) b.1 = hd base C'.*1).
    { unfold ptr in *. rewrite load32_store32_ne by lia. done. }
    rewrite Hn'. rewrite (u32_small (q.2 + sz')) by (unfold is_u32, KERNBASE in *; lia).
    split_and!; auto with xv6.
    + intros x Hx1 Hx2. rewrite !store_hdr_ne by lia. auto.
    + exists [(q.1, q.2 + sz')]. split; [by right|]. split; cbn; [constructor; [|done]|split; [|done]].
      * cbn. unfold size. rewrite load32_store32_ne by lia. apply load32_store32. unfold is_u32, KERNBASE in *; lia.
      * apply load32_store32. rewrite <- Hn'. unfold ptr. apply load32_range. auto with xv6.
  - unfold set_ptr. wp_step. cbn [umem set_umem freep brk]. split_and!; auto with xv6.
    + intros x Hx1 Hx2. rewrite store_hdr_ne by lia. auto.
    + exists [q; (b.1, sz')]. split; [by left|]. unfold size, ptr in *. split.
      * repeat constructor; cbn; rewrite load32_store32_ne by lia; done.
      * cbn. unfold ptr. rewrite load32_store32 by (unfold is_u32, KERNBASE in *; lia).
        rewrite load32_store32_ne by lia. done.
Qed.

Lemma gaps_joined sz' C' : joined_right b C sz' C' -> gaps ((b.1, sz') :: C').
Proof using All.
  intros HJ. destruct (joined_right_size _ _ HJ) as [J1 J2]. pose proof blk_in.
  assert (HG := h_gaps _ _ _ Hh). rewrite Hl in HG. apply gaps_app in HG as [_ HG]. apply gaps_tail in HG.
  destruct HJ as [(-> & -> & Hne)|(nn & E & ->)].
  - destruct C_cases as [E|(x & C' & E)]; [by rewrite E|]. destruct (high_after x); [rewrite E; left|].
    rewrite E in Hne, HG |- *. cbn in Hne.
    split; [unfold ext; cbn; lia|]. by split.
  - rewrite E in HG. destruct (high_after (b.1 + 8 * b.2, nn)); [rewrite E; left|].
    destruct C' as [|x C']; [done|]. cbn in *. unfold ext in *. cbn in *. intuition lia.
Qed.

Lemma gaps_relinked sz' C' N : joined_right b C sz' C' -> joined_left sz' N -> gaps (A ++ N ++ C').
Proof using All.
  intros HJ HN. assert (HG1 := gaps_joined _ _ HJ). destruct q_in as (_ & Q1 & Q2 & Q3).
  destruct (joined_right_size _ _ HJ) as [J1 J2]. pose proof blk_in.
  assert (HG := h_gaps _ _ _ Hh). rewrite Hl in HG. apply gaps_app in HG as [HG _].
  destruct HN as [[-> Hne]|[-> Hj]]; cbn [app]; apply gaps_app.
  - split; [done|]. split; [cbn; lia|]. by split.
  - split; [by apply (gaps_last _ q)|]. destruct C' as [|x C']; [done|].
    destruct HG1 as (H1 & H2 & H3). unfold ext in *. cbn [fst snd] in *. split; [unfold ext; cbn [fst snd]; lia|].
    split; [cbn [fst snd]; lia|done].
Qed.

Lemma relinked_in sz' C' N x : joined_right b C sz' C' -> joined_left sz' N -> x ∈ A ++ N ++ C' ->
  x ∈ A ++ C \/ (x = q /\ N = [q; (b.1, sz')]) \/
  (x.2 = sz' /\ x.1 = b.1) \/ (x = (q.1, q.2 + sz') /\ q.1 + 8 * q.2 = b.1).
Proof using All.
  intros HJ HN. rewrite !elem_of_app. intros [Hx|[Hx|Hx]].
  - left. by left.
  - right. destruct HN as [[-> Hne]|[-> Hj]]; [|apply list_elem_of_singleton in Hx; subst; by right; right].
    apply elem_of_cons in Hx as [->|Hx]; [by left|]. apply list_elem_of_singleton in Hx as ->. by right; left.
  - left. right. destruct HJ as [(-> & _)|(nn & -> & _)]; [done|by right].
Qed.

Lemma relinked_covered sz' C' N x : joined_right b C sz' C' -> joined_left sz' N ->
  covered (A ++ N ++ C') x <-> covered (ring fl) x \/ in_block b x.
Proof using Hl Hh HC HA.
  intros HJ HN. rewrite Hl. destruct q_in as (_ & Q1 & Q2 & Q3). destruct (joined_right_size _ _ HJ) as [J1 J2].
  pose proof blk_in. unfold ext in *. rewrite !covered_app, covered_cons.
  assert (HC' : in_block (b.1, sz') x \/ covered C' x <-> in_block b x \/ covered C x).
  { destruct HJ as [(-> & -> & _)|(nn & E & ->)]; [done|].
    destruct (high_after (b.1 + 8 * b.2, nn)); [rewrite E; left|].
    rewrite E, covered_cons. unfold in_block. cbn in *. intuition lia. }
  destruct HN as [[-> Hne]|[-> Hj]]; rewrite !covered_cons, covered_nil.
  - tauto.
  - assert (in_block (q.1, q.2 + sz') x <-> in_block q x \/ in_block (b.1, sz') x) as ->
      by (unfold in_block; cbn; lia). tauto.
Qed.

Lemma ring_fact x : x ∈ A ++ q :: C -> x = (base, 0) \/ (1 <= x.2 /\ base + 8 <= x.1 /\ x.1 + 8 * x.2 <= brk s).
Proof using Hh Hl.
  rewrite <- Hl. intros [->|Hx]%elem_of_cons; [by left|]. right. destruct Hh.
  rewrite Forall_app, Forall_forall in h_in0. destruct h_in0 as [Hin _]. by apply Hin.
Qed.

(** Free blocks other than [q] keep their headers. *)
Lemma hdr_kept (m' : mem) x : (forall x, ~ b.1 <= x < b.1 + 8 -> ~ q.1 <= x < q.1 + 8 -> m' x = umem s x) ->
  x ∈ A ++ C \/ x ∈ ul -> ptr m' x.1 = ptr (umem s) x.1 /\ size m' x.1 = size (umem s) x.1.
Proof using All.
  intros Hfr Hx. assert (apart x b /\ apart x q) as [H1 H2].
  { destruct Hx as [Hx|Hx].
    - split; [apply (h_apart _ _ _ Hh); [rewrite Hl; set_solver|left]|].
      assert (HG := h_gaps _ _ _ Hh). rewrite Hl in HG. apply gaps_app in HG as [G1 G2].
      apply gaps_before in G1. apply gaps_after in G2. rewrite Forall_forall in G1, G2. unfold apart.
      apply elem_of_app in Hx as [Hx|Hx]; [left; by apply G1|right; by apply G2].
    - destruct Hh. destruct h_ul0 as [Hb _]. rewrite Forall_forall in Hb. split; [by apply apart_sym, Hb|].
      apply apart_sym, h_apart0; [rewrite Hl|]; set_solver. }
  unfold apart in *. pose proof (ext_pos x). pose proof (ext_pos b). pose proof (ext_pos q).
  split; apply load32_ext; intros y Hy; apply Hfr; lia.
Qed.

Lemma relinked_linked m' sz' C' N : joined_right b C sz' C' -> joined_left sz' N ->
  (forall x, ~ b.1 <= x < b.1 + 8 -> ~ q.1 <= x < q.1 + 8 -> m' x = umem s x) ->
  linked m' (N.*1 ++ [hd base C'.*1]) -> linked m' ((A ++ N ++ C').*1 ++ [base]).
Proof using All.
  intros HJ HN Hfr HL. assert (HR := h_ring _ _ _ Hh). rewrite Hl in HR.
  rewrite fmap_app, fmap_cons, <- app_assoc in HR. cbn [app] in HR. apply linked_app in HR as [R1 R2].
  assert (exists N', N.*1 = q.1 :: N') as [N' EN] by (destruct HN as [[-> _]|[-> _]]; cbn; eauto).
  assert (HC' : linked m' (C'.*1 ++ [base])).
  { apply (linked_frame (umem s)).
    - intros a (x & -> & Hx)%list_elem_of_fmap. apply (hdr_kept m' x Hfr). left. apply elem_of_app. right.
      destruct HJ as [(-> & _)|(nn & E & _)]; [done|]. rewrite E. by right.
    - destruct HJ as [(-> & _)|(nn & E & _)]; [|rewrite E in R2; cbn in R2; destruct (C'.*1 ++ [base]) eqn:EC];
        [by destruct (C.*1 ++ [base]); [|apply R2]|done|]. rewrite <- EC in *. apply R2. }
  rewrite !fmap_app, EN, <- !app_assoc. cbn [app]. apply linked_app. split.
  - apply (linked_frame (umem s)); [|done]. intros a (x & -> & Hx)%list_elem_of_fmap.
    apply (hdr_kept m' x Hfr). left. set_solver.
  - rewrite EN in HL. assert (exists R, C'.*1 ++ [base] = hd base C'.*1 :: R) as [R ER] by (destruct C'; cbn; eauto).
    rewrite ER in *. change (q.1 :: N' ++ hd base C'.*1 :: R) with ((q.1 :: N') ++ hd base C'.*1 :: R).
    apply linked_app. split; [exact HL|exact HC'].
Qed.

Lemma relinked_facts sz' C' N x : joined_right b C sz' C' -> joined_left sz' N -> x ∈ A ++ N ++ C' ->
  (x = (base, 0) \/ (1 <= x.2 /\ base + 8 <= x.1 /\ x.1 + 8 * x.2 <= brk s)) /\
  forall u, u ∈ ul -> apart x u.
Proof using All.
  intros HJ HN Hx. destruct q_in as (Hq & Q1 & Q2 & Q3). destruct (joined_right_size _ _ HJ) as [J1 J2].
  pose proof blk_in. assert (HU : forall f u, f ∈ A ++ q :: C -> u ∈ ul -> apart f u).
  { rewrite <- Hl. intros f u Hf Hu. apply (h_apart _ _ _ Hh); [done|by right]. }
  assert (HB : forall u, u ∈ ul -> apart b u /\ 1 <= u.2).
  { destruct Hh. destruct h_ul0 as [Hb _]. rewrite Forall_forall in Hb.
    rewrite Forall_app, !Forall_cons, Forall_forall in h_in0. intros u Hu. split; [by apply Hb|].
    destruct h_in0 as (_ & _ & Hin). rewrite Forall_forall in Hin. by apply Hin. }
  assert (HBs : forall u, u ∈ ul -> apart (b.1, sz') u).
  { intros u Hu. destruct (HB u Hu) as [H1 H2]. destruct HJ as [(-> & -> & _)|(nn & E & ->)]; [by destruct b|].
    specialize (HU (b.1 + 8 * b.2, nn) u ltac:(rewrite E; set_solver) Hu).
    destruct (high_after (b.1 + 8 * b.2, nn)); [rewrite E; left|].
    unfold apart, ext in *. cbn [fst snd] in *. lia. }
  destruct (relinked_in _ _ _ _ HJ HN Hx) as [Hin|[[-> _]|[[E2 E1]|[-> Hj]]]].
  - split; [apply ring_fact; set_solver|]. intros u Hu. apply HU; [set_solver|done].
  - split; [apply ring_fact; set_solver|]. intros u Hu. apply HU; [set_solver|done].
  - destruct x as [x1 x2]. cbn in E1, E2. subst. split; [right; cbn [fst snd]; lia|done].
  - unfold ext in *. assert (base + 8 <= q.1).
    { destruct (ring_fact q) as [Eq|Eq]; [set_solver| |lia]. apply (f_equal snd) in Eq. cbn in Eq. lia. }
    split; [right; cbn [fst snd]; lia|]. intros u Hu. specialize (HBs u Hu).
    specialize (HU q u ltac:(set_solver) Hu). destruct (HB u Hu).
    unfold apart, ext in *. cbn [fst snd] in *. lia.
Qed.

Lemma free_heap s' sz' C' N : joined_right b C sz' C' -> joined_left sz' N ->
  freep s' = q.1 -> brk s' = brk s -> mem_wf (umem s') ->
  (forall x, ~ b.1 <= x < b.1 + 8 -> ~ q.1 <= x < q.1 + 8 -> umem s' x = umem s x) ->
  Forall (fun x => size (umem s') x.1 = x.2) N -> linked (umem s') (N.*1 ++ [hd base C'.*1]) ->
  exists fl', ring fl' = A ++ N ++ C' /\ heap s' fl' ul.
Proof using All.
  intros HJ HN Hfp Hbrk Hwf Hfr HS HL. destruct q_in as (Hq & Q1 & Q2 & Q3). pose proof blk_in.
  assert (exists fl', ring fl' = A ++ N ++ C') as [fl' Er].
  { assert (Hhd : hd (base, 0) (A ++ q :: C) = (base, 0)) by (by rewrite <- Hl).
    destruct HN as [[-> _]|[-> Hj]]; cbn [app]; apply (ring_head A q _ C); try done.
    intros Eq. apply (f_equal snd) in Eq. cbn in Eq. unfold ext in *. lia. }
  exists fl'. split; [done|]. assert (HG := gaps_relinked _ _ _ HJ HN). rewrite <- Er in HG.
  assert (HF := fun x Hx => relinked_facts _ _ _ x HJ HN Hx). rewrite <- Er in HF.
  constructor; rewrite ?Hbrk.
  - done.
  - apply (h_base _ _ _ Hh).
  - apply (h_brk _ _ _ Hh).
  - rewrite Hfp, Er, !fmap_app. destruct HN as [[-> _]|[-> _]]; set_solver.
  - rewrite Er. by apply (relinked_linked _ sz' C' N).
  - rewrite Er. assert (HS0 := h_size _ _ _ Hh). rewrite Hl in HS0. rewrite Forall_forall in HS0.
    rewrite !Forall_app. split_and!; [|done| |]; apply Forall_forall; intros x Hx.
    + rewrite (proj2 (hdr_kept _ x Hfr ltac:(set_solver))). apply HS0. set_solver.
    + assert (x ∈ C) by (destruct HJ as [(-> & _)|(nn & E & _)]; [done|rewrite E; by right]).
      rewrite (proj2 (hdr_kept _ x Hfr ltac:(set_solver))). apply HS0. set_solver.
    + rewrite (proj2 (hdr_kept _ x Hfr ltac:(set_solver))). apply HS0. set_solver.
  - done.
  - apply gaps_after in HG. rewrite Forall_forall in HG. apply Forall_app. split.
    + apply Forall_forall. intros x Hx. destruct (HF x) as [[->|Hb] _]; [by right| |done].
      specialize (HG _ Hx). unfold ext in HG. cbn in HG. lia.
    + assert (Hin := h_in _ _ _ Hh). rewrite Forall_app, Forall_cons in Hin. tauto.
  - intros f u Hf Hu. by apply HF.
  - apply (h_ul _ _ _ Hh).
Qed.

End free_proof.

Lemma ring_length s fl ul : heap s fl ul -> (S (length fl) <= Z.to_nat (brk s / 8))%nat.
Proof.
  intros Hh. pose proof (h_base _ _ _ Hh). pose proof (h_brk _ _ _ Hh).
  apply Nat2Z.inj_le. rewrite Z2Nat.id by (apply Z.div_pos; lia).
  assert (HGL := gaps_length (base, 0) fl (brk s) (h_gaps _ _ _ Hh)).
  apply Z.div_le_lower_bound; [lia|]. cbn [fst length] in HGL.
  enough (base + 8 * Z.of_nat (S (length fl)) <= brk s) by lia. apply HGL.
  constructor; [unfold ext; cbn; lia|]. apply Forall_forall. intros x Hx.
  assert (Hin := h_in _ _ _ Hh). rewrite Forall_app, Forall_forall in Hin. destruct Hin as [Hin _].
  specialize (Hin x Hx). unfold ext. lia.
Qed.

(** Freeing a block in use makes exactly its bytes free again. *)
Lemma free_wp s fl ul b c : heap s fl (b :: ul) ->
  wp (free (b.1 + 8)) c s (fun _ c' s' => c' = c /\ brk s' = brk s /\ kept ul s s' /\ exists fl',
    heap s' fl' ul /\ (forall x, covered fl' x <-> covered fl x \/ in_block b x) /\
    (length fl' <= S (length fl))%nat /\ exists b', b' ∈ fl' /\ b.2 <= b'.2).
Proof.
  intros Hh. pose proof (blk_in s fl ul b Hh) as (B1 & B2 & B3). assert (Hb0 := h_base _ _ _ Hh).
  destruct (ring_split (ring fl) b.1) as (A & q & C & El & HA & HC).
  { apply (h_gaps _ _ _ Hh). }
  { apply Forall_forall. intros x Hx E. assert (Ha := h_apart _ _ _ Hh x b Hx ltac:(left)).
    unfold apart in Ha. pose proof (ext_pos x). pose proof (ext_pos b). lia. }
  { exists (base, 0). split; [left|cbn; lia]. }
  destruct (q_in s fl ul A C q b Hh El HA HC) as (Hq & Q1 & Q2 & Q3).
  unfold free. rewrite u32_small by (unfold is_u32, KERNBASE in *; lia). rewrite Z.add_simpl_r. do 5 wp_step.
  eapply wp_mono; [|apply (free_loop_wp s (ring fl) A C q b.1)]; try done; try apply Hh; try lia.
  - intros r c' s' (-> & -> & ->). wp_step.
    eapply wp_mono; [|by apply (link_right_wp s fl ul A C q b)].
    intros [] c1 s1 (-> & F1 & K1 & W1 & U1 & sz' & C' & HJ & S1 & P1). wp_step.
    eapply wp_mono; [|by apply (link_left_wp s fl ul A C q b Hh El HA HC s1 sz' C')].
    intros [] c2 s2 (-> & F2 & K2 & W2 & U2 & N & HN & S2 & L2). wp_step.
    destruct (free_heap s fl ul A C q b Hh El HA HC (set_freep q.1 s2) sz' C' N) as (fl' & Er & Hh');
      cbn; try done; [congruence|].
    split; [done|]. split; [congruence|]. split.
    + intros u x Hu Hx. apply U2; intros Hy.
      * destruct (h_ul _ _ _ Hh) as [Hb _]. rewrite Forall_forall in Hb. specialize (Hb u Hu).
        apply apart_byte with (x := x) in Hb; [done|lia|].
        unfold in_block in Hx. lia.
      * assert (Ha := h_apart _ _ _ Hh q u Hq ltac:(by right)).
        apply apart_byte with (x := x) in Ha; [done|lia|]. unfold in_block in Hx. lia.
    + exists fl'. split; [done|]. split_and!.
      * intros x. rewrite <- (covered_ring fl'), <- (covered_ring fl), Er.
        by apply (relinked_covered s fl ul A C q b Hh El HA HC sz').
      * apply (f_equal length) in Er, El. unfold ring in Er, El. rewrite !length_app in *. cbn in Er, El.
        assert (length C' <= length C)%nat by (destruct HJ as [(-> & _)|(nn & -> & _)]; cbn; lia).
        destruct HN as [[-> _]|[-> _]]; cbn in Er; lia.
      * destruct (joined_right_size s fl ul A C q b Hh El HA HC _ _ HJ) as [J1 J2].
        assert (Hb' : exists b', b' ∈ ring fl' /\ b.2 <= b'.2) by
          (rewrite Er; destruct HN as [[-> _]|[-> _]];
           [exists (b.1, sz')|exists (q.1, q.2 + sz')]; (split; [set_solver|cbn [snd]; lia])).
        destruct Hb' as (b' & [->|Hin]%elem_of_cons & Hle); [cbn in Hle; lia|eauto].
  - apply (ring_length _ _ _ Hh).
Qed.

(** ** malloc *)

Lemma gaps_apart l1 b l2 x : gaps (l1 ++ b :: l2) -> x ∈ l1 ++ l2 -> apart x b.
Proof.
  intros HG Hx. apply gaps_app in HG as [G1 G2]. apply gaps_before in G1. apply gaps_after in G2.
  rewrite Forall_forall in G1, G2. unfold apart.
  apply elem_of_app in Hx as [Hx|Hx]; [left; by apply G1|right; by apply G2].
Qed.

Lemma in_ring s fl ul x : heap s fl ul -> x ∈ ring fl ->
  size (umem s) x.1 = x.2 /\ (x = (base, 0) \/ (1 <= x.2 /\ base + 8 <= x.1 /\ x.1 + 8 * x.2 <= brk s)) /\
  forall u, u ∈ ul -> apart x u.
Proof.
  intros Hh Hx. destruct Hh. rewrite Forall_app, Forall_forall in h_size0. split; [by apply h_size0|].
  split; [|auto]. apply elem_of_cons in Hx as [->|Hx]; [by left|]. right.
  rewrite Forall_app, Forall_forall in h_in0. by apply h_in0.
Qed.

(** Membership in lists put together from the same parts. *)
Ltac mem_list :=
  repeat match goal with
  | H : _ ∈ _ |- _ => progress (rewrite ?elem_of_app, ?elem_of_cons, ?elem_of_nil in H)
  end; rewrite ?elem_of_app, ?elem_of_cons, ?elem_of_nil; tauto.

Lemma ring_sub fl fl' y : gaps (ring fl') -> y ∈ fl' -> y ∈ ring fl -> y ∈ fl.
Proof.
  intros HG Hy [->|Hin]%elem_of_cons; [|done]. apply gaps_after in HG. rewrite Forall_forall in HG.
  specialize (HG _ Hy). unfold ext in HG. cbn in HG. lia.
Qed.

Section take_proof.
Context (s : ust) (fl ul P Q : list block) (p x : block) (nu : Z).
Hypotheses (Hh : heap s fl ul) (Hl : ring fl = P ++ p :: x :: Q) (Hnu : 1 <= nu <= x.2).

Lemma x_facts : x ∈ fl /\ 1 <= x.2 /\ base + 8 <= x.1 /\ x.1 + 8 * x.2 <= brk s < KERNBASE /\ 0 < base /\
  p.1 + ext p <= x.1.
Proof using All.
  destruct (in_ring s fl ul x Hh) as (_ & [Ex|Hx] & _); [rewrite Hl; mem_list|apply (f_equal snd) in Ex; cbn in Ex; lia|].
  assert (x ∈ ring fl) as [Ex|Hin]%elem_of_cons by (rewrite Hl; mem_list).
  { apply (f_equal snd) in Ex. cbn in Ex. lia. }
  destruct Hh. rewrite Hl in h_gaps0. apply gaps_app in h_gaps0 as [_ [HG _]]. intuition lia.
Qed.

Lemma others_apart y : y ∈ P ++ p :: Q -> apart y x.
Proof using All.
  intros Hy. assert (HG := h_gaps _ _ _ Hh). rewrite Hl, (cons_middle p P (x :: Q)), app_assoc in HG.
  apply (gaps_apart _ _ _ y HG). mem_list.
Qed.

Lemma ring_without (y : list block) : (exists fl', ring fl' = P ++ p :: y).
Proof using All.
  assert (Hhd : hd (base, 0) (P ++ p :: x :: Q) = (base, 0)) by (by rewrite <- Hl). by apply (ring_head P p p (x :: Q)).
Qed.

(** The whole block is unlinked. *)
Lemma take_whole m' fl' : nu = x.2 -> ring fl' = P ++ p :: Q -> mem_wf m' ->
  (forall a, ~ p.1 <= a < p.1 + 4 -> m' a = umem s a) -> ptr m' p.1 = hd base Q.*1 ->
  heap (Ust m' p.1 (brk s)) fl' (x :: ul).
Proof using All.
  intros En Er Hwf Hfr Hp. destruct x_facts as (Hx & X1 & X2 & X3 & X4 & X5).
  assert (HG := h_gaps _ _ _ Hh). rewrite Hl in HG.
  assert (HQ : gaps (P ++ p :: Q)).
  { apply gaps_app in HG as [G1 G2]. apply gaps_app. split; [done|]. destruct Q as [|y Q']; [done|].
    destruct G2 as (G2 & _ & G3 & G4 & G5). split; [unfold ext in *; lia|]. split; [|done].
    unfold ext in *. lia. }
  assert (Hsub : forall y, y ∈ ring fl' -> y ∈ ring fl) by (intros y Hy; rewrite Er in Hy; rewrite Hl; mem_list).
  assert (Hsz : forall y, apart y p -> size m' y.1 = size (umem s) y.1 /\ ptr m' y.1 = ptr (umem s) y.1).
  { intros y Hy. unfold apart in Hy. pose proof (ext_pos y). pose proof (ext_pos p).
    split; apply load32_ext; intros a Ha; apply Hfr; lia. }
  assert (Hpa : forall y, y ∈ P ++ x :: Q -> apart y p) by (intros y; by apply gaps_apart).
  constructor; cbn [umem freep brk].
  - done.
  - apply Hh.
  - apply Hh.
  - rewrite Er, fmap_app, elem_of_app. right. left.
  - rewrite Er. assert (HR := h_ring _ _ _ Hh). rewrite Hl in HR. revert HR.
    rewrite !fmap_app, <- !app_assoc. cbn [fmap list_fmap app]. intros [R1 R2]%linked_app. apply linked_app. split.
    + apply (linked_frame (umem s)); [|done]. intros a (y & -> & Hy)%list_elem_of_fmap. apply Hsz, Hpa. mem_list.
    + destruct R2 as [_ R2]. apply linked_cons in R2 as [_ R2]. apply linked_cons. split; [done|].
      apply (linked_frame (umem s)); [|done]. intros a (y & -> & Hy)%list_elem_of_fmap. apply Hsz, Hpa. mem_list.
  - assert (HS := h_size _ _ _ Hh). rewrite Forall_forall in HS. apply Forall_forall. intros y Hy.
    rewrite Er in Hy. destruct (decide (y = p)) as [->|Hyp].
    + transitivity (size (umem s) p.1); [|apply HS; rewrite Hl; mem_list].
      apply load32_ext. intros a Ha. apply Hfr. lia.
    + assert (Ha : apart y p).
      { assert (y ∈ P ++ x :: Q \/ y ∈ ul) as [Hin|Hin] by mem_list; [by apply Hpa|].
        apply apart_sym, (h_apart _ _ _ Hh); [rewrite Hl; mem_list|done]. }
      rewrite (proj1 (Hsz y Ha)). apply HS. rewrite Hl. mem_list.
  - by rewrite Er.
  - assert (HI := h_in _ _ _ Hh). rewrite Forall_forall in HI. apply Forall_forall. intros y Hy.
    apply HI. apply elem_of_app. apply elem_of_app in Hy as [Hy|[->|Hy]%elem_of_cons]; [|by left|by right].
    left. apply (ring_sub fl fl'); [by rewrite Er|done|apply Hsub; by right].
  - intros f u Hf [->|Hu]%elem_of_cons.
    + apply others_apart. by rewrite <- Er.
    + apply (h_apart _ _ _ Hh); [by apply Hsub|done].
  - split; [|apply Hh]. apply Forall_forall. intros u Hu. apply (h_apart _ _ _ Hh); [by right|done].
Qed.

(** The tail of the block is cut off. *)
Lemma take_tail m' fl' : let x' := (x.1, x.2 - nu) in let b := (x.1 + 8 * (x.2 - nu), nu) in
  nu < x.2 -> ring fl' = P ++ p :: x' :: Q -> mem_wf m' ->
  (forall a, ~ x.1 + 4 <= a < x.1 + 8 -> ~ b.1 + 4 <= a < b.1 + 8 -> m' a = umem s a) ->
  size m' x'.1 = x'.2 -> size m' b.1 = nu ->
  heap (Ust m' p.1 (brk s)) fl' (b :: ul).
Proof using All.
  intros x' b En Er Hwf Hfr Hx' Hb. destruct x_facts as (Hx & X1 & X2 & X3 & X4 & X5).
  assert (HG := h_gaps _ _ _ Hh). rewrite Hl in HG.
  assert (HG' : gaps (P ++ p :: x' :: Q)).
  { apply gaps_app in HG as [G1 G2]. apply gaps_app. split; [done|]. destruct G2 as (G2 & G3 & G4).
    split; [done|]. split; [done|]. destruct Q as [|y Q']; [done|]. destruct G4 as (G4 & G5 & G6).
    unfold x', ext in *. split; [cbn [fst snd] in *; unfold ext; cbn [fst snd]; lia|].
    split; [cbn [fst snd] in *; lia|done]. }
  assert (Hmem : forall y, apart y x -> apart y x' /\ apart y b).
  { intros y. unfold apart, x', b, ext. cbn [fst snd]. lia. }
  assert (Hsz : forall y, apart y x -> size m' y.1 = size (umem s) y.1 /\ ptr m' y.1 = ptr (umem s) y.1).
  { intros y Hy. apply Hmem in Hy. unfold apart, ext, x', b in *. cbn [fst snd] in *.
    split; apply load32_ext; intros a Ha; apply Hfr; lia. }
  assert (Hptr : forall y, y ∈ ring fl' -> ptr m' y.1 = ptr (umem s) y.1 /\ apart y b).
  { rewrite Er. intros y Hy. destruct (decide (y = x')) as [->|Hne].
    - unfold apart, x', b, ext. cbn [fst snd]. split; [|lia]. apply load32_ext. intros a Ha.
      apply Hfr; unfold b; cbn [fst]; lia.
    - assert (apart y x) by (apply others_apart; mem_list). split; [by apply Hsz|by apply Hmem]. }
  constructor; cbn [umem freep brk].
  - done.
  - apply Hh.
  - apply Hh.
  - rewrite Er, fmap_app, elem_of_app. right. left.
  - apply (linked_frame (umem s)); [intros a (y & -> & Hy)%list_elem_of_fmap; by apply Hptr|].
    assert (HR := h_ring _ _ _ Hh). rewrite Hl in HR. by rewrite Er, fmap_app in *.
  - assert (HS := h_size _ _ _ Hh). rewrite Forall_forall in HS. apply Forall_forall. intros y Hy. rewrite Er in Hy.
    destruct (decide (y = x')) as [->|N1]; [done|]. destruct (decide (y = b)) as [->|N2]; [done|].
    assert (Ha : apart y x).
    { assert (y ∈ P ++ p :: Q \/ y ∈ ul) as [Hin|Hin] by mem_list; [by apply others_apart|].
      apply apart_sym, (h_apart _ _ _ Hh); [by right|done]. }
    rewrite (proj1 (Hsz y Ha)). apply HS. rewrite Hl. mem_list.
  - by rewrite Er.
  - assert (HI := h_in _ _ _ Hh). rewrite Forall_forall in HI. rewrite <- Er in HG'.
    apply Forall_forall. intros y Hy.
    destruct (decide (y = x')) as [->|N1]; [unfold x'; cbn [fst snd]; lia|].
    destruct (decide (y = b)) as [->|N2]; [unfold b; cbn [fst snd]; lia|].
    apply HI. apply elem_of_app. apply elem_of_app in Hy as [Hy|[->|Hy]%elem_of_cons]; [left|done|by right].
    apply (ring_sub fl fl'); [done|done|]. assert (y ∈ ring fl') by (by right). rewrite Er in *. rewrite Hl. mem_list.
  - intros f u Hf [->|Hu]%elem_of_cons; [by apply Hptr|]. assert (Hxu := h_apart _ _ _ Hh x u ltac:(by right) Hu).
    destruct (decide (f = x')) as [->|N1].
    + apply apart_sym, Hmem. by apply apart_sym.
    + apply (h_apart _ _ _ Hh); [|done]. rewrite Er in Hf. rewrite Hl. mem_list.
  - split; [|apply Hh]. apply Forall_forall. intros u Hu. apply apart_sym, Hmem, apart_sym.
    apply (h_apart _ _ _ Hh); [by right|done].
Qed.

Lemma take_block_wp c :
  wp (take_block nu p.1 x.1) c s (fun r c' s' => c' = c /\ brk s' = brk s /\ kept ul s s' /\ exists fl' b,
    r = b.1 + 8 /\ b.2 = nu /\ heap s' fl' (b :: ul) /\ forall y, covered fl y <-> covered fl' y \/ in_block b y).
Proof using All.
  destruct x_facts as (Hx & X1 & X2 & X3 & X4 & X5). assert (Hwf := h_wf _ _ _ Hh).
  destruct (in_ring s fl ul x Hh ltac:(by right)) as (Hsz & _ & Hxu). pose proof (ext_pos p).
  assert (Hpu : forall u, u ∈ ul -> apart p u).
  { intros u Hu. apply (h_apart _ _ _ Hh); [rewrite Hl; mem_list|done]. }
  unfold take_block. do 3 wp_step. rewrite Hsz. destruct (Z.eqb_spec x.2 nu) as [En|En]; unfold set_ptr, set_size.
  - do 8 wp_step. cbn [umem set_umem set_freep freep brk].
    assert (Hn : ptr (umem s) x.1 = hd base Q.*1).
    { assert (HR := h_ring _ _ _ Hh). rewrite Hl, (cons_middle p P (x :: Q)), (app_assoc P [p]) in HR.
      by apply ring_next in HR. }
    rewrite u32_small by (unfold is_u32, KERNBASE in *; lia).
    split; [done|]. split; [done|]. split.
    + intros u a Hu Ha. cbn [umem]. apply store_hdr_ne. specialize (Hpu u Hu). unfold apart, ext, in_block in *. lia.
    + destruct (ring_without Q) as [fl' Er]. exists fl', x. split; [done|]. split; [done|]. split.
      * unfold set_freep, set_umem. cbn. apply take_whole; try done; auto with xv6.
        -- intros a Ha. by apply store_hdr_ne.
        -- unfold ptr at 1. rewrite load32_store32; [done|]. by apply load32_range.
      * intros y. rewrite <- (covered_ring fl), <- (covered_ring fl'), Hl, Er, !covered_app, !covered_cons. tauto.
  - do 9 wp_step. cbn [umem set_umem set_freep freep brk].
    assert (Hs' : size (store32 (umem s) (x.1 + 4) (u32 (x.2 - nu))) x.1 = x.2 - nu).
    { unfold size. rewrite load32_store32 by apply u32_range. apply u32_small. unfold is_u32, KERNBASE in *; lia. }
    rewrite Hs'. rewrite (u32_small (x.1 + 8 * (x.2 - nu))) by (unfold is_u32, KERNBASE in *; lia).
    rewrite u32_small by (unfold is_u32, KERNBASE in *; lia).
    split; [done|]. split; [done|]. split.
    + intros u a Hu Ha. cbn [umem set_umem set_freep]. specialize (Hxu u Hu). unfold apart, ext, in_block in *.
      rewrite !store_hdr_ne by lia. done.
    + destruct (ring_without ((x.1, x.2 - nu) :: Q)) as [fl' Er].
      exists fl', (x.1 + 8 * (x.2 - nu), nu). split; [done|]. split; [done|]. split.
      * unfold set_freep, set_umem. cbn [umem freep brk]. apply take_tail; cbn [fst snd]; try done; auto with xv6; try lia.
        -- intros a Ha1 Ha2. by rewrite !store_hdr_ne by lia.
        -- unfold size in *. by rewrite load32_store32_ne by lia.
        -- unfold size. apply load32_store32. unfold is_u32, KERNBASE in *; lia.
      * intros y. rewrite <- (covered_ring fl), <- (covered_ring fl'), Hl, Er, !covered_app, !covered_cons.
        assert (in_block x y <-> in_block (x.1, x.2 - nu) y \/ in_block (x.1 + 8 * (x.2 - nu), nu) y) as ->
          by (unfold in_block; cbn [fst snd]; lia). tauto.
Qed.

End take_proof.

(** What the code relies on in [sbrk]: a positive increment is granted as
    asked, below the kernel, or refused. *)
Variable grow : Z -> Z -> option Z.
Hypothesis grow_ok : forall b n b', 0 < n -> grow b n = Some b' -> b' = b + n /\ b' < KERNBASE.

Definition core_units (nu : Z) : Z := Z.max nu 4096.

Lemma new_block s fl ul n b' : heap s fl ul -> 1 <= n -> brk s + 8 * n = b' -> b' < KERNBASE ->
  heap (Ust (store32 (umem s) (brk s + 4) n) (freep s) b') fl ((brk s, n) :: ul).
Proof using.
  clear grow_ok grow. intros Hh Hn Eb Hb. pose proof (h_base _ _ _ Hh). pose proof (h_brk _ _ _ Hh).
  assert (Hend : forall x, x ∈ ring fl ++ ul -> x.1 + ext x <= brk s).
  { intros x. assert (HI := h_in _ _ _ Hh). rewrite Forall_forall in HI. unfold ring. intros [->|Hx]%elem_of_cons.
    - unfold ext. cbn. lia.
    - specialize (HI x Hx). unfold ext. lia. }
  assert (Hhdr : forall x, x ∈ ring fl ++ ul ->
    ptr (store32 (umem s) (brk s + 4) n) x.1 = ptr (umem s) x.1 /\
    size (store32 (umem s) (brk s + 4) n) x.1 = size (umem s) x.1).
  { intros x Hx. specialize (Hend x Hx). pose proof (ext_pos x).
    split; apply load32_ext; intros y Hy; apply store_hdr_ne; lia. }
  constructor; cbn [umem freep brk].
  - apply store32_wf, Hh.
  - done.
  - lia.
  - apply Hh.
  - apply (linked_frame (umem s)); [|apply Hh]. intros a (x & -> & Hx)%list_elem_of_fmap. apply Hhdr. mem_list.
  - assert (HS := h_size _ _ _ Hh). rewrite Forall_app, Forall_cons in *. rewrite !Forall_forall in *.
    destruct HS as [S1 S2].
    split_and!; [|cbn; unfold size; apply load32_store32; unfold is_u32, KERNBASE in *; lia|];
      intros x Hx; rewrite (proj2 (Hhdr x ltac:(mem_list))); [by apply S1|by apply S2].
  - apply Hh.
  - assert (HI := h_in _ _ _ Hh). rewrite Forall_app, Forall_cons in *. rewrite !Forall_forall in *.
    destruct HI as [I1 I2]. split_and!; [|cbn; lia|cbn; lia|cbn; lia|]; intros x Hx.
    + specialize (I1 x Hx). lia.
    + specialize (I2 x Hx). lia.
  - intros f u Hf [->|Hu]%elem_of_cons; [|by apply (h_apart _ _ _ Hh)]. left. cbn. apply Hend. mem_list.
  - split; [|apply Hh]. apply Forall_forall. intros u Hu. right. cbn. apply Hend. mem_list.
Qed.

Lemma morecore_wp s fl ul nu c : heap s fl ul -> 1 <= nu -> 8 * nu < 2147483648 ->
  wp (morecore grow nu) c s (fun r c' s' => c' = c /\ kept ul s s' /\
    ((r = 0 /\ s' = s /\ grow (brk s) (8 * core_units nu) = None) \/
     (r <> 0 /\ r = freep s' /\ brk s' = brk s + 8 * core_units nu /\ exists fl', heap s' fl' ul /\
      (forall x, covered fl' x <-> covered fl x \/ brk s <= x < brk s') /\
      (length fl' <= S (length fl))%nat /\ exists b, b ∈ fl' /\ nu <= b.2))).
Proof using grow_ok.
  intros Hh Hnu Hmax. unfold morecore, sbrk.
  assert (Ec : (if nu <? 4096 then 4096 else nu) = core_units nu) by (unfold core_units; zcases; lia).
  rewrite Ec. assert (Hcu : nu <= core_units nu /\ 8 * core_units nu < 2147483648) by (unfold core_units; lia).
  pose proof (h_brk _ _ _ Hh). pose proof (h_base _ _ _ Hh). do 3 wp_step.
  assert (Ei : i32 (u32 (core_units nu * 8)) = 8 * core_units nu)
    by (rewrite u32_small by (unfold is_u32; lia); rewrite i32_small by (unfold is_i32; lia); lia).
  rewrite Ei. destruct (grow (brk s) (8 * core_units nu)) as [b'|] eqn:Eg.
  - destruct (grow_ok (brk s) (8 * core_units nu) b' ltac:(lia) Eg) as [Eb Hb]. do 3 wp_step.
    destruct (Z.eqb_spec (brk s) (u32 (-1))) as [E|_]; [change (u32 (-1)) with 4294967295 in E; unfold KERNBASE in *; lia|].
    unfold set_size. do 3 wp_step. cbn [umem set_umem set_brk freep brk].
    rewrite u32_small by (unfold is_u32, KERNBASE in *; lia).
    assert (Hh1 := new_block s fl ul (core_units nu) b' Hh ltac:(lia) ltac:(lia) Hb).
    eapply wp_mono; [|apply (free_wp _ _ _ _ _ Hh1)].
    intros [] c' s' (-> & Kb & Kk & fl' & Hh' & Hcov & Hlen & b1 & Hb1 & Hle). cbn in Kb, Hle. wp_step.
    split; [done|]. split.
    + intros u x Hu Hx. rewrite (Kk u x Hu Hx). cbn. apply store_hdr_ne.
      assert (HI := h_in _ _ _ Hh). rewrite Forall_forall in HI. specialize (HI u ltac:(mem_list)).
      unfold in_block in Hx. lia.
    + right. assert (Hf := h_freep _ _ _ Hh'). apply list_elem_of_fmap in Hf as (q & Eq & Hq).
      destruct (in_ring _ _ _ q Hh' Hq) as (_ & Hr & _). split; [|split; [done|]].
      * rewrite Eq. destruct Hr as [->|Hr]; cbn; lia.
      * rewrite Kb, Eb. split; [done|]. exists fl'. split; [done|]. split; [|split; [done|exists b1; split; [done|lia]]].
        intros x. rewrite Hcov. unfold in_block. cbn [fst snd]. intuition lia.
  - wp_step. rewrite Z.eqb_refl. wp_step. split; [done|]. split; [done|]. by left.
Qed.

Fixpoint final (prev : Z) (v : list Z) : Z :=
  match v with [] => prev | y :: v' => final y v' end.

Lemma final_in prev v : final prev v ∈ prev :: v.
Proof using. clear grow_ok grow. revert prev. induction v as [|y v IH]; intros prev; [left|]. right. apply IH. Qed.

(** Walking past blocks that are too small. *)
Lemma malloc_walk v x f nu prev c s Q : linked (umem s) (prev :: v ++ [x]) ->
  Forall (fun y => size (umem s) y < nu /\ y <> freep s) v ->
  wp (malloc_loop grow f nu (final prev v) x) c s Q ->
  wp (malloc_loop grow (length v + f) nu prev (hd x v)) c s Q.
Proof using.
  clear grow_ok. revert prev. induction v as [|y v IH]; intros prev HL HF HQ; [done|].
  apply Forall_cons in HF as [[Hy1 Hy2] HF]. destruct HL as [_ HL].
  cbn [length Nat.add hd malloc_loop]. do 2 wp_step.
  destruct (Z.geb_spec (size (umem s) y) nu); [lia|]. do 3 wp_step.
  destruct (Z.eqb_spec y (freep s)); [done|]. do 3 wp_step.
  assert (E : ptr (umem s) y = hd x v) by (by destruct v; destruct HL).
  rewrite E. by apply (IH y).
Qed.

Lemma linked_last m v x prev : linked m (prev :: v ++ [x]) -> ptr m (final prev v) = x.
Proof using.
  clear grow_ok grow. revert prev. induction v as [|y v IH]; intros prev HL; [by destruct HL|].
  destruct HL as [_ HL]. by apply (IH y HL).
Qed.

Lemma ring_nodup fl x y : gaps (ring fl) -> x ∈ ring fl -> y ∈ ring fl -> x.1 = y.1 -> x = y.
Proof using.
  clear grow_ok grow. intros HG Hx Hy E. apply list_elem_of_split in Hx as (l1 & l2 & El).
  rewrite El in *. assert (y = x \/ y ∈ l1 ++ l2) as [->|Hin] by mem_list; [done|].
  assert (Ha := gaps_apart _ _ _ _ HG Hin). unfold apart in Ha. pose proof (ext_pos x). pose proof (ext_pos y). lia.
Qed.

(** The block that points to [x] stands before it in the ring. *)
Lemma ring_pred s fl ul prev x : heap s fl ul -> prev ∈ (ring fl).*1 -> x ∈ fl -> ptr (umem s) prev = x.1 ->
  exists P p Q, ring fl = P ++ p :: x :: Q /\ p.1 = prev.
Proof using.
  clear grow_ok grow. intros Hh (p & -> & Hp)%list_elem_of_fmap Hx Hptr.
  assert (HG := h_gaps _ _ _ Hh). apply list_elem_of_split in Hp as (P & Q & El).
  assert (Hn := h_ring _ _ _ Hh). rewrite El in Hn. apply ring_next in Hn. rewrite Hptr in Hn.
  destruct Q as [|y Q].
  - cbn in Hn. destruct (in_ring _ _ _ x Hh ltac:(by right)) as (_ & _ & _).
    assert (HI := h_in _ _ _ Hh). rewrite Forall_forall in HI. specialize (HI x ltac:(mem_list)). lia.
  - exists P, p, Q. cbn in Hn. replace x with y; [done|]. symmetry. apply (ring_nodup fl); try done; [by right|].
    rewrite El. mem_list.
Qed.

(** The blocks in the order in which [malloc] looks at them. *)
Lemma ring_turn s fl ul : heap s fl ul -> exists A q B, ring fl = A ++ q :: B /\ freep s = q.1 /\
  linked (umem s) (q.1 :: (B ++ A).*1 ++ [q.1]) /\ Forall (fun y => y.1 <> freep s) (B ++ A).
Proof using.
  clear grow_ok grow. intros Hh. assert (Hf := h_freep _ _ _ Hh).
  apply list_elem_of_fmap in Hf as (q & Eq & Hq). apply list_elem_of_split in Hq as (A & B & El).
  exists A, q, B. split; [done|]. split; [done|]. split.
  - assert (HR := h_ring _ _ _ Hh). rewrite El, fmap_app, fmap_cons, <- app_assoc in HR. cbn [app] in HR.
    apply linked_app in HR as [R1 R2]. destruct A as [|a A'].
    + rewrite app_nil_r. injection El as <- _. exact R2.
    + injection El as <- _. rewrite fmap_app, fmap_cons, <- app_assoc. cbn [fst app].
      change (q.1 :: B.*1 ++ base :: A'.*1 ++ [q.1]) with ((q.1 :: B.*1) ++ base :: (A'.*1 ++ [q.1])).
      apply linked_app. split; [exact R2|exact R1].
  - apply Forall_forall. intros y Hy. rewrite Eq. assert (HG := h_gaps _ _ _ Hh). rewrite El in HG.
    assert (Ha := gaps_apart _ _ _ y HG ltac:(mem_list)). unfold apart in Ha. pose proof (ext_pos q). pose proof (ext_pos y). lia.
Qed.

Lemma first_fit (l : list block) nu : (exists v x v', l = v ++ x :: v' /\ Forall (fun y => y.2 < nu) v /\ nu <= x.2) \/
  Forall (fun y => y.2 < nu) l.
Proof using.
  clear grow_ok grow. induction l as [|b l IH]; [by right|]. destruct (Z.le_gt_cases nu b.2).
  - left. by exists [], b, l.
  - destruct IH as [(v & x & v' & -> & HF & Hx)|HF]; [left|right; by constructor].
    exists (b :: v), x, v'. split; [done|]. split; [by constructor|done].
Qed.

Lemma turn_prefix (B A v v' : list block) (q x : block) : B ++ A ++ [q] = v ++ x :: v' ->
  forall y, y ∈ v -> y ∈ B ++ A.
Proof using.
  clear grow_ok grow. rewrite app_assoc. generalize (B ++ A). intros L E y Hy. clear B A.
  destruct v' as [|z v'] using rev_ind; [apply app_inj_2 in E as [-> _]; done|].
  rewrite app_comm_cons, app_assoc in E. apply app_inj_2 in E as [-> _]; [|done]. mem_list.
Qed.

Definition took (fl ul : list block) (nu : Z) (s : ust) (r : Z) (c c' : ctx) (s' : ust) : Prop :=
  c' = c /\ brk s' = brk s /\ kept ul s s' /\ exists fl' b,
    r = b.1 + 8 /\ b.2 = nu /\ heap s' fl' (b :: ul) /\ forall y, covered fl y <-> covered fl' y \/ in_block b y.

(** One turn around the ring finds a block that fits. *)
Lemma malloc_found s fl ul nu fuel c : heap s fl ul -> 1 <= nu -> (exists b, b ∈ fl /\ nu <= b.2) ->
  (length fl <= fuel)%nat ->
  wp (malloc_loop grow fuel nu (freep s) (ptr (umem s) (freep s))) c s (fun r c' s' => took fl ul nu s r c c' s').
Proof using.
  clear grow_ok. intros Hh Hnu (b & Hb & Hle) Hfuel.
  destruct (ring_turn _ _ _ Hh) as (A & q & B & El & Ef & HL & Hne).
  assert (Hring : forall y, y ∈ B ++ A ++ [q] <-> y ∈ ring fl) by (intros y; rewrite El; split; intros; mem_list).
  destruct (first_fit (B ++ A ++ [q]) nu) as [(v & x & v' & Ev & Hv & Hx)|Hnone].
  2:{ rewrite Forall_forall in Hnone. specialize (Hnone b). rewrite Hring in Hnone.
      specialize (Hnone ltac:(by right)). lia. }
  assert (Hxr : x ∈ ring fl) by (apply Hring; rewrite Ev; mem_list).
  assert (Hxf : x ∈ fl) by (apply elem_of_cons in Hxr as [->|?]; [cbn in Hx; lia|done]).
  assert (Hvr : forall y, y ∈ v -> y ∈ ring fl /\ y.1 <> freep s).
  { intros y Hy. split; [apply Hring; rewrite Ev; mem_list|]. rewrite Forall_forall in Hne.
    apply Hne. by apply (turn_prefix B A v v' q x). }
  assert (HL' : linked (umem s) (q.1 :: v.*1 ++ [x.1])).
  { assert (E2 : (B ++ A).*1 ++ [q.1] = (v ++ x :: v').*1) by (rewrite <- Ev, !fmap_app, <- app_assoc; done).
    rewrite E2, fmap_app, fmap_cons in HL. rewrite app_comm_cons in *. by apply linked_app in HL as [HL _]. }
  assert (Hlen : length fl = length (B ++ A)).
  { apply (f_equal length) in El. unfold ring in El. rewrite length_app in *. cbn in El. lia. }
  assert (length v <= length fl)%nat.
  { rewrite Hlen. apply (f_equal length) in Ev. rewrite !length_app in *. cbn in Ev. lia. }
  assert (En : ptr (umem s) q.1 = hd x.1 v.*1).
  { destruct v; cbn in *; tauto. }
  rewrite Ef, En. replace fuel with (length v.*1 + (fuel - length v))%nat by (rewrite length_fmap; lia).
  apply malloc_walk; [done|apply Forall_forall; intros a (y & -> & Hy)%list_elem_of_fmap|].
  { destruct (Hvr y Hy) as [Hy1 Hy2]. destruct (in_ring _ _ _ y Hh Hy1) as (-> & _).
    rewrite Forall_forall in Hv. split; [by apply Hv|done]. }
  destruct (ring_pred s fl ul (final q.1 v.*1) x) as (P & p & Q & Er & <-); try done.
  { assert (Hin := final_in q.1 v.*1). apply elem_of_cons in Hin as [->|(y & -> & Hy)%list_elem_of_fmap].
    - apply list_elem_of_fmap_2. rewrite El. mem_list.
    - apply list_elem_of_fmap_2. by apply Hvr. }
  { by apply linked_last. }
  assert (Hsx : size (umem s) x.1 = x.2) by (by destruct (in_ring _ _ _ x Hh Hxr)).
  destruct (fuel - length v)%nat; cbn [malloc_loop]; do 2 wp_step; rewrite Hsx;
    (destruct (Z.geb_spec x.2 nu); [|lia]); by apply (take_block_wp s fl ul P Q).
Qed.

(** No block fits: after one turn more memory is asked for. *)
Lemma malloc_none s fl ul nu k c Q : heap s fl ul -> 1 <= nu -> Forall (fun b => b.2 < nu) fl ->
  wp (morecore grow nu) c s (fun r c' s' =>
    if r =? 0 then Q 0 c' s' else wp (malloc_loop grow k nu r (ptr (umem s') r)) c' s' Q) ->
  wp (malloc_loop grow (length fl + S k) nu (freep s) (ptr (umem s) (freep s))) c s Q.
Proof using.
  clear grow_ok. intros Hh Hnu Hno HQ. destruct (ring_turn _ _ _ Hh) as (A & q & B & El & Ef & HL & Hne).
  assert (Hsmall : forall y, y ∈ ring fl -> size (umem s) y.1 < nu).
  { intros y Hy. destruct (in_ring _ _ _ y Hh Hy) as (-> & _). apply elem_of_cons in Hy as [->|Hy]; [cbn; lia|].
    rewrite Forall_forall in Hno. by apply Hno. }
  rewrite Ef. assert (En : ptr (umem s) q.1 = hd q.1 (B ++ A).*1) by (by apply linked_cons in HL as [-> _]).
  assert (Hlen : length fl = length (B ++ A).*1).
  { apply (f_equal length) in El. unfold ring in El. rewrite length_fmap, length_app in *. cbn in El. lia. }
  rewrite En, Hlen. apply malloc_walk; [done|apply Forall_forall; intros a (y & -> & Hy)%list_elem_of_fmap|].
  { rewrite Forall_forall in Hne. split; [|by apply Hne]. apply Hsmall. rewrite El. mem_list. }
  cbn [malloc_loop]. do 2 wp_step.
  destruct (Z.geb_spec (size (umem s) q.1) nu) as [Hge|_].
  { assert (size (umem s) q.1 < nu) by (apply Hsmall; rewrite El; mem_list). lia. }
  do 3 wp_step. rewrite Ef, Z.eqb_refl. wp_step. eapply wp_mono; [|exact HQ]. intros r c' s' Hr. wp_step.
  cbn beta in Hr. destruct (r =? 0); [by wp_step|]. by do 2 wp_step.
Qed.

(** What [malloc] of [nu] units does. *)
Definition malloced (s : ust) (fl ul : list block) (nu r : Z) (s' : ust) : Prop :=
  kept ul s s' /\
  ((r = 0 /\ brk s' = brk s /\ heap s' fl ul /\ Forall (fun b => b.2 < nu) fl /\
    grow (brk s) (8 * core_units nu) = None) \/
   exists fl' b, r = b.1 + 8 /\ b.2 = nu /\ heap s' fl' (b :: ul) /\
     (brk s' = brk s \/ brk s' = brk s + 8 * core_units nu /\ Forall (fun b => b.2 < nu) fl) /\
     forall x, covered fl' x \/ in_block b x <-> covered fl x \/ brk s <= x < brk s').

Lemma malloc_loop_wp s fl ul nu fuel c : heap s fl ul -> 1 <= nu -> 8 * nu < 2147483648 ->
  (2 * length fl + 2 <= fuel)%nat ->
  wp (malloc_loop grow fuel nu (freep s) (ptr (umem s) (freep s))) c s (fun r c' s' =>
    c' = c /\ malloced s fl ul nu r s').
Proof using grow_ok.
  intros Hh Hnu Hmax Hfuel. destruct (decide (Forall (fun b => b.2 < nu) fl)) as [Hno|Hyes].
  - replace fuel with (length fl + S (fuel - length fl - 1))%nat by lia. apply malloc_none with ul; [done|done|done|].
    eapply wp_mono; [|by apply morecore_wp].
    intros r c' s' (-> & Hk & [(-> & -> & Hg)|(Hr0 & -> & Hb & fl' & Hh' & Hcov & Hlen & Hfit)]); cbn beta.
    + split; [done|]. split; [done|]. left. done.
    + destruct (Z.eqb_spec (freep s') 0); [done|].
      eapply wp_mono; [|apply (malloc_found s' fl' ul); [done|done|done|lia]].
      intros r c' s'' (-> & Hb2 & Hk2 & fl2 & b & -> & Eb & Hh2 & Hcov2). split; [done|]. split.
      * intros u x Hu Hx. by rewrite (Hk2 u x), (Hk u x).
      * right. exists fl2, b. split_and!; try done; [right; split; [lia|done]|]. intros x. rewrite <- Hcov2, Hcov, Hb2. done.
  - apply not_Forall_Exists, Exists_exists in Hyes as (b & Hb & Hle); [|intros; apply _]. cbn in Hle.
    eapply wp_mono; [|apply (malloc_found s fl ul); [done|done|exists b; split; [done|lia]|lia]].
    intros r c' s' (-> & Hb2 & Hk2 & fl2 & b2 & -> & Eb & Hh2 & Hcov2). split; [done|]. split; [done|].
    right. exists fl2, b2. split_and!; try done; [by left|]. intros x. rewrite <- Hcov2, Hb2. intuition lia.
Qed.

Lemma units_small nbytes : 0 <= nbytes <= 2147483632 ->
  units nbytes = (nbytes + 7) / 8 + 1 /\ 1 <= units nbytes /\ 8 * units nbytes < 2147483648.
Proof using.
  clear grow_ok grow. intros Hn. assert (E : units nbytes = (nbytes + 7) / 8 + 1); [|rewrite E; wrap_lia].
  unfold units. rewrite (u32_small (nbytes + 8 - 1)) by (unfold is_u32; lia).
  replace (nbytes + 8 - 1) with (nbytes + 7) by lia. apply u32_small. unfold is_u32. wrap_lia.
Qed.

Lemma malloc_wp s fl ul nbytes c : uheap s fl ul -> 1 <= units nbytes -> 8 * units nbytes < 2147483648 ->
  wp (malloc base grow nbytes) c s (fun r c' s' => c' = c /\ malloced s fl ul (units nbytes) r s').
Proof using grow_ok.
  intros Hu H1 H2. unfold malloc. set (nu := units nbytes) in *.
  do 3 wp_step. destruct Hu as [Hh|(Hf0 & -> & -> & Hwf & Hb0 & Hbrk)].
  - assert (Hf := h_freep _ _ _ Hh). apply list_elem_of_fmap in Hf as (q & Eq & Hq).
    destruct (Z.eqb_spec (freep s) 0) as [E0|_].
    { destruct (in_ring _ _ _ q Hh Hq) as (_ & [->|Hr] & _); pose proof (h_base _ _ _ Hh); cbn in *; lia. }
    do 5 wp_step. apply malloc_loop_wp; try done. pose proof (ring_length _ _ _ Hh). lia.
  - rewrite Hf0. cbn [Z.eqb]. unfold set_ptr, set_size. do 11 wp_step. cbn [umem set_umem set_freep freep brk].
    match goal with |- wp _ _ ?x _ => set (s1 := x) end.
    assert (Hh1 : heap s1 [] []).
    { subst s1. constructor; cbn; try done; auto with xv6.
      - left.
      - split; [|done]. unfold ptr. rewrite load32_store32_ne by lia.
        apply load32_store32. unfold is_u32, KERNBASE in *; lia.
      - constructor; [|done]. cbn. apply load32_store32. done.
      - intros f u _ Hu. by apply not_elem_of_nil in Hu. }
    eapply wp_mono; [|apply (malloc_loop_wp s1 [] [] nu); [done|done|done|cbn; lia]].
    intros r c' s' (-> & Hk & HM). split; [done|]. split; [|exact HM].
    intros u x Hu. by apply not_elem_of_nil in Hu.
Qed.

(** ** Clients *)

Lemma apart_all_perm l l' : l ≡ₚ l' -> apart_all l -> apart_all l'.
Proof using.
  clear grow_ok grow. induction 1 as [|x l l' HP IH|x y l|l1 l2 l3 _ IH1 _ IH2]; cbn; [done| | |auto].
  - intros [H1 H2]. split; [by rewrite <- HP|auto].
  - rewrite !Forall_cons. intros [[H1 H2] [H3 H4]]. split_and!; try done; by apply apart_sym.
Qed.

Lemma heap_perm s fl ul ul' : ul ≡ₚ ul' -> heap s fl ul -> heap s fl ul'.
Proof using.
  clear grow_ok grow. intros HP []. constructor; try done; [by rewrite <- HP|by rewrite <- HP| |by apply (apart_all_perm ul)].
  intros f u Hf Hu. apply h_apart0; [done|by rewrite HP].
Qed.

(** The bytes of a block that belong to the client. *)
Definition payload (b : block) (a : Z) : Prop := b.1 + 8 <= a < b.1 + 8 * b.2.

Lemma heap_store s fl ul b a v : heap s fl ul -> b ∈ ul -> payload b a ->
  heap (set_umem (store8 (umem s) a v) s) fl ul.
Proof using.
  clear grow_ok grow. intros Hh Hb Ha. destruct (list_elem_of_split _ _ Hb) as (l1 & l2 & El).
  assert (Hap : forall x, x ∈ ring fl \/ x ∈ ul -> x = b \/ apart x b).
  { intros x [Hx|Hx]; [right; by apply (h_apart _ _ _ Hh)|].
    assert (HU := h_ul _ _ _ Hh). apply (apart_all_perm _ (b :: l1 ++ l2)) in HU;
      [|rewrite El; symmetry; apply Permutation_middle].
    destruct HU as [HU _]. rewrite Forall_forall in HU. rewrite El in Hx.
    assert (x = b \/ x ∈ l1 ++ l2) as [->|Hin] by mem_list; [by left|right; by apply apart_sym, HU]. }
  assert (Hhdr : forall x, x ∈ ring fl \/ x ∈ ul ->
    ptr (store8 (umem s) a v) x.1 = ptr (umem s) x.1 /\ size (store8 (umem s) a v) x.1 = size (umem s) x.1).
  { intros x Hx. unfold payload in Ha. destruct (Hap x Hx) as [->|Hx']; unfold apart, ext in *;
      (split; apply load32_ext; intros y Hy; unfold store8; (destruct (Z.eqb_spec y a); [lia|done])). }
  destruct Hh. constructor; cbn [umem set_umem freep brk]; try done; auto with xv6.
  - apply (linked_frame (umem s)); [|done]. intros y (x & -> & Hx)%list_elem_of_fmap. apply Hhdr. by left.
  - rewrite Forall_forall in *. intros x Hx. rewrite (proj2 (Hhdr x ltac:(mem_list))). by apply h_size0.
Qed.

(** What a program can do with the allocator: [ul] are the blocks it holds
    and [w] the bytes it has stored in them. *)
Inductive client : ust -> list block -> gmap Z Z -> Prop :=
| client_start m b : mem_wf m -> 0 < base -> base + 8 <= b < KERNBASE -> client (Ust m 0 b) [] ∅
| client_malloc s ul w n r s' : client s ul w -> 0 <= n <= 2147483632 ->
    malloc base grow n ctx0 s = Ok r ctx0 s' ->
    client s' (if r =? 0 then ul else (r - 8, units n) :: ul) w
| client_free s l1 b l2 w s' : client s (l1 ++ b :: l2) w -> free (b.1 + 8) ctx0 s = Ok tt ctx0 s' ->
    client s' (l1 ++ l2) (filter (fun p => ~ in_block b p.1) w)
| client_store s ul w b a v : client s ul w -> b ∈ ul -> payload b a ->
    client (set_umem (store8 (umem s) a v) s) ul (<[a := u8 v]> w).

Record client_ok (s : ust) (ul : list block) (w : gmap Z Z) : Prop := {
  ck_heap : exists fl, uheap s fl ul;
  ck_bytes : forall a v, w !! a = Some v -> umem s a = v /\ exists b, b ∈ ul /\ payload b a
}.

Lemma payload_in b a : payload b a -> in_block b a.
Proof using. clear grow_ok grow. unfold payload, in_block. lia. Qed.

Lemma client_inv s ul w : client s ul w -> client_ok s ul w.
Proof using grow_ok.
  induction 1 as [m b Hm Hb0 Hb|s ul w n r s' _ IH Hn E|s l1 b l2 w s' _ IH E|s ul w b a v _ IH Hb Ha].
  - constructor; [exists []; right; by cbn|]. intros a v Hw. by rewrite lookup_empty in Hw.
  - destruct IH as [[fl Hh] HB]. destruct (units_small n Hn) as (_ & U1 & U2).
    assert (HM := malloc_wp s fl ul n ctx0 Hh U1 U2). unfold wp in HM. rewrite E in HM.
    destruct HM as (_ & Hk & HM). assert (Hbytes : forall a v, w !! a = Some v -> umem s' a = v).
    { intros a v Hw. destruct (HB a v Hw) as [<- (b & Hb & Ha)]. apply (Hk b a); [done|by apply payload_in]. }
    destruct HM as [(-> & _ & Hh' & _)|(fl' & b & -> & Eb & Hh' & _)].
    + constructor; [exists fl; by left|]. intros a v Hw. split; [by apply Hbytes|]. by apply HB with v.
    + assert (Hb1 := h_in _ _ _ Hh'). rewrite Forall_app, Forall_cons in Hb1. pose proof (h_base _ _ _ Hh').
      destruct (Z.eqb_spec (b.1 + 8) 0) as [?|_]; [lia|]. rewrite Z.add_simpl_r, <- Eb, <- surjective_pairing.
      constructor; [exists fl'; by left|]. intros a v Hw. split; [by apply Hbytes|].
      destruct (HB a v Hw) as [_ (b' & Hb' & Ha')]. exists b'. split; [by right|done].
  - destruct IH as [[fl Hh] HB]. destruct Hh as [Hh|(_ & _ & El & _)]; [|by destruct l1].
    apply (heap_perm _ _ _ (b :: l1 ++ l2)) in Hh; [|symmetry; apply Permutation_middle].
    assert (HF := free_wp s fl (l1 ++ l2) b ctx0 Hh). unfold wp in HF. rewrite E in HF.
    destruct HF as (_ & _ & Hk & fl' & Hh' & _). constructor; [exists fl'; by left|].
    intros a v Hw. apply map_lookup_filter_Some in Hw as [Hw Hnb]. cbn in Hnb.
    destruct (HB a v Hw) as [<- (b' & Hb' & Ha)].
    assert (b' ∈ l1 ++ l2) as Hb2 by (assert (b' = b \/ b' ∈ l1 ++ l2) as [->|?] by mem_list;
      [by destruct Hnb; apply payload_in|done]).
    split; [apply (Hk b' a); [done|by apply payload_in]|by exists b'].
  - destruct IH as [[fl Hh] HB]. destruct Hh as [Hh|(_ & _ & -> & _)]; [|by apply not_elem_of_nil in Hb].
    constructor; [exists fl; left; by apply (heap_store s fl ul b)|].
    intros a' v' Hw. cbn. unfold store8. apply lookup_insert_Some in Hw as [[-> <-]|[Hne Hw]].
    + rewrite Z.eqb_refl. split; [done|by exists b].
    + destruct (Z.eqb_spec a' a); [congruence|]. by apply HB.
Qed.

End invariant.

(** * The contract of the allocator *)

Definition sbrk_spec (grow : Z -> Z -> option Z) : Prop :=
  forall b n b', 0 < n -> grow b n = Some b' -> b' = b + n /\ b' < KERNBASE.

(** [malloc].  The result is a block with room for the bytes asked for,
    disjoint from every block in use and cut from the free memory or from
    memory newly obtained from the kernel; every byte is accounted for, and no
    byte of a block in use changes.  The result is 0 only if no free block is
    large enough and the kernel refuses more memory; then nothing changes. *)
Theorem malloc_correct base grow s fl ul nbytes c :
  sbrk_spec grow -> uheap base s fl ul -> 0 <= nbytes <= 2147483632 ->
  wp (malloc base grow nbytes) c s (fun r c' s' => c' = c /\ nbytes <= 8 * (units nbytes - 1) /\
    malloced base grow s fl ul (units nbytes) r s').
Proof.
  intros Hg Hh Hn. destruct (units_small nbytes Hn) as (E & U1 & U2).
  eapply wp_mono; [|by apply malloc_wp]. intros r c' s' [-> HM]. split; [done|]. split; [|done].
  rewrite E. wrap_lia.
Qed.

(** [free] returns exactly the bytes of the block to the free memory,
    joined with the free blocks next to it, and touches no other block in
    use. *)
Theorem free_correct base s fl ul b c : heap base s fl (b :: ul) ->
  wp (free (b.1 + 8)) c s (fun _ c' s' => c' = c /\ brk s' = brk s /\ kept ul s s' /\
    exists fl', heap base s' fl' ul /\ forall x, covered fl' x <-> covered fl x \/ in_block b x).
Proof.
  intros Hh. eapply wp_mono; [|by apply (free_wp base)].
  intros [] c' s' (-> & Hb & Hk & fl' & Hh' & Hc & _). split_and!; try done. by exists fl'.
Qed.

(** C5: whatever a program does with blocks it holds, in whatever order, the
    blocks it holds are disjoint, every byte it stored in a block that it
    still holds is there, and the next [malloc] and the [free] of any block
    it holds return. *)
Theorem umalloc_safe base grow s ul w : sbrk_spec grow -> client base grow s ul w ->
  apart_all ul /\ (forall a v, w !! a = Some v -> umem s a = v) /\
  (forall n, 0 <= n <= 2147483632 -> exists r s', malloc base grow n ctx0 s = Ok r ctx0 s') /\
  (forall b, b ∈ ul -> exists s', free (b.1 + 8) ctx0 s = Ok tt ctx0 s').
Proof.
  intros Hg Hc. destruct (client_inv base grow Hg s ul w Hc) as [[fl Hh] HB]. split_and!.
  - destruct Hh as [[]|(_ & _ & -> & _)]; done.
  - intros a v Hw. by apply HB.
  - intros n Hn. destruct (units_small n Hn) as (_ & U1 & U2).
    destruct (wp_ok _ _ _ _ (malloc_wp base grow Hg s fl ul n ctx0 Hh U1 U2)) as (r & c' & s' & E & -> & _). eauto.
  - intros b Hb. destruct Hh as [Hh|(_ & _ & -> & _)]; [|by apply not_elem_of_nil in Hb].
    apply list_elem_of_split in Hb as (l1 & l2 & ->).
    apply (heap_perm _ _ _ _ (b :: l1 ++ l2)) in Hh; [|symmetry; apply Permutation_middle].
    destruct (wp_ok _ _ _ _ (free_wp base s fl (l1 ++ l2) b ctx0 Hh)) as ([] & c' & s' & E & -> & _). eauto.
Qed.

(** The size computation wraps around: a request of nearly four gigabytes
    is answered with a block that has no room for a single byte. *)
Theorem malloc_wraps base grow s fl ul nbytes c :
  sbrk_spec grow -> uheap base s fl ul -> 4294967289 <= nbytes < 4294967296 ->
  wp (malloc base grow nbytes) c s (fun r c' s' => r = 0 \/
    exists fl' b, r = b.1 + 8 /\ heap base s' fl' (b :: ul) /\ forall a, ~ payload b a).
Proof.
  intros Hg Hh Hn. assert (E : units nbytes = 1).
  { unfold units. replace (u32 (nbytes + 8 - 1)) with (nbytes - 4294967289) by wrap_lia.
    rewrite Z.div_small by lia. done. }
  eapply wp_mono; [|apply (malloc_wp base grow Hg s fl ul nbytes c Hh); rewrite E; lia]. rewrite E.
  intros r c' s' (-> & _ & [(-> & _)|(fl' & b & -> & Eb & Hh' & _)]); [by left|right].
  exists fl', b. split; [done|]. split; [done|]. intros a. unfold payload. rewrite Eb. lia.
Qed.

(** ** Examples: the header [base] at 0x1000, a program of three pages. *)
Definition ex_grow (b n : Z) : option Z := if b + n <? KERNBASE then Some (b + n) else None.
Definition ex_ust : ust := Ust (fun _ => 0) 0 12288.

Lemma ex_grow_ok : sbrk_spec ex_grow.
Proof. intros b n b' Hn. unfold ex_grow. zcases; [|done]. intros E. injection E as <-. lia. Qed.

Lemma ex_uheap : uheap 4096 ex_ust [] [].
Proof. right. unfold ex_ust, KERNBASE. cbn. split_and!; try done; try lia. Qed.

(** The first block is cut from the end of the memory obtained. *)
Lemma malloc_correct_witness :
  wp (malloc 4096 ex_grow 20) ctx0 ex_ust (fun r c' s' => exists fl b, r = b.1 + 8 /\ b.2 = 4 /\
    heap 4096 s' fl [b] /\ brk s' = 12288 + 32768).
Proof.
  eapply wp_mono; [|exact (malloc_correct 4096 ex_grow ex_ust [] [] 20 ctx0 ex_grow_ok ex_uheap ltac:(lia))].
  intros r c' s' (_ & _ & _ & [(_ & _ & _ & _ & Hg)|(fl & b & -> & Eb & Hh & Hbrk & Hc)]);
    [vm_compute in Hg; discriminate|]. exists fl, b. split_and!; try done. destruct Hbrk as [Hbrk|[Hbrk _]]; [|done].
  assert (Hb : in_block b b.1) by (unfold in_block; rewrite Eb; change (units 20) with 4; lia).
  destruct (proj1 (Hc b.1) (or_intror Hb)) as [(x & Hx & _)|Hx]; [by apply not_elem_of_nil in Hx|].
  rewrite Hbrk in Hx. lia.
Defined.

Definition ex_ust1 : ust :=
  match malloc 4096 ex_grow 20 ctx0 ex_ust with Ok _ _ s => s | _ => ex_ust end.

Lemma ex_malloc : malloc 4096 ex_grow 20 ctx0 ex_ust = Ok 45032 ctx0 ex_ust1.
Proof.
  assert (E : match malloc 4096 ex_grow 20 ctx0 ex_ust with Ok r c _ => Some (r, c) | _ => None end = Some (45032, ctx0))
    by (vm_compute; reflexivity).
  unfold ex_ust1. destruct (malloc 4096 ex_grow 20 ctx0 ex_ust); try discriminate. by injection E as -> ->.
Qed.

Lemma ex_heap1 : heap 4096 ex_ust1 [(12288, 4092)] [(45024, 4)].
Proof.
  constructor.
  - assert (H := malloc_wp 4096 ex_grow ex_grow_ok ex_ust [] [] 20 ctx0 ex_uheap ltac:(by vm_compute) ltac:(by vm_compute)).
    unfold wp in H. rewrite ex_malloc in H.
    destruct H as (_ & _ & [(_ & _ & Hh & _)|(fl & b & _ & _ & Hh & _)]); apply Hh.
  - done.
  - by vm_compute.
  - apply list_elem_of_fmap. exists (4096, 0). split; [by vm_compute|left].
  - by vm_compute.
  - by_decide.
  - by vm_compute.
  - by_decide.
  - intros f u Hf Hu. apply list_elem_of_singleton in Hu as ->.
    apply elem_of_cons in Hf as [->|Hf]; [|apply list_elem_of_singleton in Hf as ->]; left; by vm_compute.
  - by split.
Qed.

Lemma free_correct_witness :
  wp (free 45032) ctx0 ex_ust1 (fun _ _ s' => brk s' = 45056 /\ exists fl, heap 4096 s' fl [] /\
    covered fl 12288 /\ covered fl 45055).
Proof.
  eapply wp_mono; [|exact (free_correct 4096 ex_ust1 [(12288, 4092)] [] (45024, 4) ctx0 ex_heap1)].
  intros [] c' s' (_ & Hb & _ & fl & Hh & Hc). split; [done|]. exists fl. split; [done|].
  split; apply Hc; [left; exists (12288, 4092); split; [left|by vm_compute]|right; by vm_compute].
Defined.

(** A program that stores a byte in its block. *)
Lemma umalloc_safe_witness : exists s, client 4096 ex_grow s [(45024, 4)] {[45040 := 7]} /\ umem s 45040 = 7.
Proof.
  assert (Hc : client 4096 ex_grow (set_umem (store8 (umem ex_ust1) 45040 7) ex_ust1) [(45024, 4)] {[45040 := 7]}).
  { change {[45040 := 7]} with (<[45040 := u8 7]> (∅ : gmap Z Z)).
    apply client_store with (45024, 4); [|left|by vm_compute].
    change [(45024, 4)] with (if 45032 =? 0 then [] else (45032 - 8, units 20) :: []).
    eapply client_malloc with ex_ust; [|lia|].
    - apply client_start; [intros x; unfold is_u8; lia|lia|by vm_compute].
    - exact ex_malloc. }
  eexists. split; [exact Hc|]. apply (umalloc_safe 4096 ex_grow _ _ _ ex_grow_ok Hc). by rewrite lookup_singleton.
Defined.

Lemma malloc_wraps_witness :
  wp (malloc 4096 ex_grow 4294967295) ctx0 ex_ust (fun r _ s' => r <> 0 -> exists fl b, r = b.1 + 8 /\
    heap 4096 s' fl [b] /\ ~ payload b r).
Proof.
  eapply wp_mono; [|exact (malloc_wraps 4096 ex_grow ex_ust [] [] 4294967295 ctx0 ex_grow_ok ex_uheap ltac:(lia))].
  intros r c' s' [->|(fl & b & Er & Hh & Hp)] Hr; [done|]. exists fl, b. auto.
Defined.
