(* ===== verification/User.v ===== *)
(** * User programs as trees of system calls

    A user program is modelled by the system calls it makes and what it does
    with their results.  [sys B] is a call with a result of type [B]; a
    program returns, exits, or makes a call and goes on with the result.
    [Loop] is a loop bound that was too small.  The library routines that
    make calls, [gets] and [stat] of ulib.c and [printf] of printf.c, are
    here; the semantics of the calls is given by the files that run
    programs. *)
From S2P Require Import Prelude CString Format.

(** [struct stat], as the programs use it. *)
Record ustat := UStat { st_type : Z; st_ino : Z; st_size : Z }.

(** The calls of usys.S.  A call that fills a buffer returns its contents. *)
Inductive sys : Type -> Type :=
| fork : sys Z
| wait : sys Z
| pipe : sys (Z * (Z * Z))
| write (fd : Z) (l : list Z) : sys Z
| read (fd n : Z) : sys (Z * list Z)
| close (fd : Z) : sys Z
| kill (pid : Z) : sys Z
| exec (path : list Z) (argv : list (list Z)) : sys Z
| open (path : list Z) (mode : Z) : sys Z
| mknod (path : list Z) (major minor : Z) : sys Z
| unlink (path : list Z) : sys Z
| fstat (fd : Z) : sys (Z * ustat)
| link (old new : list Z) : sys Z
| mkdir (path : list Z) : sys Z
| chdir (path : list Z) : sys Z
| dup (fd : Z) : sys Z
| sleep (n : Z) : sys Z.

Inductive prog (A : Type) : Type :=
| Ret (a : A)
| Exit
| Loop
| Call {B : Type} (e : sys B) (k : B -> prog A).
Arguments Ret {A} a.
Arguments Exit {A}.
Arguments Loop {A}.
Arguments Call {A B} e k.

#[export] Instance prog_ret : MRet prog := fun A a => Ret a.
#[export] Instance prog_bind : MBind prog := fun A B f =>
  fix bind p := match p with
  | Ret a => f a
  | Exit => Exit
  | Loop => Loop
  | Call e k => Call e (fun b => bind (k b))
  end.

Definition call {B} (e : sys B) : prog B := Call e Ret.

(** The C string at the beginning of a buffer. *)
Fixpoint upto_nul (l : list Z) : list Z :=
  match l with [] => [] | x :: l' => if x =? 0 then [] else x :: upto_nul l' end.

Lemma upto_nul_spec l n : (forall i x, (i < n)%nat -> l !! i = Some x -> x <> 0) -> l !! n = Some 0 -> upto_nul l = take n l.
Proof.
  revert n. induction l as [|x l IH]; intros n Hnz H0; [done|]. destruct n as [|n]; cbn in *.
  - injection H0 as ->. done.
  - specialize (Hnz 0%nat x ltac:(lia) eq_refl) as Hx. destruct (Z.eqb_spec x 0); [done|]. f_equal.
    apply IH; [|done]. intros i y Hi Hy. apply (Hnz (S i) y); [lia|done].
Qed.

(** ** printf.c *)

(** [putc] of each byte. *)
Fixpoint puts (fd : Z) (l : list Z) : prog unit :=
  match l with
  | [] => Ret tt
  | c :: l' => Call (write fd [c]) (fun _ => puts fd l')
  end.

(** The arguments behind the format: words, or pointers to strings. *)
Inductive arg := AInt (z : Z) | AStr (s : list Z).

(** The word of an argument; the [i]-th string lives at address [i + 1]. *)
Definition arg_word (args : list arg) (i : nat) : Z :=
  match nth i args (AInt 0) with AInt z => z | AStr _ => Z.of_nat i + 1 end.
Definition arg_str (args : list arg) (a : Z) : list Z :=
  match nth (Z.to_nat (a - 1)) args (AInt 0) with AStr s => s | AInt _ => [] end.

Definition format (fmt : list Z) (args : list arg) : list Z :=
  printf_loop (arg_word args) (arg_str args) false fmt 0.

(** A string constant that ends with a newline. *)
Definition line (s : string) : list Z := bytes_of s ++ [10].

Definition printf (fd : Z) (fmt : list Z) (args : list arg) : prog unit := puts fd (format fmt args).

#[global] Arguments printf : simpl never.
#[global] Arguments format : simpl never.
#[global] Arguments line : simpl never.

(** ** ulib.c *)

(** [gets]: a line of at most [n] bytes, read one by one. *)
Fixpoint gets_loop (n : nat) (acc : list Z) : prog (list Z) :=
  match n with
  | O => Ret acc
  | S n' =>
      Call (read 0 1) (fun r =>
        if r.1 <? 1 then Ret acc
        else
          let c := nth 0 r.2 0 in
          if (c =? 10) || (c =? 13) then Ret (acc ++ [c]) else gets_loop n' (acc ++ [c]))
  end.
Definition gets (max : nat) : prog (list Z) := gets_loop (max - 1) [].

Definition stat (path : list Z) : prog (Z * ustat) :=
  fd ← call (open path 0);
  if fd <? 0 then Ret (-1, UStat 0 0 0)
  else r ← call (fstat fd); call (close fd);; Ret r.



(** ** File descriptor tables *)

Section fds.
Context {A : Type}.

(** The lowest free descriptor, and the table with it opened or closed. *)
Fixpoint free_fd (t : list (option A)) : nat :=
  match t with Some _ :: t' => S (free_fd t') | _ => O end.
Definition get_fd (t : list (option A)) (fd : Z) : option A :=
  if fd <? 0 then None else mjoin (t !! Z.to_nat fd).
Definition put_fd (t : list (option A)) (i : nat) (x : A) : list (option A) :=
  if (i <? length t)%nat then <[i := Some x]> t else t ++ [Some x].
Definition del_fd (t : list (option A)) (fd : Z) : list (option A) := <[Z.to_nat fd := None]> t.

Lemma get_put_fd t i x : (i <= length t)%nat -> get_fd (put_fd t i x) (Z.of_nat i) = Some x.
Proof.
  intros Hi. unfold get_fd, put_fd. destruct (Z.ltb_spec (Z.of_nat i) 0); [lia|]. rewrite Nat2Z.id.
  destruct (Nat.ltb_spec i (length t)).
  - by rewrite list_lookup_insert_eq.
  - replace i with (length t) by lia. by rewrite lookup_app_r, Nat.sub_diag by lia.
Qed.

Lemma free_fd_le t : (free_fd t <= length t)%nat.
Proof. induction t as [|[x|] t IH]; cbn; lia. Qed.
End fds.
