(* ===== verification/Sh.v ===== *)
(** * The command parser of the shell (sh.c)

    The parser works on the characters of one line, [buf], by position, and
    its state is the position.  A parsed command keeps its strings as ranges
    of the line; [nulterminate] then cuts the line into C strings.  The
    grammar of the shell is given on the tokens of the line, and the parser
    is shown to accept exactly its lines, with their trees. *)
From S2P Require Import Prelude User.

Definition whitespace : list Z := [32; 9; 13; 10; 11].
Definition symbols : list Z := [60; 124; 62; 38; 59; 40; 41].
Definition ch_in : Z := 60.
Definition ch_pipe : Z := 124.
Definition ch_out : Z := 62.
Definition ch_back : Z := 38.
Definition ch_list : Z := 59.
Definition ch_open : Z := 40.
Definition ch_close : Z := 41.
Definition ch_append : Z := 43.
Definition ch_word : Z := 97.

Definition O_RDONLY : Z := 0.
Definition O_WRONLY : Z := 1.
Definition O_CREATE : Z := 512.
Definition MAXARGS : nat := 10.

(** The trees of [struct cmd]; a string is the range from [q] to [eq]. *)
Inductive cmd :=
| EXEC (argv : list (nat * nat))
| REDIR (c : cmd) (file efile : nat) (mode fd : Z)
| PIPE (left right : cmd)
| LIST (left right : cmd)
| BACK (c : cmd).

(** [cmd->argv[argc] = q] where [cmd] is the exec node below the
    redirections of [ret]. *)
Fixpoint add_arg (a : nat * nat) (ret : cmd) : cmd :=
  match ret with
  | EXEC argv => EXEC (argv ++ [a])
  | REDIR c q e m f => REDIR (add_arg a c) q e m f
  | _ => ret
  end.

Definition nofuel {A} : M nat A := fun _ _ => NoFuel.

Section parser.
Variable buf : list Z.

Definition es : nat := length buf.
Definition at_ (i : nat) : Z := nth i buf 0.
Definition strchr (l : list Z) (c : Z) : bool := existsb (Z.eqb c) l.

(** The loops over white space and over a word, with what is left of the
    line as bound. *)
Fixpoint skip_ws (n i : nat) : nat :=
  match n with
  | O => i
  | S n' => if strchr whitespace (at_ i) then skip_ws n' (S i) else i
  end.
Fixpoint skip_word (n i : nat) : nat :=
  match n with
  | O => i
  | S n' => if negb (strchr whitespace (at_ i)) && negb (strchr symbols (at_ i)) then skip_word n' (S i) else i
  end.
Definition skip (i : nat) : nat := skip_ws (es - i) i.

(** [gettoken] from position [i]: the token, its range, the new position. *)
Definition token_at (i : nat) : Z * (nat * nat) * nat :=
  let s := skip i in
  let c := at_ s in
  let '(ret, e) :=
    if c =? 0 then (0, s)
    else if strchr [ch_pipe; ch_open; ch_close; ch_list; ch_back; ch_in] c then (c, S s)
    else if c =? ch_out then
      if at_ (S s) =? ch_out then (ch_append, S (S s)) else (ch_out, S s)
    else (ch_word, skip_word (es - s) s) in
  (ret, (s, e), skip e).

Definition gettoken : M nat (Z * (nat * nat)) :=
  i ← Prelude.gets id;
  let '(ret, r, i') := token_at i in
  modify (fun _ => i');; mret (ret, r).

Definition peek (toks : list Z) : M nat bool :=
  i ← Prelude.gets id;
  let s := skip i in
  modify (fun _ => s);;
  mret (negb (at_ s =? 0) && strchr toks (at_ s)).

Fixpoint parseredirs (fuel : nat) (c : cmd) : M nat cmd :=
  b ← peek [ch_in; ch_out];
  if (b : bool) then
    '(t, _) ← gettoken;
    '(w, (q, e)) ← gettoken;
    if negb (w =? ch_word) then panic "missing file for redirection"
    else
      let c' :=
        if t =? ch_in then REDIR c q e O_RDONLY 0
        else if t =? ch_out then REDIR c q e (Z.lor O_WRONLY O_CREATE) 1
        else if t =? ch_append then REDIR c q e (Z.lor O_WRONLY O_CREATE) 1
        else c in
      match fuel with
      | O => nofuel
      | S f => parseredirs f c'
      end
  else mret c.

(** The loop of [parseexec] over the arguments. *)
Fixpoint parseargs (fuel argc : nat) (ret : cmd) : M nat cmd :=
  b ← peek [ch_pipe; ch_close; ch_back; ch_list];
  if (b : bool) then mret ret
  else
    '(t, (q, e)) ← gettoken;
    if t =? 0 then mret ret
    else if negb (t =? ch_word) then panic "syntax"
    else if (MAXARGS <=? S argc)%nat then panic "too many args"
    else
      ret ← parseredirs es (add_arg (q, e) ret);
      match fuel with
      | O => nofuel
      | S f => parseargs f (S argc) ret
      end.

(** The loop of [parseline] over [&]. *)
Fixpoint parseback (fuel : nat) (c : cmd) : M nat cmd :=
  b ← peek [ch_back];
  if (b : bool) then
    gettoken;;
    match fuel with
    | O => nofuel
    | S f => parseback f (BACK c)
    end
  else mret c.

Fixpoint parseline (fuel : nat) : M nat cmd :=
  match fuel with
  | O => nofuel
  | S f =>
      c ← parsepipe f;
      c ← parseback es c;
      b ← peek [ch_list];
      if (b : bool) then gettoken;; r ← parseline f; mret (LIST c r) else mret c
  end
with parsepipe (fuel : nat) : M nat cmd :=
  match fuel with
  | O => nofuel
  | S f =>
      c ← parseexec f;
      b ← peek [ch_pipe];
      if (b : bool) then gettoken;; r ← parsepipe f; mret (PIPE c r) else mret c
  end
with parseexec (fuel : nat) : M nat cmd :=
  match fuel with
  | O => nofuel
  | S f =>
      b ← peek [ch_open];
      if (b : bool) then parseblock f
      else ret ← parseredirs es (EXEC []); parseargs es 0 ret
  end
with parseblock (fuel : nat) : M nat cmd :=
  match fuel with
  | O => nofuel
  | S f =>
      b ← peek [ch_open];
      if negb b then panic "parseblock"
      else
        gettoken;;
        c ← parseline f;
        b ← peek [ch_close];
        if negb b then panic "syntax - missing )"
        else gettoken;; parseredirs es c
  end.

(** [parsecmd] up to [nulterminate]: the tree. *)
Definition parse_tree : M nat cmd :=
  c ← parseline (4 * es + 4);
  peek [];;
  s ← Prelude.gets id;
  if negb (s =? es)%nat then panic "syntax" else mret c.

(** What [parsecmd] reports as leftovers before it panics. *)
Definition leftovers : option (list Z) :=
  match (parseline (4 * es + 4);; peek [];; Prelude.gets id) ctx0 0%nat with
  | Ok s _ _ => if negb (s =? es)%nat then Some (drop s buf) else None
  | _ => None
  end.

End parser.

(** [nulterminate]: the line with a NUL behind every string of the tree. *)
Fixpoint nulterminate (c : cmd) (b : list Z) : list Z :=
  match c with
  | EXEC argv => foldl (fun b r => <[snd r := 0]> b) b argv
  | REDIR c _ e _ _ => <[e := 0]> (nulterminate c b)
  | PIPE l r => nulterminate r (nulterminate l b)
  | LIST l r => nulterminate r (nulterminate l b)
  | BACK c => nulterminate c b
  end.

(** [parsecmd]: the line in memory, with its own NUL, and the tree. *)
Definition parsecmd (s : list Z) : outcome nat (cmd * list Z) :=
  match parse_tree s ctx0 0%nat with
  | Ok c k i => Ok (c, nulterminate c (s ++ [0])) k i
  | Panic m => Panic m
  | Block ch k i => Block ch k i
  | NoFuel => NoFuel
  end.

(** * Tokens *)

Inductive tok := Sym (c : Z) | Word (q e : nat).
#[export] Instance tok_eq_dec : EqDecision tok.
Proof. solve_decision. Defined.

Section tokens.
Variable buf : list Z.
Hypothesis buf_text : 0 ∉ buf.
Abbreviation len := (length buf).

Fixpoint toks_n (n i : nat) : list tok :=
  match n with
  | O => []
  | S n' =>
      let '(ret, (q, e), i') := token_at buf i in
      if ret =? 0 then [] else (if ret =? ch_word then Word q e else Sym ret) :: toks_n n' i'
  end.

(** The tokens of the line from position [i]. *)
Definition toks (i : nat) : list tok := toks_n (len - i) i.

Lemma at_zero i : at_ buf i = 0 <-> (len <= i)%nat.
Proof using All.
  unfold at_. split; intros H; [|by apply nth_overflow].
  destruct (Nat.le_gt_cases len i) as [?|Hi]; [done|]. destruct buf_text. rewrite <- H.
  apply list_elem_of_In, nth_In. done.
Qed.

Lemma skip_ws_range n i : (i <= skip_ws buf n i <= i + n)%nat.
Proof using. clear buf_text. revert i. induction n as [|n IH]; intros i; cbn; [lia|]. case_match; [specialize (IH (S i))|]; lia. Qed.

Lemma skip_ws_stop n i : (skip_ws buf n i < i + n)%nat -> strchr whitespace (at_ buf (skip_ws buf n i)) = false.
Proof using.
  clear buf_text. revert i. induction n as [|n IH]; intros i; cbn; [lia|]. case_match; [|done]. intros. apply IH. lia.
Qed.

Lemma skip_word_range n i : (i <= skip_word buf n i <= i + n)%nat.
Proof using. clear buf_text. revert i. induction n as [|n IH]; intros i; cbn; [lia|]. case_match; [specialize (IH (S i))|]; lia. Qed.

Lemma skip_range i : (i <= len)%nat -> (i <= skip buf i <= len)%nat.
Proof using. clear buf_text. intros Hi. unfold skip, es. pose proof (skip_ws_range (len - i) i). lia. Qed.

Lemma skip_idem i : (i <= len)%nat -> skip buf (skip buf i) = skip buf i.
Proof using.
  clear buf_text. intros Hi. pose proof (skip_range i Hi). unfold skip at 1, es.
  destruct (len - skip buf i)%nat eqn:E; [done|]. cbn [skip_ws].
  assert (Hst := skip_ws_stop (len - i) i). change (skip_ws buf (len - i) i) with (skip buf i) in Hst.
  rewrite Hst by lia. done.
Qed.

Lemma token_skip i : (i <= len)%nat -> token_at buf (skip buf i) = token_at buf i.
Proof using. clear buf_text. intros Hi. unfold token_at. by rewrite skip_idem. Qed.

(** What [gettoken] finds at a position. *)
Lemma token_cases i ret q e i' : (i <= len)%nat -> token_at buf i = (ret, (q, e), i') ->
  q = skip buf i /\ (i' <= len)%nat /\ i' = skip buf e /\
  ((ret = 0 /\ q = len /\ i' = len) \/
   (ret <> 0 /\ (i < i')%nat /\ (q < e <= len)%nat /\
    (ret = ch_word /\ e = skip_word buf (len - q) q /\ strchr symbols (at_ buf q) = false \/
     ret = ch_append /\ at_ buf q = ch_out \/
     ret <> ch_word /\ ret <> ch_append /\ at_ buf q = ret /\ ret ∈ symbols))).
Proof using All.
  intros Hi. pose proof (skip_range i Hi) as Hs. unfold token_at. set (s := skip buf i) in *.
  destruct (Z.eqb_spec (at_ buf s) 0) as [H0|H0].
  { intros E. injection E as <- <- <- <-. apply at_zero in H0. assert (s = len) by lia.
    split; [done|]. assert (skip buf s = len) by (pose proof (skip_range s); lia). split_and!; [lia|done|].
    left. auto. }
  assert (s < len)%nat by (rewrite at_zero in H0; lia).
  assert (Hfin : forall r e0, (s < e0 <= len)%nat -> r <> 0 ->
    (r = ch_word /\ e0 = skip_word buf (len - s) s /\ strchr symbols (at_ buf s) = false \/
     r = ch_append /\ at_ buf s = ch_out \/
     r <> ch_word /\ r <> ch_append /\ at_ buf s = r /\ r ∈ symbols) ->
    (r, (s, e0), skip buf e0) = (ret, (q, e), i') ->
    q = s /\ (i' <= len)%nat /\ i' = skip buf e /\
    ((ret = 0 /\ q = len /\ i' = len) \/
     (ret <> 0 /\ (i < i')%nat /\ (q < e <= len)%nat /\
      (ret = ch_word /\ e = skip_word buf (len - q) q /\ strchr symbols (at_ buf q) = false \/
       ret = ch_append /\ at_ buf q = ch_out \/
       ret <> ch_word /\ ret <> ch_append /\ at_ buf q = ret /\ ret ∈ symbols)))).
  { intros r e0 He Hr Hcase E. injection E as <- <- <- <-. pose proof (skip_range e0).
    split_and!; [done|lia|done|]. right. split_and!; [done|lia|lia|lia|done]. }
  destruct (strchr [ch_pipe; ch_open; ch_close; ch_list; ch_back; ch_in] (at_ buf s)) eqn:E1.
  - apply Hfin; [lia|done|]. right. right. apply existsb_exists in E1 as (c & Hc & ->%Z.eqb_eq).
    cbn in Hc. unfold ch_pipe, ch_open, ch_close, ch_list, ch_back, ch_in, ch_word, ch_append, symbols in *.
    split_and!; [| |done|]; destruct Hc as [<-|[<-|[<-|[<-|[<-|[<-|[]]]]]]]; by_decide.
  - destruct (Z.eqb_spec (at_ buf s) ch_out) as [E2|E2].
    + destruct (Z.eqb_spec (at_ buf (S s)) ch_out) as [E3|E3]; apply Hfin; try done; try lia.
      * assert (~ (len <= S s)%nat) by (rewrite <- at_zero, E3; done). lia.
      * right. right. split_and!; [done|done|done|by_decide].
    + assert (Hsym : strchr symbols (at_ buf s) = false).
      { unfold strchr, symbols in *. cbn in *. unfold ch_pipe, ch_open, ch_close, ch_list, ch_back, ch_in, ch_out in *.
        zcases; done. }
      assert (Hw : strchr whitespace (at_ buf s) = false).
      { apply (skip_ws_stop (len - i) i). fold (skip buf i). unfold skip, es in *. lia. }
      apply Hfin; [|done|by left]. unfold es. destruct (len - s)%nat as [|n] eqn:En; [lia|].
      cbn [skip_word]. rewrite Hw, Hsym. cbn [negb andb]. pose proof (skip_word_range n (S s)). lia.
Qed.

Lemma toks_end n : toks_n n len = [].
Proof using All.
  destruct n; [done|]. cbn. destruct (token_at buf len) as [[ret [q e]] i'] eqn:E.
  destruct (token_cases len ret q e i' ltac:(lia) E) as (_ & Hi' & _ & [(-> & _)|(_ & Hlt & _)]); [done|lia].
Qed.

Lemma toks_n_enough n m i : (i <= len)%nat -> (len - i <= n)%nat -> (len - i <= m)%nat -> toks_n n i = toks_n m i.
Proof using All.
  revert m i. induction n as [|n IH]; intros m i Hi Hn Hm.
  - replace i with len by lia. by rewrite !toks_end.
  - destruct m as [|m]; [replace i with len by lia; by rewrite !toks_end|]. cbn.
    destruct (token_at buf i) as [[ret [q e]] i'] eqn:E.
    destruct (token_cases i ret q e i' Hi E) as (_ & Hi' & _ & [(-> & _)|(Hr & Hlt & _)]); [done|].
    case_match; [done|]. f_equal. apply IH; lia.
Qed.

Definition tok_of (ret : Z) (r : nat * nat) : tok := if ret =? ch_word then Word r.1 r.2 else Sym ret.

Lemma toks_step i ret r i' : (i <= len)%nat -> token_at buf i = (ret, r, i') ->
  toks i = if ret =? 0 then [] else tok_of ret r :: toks i'.
Proof using All.
  intros Hi E. destruct r as [q e]. destruct (token_cases i ret q e i' Hi E) as (_ & Hi' & _ & [(-> & _)|(Hr & Hlt & _)]).
  - unfold toks. destruct (len - i)%nat; [done|]. cbn. by rewrite E.
  - unfold toks. destruct (len - i)%nat eqn:En; [lia|]. cbn. rewrite E. destruct (Z.eqb_spec ret 0); [done|].
    unfold tok_of. f_equal. apply toks_n_enough; lia.
Qed.

Lemma toks_skip i : (i <= len)%nat -> toks (skip buf i) = toks i.
Proof using All.
  intros Hi. destruct (token_at buf i) as [[ret r] i'] eqn:E. pose proof (skip_range i Hi).
  rewrite (toks_step i ret r i' Hi E), (toks_step (skip buf i) ret r i'); [done|lia|].
  by rewrite token_skip.
Qed.

(** Whether the next token begins with one of [ts]. *)
Definition peeks (ts : list Z) (l : list tok) : bool :=
  match l with
  | Sym c :: _ => strchr ts (if c =? ch_append then ch_out else c)
  | _ => false
  end.

Lemma strchr_In l c : strchr l c = true <-> c ∈ l.
Proof using.
  clear buf_text. unfold strchr. rewrite existsb_exists, list_elem_of_In. split; [intros (x & Hx & ->%Z.eqb_eq); done|].
  intros Hx. exists c. split; [done|apply Z.eqb_refl].
Qed.

Lemma peek_val ts i : (i <= len)%nat -> Forall (fun c => c ∈ symbols) ts ->
  negb (at_ buf (skip buf i) =? 0) && strchr ts (at_ buf (skip buf i)) = peeks ts (toks i).
Proof using All.
  intros Hi Hts. destruct (token_at buf i) as [[ret [q e]] i'] eqn:E. rewrite (toks_step i _ _ _ Hi E).
  destruct (token_cases i ret q e i' Hi E) as (-> & Hi' & _ & [(-> & Hq & _)|(Hr & Hlt & Hqe & Hc)]).
  - rewrite (proj2 (at_zero (skip buf i))) by lia. done.
  - destruct (Z.eqb_spec ret 0) as [?|_]; [done|]. assert (H0 : at_ buf (skip buf i) <> 0) by (rewrite at_zero; lia).
    destruct (Z.eqb_spec (at_ buf (skip buf i)) 0) as [?|_]; [done|]. cbn [negb andb]. unfold tok_of, peeks.
    destruct Hc as [(-> & _ & Hs)|[(-> & ->)|(N1 & N2 & -> & _)]].
    + cbn. destruct (strchr ts (at_ buf (skip buf i))) eqn:Et; [|done]. apply strchr_In in Et.
      rewrite Forall_forall in Hts. apply Hts, strchr_In in Et. congruence.
    + done.
    + destruct (Z.eqb_spec ret ch_word); [done|]. destruct (Z.eqb_spec ret ch_append); done.
Qed.

Lemma wp_peek ts i c (Q : bool -> ctx -> nat -> Prop) : (i <= len)%nat -> Forall (fun c => c ∈ symbols) ts ->
  (forall i', (i <= i' <= len)%nat -> toks i' = toks i -> (ts = [] -> i' = skip buf i) -> Q (peeks ts (toks i)) c i') ->
  wp (peek buf ts) c i Q.
Proof using All.
  intros Hi Hts HQ. unfold peek. do 5 wp_step. unfold id. rewrite peek_val by done. apply HQ; [by apply skip_range| |done].
  by apply toks_skip.
Qed.

Definition code (t : tok) : Z := match t with Sym c => c | Word _ _ => ch_word end.
Definition range_of (t : tok) (r : nat * nat) : Prop :=
  match t with Sym c => c <> ch_word | Word q e => r = (q, e) end.

Lemma wp_gettoken i c (Q : Z * (nat * nat) -> ctx -> nat -> Prop) : (i <= len)%nat ->
  match toks i with
  | [] => forall r, Q (0, r) c len
  | t :: l => forall r i', (i < i' <= len)%nat -> toks i' = l -> range_of t r -> code t <> 0 -> Q (code t, r) c i'
  end -> wp (gettoken buf) c i Q.
Proof using All.
  intros Hi HQ. unfold gettoken. do 2 wp_step. unfold id. destruct (token_at buf i) as [[ret [q e]] i'] eqn:E.
  do 3 wp_step. rewrite (toks_step i _ _ _ Hi E) in HQ.
  destruct (token_cases i ret q e i' Hi E) as (_ & Hi' & _ & [(-> & _ & ->)|(Hr & Hlt & _)]); [apply HQ|].
  destruct (Z.eqb_spec ret 0); [done|]. unfold tok_of in HQ. destruct (Z.eqb_spec ret ch_word) as [->|]; by apply HQ.
Qed.

End tokens.

(** * The grammar *)

Inductive redir_op : Z -> Z -> Z -> Prop :=
| op_in : redir_op ch_in O_RDONLY 0
| op_out : redir_op ch_out (Z.lor O_WRONLY O_CREATE) 1
| op_append : redir_op ch_append (Z.lor O_WRONLY O_CREATE) 1.

(** Redirections around a command, left to right. *)
Inductive Gredirs : cmd -> list tok -> cmd -> Prop :=
| Gr_nil c : Gredirs c [] c
| Gr_cons c op mode fd q e ts c' : redir_op op mode fd -> Gredirs (REDIR c q e mode fd) ts c' ->
    Gredirs c (Sym op :: Word q e :: ts) c'.

(** Arguments, each followed by redirections; [n] are there already. *)
Inductive Gargs : nat -> cmd -> list tok -> cmd -> Prop :=
| Ga_nil n c : Gargs n c [] c
| Ga_cons n c q e ts1 c1 ts2 c2 : (S n < MAXARGS)%nat -> Gredirs (add_arg (q, e) c) ts1 c1 ->
    Gargs (S n) c1 ts2 c2 -> Gargs n c (Word q e :: ts1 ++ ts2) c2.

(** line ::= pipe &* [; line],  pipe ::= exec [| pipe],
    exec ::= ( line ) redir* | redir* (word redir* )* *)
Inductive Gline : list tok -> cmd -> Prop :=
| Gl_last ts c n : Gpipe ts c -> Gline (ts ++ replicate n (Sym ch_back)) (Nat.iter n BACK c)
| Gl_list ts c n ts' c' : Gpipe ts c -> Gline ts' c' ->
    Gline (ts ++ replicate n (Sym ch_back) ++ Sym ch_list :: ts') (LIST (Nat.iter n BACK c) c')
with Gpipe : list tok -> cmd -> Prop :=
| Gp_last ts c : Gexec ts c -> Gpipe ts c
| Gp_pipe ts c ts' c' : Gexec ts c -> Gpipe ts' c' -> Gpipe (ts ++ Sym ch_pipe :: ts') (PIPE c c')
with Gexec : list tok -> cmd -> Prop :=
| Ge_block ts c ts' c' : Gline ts c -> Gredirs c ts' c' -> Gexec (Sym ch_open :: ts ++ Sym ch_close :: ts') c'
| Ge_simple ts c ts' c' : Gredirs (EXEC []) ts c -> Gargs 0 c ts' c' -> Gexec (ts ++ ts') c'.

Scheme Gline_rec' := Induction for Gline Sort Prop
with Gpipe_rec' := Induction for Gpipe Sort Prop
with Gexec_rec' := Induction for Gexec Sort Prop.
Combined Scheme grammar_ind from Gline_rec', Gpipe_rec', Gexec_rec'.

(** [safe]: the parser fails with a message, or its result satisfies [Q]. *)
Definition safe {A} (m : M nat A) (c : ctx) (i : nat) (Q : A -> nat -> Prop) : Prop :=
  match m c i with Ok a c' i' => c' = c /\ Q a i' | Panic _ => True | _ => False end.

Lemma safe_bind {A B} (m : M nat A) (k : A -> M nat B) c i Q :
  safe m c i (fun a i' => safe (k a) c i' Q) -> safe (m ≫= k) c i Q.
Proof. unfold safe, mbind, M_bind, obind. destruct (m c i); [|done..]. by intros [-> H]. Qed.

Lemma safe_wp {A} (m : M nat A) c i (Q : A -> nat -> Prop) :
  wp m c i (fun a c' i' => c' = c /\ Q a i') -> safe m c i Q.
Proof. unfold wp, safe. by destruct (m c i). Qed.

Lemma safe_mono {A} (m : M nat A) c i (Q Q' : A -> nat -> Prop) :
  (forall a i', Q a i' -> Q' a i') -> safe m c i Q -> safe m c i Q'.
Proof. unfold safe. intros H. destruct (m c i); [|done..]. intros [-> HQ]. auto. Qed.

Section sound.
Variable buf : list Z.
Hypothesis buf_text : 0 ∉ buf.
Abbreviation len := (length buf).
Abbreviation toks := (toks buf).

Lemma safe_peek ts i c (Q : bool -> nat -> Prop) : (i <= len)%nat -> Forall (fun c => c ∈ symbols) ts ->
  (forall i', (i <= i' <= len)%nat -> toks i' = toks i -> Q (peeks ts (toks i)) i') -> safe (peek buf ts) c i Q.
Proof using All. intros Hi Hts HQ. apply safe_wp, wp_peek; auto. Qed.

Lemma safe_gettoken i c (Q : Z * (nat * nat) -> nat -> Prop) : (i <= len)%nat ->
  match toks i with
  | [] => forall r, Q (0, r) len
  | t :: l => forall r i', (i < i' <= len)%nat -> toks i' = l -> range_of t r -> code t <> 0 -> Q (code t, r) i'
  end -> safe (gettoken buf) c i Q.
Proof using All. intros Hi HQ. apply safe_wp, wp_gettoken; [done..|]. destruct (toks i); auto. Qed.

Lemma peeks_redir l : peeks [ch_in; ch_out] l = true ->
  exists op mode fd l', l = Sym op :: l' /\ redir_op op mode fd.
Proof using.
  clear buf_text. destruct l as [|[c|] l]; try done. cbn. intros H.
  destruct (Z.eqb_spec c ch_append) as [->|Hc]; [do 4 eexists; split; [done|constructor]|].
  unfold strchr in H. cbn in H. destruct (Z.eqb_spec c ch_in) as [->|]; [do 4 eexists; split; [done|constructor]|].
  destruct (Z.eqb_spec c ch_out) as [->|]; [do 4 eexists; split; [done|constructor]|done].
Qed.

Lemma peeks_one a l : a <> ch_out -> peeks [a] l = true -> exists l', l = Sym a :: l'.
Proof using.
  clear buf_text. intros Ha. destruct l as [|[c|] l]; try done. cbn. unfold strchr. cbn. rewrite orb_false_r.
  destruct (Z.eqb_spec c ch_append); intros H%Z.eqb_eq; [congruence|]. subst. eauto.
Qed.

Lemma parseredirs_safe fuel c0 i c : (i <= len)%nat -> (len - i <= fuel)%nat ->
  safe (parseredirs buf fuel c0) c i (fun t i' => (i <= i' <= len)%nat /\
    exists ts, toks i = ts ++ toks i' /\ Gredirs c0 ts t).
Proof using All.
  revert c0 i. induction fuel as [|fuel IH]; intros c0 i Hi Hf; cbn [parseredirs]; apply safe_bind, safe_peek;
    try done; try (by repeat constructor; by_decide); intros i1 Hi1 E1.
  all: destruct (peeks [ch_in; ch_out] (toks i)) eqn:Ep;
    [|unfold safe; cbn; split_and!; try done; try lia; exists []; split; [by rewrite E1|constructor]].
  all: apply peeks_redir in Ep as (op & mode & fd & l & El & Hop).
  all: apply safe_bind, safe_gettoken; [lia|]; rewrite E1, El; intros r2 i2 Hi2 E2 _ _.
  { lia. }
  apply safe_bind, safe_gettoken; [lia|]. rewrite E2. destruct l as [|[c1|q e] l]; [by intros [q e]| |].
  - intros [q e] i3 Hi3 E3 Hr Hz. cbn in *. destruct (Z.eqb_spec c1 ch_word); [done|]. done.
  - intros [q' e'] i3 Hi3 E3 Hr Hz. cbn in Hr. injection Hr as -> ->. cbn [code]. rewrite Z.eqb_refl. cbn [negb].
    assert (Ec : (if code (Sym op) =? ch_in then REDIR c0 q e O_RDONLY 0
      else if code (Sym op) =? ch_out then REDIR c0 q e (Z.lor O_WRONLY O_CREATE) 1
      else if code (Sym op) =? ch_append then REDIR c0 q e (Z.lor O_WRONLY O_CREATE) 1 else c0) = REDIR c0 q e mode fd)
      by (by destruct Hop).
    cbn [code] in Ec. rewrite Ec. eapply safe_mono; [|apply (IH (REDIR c0 q e mode fd) i3); lia].
    cbn beta. intros t i' (Hi' & ts & Ets & Hg). split; [lia|]. exists (Sym op :: Word q e :: ts).
    cbn [app]. rewrite <- E3, Ets. split; [done|]. by econstructor.
Qed.

Lemma parseargs_safe fuel n c0 i c : (i <= len)%nat -> (len - i <= fuel)%nat ->
  safe (parseargs buf fuel n c0) c i (fun t i' => (i <= i' <= len)%nat /\
    exists ts, toks i = ts ++ toks i' /\ Gargs n c0 ts t).
Proof using All.
  revert n c0 i. induction fuel as [|fuel IH]; intros n c0 i Hi Hf; cbn [parseargs]; apply safe_bind, safe_peek;
    try done; try (by repeat constructor; by_decide); intros i1 Hi1 E1.
  all: destruct (peeks _ (toks i)) eqn:Ep;
    [unfold safe; cbn; split_and!; try done; try lia; exists []; split; [by rewrite E1|constructor]|].
  all: apply safe_bind, safe_gettoken; [lia|]; rewrite E1; destruct (toks i) as [|t l] eqn:El;
    [intros [q e]; unfold safe; cbn; split_and!; try done; try lia;
     exists []; split; [unfold toks; by rewrite toks_end|constructor]|].
  { intros [q e] i2 Hi2. lia. }
  intros [q e] i2 Hi2 E2 Hr Hz. destruct (Z.eqb_spec (code t) 0); [done|].
  destruct t as [c1|q' e']; cbn [code range_of] in *.
  - destruct (Z.eqb_spec c1 ch_word); done.
  - injection Hr as -> ->. rewrite Z.eqb_refl. cbn [negb]. destruct (Nat.leb_spec MAXARGS (S n)) as [?|Hn]; [done|].
    apply safe_bind. eapply safe_mono; [|apply parseredirs_safe; unfold es; lia].
    cbn beta. intros t i3 (Hi3 & ts1 & Ets1 & Hg1). eapply safe_mono; [|apply (IH (S n) t i3); lia].
    cbn beta. intros t' i' (Hi' & ts2 & Ets2 & Hg2). split; [lia|]. exists (Word q' e' :: ts1 ++ ts2).
    rewrite <- E2, Ets1, Ets2. split; [by rewrite <- app_comm_cons, app_assoc|]. by econstructor.
Qed.

Lemma iter_BACK n c0 : Nat.iter n BACK (BACK c0) = BACK (Nat.iter n BACK c0).
Proof using. clear buf_text. apply Nat.iter_swap. Qed.

Lemma parseback_safe fuel c0 i c : (i <= len)%nat -> (len - i <= fuel)%nat ->
  safe (parseback buf fuel c0) c i (fun t i' => (i <= i' <= len)%nat /\
    exists n, toks i = replicate n (Sym ch_back) ++ toks i' /\ t = Nat.iter n BACK c0).
Proof using All.
  revert c0 i. induction fuel as [|fuel IH]; intros c0 i Hi Hf; cbn [parseback]; apply safe_bind, safe_peek;
    try done; try (by repeat constructor; by_decide); intros i1 Hi1 E1.
  all: destruct (peeks _ (toks i)) eqn:Ep;
    [|unfold safe; cbn; split_and!; try done; try lia; exists O; split; [by rewrite E1|done]].
  all: apply peeks_one in Ep as [l El]; [|done].
  all: apply safe_bind, safe_gettoken; [lia|]; rewrite E1, El; intros r2 i2 Hi2 E2 _ _.
  { lia. }
  eapply safe_mono; [|apply (IH (BACK c0) i2); lia].
  cbn beta. intros t i' (Hi' & n & En & ->). split; [lia|]. exists (S n). cbn [replicate app].
  rewrite <- E2, En. split; [done|]. by rewrite iter_BACK.
Qed.

Definition sound_at (G : list tok -> cmd -> Prop) (m : M nat cmd) (i : nat) : Prop :=
  forall c, safe m c i (fun t i' => (i <= i' <= len)%nat /\ exists ts, toks i = ts ++ toks i' /\ G ts t).

Definition sound_all (fuel : nat) : Prop := forall i, (i <= len)%nat ->
  ((4 * (len - i) + 4 <= fuel)%nat -> sound_at Gline (parseline buf fuel) i) /\
  ((4 * (len - i) + 3 <= fuel)%nat -> sound_at Gpipe (parsepipe buf fuel) i) /\
  ((4 * (len - i) + 2 <= fuel)%nat -> sound_at Gexec (parseexec buf fuel) i) /\
  ((4 * (len - i) + 1 <= fuel)%nat -> peeks [ch_open] (toks i) = true -> sound_at Gexec (parseblock buf fuel) i).

Lemma sound_line fuel i : sound_all fuel -> (i <= len)%nat -> (4 * (len - i) + 4 <= S fuel)%nat ->
  sound_at Gline (parseline buf (S fuel)) i.
Proof using All.
  intros IH Hi Hf c.
  cbn [parseline]. apply safe_bind. eapply safe_mono; [|apply (IH i Hi); lia].
  cbn beta. intros t1 i1 (Hi1 & ts1 & E1 & G1). apply safe_bind.
  eapply safe_mono; [|apply parseback_safe; unfold es; lia].
  cbn beta. intros t2 i2 (Hi2 & n & E2 & ->). apply safe_bind, safe_peek; [lia|by repeat constructor; by_decide|].
  intros i3 Hi3 E3. destruct (peeks _ (toks i2)) eqn:Ep.
  + apply peeks_one in Ep as [l El]; [|done]. apply safe_bind, safe_gettoken; [lia|]. rewrite E3, El.
    intros r i4 Hi4 E4 _ _. apply safe_bind. eapply safe_mono; [|apply (IH i4); lia].
    cbn beta. intros t5 i5 (Hi5 & ts5 & E5 & G5). unfold safe. cbn. split; [done|]. split; [lia|].
    exists (ts1 ++ replicate n (Sym ch_back) ++ Sym ch_list :: ts5). split; [|by constructor].
    rewrite E1, E2, El, <- E4, E5. by rewrite <- !app_assoc.
  + unfold safe. cbn. split; [done|]. split; [lia|]. exists (ts1 ++ replicate n (Sym ch_back)).
    split; [|by constructor]. rewrite E3, E1, E2. by rewrite <- app_assoc.
Qed.

Lemma sound_pipe fuel i : sound_all fuel -> (i <= len)%nat -> (4 * (len - i) + 3 <= S fuel)%nat ->
  sound_at Gpipe (parsepipe buf (S fuel)) i.
Proof using All.
  intros IH Hi Hf c.
  cbn [parsepipe]. apply safe_bind. eapply safe_mono; [|apply (IH i Hi); lia].
  cbn beta. intros t1 i1 (Hi1 & ts1 & E1 & G1). apply safe_bind, safe_peek; [lia|by repeat constructor; by_decide|].
  intros i3 Hi3 E3. destruct (peeks _ (toks i1)) eqn:Ep.
  + apply peeks_one in Ep as [l El]; [|done]. apply safe_bind, safe_gettoken; [lia|]. rewrite E3, El.
    intros r i4 Hi4 E4 _ _. apply safe_bind. eapply safe_mono; [|apply (IH i4); lia].
    cbn beta. intros t5 i5 (Hi5 & ts5 & E5 & G5). unfold safe. cbn. split; [done|]. split; [lia|].
    exists (ts1 ++ Sym ch_pipe :: ts5). split; [|by constructor].
    rewrite E1, El, <- E4, E5. by rewrite <- !app_assoc.
  + unfold safe. cbn. split; [done|]. split; [lia|]. exists ts1.
    split; [|by constructor]. by rewrite E3.
Qed.

Lemma sound_exec fuel i : sound_all fuel -> (i <= len)%nat -> (4 * (len - i) + 2 <= S fuel)%nat ->
  sound_at Gexec (parseexec buf (S fuel)) i.
Proof using All.
  intros IH Hi Hf c.
  cbn [parseexec]. apply safe_bind, safe_peek; [lia|by repeat constructor; by_decide|].
  intros i1 Hi1 E1. destruct (peeks _ (toks i)) eqn:Ep.
  + eapply safe_mono; [|apply (IH i1 ltac:(lia)); [lia|by rewrite E1]].
    cbn beta. intros t i' (Hi' & ts & Ets & G). split; [lia|]. exists ts. by rewrite <- E1.
  + apply safe_bind. eapply safe_mono; [|apply parseredirs_safe; unfold es; lia].
    cbn beta. intros t2 i2 (Hi2 & ts2 & E2 & G2). eapply safe_mono; [|apply parseargs_safe; unfold es; lia].
    cbn beta. intros t3 i3 (Hi3 & ts3 & E3 & G3). split; [lia|]. exists (ts2 ++ ts3).
    split; [|by econstructor]. rewrite <- E1, E2, E3. by rewrite app_assoc.
Qed.

Lemma sound_block fuel i : sound_all fuel -> (i <= len)%nat -> (4 * (len - i) + 1 <= S fuel)%nat -> peeks [ch_open] (toks i) = true ->
  sound_at Gexec (parseblock buf (S fuel)) i.
Proof using All.
  intros IH Hi Hf Hopen c.
  cbn [parseblock]. apply safe_bind, safe_peek; [lia|by repeat constructor; by_decide|].
  intros i1 Hi1 E1. rewrite Hopen. cbn [negb]. apply peeks_one in Hopen as [l El]; [|done].
  apply safe_bind, safe_gettoken; [lia|]. rewrite E1, El. intros r i2 Hi2 E2 _ _.
  apply safe_bind. eapply safe_mono; [|apply (IH i2); lia].
  cbn beta. intros t3 i3 (Hi3 & ts3 & E3 & G3). apply safe_bind, safe_peek; [lia|by repeat constructor; by_decide|].
  intros i4 Hi4 E4. destruct (peeks _ (toks i3)) eqn:Ep; [|done]. cbn [negb].
  apply peeks_one in Ep as [l4 El4]; [|done]. apply safe_bind, safe_gettoken; [lia|]. rewrite E4, El4.
  intros r5 i5 Hi5 E5 _ _. eapply safe_mono; [|apply parseredirs_safe; unfold es; lia].
  cbn beta. intros t6 i6 (Hi6 & ts6 & E6 & G6). split; [lia|].
  exists (Sym ch_open :: ts3 ++ Sym ch_close :: ts6). split; [|by econstructor].
  rewrite <- E2, E3, El4, <- E5, E6. cbn [app]. by rewrite <- app_assoc.
Qed.

Lemma parse_sound fuel : sound_all fuel.
Proof using All.
  induction fuel as [|fuel IH]; intros i Hi; [lia|].
  split_and!; intros; [by apply sound_line|by apply sound_pipe|by apply sound_exec|by apply sound_block].
Qed.

(** ** Every line of the grammar is parsed *)

Definition stops (ts : list Z) (rest : list tok) : Prop := rest = [] \/ peeks ts rest = true.

Lemma stops_mono ts ts' rest : stops ts rest -> (forall c, c ∈ ts -> c ∈ ts') -> stops ts' rest.
Proof using.
  clear buf_text. intros [->|H] Hsub; [by left|right]. destruct rest as [|[c|] rest]; try done. cbn in *.
  rewrite strchr_In in *. auto.
Qed.

Lemma stops_not ts ts' rest : stops ts rest -> (forall c, c ∈ ts -> c ∉ ts') -> peeks ts' rest = false.
Proof using.
  clear buf_text. intros [->|H] Hsub; [done|]. destruct rest as [|[c|] rest]; try done. cbn in *.
  rewrite strchr_In in H. apply not_true_iff_false. rewrite strchr_In. auto.
Qed.

Lemma redirs_complete c0 ts t : Gredirs c0 ts t -> forall i rest fuel c, (i <= len)%nat -> (len - i <= fuel)%nat ->
  toks i = ts ++ rest -> peeks [ch_in; ch_out] rest = false ->
  wp (parseredirs buf fuel c0) c i (fun t' c' i' => t' = t /\ c' = c /\ (i <= i' <= len)%nat /\ toks i' = rest).
Proof using All.
  induction 1 as [c0|c0 op mode fd q e ts t Hop _ IH]; intros i rest fuel c Hi Hf Et Hrest;
    destruct fuel as [|fuel]; cbn [parseredirs]; wp_step; (apply wp_peek; [done|done|by repeat constructor; by_decide|]);
    intros i1 Hi1 E1 _; rewrite Et in *.
  1,2: cbn [app] in *; rewrite Hrest; wp_step; done.
  all: assert (Ep : forall l, peeks [ch_in; ch_out] (Sym op :: l) = true) by (intros; by destruct Hop).
  all: cbn [app]; rewrite Ep; wp_step; (apply wp_gettoken; [done|lia|]); rewrite E1; intros r2 i2 Hi2 E2 _ _.
  { lia. }
  wp_step. apply wp_gettoken; [done|lia|]. fold toks. rewrite E2. intros r3 i3 Hi3 E3 Hr _. cbn in Hr. subst r3.
  cbn [code]. rewrite Z.eqb_refl. cbn [negb].
  assert (Ec : (if op =? ch_in then REDIR c0 q e O_RDONLY 0
    else if op =? ch_out then REDIR c0 q e (Z.lor O_WRONLY O_CREATE) 1
    else if op =? ch_append then REDIR c0 q e (Z.lor O_WRONLY O_CREATE) 1 else c0) = REDIR c0 q e mode fd)
    by (by destruct Hop).
  rewrite Ec. eapply wp_mono; [|apply (IH i3 rest); [lia|lia|done|done]].
  cbn beta. intros t' c' i' (-> & -> & Hi' & E'). split_and!; try done; lia.
Qed.

Abbreviation exec_stop := [ch_pipe; ch_close; ch_back; ch_list].

Lemma args_not_redir n c0 ts t rest : Gargs n c0 ts t -> stops exec_stop rest ->
  peeks [ch_in; ch_out] (ts ++ rest) = false.
Proof using.
  clear buf_text. intros H Hs. destruct H; [|done]. cbn. apply (stops_not exec_stop); [done|].
  apply Forall_forall. by_decide.
Qed.

Lemma args_complete n c0 ts t : Gargs n c0 ts t -> forall i rest fuel c, (i <= len)%nat -> (len - i <= fuel)%nat ->
  toks i = ts ++ rest -> stops exec_stop rest ->
  wp (parseargs buf fuel n c0) c i (fun t' c' i' => t' = t /\ c' = c /\ (i <= i' <= len)%nat /\ toks i' = rest).
Proof using All.
  induction 1 as [n c0|n c0 q e ts1 c1 ts2 c2 Hn Hr Hg IH]; intros i rest fuel c Hi Hf Et Hrest;
    destruct fuel as [|fuel]; cbn [parseargs]; wp_step; (apply wp_peek; [done|done|by repeat constructor; by_decide|]);
    intros i1 Hi1 E1 _; rewrite Et in *.
  1,2: cbn [app] in *; destruct (peeks exec_stop rest) eqn:Ep; [wp_step; done|];
    destruct Hrest as [->|?]; [|congruence]; wp_step; (apply wp_gettoken; [done|lia|]); rewrite E1; intros [q e];
    cbn; split_and!; try done; try lia; unfold toks; by rewrite toks_end.
  all: cbn [app peeks]; wp_step; (apply wp_gettoken; [done|lia|]); rewrite E1; intros r2 i2 Hi2 E2 Hr2 _.
  { lia. }
  cbn in Hr2. subst r2. cbn [code]. rewrite Z.eqb_refl. cbn [negb]. change (ch_word =? 0) with false. cbn iota.
  destruct (Nat.leb_spec MAXARGS (S n)) as [?|_]; [lia|]. wp_step. rewrite <- app_assoc in E2.
  eapply wp_mono; [|apply (redirs_complete _ _ _ Hr i2 (ts2 ++ rest)); [lia|unfold es; lia|done|by apply (args_not_redir (S n) c1 _ c2)]].
  cbn beta. intros t' c' i3 (-> & -> & Hi3 & E3). eapply wp_mono; [|apply (IH i3 rest); [lia|lia|done|done]].
  cbn beta. intros t' c' i' (-> & -> & Hi' & E'). split_and!; try done; lia.
Qed.

Lemma back_complete n : forall c0 i rest fuel c, (i <= len)%nat -> (len - i <= fuel)%nat ->
  toks i = replicate n (Sym ch_back) ++ rest -> peeks [ch_back] rest = false ->
  wp (parseback buf fuel c0) c i (fun t' c' i' => t' = Nat.iter n BACK c0 /\ c' = c /\ (i <= i' <= len)%nat /\ toks i' = rest).
Proof using All.
  induction n as [|n IH]; intros c0 i rest fuel c Hi Hf Et Hrest;
    destruct fuel as [|fuel]; cbn [parseback]; wp_step; (apply wp_peek; [done|done|by repeat constructor; by_decide|]);
    intros i1 Hi1 E1 _; rewrite Et in *.
  1,2: cbn [app replicate] in *; rewrite Hrest; wp_step; done.
  all: cbn [replicate app]; change (peeks [ch_back] (Sym ch_back :: replicate n (Sym ch_back) ++ rest)) with true; cbn iota;
    wp_step; (apply wp_gettoken; [done|lia|]); rewrite E1; intros r2 i2 Hi2 E2 _ _.
  { lia. }
  eapply wp_mono; [|apply (IH (BACK c0) i2 rest); [lia|lia|done|done]].
  cbn beta. intros t' c' i' (-> & -> & Hi' & E'). rewrite iter_BACK. split_and!; try done; lia.
Qed.

Definition complete_at (m : nat -> M nat cmd) (extra : nat) (stop : list Z) (ts : list tok) (t : cmd) : Prop :=
  forall i rest fuel c, (i <= len)%nat -> (4 * (len - i) + extra <= fuel)%nat -> toks i = ts ++ rest -> stops stop rest ->
  wp (m fuel) c i (fun t' c' i' => t' = t /\ c' = c /\ (i <= i' <= len)%nat /\ toks i' = rest).

Lemma back_stops n rest : stops [ch_close; ch_list] rest ->
  stops [ch_close; ch_back; ch_list] (replicate n (Sym ch_back) ++ rest).
Proof using.
  clear buf_text. intros H. destruct n; cbn; [|by right].
  eapply stops_mono; [exact H|]. apply Forall_forall. by_decide.
Qed.

(** The part of [parseline] that a line and a list have in common. *)
Lemma line_head ts t n rest i fuel c (Q : cmd -> ctx -> nat -> Prop) : complete_at (parsepipe buf) 3 [ch_close; ch_back; ch_list] ts t ->
  (i <= len)%nat -> (4 * (len - i) + 3 <= fuel)%nat ->
  toks i = ts ++ replicate n (Sym ch_back) ++ rest -> stops [ch_close; ch_list] rest ->
  (forall i', (i <= i' <= len)%nat -> toks i' = rest ->
    wp (b ← peek buf [ch_list];
        if (b : bool) then gettoken buf;; r ← parseline buf fuel; mret (LIST (Nat.iter n BACK t) r)
        else mret (Nat.iter n BACK t)) c i' Q) ->
  wp (c ← parsepipe buf fuel; c ← parseback buf (es buf) c; b ← peek buf [ch_list];
      if (b : bool) then gettoken buf;; r ← parseline buf fuel; mret (LIST c r) else mret c) c i Q.
Proof using All.
  intros HP Hi Hf Et Hs HQ. wp_step. eapply wp_mono; [|apply (HP i (replicate n (Sym ch_back) ++ rest)); [lia|lia|done|by apply back_stops]].
  cbn beta. intros t' c' i1 (-> & -> & Hi1 & E1). wp_step.
  eapply wp_mono; [|apply (back_complete n t i1 rest); [lia|unfold es; lia|done|]].
  - cbn beta. intros t' c' i2 (-> & -> & Hi2 & E2). apply HQ; [lia|done].
  - apply (stops_not [ch_close; ch_list]); [done|]. apply Forall_forall. by_decide.
Qed.

Lemma complete_line_last ts t n : complete_at (parsepipe buf) 3 [ch_close; ch_back; ch_list] ts t ->
  complete_at (parseline buf) 4 [ch_close] (ts ++ replicate n (Sym ch_back)) (Nat.iter n BACK t).
Proof using All.
  intros IH i rest fuel c Hi Hf Et Hs. destruct fuel as [|fuel]; [lia|]. cbn [parseline].
  rewrite <- app_assoc in Et. eapply line_head; [exact IH|done|lia|exact Et| |].
  { eapply stops_mono; [exact Hs|]. apply Forall_forall. by_decide. }
  intros i1 Hi1 E1. wp_step. apply wp_peek; [done|lia|by repeat constructor; by_decide|]. intros i2 Hi2 E2 _.
  fold toks. rewrite E1, (stops_not [ch_close]) by (done || (apply Forall_forall; by_decide)).
  wp_step. fold toks in E2. rewrite E2, E1. split_and!; try done; lia.
Qed.

Lemma complete_line_list ts t n ts' t' : complete_at (parsepipe buf) 3 [ch_close; ch_back; ch_list] ts t ->
  complete_at (parseline buf) 4 [ch_close] ts' t' ->
  complete_at (parseline buf) 4 [ch_close] (ts ++ replicate n (Sym ch_back) ++ Sym ch_list :: ts') (LIST (Nat.iter n BACK t) t').
Proof using All.
  intros IH IH' i rest fuel c Hi Hf Et Hs. destruct fuel as [|fuel]; [lia|]. cbn [parseline].
  rewrite <- !app_assoc in Et. eapply line_head; [exact IH|done|lia|exact Et|by right|].
  intros i1 Hi1 E1. wp_step. apply wp_peek; [done|lia|by repeat constructor; by_decide|]. intros i2 Hi2 E2 _.
  fold toks in *. rewrite E1 in *. cbn [app] in *.
  change (peeks [ch_list] (Sym ch_list :: ts' ++ rest)) with true. cbn iota.
  wp_step. apply wp_gettoken; [done|lia|]. fold toks. rewrite E2. intros r3 i3 Hi3 E3 _ _. wp_step.
  eapply wp_mono; [|apply (IH' i3 rest); [lia|lia|done|done]].
  cbn beta. intros u c' i4 (-> & -> & Hi4 & E4). wp_step. split_and!; try done; lia.
Qed.

Lemma complete_pipe_last ts t : complete_at (parseexec buf) 2 exec_stop ts t -> complete_at (parsepipe buf) 3 [ch_close; ch_back; ch_list] ts t.
Proof using All.
  intros IH i rest fuel c Hi Hf Et Hs. destruct fuel as [|fuel]; [lia|]. cbn [parsepipe]. wp_step.
  eapply wp_mono; [|apply (IH i rest); [lia|lia|done|]].
  + cbn beta. intros t' c' i1 (-> & -> & Hi1 & E1). wp_step. apply wp_peek; [done|lia|by repeat constructor; by_decide|].
    intros i2 Hi2 E2 _. fold toks in *. rewrite E1 in *.
    rewrite (stops_not [ch_close; ch_back; ch_list]) by (done || (apply Forall_forall; by_decide)).
    wp_step. split_and!; try done; lia.
  + eapply stops_mono; [exact Hs|]. apply Forall_forall. by_decide.
Qed.

Lemma complete_pipe_pipe ts t ts' t' : complete_at (parseexec buf) 2 exec_stop ts t ->
  complete_at (parsepipe buf) 3 [ch_close; ch_back; ch_list] ts' t' ->
  complete_at (parsepipe buf) 3 [ch_close; ch_back; ch_list] (ts ++ Sym ch_pipe :: ts') (PIPE t t').
Proof using All.
  intros IH IH' i rest fuel c Hi Hf Et Hs. destruct fuel as [|fuel]; [lia|]. cbn [parsepipe]. wp_step.
  rewrite <- app_assoc in Et. cbn [app] in Et.
  eapply wp_mono; [|apply (IH i (Sym ch_pipe :: ts' ++ rest)); [lia|lia|done|by right]].
  cbn beta. intros u c' i1 (-> & -> & Hi1 & E1). wp_step. apply wp_peek; [done|lia|by repeat constructor; by_decide|].
  intros i2 Hi2 E2 _. fold toks in *. rewrite E1 in *.
  change (peeks [ch_pipe] (Sym ch_pipe :: ts' ++ rest)) with true. cbn iota.
  wp_step. apply wp_gettoken; [done|lia|]. fold toks. rewrite E2. intros r3 i3 Hi3 E3 _ _. wp_step.
  eapply wp_mono; [|apply (IH' i3 rest); [lia|lia|done|done]].
  cbn beta. intros u c' i4 (-> & -> & Hi4 & E4). wp_step. split_and!; try done; lia.
Qed.

Lemma complete_block ts t ts' t' : complete_at (parseline buf) 4 [ch_close] ts t -> Gredirs t ts' t' ->
  complete_at (parseexec buf) 2 exec_stop (Sym ch_open :: ts ++ Sym ch_close :: ts') t'.
Proof using All.
  intros IH Hr i rest fuel c Hi Hf Et Hs. destruct fuel as [|[|fuel]]; [lia|lia|]. cbn [parseexec].
  cbn [app] in Et. rewrite <- app_assoc in Et. cbn [app] in Et.
  wp_step. apply wp_peek; [done|lia|by repeat constructor; by_decide|]. intros i1 Hi1 E1 _. fold toks in *. rewrite Et in *.
  change (peeks [ch_open] (Sym ch_open :: ts ++ Sym ch_close :: ts' ++ rest)) with true. cbn iota. cbn [parseblock].
  wp_step. apply wp_peek; [done|lia|by repeat constructor; by_decide|]. intros i2 Hi2 E2 _. fold toks in *. rewrite E1 in *.
  change (peeks [ch_open] (Sym ch_open :: ts ++ Sym ch_close :: ts' ++ rest)) with true. cbn [negb].
  wp_step. apply wp_gettoken; [done|lia|]. fold toks. rewrite E2. intros r3 i3 Hi3 E3 _ _. wp_step.
  eapply wp_mono; [|apply (IH i3 (Sym ch_close :: ts' ++ rest)); [lia|lia|done|by right]].
  cbn beta. intros u c' i4 (-> & -> & Hi4 & E4). wp_step. apply wp_peek; [done|lia|by repeat constructor; by_decide|].
  intros i5 Hi5 E5 _. fold toks in *. rewrite E4 in *.
  change (peeks [ch_close] (Sym ch_close :: ts' ++ rest)) with true. cbn [negb].
  wp_step. apply wp_gettoken; [done|lia|]. fold toks. rewrite E5. intros r6 i6 Hi6 E6 _ _.
  eapply wp_mono; [|apply (redirs_complete _ _ _ Hr i6 rest); [lia|unfold es; lia|done|]].
  + cbn beta. intros u c' i7 (-> & -> & Hi7 & E7). split_and!; try done; lia.
  + apply (stops_not exec_stop); [done|]. apply Forall_forall. by_decide.
Qed.

Lemma complete_simple ts t ts' t' : Gredirs (EXEC []) ts t -> Gargs 0 t ts' t' ->
  complete_at (parseexec buf) 2 exec_stop (ts ++ ts') t'.
Proof using All.
  intros Hr Ha i rest fuel c Hi Hf Et Hs. destruct fuel as [|fuel]; [lia|]. cbn [parseexec].
  rewrite <- app_assoc in Et. wp_step. apply wp_peek; [done|lia|by repeat constructor; by_decide|].
  intros i1 Hi1 E1 _. fold toks in *.
  assert (Ep : peeks [ch_open] (toks i) = false).
  { rewrite Et. destruct Hr as [|c0 op mode fd q e ts t Hop Hr]; [|by destruct Hop].
    destruct Ha; [|done]. apply (stops_not exec_stop); [done|]. apply Forall_forall. by_decide. }
  rewrite Ep. wp_step. rewrite Et in E1.
  eapply wp_mono; [|apply (redirs_complete _ _ _ Hr i1 (ts' ++ rest)); [lia|unfold es; lia|done|by apply (args_not_redir 0 t _ t')]].
  cbn beta. intros u c' i2 (-> & -> & Hi2 & E2).
  eapply wp_mono; [|apply (args_complete _ _ _ _ Ha i2 rest); [lia|unfold es; lia|done|done]].
  cbn beta. intros u c' i3 (-> & -> & Hi3 & E3). split_and!; try done; lia.
Qed.

Lemma parse_complete :
  (forall ts t, Gline ts t -> complete_at (parseline buf) 4 [ch_close] ts t) /\
  (forall ts t, Gpipe ts t -> complete_at (parsepipe buf) 3 [ch_close; ch_back; ch_list] ts t) /\
  (forall ts t, Gexec ts t -> complete_at (parseexec buf) 2 exec_stop ts t).
Proof using All.
  apply grammar_ind.
  - intros. by apply complete_line_last.
  - intros. by apply complete_line_list.
  - intros. by apply complete_pipe_last.
  - intros. by apply complete_pipe_pipe.
  - intros. by eapply complete_block.
  - intros. by eapply complete_simple.
Qed.

Lemma parse_tree_ok t : Gline (toks 0) t -> forall c, parse_tree buf c 0%nat = Ok t c len.
Proof using All.
  intros HG c. enough (HW : wp (parse_tree buf) c 0%nat (fun t' c' i' => t' = t /\ c' = c /\ i' = len)).
  { unfold wp in HW. by destruct (parse_tree buf c 0%nat); [destruct HW as (-> & -> & ->)|..]. }
  unfold parse_tree. wp_step.
  eapply wp_mono; [|apply (proj1 parse_complete _ _ HG 0%nat []); [lia|unfold es; lia|by rewrite app_nil_r|by left]].
  cbn beta. intros t' c' i1 (-> & -> & Hi1 & E1). wp_step. apply wp_peek; [done|lia|done|].
  intros i2 Hi2 E2 Hs. specialize (Hs eq_refl).
  assert (i2 = len) as ->.
  { destruct (token_at buf i1) as [[ret [q e]] i'] eqn:E. rewrite (toks_step buf buf_text i1 _ _ _ ltac:(lia) E) in E1.
    destruct (token_cases buf buf_text i1 ret q e i' ltac:(lia) E) as (Eq & _ & _ & [(_ & El & _)|(Hr & _)]); [congruence|].
    destruct (Z.eqb_spec ret 0); done. }
  do 2 wp_step. unfold es, id. rewrite Nat.eqb_refl. cbn [negb]. by wp_step.
Qed.

Lemma parse_tree_safe c : safe (parse_tree buf) c 0%nat (fun t _ => Gline (toks 0) t).
Proof using All.
  unfold parse_tree. apply safe_bind.
  eapply safe_mono; [|apply (parse_sound (4 * es buf + 4) 0%nat); unfold es; lia].
  cbn beta. intros t i1 (Hi1 & ts & E1 & HG). apply safe_bind, safe_peek; [lia|done|]. intros i2 Hi2 E2.
  apply safe_bind. unfold Prelude.gets. unfold safe at 1, id. split; [done|]. unfold es.
  destruct (Nat.eqb_spec i2 len) as [->|]; [|done]. unfold safe. cbn. split; [done|].
  rewrite E1, <- E2. unfold Sh.toks. rewrite toks_end by done. by rewrite app_nil_r.
Qed.

End sound.

(** ** The strings of the tree *)

Fixpoint words (c : cmd) : list (nat * nat) :=
  match c with
  | EXEC argv => argv
  | REDIR c q e _ _ => words c ++ [(q, e)]
  | PIPE l r => words l ++ words r
  | LIST l r => words l ++ words r
  | BACK c => words c
  end.

(** The C string that begins at position [q] of the memory [b]. *)
Definition string_at (b : list Z) (q : nat) : list Z := upto_nul (drop q b).
Definition slice (s : list Z) (r : nat * nat) : list Z := take (r.2 - r.1) (drop r.1 s).

Lemma nulterminate_lookup c : forall b p, (p < length b)%nat ->
  length (nulterminate c b) = length b /\
  nulterminate c b !! p = if bool_decide (p ∈ (words c).*2) then Some 0 else b !! p.
Proof.
  induction c as [argv|c IH q e m f|l IHl r IHr|l IHl r IHr|c IH]; intros b p Hp; cbn [nulterminate words].
  - revert b Hp. induction argv as [|[q e] argv IH]; intros b Hp; cbn [foldl fmap list_fmap snd]; [done|].
    destruct (IH (<[e := 0]> b)) as [L E]; [by rewrite length_insert|]. rewrite L, E, length_insert. split; [done|].
    destruct (decide (p = e)) as [->|Hpe].
    + rewrite list_lookup_insert_eq by done. rewrite (bool_decide_true (e ∈ _ :: _)) by (left). by case_bool_decide.
    + rewrite list_lookup_insert_ne by done.
      assert (p ∈ argv.*2 <-> p ∈ (q, e).2 :: argv.*2) as Hiff by set_solver. by rewrite (bool_decide_ext _ _ Hiff).
  - destruct (IH b p Hp) as [L E]. rewrite length_insert. split; [done|]. rewrite fmap_app. cbn.
    destruct (decide (p = e)) as [->|Hpe].
    + rewrite list_lookup_insert_eq by lia. rewrite bool_decide_true by set_solver. done.
    + rewrite list_lookup_insert_ne by done. rewrite E.
      assert (p ∈ (words c).*2 <-> p ∈ (words c).*2 ++ [e]) as Hiff by set_solver. by rewrite (bool_decide_ext _ _ Hiff).
  - destruct (IHl b p Hp) as [L1 E1]. destruct (IHr (nulterminate l b) p) as [L2 E2]; [lia|].
    rewrite L2, L1, E2, E1, fmap_app. split; [done|]. repeat case_bool_decide; set_solver.
  - destruct (IHl b p Hp) as [L1 E1]. destruct (IHr (nulterminate l b) p) as [L2 E2]; [lia|].
    rewrite L2, L1, E2, E1, fmap_app. split; [done|]. repeat case_bool_decide; set_solver.
  - by apply IH.
Qed.

Lemma words_add_arg a c r : r ∈ words (add_arg a c) -> r ∈ words c \/ r = a.
Proof. induction c; cbn; set_solver. Qed.

Lemma redirs_words c ts t : Gredirs c ts t -> forall r, r ∈ words t -> r ∈ words c \/ Word r.1 r.2 ∈ ts.
Proof.
  induction 1 as [c|c op m f q e ts t _ _ IH]; intros r Hr; [by left|].
  destruct (IH r Hr) as [Hin|Hin]; [|right; by do 2 right]. cbn in Hin. apply elem_of_app in Hin as [Hin|Hin]; [by left|].
  apply list_elem_of_singleton in Hin as ->. right. right. left.
Qed.

Lemma args_words n c ts t : Gargs n c ts t -> forall r, r ∈ words t -> r ∈ words c \/ Word r.1 r.2 ∈ ts.
Proof.
  induction 1 as [n c|n c q e ts1 c1 ts2 c2 _ Hr _ IH]; intros r Hin; [by left|].
  destruct (IH r Hin) as [H1|H1]; [|right; right; apply elem_of_app; by right].
  destruct (redirs_words _ _ _ Hr r H1) as [H2|H2]; [|right; right; apply elem_of_app; by left].
  apply words_add_arg in H2 as [H2| ->]; [by left|right; left].
Qed.

Lemma words_iter_BACK n c : words (Nat.iter n BACK c) = words c.
Proof. induction n as [|n IH]; [done|]. exact IH. Qed.

Lemma grammar_words :
  (forall ts t, Gline ts t -> forall r, r ∈ words t -> Word r.1 r.2 ∈ ts) /\
  (forall ts t, Gpipe ts t -> forall r, r ∈ words t -> Word r.1 r.2 ∈ ts) /\
  (forall ts t, Gexec ts t -> forall r, r ∈ words t -> Word r.1 r.2 ∈ ts).
Proof.
  apply grammar_ind.
  - intros ts c n _ IH r. rewrite words_iter_BACK. intros Hr. apply elem_of_app. left. auto.
  - intros ts c n ts' c' _ IH _ IH' r. cbn. rewrite words_iter_BACK. rewrite !elem_of_app, elem_of_cons. intros [Hr|Hr]; auto.
  - auto.
  - intros ts c ts' c' _ IH _ IH' r. cbn. rewrite !elem_of_app, elem_of_cons. intros [Hr|Hr]; auto.
  - intros ts c ts' c' _ IH Hr r Hin. rewrite elem_of_cons, elem_of_app, elem_of_cons.
    destruct (redirs_words _ _ _ Hr r Hin); auto.
  - intros ts c ts' c' Hr Ha r Hin. rewrite elem_of_app.
    destruct (args_words _ _ _ _ Ha r Hin) as [H1|H1]; [|by right].
    destruct (redirs_words _ _ _ Hr r H1) as [H2|H2]; [by apply not_elem_of_nil in H2|by left].
Qed.

Section strings.
Variable buf : list Z.
Hypothesis buf_text : 0 ∉ buf.
Abbreviation len := (length buf).

Definition wordch (x : Z) : bool := negb (strchr whitespace x) && negb (strchr symbols x).

Lemma skip_word_in n i p : (i <= p < skip_word buf n i)%nat -> wordch (at_ buf p) = true.
Proof using.
  clear buf_text. revert i. induction n as [|n IH]; intros i; cbn [skip_word]; [lia|]. case_match eqn:E; [|lia].
  intros Hp. destruct (decide (p = i)) as [->|]; [done|]. apply (IH (S i)). lia.
Qed.

Lemma skip_word_stop n i : (skip_word buf n i < i + n)%nat -> wordch (at_ buf (skip_word buf n i)) = false.
Proof using.
  clear buf_text. revert i. induction n as [|n IH]; intros i; cbn [skip_word]; [lia|]. case_match eqn:E; [|done].
  intros Hp. apply IH. lia.
Qed.

Lemma word_range n i q e : (i <= len)%nat -> Word q e ∈ toks_n buf n i ->
  (q < e <= len)%nat /\ (forall p, (q <= p < e)%nat -> wordch (at_ buf p) = true) /\
  (e = len \/ wordch (at_ buf e) = false).
Proof using All.
  revert i. induction n as [|n IH]; intros i Hi; cbn; [intros Hin; by apply not_elem_of_nil in Hin|].
  destruct (token_at buf i) as [[ret [q0 e0]] i'] eqn:E.
  destruct (token_cases buf buf_text i ret q0 e0 i' Hi E) as (_ & Hi' & _ & [(-> & _)|(Hr & Hlt & Hqe & Hc)]);
    [intros Hin; by apply not_elem_of_nil in Hin|].
  destruct (Z.eqb_spec ret 0); [done|]. intros [Hw|Hin]%elem_of_cons; [|by apply (IH i')].
  destruct (Z.eqb_spec ret ch_word) as [->|]; [|done]. injection Hw as -> ->.
  destruct Hc as [(_ & Ee & _)|[(? & _)|(? & _)]]; [|done|done]. split; [done|].
  rewrite Ee. split; [intros p Hp; by apply (skip_word_in (len - q0) q0)|].
  pose proof (skip_word_range buf (len - q0) q0).
  destruct (decide (skip_word buf (len - q0) q0 = len)); [by left|right]. apply skip_word_stop. lia.
Qed.

Lemma at_lookup p : (p < len)%nat -> (buf ++ [0]) !! p = Some (at_ buf p).
Proof using.
  clear buf_text. intros Hp. rewrite lookup_app_l by done. unfold at_. rewrite nth_lookup.
  destruct (lookup_lt_is_Some_2 buf p Hp) as [x ->]. done.
Qed.

(** After [nulterminate] every string of the tree is a C string. *)
Lemma strings_ok t r : Gline (toks buf 0) t -> r ∈ words t ->
  string_at (nulterminate t (buf ++ [0])) r.1 = slice buf r.
Proof using All.
  intros HG Hr. assert (HW : forall r, r ∈ words t -> (r.1 < r.2 <= len)%nat /\
    (forall p, (r.1 <= p < r.2)%nat -> wordch (at_ buf p) = true) /\ (r.2 = len \/ wordch (at_ buf r.2) = false)).
  { intros r' Hr'. apply (proj1 grammar_words _ _ HG) in Hr'. by apply word_range in Hr'; [|lia]. }
  destruct r as [q e]. destruct (HW _ Hr) as (Hqe & Hin & _). cbn [fst snd] in *.
  assert (Hend : forall p, (q <= p < e)%nat -> p ∉ (words t).*2).
  { intros p Hp ([q' e'] & -> & Hr')%list_elem_of_fmap. cbn in *. destruct (HW _ Hr') as (_ & _ & [E|E]); cbn in E; [lia|].
    rewrite (Hin e' Hp) in E. done. }
  assert (Hget : forall p, (q <= p < e)%nat -> nulterminate t (buf ++ [0]) !! p = Some (at_ buf p)).
  { intros p Hp. destruct (nulterminate_lookup t (buf ++ [0]) p) as [_ ->]; [rewrite length_app; cbn; lia|].
    rewrite bool_decide_false by (by apply Hend). apply at_lookup. lia. }
  unfold string_at, slice. cbn [fst snd]. rewrite (upto_nul_spec _ (e - q)%nat).
  - apply list_eq. intros k. destruct (decide (k < e - q)%nat) as [Hk|Hk].
    + rewrite !lookup_take_lt, !lookup_drop by done. rewrite Hget by lia.
      unfold at_. rewrite nth_lookup. destruct (lookup_lt_is_Some_2 buf (q + k)%nat) as [x Hx]; [lia|]. by rewrite Hx.
    + rewrite !lookup_take_ge by lia. done.
  - intros k x Hk Hx. rewrite lookup_drop, Hget in Hx by lia. injection Hx as <-.
    intros H0. apply at_zero in H0; [lia|done].
  - rewrite lookup_drop. replace (q + (e - q))%nat with e by lia.
    destruct (nulterminate_lookup t (buf ++ [0]) e) as [_ ->]; [rewrite length_app; cbn; lia|].
    rewrite bool_decide_true; [done|]. apply list_elem_of_fmap. by exists (q, e).
Qed.

End strings.

(** C13: the parser of the shell.  It always ends.  A line is parsed exactly
    when its tokens are a line of the grammar, and then the tree is the only
    one the grammar gives it; the strings of the tree, arguments and file
    names, are cut out of the line as C strings.  Any other line is rejected
    with a message. *)
Theorem parsecmd_correct s : 0 ∉ s ->
  match parsecmd s with
  | Ok (t, b) _ _ => Gline (toks s 0) t /\ (forall t', Gline (toks s 0) t' -> t' = t) /\
      forall r, r ∈ words t -> string_at b r.1 = slice s r
  | Panic _ => forall t, ~ Gline (toks s 0) t
  | _ => False
  end.
Proof.
  intros Hs. unfold parsecmd. assert (HS := parse_tree_safe s Hs ctx0). unfold safe in HS.
  assert (HC := fun t HG => parse_tree_ok s Hs t HG ctx0).
  destruct (parse_tree s ctx0 0%nat) as [t k i|m|ch k i|]; [|by intros t HG; specialize (HC t HG)|done..].
  - destruct HS as [_ HG]. split; [done|]. split; [|intros r Hr; by apply strings_ok].
    intros t' HG'. specialize (HC t' HG'). congruence.
Qed.

(** "ls>f|wc" *)
Definition ex_line : list Z := [108; 115; 62; 102; 124; 119; 99].
Definition ex_tree : cmd := PIPE (REDIR (EXEC [(0, 2)%nat]) 3 4 513 1) (EXEC [(5, 7)%nat]).

Lemma parsecmd_correct_witness : exists b k i, parsecmd ex_line = Ok (ex_tree, b) k i /\
  string_at b 0 = [108; 115] /\ string_at b 3 = [102] /\ string_at b 5 = [119; 99].
Proof.
  assert (exists b k i, parsecmd ex_line = Ok (ex_tree, b) k i) as (b & k & i & E)
    by (do 3 eexists; vm_compute; reflexivity).
  pose proof (parsecmd_correct ex_line ltac:(by_decide)) as H. rewrite E in H. destruct H as (_ & _ & H).
  exists b, k, i. split; [done|].
  split; [exact (H (0, 2)%nat ltac:(by_decide))|].
  split; [exact (H (3, 4)%nat ltac:(by_decide))|exact (H (5, 7)%nat ltac:(by_decide))].
Defined.
