(* ===== verification/Programs.v ===== *)
(** * The user programs

    cat.c, wc.c, echo.c, rm.c, mkdir.c, ln.c, kill.c, ls.c, init.c, zombie.c,
    forktest.c, stressfs.c and the main program of grep.c, as trees of system
    calls.  [argv] holds all arguments, the name of the program first.  The
    filters are then run in a world of files whose [read] returns as few
    bytes as it likes. *)
From S2P Require Import Prelude CString Format User Grep.

(** A loop of the source that runs until a call says so takes a bound on
    its iterations. *)

(** ** cat.c *)

Fixpoint cat (fuel : nat) (fd : Z) : prog unit :=
  '(n, buf) ← call (read fd 512);
  if 0 <? n then
    m ← call (write 1 (take (Z.to_nat n) buf));
    if negb (m =? n) then printf 1 (line "cat: write error") [];; Exit
    else match fuel with O => Loop | S f => cat f fd end
  else if n <? 0 then printf 1 (line "cat: read error") [];; Exit
  else Ret tt.

Fixpoint cat_files (fuel : nat) (files : list (list Z)) : prog unit :=
  match files with
  | [] => Ret tt
  | f :: files' =>
      fd ← call (open f 0);
      if fd <? 0 then printf 1 (line "cat: cannot open %s") [AStr f];; Exit
      else cat fuel fd;; call (close fd);; cat_files fuel files'
  end.

Definition cat_main (fuel : nat) (argv : list (list Z)) : prog unit :=
  if (length argv <=? 1)%nat then cat fuel 0;; Exit
  else cat_files fuel (tail argv);; Exit.

(** ** wc.c *)

Definition wc_space : list Z := [32; 13; 9; 10; 11].

Record counts := Counts { cl : Z; cw : Z; cc : Z; inword : bool }.

Definition wc_byte (s : counts) (b : Z) : counts :=
  let c := cc s + 1 in
  let l := if b =? 10 then cl s + 1 else cl s in
  if bool_decide (b ∈ wc_space) then Counts l (cw s) c false
  else if negb (inword s) then Counts l (cw s + 1) c true
  else Counts l (cw s) c (inword s).

Fixpoint wc_loop (fuel : nat) (fd : Z) (s : counts) : prog counts :=
  '(n, buf) ← call (read fd 512);
  if 0 <? n then
    let s' := foldl wc_byte s (take (Z.to_nat n) buf) in
    match fuel with O => Loop | S f => wc_loop f fd s' end
  else if n <? 0 then printf 1 (line "wc: read error") [];; Exit
  else Ret s.

Definition wc (fuel : nat) (fd : Z) (name : list Z) : prog unit :=
  s ← wc_loop fuel fd (Counts 0 0 0 false);
  printf 1 (line "%d %d %d %s") [AInt (cl s); AInt (cw s); AInt (cc s); AStr name].

Fixpoint wc_files (fuel : nat) (files : list (list Z)) : prog unit :=
  match files with
  | [] => Ret tt
  | f :: files' =>
      fd ← call (open f 0);
      if fd <? 0 then printf 1 (line "wc: cannot open %s") [AStr f];; Exit
      else wc fuel fd f;; call (close fd);; wc_files fuel files'
  end.

Definition wc_main (fuel : nat) (argv : list (list Z)) : prog unit :=
  if (length argv <=? 1)%nat then wc fuel 0 [];; Exit
  else wc_files fuel (tail argv);; Exit.

(** ** grep.c *)

(** The inner loop of [grep]: matching lines are written as they are found. *)
Fixpoint grep_scan (fuel : nat) (re p : list Z) : prog (list Z) :=
  match split_nl p with
  | None => Ret p
  | Some (l, r) =>
      match fuel with
      | O => Loop
      | S f => (if match_ re l then call (write 1 (l ++ [ch_nl]));; Ret tt else Ret tt);; grep_scan f re r
      end
  end.

Fixpoint grep_fd (fuel : nat) (re : list Z) (fd : Z) (pend : list Z) : prog unit :=
  '(n, buf) ← call (read fd (Z.of_nat (BUFSZ - length pend - 1)));
  if 0 <? n then
    let data := pend ++ take (Z.to_nat n) buf in
    rest ← grep_scan (length data) re data;
    let pend' := if bool_decide (length rest = length data) then [] else rest in
    match fuel with O => Loop | S f => grep_fd f re fd pend' end
  else Ret tt.

Fixpoint grep_files (fuel : nat) (re : list Z) (files : list (list Z)) : prog unit :=
  match files with
  | [] => Ret tt
  | f :: files' =>
      fd ← call (open f 0);
      if fd <? 0 then printf 1 (line "grep: cannot open %s") [AStr f];; Exit
      else grep_fd fuel re fd [];; call (close fd);; grep_files fuel re files'
  end.

Definition grep_main (fuel : nat) (argv : list (list Z)) : prog unit :=
  match argv with
  | _ :: re :: files =>
      if (length argv <=? 2)%nat then grep_fd fuel re 0 [];; Exit else grep_files fuel re files;; Exit
  | _ => printf 2 (line "usage: grep pattern [file ...]") [];; Exit
  end.

(** ** echo.c, rm.c, mkdir.c, ln.c, kill.c *)

Fixpoint echo_loop (args : list (list Z)) : prog unit :=
  match args with
  | [] => Ret tt
  | a :: args' =>
      printf 1 (bytes_of "%s%s") [AStr a; AStr (if decide (args' = []) then [10] else [32])];;
      echo_loop args'
  end.
Definition echo_main (argv : list (list Z)) : prog unit := echo_loop (tail argv);; Exit.

(** The loop of [rm] and [mkdir]: stop at the first failure. *)
Fixpoint each_path (op : list Z -> sys Z) (msg : list Z) (files : list (list Z)) : prog unit :=
  match files with
  | [] => Ret tt
  | f :: files' =>
      r ← call (op f);
      if r <? 0 then printf 2 msg [AStr f] else each_path op msg files'
  end.

Definition rm_main (argv : list (list Z)) : prog unit :=
  if (length argv <? 2)%nat then printf 2 (line "Usage: rm files...") [];; Exit
  else each_path unlink (line "rm: %s failed to delete") (tail argv);; Exit.

Definition mkdir_main (argv : list (list Z)) : prog unit :=
  if (length argv <? 2)%nat then printf 2 (line "Usage: mkdir files...") [];; Exit
  else each_path mkdir (line "mkdir: %s failed to create") (tail argv);; Exit.

Definition ln_main (argv : list (list Z)) : prog unit :=
  match argv with
  | [_; old; new] =>
      r ← call (link old new);
      (if r <? 0 then printf 2 (line "link %s %s: failed") [AStr old; AStr new] else Ret tt);; Exit
  | _ => printf 2 (line "Usage: ln old new") [];; Exit
  end.

(** [atoi] of ulib.c on the bytes of a string. *)
Fixpoint atoi_l (n : Z) (s : list Z) : Z :=
  match s with
  | c :: s' => if (48 <=? c) && (c <=? 57) then atoi_l (i32 (n * 10 + c - 48)) s' else n
  | [] => n
  end.

Fixpoint kill_loop (args : list (list Z)) : prog unit :=
  match args with
  | [] => Ret tt
  | a :: args' => call (kill (atoi_l 0 a));; kill_loop args'
  end.

Definition kill_main (argv : list (list Z)) : prog unit :=
  if (length argv <? 2)%nat then printf 2 (line "usage: kill pid...") [];; Exit
  else kill_loop (tail argv);; Exit.

(** ** ls.c *)

Definition ls_DIRSIZ : nat := 14.

(** What follows the last slash. *)
Fixpoint after_slash (path : list Z) : list Z :=
  match path with
  | [] => []
  | c :: path' => if bool_decide (47 ∈ path') then after_slash path' else if c =? 47 then path' else path
  end.

Definition fmtname (path : list Z) : list Z :=
  let p := after_slash path in
  if (ls_DIRSIZ <=? length p)%nat then p else p ++ replicate (ls_DIRSIZ - length p) 32.

Definition ls_entry (path : list Z) (st : ustat) : prog unit :=
  printf 1 (line "%s %d %d %d") [AStr (fmtname path); AInt (st_type st); AInt (st_ino st); AInt (st_size st)].

Fixpoint ls_dir (fuel : nat) (path : list Z) (fd : Z) : prog unit :=
  '(n, de) ← call (read fd 16);
  if negb (n =? 16) then Ret tt
  else
    (if nth 0 de 0 + 256 * nth 1 de 0 =? 0 then Ret tt
     else
       let buf := path ++ [47] ++ upto_nul (take ls_DIRSIZ (drop 2 de)) in
       '(r, st) ← stat buf;
       if r <? 0 then printf 1 (line "ls: cannot stat %s") [AStr buf] else ls_entry buf st);;
    match fuel with O => Loop | S f => ls_dir f path fd end.

Definition ls (fuel : nat) (path : list Z) : prog unit :=
  fd ← call (open path 0);
  if fd <? 0 then printf 2 (line "ls: cannot open %s") [AStr path]
  else
    '(r, st) ← call (fstat fd);
    if r <? 0 then printf 2 (line "ls: cannot stat %s") [AStr path];; call (close fd);; Ret tt
    else
      (if st_type st =? 2 then ls_entry path st
       else if st_type st =? 1 then
         if (512 <? length path + 1 + ls_DIRSIZ + 1)%nat then printf 1 (line "ls: path too long") []
         else ls_dir fuel path fd
       else Ret tt);;
      call (close fd);; Ret tt.

Fixpoint ls_files (fuel : nat) (files : list (list Z)) : prog unit :=
  match files with
  | [] => Ret tt
  | f :: files' => ls fuel f;; ls_files fuel files'
  end.

Definition ls_main (fuel : nat) (argv : list (list Z)) : prog unit :=
  if (length argv <? 2)%nat then ls fuel [46];; Exit else ls_files fuel (tail argv);; Exit.

(** ** init.c, zombie.c *)

Definition O_RDWR : Z := 2.
Definition console : list Z := bytes_of "console".
Definition sh_path : list Z := bytes_of "sh".

Fixpoint init_wait (fuel : nat) (pid : Z) : prog unit :=
  wpid ← call wait;
  if (0 <=? wpid) && negb (wpid =? pid) then
    printf 1 (line "zombie!") [];;
    match fuel with O => Loop | S f => init_wait f pid end
  else Ret tt.

Fixpoint init_loop (fuel : nat) : prog unit :=
  printf 1 (line "init: starting sh") [];;
  pid ← call fork;
  if pid <? 0 then printf 1 (line "init: fork failed") [];; Exit
  else if pid =? 0 then
    call (exec sh_path [sh_path]);;
    printf 1 (line "init: exec sh failed") [];; Exit
  else
    match fuel with O => Loop | S f => init_wait f pid;; init_loop f end.

Definition init_main (fuel : nat) : prog unit :=
  fd ← call (open console O_RDWR);
  (if fd <? 0 then call (mknod console 1 1);; call (open console O_RDWR);; Ret tt else Ret tt);;
  call (dup 0);;
  call (dup 0);;
  init_loop fuel.

Definition zombie_main : prog unit :=
  r ← call fork;
  (if 0 <? r then call (sleep 5);; Ret tt else Ret tt);; Exit.

(** ** forktest.c, stressfs.c *)

Definition forktest_N : nat := 1000.

(** forktest.c has its own [printf]. *)
Definition print (fd : Z) (s : list Z) : prog unit := call (write fd s);; Ret tt.

(** Forking until it fails; [n] children so far, [k] left to try. *)
Fixpoint fork_loop (k n : nat) : prog nat :=
  match k with
  | O => Ret n
  | S k' =>
      pid ← call fork;
      if pid <? 0 then Ret n else if pid =? 0 then Exit else fork_loop k' (S n)
  end.

Fixpoint wait_loop (n : nat) : prog unit :=
  match n with
  | O => Ret tt
  | S n' =>
      r ← call wait;
      if r <? 0 then print 1 (line "wait stopped early");; Exit else wait_loop n'
  end.

Definition forktest : prog unit :=
  print 1 (line "fork test");;
  n ← fork_loop forktest_N 0;
  if (n =? forktest_N)%nat then print 1 (line "fork claimed to work N times!");; Exit
  else
    wait_loop n;;
    r ← call wait;
    if negb (r =? -1) then print 1 (line "wait got too many");; Exit
    else print 1 (line "fork test OK").

Definition forktest_main : prog unit := forktest;; Exit.

(** Up to four forks; the result is [i]. *)
Fixpoint stress_fork (k : nat) (i : Z) : prog Z :=
  match k with
  | O => Ret i
  | S k' => r ← call fork; if 0 <? r then Ret i else stress_fork k' (i + 1)
  end.

Fixpoint repeat_call {B} (k : nat) (e : sys B) : prog unit :=
  match k with O => Ret tt | S k' => call e;; repeat_call k' e end.

Definition stressfs_main : prog unit :=
  printf 1 (line "stressfs starting") [];;
  let data := replicate 512 97 in
  i ← stress_fork 4 0;
  printf 1 (line "write %d") [AInt i];;
  let path := bytes_of "stressfs" ++ [u8 (48 + i)] in
  fd ← call (open path (Z.lor 512 2));
  repeat_call 20 (write fd data);;
  call (close fd);;
  printf 1 (line "read") [];;
  fd ← call (open path 0);
  repeat_call 20 (read fd 512);;
  call (close fd);;
  call wait;;
  Exit.

(** * Running the filters *)

(** Files by name, the open descriptors as the bytes still to be read, and
    what was written to descriptors 1 and 2. *)
Record world := World {
  files : list Z -> option (list Z);
  tab : list (option (list Z));
  out1 : list Z;
  out2 : list Z;
  ticks : nat
}.
Definition set_tab (t : list (option (list Z))) (w : world) : world := World (files w) t (out1 w) (out2 w) (S (ticks w)).
Definition add_out (fd : Z) (l : list Z) (w : world) : world :=
  World (files w) (tab w) (if fd =? 1 then out1 w ++ l else out1 w) (if fd =? 2 then out2 w ++ l else out2 w) (ticks w).

Inductive result (A : Type) := RRet (a : A) | RExit | RLoop.
Arguments RRet {A} a.
Arguments RExit {A}.
Arguments RLoop {A}.

Section run.
(** How many bytes a [read] would like to return, by time: any numbers. *)
Variable chunk : nat -> nat.

Definition handle {B} (e : sys B) (w : world) : B * world :=
  match e in sys B return B * world with
  | read fd n =>
      match get_fd (tab w) fd with
      | None => ((-1, []), w)
      | Some l =>
          let k := Nat.min (Z.to_nat n) (Nat.max 1 (chunk (ticks w))) in
          let d := take k l in
          ((Z.of_nat (length d), d), set_tab (<[Z.to_nat fd := Some (drop k l)]> (tab w)) w)
      end
  | write fd l => (Z.of_nat (length l), add_out fd l w)
  | open path _ =>
      match files w path with
      | None => (-1, w)
      | Some l => let fd := free_fd (tab w) in (Z.of_nat fd, set_tab (put_fd (tab w) fd l) w)
      end
  | close fd => (0, set_tab (del_fd (tab w) fd) w)
  | fork => (-1, w)
  | wait => (-1, w)
  | pipe => ((-1, (0, 0)), w)
  | kill _ => (-1, w)
  | exec _ _ => (-1, w)
  | mknod _ _ _ => (-1, w)
  | unlink _ => (-1, w)
  | fstat _ => ((-1, UStat 0 0 0), w)
  | link _ _ => (-1, w)
  | mkdir _ => (-1, w)
  | chdir _ => (-1, w)
  | dup _ => (-1, w)
  | sleep _ => (-1, w)
  end.

Fixpoint run {A} (p : prog A) (w : world) : result A * world :=
  match p with
  | Ret a => (RRet a, w)
  | Exit => (RExit, w)
  | Loop => (RLoop, w)
  | Call e k => let '(b, w') := handle e w in run (k b) w'
  end.

Lemma run_bind {A B} (p : prog A) (f : A -> prog B) w :
  run (p ≫= f) w = match run p w with
    | (RRet a, w') => run (f a) w' | (RExit, w') => (RExit, w') | (RLoop, w') => (RLoop, w') end.
Proof. revert w. induction p as [a| | |C e k IH]; intros w; [done..|]. cbn. destruct (handle e w). apply IH. Qed.

Lemma run_call {B C} (e : sys B) (k : B -> prog C) w : run (call e ≫= k) w = run (k (handle e w).1) (handle e w).2.
Proof. cbn. by destruct (handle e w). Qed.

Lemma run_puts fd l w : run (puts fd l) w = (RRet tt, add_out fd l w).
Proof.
  revert w. induction l as [|c l IH]; intros w; cbn.
  - unfold add_out. rewrite !app_nil_r. by repeat case_match; destruct w.
  - rewrite IH. unfold add_out. cbn. repeat case_match; by rewrite <- ?app_assoc.
Qed.

Lemma read_cases fd n l w : get_fd (tab w) fd = Some l -> 0 < n ->
  exists d r, l = d ++ r /\ (d = [] -> l = []) /\ Z.of_nat (length d) <= n /\
    handle (read fd n) w = ((Z.of_nat (length d), d), set_tab (<[Z.to_nat fd := Some r]> (tab w)) w).
Proof.
  intros Hl Hn. cbn. rewrite Hl. set (k := Nat.min _ _). exists (take k l), (drop k l).
  split; [by rewrite take_drop|]. split; [|split; [rewrite length_take; subst k; lia|done]].
  intros E. destruct l as [|x l]; [done|]. destruct k eqn:Ek; [subst k; lia|done].
Qed.

Lemma get_insert_fd (t : list (option (list Z))) fd l r : get_fd t fd = Some l ->
  get_fd (<[Z.to_nat fd := Some r]> t) fd = Some r.
Proof.
  unfold get_fd. case_match; [done|]. intros H1. rewrite list_lookup_insert_eq; [done|].
  apply lookup_lt_is_Some. destruct (t !! Z.to_nat fd); [eauto|done].
Qed.

(** The world after descriptor [fd] was read to its end and [l] written. *)
Definition drained (fd : Z) (l : list Z) (w w' : world) : Prop :=
  files w' = files w /\ tab w' = <[Z.to_nat fd := Some []]> (tab w) /\ out1 w' = out1 w ++ l /\ out2 w' = out2 w.

Lemma drained_step fd d l r w w' : drained fd l (add_out 1 d (set_tab (<[Z.to_nat fd := Some r]> (tab w)) w)) w' ->
  drained fd (d ++ l) w w'.
Proof.
  intros (F & T & O1 & O2). cbn in *. rewrite list_insert_insert_eq in T. split_and!; try done. by rewrite O1, app_assoc.
Qed.

Lemma drained_read fd l r w w' : drained fd l (set_tab (<[Z.to_nat fd := Some r]> (tab w)) w) w' -> drained fd l w w'.
Proof. intros (F & T & O1 & O2). cbn in *. rewrite list_insert_insert_eq in T. by split_and!. Qed.

Lemma drained_nil fd w : drained fd [] w (set_tab (<[Z.to_nat fd := Some []]> (tab w)) w).
Proof. split_and!; cbn; try done. by rewrite app_nil_r. Qed.

(** ** cat *)

Lemma cat_run fuel fd l w : get_fd (tab w) fd = Some l -> (length l <= fuel)%nat ->
  exists w', run (cat fuel fd) w = (RRet tt, w') /\ drained fd l w w'.
Proof.
  revert l w. induction fuel as [|fuel IH]; intros l w Hl Hf; cbn [cat]; rewrite run_call;
    destruct (read_cases fd 512 l w Hl ltac:(lia)) as (d & r & -> & Hd & Hn & ->); cbn [fst snd];
    rewrite length_app in Hf.
  - destruct d; [|cbn in Hf; lia]. destruct r; [|cbn in Hf; lia]. cbn. eexists. split; [done|]. apply drained_nil.
  - destruct d as [|x d]; [specialize (Hd eq_refl); destruct r; [|done]; cbn; eexists; split; [done|apply drained_nil]|].
    destruct (Z.ltb_spec 0 (Z.of_nat (length (x :: d)))); [|cbn in *; lia]. rewrite run_call.
    rewrite Nat2Z.id, firstn_all. cbn [handle fst snd]. rewrite Z.eqb_refl. cbn [negb].
    destruct (IH r (add_out 1 (x :: d) (set_tab (<[Z.to_nat fd := Some r]> (tab w)) w))) as (w' & Er & Hw');
      [by apply (get_insert_fd _ _ _ _ Hl)|cbn in Hf; lia|].
    exists w'. split; [done|]. by apply drained_step in Hw'.
Qed.

(** What the filters read: the files named, or the standard input. *)
Definition sources (argv : list (list Z)) (w : world) : option (list (list Z)) :=
  if (length argv <=? 1)%nat then l ← get_fd (tab w) 0; Some [l] else mapM (files w) (tail argv).

(** A loop over files that opens, processes and closes each of them. *)
Lemma open_run {A} f l (k : Z -> prog A) w : files w f = Some l ->
  exists fd w', 0 <= fd /\ get_fd (tab w') fd = Some l /\ files w' = files w /\ out1 w' = out1 w /\ out2 w' = out2 w /\
    run (call (open f 0) ≫= k) w = run (k fd) w'.
Proof.
  intros Hf. exists (Z.of_nat (free_fd (tab w))). rewrite run_call. cbn. rewrite Hf. cbn.
  eexists. split; [lia|]. split_and!; [|..|reflexivity]; try done. cbn. apply get_put_fd, free_fd_le.
Qed.

Lemma cat_files_run fuel fs cs w : mapM (files w) fs = Some cs -> Forall (fun c => (length c <= fuel)%nat) cs ->
  exists w', run (cat_files fuel fs) w = (RRet tt, w') /\ out1 w' = out1 w ++ concat cs /\ out2 w' = out2 w.
Proof.
  revert cs w. induction fs as [|f fs IH]; intros cs w Hm HF; cbn [cat_files].
  - injection Hm as <-. exists w. by rewrite app_nil_r.
  - apply mapM_Some in Hm. inversion Hm as [|? c ? cs' Hc Hcs]; subst. apply mapM_Some in Hcs.
    apply Forall_cons in HF as [Hc1 HF].
    destruct (open_run f c (fun fd => if fd <? 0 then printf 1 (line "cat: cannot open %s") [AStr f];; Exit
      else cat fuel fd;; call (close fd);; cat_files fuel fs) w Hc) as (fd & w1 & Hfd & G1 & F1 & O1 & P1 & ->).
    destruct (Z.ltb_spec fd 0); [lia|]. rewrite run_bind.
    destruct (cat_run fuel fd c w1 G1 Hc1) as (w2 & -> & F2 & _ & O2 & P2). rewrite run_call.
    destruct (IH cs' (handle (close fd) w2).2) as (w3 & -> & O3 & P3); [cbn; by rewrite F2, F1|done|].
    exists w3. split; [done|]. rewrite O3, P3. cbn. rewrite O2, P2, O1, P1. by rewrite app_assoc.
Qed.

(** ** wc *)

(** The parts of a text between white space. *)
Fixpoint fields (l : list Z) : list (list Z) :=
  match l with
  | [] => [[]]
  | b :: l' =>
      if bool_decide (b ∈ wc_space) then [] :: fields l'
      else match fields l' with f :: fs => (b :: f) :: fs | [] => [[b]] end
  end.
Definition nonempty (l : list Z) : Prop := l <> [].
#[local] Instance nonempty_dec l : Decision (nonempty l).
Proof. unfold nonempty. apply _. Defined.
Definition words_of (l : list Z) : Z := Z.of_nat (length (filter nonempty (fields l))).
Definition lines_of (l : list Z) : Z := Z.of_nat (length (filter (fun b => b = 10) l)).

Lemma fields_cons l : exists f fs, fields l = f :: fs.
Proof. destruct l as [|b l]; cbn; [eauto|]. case_bool_decide; [eauto|]. destruct (fields l); eauto. Qed.

(** The fold of [wc]: a first part that continues a word is not counted. *)
Lemma wc_fold l s : foldl wc_byte s l = Counts (cl s + lines_of l)
  (cw s + words_of l - (if inword s then match fields l with f :: _ => if decide (nonempty f) then 1 else 0 | [] => 0 end else 0))
  (cc s + Z.of_nat (length l)) (inword (foldl wc_byte s l)).
Proof.
  revert s. induction l as [|b l IH]; intros [a w0 c iw].
  - change (lines_of []) with 0. change (words_of []) with 0. cbn [foldl cl cw cc inword fields length].
    rewrite decide_False by (by intros []). f_equal; try lia. destruct iw; lia.
  - cbn [foldl]. rewrite IH at 1. destruct (fields_cons l) as (f & fs & Ef).
    assert (El : lines_of (b :: l) = (if b =? 10 then 1 else 0) + lines_of l).
    { unfold lines_of. rewrite filter_cons. case_decide; destruct (Z.eqb_spec b 10); try done; cbn [length]; lia. }
    unfold wc_byte. cbn [cl cw cc inword]. rewrite El. unfold words_of. cbn [fields].
    destruct (bool_decide (b ∈ wc_space)) eqn:Eb; cbn [cl cw cc inword]; rewrite Ef.
    + rewrite (filter_cons _ []). rewrite !(decide_False (P := nonempty [])) by (by intros []). f_equal; [| |cbn [length]; lia].
      * destruct (b =? 10); lia.
      * destruct iw; cbn iota; lia.
    + rewrite !filter_cons. rewrite !(decide_True (P := nonempty (b :: f))) by done.
      destruct iw; cbn [negb inword cl cw cc]; (f_equal; [destruct (b =? 10); lia| |cbn [length]; lia]);
        destruct (decide (nonempty f)); cbn [length]; lia.
Qed.

Lemma wc_loop_run fuel fd l s w : get_fd (tab w) fd = Some l -> (length l <= fuel)%nat ->
  exists w', run (wc_loop fuel fd s) w = (RRet (foldl wc_byte s l), w') /\ drained fd [] w w'.
Proof.
  revert l s w. induction fuel as [|fuel IH]; intros l s w Hl Hf; cbn [wc_loop]; rewrite run_call;
    destruct (read_cases fd 512 l w Hl ltac:(lia)) as (d & r & -> & Hd & Hn & ->); cbn [fst snd];
    rewrite length_app in Hf.
  - destruct d; [|cbn in Hf; lia]. destruct r; [|cbn in Hf; lia]. cbn. eexists. split; [done|]. apply drained_nil.
  - destruct d as [|x d]; [specialize (Hd eq_refl); destruct r; [|done]; cbn; eexists; split; [done|apply drained_nil]|].
    destruct (Z.ltb_spec 0 (Z.of_nat (length (x :: d)))); [|cbn in *; lia].
    rewrite Nat2Z.id, firstn_all.
    destruct (IH r (foldl wc_byte s (x :: d)) (set_tab (<[Z.to_nat fd := Some r]> (tab w)) w)) as (w' & Er & Hw');
      [by apply (get_insert_fd _ _ _ _ Hl)|cbn in Hf; lia|].
    exists w'. rewrite foldl_app. split; [done|]. by apply drained_read in Hw'.
Qed.

(** The line that [wc] prints for a text. *)
Definition wc_line (name l : list Z) : list Z :=
  format (line "%d %d %d %s") [AInt (lines_of l); AInt (words_of l); AInt (Z.of_nat (length l)); AStr name].

Lemma wc_run fuel fd name l w : get_fd (tab w) fd = Some l -> (length l <= fuel)%nat ->
  exists w', run (wc fuel fd name) w = (RRet tt, w') /\ drained fd (wc_line name l) w w'.
Proof.
  intros Hl Hf. unfold wc. rewrite run_bind.
  destruct (wc_loop_run fuel fd l (Counts 0 0 0 false) w Hl Hf) as (w' & -> & F & T & O1 & O2).
  unfold printf. rewrite run_puts. eexists. split; [done|]. rewrite wc_fold. cbn [cl cw cc inword].
  rewrite !Z.add_0_l, Z.sub_0_r. refine (conj F (conj T (conj _ O2))).
  unfold wc_line, add_out. cbn [out1 Z.eqb Pos.eqb]. rewrite O1, app_nil_r. reflexivity.
Qed.

Lemma wc_files_run fuel fs cs w : mapM (files w) fs = Some cs -> Forall (fun c => (length c <= fuel)%nat) cs ->
  exists w', run (wc_files fuel fs) w = (RRet tt, w') /\ out1 w' = out1 w ++ concat (zip_with wc_line fs cs) /\ out2 w' = out2 w.
Proof.
  revert cs w. induction fs as [|f fs IH]; intros cs w Hm HF; cbn [wc_files].
  - injection Hm as <-. exists w. by rewrite app_nil_r.
  - apply mapM_Some in Hm. inversion Hm as [|? c ? cs' Hc Hcs]; subst. apply mapM_Some in Hcs.
    apply Forall_cons in HF as [Hc1 HF].
    destruct (open_run f c (fun fd => if fd <? 0 then printf 1 (line "wc: cannot open %s") [AStr f];; Exit
      else wc fuel fd f;; call (close fd);; wc_files fuel fs) w Hc) as (fd & w1 & Hfd & G1 & F1 & O1 & P1 & ->).
    destruct (Z.ltb_spec fd 0); [lia|]. rewrite run_bind.
    destruct (wc_run fuel fd f c w1 G1 Hc1) as (w2 & -> & F2 & _ & O2 & P2). rewrite run_call.
    destruct (IH cs' (handle (close fd) w2).2) as (w3 & -> & O3 & P3); [cbn; by rewrite F2, F1|done|].
    exists w3. split; [done|]. rewrite O3, P3. cbn. rewrite O2, P2, O1, P1. by rewrite app_assoc.
Qed.

(** ** grep *)

Lemma split_nl_length p l r : split_nl p = Some (l, r) -> (length l + S (length r) = length p)%nat.
Proof.
  revert l r. induction p as [|b p IH]; intros l r; cbn; [done|].
  destruct (b =? ch_nl); [intros E; injection E as <- <-; done|]. destruct (b =? 0); [done|].
  destruct (split_nl p) as [[l' r']|]; [|done]. intros E. injection E as <- <-. cbn. specialize (IH l' r' eq_refl). lia.
Qed.

Lemma grep_scan_run fuel re p w : (length p <= fuel)%nat ->
  run (grep_scan fuel re p) w = (RRet (fst (scan fuel re p)), add_out 1 (snd (scan fuel re p)) w).
Proof.
  assert (Hid : forall w, add_out 1 [] w = w) by (intros []; unfold add_out; cbn; by rewrite app_nil_r).
  revert p w. induction fuel as [|fuel IH]; intros p w Hf; cbn [grep_scan scan].
  - destruct p; [|cbn in Hf; lia]. cbn. by rewrite Hid.
  - destruct (split_nl p) as [[l r]|] eqn:Es; [|cbn; by rewrite Hid].
    apply split_nl_length in Es as Hlen.
    rewrite run_bind. destruct (scan fuel re r) as [rest o] eqn:Esc. cbn [fst snd].
    assert (Ew : forall w0, run (grep_scan fuel re r) w0 = (RRet rest, add_out 1 o w0))
      by (intros w0; rewrite IH by lia; by rewrite Esc).
    destruct (match_ re l); cbn [run call mbind prog_bind handle]; rewrite Ew; [|done].
    unfold add_out. cbn. by rewrite <- app_assoc.
Qed.

Lemma scan_length re fuel p : (length (fst (scan fuel re p)) <= length p)%nat.
Proof.
  revert p. induction fuel as [|fuel IH]; intros p; cbn; destruct (split_nl p) as [[l r]|] eqn:Es; cbn; try lia.
  specialize (IH r). destruct (scan fuel re r) as [rest o]. cbn in *. apply split_nl_length in Es. lia.
Qed.

(** When [read] returns all that fits, [grep] is the loop of Grep.v. *)
Lemma grep_fd_run fuel re fd pend l w : (forall t, (BUFSZ <= chunk t)%nat) -> get_fd (tab w) fd = Some l ->
  (length pend < BUFSZ - 1)%nat -> (length l <= fuel)%nat ->
  exists w', run (grep_fd fuel re fd pend) w = (RRet tt, w') /\
    drained fd (grep re pend (file_reads (S fuel) re pend l)) w w'.
Proof.
  intros Hch. revert pend l w. induction fuel as [|fuel IH]; intros pend l w Hl Hp Hf; cbn [grep_fd]; rewrite run_call;
    cbn [handle]; rewrite Hl; rewrite Nat2Z.id;
    (rewrite Nat.min_l by (specialize (Hch (ticks w)); lia)); cbn [fst snd];
    set (k := (BUFSZ - length pend - 1)%nat); cbn [file_reads]; fold k.
  - destruct l; [|cbn in Hf; lia]. rewrite take_nil. cbn. rewrite drop_nil. eexists. split; [done|]. apply drained_nil.
  - destruct (bool_decide_reflect (take k l = [])) as [E|E].
    { assert (l = []) as -> by (destruct l; [done|]; destruct k eqn:Ek; [subst k; lia|done]).
      rewrite take_nil, drop_nil. cbn. eexists. split; [done|]. apply drained_nil. }
    destruct (Z.ltb_spec 0 (Z.of_nat (length (take k l)))); [|destruct (take k l); [done|cbn in *; lia]].
    rewrite Nat2Z.id, firstn_all. rewrite run_bind, grep_scan_run by done.
    set (data := pend ++ take k l). cbn [grep]. unfold round. fold data.
    pose proof (scan_length re (length data) data) as Hsl.
    destruct (scan (length data) re data) as [rest o] eqn:Es. cbn [fst snd] in *.
    assert (Hdl : (length data <= BUFSZ - 1)%nat) by (unfold data; rewrite length_app, length_take; lia).
    destruct (IH (if bool_decide (length rest = length data) then [] else rest) (drop k l)
      (add_out 1 o (set_tab (<[Z.to_nat fd := Some (drop k l)]> (tab w)) w))) as (w' & Er & Hw').
    + by apply (get_insert_fd _ _ _ _ Hl).
    + case_bool_decide; [unfold BUFSZ; cbn; lia|lia].
    + rewrite length_drop. assert (0 < length (take k l))%nat by lia. rewrite length_take in *. lia.
    + exists w'. split; [done|]. apply drained_step in Hw'.
      replace (drop (length (take k l)) l) with (drop k l); [done|].
      rewrite length_take. destruct (Nat.le_ge_cases k (length l)); [by rewrite Nat.min_l|].
      rewrite Nat.min_r, !drop_ge by done. done.
Qed.

Lemma grep_files_run fuel re fs cs w : (forall t, (BUFSZ <= chunk t)%nat) ->
  mapM (files w) fs = Some cs -> Forall (fun c => (length c <= fuel)%nat) cs ->
  Forall (fun c => 0 ∉ c /\ Forall (fun l => (length l < BUFSZ - 1)%nat) (lines c)) cs ->
  exists w', run (grep_files fuel re fs) w = (RRet tt, w') /\
    out1 w' = out1 w ++ concat ((fun c => matching re (lines c)) <$> cs) /\ out2 w' = out2 w.
Proof.
  intros Hch. revert cs w. induction fs as [|f fs IH]; intros cs w Hm HF HT; cbn [grep_files].
  - injection Hm as <-. exists w. by rewrite app_nil_r.
  - apply mapM_Some in Hm. inversion Hm as [|? c ? cs' Hc Hcs]; subst. apply mapM_Some in Hcs.
    apply Forall_cons in HF as [Hc1 HF]. apply Forall_cons in HT as [[Hc0 Hcl] HT].
    destruct (open_run f c (fun fd => if fd <? 0 then printf 1 (line "grep: cannot open %s") [AStr f];; Exit
      else grep_fd fuel re fd [];; call (close fd);; grep_files fuel re fs) w Hc) as (fd & w1 & Hfd & G1 & F1 & O1 & P1 & ->).
    destruct (Z.ltb_spec fd 0); [lia|]. rewrite run_bind.
    destruct (grep_fd_run fuel re fd [] c w1 Hch G1 ltac:(unfold BUFSZ; cbn; lia) Hc1) as (w2 & -> & F2 & _ & O2 & P2).
    rewrite run_call.
    destruct (IH cs' (handle (close fd) w2).2) as (w3 & -> & O3 & P3); [cbn; by rewrite F2, F1|done|done|].
    exists w3. split; [done|]. rewrite O3, P3. cbn [handle snd out1 out2 set_tab]. rewrite O2, P2, O1, P1.
    rewrite grep_file_spec by (try done; try apply not_elem_of_nil; try (unfold BUFSZ; cbn; lia); lia).
    cbn [app fmap list_fmap concat]. by rewrite app_assoc.
Qed.

End run.

(** [cat] writes the contents of the files named, or of its standard
    input, in order and unchanged, however few bytes each [read] returns. *)
Theorem cat_correct chunk argv fuel w cs : sources argv w = Some cs -> Forall (fun c => (length c <= fuel)%nat) cs ->
  exists w', run chunk (cat_main fuel argv) w = (RExit, w') /\ out1 w' = out1 w ++ concat cs /\ out2 w' = out2 w.
Proof.
  unfold sources, cat_main. intros Hs HF. case_match.
  - destruct (get_fd (tab w) 0) as [l|] eqn:El; [|done]. injection Hs as <-. apply Forall_inv in HF.
    rewrite run_bind. destruct (cat_run chunk fuel 0 l w El HF) as (w' & -> & _ & _ & O1 & O2).
    exists w'. split; [done|]. cbn. by rewrite app_nil_r.
  - rewrite run_bind. destruct (cat_files_run chunk fuel _ cs w Hs HF) as (w' & -> & O). by exists w'.
Qed.

(** [wc] prints for each file its lines (newlines), words (the nonempty
    parts between white space) and bytes, whatever the sizes of the reads: a
    word that spans two reads is counted once. *)
Theorem wc_correct chunk argv fuel w cs : sources argv w = Some cs -> Forall (fun c => (length c <= fuel)%nat) cs ->
  let names := if (length argv <=? 1)%nat then [[]] else tail argv in
  exists w', run chunk (wc_main fuel argv) w = (RExit, w') /\
    out1 w' = out1 w ++ concat (zip_with wc_line names cs) /\ out2 w' = out2 w.
Proof.
  unfold sources, wc_main. intros Hs HF. case_match.
  - destruct (get_fd (tab w) 0) as [l|] eqn:El; [|done]. injection Hs as <-. apply Forall_inv in HF.
    rewrite run_bind. destruct (wc_run chunk fuel 0 [] l w El HF) as (w' & -> & _ & _ & O1 & O2).
    exists w'. split; [done|]. cbn [zip_with concat]. by rewrite app_nil_r.
  - rewrite run_bind. destruct (wc_files_run chunk fuel _ cs w Hs HF) as (w' & -> & O). by exists w'.
Qed.

(** The main program of grep prints the matching lines of the files named. *)
Theorem grep_main_correct chunk name re f fs fuel w cs : (forall t, (BUFSZ <= chunk t)%nat) ->
  mapM (files w) (f :: fs) = Some cs -> Forall (fun c => (length c <= fuel)%nat) cs ->
  Forall (fun c => 0 ∉ c /\ Forall (fun l => (length l < BUFSZ - 1)%nat) (lines c)) cs ->
  exists w', run chunk (grep_main fuel (name :: re :: f :: fs)) w = (RExit, w') /\
    out1 w' = out1 w ++ concat ((fun c => matching re (lines c)) <$> cs) /\ out2 w' = out2 w.
Proof.
  intros Hch Hs HF HT. unfold grep_main. cbn [length Nat.leb].
  rewrite run_bind. destruct (grep_files_run chunk fuel re _ cs w Hch Hs HF HT) as (w' & -> & O). by exists w'.
Qed.

Lemma echo_run chunk args w : run chunk (echo_loop args) w =
  (RRet tt, add_out 1 (concat ((fun a => a ++ [32]) <$> removelast args) ++
     match last args with Some a => a ++ [10] | None => [] end) w).
Proof.
  revert w. induction args as [|a args IH]; intros w; cbn [echo_loop].
  - cbn. unfold add_out. cbn. rewrite app_nil_r. by destruct w.
  - rewrite run_bind. unfold printf. rewrite run_puts, IH.
    assert (Ef : forall s, format (bytes_of "%s%s") [AStr a; AStr s] = a ++ s).
    { intros s. change (bytes_of "%s%s") with [37; 115; 37; 115]. unfold format. cbn. by rewrite app_nil_r. }
    rewrite Ef. destruct args as [|b args]; unfold add_out; cbn [Z.eqb Pos.eqb files tab out1 out2 ticks removelast fmap list_fmap concat last].
    + rewrite decide_True by done. cbn. by rewrite app_nil_r.
    + rewrite decide_False by done. cbn [Z.eqb Pos.eqb]. by rewrite <- !app_assoc.
Qed.

(** [echo] prints its arguments separated by blanks, and a newline. *)
Theorem echo_correct chunk name args w : args <> [] ->
  run chunk (echo_main (name :: args)) w =
  (RExit, add_out 1 (concat ((fun a => a ++ [32]) <$> removelast args) ++ List.last args [] ++ [10]) w).
Proof.
  intros Hne. unfold echo_main. cbn [tail]. rewrite run_bind, echo_run. cbn. f_equal.
  destruct args as [|a args] using rev_ind; [done|]. rewrite last_snoc, List.last_last. done.
Qed.

(** ** Examples *)

Definition ex_world : world :=
  World (fun p => if decide (p = [97]) then Some [120; 32; 121; 121; 10; 122] else None) [Some [104; 105]] [] [] 0.

Lemma cat_correct_witness :
  exists w', run (fun _ => 1%nat) (cat_main 6 [[99]; [97]; [97]]) ex_world = (RExit, w') /\
    out1 w' = [120; 32; 121; 121; 10; 122; 120; 32; 121; 121; 10; 122].
Proof.
  destruct (cat_correct (fun _ => 1%nat) [[99]; [97]; [97]] 6 ex_world
    [[120; 32; 121; 121; 10; 122]; [120; 32; 121; 121; 10; 122]]) as (w' & E & O & _); [done|by_decide|].
  exists w'. split; [exact E|exact O].
Defined.

(** "1 3 6 a" *)
Lemma wc_correct_witness :
  exists w', run (fun _ => 2%nat) (wc_main 6 [[119]; [97]]) ex_world = (RExit, w') /\
    out1 w' = [49; 32; 51; 32; 54; 32; 97; 10].
Proof.
  destruct (wc_correct (fun _ => 2%nat) [[119]; [97]] 6 ex_world [[120; 32; 121; 121; 10; 122]])
    as (w' & E & O & _); [done|by_decide|]. exists w'. split; [exact E|]. rewrite O. by vm_compute.
Defined.

Lemma grep_main_correct_witness :
  exists w', run (fun _ => BUFSZ) (grep_main 6 [[103]; [121]; [97]]) ex_world = (RExit, w') /\
    out1 w' = [120; 32; 121; 121; 10].
Proof.
  destruct (grep_main_correct (fun _ => BUFSZ) [103] [121] [97] [] 6 ex_world [[120; 32; 121; 121; 10; 122]])
    as (w' & E & O & _); [done|done|by_decide|by_decide|]. exists w'. split; [exact E|]. rewrite O. by vm_compute.
Defined.

Lemma echo_correct_witness :
  run (fun _ => 1%nat) (echo_main [[101]; [97]; [98]]) ex_world = (RExit, add_out 1 [97; 32; 98; 10] ex_world).
Proof. apply (echo_correct (fun _ => 1%nat) [101] [[97]; [98]] ex_world). done. Defined.
