(* ===== verification/Mkfs.v ===== *)
(** * The image builder (mkfs.c)

    [mkfs] writes the initial disk image: a root directory and one file per
    argument.  The image is the file it writes, a sequence of sectors of one
    block each.  The theorems read the finished image with the eyes of the
    kernel, the predicates of FsBlocks, FsFile and FsDir. *)
From stdpp Require Import functions.
From S2P Require Import Prelude CString Mmu Block Sleeplock Log Buffers LogBuf.
From S2P Require Import Fs FsBlocks FsInode FsFile FsRw FsTrunc FsDir.
#[local] Set Default Proof Using "Type".

Definition NINODES : Z := 200.

Definition nbitmap : Z := FSSIZE / (BSIZE * 8) + 1.
Definition ninodeblocks : Z := NINODES / IPB + 1.
Definition nlog : Z := LOGSIZE.
Definition nmeta : Z := 2 + nlog + ninodeblocks + nbitmap.
Definition nblocks : Z := FSSIZE - nmeta.

(** Conversion to Intel byte order, on a little-endian host: the value whose
    bytes in memory are those assigned. *)
Definition xshort (x : Z) : Z := u8 x + 256 * u8 (Z.shiftr x 8).
Definition xint (x : Z) : Z :=
  u8 x + 256 * u8 (Z.shiftr x 8) + 65536 * u8 (Z.shiftr x 16) + 16777216 * u8 (Z.shiftr x 24).

Definition sb : superblock :=
  Superblock (xint FSSIZE) (xint nblocks) (xint NINODES) (xint nlog) (xint 2) (xint (2 + nlog))
    (xint (2 + nlog + ninodeblocks)).

(** [struct superblock] copied into a block of zeros. *)
Definition encode_sb (x : superblock) : block :=
  put32 (put32 (put32 (put32 (put32 (put32 (put32 zero_block 0 (sb_size x)) 4 (sb_nblocks x))
    8 (sb_ninodes x)) 12 (sb_nlog x)) 16 (sb_logstart x)) 20 (sb_inodestart x)) 24 (sb_bmapstart x).

(** The image file, [len] sectors long, and the two counters. *)
Record mkst := Mkst { img : Z -> block; len : Z; freeinode : Z; freeblock : Z }.
Definition set_img (f : Z -> block) (n : Z) (s : mkst) : mkst := Mkst f n (freeinode s) (freeblock s).
Definition set_freeinode (n : Z) (s : mkst) : mkst := Mkst (img s) (len s) n (freeblock s).
Definition set_freeblock (n : Z) (s : mkst) : mkst := Mkst (img s) (len s) (freeinode s) n.

Definition assert (b : bool) : M mkst unit := if b then mret tt else panic "assert".

(** The sector that seeking to [sec * BSIZE], a [uint], leads to. *)
Definition seek (sec : Z) : Z := u32 (sec * BSIZE) / BSIZE.

Definition wsect (sec : Z) (buf : block) : M mkst unit :=
  modify (fun s => set_img (<[seek sec := buf]> (img s)) (Z.max (len s) (seek sec + 1)) s).

(** Reading at the end of the file gives no bytes, and the program gives up. *)
Definition rsect (sec : Z) : M mkst block :=
  s ← gets id;
  if seek sec <? len s then mret (img s (seek sec)) else panic "read".

(** [struct dinode] is the disk part of the kernel's [inode]. *)
Definition winode (inum : Z) (ip : inode) : M mkst unit :=
  let bn := IBLOCK inum sb in
  buf ← rsect bn;
  wsect bn (store_dinode buf (dinode_off inum) ip).

Definition rinode (inum : Z) : M mkst inode :=
  let bn := IBLOCK inum sb in
  buf ← rsect bn;
  mret (load_dinode buf (dinode_off inum) inode0).

Definition ialloc (type : Z) : M mkst Z :=
  inum ← gets freeinode;
  modify (set_freeinode (u32 (inum + 1)));;
  let din := set_isize (xint 0) (set_inlink (i16 (xshort 1)) (set_itype (i16 (xshort type)) inode0)) in
  winode inum din;;
  mret inum.

(** [freeblock++] *)
Definition next_block : M mkst Z :=
  b ← gets freeblock;
  modify (set_freeblock (u32 (b + 1)));;
  mret b.

Fixpoint mark_loop (n : nat) (i : Z) (buf : block) : block :=
  match n with
  | O => buf
  | S n' => mark_loop n' (i + 1) (put8 buf (i / 8) (Z.lor (get8 buf (i / 8)) (Z.shiftl 1 (i mod 8))))
  end.

Definition balloc (used : Z) : M mkst unit :=
  assert (used <? BSIZE * 8);;
  wsect (sb_bmapstart sb) (mark_loop (Z.to_nat used) 0 zero_block).

(** The block for block [fbn] of the file, and the updated inode. *)
Definition file_block (din : inode) (fbn : Z) : M mkst (Z * inode) :=
  if fbn <? NDIRECT then
    din ← (if xint (iaddr din fbn) =? 0 then
             b ← next_block; mret (set_iaddr fbn (xint b) din)
           else mret din);
    mret (xint (iaddr din fbn), din)
  else
    din ← (if xint (iaddr din NDIRECT) =? 0 then
             b ← next_block; mret (set_iaddr NDIRECT (xint b) din)
           else mret din);
    indirect ← rsect (xint (iaddr din NDIRECT));
    indirect ← (if get32 indirect (4 * (fbn - NDIRECT)) =? 0 then
                  b ← next_block;
                  let indirect := put32 indirect (4 * (fbn - NDIRECT)) (xint b) in
                  wsect (xint (iaddr din NDIRECT)) indirect;;
                  mret indirect
                else mret indirect);
    mret (xint (get32 indirect (4 * (fbn - NDIRECT))), din).

Fixpoint iappend_loop (fuel : nat) (din : inode) (off : Z) (p : list Z) : M mkst (inode * Z) :=
  let n := Z.of_nat (length p) in
  if negb (n >? 0) then mret (din, off) else
  match fuel with
  | O => fun _ _ => NoFuel
  | S fuel' =>
      let fbn := off / BSIZE in
      assert (fbn <? MAXFILE);;
      '(x, din) ← file_block din fbn;
      let n1 := Z.min n (u32 ((fbn + 1) * BSIZE - off)) in
      buf ← rsect x;
      wsect x (splice buf (off - fbn * BSIZE) (take (Z.to_nat n1) p));;
      iappend_loop fuel' din (u32 (off + n1)) (drop (Z.to_nat n1) p)
  end.

Definition iappend (inum : Z) (p : list Z) : M mkst unit :=
  din ← rinode inum;
  '(din, off) ← iappend_loop (length p) din (xint (isize din)) p;
  winode inum (set_isize (xint off) din).

Fixpoint zero_loop (n : nat) (i : Z) : M mkst unit :=
  match n with
  | O => mret tt
  | S n' => wsect i zero_block;; zero_loop n' (i + 1)
  end.

(** An argument: its name, and the results of the reads of the file, until
    the first that returns nothing; [None] when it cannot be opened. *)
Abbreviation arg := (list Z * option (list (list Z)))%type (only parsing).

Fixpoint append_all (inum : Z) (reads : list (list Z)) : M mkst unit :=
  match reads with
  | [] => mret tt
  | buf :: reads' => iappend inum buf;; append_all inum reads'
  end.

Definition ch_underscore : Z := 95.
Definition skip_underscore (name : list Z) : list Z :=
  if hd 0 name =? ch_underscore then tl name else name.

Definition dot : list Z := [46].
Definition dotdot : list Z := [46; 46].

Fixpoint add_files (rootino : Z) (args : list arg) : M mkst unit :=
  match args with
  | [] => mret tt
  | (name, file) :: args' =>
      assert (negb (existsb (Z.eqb ch_slash) name));;
      match file with
      | None => panic "open"
      | Some reads =>
          let name := skip_underscore name in
          inum ← ialloc T_FILE;
          iappend rootino (mk_dirent (xshort inum) name);;
          append_all inum reads;;
          add_files rootino args'
      end
  end.

Definition main (argv : list arg) : M mkst unit :=
  match argv with
  | [] => panic "Usage: mkfs fs.img files..."
  | (_, None) :: _ => panic "open"
  | (_, Some _) :: files =>
      modify (set_freeblock nmeta);;
      zero_loop (Z.to_nat FSSIZE) 0;;
      wsect 1 (encode_sb sb);;
      rootino ← ialloc T_DIR;
      assert (rootino =? ROOTINO);;
      iappend rootino (mk_dirent (xshort rootino) dot);;
      iappend rootino (mk_dirent (xshort rootino) dotdot);;
      add_files rootino files;;
      din ← rinode rootino;
      let off := xint (isize din) in
      let off := u32 ((off / BSIZE + 1) * BSIZE) in
      winode rootino (set_isize (xint off) din);;
      b ← gets freeblock;
      balloc (i32 b)
  end.

(** The program starts on an empty file. *)
Definition start : mkst := Mkst (fun _ => []) 0 1 0.

(** ** The image and the kernel's view of it *)

Lemma xint_id x : is_u32 x -> xint x = x.
Proof. intros Hx. unfold xint. rewrite !Z.shiftr_div_pow2 by lia. wrap_lia. Qed.
Lemma xshort_id x : 0 <= x < 65536 -> xshort x = x.
Proof. intros Hx. unfold xshort. rewrite !Z.shiftr_div_pow2 by lia. wrap_lia. Qed.

Lemma seek_id b : 0 <= b < 1000 -> seek b = b.
Proof. intros Hb. unfold seek, BSIZE. wrap_lia. Qed.

Lemma is_data_iff b : is_data sb b <-> 59 <= b < 1000.
Proof. done. Qed.
Lemma is_bmap_iff b : is_bmap sb b <-> b = 58.
Proof. change (58 <= b < 59 <-> b = 58). lia. Qed.
Lemma bblock_eq b : 0 <= b < 1000 -> BBLOCK b sb = 58.
Proof. intros Hb. apply is_bmap_iff, bblock_bmap. exact Hb. Qed.

(** The inode [i] as the fields of [struct dinode]. *)
Abbreviation dinode i := (with_disk i inode0).

(** [v] is the disk the image will be: the same blocks, but with the bitmap
    that is only written at the end. *)
Record reflects (s : mkst) (v : bview) : Prop := {
  rf_len : len s = 1000;
  rf_fs : fs_ok sb v;
  rf_quiet : quiet v;
  rf_free : 59 <= freeblock s <= 1000;
  rf_used : forall b, 0 <= b < 1000 -> used sb v b = (b <? freeblock s);
  rf_img : forall b, 0 <= b < 1000 -> b <> 58 -> img s b = vdata v b;
  rf_zero : forall b, freeblock s <= b < 1000 -> vdata v b = zero_block
}.

(** What a step keeps of the counters. *)
Definition counters (s s' : mkst) : Prop := freeinode s' = freeinode s /\ freeblock s' = freeblock s.

Section ops.
Implicit Types (s : mkst) (v : bview) (i : inode) (a b bn n off : Z) (c : ctx).

Lemma rsect_wp s v b c Q : reflects s v -> 0 <= b < 1000 -> b <> 58 ->
  Q (vdata v b) c s -> wp (rsect b) c s Q.
Proof.
  intros R Hb Hne HQ. unfold rsect. apply wp_bind, wp_gets. unfold id.
  rewrite seek_id, (rf_len _ _ R) by done. rewrite (proj2 (Z.ltb_lt _ _)) by lia.
  rewrite (rf_img _ _ R) by done. by apply wp_ret.
Qed.

Lemma wsect_wp s v b d c Q : reflects s v -> 0 <= b < freeblock s -> b <> 58 ->
  fs_ok sb (v_upd b d v) ->
  (forall s', reflects s' (v_upd b d v) -> counters s s' -> Q tt c s') -> wp (wsect b d) c s Q.
Proof.
  intros R Hb Hne Hok HQ. pose proof (rf_free _ _ R). apply wp_modify. rewrite seek_id by lia.
  apply HQ; [|done]. constructor; cbn [len img freeblock set_img vdata v_upd]; try done.
  - rewrite (rf_len _ _ R). lia.
  - apply R.
  - intros b' Hb'. rewrite <- (rf_used _ _ R) by done. unfold used. cbn.
    rewrite fn_lookup_insert_ne; [done|]. rewrite bblock_eq by done. done.
  - intros b' Hb' Hne'. destruct (decide (b' = b)) as [->|Hd].
    + by rewrite !fn_lookup_insert.
    + rewrite !fn_lookup_insert_ne by done. by apply (rf_img _ _ R).
  - intros b' Hb'. rewrite fn_lookup_insert_ne by lia. by apply (rf_zero _ _ R).
Qed.

Lemma next_block_wp s v c Q : reflects s v -> freeblock s < 1000 ->
  (forall s', reflects s' (v_alloc sb (freeblock s) v) -> freeinode s' = freeinode s ->
     freeblock s' = freeblock s + 1 -> Q (freeblock s) c s') -> wp next_block c s Q.
Proof.
  intros R Hf HQ. pose proof (rf_free _ _ R). apply wp_bind, wp_gets, wp_bind, wp_modify, wp_ret.
  rewrite u32_small by (unfold is_u32; lia). apply HQ; [|done|done].
  assert (Hd : is_data sb (freeblock s)) by (apply is_data_iff; lia).
  constructor; cbn [len img freeblock set_freeblock]; try (by apply R).
  - apply fs_ok_alloc; [apply R|done|]. change (0 <= freeblock s < 1000). lia.
  - lia.
  - intros b Hb. rewrite used_alloc; [|apply R|done|change (0 <= freeblock s < 1000); lia|exact Hb].
    rewrite (rf_used _ _ R) by done. destruct (Z.eqb_spec b (freeblock s)), (Z.ltb_spec b (freeblock s)),
      (Z.ltb_spec b (freeblock s + 1)); cbn; lia || done.
  - intros b Hb Hne. rewrite (rf_img _ _ R) by done. destruct (decide (b = freeblock s)) as [->|Hd'].
    + rewrite v_alloc_new. apply (rf_zero _ _ R). lia.
    + rewrite v_alloc_data; [done|done|]. rewrite bblock_eq by lia. done.
  - intros b Hb. rewrite v_alloc_data; [apply (rf_zero _ _ R); lia|lia|]. rewrite bblock_eq by lia. lia.
Qed.

Lemma iblock_range n : 0 <= n < 200 -> 32 <= IBLOCK n sb < 58.
Proof. intros Hn. change (32 <= n / 8 + 32 < 58). wrap_lia. Qed.

Lemma rinode_wp s v n c Q : reflects s v -> 0 <= n < 200 -> Q (dinode_of sb v n) c s ->
  wp (rinode n) c s Q.
Proof.
  intros R Hn HQ. pose proof (iblock_range n Hn). unfold rinode. apply wp_bind.
  apply (rsect_wp _ v); [done|lia|lia|]. by apply wp_ret.
Qed.

Lemma winode_wp s v i c Q : reflects s v -> 0 <= inum i < 200 ->
  (forall s', reflects s' (v_iupd sb i v) -> counters s s' -> Q tt c s') ->
  wp (winode (inum i) (dinode i)) c s Q.
Proof.
  intros R Hn HQ. pose proof (iblock_range _ Hn). pose proof (rf_free _ _ R).
  unfold winode. apply wp_bind, (rsect_wp _ v); [done|lia|lia|].
  apply (wsect_wp _ v); [done|lia|lia| |done]. by apply (fs_ok_iupd sb v i); [apply R|].
Qed.

Lemma free_block s v : reflects s v -> freeblock s < 1000 ->
  is_data sb (freeblock s) /\ used sb v (freeblock s) = false.
Proof.
  intros R Hf. pose proof (rf_free _ _ R). split; [apply is_data_iff; lia|].
  rewrite (rf_used _ _ R) by lia. apply Z.ltb_irrefl.
Qed.

Lemma used_free_block s v b : reflects s v -> is_data sb b -> used sb v b = true ->
  59 <= b < freeblock s /\ is_u32 b.
Proof.
  intros R Hd Hu. rewrite is_data_iff in Hd. rewrite (rf_used _ _ R) in Hu by lia.
  apply Z.ltb_lt in Hu. pose proof (rf_free _ _ R). unfold is_u32. lia.
Qed.

(** The blocks that mapping [bn] takes. *)
Definition takes (v : bview) (i : inode) (bn : Z) : Z :=
  if bmap_of v i bn =? 0 then 1 + (if bn <? NDIRECT then 0 else ki i) else 0.

(** The blocks taken are the block found and the indirect block. *)
Definition took (s s' : mkst) (i : inode) (a : Z) (i' : inode) : Prop :=
  (ind i <> 0 -> ind i' = ind i) /\
  (forall b, freeblock s <= b < freeblock s' -> b = a \/ b = ind i').

(** What finding the block of an append does. *)
Definition block_found s v i bn c (Q : Z * inode -> ctx -> mkst -> Prop) : Prop :=
  forall a i' s' v', mapped sb bn i v a i' v' -> reflects s' v' -> freeinode s' = freeinode s ->
    freeblock s' = freeblock s + takes v i bn -> (ind i' = 0 <-> ind i = 0 /\ bn < NDIRECT) ->
    took s s' i a i' -> Q (a, dinode i') c s'.

Lemma direct_block_wp s v i bn c Q : reflects s v -> inode_ok sb v i -> 0 <= bn < NDIRECT ->
  freeblock s + takes v i bn <= 1000 -> block_found s v i bn c Q ->
  wp (file_block (dinode i) bn) c s Q.
Proof.
  intros R Hio Hbn Hfit HQ. unfold file_block. rewrite (proj2 (Z.ltb_lt _ _)) by lia.
  change (iaddr (dinode i) bn) with (iaddr i bn).
  assert (E : bmap_of v i bn = iaddr i bn) by (unfold bmap_of; by rewrite (proj2 (Z.ltb_lt _ _)) by lia).
  unfold takes in Hfit. rewrite (proj2 (Z.ltb_lt _ _)), E in Hfit by lia.
  assert (Hu : iaddr i bn <> 0 -> is_u32 (iaddr i bn)).
  { intros Hz. destruct (io_data _ _ _ Hio (iaddr i bn)) as [Hd Hu]; [|by eapply used_free_block].
    rewrite <- E. apply bmap_of_in; [apply Hio|unfold MAXFILE, NDIRECT, NINDIRECT in *; lia|congruence]. }
  apply wp_bind. destruct (Z.eqb_spec (iaddr i bn) 0) as [E0|E0].
  - rewrite E0. change (xint 0 =? 0) with true. cbv iota. apply wp_bind, (next_block_wp _ v); [done|lia|].
    intros s1 R1 Hi1 Hf1. apply wp_ret, wp_ret. destruct (free_block s v R ltac:(lia)) as [Hd Hf].
    pose proof (rf_free _ _ R). set (a := freeblock s) in *. rewrite (xint_id a) by (unfold is_u32; lia).
    destruct (mapped_direct sb v i a bn (rf_fs _ _ R) (rf_quiet _ _ R) Hio Hd Hf Hbn E0) as [HM Ei].
    change (set_iaddr bn a (dinode i)) with (dinode (set_iaddr bn a i)).
    change (iaddr (dinode (set_iaddr bn a i)) bn) with (iaddr (set_iaddr bn a i) bn).
    rewrite iaddr_set, Z.eqb_refl, xint_id
      by (rewrite ?(io_len _ _ _ Hio); unfold NDIRECT, is_u32 in *; lia).
    apply (HQ a _ s1 _ HM); try done.
    + unfold takes. rewrite E, E0, (proj2 (Z.ltb_lt _ _)) by lia. done.
    + rewrite Ei. tauto.
    + split; [congruence|]. intros b Hb. left. unfold a. lia.
  - rewrite xint_id by auto. rewrite (proj2 (Z.eqb_neq _ 0)) by done. apply wp_ret, wp_ret.
    change (iaddr (dinode i) bn) with (iaddr i bn). rewrite xint_id by auto. rewrite <- E.
    apply (HQ _ i s v); try done;
      [|unfold takes; rewrite E, (proj2 (Z.eqb_neq _ 0)) by done; lia|tauto|split; [done|lia]].
    apply mapped_hit; try apply R; try done; [unfold MAXFILE, NDIRECT, NINDIRECT in *; lia|congruence].
Qed.

(** The part of [file_block] after the indirect block is known. *)
Lemma indirect_slot_wp s v i j c Q : reflects s v -> inode_ok sb v i -> 0 <= j < NINDIRECT ->
  ind i <> 0 -> freeblock s + takes v i (NDIRECT + j) <= 1000 ->
  block_found s v i (NDIRECT + j) c Q ->
  wp (indirect ← rsect (xint (ind i));
      indirect ← (if get32 indirect (4 * j) =? 0 then
                    b ← next_block;
                    let indirect := put32 indirect (4 * j) (xint b) in
                    wsect (xint (ind i)) indirect;;
                    mret indirect
                  else mret indirect);
      mret (xint (get32 indirect (4 * j)), dinode i)) c s Q.
Proof.
  intros R Hio Hj Hi Hfit HQ. pose proof (rf_free _ _ R).
  destruct (io_data _ _ _ Hio (ind i)) as [Hdi Hui]; [apply ind_in; [apply Hio|done]|].
  destruct (used_free_block _ _ _ R Hdi Hui) as [Hri Hu32]. rewrite (xint_id (ind i)) by done.
  pose proof (bmap_of_ind v i j Hi Hj) as E. unfold takes in Hfit.
  rewrite (proj2 (Z.ltb_ge (NDIRECT + j) NDIRECT)), E in Hfit by lia.
  assert (Eki : ki i = 0) by (unfold ki; by rewrite (proj2 (Z.eqb_neq _ 0))). rewrite Eki in Hfit.
  assert (Hwf : block_wf (vdata v (ind i))).
  { apply (fo_wf _ _ (rf_fs _ _ R)), (data_home sb); [apply R|done]. }
  pose proof (get32_range _ (4 * j) Hwf) as Hg.
  apply wp_bind, (rsect_wp _ v); [done|lia|lia|]. apply wp_bind.
  destruct (Z.eqb_spec (get32 (vdata v (ind i)) (4 * j)) 0) as [E0|E0].
  - apply wp_bind, (next_block_wp _ v); [done|lia|]. intros s1 R1 Hi1 Hf1. cbv zeta.
    destruct (free_block s v R ltac:(lia)) as [Hd Hf]. set (a := freeblock s) in *.
    rewrite (xint_id a) by (unfold is_u32; lia).
    pose proof (mapped_indirect sb v i a j (rf_fs _ _ R) (rf_quiet _ _ R) Hio Hd Hf Hi Hj E0) as HM.
    apply wp_bind, (wsect_wp _ (v_alloc sb a v)); [done|lia|lia|apply HM|].
    intros s2 R2 [Hi2 Hf2]. apply wp_ret, wp_ret.
    destruct Hwf as [Hl _]. unfold NINDIRECT, BSIZE in *.
    rewrite get32_put32, Z.eqb_refl, u32_small, xint_id by (unfold is_u32; lia).
    apply (HQ a i s2 _ HM); try done; [congruence| | |].
    + unfold takes. rewrite E, E0, (proj2 (Z.ltb_ge (NDIRECT + j) NDIRECT)), Eki by lia. cbn [Z.eqb]. lia.
    + split; [done|]. unfold NDIRECT. lia.
    + split; [done|]. intros b Hb. left. unfold a. lia.
  - apply wp_ret, wp_ret. rewrite xint_id by done. rewrite <- E.
    apply (HQ _ i s v); try done.
    + apply mapped_hit; try apply R; try done; [unfold MAXFILE, NDIRECT, NINDIRECT in *; lia|congruence].
    + unfold takes. rewrite E, (proj2 (Z.eqb_neq _ 0)) by done. lia.
    + split; [done|]. unfold NDIRECT. lia.
    + split; [done|lia].
Qed.

Lemma file_block_wp s v i bn c Q : reflects s v -> inode_ok sb v i -> 0 <= bn < MAXFILE ->
  freeblock s + takes v i bn <= 1000 -> block_found s v i bn c Q ->
  wp (file_block (dinode i) bn) c s Q.
Proof.
  intros R Hio Hbn Hfit HQ. destruct (Z.lt_ge_cases bn NDIRECT) as [Hd|Hd].
  { apply (direct_block_wp s v); try done. lia. }
  unfold file_block. rewrite (proj2 (Z.ltb_ge _ _)) by lia. change (iaddr (dinode i) NDIRECT) with (ind i).
  unfold MAXFILE in Hbn. set (j := bn - NDIRECT).
  replace bn with (NDIRECT + j) in HQ, Hfit by (unfold j; lia).
  assert (Hj : 0 <= j < NINDIRECT) by (unfold j; lia). apply wp_bind.
  destruct (Z.eqb_spec (ind i) 0) as [E0|E0].
  - rewrite E0. change (xint 0 =? 0) with true. cbv iota.
    assert (Hbz : bmap_of v i (NDIRECT + j) = 0).
    { unfold bmap_of. rewrite (proj2 (Z.ltb_ge _ _)) by lia. unfold ind_addrs. rewrite E0.
      by destruct (Z.to_nat (NDIRECT + j - NDIRECT)). }
    assert (Et : takes v i (NDIRECT + j) = 2).
    { unfold takes. rewrite Hbz, (proj2 (Z.ltb_ge (NDIRECT + j) NDIRECT)) by lia. unfold ki. by rewrite E0. }
    rewrite Et in Hfit. apply wp_bind, (next_block_wp _ v); [done|lia|].
    intros s1 R1 Hi1 Hf1. destruct (free_block s v R ltac:(lia)) as [Hda Hf].
    pose proof (rf_free _ _ R). set (b0 := freeblock s) in *. rewrite (xint_id b0) by (unfold is_u32; lia).
    pose proof (grow_slot sb v i b0 NDIRECT (rf_fs _ _ R) (rf_quiet _ _ R) Hio Hda Hf
      ltac:(unfold NDIRECT; lia) E0) as G.
    set (i1 := set_iaddr NDIRECT b0 i) in *. change (set_iaddr NDIRECT b0 (dinode i)) with (dinode i1).
    assert (Ei1 : ind i1 = b0).
    { unfold ind, i1. rewrite iaddr_set; [by rewrite Z.eqb_refl|unfold NDIRECT; lia|].
      rewrite (io_len _ _ _ Hio). unfold NDIRECT. lia. }
    assert (Hsame : forall bn', 0 <= bn' -> bmap_of (v_alloc sb b0 v) i1 bn' = bmap_of v i bn').
    { intros. apply bmap_of_newind; [apply Hio|done|lia|done]. }
    assert (Et1 : takes (v_alloc sb b0 v) i1 (NDIRECT + j) = 1).
    { unfold takes. rewrite Hsame, Hbz, (proj2 (Z.ltb_ge (NDIRECT + j) NDIRECT)) by (unfold NDIRECT; lia).
      unfold ki. by rewrite Ei1, (proj2 (Z.eqb_neq b0 0)) by lia. }
    apply wp_ret. apply (indirect_slot_wp s1 (v_alloc sb b0 v) i1 j); try done.
    + by eapply grown_ok.
    + rewrite Ei1. lia.
    + rewrite Et1. lia.
    + intros a i' s' v' HM R' Hi' Hf' Hind [Ht1 Ht2]. specialize (Ht1 ltac:(rewrite Ei1; lia)).
      apply (HQ a i' s' v'); try done; [|congruence|lia| |].
      * eapply mapped_after_ind; [exact G|done|done|done|done|unfold NDIRECT; lia|done].
      * rewrite Hind, Ei1. unfold NDIRECT. lia.
      * split; [done|]. intros b Hb. destruct (decide (b = b0)) as [->|Hne]; [right; congruence|].
        apply Ht2. unfold b0 in *. lia.
  - destruct (io_data _ _ _ Hio (ind i)) as [Hdi Hui]; [apply ind_in; [apply Hio|done]|].
    destruct (used_free_block _ _ _ R Hdi Hui) as [_ Hu32].
    rewrite xint_id, (proj2 (Z.eqb_neq _ 0)) by done. apply wp_ret.
    by apply (indirect_slot_wp s v i j).
Qed.
End ops.

(** ** Appending *)

(** A file of [n] bytes holds just the blocks it needs, the rest of the last
    one is zero. *)
Record exact (v : bview) (i : inode) (n : Z) : Prop := {
  ex_map : forall bn, 0 <= bn < MAXFILE -> bmap_of v i bn <> 0 <-> bn * BSIZE < n;
  ex_ind : ind i <> 0 <-> NDIRECT * BSIZE < n;
  ex_tail : forall q, 0 <= q -> n <= q < MAXFILE * BSIZE -> bmap_of v i (q / BSIZE) <> 0 -> byte_at v i q = 0
}.

(** The blocks a file of [n] bytes takes, the indirect block included. *)
Definition dblocks (n : Z) : Z := (n + 511) / BSIZE.
Definition fblocks (n : Z) : Z := dblocks n + (if NDIRECT <? dblocks n then 1 else 0).

Lemma fblocks_step off m : 0 <= off -> 0 < m -> off mod BSIZE + m <= BSIZE ->
  fblocks (off + m) - fblocks off =
  if off mod BSIZE =? 0 then 1 + (if off / BSIZE =? NDIRECT then 1 else 0) else 0.
Proof.
  intros Ho Hm Hfit. unfold fblocks, dblocks, NDIRECT, BSIZE in *.
  assert (E : (off + m + 511) / 512 = off / 512 + 1) by (Z.div_mod_to_equations; lia). rewrite E.
  destruct (Z.eqb_spec (off mod 512) 0) as [E0|E0].
  - assert ((off + 511) / 512 = off / 512) as -> by (Z.div_mod_to_equations; lia).
    destruct (Z.ltb_spec 12 (off / 512 + 1)), (Z.ltb_spec 12 (off / 512)), (Z.eqb_spec (off / 512) 12); lia.
  - assert ((off + 511) / 512 = off / 512 + 1) as -> by (Z.div_mod_to_equations; lia). lia.
Qed.

Lemma takes_exact v i off : exact v i off -> 0 <= off < MAXFILE * BSIZE ->
  takes v i (off / BSIZE) =
  if off mod BSIZE =? 0 then 1 + (if off / BSIZE =? NDIRECT then 1 else 0) else 0.
Proof.
  intros [E1 E2 _] Ho. unfold takes, ki, MAXFILE, NDIRECT, NINDIRECT, BSIZE in *.
  assert (Hb : 0 <= off / 512 < 140) by (Z.div_mod_to_equations; lia). specialize (E1 _ Hb).
  destruct (Z.eqb_spec (bmap_of v i (off / 512)) 0), (Z.eqb_spec (off mod 512) 0),
    (Z.ltb_spec (off / 512) 12), (Z.eqb_spec (off / 512) 12), (Z.eqb_spec (ind i) 0);
    try (Z.div_mod_to_equations; lia).
Qed.

Lemma get8_zero q : get8 zero_block q = 0.
Proof.
  unfold get8, zero_block. rewrite nth_lookup. destruct (replicate 512 0 !! Z.to_nat q) eqn:E; [|done].
  by apply lookup_replicate in E as [-> _].
Qed.

(** A chunk stored in the block found for it. *)
Lemma exact_chunk v i off src a i1 v1 : fs_ok sb v -> inode_ok sb v i -> exact v i off ->
  mapped sb (off / BSIZE) i v a i1 v1 -> (ind i1 = 0 <-> ind i = 0 /\ off / BSIZE < NDIRECT) ->
  0 <= off -> off / BSIZE < MAXFILE -> 0 < Z.of_nat (length src) ->
  off mod BSIZE + Z.of_nat (length src) <= BSIZE -> Forall is_u8 src ->
  exact (v_upd a (splice (vdata v1 a) (off mod BSIZE) src) v1) i1 (off + Z.of_nat (length src)).
Proof.
  intros Hok Hio [E1 E2 E3] HM Hind Ho Hbn Hlen Hfit HF.
  destruct (written_chunk sb v i off src a i1 v1) as [W Ebm]; try done. cbv zeta in Ebm.
  set (v2 := v_upd a _ v1) in *. set (bn := off / BSIZE) in *. set (m := Z.of_nat (length src)) in *.
  assert (Hbq : 0 <= bn /\ bn * BSIZE <= off /\ off = bn * BSIZE + off mod BSIZE /\ 0 <= off mod BSIZE).
  { unfold bn, BSIZE in *. Z.div_mod_to_equations. lia. }
  destruct (data_range sb v1 a (fo_sb _ _ (mp_fs _ _ _ _ _ _ _ HM)) (mp_data _ _ _ _ _ _ _ HM)) as [_ Hna].
  assert (Eat : bmap_of v2 i1 bn = a) by (rewrite Ebm; apply HM).
  assert (Hmap : forall bn', 0 <= bn' < MAXFILE -> bmap_of v2 i1 bn' <> 0 <-> bn' * BSIZE < off + m).
  { intros bn' Hb'. destruct (decide (bn' = bn)) as [->|Hne].
    - rewrite Eat. split; [lia|done].
    - rewrite Ebm, (mp_other _ _ _ _ _ _ _ HM) by done. rewrite E1 by done. unfold BSIZE in *. lia. }
  constructor; [exact Hmap| |].
  - destruct (decide (ind i1 = 0)) as [Ei|Ei].
    + rewrite Ei. apply Hind in Ei as [Ei Hlt]. unfold NDIRECT, BSIZE in *. lia.
    + split; [|done]. intros _.
      destruct (Z.lt_ge_cases bn NDIRECT); [|unfold NDIRECT, BSIZE in *; lia].
      assert (ind i <> 0) as Hi0 by tauto. apply E2 in Hi0. lia.
  - intros q Hq0 Hq Hz. rewrite Hmap in Hz by (unfold MAXFILE, NDIRECT, NINDIRECT, BSIZE in *; Z.div_mod_to_equations; lia).
    assert (Eq : q / BSIZE = bn) by (unfold BSIZE in *; Z.div_mod_to_equations; lia).
    destruct (decide (bmap_of v i bn = 0)) as [E0|E0].
    + destruct (mp_new _ _ _ _ _ _ _ HM E0) as [_ Ez]. unfold byte_at. rewrite Eq, Eat.
      unfold v2. cbn [vdata v_upd]. rewrite fn_lookup_insert, Ez.
      assert (Hl : length zero_block = 512%nat) by done.
      rewrite get8_splice by (rewrite ?Hl; unfold BSIZE in *; Z.div_mod_to_equations; lia).
      unfold in_range. fold m.
      rewrite (proj2 (Z.ltb_ge (q mod BSIZE) _)) by (unfold BSIZE in *; Z.div_mod_to_equations; lia).
      rewrite andb_false_r. apply get8_zero.
    + destruct (wr_out _ _ _ _ _ _ _ W q) as [_ ->]; [lia|fold m; lia|by rewrite Eq|].
      apply E3; [done|lia|by rewrite Eq].
Qed.

(** The blocks of an inode. *)
Lemma in_iblocks v i b : length (iaddrs i) = 13%nat ->
  b ∈ iblocks v i <-> b <> 0 /\ (b = ind i \/ exists bn, 0 <= bn < MAXFILE /\ bmap_of v i bn = b).
Proof.
  intros Hl. split.
  - intros Hb. apply list_elem_of_filter in Hb as [Hz Hb]. split; [done|].
    apply elem_of_app in Hb as [Hb|Hb]; apply list_elem_of_lookup in Hb as [k Hk];
      pose proof (lookup_lt_Some _ _ _ Hk) as Hlt.
    + destruct (decide (k = 12%nat)) as [->|Hne].
      * left. unfold ind, iaddr. rewrite nth_lookup. change (Z.to_nat NDIRECT) with 12%nat. by rewrite Hk.
      * right. exists (Z.of_nat k). unfold MAXFILE, NDIRECT, NINDIRECT. split; [lia|].
        unfold bmap_of, iaddr, NDIRECT. rewrite (proj2 (Z.ltb_lt _ _)) by lia.
        by rewrite nth_lookup, Nat2Z.id, Hk.
    + assert (length (ind_addrs v i) <= 128)%nat.
      { unfold ind_addrs. destruct (ind i =? 0); [simpl; lia|]. rewrite length_get_addrs. lia. }
      right. exists (NDIRECT + Z.of_nat k). unfold MAXFILE, NINDIRECT. split; [unfold NDIRECT; lia|].
      unfold bmap_of. rewrite (proj2 (Z.ltb_ge _ _)) by lia.
      replace (NDIRECT + Z.of_nat k - NDIRECT) with (Z.of_nat k) by lia.
      by rewrite nth_lookup, Nat2Z.id, Hk.
  - intros [Hz [->|(bn & Hbn & <-)]]; [by apply ind_in|by apply bmap_of_in].
Qed.

(** The inode keeps its blocks and holds all those taken since [s]. *)
Definition owns (s s' : mkst) (v v' : bview) (i i' : inode) : Prop :=
  forall b, b ∈ iblocks v i \/ freeblock s <= b < freeblock s' -> b ∈ iblocks v' i'.

Lemma owns_chunk s s' v v' v2 i i' bn a : 0 <= bn < MAXFILE -> inode_ok sb v i ->
  mapped sb bn i v a i' v' -> took s s' i a i' -> 59 <= freeblock s ->
  (forall bn', bmap_of v2 i' bn' = bmap_of v' i' bn') -> owns s s' v v2 i i'.
Proof.
  intros Hbn Hio HM [Ht1 Ht2] H59 E b Hb. pose proof (io_len _ _ _ (mp_ok _ _ _ _ _ _ _ HM)) as Hl.
  apply in_iblocks; [done|]. destruct Hb as [Hb|Hb].
  - apply in_iblocks in Hb as [Hz Hb]; [|apply Hio]. split; [done|].
    destruct Hb as [->|(bn' & Hbn' & Hb)]; [left; symmetry; by apply Ht1|right].
    exists bn'. split; [done|]. rewrite E. destruct (decide (bn' = bn)) as [->|Hne].
    + destruct (mp_old _ _ _ _ _ _ _ HM) as (_ & -> & ->); [congruence|done].
    + by rewrite (mp_other _ _ _ _ _ _ _ HM).
  - split; [lia|]. apply Ht2 in Hb as [->| ->]; [right|by left].
    exists bn. split; [done|]. rewrite E. apply HM.
Qed.

Lemma iappend_loop_wp fuel : forall p s v i off c (Q : inode * Z -> ctx -> mkst -> Prop),
  reflects s v -> inode_ok sb v i -> exact v i off -> 0 <= off ->
  let n := Z.of_nat (length p) in
  off + n <= MAXFILE * BSIZE -> Forall is_u8 p -> (length p <= fuel)%nat ->
  freeblock s + (fblocks (off + n) - fblocks off) <= 1000 ->
  (forall i' s' v', written sb i v off p i' v' -> reflects s' v' -> exact v' i' (off + n) ->
     freeinode s' = freeinode s -> freeblock s' = freeblock s + (fblocks (off + n) - fblocks off) ->
     owns s s' v v' i i' -> Q (dinode i', off + n) c s') ->
  wp (iappend_loop fuel (dinode i) off p) c s Q.
Proof.
  induction fuel as [|fuel IH]; intros p s v i off c Q R Hio Hex Ho n Hmax HF Hfu Hfit HQ.
  - destruct p; [|simpl in Hfu; lia]. cbn [iappend_loop length Z.of_nat] in *. apply wp_ret.
    unfold n in *. rewrite Z.add_0_r in *. apply (HQ i s v); try done; [|lia|intros b [?|?]; [done|lia]]. apply written_nil; [apply R|done|apply R].
  - cbn [iappend_loop]. fold n. destruct (Z.gtb_spec n 0) as [Hn|Hn]; cbn [negb]; cycle 1.
    { apply wp_ret. destruct p; [|unfold n in Hn; simpl in Hn; lia]. unfold n in *. cbn [length Z.of_nat] in *.
      rewrite Z.add_0_r in *. apply (HQ i s v); try done; [|lia|intros b [?|?]; [done|lia]]. apply written_nil; [apply R|done|apply R]. }
    assert (Hbn : 0 <= off / BSIZE < MAXFILE).
    { unfold MAXFILE, NDIRECT, NINDIRECT, BSIZE in *. Z.div_mod_to_equations. lia. }
    unfold assert. rewrite (proj2 (Z.ltb_lt (off / BSIZE) MAXFILE)) by lia. apply wp_bind, wp_ret, wp_bind.
    set (n1 := Z.min n (u32 ((off / BSIZE + 1) * BSIZE - off))).
    assert (En1 : n1 = Z.min n (BSIZE - off mod BSIZE)).
    { unfold n1. f_equal. unfold MAXFILE, NDIRECT, NINDIRECT, BSIZE in *. wrap_lia. }
    destruct (nblk_step off n n1 Ho Hn En1) as (H1 & H2 & _).
    pose proof (fblocks_step off n1 Ho ltac:(lia) H2) as Hst.
    rewrite <- (takes_exact v i off Hex) in Hst by lia.
    assert (Hmono : fblocks (off + n1) <= fblocks (off + n)).
    { unfold fblocks, dblocks, NDIRECT, BSIZE in *.
      assert ((off + n1 + 511) / 512 <= (off + n + 511) / 512) by (apply Z.div_le_mono; lia).
      destruct (Z.ltb_spec 12 ((off + n1 + 511) / 512)), (Z.ltb_spec 12 ((off + n + 511) / 512)); lia. }
    apply (file_block_wp s v); try done; [lia|].
    intros a i1 s1 v1 HM R1 Hi1 Hf1 Hind Htk. apply wp_bind.
    destruct (data_range sb v1 a (fo_sb _ _ (rf_fs _ _ R1)) (mp_data _ _ _ _ _ _ _ HM)) as [_ Hna].
    assert (Hin : a ∈ iblocks v1 i1).
    { rewrite <- (mp_at _ _ _ _ _ _ _ HM). apply bmap_of_in; [apply HM|done|].
      by rewrite (mp_at _ _ _ _ _ _ _ HM). }
    apply (io_data _ _ _ (mp_ok _ _ _ _ _ _ _ HM)) in Hin as [Hda Hua].
    destruct (used_free_block s1 v1 a R1 Hda Hua) as [Hra _].
    pose proof (rf_free _ _ R1). apply (rsect_wp s1 v1); [done|lia|lia|].
    set (src := take (Z.to_nat n1) p).
    assert (Hls : Z.of_nat (length src) = n1) by (unfold src; rewrite length_take; unfold n in *; lia).
    assert (HFs : Forall is_u8 src) by by apply Forall_take.
    replace (off - off / BSIZE * BSIZE) with (off mod BSIZE) by (unfold BSIZE; Z.div_mod_to_equations; lia).
    destruct (written_chunk sb v i off src a i1 v1) as [W Ebm]; try done; try (apply R); try lia.
    cbv zeta in W, Ebm.
    pose proof (exact_chunk v i off src a i1 v1 (rf_fs _ _ R) Hio Hex HM Hind Ho ltac:(lia) ltac:(lia)
      ltac:(lia) HFs) as Hex2.
    pose proof (rf_free _ _ R).
    pose proof (owns_chunk s s1 v v1 _ i i1 (off / BSIZE) a Hbn Hio HM Htk ltac:(lia) Ebm) as Howns.
    apply wp_bind, (wsect_wp s1 v1); [done|lia|lia|apply W|]. intros s2 R2 [Hi2 Hf2].
    assert (Hu : u32 (off + n1) = off + n1).
    { apply u32_small. unfold is_u32, MAXFILE, NDIRECT, NINDIRECT, BSIZE in *. lia. }
    rewrite Hu. rewrite Hls in *.
    assert (Hld : Z.of_nat (length (drop (Z.to_nat n1) p)) = n - n1) by (rewrite length_drop; unfold n; lia).
    eapply (IH _ s2 _ i1); [exact R2|apply W|exact Hex2|lia|rewrite Hld; lia|by apply Forall_drop| | |].
    + rewrite length_drop. lia.
    + rewrite Hld. replace (off + n1 + (n - n1)) with (off + n) by lia. lia.
    + rewrite Hld. replace (off + n1 + (n - n1)) with (off + n) by lia.
      intros i' s' v' W' R' Hex' Hi' Hf' Hown. apply (HQ i' s' v'); try done; [|congruence|lia|].
      2: { intros b Hb. apply Hown. destruct (Z.lt_ge_cases b (freeblock s2)); [left|].
           - apply Howns. rewrite <- Hf2. destruct Hb; [by left|right; lia].
           - destruct Hb as [Hb|Hb]; [left; by apply Howns; left|right; lia]. }
      rewrite <- (take_drop (Z.to_nat n1) p). fold src.
      apply (written_app sb v i off src i1 (v_upd a (splice (vdata v1 a) (off mod BSIZE) src) v1));
        try done; [lia|by rewrite Hls].
Qed.

(** ** The volume under construction *)

Lemma exact_same v v' i n : exact v i n -> (forall bn, bmap_of v' i bn = bmap_of v i bn) ->
  (forall q, 0 <= q < MAXFILE * BSIZE -> bmap_of v i (q / BSIZE) <> 0 -> byte_at v' i q = byte_at v i q) ->
  exact v' i n.
Proof.
  intros [E1 E2 E3] Ebm Eby. constructor; [|done|].
  - intros bn Hbn. rewrite Ebm. by apply E1.
  - intros q Hq0 Hq Hz. rewrite Ebm in Hz. rewrite Eby by (done || lia). by apply E3.
Qed.

(** A file whose blocks did not change is the same file. *)
Lemma file_keep v v' i : file_ok sb v i ->
  (forall b, b ∈ iblocks v i -> vdata v' b = vdata v b /\ used sb v' b = true) ->
  file_ok sb v' i /\ iblocks v' i = iblocks v i /\ file_bytes v' i = file_bytes v i /\
  (forall n, exact v i n -> exact v' i n).
Proof.
  intros F Hk. pose proof (fl_inode _ _ _ F) as Hio. pose proof (io_len _ _ _ Hio) as Hl.
  assert (Eia : ind_addrs v' i = ind_addrs v i).
  { destruct (decide (ind i = 0)) as [E|E]; [unfold ind_addrs; by rewrite E|].
    apply ind_addrs_keep, Hk. by apply ind_in. }
  assert (Ebm : forall bn, bmap_of v' i bn = bmap_of v i bn) by (intros bn; unfold bmap_of; by rewrite Eia).
  assert (Eib : iblocks v' i = iblocks v i) by (unfold iblocks, all_addrs; by rewrite Eia).
  assert (Eby : forall q, 0 <= q < MAXFILE * BSIZE -> bmap_of v i (q / BSIZE) <> 0 ->
    byte_at v' i q = byte_at v i q).
  { intros q Hq Hz. unfold byte_at. rewrite Ebm. f_equal. apply Hk, bmap_of_in; [done| |done].
    unfold MAXFILE, NDIRECT, NINDIRECT, BSIZE in *. Z.div_mod_to_equations. lia. }
  split_and!; [|done| |].
  - destruct F as [_ F2 F3 F4 F5 F6]. constructor; try done.
    + constructor; rewrite ?Eib; [done|apply Hio|]. intros b Hb.
      split; [by apply (io_data _ _ _ Hio)|by apply Hk].
    + intros bn. rewrite Ebm. apply F6.
  - unfold file_bytes, file_at. apply list_fmap_ext. intros k q Hq. apply lookup_seqZ in Hq as [-> Hq].
    pose proof (fl_size _ _ _ F). apply Eby; [lia|]. by apply (bn_range sb v i); [|lia].
  - intros n Hex. by apply (exact_same v).
Qed.

(** A file as the builder means it: its type and its bytes. *)
Abbreviation mkfile := (Z * list Z)%type (only parsing).
Definition fsize (f : mkfile) : Z := Z.of_nat (length f.2).
Definition total (fs : list mkfile) : Z := foldr (fun f n => fblocks (fsize f) + n) 0 fs.

(** The files fit the image. *)
Definition fits (fs : list mkfile) : Prop :=
  nmeta + total fs <= FSSIZE /\ Z.of_nat (length fs) < NINODES /\
  Forall (fun f => fsize f <= MAXFILE * BSIZE) fs.

(** Inode [n] of the disk, in memory as [i], is the file [f]. *)
Record stored (v : bview) (n : Z) (i : inode) (f : mkfile) : Prop := {
  sd_inum : inum i = n;
  sd_mem : idev i = 1 /\ iref i = 1 /\ islp i = initsleeplock /\ ivalid i = true;
  sd_type : itype i = f.1;
  sd_nlink : inlink i = 1;
  sd_ok : file_ok sb v i;
  sd_exact : exact v i (isize i);
  sd_disk : dinode_of sb v n = dinode i;
  sd_bytes : file_bytes v i = f.2
}.

(** The blocks before the inodes: the super block and an empty log. *)
Definition low_block (b : Z) : block := if b =? 1 then encode_sb sb else zero_block.

Record volume (s : mkst) (v : bview) (nodes : list inode) (fs : list mkfile) : Prop := {
  vo_rf : reflects s v;
  vo_next : freeinode s = 1 + Z.of_nat (length fs);
  vo_count : freeblock s = nmeta + total fs;
  vo_max : Z.of_nat (length fs) < NINODES;
  vo_files : forall k i, nodes !! k = Some i ->
    exists f, fs !! k = Some f /\ stored v (1 + Z.of_nat k) i f;
  vo_len : length nodes = length fs;
  vo_disj : forall j k i i' b, nodes !! j = Some i -> nodes !! k = Some i' -> j <> k ->
    b ∈ iblocks v i -> b ∉ iblocks v i';
  vo_own : forall b, 59 <= b < freeblock s -> exists k i, nodes !! k = Some i /\ b ∈ iblocks v i;
  vo_rest : forall n, n = 0 \/ Z.of_nat (length fs) < n < 200 -> dinode_of sb v n = inode0;
  vo_low : forall b, 0 <= b < 32 -> vdata v b = low_block b
}.

Lemma stored_size v n i f : stored v n i f -> isize i = fsize f.
Proof.
  intros S. unfold fsize. rewrite <- (sd_bytes _ _ _ _ S). unfold file_bytes.
  pose proof (fl_size _ _ _ (sd_ok _ _ _ _ S)). rewrite length_file_at by lia. lia.
Qed.

Lemma total_insert fs k f f' : fs !! k = Some f ->
  total (<[k := f']> fs) = total fs + (fblocks (fsize f') - fblocks (fsize f)).
Proof.
  revert k. induction fs as [|g fs IH]; intros [|k] Hk; try done; cbn [total foldr] in *.
  - injection Hk as ->. cbn. fold (total fs). lia.
  - cbn [list_insert insert]. fold (total (<[k:=f']> fs)) (total fs).
    change (fblocks (fsize g) + total (<[k:=f']> fs) =
            fblocks (fsize g) + total fs + (fblocks (fsize f') - fblocks (fsize f))).
    rewrite (IH k) by done. lia.
Qed.

Lemma total_app fs fs' : total (fs ++ fs') = total fs + total fs'.
Proof. unfold total. induction fs as [|f fs IH]; cbn; [done|]. rewrite IH. lia. Qed.

Lemma overwrite_end l src : overwrite l (Z.of_nat (length l)) src = l ++ src.
Proof. unfold overwrite. rewrite Nat2Z.id, firstn_all, drop_ge by lia. by rewrite app_nil_r. Qed.

(** Another file is stored as before after a write to [i]. *)
Lemma stored_other v i off src i' v' n j f : fs_ok sb v -> wrote sb i v off src i' v' ->
  stored v n j f -> n <> inum i -> (forall b, b ∈ iblocks v j -> b ∉ iblocks v i) ->
  0 <= inum i < 200 -> stored v' n j f /\ iblocks v' j = iblocks v j.
Proof.
  intros Hok W [S1 S0 S2 S3 S4 S5 S6 S7] Hne Hdj Hi.
  destruct (fl_disk _ _ _ S4) as [_ Hn]. rewrite S1 in Hn.
  destruct (file_keep v v' j S4) as (K1 & K2 & K3 & K4).
  { intros b Hb. destruct (io_data _ _ _ (fl_inode _ _ _ S4) b Hb) as [Hd Hu].
    assert (Hr : 0 <= b < sb_size sb) by (by apply (used_bound sb v); [apply Hok|]).
    split; [|by apply (wo_mono _ _ _ _ _ _ _ W)]. apply (wo_keep _ _ _ _ _ _ _ W); try done.
    - rewrite is_bmap_iff. rewrite is_data_iff in Hd. lia.
    - by apply Hdj.
    - intros ->. by destruct (iblock_used sb v (inum i) Hok Hi) as (_ & _ & _ & ?). }
  split; [|done]. constructor; try done; [by apply K4|by rewrite (wo_others _ _ _ _ _ _ _ W)|congruence].
Qed.

Lemma volume_wrote s v nodes fs k i f src s' i' v' : volume s v nodes fs -> nodes !! k = Some i ->
  fs !! k = Some f -> wrote sb i v (isize i) src i' v' -> reflects s' v' ->
  exact v' i' (isize i') -> freeinode s' = freeinode s ->
  freeblock s' = freeblock s + (fblocks (fsize f + Z.of_nat (length src)) - fblocks (fsize f)) ->
  owns s s' v v' i i' ->
  volume s' v' (<[k := i']> nodes) (<[k := (f.1, f.2 ++ src)]> fs).
Proof.
  intros Vo Hi Hf W R' Hex Hfi Hfb Hown. pose proof (vo_rf _ _ _ _ Vo) as R.
  pose proof (rf_fs _ _ R) as Hok. pose proof (lookup_lt_Some _ _ _ Hi) as Hlt.
  destruct (vo_files _ _ _ _ Vo k i Hi) as (f' & Hf' & S). assert (f' = f) as -> by congruence.
  pose proof (stored_size _ _ _ _ S) as Hsz. pose proof (vo_max _ _ _ _ Vo) as Hmax. unfold NINODES in Hmax.
  pose proof (vo_len _ _ _ _ Vo) as Hlen. pose proof (sd_inum _ _ _ _ S) as Hnum.
  assert (Ei : inum i' = inum i /\ itype i' = itype i /\ inlink i' = inlink i).
  { rewrite (wo_inode _ _ _ _ _ _ _ W). done. }
  destruct Ei as (Ei1 & Ei2 & Ei3).
  assert (Hother : forall j x, nodes !! j = Some x -> j <> k -> exists g, fs !! j = Some g /\
    stored v' (1 + Z.of_nat j) x g /\ iblocks v' x = iblocks v x).
  { intros j x Hj Hne. destruct (vo_files _ _ _ _ Vo j x Hj) as (g & Hg & Sg). exists g. split; [done|].
    apply (stored_other v i (isize i) src i'); try done; [lia| |lia].
    intros b Hb. by apply (vo_disj _ _ _ _ Vo j k x i b). }
  assert (Hnew : stored v' (1 + Z.of_nat k) i' (f.1, f.2 ++ src)).
  { constructor; try done; [congruence|rewrite (wo_inode _ _ _ _ _ _ _ W); apply S|by rewrite Ei2, (sd_type _ _ _ _ S)|by rewrite Ei3, (sd_nlink _ _ _ _ S)|apply W| |].
    - rewrite <- Hnum. apply (wo_sync _ _ _ _ _ _ _ W). rewrite Hnum. apply S.
    - rewrite (wo_bytes _ _ _ _ _ _ _ W), (sd_bytes _ _ _ _ S), Hsz. apply overwrite_end. }
  assert (Hdis : forall j x b, nodes !! j = Some x -> j <> k -> b ∈ iblocks v x -> b ∉ iblocks v' i').
  { intros j x b Hj Hne Hb Hb'. apply (wo_blocks _ _ _ _ _ _ _ W) in Hb' as [Hb'|Hb'].
    - by apply (vo_disj _ _ _ _ Vo j k x i b).
    - destruct (vo_files _ _ _ _ Vo j x Hj) as (g & _ & Sg).
      apply (io_data _ _ _ (fl_inode _ _ _ (sd_ok _ _ _ _ Sg))) in Hb as [_ Hb]. congruence. }
  constructor; rewrite ?length_insert; try done.
  - rewrite Hfi. apply Vo.
  - rewrite Hfb, (vo_count _ _ _ _ Vo), (total_insert _ _ f) by done. unfold fsize at 3. cbn [snd].
    rewrite length_app, Nat2Z.inj_add. unfold fsize. lia.
  - intros j x Hj. destruct (decide (j = k)) as [->|Hne].
    + rewrite list_lookup_insert_eq in Hj by done. injection Hj as <-. eexists. split; [|exact Hnew].
      apply list_lookup_insert_eq. lia.
    + rewrite list_lookup_insert_ne in Hj by done. destruct (Hother j x Hj Hne) as (g & Hg & Sg & _).
      exists g. by rewrite list_lookup_insert_ne.
  - intros j j' x x' b Hj Hj' Hne Hb. destruct (decide (j = k)) as [->|Hk], (decide (j' = k)) as [->|Hk']; [done|..].
    + rewrite list_lookup_insert_eq in Hj by done. injection Hj as <-.
      rewrite list_lookup_insert_ne in Hj' by done. destruct (Hother j' x' Hj' Hk') as (_ & _ & _ & ->).
      intros Hb'. by apply (Hdis j' x' b).
    + rewrite list_lookup_insert_eq in Hj' by done. injection Hj' as <-.
      rewrite list_lookup_insert_ne in Hj by done. destruct (Hother j x Hj Hk) as (_ & _ & _ & E).
      rewrite E in Hb. by apply (Hdis j x b).
    + rewrite list_lookup_insert_ne in Hj, Hj' by done. destruct (Hother j x Hj Hk) as (_ & _ & _ & E).
      destruct (Hother j' x' Hj' Hk') as (_ & _ & _ & E'). rewrite E in Hb. rewrite E'.
      by apply (vo_disj _ _ _ _ Vo j j' x x' b).
  - intros b Hb. destruct (Z.lt_ge_cases b (freeblock s)) as [Hlo|Hhi].
    + destruct (vo_own _ _ _ _ Vo b) as (j & x & Hj & Hin); [lia|]. destruct (decide (j = k)) as [->|Hne].
      * assert (x = i) as -> by congruence. exists k, i'. rewrite list_lookup_insert_eq by done.
        split; [done|]. apply Hown. by left.
      * exists j, x. rewrite list_lookup_insert_ne by done. split; [done|].
        by destruct (Hother j x Hj Hne) as (_ & _ & _ & ->).
    + exists k, i'. rewrite list_lookup_insert_eq by done. split; [done|]. apply Hown. right. lia.
  - intros n Hn. assert (0 <= n < sb_ninodes sb) by (change (0 <= n < 200); lia).
    rewrite (wo_others _ _ _ _ _ _ _ W) by (done || lia). apply (vo_rest _ _ _ _ Vo). lia.
  - intros b Hb. rewrite <- (vo_low _ _ _ _ Vo b Hb).
    apply (wo_keep _ _ _ _ _ _ _ W); [change (0 <= b < 1000); lia|apply (fo_meta _ _ Hok); change (0 <= b < 59); lia| | |].
    + rewrite is_bmap_iff. lia.
    + intros Hin. apply (io_data _ _ _ (fl_inode _ _ _ (sd_ok _ _ _ _ S))) in Hin as [Hd _].
      rewrite is_data_iff in Hd. lia.
    + pose proof (iblock_range (inum i)). lia.
Qed.

Lemma iappend_wp s v nodes fs k f p c (Q : unit -> ctx -> mkst -> Prop) :
  volume s v nodes fs -> fs !! k = Some f -> p <> [] -> Forall is_u8 p ->
  fits (<[k := (f.1, f.2 ++ p)]> fs) ->
  (forall s' v' nodes', volume s' v' nodes' (<[k := (f.1, f.2 ++ p)]> fs) -> Q tt c s') ->
  wp (iappend (1 + Z.of_nat k) p) c s Q.
Proof.
  intros Vo Hf Hp HF (Ht & Hm & Hsz) HQ. pose proof (vo_rf _ _ _ _ Vo) as R.
  pose proof (lookup_lt_Some _ _ _ Hf) as Hlt. rewrite length_insert in Hm. unfold NINODES in Hm.
  destruct (lookup_lt_is_Some_2 nodes k) as [i Hi]; [by rewrite (vo_len _ _ _ _ Vo)|].
  destruct (vo_files _ _ _ _ Vo k i Hi) as (f' & Hf' & S). assert (f' = f) as -> by congruence. clear Hf'.
  pose proof (stored_size _ _ _ _ S) as Es. pose proof (sd_ok _ _ _ _ S) as F.
  pose proof (sd_inum _ _ _ _ S) as Hnum. pose proof (fl_size _ _ _ F) as Hs0.
  assert (Hn : 0 < Z.of_nat (length p)) by (destruct p; [done|simpl; lia]).
  assert (Hsz' : fsize f + Z.of_nat (length p) <= MAXFILE * BSIZE).
  { rewrite Forall_lookup in Hsz. specialize (Hsz k (f.1, f.2 ++ p)).
    rewrite list_lookup_insert_eq in Hsz by done. specialize (Hsz eq_refl). unfold fsize in *. cbn [snd] in Hsz.
    rewrite length_app in Hsz. lia. }
  assert (Hfit : freeblock s + (fblocks (fsize f + Z.of_nat (length p)) - fblocks (fsize f)) <= 1000).
  { rewrite (total_insert _ _ f) in Ht by done. rewrite (vo_count _ _ _ _ Vo). revert Ht. unfold FSSIZE, fsize. cbn [snd].
    rewrite length_app, Nat2Z.inj_add. lia. }
  unfold iappend. apply wp_bind, (rinode_wp s v); [done|lia|]. rewrite (sd_disk _ _ _ _ S).
  apply wp_bind. change (isize (dinode i)) with (isize i).
  assert (Hu : forall x, 0 <= x <= MAXFILE * BSIZE -> is_u32 x).
  { intros x. unfold is_u32, MAXFILE, NDIRECT, NINDIRECT, BSIZE. lia. }
  rewrite xint_id by (apply Hu; lia).
  apply (iappend_loop_wp _ p s v i); try done; try (by apply F); try (by apply S); try (rewrite ?Es; lia).
  intros i' s' v' W R' Hex Hfi Hfb Hown. rewrite xint_id by (apply Hu; rewrite Es in *; lia).
  set (i2 := set_isize (isize i + Z.of_nat (length p)) i').
  change (set_isize _ (dinode i')) with (dinode i2).
  pose proof (wrote_extend sb v i (isize i) p i' v' F (rf_fs _ _ R) ltac:(lia)
    ltac:(rewrite Es; lia) ltac:(lia) W) as W2.
  cbv zeta in W2. fold i2 in W2.
  assert (Hnum2 : inum i2 = 1 + Z.of_nat k) by (unfold i2; rewrite (wr_inode _ _ _ _ _ _ _ W); done).
  assert (Hio2 : inode_ok sb v' i2) by (destruct (wr_ok _ _ _ _ _ _ _ W); by constructor).
  destruct (meta_upd sb v' i2 (inum i2) (store_dinode (vdata v' (IBLOCK (inum i2) sb)) (dinode_off (inum i2)) i2)
    (rf_fs _ _ R') Hio2) as (Ebm & Eib & Eby); [rewrite Hnum2; change (0 <= 1 + Z.of_nat k < 200); lia|].
  fold (v_iupd sb i2 v') in Ebm, Eib, Eby.
  rewrite <- Hnum2. apply (winode_wp s' v'); [done|lia|]. intros s2 R2 [Hi2 Hf2].
  apply (HQ s2 (v_iupd sb i2 v') (<[k := i2]> nodes)).
  apply (volume_wrote s v nodes fs k i f); try done.
  - apply (exact_same v'); [|done|done]. by destruct Hex.
  - congruence.
  - rewrite Hf2, Hfb, Es. done.
  - intros b Hb. rewrite Hf2 in Hb. rewrite Eib. by apply Hown.
Qed.

(** Updating one inode leaves the other files alone. *)
Lemma stored_iupd v n j f i : fs_ok sb v -> stored v n j f -> 0 <= inum i < 200 -> irange i ->
  n <> inum i -> stored (v_iupd sb i v) n j f /\ iblocks (v_iupd sb i v) j = iblocks v j.
Proof.
  intros Hok [S1 S0 S2 S3 S4 S5 S6 S7] Hi Hr Hne.
  destruct (fl_disk _ _ _ S4) as [_ Hn]. rewrite S1 in Hn.
  destruct (file_keep v (v_iupd sb i v) j S4) as (K1 & K2 & K3 & K4).
  { intros b Hb. destruct (io_data _ _ _ (fl_inode _ _ _ S4) b Hb) as [Hd Hu].
    pose proof (iblock_range _ Hi). rewrite is_data_iff in Hd. split.
    - unfold v_iupd. cbn. rewrite fn_lookup_insert_ne; [done|lia].
    - unfold v_iupd. rewrite used_upd_meta; [done|change (IBLOCK (inum i) sb < 58); lia|].
      change (0 <= b < 1000). lia. }
  split; [|done]. constructor; try done; [by apply K4| |congruence].
  rewrite dinode_of_iupd by (done || lia). by rewrite (proj2 (Z.eqb_neq _ _)).
Qed.

Definition new_inode (n t : Z) : inode := Inode 1 n 1 initsleeplock true t 0 0 1 0 (replicate 13 0).

Lemma new_bmap v n t bn : bmap_of v (new_inode n t) bn = 0.
Proof.
  unfold bmap_of, ind_addrs, ind, iaddr, new_inode. cbn [iaddrs].
  assert (E : forall k, nth k (replicate 13 0) 0 = 0).
  { intros k. do 13 (destruct k as [|k]; [done|]). by destruct k. }
  rewrite !E. destruct (bn <? NDIRECT); [done|]. cbn. by destruct (Z.to_nat _).
Qed.

Lemma new_iblocks v n t : iblocks v (new_inode n t) = [].
Proof. done. Qed.

Lemma new_range n t : t = T_DIR \/ t = T_FILE -> irange (new_inode n t).
Proof.
  intros Ht. constructor; cbn; try done; [|repeat constructor; unfold is_u32; lia].
  destruct Ht as [-> | ->]; unfold T_DIR, T_FILE; lia.
Qed.

Lemma new_stored v n t : fs_ok sb v -> 0 <= n < 200 -> t = T_DIR \/ t = T_FILE ->
  stored (v_iupd sb (new_inode n t) v) n (new_inode n t) (t, []).
Proof.
  intros Hok Hn Ht. pose proof (new_range n t Ht) as Hr. constructor; try done.
  - constructor; try done.
    + constructor; [done|rewrite new_iblocks; constructor|rewrite new_iblocks; set_solver].
    + destruct Ht as [-> | ->]; done.
    + intros bn H1 H2. cbn in H2. unfold BSIZE in H2. lia.
  - constructor.
    + intros bn Hbn. rewrite new_bmap. cbn. unfold BSIZE. lia.
    + cbn. unfold NDIRECT, BSIZE. split; [done|lia].
    + intros q _ _ []. apply new_bmap.
  - rewrite dinode_of_iupd by (done || lia). by rewrite Z.eqb_refl.
Qed.

Lemma ialloc_wp s v nodes fs t c (Q : Z -> ctx -> mkst -> Prop) : volume s v nodes fs ->
  t = T_DIR \/ t = T_FILE -> fits (fs ++ [(t, [])]) ->
  (forall s' v' nodes', volume s' v' nodes' (fs ++ [(t, [])]) -> Q (1 + Z.of_nat (length fs)) c s') ->
  wp (ialloc t) c s Q.
Proof.
  intros Vo Ht (_ & Hm & _) HQ. rewrite length_app in Hm. cbn [length] in Hm. unfold NINODES in Hm.
  pose proof (vo_rf _ _ _ _ Vo) as R. pose proof (rf_fs _ _ R) as Hok.
  set (n := 1 + Z.of_nat (length fs)). unfold ialloc. apply wp_bind, wp_gets, wp_bind, wp_modify.
  rewrite (vo_next _ _ _ _ Vo). fold n. rewrite u32_small by (unfold is_u32; lia). apply wp_bind.
  set (i := new_inode n t).
  replace (set_isize _ _) with (dinode i) by (destruct Ht as [-> | ->]; done).
  change n with (inum i) at 2. pose proof (new_range n t Ht) as Hr. fold i in Hr.
  apply (winode_wp (set_freeinode (n + 1) s) v i); [by destruct R; constructor|cbn; lia|].
  intros s' R' [Hi Hf]. cbn [freeinode freeblock set_freeinode] in Hi, Hf. apply wp_ret.
  apply (HQ s' (v_iupd sb i v) (nodes ++ [i])).
  pose proof (vo_len _ _ _ _ Vo) as Hlen. assert (Hinum : inum i = n) by done.
  assert (Hold : forall j x, nodes !! j = Some x -> exists g, fs !! j = Some g /\
    stored (v_iupd sb i v) (1 + Z.of_nat j) x g /\ iblocks (v_iupd sb i v) x = iblocks v x).
  { intros j x Hj. destruct (vo_files _ _ _ _ Vo j x Hj) as (g & Hg & Sg). exists g. split; [done|].
    apply lookup_lt_Some in Hj. apply stored_iupd; try done; rewrite Hinum; lia. }
  assert (Hin : forall j x, (nodes ++ [i]) !! j = Some x -> nodes !! j = Some x \/ (j = length fs /\ x = i)).
  { intros j x Hj. apply lookup_app_Some in Hj as [Hj|[Hj Hx]]; [by left|right].
    apply list_lookup_singleton_Some in Hx as [? <-]. split; [lia|done]. }
  assert (Hnil : iblocks (v_iupd sb i v) i = []) by apply new_iblocks.
  constructor; try done; rewrite ?length_app; cbn [length].
  - lia.
  - rewrite Hf, (vo_count _ _ _ _ Vo), total_app. change (total [(t, [])]) with 0. lia.
  - unfold NINODES. lia.
  - intros j x Hj. destruct (Hin j x Hj) as [Hj'|[-> ->]].
    + destruct (Hold j x Hj') as (g & Hg & Sg & _). exists g. split; [|done]. by apply lookup_app_l_Some.
    + exists (t, []). rewrite lookup_app_r, Nat.sub_diag by lia. split; [done|]. apply new_stored; [done|lia|done].
  - lia.
  - intros j k x x' b Hj Hk Hne Hb Hb'. destruct (Hin j x Hj) as [Hj'|[-> ->]]; [|rewrite Hnil in Hb; set_solver].
    destruct (Hin k x' Hk) as [Hk'|[-> ->]]; [|rewrite Hnil in Hb'; set_solver].
    destruct (Hold j x Hj') as (_ & _ & _ & E). destruct (Hold k x' Hk') as (_ & _ & _ & E').
    rewrite E in Hb. rewrite E' in Hb'. by apply (vo_disj _ _ _ _ Vo j k x x' b).
  - intros b Hb. rewrite Hf in Hb. destruct (vo_own _ _ _ _ Vo b Hb) as (j & x & Hj & Hx).
    exists j, x. split; [by apply lookup_app_l_Some|]. by destruct (Hold j x Hj) as (_ & _ & _ & ->).
  - intros m Hm'. rewrite dinode_of_iupd by (done || (rewrite ?Hinum; change (sb_ninodes sb) with 200; lia)).
    rewrite (proj2 (Z.eqb_neq _ _)) by (rewrite Hinum; lia). apply (vo_rest _ _ _ _ Vo). lia.
  - intros b Hb. rewrite <- (vo_low _ _ _ _ Vo b Hb). unfold v_iupd. cbn [vdata v_upd].
    pose proof (iblock_range (inum i) ltac:(rewrite Hinum; lia)). by rewrite fn_lookup_insert_ne by lia.
Qed.

(** ** Filling the volume *)

(** [fs] with files that may still grow, or be added, to become [fs']. *)
Definition below (fs fs' : list mkfile) : Prop :=
  forall k f, fs !! k = Some f -> exists f', fs' !! k = Some f' /\ fsize f <= fsize f'.

Lemma fblocks_mono m n : m <= n -> fblocks m <= fblocks n.
Proof.
  intros H. unfold fblocks, dblocks, NDIRECT, BSIZE.
  assert ((m + 511) / 512 <= (n + 511) / 512) by (apply Z.div_le_mono; lia).
  destruct (Z.ltb_spec 12 ((m + 511) / 512)), (Z.ltb_spec 12 ((n + 511) / 512)); lia.
Qed.

Lemma fblocks_nonneg n : 0 <= n -> 0 <= fblocks n.
Proof. intros H. apply (fblocks_mono 0 n H). Qed.

Lemma fsize_nonneg (f : mkfile) : 0 <= fsize f.
Proof. unfold fsize. lia. Qed.

Lemma below_total fs : forall fs', below fs fs' -> total fs <= total fs'.
Proof.
  induction fs as [|f fs IH]; intros fs' H.
  - clear H. induction fs' as [|f fs' IH]; [done|].
    change (0 <= total fs') in IH. change (0 <= fblocks (fsize f) + total fs').
    pose proof (fblocks_nonneg _ (fsize_nonneg f)). lia.
  - destruct (H 0%nat f eq_refl) as (f' & Hf' & Hle). destruct fs' as [|g fs']; [done|].
    injection Hf' as ->. specialize (IH fs' (fun k => H (S k))). apply fblocks_mono in Hle.
    cbn [total foldr]. fold (total fs) (total fs'). lia.
Qed.

Lemma below_length fs fs' : below fs fs' -> (length fs <= length fs')%nat.
Proof.
  intros H. destruct (decide (length fs <= length fs')%nat) as [|Hn]; [done|].
  destruct (lookup_lt_is_Some_2 fs (length fs')) as [f Hf]; [lia|].
  apply H in Hf as (f' & Hf' & _). apply lookup_lt_Some in Hf'. lia.
Qed.

Lemma below_fits fs fs' : below fs fs' -> fits fs' -> fits fs.
Proof.
  intros H (H1 & H2 & H3). split_and!.
  - pose proof (below_total _ _ H). lia.
  - pose proof (below_length _ _ H). lia.
  - apply Forall_lookup. intros k f Hf. apply H in Hf as (f' & Hf' & Hle).
    rewrite Forall_lookup in H3. specialize (H3 k f' Hf'). lia.
Qed.

Lemma below_insert fs fs' k f : below fs fs' -> (k < length fs)%nat ->
  (exists f', fs' !! k = Some f' /\ fsize f <= fsize f') -> below (<[k := f]> fs) fs'.
Proof.
  intros H Hk Hf j g Hg. destruct (decide (j = k)) as [->|Hne].
  - rewrite list_lookup_insert_eq in Hg by done. by injection Hg as <-.
  - rewrite list_lookup_insert_ne in Hg by done. by apply H.
Qed.

Lemma append_all_wp reads : forall s v nodes fs k f c (Q : unit -> ctx -> mkst -> Prop),
  volume s v nodes fs -> fs !! k = Some f -> Forall (fun r => r <> [] /\ Forall is_u8 r) reads ->
  fits (<[k := (f.1, f.2 ++ concat reads)]> fs) ->
  (forall s' v' nodes', volume s' v' nodes' (<[k := (f.1, f.2 ++ concat reads)]> fs) -> Q tt c s') ->
  wp (append_all (1 + Z.of_nat k) reads) c s Q.
Proof.
  induction reads as [|r reads IH]; intros s v nodes fs k f c Q Vo Hf HF Hfit HQ; cbn [append_all concat] in *.
  - rewrite app_nil_r in HQ. apply wp_ret, (HQ s v nodes). rewrite list_insert_id; [done|]. by destruct f.
  - apply Forall_cons in HF as [[Hr Hu] HF]. pose proof (lookup_lt_Some _ _ _ Hf) as Hlt. apply wp_bind.
    apply (iappend_wp s v nodes fs k f); try done.
    { eapply below_fits; [|exact Hfit]. apply below_insert; [|done|].
      - intros j g Hg. destruct (decide (j = k)) as [->|Hne].
        + eexists. split; [by apply list_lookup_insert_eq|]. assert (g = f) as -> by congruence.
          unfold fsize. cbn [snd]. rewrite length_app. lia.
        + exists g. by rewrite list_lookup_insert_ne.
      - eexists. split; [by apply list_lookup_insert_eq|]. unfold fsize. cbn [snd]. rewrite !length_app. lia. }
    intros s1 v1 nodes1 Vo1. apply (IH s1 v1 nodes1 (<[k := (f.1, f.2 ++ r)]> fs) k (f.1, f.2 ++ r)); try done.
    + by apply list_lookup_insert_eq.
    + cbn [fst snd]. by rewrite list_insert_insert_eq, <- app_assoc.
    + cbn [fst snd]. by rewrite list_insert_insert_eq, <- app_assoc.
Qed.

(** The files the arguments ask for. *)
Abbreviation input := (list Z * list (list Z))%type (only parsing).
Definition arg_of (a : input) : arg := (a.1, Some a.2).
Definition entry_of (n : Z) (a : input) : list Z := mk_dirent n (skip_underscore a.1).
Fixpoint entries (n : Z) (l : list input) : list Z :=
  match l with [] => [] | a :: l' => entry_of n a ++ entries (n + 1) l' end.
Definition root_bytes (l : list input) : list Z :=
  mk_dirent 1 dot ++ mk_dirent 1 dotdot ++ entries 2 l.
Definition contents (l : list input) : list mkfile :=
  (T_DIR, root_bytes l) :: ((fun a : input => (T_FILE, concat a.2)) <$> l).

Definition input_ok (a : input) : Prop :=
  Forall is_u8 a.1 /\ ch_slash ∉ a.1 /\ Forall (fun r => r <> [] /\ Forall is_u8 r) a.2.

Lemma entries_app n l l' : entries n (l ++ l') = entries n l ++ entries (n + Z.of_nat (length l)) l'.
Proof.
  revert n. induction l as [|a l IH]; intros n; cbn [entries app length]; [by rewrite Z.add_0_r|].
  rewrite IH, <- app_assoc. do 2 f_equal. f_equal. lia.
Qed.

Lemma root_bytes_app l l' :
  root_bytes (l ++ l') = root_bytes l ++ entries (2 + Z.of_nat (length l)) l'.
Proof. unfold root_bytes. by rewrite entries_app, !app_assoc. Qed.

(** The files while the argument [a] after [l] is being added. *)
Lemma adding_below l a todo x bs : fsize x <= fsize (T_DIR, root_bytes (l ++ [a])) ->
  (length bs <= length (concat a.2))%nat ->
  below (x :: ((fun a : input => (T_FILE, concat a.2)) <$> l) ++ [(T_FILE, bs)])
    (contents (l ++ a :: todo)).
Proof.
  intros Hx Hb [|k] f Hf; cbn in Hf.
  - injection Hf as <-. eexists. split; [done|]. etrans; [exact Hx|].
    replace (l ++ a :: todo) with ((l ++ [a]) ++ todo) by (by rewrite <- app_assoc).
    unfold fsize. cbn [snd]. rewrite (root_bytes_app (l ++ [a])), length_app. lia.
  - change (contents (l ++ a :: todo) !! S k) with
      (((fun a : input => (T_FILE, concat a.2)) <$> (l ++ a :: todo)) !! k).
    rewrite fmap_app. apply lookup_app_Some in Hf as [Hf|[Hk Hf]].
    + exists f. split; [by apply lookup_app_l_Some|done].
    + apply list_lookup_singleton_Some in Hf as [Hf <-]. exists (T_FILE, concat a.2).
      rewrite lookup_app_r, Hf by done. split; [done|]. unfold fsize. cbn [snd]. lia.
Qed.

Lemma entry_u8 n a : input_ok a -> Forall is_u8 (entry_of n a).
Proof.
  intros (H & _). apply mk_dirent_u8. unfold skip_underscore. destruct (_ =? _); [|done].
  by destruct H.
Qed.

Lemma entry_nonempty n name : mk_dirent n name <> [].
Proof. done. Qed.

Lemma no_slash name : ch_slash ∉ name -> existsb (Z.eqb ch_slash) name = false.
Proof.
  intros H. apply not_true_iff_false. rewrite existsb_exists. intros (x & Hx & E).
  apply Z.eqb_eq in E as <-. by apply H, list_elem_of_In.
Qed.

Lemma add_files_wp todo : forall l s v nodes c (Q : unit -> ctx -> mkst -> Prop),
  volume s v nodes (contents l) -> Forall input_ok todo -> fits (contents (l ++ todo)) ->
  (forall s' v' nodes', volume s' v' nodes' (contents (l ++ todo)) -> Q tt c s') ->
  wp (add_files ROOTINO (arg_of <$> todo)) c s Q.
Proof.
  induction todo as [|a todo IH]; intros l s v nodes c Q Vo HF Hfit HQ; cbn [fmap list_fmap add_files].
  - rewrite app_nil_r in HQ. by apply wp_ret, (HQ s v nodes).
  - apply Forall_cons in HF as [Ha HF]. pose proof Ha as (Hn & Hs & Hr). unfold arg_of at 1.
    unfold assert. rewrite (no_slash _ Hs). cbn [negb]. apply wp_bind, wp_ret, wp_bind.
    set (body := (fun a : input => (T_FILE, concat a.2)) <$> l).
    assert (El : length (contents l) = S (length l)) by (cbn; by rewrite length_fmap).
    assert (Hb : forall x bs, fsize x <= fsize (T_DIR, root_bytes (l ++ [a])) ->
      (length bs <= length (concat a.2))%nat -> fits (x :: body ++ [(T_FILE, bs)])).
    { intros x bs Hx Hbs. eapply below_fits; [by apply adding_below|done]. }
    assert (Er : root_bytes (l ++ [a]) = root_bytes l ++ entry_of (2 + Z.of_nat (length l)) a).
    { rewrite root_bytes_app. cbn [entries]. by rewrite app_nil_r. }
    apply (ialloc_wp s v nodes (contents l)); [done|by right|..].
    { apply (Hb (T_DIR, root_bytes l) []); [|cbn; lia]. rewrite Er. unfold fsize. cbn [snd].
      rewrite length_app. lia. }
    intros s1 v1 nodes1 Vo1. rewrite El.
    assert (Hsmall : Z.of_nat (length l) < 198).
    { pose proof (vo_max _ _ _ _ Vo1) as H. rewrite length_app, El in H. unfold NINODES in H. cbn [length] in H. lia. }
    rewrite xshort_id by lia. fold (entry_of (1 + Z.of_nat (S (length l))) a).
    replace (1 + Z.of_nat (S (length l))) with (2 + Z.of_nat (length l)) by lia. apply wp_bind.
    change (contents l ++ [(T_FILE, [])]) with ((T_DIR, root_bytes l) :: body ++ [(T_FILE, [])]) in Vo1.
    change ROOTINO with (1 + Z.of_nat 0).
    apply (iappend_wp s1 v1 nodes1 _ 0 (T_DIR, root_bytes l) _ _ _ Vo1); try done.
    { by apply entry_u8. }
    { cbn [list_insert insert fst snd]. rewrite <- Er. apply Hb; [done|cbn; lia]. }
    intros s2 v2 nodes2. cbn [list_insert insert fst snd]. rewrite <- Er. intros Vo2. apply wp_bind.
    replace (2 + Z.of_nat (length l)) with (1 + Z.of_nat (S (length l))) by lia.
    assert (Ei : <[S (length l) := (T_FILE, [] ++ concat a.2)]>
        ((T_DIR, root_bytes (l ++ [a])) :: body ++ [(T_FILE, [])]) = contents (l ++ [a])).
    { unfold contents. rewrite fmap_app. fold body. cbn [list_insert insert app]. f_equal.
      assert (Eb : length l = (length body + 0)%nat) by (unfold body; rewrite length_fmap; lia).
      rewrite Eb. by rewrite (insert_app_r body). }
    apply (append_all_wp a.2 s2 v2 nodes2 _ (S (length l)) (T_FILE, []) _ _ Vo2); try done.
    { change ((body ++ [(T_FILE, [])]) !! length l = Some (T_FILE, [])).
      rewrite lookup_app_r by (unfold body; rewrite length_fmap; lia).
      unfold body. by rewrite length_fmap, Nat.sub_diag. }
    { cbn [fst snd]. rewrite Ei. eapply below_fits; [|exact Hfit].
      unfold contents. rewrite fmap_app. by apply adding_below. }
    cbn [fst snd]. rewrite Ei. intros s3 v3 nodes3 Vo3.
    apply (IH (l ++ [a]) s3 v3 nodes3); rewrite <- ?app_assoc; done.
Qed.

(** ** The finished image *)

Lemma zero_loop_wp n : forall i s c (Q : unit -> ctx -> mkst -> Prop), 0 <= i -> i + Z.of_nat n <= 1000 ->
  (forall s', (forall b, img s' b = if (i <=? b) && (b <? i + Z.of_nat n) then zero_block else img s b) ->
     len s' = (if (n =? 0)%nat then len s else Z.max (len s) (i + Z.of_nat n)) -> counters s s' -> Q tt c s') ->
  wp (zero_loop n i) c s Q.
Proof.
  induction n as [|n IH]; intros i s c Q Hi Hn HQ; cbn [zero_loop].
  - apply wp_ret, HQ; try done. intros b. zcases; done.
  - apply wp_bind, wp_modify. rewrite seek_id by lia. apply IH; [lia|lia|]. cbn [img len set_img].
    intros s' H1 H2 H3. apply HQ; [| |done].
    + intros b. rewrite H1. destruct (decide (b = i)) as [->|Hne].
      * rewrite fn_lookup_insert. by zcases.
      * rewrite fn_lookup_insert_ne by done. zcases; done.
    + rewrite H2. cbn [Nat.eqb]. destruct n; cbn [Nat.eqb]; lia.
Qed.

Lemma mark_loop_wf n : forall i d, block_wf d -> block_wf (mark_loop n i d).
Proof. induction n as [|n IH]; intros i d Hd; [done|]. cbn [mark_loop]. apply IH. auto with xv6. Qed.

Lemma mark_loop_bit n : forall i d b, block_wf d -> 0 <= i -> i + Z.of_nat n <= BPB -> 0 <= b < BPB ->
  bit_set (mark_loop n i d) b = ((i <=? b) && (b <? i + Z.of_nat n)) || bit_set d b.
Proof.
  induction n as [|n IH]; intros i d b Hd Hi Hn Hb; cbn [mark_loop].
  - zcases; done.
  - fold (set_bit d i). rewrite IH by (done || lia || by apply set_bit_wf). rewrite bit_set_set by (done || lia).
    destruct (Z.eqb_spec b i) as [->|Hne]; cbn [orb]; zcases; cbn [andb orb]; done || lia.
Qed.

Lemma bit_zero b : bit_set zero_block b = false.
Proof. unfold bit_set. by rewrite get8_zero. Qed.

Lemma bitmap_of_count v n b : vdata v 58 = mark_loop (Z.to_nat n) 0 zero_block -> 0 <= n <= BPB ->
  0 <= b < 1000 -> used sb v b = (b <? n).
Proof.
  intros E Hn Hb. unfold used. rewrite bblock_eq, E by done.
  assert (b mod BPB = b) as -> by (apply Z.mod_small; unfold BPB, BSIZE; lia).
  rewrite mark_loop_bit, bit_zero by (apply zero_block_wf || (unfold BPB, BSIZE in *; lia)).
  rewrite orb_false_r, Z2Nat.id by lia. zcases; done.
Qed.

Lemma low_block_wf b : block_wf (low_block b).
Proof. unfold low_block. destruct (b =? 1); [|apply zero_block_wf]. do 7 apply put32_wf. apply zero_block_wf. Qed.

(** The disk right after the super block is written. *)
Definition blank_disk (b : Z) : block :=
  if b =? 58 then mark_loop 59 0 zero_block else low_block b.
Definition blank_view : bview := cold_view blank_disk 1000 2 30 0.

Lemma blank_fs : fs_ok sb blank_view.
Proof.
  constructor.
  - constructor; by vm_compute.
  - intros b Hb. change (0 <= b < 59) in Hb. rewrite (bitmap_of_count _ 59) by (done || lia).
    apply Z.ltb_lt. lia.
  - intros b _. cbn. unfold blank_disk. destruct (b =? 58); [apply mark_loop_wf, zero_block_wf|apply low_block_wf].
Qed.

Lemma zero_dinode o : load_dinode zero_block o inode0 = inode0.
Proof.
  unfold load_dinode, dtype, get32, get16. rewrite !get8_zero, get_addrs_zero. done.
Qed.

Lemma blank_volume s : len s = 1000 -> freeinode s = 1 -> freeblock s = 59 ->
  (forall b, 0 <= b < 1000 -> img s b = low_block b) -> volume s blank_view [] [].
Proof.
  intros H1 H2 H3 H4. constructor; try done; try set_solver.
  - constructor; try done; rewrite ?H3; [apply blank_fs|lia| | |].
    + intros b Hb. by apply bitmap_of_count.
    + intros b Hb Hne. rewrite H4 by done. cbn. unfold blank_disk. by rewrite (proj2 (Z.eqb_neq _ _)).
    + intros b Hb. cbn. unfold blank_disk, low_block. by rewrite !(proj2 (Z.eqb_neq _ _)) by lia.
  - intros b. lia.
  - intros n Hn. unfold dinode_of. pose proof (iblock_range n ltac:(cbn in Hn; lia)).
    cbn [vdata blank_view cold_view]. unfold blank_disk, low_block.
    rewrite !(proj2 (Z.eqb_neq _ _)) by lia. apply zero_dinode.
  - intros b Hb. cbn. unfold blank_disk. by rewrite (proj2 (Z.eqb_neq _ _)) by lia.
Qed.

(** The last part of [main]. *)
Definition finish : M mkst unit :=
  din ← rinode ROOTINO;
  let off := xint (isize din) in
  let off := u32 ((off / BSIZE + 1) * BSIZE) in
  winode ROOTINO (set_isize (xint off) din);;
  b ← gets freeblock;
  balloc (i32 b).

Lemma dot_below l bs : (length bs <= length (mk_dirent 1 dot ++ mk_dirent 1 dotdot))%nat ->
  below [(T_DIR, bs)] (contents l).
Proof.
  intros Hb [|k] f Hf; [|done]. injection Hf as <-. eexists. split; [done|].
  unfold fsize. cbn [snd]. unfold root_bytes. rewrite !length_app in *. lia.
Qed.

Lemma build_wp name rd l c (Q : unit -> ctx -> mkst -> Prop) :
  Forall input_ok l -> fits (contents l) ->
  (forall s v nodes, volume s v nodes (contents l) -> wp finish c s Q) ->
  wp (main ((name, Some rd) :: (arg_of <$> l))) c start Q.
Proof.
  intros HF Hfit HQ. unfold main. apply wp_bind, wp_modify, wp_bind. apply zero_loop_wp; [lia|done|].
  intros s0 H1 H2 [H3 H4]. apply wp_bind, wp_modify. rewrite seek_id by lia.
  set (s1 := set_img _ _ s0).
  assert (Vo : volume s1 blank_view [] []).
  { apply blank_volume; unfold s1; cbn [len freeinode freeblock set_img img].
    - rewrite H2. vm_compute. done.
    - by rewrite H3.
    - by rewrite H4.
    - intros b Hb. unfold low_block. destruct (Z.eqb_spec b 1) as [->|Hne].
      + by rewrite fn_lookup_insert.
      + rewrite fn_lookup_insert_ne, H1 by done. change (Z.of_nat (Z.to_nat FSSIZE)) with 1000. by zcases. }
  assert (Hb : forall bs, (length bs <= length (mk_dirent 1 dot ++ mk_dirent 1 dotdot))%nat ->
    fits [(T_DIR, bs)]).
  { intros bs H. eapply below_fits; [by apply (dot_below l)|done]. }
  apply wp_bind, (ialloc_wp s1 blank_view [] []); [done|by left|apply Hb; cbn; lia|].
  intros s2 v2 n2 Vo2. change (1 + Z.of_nat (length [])) with 1. change (assert (1 =? ROOTINO)) with (mret tt : M mkst unit).
  change (xshort 1) with 1. apply wp_bind, wp_ret, wp_bind. change 1 with (1 + Z.of_nat 0) at 1.
  apply (iappend_wp s2 v2 n2 _ 0 (T_DIR, []) _ _ _ Vo2); try done.
  { by apply mk_dirent_u8; by_decide. } { apply Hb. cbn. lia. }
  intros s3 v3 n3 Vo3. apply wp_bind. change 1 with (1 + Z.of_nat 0) at 1.
  apply (iappend_wp s3 v3 n3 _ 0 (T_DIR, mk_dirent 1 dot) _ _ _ Vo3); try done.
  { by apply mk_dirent_u8; by_decide. } { apply Hb. cbn. lia. }
  intros s4 v4 n4 Vo4. apply wp_bind. by apply (add_files_wp l [] s4 v4 n4).
Qed.

(** The disk as the kernel sees it, and its inode [n]. *)
Definition disk_of (s : mkst) : bview := cold_view (img s) FSSIZE 2 LOGSIZE 0.
Definition node (v : bview) (n : Z) : inode :=
  with_disk (dinode_of sb v n) (Inode 1 n 1 initsleeplock true 0 0 0 0 0 []).

(** The slots of the root directory. *)
Fixpoint listing (n : Z) (l : list input) : list (Z * list Z) :=
  match l with [] => [] | a :: l' => (n, dname (skip_underscore a.1)) :: listing (n + 1) l' end.
Definition root_slots (l : list input) : list (Z * list Z) := (1, dot) :: (1, dotdot) :: listing 2 l.

Lemma length_entries n l : length (entries n l) = (16 * length l)%nat.
Proof.
  revert n. induction l as [|a l IH]; intros n; cbn [entries length]; [done|].
  rewrite length_app, IH. unfold entry_of, mk_dirent. rewrite length_app, length_strncpy.
  cbn [length]. unfold DIRSIZ. lia.
Qed.

Lemma dents_entries n l : 0 <= n -> n + Z.of_nat (length l) < 65536 -> dents (entries n l) = listing n l.
Proof.
  revert n. induction l as [|a l IH]; intros n H0 Hn; [done|]. cbn [entries listing length] in *.
  destruct (mk_dirent_facts n (skip_underscore a.1)) as [E1 E2]; [lia|].
  rewrite (dents_app _ _ 1) by (unfold entry_of; lia). rewrite IH by lia. unfold entry_of.
  by rewrite dents_one, E2.
Qed.

Lemma length_root_bytes l : length (root_bytes l) = (16 * (2 + length l))%nat.
Proof. unfold root_bytes. rewrite !length_app, length_entries. cbn [length mk_dirent]. change (length (mk_dirent 1 dot)) with 16%nat. change (length (mk_dirent 1 dotdot)) with 16%nat. lia. Qed.

Lemma dents_root l : Z.of_nat (length l) < 65000 -> dents (root_bytes l) = root_slots l.
Proof.
  intros Hl. unfold root_bytes, root_slots. rewrite (dents_app _ _ 1), (dents_app _ _ 1) by done.
  by rewrite dents_entries by lia.
Qed.

Lemma dents_zeros m : dents (replicate (16 * m) 0) = replicate m (0, []).
Proof.
  induction m as [|m IH]; [done|]. replace (16 * S m)%nat with (16 + 16 * m)%nat by lia.
  rewrite replicate_add, (dents_app _ _ 1), IH by (rewrite length_replicate; lia). done.
Qed.

(** The size [main] gives the root directory. *)
Definition root_size (l : list input) : Z := (16 * (2 + Z.of_nat (length l)) / BSIZE + 1) * BSIZE.

(** What the image holds: every file with its bytes and nothing besides. *)
Record image_ok (l : list input) (s : mkst) : Prop := {
  im_len : len s = FSSIZE;
  im_sb : decode_sb (img s 1) = sb;
  im_log : hdr_n (img s (sb_logstart sb)) = 0;
  im_fs : fs_ok sb (disk_of s);
  im_root : let i := node (disk_of s) ROOTINO in
    itype i = T_DIR /\ inlink i = 1 /\ isize i = root_size l /\
    file_at (disk_of s) i 0 (16 * (2 + Z.of_nat (length l))) = root_bytes l;
  im_files : forall k a, l !! k = Some a ->
    let i := node (disk_of s) (2 + Z.of_nat k) in
    itype i = T_FILE /\ inlink i = 1 /\ file_ok sb (disk_of s) i /\
    file_bytes (disk_of s) i = concat a.2;
  im_free : forall n, n = 0 \/ 1 + Z.of_nat (length l) < n < NINODES -> itype (node (disk_of s) n) = 0;
  im_used : forall b, is_data sb b -> used sb (disk_of s) b = true <->
    exists n, 1 <= n <= 1 + Z.of_nat (length l) /\ b ∈ iblocks (disk_of s) (node (disk_of s) n);
  im_disj : forall m n b, 1 <= m <= 1 + Z.of_nat (length l) -> 1 <= n <= 1 + Z.of_nat (length l) -> m <> n ->
    b ∈ iblocks (disk_of s) (node (disk_of s) m) -> b ∉ iblocks (disk_of s) (node (disk_of s) n)
}.

Lemma root_size_bound l : Z.of_nat (length l) < 200 -> 0 <= root_size l <= MAXFILE * BSIZE.
Proof.
  intros Hl. unfold root_size, MAXFILE, NDIRECT, NINDIRECT, BSIZE. Z.div_mod_to_equations. lia.
Qed.

Lemma finish_wp s v nodes l root c (Q : unit -> ctx -> mkst -> Prop) : volume s v nodes (contents l) ->
  nodes !! 0%nat = Some root ->
  (forall s', len s' = 1000 ->
     (forall b, 0 <= b < 1000 -> b <> 58 -> img s' b = vdata (v_iupd sb (set_isize (root_size l) root) v) b) ->
     img s' 58 = mark_loop (Z.to_nat (freeblock s)) 0 zero_block -> Q tt c s') ->
  wp finish c s Q.
Proof.
  intros Vo Hr HQ. pose proof (vo_rf _ _ _ _ Vo) as R. pose proof (rf_free _ _ R) as Hfb.
  pose proof (vo_max _ _ _ _ Vo) as Hm. cbn [contents length] in Hm. rewrite length_fmap in Hm. unfold NINODES in Hm.
  destruct (vo_files _ _ _ _ Vo 0%nat root Hr) as (f & Hf & S). injection Hf as <-.
  pose proof (stored_size _ _ _ _ S) as Es. unfold fsize in Es. cbn [snd] in Es. rewrite length_root_bytes in Es.
  unfold finish. apply wp_bind, (rinode_wp s v); [done|by_decide|].
  change ROOTINO with (1 + Z.of_nat 0). rewrite (sd_disk _ _ _ _ S). change (isize (dinode root)) with (isize root).
  pose proof (root_size_bound l ltac:(lia)) as Hb. unfold MAXFILE, NDIRECT, NINDIRECT, BSIZE in Hb.
  assert (Eo : xint (u32 ((xint (isize root) / BSIZE + 1) * BSIZE)) = root_size l).
  { rewrite (xint_id (isize root)) by (unfold is_u32; lia). rewrite Es, Nat2Z.inj_mul, Nat2Z.inj_add.
    change (Z.of_nat 16) with 16. change (Z.of_nat 2) with 2. fold (root_size l).
    rewrite u32_small, xint_id by (unfold is_u32; lia). done. }
  cbv zeta. rewrite Eo. set (root' := set_isize (root_size l) root).
  change (set_isize (root_size l) (dinode root)) with (dinode root'). apply wp_bind.
  assert (En : inum root' = 1 + Z.of_nat 0) by apply S. rewrite <- En.
  apply (winode_wp s v root'); [done|rewrite En; lia|]. intros s' R' [_ Hf']. apply wp_bind, wp_gets.
  rewrite Hf'. assert (i32 (freeblock s) = freeblock s) as -> by wrap_lia.
  unfold balloc, assert. rewrite (proj2 (Z.ltb_lt _ _)) by (unfold BSIZE; lia). apply wp_bind, wp_ret, wp_modify.
  change (sb_bmapstart sb) with 58. rewrite seek_id by lia. apply HQ; cbn [len img set_img].
  - rewrite (rf_len _ _ R'). done.
  - intros b Hb' Hne. rewrite fn_lookup_insert_ne by done. by apply (rf_img _ _ R').
  - by rewrite fn_lookup_insert.
Qed.

Section image.
Variables (s s' : mkst) (v : bview) (nodes : list inode) (l : list input) (root : inode).
Hypothesis Vo : volume s v nodes (contents l).
Hypothesis Hroot : nodes !! 0%nat = Some root.
Hypothesis Hlen : len s' = 1000.
Let root' : inode := set_isize (root_size l) root.
Hypothesis Himg : forall b, 0 <= b < 1000 -> b <> 58 -> img s' b = vdata (v_iupd sb root' v) b.
Hypothesis Hmap : img s' 58 = mark_loop (Z.to_nat (freeblock s)) 0 zero_block.
#[local] Abbreviation vf := (disk_of s').

Lemma image_max : Z.of_nat (length l) < 199 /\ length nodes = S (length l).
Proof using Vo.
  pose proof (vo_max _ _ _ _ Vo) as Hm. pose proof (vo_len _ _ _ _ Vo) as Hl.
  cbn [contents length] in Hm, Hl. rewrite length_fmap in Hm, Hl. unfold NINODES in Hm. lia.
Qed.

Lemma image_root : stored v 1 root (T_DIR, root_bytes l).
Proof using Vo Hroot. by destruct (vo_files _ _ _ _ Vo 0%nat root Hroot) as (f & [= <-] & S). Qed.

Lemma image_range : irange root' /\ 0 <= inum root' < 200.
Proof using Vo Hroot.
  pose proof image_root as S. destruct image_max as [Hm _].
  pose proof (root_size_bound l ltac:(lia)) as Hb. unfold MAXFILE, NDIRECT, NINDIRECT, BSIZE in Hb.
  split; [|unfold root'; cbn; rewrite (sd_inum _ _ _ _ S); lia].
  destruct (fl_range _ _ _ (sd_ok _ _ _ _ S)). constructor; try done. unfold is_u32. cbn. lia.
Qed.

Lemma image_data b : is_data sb b -> vdata vf b = vdata v b.
Proof using Vo Hroot Himg.
  intros Hd. rewrite is_data_iff in Hd. cbn [vdata disk_of cold_view]. rewrite Himg by lia. unfold v_iupd. cbn [vdata v_upd].
  destruct image_range as [_ Hn]. pose proof (iblock_range _ Hn). by rewrite fn_lookup_insert_ne by lia.
Qed.

Lemma image_used b : 0 <= b < 1000 -> used sb vf b = (b <? freeblock s).
Proof using Vo Hmap.
  intros Hb. pose proof (rf_free _ _ (vo_rf _ _ _ _ Vo)).
  apply bitmap_of_count; [done|unfold BPB, BSIZE; lia|done].
Qed.

Lemma image_fs : fs_ok sb vf.
Proof using All.
  pose proof (vo_rf _ _ _ _ Vo) as R. pose proof (rf_free _ _ R). destruct image_range as [_ Hn]. constructor.
  - constructor; by vm_compute.
  - intros b Hb. change (0 <= b < 59) in Hb. rewrite image_used by lia. apply Z.ltb_lt. lia.
  - intros b Hb. pose proof Hb as [Hr _]. change (0 <= b < 1000) in Hr. cbn. destruct (decide (b = 58)) as [->|Hne].
    + rewrite Hmap. apply mark_loop_wf, zero_block_wf.
    + rewrite Himg by done. pose proof (fs_ok_iupd sb v root' (rf_fs _ _ R) Hn) as Hok.
      apply (fo_wf _ _ Hok). pose proof (fo_sb _ _ Hok) as Hs. unfold home in *.
      rewrite (so_lstart _ _ Hs), (so_lsize _ _ Hs). split; [|apply Hb].
      pose proof (so_size _ _ Hs). change (sb_size sb) with 1000 in *. lia.
Qed.

Lemma image_dinode n : 0 <= n < 200 -> dinode_of sb vf n = if n =? 1 then dinode root' else dinode_of sb v n.
Proof using Vo Hroot Himg.
  intros Hn. destruct image_range as [Hr Hi]. pose proof (iblock_range n Hn).
  unfold dinode_of at 1. cbn [vdata disk_of cold_view]. rewrite Himg by lia.
  change (dinode_of sb (v_iupd sb root' v) n = if n =? 1 then dinode root' else dinode_of sb v n).
  rewrite dinode_of_iupd by (apply Vo || done || lia).
  replace (inum root') with 1; [done|]. symmetry. apply (sd_inum _ _ _ _ image_root).
Qed.

Lemma image_node k i f : nodes !! k = Some i -> stored v (1 + Z.of_nat k) i f ->
  node vf (1 + Z.of_nat k) = if (k =? 0)%nat then root' else i.
Proof using All.
  intros Hk S. destruct image_max as [Hm Hl]. pose proof (lookup_lt_Some _ _ _ Hk). unfold node.
  rewrite image_dinode by lia. destruct (sd_mem _ _ _ _ S) as (M1 & M2 & M3 & M4).
  pose proof (sd_inum _ _ _ _ S) as M5. destruct k as [|k].
  - assert (i = root) as -> by congruence. cbn [Nat.eqb]. change (1 + Z.of_nat 0 =? 1) with true. cbv iota.
    unfold root', with_disk, set_isize. cbn. by rewrite M1, M2, M3, M4, M5.
  - cbn [Nat.eqb]. rewrite (proj2 (Z.eqb_neq _ 1)) by lia. rewrite (sd_disk _ _ _ _ S).
    unfold with_disk. cbn. destruct i; cbn in *. by subst.
Qed.

Lemma image_keep k i f : nodes !! k = Some i -> stored v (1 + Z.of_nat k) i f ->
  file_ok sb vf i /\ iblocks vf i = iblocks v i /\ file_bytes vf i = file_bytes v i /\
  (forall n, exact v i n -> exact vf i n).
Proof using All.
  intros Hk S. apply file_keep; [apply S|]. intros b Hb.
  destruct (io_data _ _ _ (fl_inode _ _ _ (sd_ok _ _ _ _ S)) b Hb) as [Hd Hu].
  split; [by apply image_data|]. rewrite is_data_iff in Hd. rewrite image_used by lia.
  by rewrite <- (rf_used _ _ (vo_rf _ _ _ _ Vo)) by lia.
Qed.

(** The blocks of the [k]th inode of the image are those of the volume. *)
Lemma image_iblocks k i : nodes !! k = Some i -> iblocks vf (node vf (1 + Z.of_nat k)) = iblocks v i.
Proof using All.
  intros Hk. destruct (vo_files _ _ _ _ Vo k i Hk) as (f & _ & S). rewrite (image_node k i f) by done.
  destruct (image_keep k i f Hk S) as (_ & E & _). rewrite <- E. destruct k as [|k]; [|done].
  assert (i = root) as -> by congruence. done.
Qed.

Lemma image_low b : 0 <= b < 32 -> img s' b = low_block b.
Proof using Vo Hroot Himg.
  intros Hb. rewrite Himg by lia. unfold v_iupd. cbn [vdata v_upd]. destruct image_range as [_ Hn].
  pose proof (iblock_range _ Hn). rewrite fn_lookup_insert_ne by lia. by apply (vo_low _ _ _ _ Vo).
Qed.

Lemma image_at n : 1 <= n <= 1 + Z.of_nat (length l) -> exists k i f, n = 1 + Z.of_nat k /\
  nodes !! k = Some i /\ contents l !! k = Some f /\ stored v n i f.
Proof using Vo.
  intros Hn. destruct image_max as [_ Hl]. destruct (lookup_lt_is_Some_2 nodes (Z.to_nat (n - 1))) as [i Hi]; [lia|].
  destruct (vo_files _ _ _ _ Vo _ i Hi) as (f & Hf & S). exists (Z.to_nat (n - 1)), i, f.
  rewrite Z2Nat.id in * by lia. replace (1 + (n - 1)) with n in * by lia. done.
Qed.

Lemma image_root_node : node vf ROOTINO = root'.
Proof using All. by apply (image_node 0 root _ Hroot image_root). Qed.

Lemma image_root_size : isize root = 16 * (2 + Z.of_nat (length l)).
Proof using Vo Hroot.
  rewrite (stored_size _ _ _ _ image_root). unfold fsize. cbn [snd]. rewrite length_root_bytes. lia.
Qed.

Lemma image_sealed : image_ok l s'.
Proof using All.
  destruct image_max as [Hm Hl]. constructor; try done.
  - rewrite image_low by lia. by vm_compute.
  - change (sb_logstart sb) with 2. rewrite image_low by lia. by vm_compute.
  - exact image_fs.
  - cbv zeta. rewrite image_root_node. pose proof image_root as S. split_and!; [apply S|apply S|done|].
    destruct (image_keep 0 root _ Hroot S) as (_ & _ & E & _).
    rewrite (sd_bytes _ _ _ _ S) in E. cbn [snd] in E. rewrite <- E. unfold file_bytes.
    by rewrite image_root_size.
  - intros k a Ha. cbv zeta. destruct (lookup_lt_is_Some_2 nodes (S k)) as [i Hi].
    { apply lookup_lt_Some in Ha. lia. }
    destruct (vo_files _ _ _ _ Vo _ i Hi) as (f & Hf & S).
    assert (f = (T_FILE, concat a.2)) as ->.
    { change (((fun a : input => (T_FILE, concat a.2)) <$> l) !! k = Some f) in Hf.
      rewrite list_lookup_fmap, Ha in Hf. by injection Hf. }
    replace (2 + Z.of_nat k) with (1 + Z.of_nat (Datatypes.S k)) by lia.
    rewrite (image_node _ i _ Hi S). cbn [Nat.eqb].
    destruct (image_keep _ i _ Hi S) as (K1 & _ & K3 & _).
    split_and!; [apply S|apply S|done|rewrite K3; apply S].
  - intros n Hn. unfold node, NINODES in *. rewrite image_dinode, (proj2 (Z.eqb_neq n 1)) by lia.
    rewrite (vo_rest _ _ _ _ Vo); [done|]. cbn [contents length]. rewrite length_fmap. lia.
  - intros b Hd. rewrite is_data_iff in Hd. rewrite image_used by lia. rewrite Z.ltb_lt. split.
    + intros Hb. destruct (vo_own _ _ _ _ Vo b) as (k & i & Hi & Hin); [lia|].
      exists (1 + Z.of_nat k). apply lookup_lt_Some in Hi as Hk. split; [lia|]. by rewrite (image_iblocks k i).
    + intros (n & Hn & Hin). destruct (image_at n Hn) as (k & i & f & -> & Hi & _ & S).
      rewrite (image_iblocks k i) in Hin by done.
      apply (io_data _ _ _ (fl_inode _ _ _ (sd_ok _ _ _ _ S))) in Hin as [_ Hu].
      rewrite (rf_used _ _ (vo_rf _ _ _ _ Vo)) in Hu by lia. by apply Z.ltb_lt.
  - intros m n b Hm' Hn Hne. destruct (image_at m Hm') as (j & i & f & -> & Hi & _).
    destruct (image_at n Hn) as (k & i' & f' & -> & Hi' & _).
    rewrite (image_iblocks j i), (image_iblocks k i') by done. apply (vo_disj _ _ _ _ Vo j k i i'); try done.
    intros ->. done.
Qed.

(** The rounded size covers the last block, unless that one is full. *)
Lemma image_root_full bn : 0 <= bn -> bn * BSIZE < root_size l ->
  bmap_of vf root' bn <> 0 <-> bn * BSIZE < 16 * (2 + Z.of_nat (length l)).
Proof using All.
  intros H0 Hb. destruct image_max as [Hm _]. pose proof (root_size_bound l ltac:(lia)) as Hs.
  destruct (image_keep 0 root _ Hroot image_root) as (_ & _ & _ & K).
  pose proof (K _ (sd_exact _ _ _ _ image_root)) as E. rewrite image_root_size in E.
  change (bmap_of vf root' bn) with (bmap_of vf root bn). apply (ex_map _ _ _ E).
  unfold MAXFILE, NDIRECT, NINDIRECT, BSIZE in *. lia.
Qed.

Lemma image_dir : 16 * (2 + Z.of_nat (length l)) mod BSIZE <> 0 ->
  dir_ok sb vf root' /\
  slots vf root' = root_slots l ++ replicate (Z.to_nat ((root_size l - 16 * (2 + Z.of_nat (length l))) / 16)) (0, []).
Proof using All.
  intros Hne. set (n := 16 * (2 + Z.of_nat (length l))) in *. destruct image_max as [Hm _].
  pose proof (root_size_bound l ltac:(lia)) as Hs.
  destruct (image_keep 0 root _ Hroot image_root) as (F & _ & E & K).
  pose proof (K _ (sd_exact _ _ _ _ image_root)) as Hex. rewrite image_root_size in Hex. fold n in Hex.
  assert (Hsz : root_size l = (n / BSIZE + 1) * BSIZE) by done. split.
  - constructor; [|apply image_root|unfold root'; cbn [isize set_isize]; rewrite Hsz; unfold BSIZE; wrap_lia].
    destruct F as [F1 F2 F3 F4 F5 F6]. constructor; try done.
    + destruct F1. by constructor.
    + apply image_range.
    + intros bn H1 H2. apply image_root_full; [done|done|]. fold n. change (isize root') with (root_size l) in H2.
      rewrite Hsz in H2. unfold BSIZE in *. wrap_lia.
  - assert (Hle : n <= root_size l) by (rewrite Hsz; unfold BSIZE; wrap_lia).
    unfold slots, file_bytes. change (isize root') with (root_size l).
    set (r := root_size l - n) in *. replace (root_size l) with (n + r) by lia.
    assert (Hr16 : r = 16 * (r / 16)) by (unfold r; rewrite Hsz; unfold n, BSIZE; wrap_lia).
    rewrite file_at_app by lia. change (file_at vf root' 0 n) with (file_at vf root 0 n).
    assert (E0 : file_at vf root 0 n = root_bytes l).
    { rewrite <- (sd_bytes _ _ _ _ image_root : _ = root_bytes l), <- E. unfold file_bytes. by rewrite image_root_size. }
    assert (E1 : file_at vf root' (0 + n) r = replicate (16 * Z.to_nat (r / 16)) 0).
    { apply list_eq. intros k. unfold file_at. rewrite list_lookup_fmap.
      destruct (decide (k < 16 * Z.to_nat (r / 16))%nat) as [Hk|Hk].
      - rewrite lookup_seqZ_lt, lookup_replicate_2 by lia. cbn [fmap option_fmap option_map]. f_equal.
        apply (ex_tail _ _ _ Hex); [lia|lia|].
        apply image_root_full; [apply Z.div_pos; unfold BSIZE; lia| |].
        + rewrite Hsz. unfold r in Hr16, Hk. rewrite Hsz in Hr16, Hk. unfold BSIZE in *. wrap_lia.
        + fold n. unfold r in Hr16, Hk. rewrite Hsz in Hr16, Hk. unfold BSIZE in *. wrap_lia.
      - rewrite lookup_seqZ_ge by lia. cbn. symmetry. apply lookup_ge_None_2. rewrite length_replicate. lia. }
    rewrite E0, E1, (dents_app _ _ (2 + length l)) by apply length_root_bytes.
    by rewrite dents_root, dents_zeros by lia.
Qed.
End image.

(** C16: the image builder makes a volume the kernel can use.  Whatever files
    are given, if they fit, [main] succeeds, and the image has the super
    block, an empty log, one inode for each file with exactly its bytes, and
    nothing else: every other inode is free, every block in use belongs to
    exactly one inode and every other block is free.  The root directory
    lists the files under their names, unless its entries fill its last
    block. *)
Theorem mkfs_correct name rd l c : Forall input_ok l -> fits (contents l) ->
  wp (main ((name, Some rd) :: (arg_of <$> l))) c start (fun _ c' s =>
    c' = c /\ image_ok l s /\
    (16 * (2 + Z.of_nat (length l)) mod BSIZE <> 0 ->
     let v := disk_of s in let i := node v ROOTINO in
     dir_ok sb v i /\ exists m, slots v i = root_slots l ++ replicate m (0, []))).
Proof.
  intros HF Hfit. apply build_wp; [done|done|]. intros s v nodes Vo.
  destruct (image_max s v nodes l Vo) as [_ Hl].
  destruct (lookup_lt_is_Some_2 nodes 0) as [root Hr]; [lia|].
  apply (finish_wp s v nodes l root); [done|done|]. intros s' H1 H2 H3. split; [done|]. split.
  - by eapply image_sealed.
  - intros Hne. cbv zeta. erewrite image_root_node by done.
    destruct (image_dir s s' v nodes l root Vo Hr H1 H2 H3 Hne) as [Hd Hs]. eauto.
Qed.

(** C38: when the entries of the root directory fill its last block, with 30
    files for instance, mkfs records a size that covers one block more than
    the directory has.  The blocks of the entries are there and the next one
    is not, so the directory is not a file as the kernel expects it, and
    [bmap] of the kernel allocates a block, on the disk and in the inode, as
    soon as the directory is read to its end. *)
Theorem mkfs_root_hole name rd l c : Forall input_ok l -> fits (contents l) ->
  16 * (2 + Z.of_nat (length l)) mod BSIZE = 0 ->
  wp (main ((name, Some rd) :: (arg_of <$> l))) c start (fun _ _ s =>
    let v := disk_of s in let i := node v ROOTINO in
    let bn := 16 * (2 + Z.of_nat (length l)) / BSIZE in
    isize i = (bn + 1) * BSIZE /\ (forall k, 0 <= k < bn -> bmap_of v i k <> 0) /\ bmap_of v i bn = 0 /\
    ~ file_ok sb v i /\
    forall T (BC : BufferCache T) ip c' (f : fsst T), iaddrs (icache f ip) = iaddrs i ->
      bmap ip bn c' f = (a ← Fs.balloc (idev (icache f ip)); seti ip (set_iaddr bn a);; mret a) c' f).
Proof.
  intros HF Hfit Hz. apply build_wp; [done|done|]. intros s v nodes Vo.
  destruct (image_max s v nodes l Vo) as [Hm Hl].
  destruct (lookup_lt_is_Some_2 nodes 0) as [root Hr]; [lia|].
  apply (finish_wp s v nodes l root); [done|done|]. intros s' H1 H2 H3. cbv zeta.
  erewrite image_root_node by done.
  set (bn := 16 * (2 + Z.of_nat (length l)) / BSIZE).
  assert (H0 : 0 <= bn) by (apply Z.div_pos; unfold BSIZE; lia).
  assert (Hf : forall k, 0 <= k <= bn ->
    bmap_of (disk_of s') (set_isize (root_size l) root) k <> 0 <-> k < bn).
  { intros k Hk. rewrite (image_root_full s s' v nodes l root Vo Hr H1 H2 H3 k); [|lia|].
    - unfold bn, BSIZE in *. wrap_lia.
    - unfold root_size. fold bn. unfold BSIZE in *. lia. }
  assert (Hb : bmap_of (disk_of s') (set_isize (root_size l) root) bn = 0).
  { destruct (decide (bmap_of (disk_of s') (set_isize (root_size l) root) bn = 0)) as [|Hn]; [done|].
    apply Hf in Hn; lia. }
  assert (Hd : bn < NDIRECT) by (unfold bn, BSIZE, NDIRECT; wrap_lia).
  split_and!; [done|by intros k Hk; apply Hf; lia|done| |].
  - intros F. apply (fl_full _ _ _ F bn); [done| |done]. cbn [isize set_isize]. unfold root_size. fold bn. unfold BSIZE. lia.
  - intros T BC ip c' f Ha. unfold bmap, geti, gets. cbn [mbind M_bind obind]. unfold mbind, M_bind, obind, id.
    unfold bmap_of in Hb. rewrite (proj2 (Z.ltb_lt _ _)) in Hb |- * by done.
    unfold iaddr in Hb |- *. rewrite Ha, Hb. done.
Qed.

(** ** Examples *)

#[export] Instance input_ok_dec a : Decision (input_ok a).
Proof. unfold input_ok. apply _. Defined.
#[export] Instance fits_dec fs : Decision (fits fs).
Proof. unfold fits. apply _. Defined.

(** A program of 13 blocks, read in two parts, and a short text. *)
Definition ex_files : list input :=
  [([95; 99; 97; 116], replicate 12 (replicate 512 7) ++ [[1; 2; 3]]); ([82], [[104; 105]])].
(** Thirty empty files. *)
Definition ex_thirty : list input := (fun k => ([65 + k], [])) <$> seqZ 0 30.

Lemma mkfs_correct_witness :
  wp (main (([102], Some []) :: (arg_of <$> ex_files))) ctx0 start (fun _ c' s =>
    c' = ctx0 /\ image_ok ex_files s /\
    (16 * (2 + Z.of_nat (length ex_files)) mod BSIZE <> 0 ->
     let v := disk_of s in let i := node v ROOTINO in
     dir_ok sb v i /\ exists m, slots v i =
       [(1, dot); (1, dotdot); (2, [99; 97; 116]); (3, [82])] ++ replicate m (0, []))).
Proof. apply (mkfs_correct [102] [] ex_files ctx0); by_decide. Defined.

(** The image of thirty files; reading its root directory to the end, as ls
    does, makes the kernel allocate a block outside of a transaction. *)
Definition thirty_image : mkst :=
  match main (([102], Some []) :: (arg_of <$> ex_thirty)) ctx0 start with Ok _ _ s => s | _ => start end.
Definition thirty_mounted : fsst lst :=
  let root := set_islp (Sleeplock true 1) (node (disk_of thirty_image) ROOTINO) in
  Fsst (cold_lst (img thirty_image) FSSIZE 2 LOGSIZE 0) sb (fun n => if (n =? 0)%nat then root else inode0).

Lemma mkfs_root_hole_witness :
  readi (fun _ => None) 0 512 DESIZE ctx0 thirty_mounted = Panic "log_write outside of trans" /\
  wp (main (([102], Some []) :: (arg_of <$> ex_thirty))) ctx0 start (fun _ _ s =>
    let v := disk_of s in let i := node v ROOTINO in
    isize i = 2 * BSIZE /\ bmap_of v i 1 = 0 /\ ~ file_ok sb v i).
Proof.
  split; [by vm_compute|].
  eapply wp_mono; [|apply (mkfs_root_hole [102] [] ex_thirty ctx0); [by_decide|by_decide|by vm_compute]].
  cbv beta zeta. intros _ _ s (H1 & _ & H2 & H3 & _). by split_and!.
Defined.
