(* ===== verification/X86.v ===== *)
(** * The processor, as far as the kernel's assembly uses it

    Registers, segment and control registers, memory at the addresses the
    code uses, and the instructions that occur in swtch.S, trapasm.S,
    vectors.S, usys.S, initcode.S, entry.S, entryother.S and bootasm.S.  The
    processor's side of interrupts reads the tables the kernel set up: gates,
    segment descriptors and the task state segment are decoded from the
    words in memory. *)
From stdpp Require Import functions.
From S2P Require Import Prelude CString Mmu.
#[local] Set Default Proof Using "Type".

Inductive reg := EAX | ECX | EDX | EBX | ESP | EBP | ESI | EDI.
Inductive sreg := CS | DS | ES | FS | GS | SS.
Inductive creg := CR0 | CR3 | CR4.

Record regs := Regs {
  eax : Z; ecx : Z; edx : Z; ebx : Z; esp : Z; ebp : Z; esi : Z; edi : Z
}.
Record segs := Segs { cs : Z; ds : Z; es : Z; fs : Z; gs : Z; ss : Z }.
Record ctls := Ctls { cr0 : Z; cr3 : Z; cr4 : Z }.

(** [gdtr] and [idtr] are the base address and the limit of the tables, [tr]
    the base of the task state segment. *)
Record cpu := Cpu {
  gp : regs; sg : segs; cr : ctls;
  eip : Z; eflags : Z; gdtr : Z * Z; idtr : Z * Z; tr : Z; memory : mem
}.
Definition gpr (c : cpu) (r : reg) : Z :=
  match r with
  | EAX => eax (gp c) | ECX => ecx (gp c) | EDX => edx (gp c) | EBX => ebx (gp c)
  | ESP => esp (gp c) | EBP => ebp (gp c) | ESI => esi (gp c) | EDI => edi (gp c)
  end.
Definition seg (c : cpu) (s : sreg) : Z :=
  match s with
  | CS => cs (sg c) | DS => ds (sg c) | ES => es (sg c) | FS => fs (sg c) | GS => gs (sg c)
  | SS => ss (sg c)
  end.
Definition ctl (c : cpu) (r : creg) : Z :=
  match r with CR0 => cr0 (cr c) | CR3 => cr3 (cr c) | CR4 => cr4 (cr c) end.

Definition upd_regs (r : reg) (v : Z) (x : regs) : regs :=
  match r with
  | EAX => Regs v (ecx x) (edx x) (ebx x) (esp x) (ebp x) (esi x) (edi x)
  | ECX => Regs (eax x) v (edx x) (ebx x) (esp x) (ebp x) (esi x) (edi x)
  | EDX => Regs (eax x) (ecx x) v (ebx x) (esp x) (ebp x) (esi x) (edi x)
  | EBX => Regs (eax x) (ecx x) (edx x) v (esp x) (ebp x) (esi x) (edi x)
  | ESP => Regs (eax x) (ecx x) (edx x) (ebx x) v (ebp x) (esi x) (edi x)
  | EBP => Regs (eax x) (ecx x) (edx x) (ebx x) (esp x) v (esi x) (edi x)
  | ESI => Regs (eax x) (ecx x) (edx x) (ebx x) (esp x) (ebp x) v (edi x)
  | EDI => Regs (eax x) (ecx x) (edx x) (ebx x) (esp x) (ebp x) (esi x) v
  end.
Definition upd_segs (r : sreg) (v : Z) (x : segs) : segs :=
  match r with
  | CS => Segs v (ds x) (es x) (fs x) (gs x) (ss x)
  | DS => Segs (cs x) v (es x) (fs x) (gs x) (ss x)
  | ES => Segs (cs x) (ds x) v (fs x) (gs x) (ss x)
  | FS => Segs (cs x) (ds x) (es x) v (gs x) (ss x)
  | GS => Segs (cs x) (ds x) (es x) (fs x) v (ss x)
  | SS => Segs (cs x) (ds x) (es x) (fs x) (gs x) v
  end.
Definition upd_ctls (r : creg) (v : Z) (x : ctls) : ctls :=
  match r with
  | CR0 => Ctls v (cr3 x) (cr4 x)
  | CR3 => Ctls (cr0 x) v (cr4 x)
  | CR4 => Ctls (cr0 x) (cr3 x) v
  end.
Definition set_gpr (r : reg) (v : Z) (c : cpu) : cpu :=
  Cpu (upd_regs r v (gp c)) (sg c) (cr c) (eip c) (eflags c) (gdtr c) (idtr c) (tr c) (memory c).
Definition set_seg (s : sreg) (v : Z) (c : cpu) : cpu :=
  Cpu (gp c) (upd_segs s v (sg c)) (cr c) (eip c) (eflags c) (gdtr c) (idtr c) (tr c) (memory c).
Definition set_ctl (r : creg) (v : Z) (c : cpu) : cpu :=
  Cpu (gp c) (sg c) (upd_ctls r v (cr c)) (eip c) (eflags c) (gdtr c) (idtr c) (tr c) (memory c).
Definition set_eip (v : Z) (c : cpu) : cpu :=
  Cpu (gp c) (sg c) (cr c) v (eflags c) (gdtr c) (idtr c) (tr c) (memory c).
Definition set_eflags (v : Z) (c : cpu) : cpu :=
  Cpu (gp c) (sg c) (cr c) (eip c) v (gdtr c) (idtr c) (tr c) (memory c).
Definition set_gdtr (v : Z * Z) (c : cpu) : cpu :=
  Cpu (gp c) (sg c) (cr c) (eip c) (eflags c) v (idtr c) (tr c) (memory c).
Definition set_idtr (v : Z * Z) (c : cpu) : cpu :=
  Cpu (gp c) (sg c) (cr c) (eip c) (eflags c) (gdtr c) v (tr c) (memory c).
Definition set_tr (v : Z) (c : cpu) : cpu :=
  Cpu (gp c) (sg c) (cr c) (eip c) (eflags c) (gdtr c) (idtr c) v (memory c).
Definition set_mem (v : mem) (c : cpu) : cpu :=
  Cpu (gp c) (sg c) (cr c) (eip c) (eflags c) (gdtr c) (idtr c) (tr c) v.

Definition FL_IF : Z := 512.
Definition clear_if (f : Z) : Z := Z.land f (Z.lnot FL_IF).
(** The flags in a handler: trap, nested task, resume and virtual-8086 mode are
    off, and behind an interrupt gate interrupts too. *)
Definition gate_flags (intr : bool) (f : Z) : Z := Z.land (if intr then clear_if f else f) (Z.lnot 0x34100).
Definition cpl (c : cpu) : Z := seg c CS mod 4.

(** ** Descriptors as the processor reads them *)

(** Bits [lo .. lo + n) of a word. *)
Definition bits (w lo n : Z) : Z := w / 2 ^ lo mod 2 ^ n.

(** A descriptor is two words. *)
Record sdesc := SDesc { d_base : Z; d_limit : Z; d_type : Z; d_s : Z; d_dpl : Z; d_p : Z; d_32 : Z }.
Definition decode_seg (w0 w1 : Z) : sdesc :=
  let lim := bits w0 0 16 + 65536 * bits w1 16 4 in
  SDesc (bits w0 16 16 + 65536 * bits w1 0 8 + 16777216 * bits w1 24 8)
    (if bits w1 23 1 =? 1 then 4096 * lim + 4095 else lim)
    (bits w1 8 4) (bits w1 12 1) (bits w1 13 2) (bits w1 15 1) (bits w1 22 1).

Record gate := Gate { g_off : Z; g_sel : Z; g_type : Z; g_dpl : Z; g_p : Z }.
Definition decode_gate (w0 w1 : Z) : gate :=
  Gate (bits w0 0 16 + 65536 * bits w1 16 16) (bits w0 16 16) (bits w1 8 4) (bits w1 13 2) (bits w1 15 1).

(** The descriptor a selector names, in the global table. *)
Definition desc (c : cpu) (sel : Z) : sdesc :=
  let a := fst (gdtr c) + 8 * (sel / 8) in
  decode_seg (load32 (memory c) a) (load32 (memory c) (a + 4)).
Definition gate_of (c : cpu) (n : Z) : gate :=
  let a := fst (idtr c) + 8 * n in
  decode_gate (load32 (memory c) a) (load32 (memory c) (a + 4)).

(** ** Instructions *)

(** What processors may differ in: pushing a segment register writes a whole
    word or its low half only; the status flags after arithmetic, of which the
    interrupt flag is not one. *)
Class X86 := {
  push_zext : bool;
  alu_flags : Z -> Z -> Z;
  alu_if : forall r f, Z.testbit (alu_flags r f) 9 = Z.testbit f 9
}.

(** An example. *)
Definition ex_x86 : X86 := {| push_zext := true; alu_flags := fun _ f => f; alu_if := fun _ _ => eq_refl |}.

Inductive instr :=
  | pushl (r : reg) | pushl_imm (v : Z) | pushl_seg (s : sreg) | pushal
  | popl (r : reg) | popl_seg (s : sreg) | popal
  | movl (src dst : reg) | movl_imm (v : Z) (dst : reg) | movw_imm (v : Z) (dst : reg)
  | movl_load (disp : Z) (base dst : reg) | movl_abs (a : Z) (dst : reg)
  | movl_store (src base : reg)
  | movw_seg (src : reg) (s : sreg) | movl_ctl (src : creg) (dst : reg) | movl_to_ctl (src : reg) (dst : creg)
  | addl_imm (v : Z) (dst : reg) | orl_imm (v : Z) (dst : reg) | xorw (src dst : reg)
  | cli | lgdt16 (a : Z) | ret | iret | jmp (a : Z) | jmp_reg (r : reg) | call (a next : Z)
  | ljmp (sel a : Z).

Section machine.
Context {X : X86}.

Definition push (v : Z) (c : cpu) : cpu :=
  let sp := u32 (gpr c ESP - 4) in
  set_mem (store32 (memory c) sp v) (set_gpr ESP sp c).
(** The word on top of the stack, and the stack without it. *)
Definition top (c : cpu) : Z := load32 (memory c) (gpr c ESP).
Definition drop4 (n : Z) (c : cpu) : cpu := set_gpr ESP (u32 (gpr c ESP + n)) c.

(** The word that pushing the selector [s] leaves at [a]. *)
Definition seg_word (c : cpu) (s : sreg) : Z :=
  if push_zext then seg c s
  else seg c s + 65536 * bits (load32 (memory c) (u32 (gpr c ESP - 4))) 16 16.

(** Data segments that the new privilege level may not use become null. *)
Definition hide (lvl : Z) (c : cpu) : cpu :=
  let keep s := if (4 <=? seg c s) && (d_dpl (desc c (seg c s)) <? lvl) then 0 else seg c s in
  set_seg DS (keep DS) (set_seg ES (keep ES) (set_seg FS (keep FS) (set_seg GS (keep GS) c))).

Definition do_iret (c : cpu) : cpu :=
  let old := cpl c in
  let c := drop4 4 (set_eip (top c) c) in
  let c := drop4 4 (set_seg CS (top c mod 65536) c) in
  let c := drop4 4 (set_eflags (top c) c) in
  if old <? cpl c then
    let sp := top c in
    let c := drop4 4 c in
    hide (cpl c) (set_gpr ESP sp (set_seg SS (top c mod 65536) c))
  else c.

Definition step (i : instr) (c : cpu) : cpu :=
  match i with
  | pushl r => push (gpr c r) c
  | pushl_imm v => push v c
  | pushl_seg s => push (seg_word c s) c
  | pushal =>
      let sp := gpr c ESP in
      push (gpr c EDI) (push (gpr c ESI) (push (gpr c EBP) (push sp
        (push (gpr c EBX) (push (gpr c EDX) (push (gpr c ECX) (push (gpr c EAX) c)))))))
  | popl r => let v := top c in set_gpr r v (drop4 4 c)
  | popl_seg s => let v := top c in set_seg s (v mod 65536) (drop4 4 c)
  | popal =>
      let w k := load32 (memory c) (gpr c ESP + 4 * k) in
      drop4 32 (set_gpr EDI (w 0) (set_gpr ESI (w 1) (set_gpr EBP (w 2) (set_gpr EBX (w 4)
        (set_gpr EDX (w 5) (set_gpr ECX (w 6) (set_gpr EAX (w 7) c)))))))
  | movl src dst => set_gpr dst (gpr c src) c
  | movl_imm v dst => set_gpr dst (u32 v) c
  | movw_imm v dst => set_gpr dst (gpr c dst / 65536 * 65536 + u16 v) c
  | movl_load disp base dst => set_gpr dst (load32 (memory c) (u32 (gpr c base + disp))) c
  | movl_abs a dst => set_gpr dst (load32 (memory c) a) c
  | movl_store src base => set_mem (store32 (memory c) (gpr c base) (gpr c src)) c
  | movw_seg src s => set_seg s (u16 (gpr c src)) c
  | movl_ctl src dst => set_gpr dst (ctl c src) c
  | movl_to_ctl src dst => set_ctl dst (gpr c src) c
  | addl_imm v dst =>
      let r := u32 (gpr c dst + v) in set_eflags (alu_flags r (eflags c)) (set_gpr dst r c)
  | orl_imm v dst =>
      let r := Z.lor (gpr c dst) v in set_eflags (alu_flags r (eflags c)) (set_gpr dst r c)
  | xorw src dst =>
      let r := Z.lxor (u16 (gpr c src)) (u16 (gpr c dst)) in
      set_eflags (alu_flags r (eflags c)) (set_gpr dst (gpr c dst / 65536 * 65536 + r) c)
  | cli => set_eflags (clear_if (eflags c)) c
  | lgdt16 a => set_gdtr (load32 (memory c) (a + 2) mod 16777216, load32 (memory c) a mod 65536) c
  | ret => drop4 4 (set_eip (top c) c)
  | iret => do_iret c
  | jmp a => set_eip a c
  | jmp_reg r => set_eip (gpr c r) c
  | call a next => set_eip a (push next c)
  | ljmp sel a => set_eip a (set_seg CS sel c)
  end.

(** A straight piece of code; a transfer of control is its last instruction. *)
Definition run (l : list instr) (c : cpu) : cpu := fold_left (fun c i => step i c) l c.

Lemma run_cons i l c : run (i :: l) c = run l (step i c).
Proof. done. Qed.
Lemma run_nil c : run [] c = c.
Proof. done. Qed.
Lemma run_app l l' c : run (l ++ l') c = run l' (run l c).
Proof. unfold run. apply fold_left_app. Qed.

(** ** Interrupts *)

(** The processor's part of entering the handler of vector [n]: on a change
    to an inner level the stack comes from the task state segment, and the
    old one is saved on it. *)
Definition deliver (n : Z) (err : option Z) (c : cpu) : cpu :=
  let g := gate_of c n in
  let lvl := d_dpl (desc c (g_sel g)) in
  let c1 :=
    if lvl <? cpl c then
      let sp := gpr c ESP in let ss := seg c SS in
      let c' := set_gpr ESP (load32 (memory c) (tr c + 4))
        (set_seg SS (bits (load32 (memory c) (tr c + 8)) 0 16) c) in
      push sp (push ss c')
    else c in
  let c2 := push (eip c) (push (seg c CS) (push (eflags c) c1)) in
  let c3 := match err with Some e => push e c2 | None => c2 end in
  set_eip (g_off g) (set_seg CS (g_sel g / 4 * 4 + lvl)
    (set_eflags (gate_flags (g_type g =? 14) (eflags c)) c3)).

(** [int n], two bytes long: the gate must admit the current level, and the
    general protection fault is raised otherwise. *)
Definition int_ (n : Z) (c : cpu) : cpu :=
  if g_dpl (gate_of c n) <? cpl c then deliver 13 (Some (8 * n + 2)) c
  else deliver n None (set_eip (u32 (eip c + 2)) c).
End machine.

(** Execute one instruction on a state given by its fields. *)
Ltac eval_cpu t :=
  eval cbv beta iota zeta delta [step do_iret cpl push top drop4 seg_word gpr seg ctl set_gpr set_seg set_ctl set_eip
    set_eflags set_gdtr set_idtr set_tr set_mem upd_regs upd_segs upd_ctls gp sg cr eax ecx edx ebx esp
    ebp esi edi cs ds es fs gs ss cr0 cr3 cr4 eip eflags gdtr idtr tr memory] in t.
Ltac push1 :=
  match goal with
  | |- context [push ?v (Cpu ?a ?b ?c ?d ?e ?f ?g ?h ?i)] =>
      let c' := eval_cpu (push v (Cpu a b c d e f g h i)) in
      change (push v (Cpu a b c d e f g h i)) with c'
  end.
Ltac set1 :=
  match goal with
  | |- context [?f ?v (Cpu ?a ?b ?c ?d ?e ?f' ?g ?h ?i)] =>
      let c' := eval_cpu (f v (Cpu a b c d e f' g h i)) in
      change (f v (Cpu a b c d e f' g h i)) with c'
  end.
Ltac exec1 :=
  rewrite run_cons;
  match goal with
  | |- context [step ?i ?c] => let c' := eval_cpu (step i c) in change (step i c) with c'
  end.

(** Addresses do not wrap around, and words are read where they were stored. *)
Ltac norm_u32 :=
  repeat match goal with |- context [u32 ?x] => rewrite (u32_small x) by (unfold is_u32; lia) end;
  repeat match goal with
  | |- context [?x - Z.pos ?a - Z.pos ?b] =>
      let r := eval vm_compute in (Z.pos (a + b)) in replace (x - Z.pos a - Z.pos b) with (x - r) by lia
  | |- context [?x + Z.pos ?a + Z.pos ?b] =>
      let r := eval vm_compute in (Z.pos (a + b)) in replace (x + Z.pos a + Z.pos b) with (x + r) by lia
  end.
Ltac load_simp :=
  repeat match goal with
  | |- context [load32 (store32 ?m ?a ?v) ?b] =>
      first [ replace b with a by lia; rewrite (load32_store32 m a v) by (done || (unfold is_u32 in *; lia))
            | rewrite (load32_store32_ne m a b v) by lia ]
  end.
