(* ===== verification/Gates.v ===== *)
(** * Segments, gates and the task state (mmu.h, x86.h, vm.c, trap.c)

    The descriptor structures of mmu.h with their macros, the routines that
    fill the tables ([seginit], [tvinit], the part of [switchuvm] that sets
    up the task state) and load them, and what the processor then reads. *)
From stdpp Require Import functions.
From S2P Require Import Prelude CString Mmu X86.
#[local] Set Default Proof Using "Type".

Definition SEG_KCODE : Z := 1.
Definition SEG_KDATA : Z := 2.
Definition SEG_UCODE : Z := 3.
Definition SEG_UDATA : Z := 4.
Definition SEG_TSS : Z := 5.
Definition NSEGS : Z := 6.
Definition DPL_USER : Z := 3.
Definition STA_X : Z := 8.
Definition STA_W : Z := 2.
Definition STA_R : Z := 2.
Definition STS_T32A : Z := 9.
Definition STS_IG32 : Z := 14.
Definition STS_TG32 : Z := 15.
Definition T_SYSCALL : Z := 64.

(** [struct segdesc]: a structure of bit fields, low bits first. *)
Record segdesc := Segdesc {
  lim_15_0 : Z; base_15_0 : Z; base_23_16 : Z; sd_type : Z; sd_s : Z; sd_dpl : Z; sd_p : Z;
  lim_19_16 : Z; sd_avl : Z; sd_rsv1 : Z; sd_db : Z; sd_g : Z; base_31_24 : Z
}.
Definition segdesc_words (d : segdesc) : Z * Z :=
  (bits (lim_15_0 d) 0 16 + 2 ^ 16 * bits (base_15_0 d) 0 16,
   bits (base_23_16 d) 0 8 + 2 ^ 8 * bits (sd_type d) 0 4 + 2 ^ 12 * bits (sd_s d) 0 1 +
   2 ^ 13 * bits (sd_dpl d) 0 2 + 2 ^ 15 * bits (sd_p d) 0 1 + 2 ^ 16 * bits (lim_19_16 d) 0 4 +
   2 ^ 20 * bits (sd_avl d) 0 1 + 2 ^ 21 * bits (sd_rsv1 d) 0 1 + 2 ^ 22 * bits (sd_db d) 0 1 +
   2 ^ 23 * bits (sd_g d) 0 1 + 2 ^ 24 * bits (base_31_24 d) 0 8).

Definition SEG (type base lim dpl : Z) : segdesc :=
  Segdesc (Z.land (Z.shiftr lim 12) 0xffff) (Z.land (u32 base) 0xffff)
    (Z.land (Z.shiftr (u32 base) 16) 0xff) type 1 dpl 1
    (Z.shiftr (u32 lim) 28) 0 0 1 1 (Z.shiftr (u32 base) 24).
Definition SEG16 (type base lim dpl : Z) : segdesc :=
  Segdesc (Z.land lim 0xffff) (Z.land (u32 base) 0xffff)
    (Z.land (Z.shiftr (u32 base) 16) 0xff) type 1 dpl 1
    (Z.shiftr (u32 lim) 16) 0 0 1 0 (Z.shiftr (u32 base) 24).
Definition set_sd_s (v : Z) (d : segdesc) : segdesc :=
  Segdesc (lim_15_0 d) (base_15_0 d) (base_23_16 d) (sd_type d) v (sd_dpl d) (sd_p d)
    (lim_19_16 d) (sd_avl d) (sd_rsv1 d) (sd_db d) (sd_g d) (base_31_24 d).

(** [struct gatedesc] and [SETGATE]. *)
Record gatedesc := Gatedesc {
  off_15_0 : Z; gd_cs : Z; gd_args : Z; gd_rsv1 : Z; gd_type : Z; gd_s : Z; gd_dpl : Z; gd_p : Z;
  off_31_16 : Z
}.
Definition gatedesc_words (g : gatedesc) : Z * Z :=
  (bits (off_15_0 g) 0 16 + 2 ^ 16 * bits (gd_cs g) 0 16,
   bits (gd_args g) 0 5 + 2 ^ 5 * bits (gd_rsv1 g) 0 3 + 2 ^ 8 * bits (gd_type g) 0 4 +
   2 ^ 12 * bits (gd_s g) 0 1 + 2 ^ 13 * bits (gd_dpl g) 0 2 + 2 ^ 15 * bits (gd_p g) 0 1 +
   2 ^ 16 * bits (off_31_16 g) 0 16).
Definition SETGATE (istrap : bool) (sel off d : Z) : gatedesc :=
  Gatedesc (Z.land (u32 off) 0xffff) sel 0 0 (if istrap then STS_TG32 else STS_IG32) 0 d 1
    (Z.shiftr (u32 off) 16).

(** Storing a descriptor in the table at [a]. *)
Definition put_desc (m : mem) (a : Z) (w : Z * Z) : mem := store32 (store32 m a (fst w)) (a + 4) (snd w).

(** ** Loading the tables (x86.h) *)

(** [lgdt] and [lidt]: the operand is three half words. *)
Definition table_reg (p size : Z) : Z * Z :=
  let pd0 := u16 (size - 1) in let pd1 := u16 p in let pd2 := u16 (Z.shiftr p 16) in
  (pd1 + 65536 * pd2, pd0).
Definition lgdt (p size : Z) (c : cpu) : cpu := set_gdtr (table_reg p size) c.
Definition lidt (p size : Z) (c : cpu) : cpu := set_idtr (table_reg p size) c.
(** The task register takes the base of the segment the selector names. *)
Definition ltr (sel : Z) (c : cpu) : cpu := set_tr (d_base (desc c sel)) c.
Definition lcr3 (v : Z) (c : cpu) : cpu := set_ctl CR3 v c.

(** ** Per-CPU tables *)

(** Offsets in [struct cpu] (proc.h) and in [struct taskstate]. *)
Definition CPU_TS : Z := 8.
Definition CPU_GDT : Z := 112.
Definition CPU_STARTED : Z := 160.
Definition CPUSIZE : Z := 176.
Definition TSSIZE : Z := 104.

Definition put_seg (n : Z) (d : segdesc) (at_ : Z) (c : cpu) : cpu :=
  set_mem (put_desc (memory c) (at_ + CPU_GDT + 8 * n) (segdesc_words d)) c.

(** [cpu_at] is the address of this processor's [struct cpu]. *)
Definition seginit (cpu_at : Z) (c : cpu) : cpu :=
  let c := put_seg SEG_KCODE (SEG (Z.lor STA_X STA_R) 0 0xffffffff 0) cpu_at c in
  let c := put_seg SEG_KDATA (SEG STA_W 0 0xffffffff 0) cpu_at c in
  let c := put_seg SEG_UCODE (SEG (Z.lor STA_X STA_R) 0 0xffffffff DPL_USER) cpu_at c in
  let c := put_seg SEG_UDATA (SEG STA_W 0 0xffffffff DPL_USER) cpu_at c in
  lgdt (cpu_at + CPU_GDT) (8 * NSEGS) c.

(** The part of [switchuvm] after its checks. *)
Definition switch_tss (cpu_at kstack pgdir : Z) (c : cpu) : cpu :=
  let c := put_seg SEG_TSS (set_sd_s 0 (SEG16 STS_T32A (cpu_at + CPU_TS) (TSSIZE - 1) 0)) cpu_at c in
  let m := store16 (memory c) (cpu_at + CPU_TS + 8) (Z.shiftl SEG_KDATA 3) in
  let m := store32 m (cpu_at + CPU_TS + 4) (u32 (kstack + KSTACKSIZE)) in
  let m := store16 m (cpu_at + CPU_TS + 102) 0xFFFF in
  lcr3 (V2P pgdir) (ltr (Z.shiftl SEG_TSS 3) (set_mem m c)).

(** ** The interrupt table (trap.c) *)

Section idt.
(** The addresses of [idt] and [vectors]. *)
Variables (idt vectors : Z).

Definition set_gate (i : Z) (istrap : bool) (dpl : Z) (c : cpu) : cpu :=
  let off := load32 (memory c) (vectors + 4 * i) in
  set_mem (put_desc (memory c) (idt + 8 * i)
    (gatedesc_words (SETGATE istrap (Z.shiftl SEG_KCODE 3) off dpl))) c.
Fixpoint tvinit_loop (n : nat) (i : Z) (c : cpu) : cpu :=
  match n with O => c | S n' => tvinit_loop n' (i + 1) (set_gate i false 0 c) end.
Definition tvinit (c : cpu) : cpu :=
  set_gate T_SYSCALL true DPL_USER (tvinit_loop 256 0 c).

Definition idtinit (c : cpu) : cpu := lidt idt (8 * 256) c.
End idt.

(** ** What the processor reads *)

Lemma land_ff x : Z.land x 0xff = x mod 256.
Proof. apply (Z.land_ones x 8). lia. Qed.
Lemma land_ffff x : Z.land x 0xffff = x mod 65536.
Proof. apply (Z.land_ones x 16). lia. Qed.

Ltac bits_lia :=
  unfold bits; rewrite ?land_ff, ?land_ffff, ?Z.shiftr_div_pow2 by lia;
  change (2 ^ 0) with 1 in *; change (2 ^ 1) with 2 in *; change (2 ^ 2) with 4 in *; change (2 ^ 3) with 8 in *;
  change (2 ^ 4) with 16 in *; change (2 ^ 5) with 32 in *; change (2 ^ 8) with 256 in *;
  change (2 ^ 12) with 4096 in *; change (2 ^ 13) with 8192 in *; change (2 ^ 15) with 32768 in *;
  change (2 ^ 16) with 65536 in *; change (2 ^ 20) with 1048576 in *; change (2 ^ 21) with 2097152 in *;
  change (2 ^ 22) with 4194304 in *; change (2 ^ 23) with 8388608 in *; change (2 ^ 24) with 16777216 in *;
  change (2 ^ 28) with 268435456 in *; wrap_lia.

Lemma gate_roundtrip istrap sel off d : is_u32 off -> 0 <= sel < 65536 -> 0 <= d < 4 ->
  let w := gatedesc_words (SETGATE istrap sel off d) in
  is_u32 (fst w) /\ is_u32 (snd w) /\
  decode_gate (fst w) (snd w) = Gate off sel (if istrap then 15 else 14) d 1.
Proof.
  intros Ho Hs Hd. cbv zeta. unfold gatedesc_words, SETGATE, decode_gate, is_u32 in *.
  cbn [off_15_0 gd_cs gd_args gd_rsv1 gd_type gd_s gd_dpl gd_p off_31_16 fst snd].
  rewrite (u32_small off) by (unfold is_u32; lia).
  set (t := if istrap then STS_TG32 else STS_IG32).
  assert (Ht : 14 <= t <= 15 /\ t = if istrap then 15 else 14) by (unfold t; by destruct istrap).
  destruct Ht as [Ht Et]. rewrite <- Et. clearbody t. clear Et istrap.
  split_and!; [bits_lia|bits_lia|bits_lia|bits_lia|].
  f_equal; bits_lia.
Qed.

Lemma tss_roundtrip base : is_u32 base ->
  let w := segdesc_words (set_sd_s 0 (SEG16 STS_T32A base (TSSIZE - 1) 0)) in
  is_u32 (fst w) /\ is_u32 (snd w) /\
  decode_seg (fst w) (snd w) = SDesc base 103 9 0 0 1 1.
Proof.
  intros Hb. cbv zeta. unfold segdesc_words, set_sd_s, SEG16, decode_seg, is_u32 in *.
  cbn [lim_15_0 base_15_0 base_23_16 sd_type sd_s sd_dpl sd_p lim_19_16 sd_avl sd_rsv1 sd_db sd_g base_31_24 fst snd].
  rewrite (u32_small base) by (unfold is_u32; lia).
  change (Z.land (TSSIZE - 1) 0xffff) with 103. change (Z.shiftr (u32 (TSSIZE - 1)) 16) with 0.
  change STS_T32A with 9.
  split_and!; [bits_lia|bits_lia|bits_lia|bits_lia|].
  assert (E : bits (bits (Z.land (Z.shiftr base 16) 255) 0 8 + 2 ^ 8 * bits 9 0 4 + 2 ^ 12 * bits 0 0 1 +
    2 ^ 13 * bits 0 0 2 + 2 ^ 15 * bits 1 0 1 + 2 ^ 16 * bits 0 0 4 + 2 ^ 20 * bits 0 0 1 +
    2 ^ 21 * bits 0 0 1 + 2 ^ 22 * bits 1 0 1 + 2 ^ 23 * bits 0 0 1 + 2 ^ 24 * bits (Z.shiftr base 24) 0 8) 23 1 = 0)
    by bits_lia.
  rewrite E. cbn [Z.eqb]. f_equal; bits_lia.
Qed.

(** Descriptors in memory. *)
Lemma put_desc_same m a w : is_u32 (fst w) -> is_u32 (snd w) ->
  load32 (put_desc m a w) a = fst w /\ load32 (put_desc m a w) (a + 4) = snd w.
Proof.
  intros H1 H2. unfold put_desc. split; [|by apply load32_store32].
  rewrite load32_store32_ne by lia. by apply load32_store32.
Qed.
Lemma put_desc_ne m a w b : a + 8 <= b \/ b + 4 <= a -> load32 (put_desc m a w) b = load32 m b.
Proof. intros H. unfold put_desc. rewrite !load32_store32_ne by lia. done. Qed.
Lemma put_desc_out m a w x : ~ a <= x < a + 8 -> put_desc m a w x = m x.
Proof. intros H. unfold put_desc, store32. zcases; done. Qed.

Lemma table_reg_spec p size : is_u32 p -> 0 < size <= 65536 -> table_reg p size = (p, size - 1).
Proof. intros Hp Hs. unfold table_reg. rewrite Z.shiftr_div_pow2 by lia. f_equal; wrap_lia. Qed.

(** The flat segments: base 0, all 4 GB. *)
Definition flat (type dpl : Z) : sdesc := SDesc 0 0xffffffff type 1 dpl 1 1.
(** The segments every processor has after [seginit]. *)
Record segments (at_ : Z) (c : cpu) : Prop := {
  sg_gdt : gdtr c = (at_ + CPU_GDT, 47);
  sg_kcode : desc c (Z.shiftl SEG_KCODE 3) = flat 10 0;
  sg_kdata : desc c (Z.shiftl SEG_KDATA 3) = flat 2 0;
  sg_ucode : desc c (Z.lor (Z.shiftl SEG_UCODE 3) DPL_USER) = flat 10 3;
  sg_udata : desc c (Z.lor (Z.shiftl SEG_UDATA 3) DPL_USER) = flat 2 3
}.

Lemma seginit_segments at_ c : 0 <= at_ -> at_ + CPUSIZE <= 4294967296 -> segments at_ (seginit at_ c).
Proof.
  intros H0 H1. unfold CPUSIZE in H1.
  assert (E : gdtr (seginit at_ c) = (at_ + CPU_GDT, 47)).
  { unfold seginit, lgdt. cbn [gdtr set_gdtr]. apply table_reg_spec; [unfold is_u32, CPU_GDT|unfold NSEGS]; lia. }
  assert (D : forall n d w, 0 <= n -> load32 (memory (seginit at_ c)) (at_ + CPU_GDT + 8 * n) = fst w ->
    load32 (memory (seginit at_ c)) (at_ + CPU_GDT + 8 * n + 4) = snd w -> decode_seg (fst w) (snd w) = d ->
    forall sel, sel / 8 = n -> desc (seginit at_ c) sel = d).
  { intros n d w Hn L1 L2 Hd sel Hs. unfold desc. rewrite E, Hs. cbn [fst]. rewrite L1, L2. exact Hd. }
  unfold seginit, lgdt, put_seg in D. cbn [memory set_mem set_gdtr] in D.
  unfold SEG_KCODE, SEG_KDATA, SEG_UCODE, SEG_UDATA, CPU_GDT in *.
  constructor; [done|..].
  - eapply (D 1); [done| | | |done]; [..|instantiate (1 := segdesc_words (SEG (Z.lor STA_X STA_R) 0 0xffffffff 0)); by vm_compute];
      rewrite !put_desc_ne by lia; by apply put_desc_same; vm_compute.
  - eapply (D 2); [done| | | |done]; [..|instantiate (1 := segdesc_words (SEG STA_W 0 0xffffffff 0)); by vm_compute];
      rewrite !put_desc_ne by lia; by apply put_desc_same; vm_compute.
  - eapply (D 3); [done| | | |done]; [..|instantiate (1 := segdesc_words (SEG (Z.lor STA_X STA_R) 0 0xffffffff DPL_USER)); by vm_compute];
      rewrite !put_desc_ne by lia; by apply put_desc_same; vm_compute.
  - eapply (D 4); [done| | | |done]; [..|instantiate (1 := segdesc_words (SEG STA_W 0 0xffffffff DPL_USER)); by vm_compute];
      rewrite ?put_desc_ne by lia; by apply put_desc_same; vm_compute.
Qed.

(** The interrupt table after [tvinit] and [idtinit], with the handlers [h]. *)
Record handlers (h : Z -> Z) (c : cpu) : Prop := {
  hd_gate : forall n, 0 <= n < 256 -> gate_of c n =
    if n =? T_SYSCALL then Gate (h n) 8 15 3 1 else Gate (h n) 8 14 0 1
}.

Section tables.
Variables (idt vectors : Z).
Hypothesis Hidt : 0 <= idt /\ idt + 2048 <= 4294967296.
Hypothesis Hvec : idt + 2048 <= vectors \/ vectors + 1024 <= idt.
Implicit Types (c : cpu) (m : mem).

Definition gate_words (m : mem) (i : Z) (istrap : bool) (dpl : Z) : Z * Z :=
  gatedesc_words (SETGATE istrap 8 (load32 m (vectors + 4 * i)) dpl).

Lemma set_gate_mem i istrap dpl c :
  memory (set_gate idt vectors i istrap dpl c) = put_desc (memory c) (idt + 8 * i) (gate_words (memory c) i istrap dpl).
Proof. done. Qed.

Lemma tvinit_loop_spec n : forall i c, mem_wf (memory c) -> 0 <= i -> i + Z.of_nat n <= 256 ->
  let c' := tvinit_loop idt vectors n i c in
  (forall x, ~ idt + 8 * i <= x < idt + 8 * (i + Z.of_nat n) -> memory c' x = memory c x) /\
  (forall j, i <= j < i + Z.of_nat n ->
     load32 (memory c') (idt + 8 * j) = fst (gate_words (memory c) j false 0) /\
     load32 (memory c') (idt + 8 * j + 4) = snd (gate_words (memory c) j false 0)).
Proof using Hidt Hvec.
  induction n as [|n IH]; intros i c Hw Hi Hn; cbn [tvinit_loop]; cbv zeta.
  - split; [done|lia].
  - set (c1 := set_gate idt vectors i false 0 c).
    assert (G : is_u32 (fst (gate_words (memory c) i false 0)) /\ is_u32 (snd (gate_words (memory c) i false 0))).
    { destruct (gate_roundtrip false 8 (load32 (memory c) (vectors + 4 * i)) 0) as (G1 & G2 & _);
        [by apply load32_range|lia|lia|]. done. }
    destruct (put_desc_same (memory c) (idt + 8 * i) _ (proj1 G) (proj2 G)) as [P1 P2].
    assert (Hw1 : mem_wf (memory c1)) by (unfold c1; rewrite set_gate_mem; by do 2 apply store32_wf).
    destruct (IH (i + 1) c1 Hw1 ltac:(lia) ltac:(lia)) as [A B].
    assert (Hout : forall x, ~ idt + 8 * i <= x < idt + 8 * i + 8 -> memory c1 x = memory c x).
    { intros x Hx. unfold c1. rewrite set_gate_mem. by apply put_desc_out. }
    split.
    + intros x Hx. rewrite A by lia. apply Hout. lia.
    + intros j Hj. destruct (decide (j = i)) as [->|Hne].
      * rewrite <- P1, <- P2. unfold c1 in *. rewrite set_gate_mem in A.
        split; apply load32_ext; intros x Hx; apply A; lia.
      * assert (E : gate_words (memory c1) j false 0 = gate_words (memory c) j false 0).
        { unfold gate_words. do 2 f_equal. apply load32_ext. intros x Hx. apply Hout. lia. }
        rewrite <- E. apply B. lia.
Qed.

(** The table holds a gate for every vector, and only the one for system
    calls can be used by user code. *)
Lemma tvinit_handlers c : mem_wf (memory c) ->
  let c' := idtinit idt (tvinit idt vectors c) in
  handlers (fun n => load32 (memory c) (vectors + 4 * n)) c' /\
  (forall x, ~ idt <= x < idt + 2048 -> memory c' x = memory c x).
Proof using Hidt Hvec.
  intros Hw. cbv zeta. destruct (tvinit_loop_spec 256 0 c Hw ltac:(lia) ltac:(lia)) as [A B].
  set (c1 := tvinit_loop idt vectors 256 0 c) in *.
  assert (E : forall j, 0 <= j < 256 -> load32 (memory c1) (vectors + 4 * j) = load32 (memory c) (vectors + 4 * j)).
  { intros j Hj. apply load32_ext. intros x Hx. apply A. lia. }
  assert (Hm : memory (idtinit idt (tvinit idt vectors c)) =
    put_desc (memory c1) (idt + 8 * T_SYSCALL) (gate_words (memory c1) T_SYSCALL true DPL_USER)) by done.
  assert (Hi : idtr (idtinit idt (tvinit idt vectors c)) = (idt, 2047)).
  { unfold idtinit, lidt. cbn [idtr set_idtr]. apply table_reg_spec; [unfold is_u32|]; lia. }
  assert (G : forall j t d, 0 <= d < 4 -> let w := gate_words (memory c) j t d in
    is_u32 (fst w) /\ is_u32 (snd w) /\
    decode_gate (fst w) (snd w) = Gate (load32 (memory c) (vectors + 4 * j)) 8 (if t then 15 else 14) d 1).
  { intros j t d Hd. apply gate_roundtrip; [by apply load32_range|lia|done]. }
  split.
  - constructor. intros n Hn. unfold gate_of. rewrite Hi, Hm. cbn [fst].
    destruct (Z.eqb_spec n T_SYSCALL) as [->|Hne].
    + destruct (G T_SYSCALL true DPL_USER ltac:(by_decide)) as (G1 & G2 & G3).
      assert (Eg : gate_words (memory c1) T_SYSCALL true DPL_USER = gate_words (memory c) T_SYSCALL true DPL_USER).
      { unfold gate_words. by rewrite E. }
      rewrite Eg. destruct (put_desc_same (memory c1) (idt + 8 * T_SYSCALL) _ G1 G2) as [-> ->]. exact G3.
    + rewrite !put_desc_ne by lia. destruct (B n ltac:(lia)) as [-> ->].
      by destruct (G n false 0 ltac:(lia)) as (_ & _ & ->).
  - intros x Hx. rewrite Hm, put_desc_out by (unfold T_SYSCALL; lia). apply A. lia.
Qed.
End tables.

(** ** The task state *)

Lemma store16_out m a v x : ~ a <= x < a + 2 -> store16 m a v x = m x.
Proof. intros H. unfold store16, store8. zcases; done. Qed.
Lemma load_store16 m a v : 0 <= v < 65536 -> bits (load32 (store16 m a v) a) 0 16 = v.
Proof.
  intros Hv. unfold bits, load32, store16, store8. zcases. change (2 ^ 0) with 1. change (2 ^ 16) with 65536.
  rewrite Z.div_1_r.
  wrap_lia.
Qed.

(** A processor on behalf of a process: its segments, and the kernel stack on
    which it enters the kernel. *)
Record task (at_ kstack : Z) (c : cpu) : Prop := {
  tk_seg : segments at_ c;
  tk_tr : tr c = at_ + CPU_TS;
  tk_esp0 : load32 (memory c) (tr c + 4) = kstack + KSTACKSIZE;
  tk_ss0 : bits (load32 (memory c) (tr c + 8)) 0 16 = Z.shiftl SEG_KDATA 3
}.

(** The tables are read from memory: they stay as long as it does. *)
Definition same_tables (at_ : Z) (c c' : cpu) : Prop :=
  gdtr c' = gdtr c /\ tr c' = tr c /\
  forall x, at_ <= x < at_ + CPUSIZE -> memory c' x = memory c x.

Lemma desc_ext at_ c c' sel : same_tables at_ c c' -> gdtr c = (at_ + CPU_GDT, 47) -> 0 <= sel < 48 ->
  desc c' sel = desc c sel.
Proof.
  intros (E1 & _ & Em) Hg Hs. unfold desc. rewrite E1, Hg. cbn [fst]. unfold CPU_GDT, CPUSIZE in *.
  f_equal; apply load32_ext; intros x Hx; apply Em; wrap_lia.
Qed.

Lemma segments_ext at_ c c' : same_tables at_ c c' -> segments at_ c -> segments at_ c'.
Proof.
  intros H [S1 S2 S3 S4 S5]. pose proof H as (E1 & _ & _).
  constructor; [congruence|..]; rewrite (desc_ext at_ c c') by (done || by vm_compute); done.
Qed.

Lemma task_ext at_ k c c' : same_tables at_ c c' -> task at_ k c -> task at_ k c'.
Proof.
  intros H [T1 T2 T3 T4]. pose proof H as (_ & E2 & Em). unfold CPU_TS, CPUSIZE in *.
  constructor; rewrite ?E2; [by eapply segments_ext|done| |].
  - rewrite <- T3. apply load32_ext. intros x Hx. apply Em. lia.
  - rewrite <- T4. f_equal. apply load32_ext. intros x Hx. apply Em. lia.
Qed.

(** [switchuvm] makes the processor enter the kernel on the stack of the
    process, and changes nothing else of its tables. *)
Lemma switch_tss_task at_ kstack pgdir c : 0 <= at_ -> at_ + CPUSIZE <= 4294967296 ->
  is_u32 (kstack + KSTACKSIZE) -> segments at_ c ->
  let c' := switch_tss at_ kstack pgdir c in
  task at_ kstack c' /\ ctl c' CR3 = V2P pgdir /\
  (forall x, ~ at_ + CPU_TS <= x < at_ + CPU_STARTED -> memory c' x = memory c x).
Proof.
  intros H0 H1 Hk [S1 S2 S3 S4 S5]. unfold CPUSIZE, CPU_TS, CPU_STARTED in *. cbv zeta.
  destruct (tss_roundtrip (at_ + 8)) as (W1 & W2 & W3); [unfold is_u32; lia|].
  set (w := segdesc_words _) in *.
  set (m1 := put_desc (memory c) (at_ + CPU_GDT + 8 * SEG_TSS) w).
  set (m4 := store16 (store32 (store16 m1 (at_ + 8 + 8) (Z.shiftl SEG_KDATA 3)) (at_ + 8 + 4)
    (u32 (kstack + KSTACKSIZE))) (at_ + 8 + 102) 65535).
  assert (Em : memory (switch_tss at_ kstack pgdir c) = m4) by done.
  assert (Eg : gdtr (switch_tss at_ kstack pgdir c) = (at_ + CPU_GDT, 47)) by exact S1.
  assert (Hlow : forall x, ~ at_ + 8 <= x < at_ + 112 -> m4 x = m1 x).
  { intros x Hx. unfold m4. rewrite store16_out by lia. unfold store32. rewrite store16_out by lia.
    zcases; done. }
  assert (Hd : forall sel, 8 <= sel < 40 -> desc (switch_tss at_ kstack pgdir c) sel = desc c sel).
  { intros sel Hs. unfold desc. rewrite Eg, S1, Em. cbn [fst]. unfold CPU_GDT, SEG_TSS in *.
    f_equal; apply load32_ext; intros x Hx; rewrite Hlow by wrap_lia; apply put_desc_out; wrap_lia. }
  assert (Ht : tr (switch_tss at_ kstack pgdir c) = at_ + 8).
  { unfold switch_tss, lcr3, ltr. cbn [tr set_ctl set_tr]. unfold desc, put_seg. cbn [gdtr set_mem memory].
    rewrite S1. cbn [fst]. change (Z.shiftl SEG_TSS 3 / 8) with 5. fold m1 m4.
    destruct (put_desc_same (memory c) (at_ + CPU_GDT + 8 * SEG_TSS) w W1 W2) as [P1 P2].
    fold m1 in P1, P2. unfold CPU_GDT, SEG_TSS in *.
    assert (L : forall a, at_ + 112 <= a -> load32 m4 a = load32 m1 a).
    { intros a Ha. apply load32_ext. intros x Hx. apply Hlow. lia. }
    change (at_ + 112 + 8 * 5) with (at_ + 112 + 8 * 5). rewrite !L by lia.
    change (d_base (decode_seg (load32 m1 (at_ + 112 + 8 * 5)) (load32 m1 (at_ + 112 + 8 * 5 + 4))) = at_ + 8).
    rewrite P1, P2, W3. done. }
  split; [|split].
  - constructor; rewrite ?Ht.
    + constructor; [done|..]; (rewrite Hd by (by vm_compute)); done.
    + done.
    + rewrite Em. etrans; [apply load32_ext; intros x Hx; unfold m4; apply store16_out; lia|].
      rewrite u32_small by done. by apply load32_store32.
    + rewrite Em. etrans; [|apply (load_store16 m1 (at_ + 8 + 8) (Z.shiftl SEG_KDATA 3)); by vm_compute].
      f_equal. apply load32_ext. intros x Hx. unfold m4. rewrite store16_out by lia. unfold store32.
      rewrite (proj2 (Z.ltb_ge x _)) by lia. by rewrite andb_false_r.
  - done.
  - intros x Hx. rewrite Em, Hlow by lia. apply put_desc_out. unfold CPU_GDT, SEG_TSS. lia.
Qed.

(** ** The tables of a processor that runs a process *)

Lemma handlers_ext h idt c c' : idtr c = (idt, 2047) -> idtr c' = idtr c ->
  (forall x, idt <= x < idt + 2048 -> memory c' x = memory c x) -> handlers h c -> handlers h c'.
Proof.
  intros Hi E Em [H]. constructor. intros n Hn. rewrite <- (H n Hn). unfold gate_of. rewrite E, Hi. cbn [fst].
  f_equal; apply load32_ext; intros x Hx; apply Em; lia.
Qed.

Lemma seginit_out at_ c x : ~ at_ + CPU_GDT <= x < at_ + CPU_STARTED -> memory (seginit at_ c) x = memory c x.
Proof.
  intros Hx. unfold CPU_GDT, CPU_STARTED in *. unfold seginit, lgdt, put_seg. cbn [memory set_gdtr set_mem].
  unfold CPU_GDT, SEG_KCODE, SEG_KDATA, SEG_UCODE, SEG_UDATA. by rewrite !put_desc_out by lia.
Qed.
Lemma seginit_wf at_ c : mem_wf (memory c) -> mem_wf (memory (seginit at_ c)).
Proof. intros H. unfold seginit, lgdt, put_seg. cbn [memory set_gdtr set_mem]. unfold put_desc. by repeat apply store32_wf. Qed.

Lemma tvinit_loop_tables idt vectors n : forall i c,
  gdtr (tvinit_loop idt vectors n i c) = gdtr c /\ tr (tvinit_loop idt vectors n i c) = tr c.
Proof. induction n as [|n IH]; intros i c; [done|apply (IH (i + 1) (set_gate idt vectors i false 0 c))]. Qed.
Lemma tvinit_tables idt vectors c : is_u32 idt -> let c' := idtinit idt (tvinit idt vectors c) in
  idtr c' = (idt, 2047) /\ gdtr c' = gdtr c /\ tr c' = tr c.
Proof.
  intros Hi. pose proof (tvinit_loop_tables idt vectors 256 0 c) as [E1 E2]. unfold tvinit.
  generalize dependent (tvinit_loop idt vectors 256 0 c). intros c1 E1 E2. cbv zeta.
  split; [by apply table_reg_spec; [|lia]|]. by rewrite <- E1, <- E2.
Qed.

(** The initialization in the order in which [main], [mpmain] and [scheduler]
    do it leaves the processor ready for user code. *)
Lemma tables_ready idt vectors at_ kstack pgdir c :
  0 <= idt /\ idt + 2048 <= 4294967296 -> idt + 2048 <= vectors \/ vectors + 1024 <= idt ->
  0 <= at_ -> at_ + CPUSIZE <= 4294967296 -> at_ + CPUSIZE <= idt \/ idt + 2048 <= at_ ->
  at_ + CPUSIZE <= vectors \/ vectors + 1024 <= at_ ->
  is_u32 (kstack + KSTACKSIZE) -> mem_wf (memory c) ->
  let c' := switch_tss at_ kstack pgdir (idtinit idt (tvinit idt vectors (seginit at_ c))) in
  task at_ kstack c' /\ handlers (fun n => load32 (memory c) (vectors + 4 * n)) c' /\
  (forall x, ~ idt <= x < idt + 2048 -> ~ at_ <= x < at_ + CPUSIZE -> memory c' x = memory c x).
Proof.
  intros Hi Hv A0 A1 Hai Hav Hk Hw. pose proof (seginit_segments at_ c A0 A1) as S0.
  destruct (tvinit_handlers idt vectors Hi Hv (seginit at_ c) (seginit_wf _ _ Hw)) as [Hh Ho].
  destruct (tvinit_tables idt vectors (seginit at_ c)) as (I1 & G1 & R1); [unfold is_u32; lia|].
  generalize dependent (idtinit idt (tvinit idt vectors (seginit at_ c))). intros c1 Hh Ho I1 G1 R1.
  set (c0 := seginit at_ c) in *.
  assert (T1 : same_tables at_ c0 c1) by (split_and!; [done|done|intros x Hx; apply Ho; unfold CPUSIZE in *; lia]).
  destruct (switch_tss_task at_ kstack pgdir c1 A0 A1 Hk) as (T & _ & Em); [by eapply segments_ext|].
  cbv zeta. unfold CPU_TS, CPU_STARTED, CPUSIZE in *. split; [done|]. split.
  - apply (handlers_ext _ idt c1); [done|done|intros x Hx; apply Em; lia|].
    constructor. intros n Hn. rewrite (hd_gate _ _ Hh n Hn).
    assert (E : load32 (memory c0) (vectors + 4 * n) = load32 (memory c) (vectors + 4 * n)).
    { apply load32_ext. intros x Hx. apply seginit_out. unfold CPU_GDT, CPU_STARTED. lia. }
    by rewrite E.
  - intros x H1 H2. rewrite Em, Ho by lia. apply seginit_out. unfold CPU_GDT, CPU_STARTED. lia.
Qed.
