(* ===== verification/Entry.v ===== *)
(** * Context switch and trap entry (swtch.S, trapasm.S, vectors.pl, usys.S, initcode.S)

    The assembly between user code, the C part of the kernel and the
    scheduler, run on the processor of X86.v.  [swtch] and its return, the
    trap frame that the processor and [alltraps] build, and the return to
    user mode that [trapret] makes from it. *)
From S2P Require Import Prelude CString Mmu Kalloc Vm Proc Kernel Syscall Trap X86 Gates.
#[local] Set Default Proof Using "Type".

(** ** The code *)

Definition swtch : list instr :=
  [ movl_load 4 ESP EAX;
    movl_load 8 ESP EDX;
    pushl EBP; pushl EBX; pushl ESI; pushl EDI;
    movl_store ESP EAX;
    movl EDX ESP;
    popl EDI; popl ESI; popl EBX; popl EBP;
    ret ].

(** [trap] is the address of the C function, [next] that of the instruction
    after the call. *)
Definition alltraps (trap next : Z) : list instr :=
  [ pushl_seg DS; pushl_seg ES; pushl_seg FS; pushl_seg GS;
    pushal;
    movw_imm (Z.shiftl SEG_KDATA 3) EAX;
    movw_seg EAX DS;
    movw_seg EAX ES;
    pushl ESP;
    call trap next ].
Definition trapret : list instr :=
  [ popal;
    popl_seg GS; popl_seg FS; popl_seg ES; popl_seg DS;
    addl_imm 8 ESP;
    iret ].
(** What follows the call of [trap]. *)
Definition after_trap : list instr := addl_imm 4 ESP :: trapret.

(** The stub of a system call (usys.S), up to [int] and after it. *)
Definition usys_number (n : Z) : list instr := [movl_imm n EAX].
Definition usys_ret : list instr := [ret].

(** The entry point of vector [n] that vectors.pl prints: the processor has
    pushed an error code itself for some exceptions. *)
Definition has_err (n : Z) : bool := (n =? 8) || ((10 <=? n) && (n <=? 14)) || (n =? 17).
Definition vector (n : Z) : list instr :=
  (if negb (has_err n) then [pushl_imm 0] else []) ++ [pushl_imm n].

(** ** Structures on the stack *)

(** [struct context] (proc.h). *)
Record context := Context { c_edi : Z; c_esi : Z; c_ebx : Z; c_ebp : Z; c_eip : Z }.
Definition context_at (m : mem) (a : Z) : context :=
  Context (load32 m a) (load32 m (a + 4)) (load32 m (a + 8)) (load32 m (a + 12)) (load32 m (a + 16)).

(** [struct trapframe] (x86.h); selectors are half words. *)
Record frame := Frame {
  f_edi : Z; f_esi : Z; f_ebp : Z; f_oesp : Z; f_ebx : Z; f_edx : Z; f_ecx : Z; f_eax : Z;
  f_gs : Z; f_fs : Z; f_es : Z; f_ds : Z; f_trapno : Z;
  f_err : Z; f_eip : Z; f_cs : Z; f_eflags : Z; f_esp : Z; f_ss : Z
}.
Definition frame_at (m : mem) (a : Z) : frame :=
  let w k := load32 m (a + 4 * k) in
  Frame (w 0) (w 1) (w 2) (w 3) (w 4) (w 5) (w 6) (w 7)
    (w 8 mod 65536) (w 9 mod 65536) (w 10 mod 65536) (w 11 mod 65536) (w 12)
    (w 13) (w 14) (w 15 mod 65536) (w 16) (w 17) (w 18 mod 65536).

(** ** The stack *)

Section stack.
Context {X : X86}.

Lemma u32_down x : u32 (u32 x - 4) = u32 (x - 4).
Proof. unfold u32. by rewrite Zminus_mod_idemp_l. Qed.
Lemma u32_up x n : u32 (u32 x + n) = u32 (x + n).
Proof. unfold u32. by rewrite Zplus_mod_idemp_l. Qed.

(** [swtch] on a stack at [sp]: what it saves and what it loads. *)
Record switched (c c' : cpu) (old new : Z) : Prop := {
  sw_saved : context_at (memory c') (esp (gp c) - 16) =
    Context (edi (gp c)) (esi (gp c)) (ebx (gp c)) (ebp (gp c)) (load32 (memory c) (esp (gp c)));
  sw_ptr : load32 (memory c') old = esp (gp c) - 16;
  sw_loaded : context_at (memory c) new =
    Context (edi (gp c')) (esi (gp c')) (ebx (gp c')) (ebp (gp c')) (eip c');
  sw_esp : esp (gp c') = new + CTXSIZE;
  sw_mem : forall x, ~ esp (gp c) - 16 <= x < esp (gp c) -> ~ old <= x < old + 4 ->
    memory c' x = memory c x;
  sw_rest : sg c' = sg c /\ cr c' = cr c /\ eflags c' = eflags c /\ gdtr c' = gdtr c /\
    idtr c' = idtr c /\ tr c' = tr c
}.

Definition apart (a n b k : Z) : Prop := a + n <= b \/ b + k <= a.

(** A call [swtch(old, new)]: the arguments are above the return address, and
    the stack, the pointer and the new context do not overlap. *)
Record calls_swtch (c : cpu) (old new : Z) : Prop := {
  cw_wf : mem_wf (memory c);
  cw_stack : 16 <= esp (gp c) /\ esp (gp c) + 12 <= 4294967296;
  cw_old : load32 (memory c) (esp (gp c) + 4) = old;
  cw_new : load32 (memory c) (esp (gp c) + 8) = new;
  cw_top : new + CTXSIZE < 4294967296;
  cw_regs : is_u32 (edi (gp c)) /\ is_u32 (esi (gp c)) /\ is_u32 (ebx (gp c)) /\ is_u32 (ebp (gp c));
  cw_apart : apart old 4 (esp (gp c) - 16) 20 /\ apart new 20 (esp (gp c) - 16) 16 /\ apart old 4 new 20
}.

Lemma swtch_switches c old new : calls_swtch c old new -> switched c (run swtch c) old new.
Proof.
  intros [Hw [H1 H2] Eo En Hn (R1 & R2 & R3 & R4) (A1 & A2 & A3)]. unfold apart, CTXSIZE in *.
  pose proof (load32_range (memory c) (esp (gp c) + 8) Hw) as Hnew. rewrite En in Hnew. unfold is_u32 in Hnew.
  destruct c as [[c_ax c_cx c_dx c_bx sp c_bp c_si c_di] sg0 cr0 pc fl gd it tr0 m].
  cbn [gp esp edi esi ebx ebp memory] in *.
  unfold swtch. do 2 exec1. norm_u32. rewrite Eo, En. do 4 (exec1; norm_u32). do 2 exec1.
  do 5 (exec1; norm_u32). rewrite run_nil.
  constructor; unfold context_at; cbn [gp sg cr eax ecx edx ebx esp ebp esi edi eip eflags gdtr idtr tr memory].
  - load_simp. do 2 f_equal. lia.
  - load_simp. lia.
  - load_simp. do 2 f_equal; lia.
  - unfold CTXSIZE. lia.
  - intros x Hx Hx'. unfold store32. zcases; done.
  - done.
Qed.

(** C21: a thread that gives up the processor with [swtch] and is switched back
    to continues as if the call had returned: whatever ran in between, as
    long as it left the thread's stack alone, the second [swtch] comes back
    to the return address with the registers and the stack of the caller. *)
Theorem swtch_returns c old new c2 old2 : calls_swtch c old new ->
  calls_swtch c2 old2 (load32 (memory (run swtch c)) old) ->
  (forall x, esp (gp c) - 16 <= x < esp (gp c) + 4 -> memory c2 x = memory (run swtch c) x) ->
  let c3 := run swtch c2 in
  eip c3 = load32 (memory c) (esp (gp c)) /\ esp (gp c3) = esp (gp c) + 4 /\
  edi (gp c3) = edi (gp c) /\ esi (gp c3) = esi (gp c) /\ ebx (gp c3) = ebx (gp c) /\ ebp (gp c3) = ebp (gp c) /\
  (forall x, esp (gp c) <= x -> ~ esp (gp c2) - 16 <= x < esp (gp c2) -> ~ old2 <= x < old2 + 4 ->
     memory c3 x = memory c2 x).
Proof.
  intros H1 H2 Hm. pose proof (swtch_switches c old new H1) as S1.
  rewrite (sw_ptr _ _ _ _ S1) in H2. pose proof (swtch_switches c2 old2 _ H2) as S2. cbv zeta.
  generalize dependent (run swtch c). intros c1 Hm S1.
  generalize dependent (run swtch c2). intros c3 S2.
  pose proof (sw_loaded _ _ _ _ S2) as L. pose proof (sw_esp _ _ _ _ S2) as E.
  assert (Ec : context_at (memory c2) (esp (gp c) - 16) = context_at (memory c1) (esp (gp c) - 16)).
  { unfold context_at. f_equal; apply load32_ext; intros x Hx; apply Hm; lia. }
  rewrite Ec, (sw_saved _ _ _ _ S1) in L. injection L as L1 L2 L3 L4 L5.
  split_and!; try done.
  - rewrite E. unfold CTXSIZE. lia.
  - intros x Hx Hx1 Hx2. by apply (sw_mem _ _ _ _ S2).
Qed.
End stack.

(** ** Into the kernel *)

Section traps.
Context {X : X86}.

Lemma push_seg c s : 0 <= seg c s < 65536 -> exists w,
  step (pushl_seg s) c = push w c /\ is_u32 w /\ w mod 65536 = seg c s.
Proof.
  intros Hs. exists (seg_word c s). split; [done|]. unfold seg_word, is_u32.
  destruct push_zext; [rewrite Z.mod_small; lia|].
  assert (0 <= bits (load32 (memory c) (u32 (gpr c ESP - 4))) 16 16 < 65536)
    by (unfold bits; apply Z.mod_pos_bound; lia).
  split; [lia|]. rewrite Z.mul_comm, Z.mod_add by lia. by apply Z.mod_small.
Qed.

(** A processor in user mode. *)
Record user (c : cpu) : Prop := {
  us_cpl : cpl c = 3;
  us_regs : is_u32 (eax (gp c)) /\ is_u32 (ecx (gp c)) /\ is_u32 (edx (gp c)) /\ is_u32 (ebx (gp c)) /\
    is_u32 (esp (gp c)) /\ is_u32 (ebp (gp c)) /\ is_u32 (esi (gp c)) /\ is_u32 (edi (gp c));
  us_segs : 0 <= cs (sg c) < 65536 /\ 0 <= ds (sg c) < 65536 /\ 0 <= es (sg c) < 65536 /\
    0 <= fs (sg c) < 65536 /\ 0 <= gs (sg c) < 65536 /\ 0 <= ss (sg c) < 65536;
  us_flags : is_u32 (eflags c);
  us_eip : is_u32 (eip c)
}.

(** The frame of a trap [n] with error code [e] taken at [pc]. *)
Definition saved (c : cpu) (sp n e pc : Z) : frame :=
  Frame (edi (gp c)) (esi (gp c)) (ebp (gp c)) sp (ebx (gp c)) (edx (gp c)) (ecx (gp c)) (eax (gp c))
    (gs (sg c)) (fs (sg c)) (es (sg c)) (ds (sg c)) n e pc (cs (sg c)) (eflags c) (esp (gp c)) (ss (sg c)).

(** The error code that the processor pushes. *)
Definition pushes (n : Z) (err : option Z) (e : Z) : Prop :=
  match err with Some x => has_err n = true /\ e = x | None => has_err n = false /\ e = 0 end.

(** Selectors that user code can have loaded: null, user code and data. *)
Definition user_sel (x : Z) : Prop := 0 <= x < 4 \/ 24 <= x < 28 \/ 32 <= x < 36.

Lemma hide_user at_ c : segments at_ c -> user_sel (ds (sg c)) -> user_sel (es (sg c)) ->
  user_sel (fs (sg c)) -> user_sel (gs (sg c)) -> hide 3 c = c.
Proof.
  intros S H1 H2 H3 H4.
  assert (Hk : forall x, user_sel x -> (4 <=? x) && (d_dpl (desc c x) <? 3) = false).
  { intros x Hx. destruct (Z.leb_spec 4 x) as [Hl|]; [|done]. cbn [andb].
    assert (E : desc c x = flat 10 3 \/ desc c x = flat 2 3).
    { unfold user_sel in Hx. destruct Hx as [Hx|[Hx|Hx]]; [lia|left|right].
      - rewrite <- (sg_ucode _ _ S). unfold desc. replace (x / 8) with 3 by wrap_lia. done.
      - rewrite <- (sg_udata _ _ S). unfold desc. replace (x / 8) with 4 by wrap_lia. done. }
    by destruct E as [-> | ->]. }
  unfold hide. cbn [seg]. rewrite !Hk by done. destruct c as [gp0 [s1 s2 s3 s4 s5 s6] cr0 pc fl gd it tr0 m]. done.
Qed.

(** The user state that a frame describes. *)
Definition resumed (c : cpu) (f : frame) : cpu :=
  Cpu (Regs (f_eax f) (f_ecx f) (f_edx f) (f_ebx f) (f_esp f) (f_ebp f) (f_esi f) (f_edi f))
    (Segs (f_cs f) (f_ds f) (f_es f) (f_fs f) (f_gs f) (f_ss f))
    (cr c) (f_eip f) (f_eflags f) (gdtr c) (idtr c) (tr c) (memory c).

Record user_frame (f : frame) : Prop := {
  uf_cs : f_cs f mod 4 = 3;
  uf_segs : user_sel (f_ds f) /\ user_sel (f_es f) /\ user_sel (f_fs f) /\ user_sel (f_gs f)
}.

Lemma trapret_resumes at_ c : cpl c = 0 -> segments at_ c -> 0 <= esp (gp c) ->
  esp (gp c) + TFSIZE < 4294967296 -> user_frame (frame_at (memory c) (esp (gp c))) ->
  run trapret c = resumed c (frame_at (memory c) (esp (gp c))).
Proof.
  intros Hc S H0 H1 [Fc (F1 & F2 & F3 & F4)]. unfold TFSIZE in H1.
  destruct c as [[r1 r2 r3 r4 sp r6 r7 r8] [s1 s2 s3 s4 s5 s6] cr0 pc fl gd it tr0 m].
  unfold frame_at in *. cbn [gp esp memory f_cs f_ds f_es f_fs f_gs] in *. unfold cpl in Hc. cbn in Hc.
  unfold trapret. do 7 (exec1; norm_u32). rewrite run_nil.
  change (4 * 15) with 60 in Fc. rewrite Hc, Fc. change (0 <? 3) with true. cbv iota. unfold resumed.
  cbn [f_edi f_esi f_ebp f_ebx f_edx f_ecx f_eax f_gs f_fs f_es f_ds f_eip f_cs f_eflags f_esp f_ss
    cr gdtr idtr tr memory].
  apply (hide_user at_); [|done..]. eapply segments_ext; [|exact S]. done.
Qed.

(** User registers as user code has them. *)
Definition user_segs (c : cpu) : Prop :=
  user_sel (ds (sg c)) /\ user_sel (es (sg c)) /\ user_sel (fs (sg c)) /\ user_sel (gs (sg c)).

Variables (at_ kstack trap next : Z) (h : Z -> Z).
Hypothesis Hk : 0 <= kstack /\ kstack + KSTACKSIZE < 4294967296.
Hypothesis Hat : apart at_ CPUSIZE kstack KSTACKSIZE.

(** What [trap] is called with. *)
Record entered (c c' : cpu) (n e pc : Z) (intr : bool) : Prop := {
  en_frame : exists sp, frame_at (memory c') (kstack + KSTACKSIZE - TFSIZE) = saved c sp n e pc;
  en_arg : load32 (memory c') (esp (gp c') + 4) = kstack + KSTACKSIZE - TFSIZE;
  en_ret : load32 (memory c') (esp (gp c')) = next;
  en_esp : esp (gp c') = kstack + KSTACKSIZE - TFSIZE - 8;
  en_eip : eip c' = trap;
  en_segs : sg c' = Segs 8 16 16 (fs (sg c)) (gs (sg c)) 16;
  en_if : eflags c' = gate_flags intr (eflags c);
  en_cr : cr c' = cr c;
  en_tables : gdtr c' = gdtr c /\ idtr c' = idtr c /\ tr c' = tr c;
  en_mem : forall x, ~ kstack + KSTACKSIZE - TFSIZE - 8 <= x < kstack + KSTACKSIZE -> memory c' x = memory c x
}.

(** The state when the entry point of the vector jumps to [alltraps]. *)
Definition vectored (c : cpu) (n e : Z) : cpu :=
  let t := kstack + KSTACKSIZE in
  let m := store32 (store32 (store32 (store32 (store32 (store32 (store32 (memory c) (t - 4) (ss (sg c)))
    (t - 8) (esp (gp c))) (t - 12) (eflags c)) (t - 16) (cs (sg c))) (t - 20) (eip c)) (t - 24) e) (t - 28) n in
  Cpu (upd_regs ESP (t - 28) (gp c)) (Segs 8 (ds (sg c)) (es (sg c)) (fs (sg c)) (gs (sg c)) 16) (cr c)
    (h n) (gate_flags (negb (n =? T_SYSCALL)) (eflags c)) (gdtr c) (idtr c) (tr c) m.

Lemma vector_entry c n err e : cpl c = 3 -> task at_ kstack c -> handlers h c -> 0 <= n < 256 ->
  pushes n err e -> run (vector n) (deliver n err c) = vectored c n e.
Proof using Hk.
  intros Ucpl T H Hn Hp. unfold deliver. rewrite (hd_gate _ _ H n Hn).
  assert (Ed : desc c 8 = flat 10 0) by apply (sg_kcode _ _ (tk_seg _ _ _ T)).
  rewrite (tk_esp0 _ _ _ T), (tk_ss0 _ _ _ T). change (Z.shiftl SEG_KDATA 3) with 16.
  unfold vectored. set (t := kstack + KSTACKSIZE) in *. unfold KSTACKSIZE in *.
  assert (Eg : forall x y, (x = 15 /\ y = 3) \/ (x = 14 /\ y = 0) ->
    run (vector n) (let g := Gate (h n) 8 x y 1 in let lvl := d_dpl (desc c (g_sel g)) in
      set_eip (g_off g) (set_seg CS (g_sel g / 4 * 4 + lvl)
        (let c1 := if lvl <? cpl c then
            push (gpr c ESP) (push (seg c SS) (set_gpr ESP t (set_seg SS 16 c))) else c in
         let c2 := push (eip c) (push (seg c CS) (push (eflags c) c1)) in
         let c3 := match err with Some e => push e c2 | None => c2 end in
         set_eflags (gate_flags (g_type g =? 14) (eflags c)) c3))) =
    Cpu (upd_regs ESP (t - 28) (gp c)) (Segs 8 (ds (sg c)) (es (sg c)) (fs (sg c)) (gs (sg c)) 16) (cr c)
      (h n) (gate_flags (negb (x =? 15)) (eflags c)) (gdtr c) (idtr c) (tr c)
      (store32 (store32 (store32 (store32 (store32 (store32 (store32 (memory c) (t - 4) (ss (sg c)))
        (t - 8) (esp (gp c))) (t - 12) (eflags c)) (t - 16) (cs (sg c))) (t - 20) (eip c)) (t - 24) e) (t - 28) n)).
  { intros x y Hxy. cbv zeta. cbn [g_sel g_off g_type]. rewrite Ed, Ucpl. clear Ed Ucpl T H.
    change (d_dpl (flat 10 0) <? 3) with true. change (8 / 4 * 4 + d_dpl (flat 10 0)) with 8. cbv iota.
    destruct c as [[r1 r2 r3 r4 r5 r6 r7 r8] [s1 s2 s3 s4 s5 s6] cr0 pc fl gd it tr0 m].
    unfold pushes, vector in *. destruct Hxy as [[-> ->]|[-> ->]]; cbn [Z.eqb Pos.eqb];
      (destruct err as [x'|]; destruct Hp as [-> ->]; cbn [negb app]).
    all: match goal with |- context [set_gpr ESP ?v ?c] => let c' := eval_cpu (set_gpr ESP v c) in change (set_gpr ESP v c) with c' end.
    all: cbn [gpr seg gp sg eip eflags memory esp cs ss].
    all: do 5 (push1; norm_u32).
    all: try (push1; norm_u32).
    all: repeat (set1; norm_u32).
    all: repeat (exec1; norm_u32). all: by rewrite run_nil. }
  destruct (n =? T_SYSCALL); [apply (Eg 15 3)|apply (Eg 14 0)]; [by left|by right].
Qed.

(** [alltraps] completes the frame and calls [trap] on it. *)
Record called (c c' : cpu) : Prop := {
  cl_frame : let s := esp (gp c) in
    frame_at (memory c') (s - 48) =
    Frame (edi (gp c)) (esi (gp c)) (ebp (gp c)) (s - 16) (ebx (gp c)) (edx (gp c)) (ecx (gp c)) (eax (gp c))
      (gs (sg c)) (fs (sg c)) (es (sg c)) (ds (sg c)) (load32 (memory c) s) (load32 (memory c) (s + 4))
      (load32 (memory c) (s + 8)) (load32 (memory c) (s + 12) mod 65536) (load32 (memory c) (s + 16))
      (load32 (memory c) (s + 20)) (load32 (memory c) (s + 24) mod 65536);
  cl_esp : esp (gp c') = esp (gp c) - 56;
  cl_arg : load32 (memory c') (esp (gp c) - 52) = esp (gp c) - 48;
  cl_ret : load32 (memory c') (esp (gp c) - 56) = next;
  cl_eip : eip c' = trap;
  cl_segs : sg c' = Segs (cs (sg c)) 16 16 (fs (sg c)) (gs (sg c)) (ss (sg c));
  cl_rest : eflags c' = eflags c /\ cr c' = cr c /\ gdtr c' = gdtr c /\ idtr c' = idtr c /\ tr c' = tr c;
  cl_mem : forall x, ~ esp (gp c) - 56 <= x < esp (gp c) -> memory c' x = memory c x
}.

Lemma alltraps_calls c :
  is_u32 (eax (gp c)) /\ is_u32 (ecx (gp c)) /\ is_u32 (edx (gp c)) /\ is_u32 (ebx (gp c)) /\
    is_u32 (ebp (gp c)) /\ is_u32 (esi (gp c)) /\ is_u32 (edi (gp c)) ->
  0 <= ds (sg c) < 65536 /\ 0 <= es (sg c) < 65536 /\ 0 <= fs (sg c) < 65536 /\ 0 <= gs (sg c) < 65536 ->
  56 <= esp (gp c) < 4294967296 -> is_u32 next -> called c (run (alltraps trap next) c).
Proof.
  clear Hk Hat h. intros (U1 & U2 & U3 & U4 & U6 & U7 & U8) (V2 & V3 & V4 & V5) Hs Hn.
  destruct c as [[r1 r2 r3 r4 s r6 r7 r8] [s1 s2 s3 s4 s5 s6] cr0 pc fl gd it tr0 m].
  cbn [gp sg eax ecx edx ebx esp ebp esi edi cs ds es fs gs ss] in *. unfold alltraps.
  do 4 (rewrite run_cons; match goal with |- context [step (pushl_seg ?s) ?c] =>
    let w := fresh "w" in let E := fresh "E" in let Hw := fresh "Hw" in let Ew := fresh "Ew" in
    destruct (push_seg c s) as (w & E & Hw & Ew); [by cbn|rewrite E; clear E; cbn [seg sg ds es fs gs] in Ew] end;
    push1; norm_u32).
  do 6 (exec1; norm_u32).
  rewrite run_nil. assert (Eds : u16 (r1 / 65536 * 65536 + u16 (Z.shiftl SEG_KDATA 3)) = 16).
  { change (u16 (Z.shiftl SEG_KDATA 3)) with 16. wrap_lia. }
  rewrite Eds.
  constructor; cbn [gp sg cr eip eflags gdtr idtr tr memory eax ecx edx ebx esp ebp esi edi cs ds es fs gs ss]; try done.
  - cbv zeta. unfold frame_at. load_simp. f_equal; first [done | f_equal; lia | do 2 f_equal; lia].
  - load_simp. lia.
  - load_simp. done.
  - intros x Hx. by rewrite !store32_out by lia.
Qed.

Lemma entry_from_user c n err e : user c -> task at_ kstack c -> handlers h c -> 0 <= n < 256 ->
  pushes n err e -> is_u32 e -> is_u32 next ->
  entered c (run (vector n ++ alltraps trap next) (deliver n err c)) n e (eip c) (negb (n =? T_SYSCALL)).
Proof using Hk.
  intros U T H Hn Hp He Hnx. rewrite run_app, (vector_entry c n err e) by (done || apply U).
  destruct U as [_ (U1 & U2 & U3 & U4 & U5 & U6 & U7 & U8) (V1 & V2 & V3 & V4 & V5 & V6) Uf Ue].
  pose proof (alltraps_calls (vectored c n e)) as L. clear T H Hp. unfold vectored in *.
  destruct c as [[r1 r2 r3 r4 r5 r6 r7 r8] [s1 s2 s3 s4 s5 s6] cr0 pc fl gd it tr0 m].
  cbn [gp sg cr eip eflags gdtr idtr tr memory eax ecx edx ebx esp ebp esi edi cs ds es fs gs ss upd_regs] in *.
  unfold KSTACKSIZE in *. set (t := kstack + 4096) in *. assert (Ht : 4096 <= t < 4294967296) by lia.
  destruct L as [L1 L2 L3 L4 L5 L6 (L7 & L8 & L9 & L10 & L11) L12]; [done|done|lia|done|].
  generalize dependent (run (alltraps trap next) (Cpu (Regs r1 r2 r3 r4 (t - 28) r6 r7 r8) (Segs 8 s2 s3 s4 s5 16) cr0 (h n)
    (gate_flags (negb (n =? T_SYSCALL)) fl) gd it tr0
    (store32 (store32 (store32 (store32 (store32 (store32 (store32 m (t - 4) s6) (t - 8) r5) (t - 12) fl) (t - 16) s1)
       (t - 20) pc) (t - 24) e) (t - 28) n))). intros c' L1 L2 L3 L4 L5 L6 L7 L8 L9 L10 L11 L12.
  cbn [gp sg cr eip eflags gdtr idtr tr memory eax ecx edx ebx esp ebp esi edi cs ds es fs gs ss] in *.
  constructor; unfold TFSIZE, KSTACKSIZE; fold t;
    cbn [gp sg cr eip eflags gdtr idtr tr memory eax ecx edx ebx esp ebp esi edi cs ds es fs gs ss]; try done.
  - exists (t - 44). replace (t - 76) with (t - 28 - 48) by lia. rewrite L1. unfold saved.
    cbn [gp sg cr eip eflags gdtr idtr tr memory eax ecx edx ebx esp ebp esi edi cs ds es fs gs ss].
    load_simp. f_equal; done || lia || (by apply Z.mod_small).
  - rewrite L2. replace (t - 28 - 56 + 4) with (t - 28 - 52) by lia. rewrite L3. lia.
  - by rewrite L2.
  - lia.
  - intros x Hx. rewrite L12 by lia. by rewrite !store32_out by lia.
Qed.

(** [trap] has returned: the stack is as at the call, and the processor still
    has its tables. *)
Record returned (c1 c2 : cpu) : Prop := {
  rt_esp : esp (gp c2) = kstack + KSTACKSIZE - TFSIZE - 4;
  rt_cpl : cpl c2 = 0;
  rt_tables : same_tables at_ c1 c2
}.

(** The way back, from whatever frame [trap] leaves. *)
Lemma after_trap_resumes c n e pc intr c1 c2 : task at_ kstack c -> entered c c1 n e pc intr -> returned c1 c2 ->
  let f := frame_at (memory c2) (kstack + KSTACKSIZE - TFSIZE) in
  user_frame f -> run after_trap c2 = resumed c2 f.
Proof using Hk Hat.
  intros T E [R1 R2 R3] f Uf. unfold KSTACKSIZE, TFSIZE, CPUSIZE, apart in *.
  assert (S2 : segments at_ c2).
  { apply (segments_ext at_ c1); [done|]. apply (segments_ext at_ c); [|apply T].
    destruct (en_tables _ _ _ _ _ _ E) as (E1 & E2 & E3). split_and!; [done|done|].
    intros x Hx. apply (en_mem _ _ _ _ _ _ E). unfold KSTACKSIZE, TFSIZE, CPUSIZE in *. lia. }
  destruct c2 as [[r1 r2 r3 r4 sp r6 r7 r8] sg2 cr2 pc2 fl2 gd2 it2 tr2 m2].
  cbn [gp esp memory] in *. unfold after_trap. rewrite R1. exec1. norm_u32.
  replace (kstack + 4096 - 80 + 4) with (kstack + 4096 - 76) by lia.
  rewrite (trapret_resumes at_); cbn [gp esp memory]; try done; try (unfold TFSIZE; lia).
  eapply segments_ext; [|exact S2]. done.
Qed.

Definition with_eax (v : Z) (f : frame) : frame :=
  Frame (f_edi f) (f_esi f) (f_ebp f) (f_oesp f) (f_ebx f) (f_edx f) (f_ecx f) v (f_gs f) (f_fs f) (f_es f)
    (f_ds f) (f_trapno f) (f_err f) (f_eip f) (f_cs f) (f_eflags f) (f_esp f) (f_ss f).

Lemma resumed_saved c c2 sp n e pc v : cpl c = 3 -> user_segs c ->
  let f := with_eax v (saved c sp n e pc) in
  user_frame f /\ gp (resumed c2 f) = upd_regs EAX v (gp c) /\ sg (resumed c2 f) = sg c /\
  eip (resumed c2 f) = pc /\ eflags (resumed c2 f) = eflags c.
Proof.
  intros Hc (S1 & S2 & S3 & S4). cbv zeta. split; [by constructor|].
  destruct c as [[r1 r2 r3 r4 r5 r6 r7 r8] [s1 s2 s3 s4 s5 s6] cr0 pc0 fl gd it tr0 m]. done.
Qed.

(** C6: interrupts are invisible to user code.  Whatever registers a user
    program has when an interrupt or a fault arrives, the processor and
    [alltraps] save them in the trap frame of its process, at the place where
    the kernel looks for it; [trap] is entered with a pointer to the frame,
    on the kernel's segments and, but for system calls, with interrupts off;
    and if [trap] returns with the frame unchanged, the program continues at
    the same instruction with the same registers. *)
Theorem trap_transparent c n err e c2 : user c -> user_segs c -> task at_ kstack c -> handlers h c ->
  0 <= n < 256 -> pushes n err e -> is_u32 e -> is_u32 next ->
  let tf := kstack + KSTACKSIZE - TFSIZE in
  let c1 := run (vector n ++ alltraps trap next) (deliver n err c) in
  entered c c1 n e (eip c) (negb (n =? T_SYSCALL)) /\
  (returned c1 c2 -> frame_at (memory c2) tf = frame_at (memory c1) tf ->
   let c3 := run after_trap c2 in
   gp c3 = gp c /\ sg c3 = sg c /\ eip c3 = eip c /\ eflags c3 = eflags c /\ memory c3 = memory c2).
Proof using Hk Hat.
  intros U Us T H Hn Hp He Hnx. cbv zeta.
  pose proof (entry_from_user c n err e U T H Hn Hp He Hnx) as E. split; [done|]. intros R Ef.
  destruct (en_frame _ _ _ _ _ _ E) as [sp Fr]. rewrite Fr in Ef.
  destruct (resumed_saved c c2 sp n e (eip c) (eax (gp c)) (us_cpl _ U) Us) as (Uf & G1 & G2 & G3 & G4).
  change (with_eax (eax (gp c)) (saved c sp n e (eip c))) with (saved c sp n e (eip c)) in *.
  rewrite (after_trap_resumes c n e (eip c) _ _ c2 T E R) by (by rewrite Ef). rewrite Ef.
  split_and!; try done. rewrite G1. by destruct (gp c).
Qed.

(** [int] with the vector of system calls changes one register: it enters
    [trap] with the registers in the frame, and when the kernel has put its
    result there the program continues after the instruction with the result
    in eax and everything else as before. *)
Lemma int_syscall c c2 r : user c -> user_segs c -> task at_ kstack c -> handlers h c ->
  is_u32 next -> eip c + 2 < 4294967296 ->
  let tf := kstack + KSTACKSIZE - TFSIZE in
  let c1 := run (vector T_SYSCALL ++ alltraps trap next) (int_ T_SYSCALL c) in
  entered c c1 T_SYSCALL 0 (eip c + 2) false /\
  (returned c1 c2 -> frame_at (memory c2) tf = with_eax r (frame_at (memory c1) tf) ->
   let c3 := run after_trap c2 in
   gp c3 = upd_regs EAX r (gp c) /\ sg c3 = sg c /\ eip c3 = eip c + 2 /\ eflags c3 = eflags c /\
   memory c3 = memory c2).
Proof using Hk Hat.
  intros U Us T H Hnx Hpc. cbv zeta. unfold int_.
  rewrite (hd_gate _ _ H T_SYSCALL) by by_decide. rewrite Z.eqb_refl, (us_cpl _ U). cbn [g_dpl].
  change (3 <? 3) with false. cbv iota. pose proof (us_eip _ U) as Ue.
  rewrite u32_small by (unfold is_u32 in *; lia). set (c0 := set_eip (eip c + 2) c).
  assert (U0 : user c0) by (destruct U; constructor; try done; unfold c0, is_u32 in *; cbn; lia).
  pose proof (entry_from_user c0 T_SYSCALL None 0 U0) as E0.
  assert (E : entered c (run (vector T_SYSCALL ++ alltraps trap next) (deliver T_SYSCALL None c0)) T_SYSCALL 0 (eip c + 2) false).
  { destruct E0 as [[sp E1] E2 E3 E4 E5 E6 E7 E8 E9 E10]; [|by destruct H|done|done|done|done|].
    - apply (task_ext at_ kstack c); [done|done].
    - constructor; try done. by exists sp. }
  split; [done|]. intros R Ef. destruct (en_frame _ _ _ _ _ _ E) as [sp Fr]. rewrite Fr in Ef.
  destruct (resumed_saved c c2 sp T_SYSCALL 0 (eip c + 2) r (us_cpl _ U) Us) as (Uf & G1 & G2 & G3 & G4).
  rewrite (after_trap_resumes c T_SYSCALL 0 (eip c + 2) _ _ c2 T E R) by (by rewrite Ef). rewrite Ef.
  by split_and!.
Qed.

(** C25: a system call is a C call.  When a program calls the stub of the
    system call number [n], the kernel finds the number in the frame's eax and
    the arguments above the return address on the stack that the frame's esp
    names; when it has put its result [r] in the frame, the stub continues at
    its last instruction (the first is five bytes long, the second two) and
    returns to its caller with the result in eax and all other registers as at the call. *)
Theorem usys_calls c n c2 r : user c -> user_segs c -> task at_ kstack c -> handlers h c ->
  is_u32 next -> is_u32 n -> eip c + 7 < 4294967296 -> esp (gp c) + 4 < 4294967296 ->
  let tf := kstack + KSTACKSIZE - TFSIZE in
  let c0 := set_eip (eip c + 5) (run (usys_number n) c) in
  let c1 := run (vector T_SYSCALL ++ alltraps trap next) (int_ T_SYSCALL c0) in
  let f := frame_at (memory c1) tf in
  (cpl c1 = 0 /\ eip c1 = trap /\ load32 (memory c1) (esp (gp c1) + 4) = tf /\ f_trapno f = T_SYSCALL /\
   f_eax f = n /\ f_esp f = esp (gp c)) /\
  (returned c1 c2 -> frame_at (memory c2) tf = with_eax r f ->
   eip (run after_trap c2) = eip c + 7 /\
   let c3 := run usys_ret (run after_trap c2) in
   eip c3 = load32 (memory c2) (esp (gp c)) /\
   gp c3 = upd_regs ESP (esp (gp c) + 4) (upd_regs EAX r (gp c)) /\ sg c3 = sg c /\ eflags c3 = eflags c).
Proof using Hk Hat.
  intros U Us T H Hnx Hn Hpc Hsp. cbv zeta.
  pose proof (us_eip _ U) as Ue. unfold is_u32 in Ue.
  assert (E0 : run (usys_number n) c = set_gpr EAX n c)
    by (unfold usys_number; rewrite run_cons, run_nil; cbn [step]; by rewrite u32_small).
  rewrite E0. set (c0 := set_eip (eip c + 5) (set_gpr EAX n c)).
  assert (U0 : user c0).
  { destruct U as [? (? & ? & ? & ? & ? & ? & ? & ?)]. constructor; unfold is_u32; cbn; try done. lia. }
  pose proof (int_syscall c0 c2 r U0 Us) as [E R]; try done.
  - by apply (task_ext at_ kstack c).
  - by destruct H.
  - unfold c0. cbn. lia.
  - generalize dependent (run (vector T_SYSCALL ++ alltraps trap next) (int_ T_SYSCALL c0)). intros c1 E R.
    destruct (en_frame _ _ _ _ _ _ E) as [sp Fr]. split.
    + rewrite Fr. split_and!; try done; try apply E. unfold cpl. cbn [seg]. by rewrite (en_segs _ _ _ _ _ _ E).
    + intros R1 Ef. destruct (R R1 Ef) as (G1 & G2 & G3 & G4 & G5). clear R.
      generalize dependent (run after_trap c2). intros c3 G1 G2 G3 G4 G5.
      split; [rewrite G3; unfold c0; cbn [eip set_eip]; lia|]. cbv zeta.
      unfold usys_ret. rewrite run_cons, run_nil.
      destruct c as [[r1 r2 r3 r4 sp' r6 r7 r8] sg' cr' pc' fl' gd' it' tr' m'], c3 as [gp3 sg3 cr3 pc3 fl3 gd3 it3 tr3 m3].
      unfold c0 in *. cbn [gp sg eip eflags memory set_eip set_gpr eax ecx edx ebx esp ebp esi edi upd_regs] in *.
      subst gp3 sg3 fl3 m3.
      destruct (us_regs _ U) as (_ & _ & _ & _ & Hs & _). unfold is_u32 in Hs. cbn [gp esp] in Hs.
      unfold step, drop4, top, gpr.
      cbn [gp sg eip eflags memory set_eip set_gpr eax ecx edx ebx esp ebp esi edi upd_regs].
      by rewrite u32_small by (unfold is_u32; lia).
Qed.

(** User code cannot call a handler of its choice: [int n] for any other
    vector raises the general protection fault at the instruction itself,
    and [trap] is entered with its number and an error code that names the
    vector. *)
Theorem user_int_denied c n : user c -> task at_ kstack c -> handlers h c -> 0 <= n < 256 -> n <> T_SYSCALL ->
  is_u32 next ->
  entered c (run (vector 13 ++ alltraps trap next) (int_ n c)) 13 (8 * n + 2) (eip c) true.
Proof using Hk Hat.
  intros U T H Hn Hne Hnx. unfold int_. rewrite (hd_gate _ _ H n Hn), (proj2 (Z.eqb_neq _ _)), (us_cpl _ U) by done.
  cbn [g_dpl]. change (0 <? 3) with true. cbv iota.
  apply entry_from_user; try done. unfold is_u32. lia.
Qed.

(** ** Interrupts in the kernel *)

(** A processor in the kernel, with [n] bytes of stack left. *)
Record kernel_mode (c : cpu) (room : Z) : Prop := {
  km_cs : cs (sg c) = 8;
  km_regs : is_u32 (eax (gp c)) /\ is_u32 (ecx (gp c)) /\ is_u32 (edx (gp c)) /\ is_u32 (ebx (gp c)) /\
    is_u32 (ebp (gp c)) /\ is_u32 (esi (gp c)) /\ is_u32 (edi (gp c));
  km_esp : room <= esp (gp c) < 4294967296;
  km_segs : 0 <= ds (sg c) < 65536 /\ 0 <= es (sg c) < 65536 /\ 0 <= fs (sg c) < 65536 /\ 0 <= gs (sg c) < 65536;
  km_flags : is_u32 (eflags c);
  km_eip : is_u32 (eip c)
}.

(** The state before [alltraps]: the frame is on the current stack. *)
Definition kvectored (c : cpu) (n e : Z) : cpu :=
  let t := esp (gp c) in
  let m := store32 (store32 (store32 (store32 (store32 (memory c) (t - 4) (eflags c)) (t - 8) (cs (sg c)))
    (t - 12) (eip c)) (t - 16) e) (t - 20) n in
  Cpu (upd_regs ESP (t - 20) (gp c)) (sg c) (cr c)
    (h n) (gate_flags (negb (n =? T_SYSCALL)) (eflags c)) (gdtr c) (idtr c) (tr c) m.

Lemma kvector_entry c n err e : kernel_mode c 76 -> segments at_ c -> handlers h c -> 0 <= n < 256 ->
  pushes n err e -> run (vector n) (deliver n err c) = kvectored c n e.
Proof.
  intros K S H Hn Hp. unfold deliver. rewrite (hd_gate _ _ H n Hn).
  assert (Ed : desc c 8 = flat 10 0) by apply (sg_kcode _ _ S).
  assert (Ec : cpl c = 0) by (unfold cpl; cbn [seg]; by rewrite (km_cs _ _ K)).
  unfold kvectored. destruct K as [K1 _ K2 _ _ _].
  assert (Eg : forall x y, (x = 15 /\ y = 3) \/ (x = 14 /\ y = 0) ->
    run (vector n) (let g := Gate (h n) 8 x y 1 in let lvl := d_dpl (desc c (g_sel g)) in
      set_eip (g_off g) (set_seg CS (g_sel g / 4 * 4 + lvl)
        (let c1 := if lvl <? cpl c then
            push (gpr c ESP) (push (seg c SS) (set_gpr ESP (load32 (memory c) (tr c + 4))
              (set_seg SS (bits (load32 (memory c) (tr c + 8)) 0 16) c))) else c in
         let c2 := push (eip c) (push (seg c CS) (push (eflags c) c1)) in
         let c3 := match err with Some e => push e c2 | None => c2 end in
         set_eflags (gate_flags (g_type g =? 14) (eflags c)) c3))) =
    Cpu (upd_regs ESP (esp (gp c) - 20) (gp c)) (sg c) (cr c)
      (h n) (gate_flags (negb (x =? 15)) (eflags c)) (gdtr c) (idtr c) (tr c)
      (store32 (store32 (store32 (store32 (store32 (memory c) (esp (gp c) - 4) (eflags c)) (esp (gp c) - 8) (cs (sg c)))
        (esp (gp c) - 12) (eip c)) (esp (gp c) - 16) e) (esp (gp c) - 20) n)).
  { intros x y Hxy. cbv zeta. cbn [g_sel g_off g_type]. rewrite Ed, Ec. clear Ed Ec S H.
    change (d_dpl (flat 10 0) <? 0) with false. change (8 / 4 * 4 + d_dpl (flat 10 0)) with 8. cbv iota.
    destruct c as [[r1 r2 r3 r4 r5 r6 r7 r8] [s1 s2 s3 s4 s5 s6] cr0 pc fl gd it tr0 m].
    cbn [gp sg esp cs] in *. subst s1.
    unfold pushes, vector in *. destruct Hxy as [[-> ->]|[-> ->]]; cbn [Z.eqb Pos.eqb];
      (destruct err as [x'|]; destruct Hp as [-> ->]; cbn [negb app]).
    all: cbn [gpr seg gp sg eip eflags memory esp cs ss].
    all: do 3 (push1; norm_u32).
    all: try (push1; norm_u32).
    all: repeat (set1; norm_u32).
    all: repeat (exec1; norm_u32). all: by rewrite run_nil. }
  destruct (n =? T_SYSCALL); [apply (Eg 15 3)|apply (Eg 14 0)]; [by left|by right].
Qed.

(** The way back within the kernel: the last two words are not popped. *)
Definition resumed_inside (c : cpu) (sp : Z) (f : frame) : cpu :=
  Cpu (Regs (f_eax f) (f_ecx f) (f_edx f) (f_ebx f) sp (f_ebp f) (f_esi f) (f_edi f))
    (Segs (f_cs f) (f_ds f) (f_es f) (f_fs f) (f_gs f) (ss (sg c)))
    (cr c) (f_eip f) (f_eflags f) (gdtr c) (idtr c) (tr c) (memory c).

Lemma after_trap_inside c tf : cpl c = 0 -> 4 <= tf -> tf + 68 < 4294967296 -> esp (gp c) = tf - 4 ->
  f_cs (frame_at (memory c) tf) = 8 ->
  run after_trap c = resumed_inside c (tf + 68) (frame_at (memory c) tf).
Proof.
  intros Hc H0 H1 Es Fc.
  destruct c as [[r1 r2 r3 r4 sp r6 r7 r8] [s1 s2 s3 s4 s5 s6] cr0 pc fl gd it tr0 m].
  cbn [gp sg esp memory f_cs] in *. subst sp. unfold cpl in Hc. cbn [seg sg cs] in Hc.
  unfold after_trap, trapret. exec1. norm_u32. replace (tf - 4 + 4) with tf by lia.
  do 7 (exec1; norm_u32). rewrite run_nil. unfold frame_at in *. cbn [f_cs] in Fc.
  change (4 * 15) with 60 in Fc. rewrite Hc, Fc. change (0 <? 8 mod 4) with false. cbv iota.
  unfold resumed_inside.
  cbn [f_edi f_esi f_ebp f_ebx f_edx f_ecx f_eax f_gs f_fs f_es f_ds f_eip f_cs f_eflags f_esp f_ss
    sg ss cr gdtr idtr tr memory]. change (4 * 15) with 60. rewrite Z.add_0_r, ?Fc. done.
Qed.

Lemma resumed_inside_ext c sp m m' tf : (forall x, tf <= x < tf + 68 -> m' x = m x) ->
  resumed_inside c sp (frame_at m' tf) = resumed_inside c sp (frame_at m tf).
Proof.
  intros Hm. assert (L : forall k, 0 <= k < 17 -> load32 m' (tf + 4 * k) = load32 m (tf + 4 * k))
    by (intros; apply load32_ext; intros; apply Hm; lia).
  unfold resumed_inside, frame_at.
  cbn [f_edi f_esi f_ebp f_ebx f_edx f_ecx f_eax f_gs f_fs f_es f_ds f_eip f_cs f_eflags].
  by rewrite !L by lia.
Qed.

(** An interrupt that arrives in the kernel is invisible to the code it
    interrupts, too: the frame is built on the current stack, and when [trap]
    returns with the stack at the frame and the frame unchanged, the
    interrupted code continues with all its registers and its stack. *)
Theorem trap_transparent_kernel c n err e c2 : kernel_mode c 76 -> segments at_ c -> handlers h c ->
  0 <= n < 256 -> pushes n err e -> is_u32 e -> is_u32 next ->
  let tf := esp (gp c) - 68 in
  let c1 := run (vector n ++ alltraps trap next) (deliver n err c) in
  eip c1 = trap /\ load32 (memory c1) (esp (gp c1) + 4) = tf /\ f_trapno (frame_at (memory c1) tf) = n /\
  (forall x, ~ tf - 8 <= x < esp (gp c) -> memory c1 x = memory c x) /\
  (esp (gp c2) = tf - 4 -> cs (sg c2) = 8 -> ss (sg c2) = ss (sg c) ->
   (forall x, tf <= x < esp (gp c) -> memory c2 x = memory c1 x) ->
   let c3 := run after_trap c2 in
   gp c3 = gp c /\ sg c3 = sg c /\ eip c3 = eip c /\ eflags c3 = eflags c /\ memory c3 = memory c2).
Proof.
  intros K S H Hn Hp He Hnx. cbv zeta. rewrite run_app, (kvector_entry c n err e) by done.
  destruct K as [K1 U K2 V Uf Ue].
  pose proof (alltraps_calls (kvectored c n e)) as L. clear S H Hp. unfold kvectored in *.
  destruct c as [[r1 r2 r3 r4 t r6 r7 r8] [s1 s2 s3 s4 s5 s6] cr0 pc fl gd it tr0 m].
  cbn [gp sg cr eip eflags gdtr idtr tr memory eax ecx edx ebx esp ebp esi edi cs ds es fs gs ss upd_regs] in *.
  destruct L as [L1 L2 L3 L4 L5 L6 _ L12]; [done|done|lia|done|].
  match type of L5 with eip ?r = _ => generalize dependent r end. intros c' L1 L2 L3 L4 L5 L6 L12.
  cbn [gp sg cr eip eflags gdtr idtr tr memory eax ecx edx ebx esp ebp esi edi cs ds es fs gs ss] in *.
  replace (t - 20 - 48) with (t - 68) in * by lia.
  rewrite L1, L2. cbn [f_trapno]. split_and!.
  - done.
  - replace (t - 20 - 56 + 4) with (t - 20 - 52) by lia. done.
  - load_simp. done.
  - intros x Hx. rewrite L12 by lia. by rewrite !store32_out by lia.
  - intros Es Ec Ess Em.
    assert (Fc : f_cs (frame_at (memory c') (t - 68)) = 8) by (rewrite L1; cbn [f_cs]; load_simp; by subst).
    assert (Fc2 : f_cs (frame_at (memory c2) (t - 68)) = 8).
    { rewrite <- Fc. unfold frame_at. cbn [f_cs]. f_equal. apply load32_ext. intros. apply Em. lia. }
    rewrite (after_trap_inside c2 (t - 68)); [|unfold cpl; cbn [seg]; by rewrite Ec|lia|lia|lia|done].
    rewrite (resumed_inside_ext _ _ (memory c')) by (intros; apply Em; lia).
    rewrite L1. unfold resumed_inside.
    cbn [f_edi f_esi f_ebp f_ebx f_edx f_ecx f_eax f_gs f_fs f_es f_ds f_eip f_cs f_eflags gp sg eip eflags memory].
    load_simp. rewrite Ess, Z.mod_small by lia. replace (t - 68 + 68) with t by lia. done.
Qed.
End traps.

(** ** The first steps of a process *)

Section start.
Context {X : X86}.

(** A new process starts.  When the scheduler switches to the context that
    [allocproc] prepared on the new kernel stack, [swtch] goes to [forkret],
    whose return address is [trapret] and whose return leaves the stack at the
    trap frame; [trapret] then enters user mode with the registers that fork
    or userinit put in the frame. *)
Theorem new_process_starts trapret_ forkret at_ k s x : is_u32 trapret_ -> is_u32 forkret ->
  0 <= k -> k + KSTACKSIZE < 4294967296 ->
  let tf := k + KSTACKSIZE - TFSIZE in
  wp (init_kstack trapret_ forkret k) x s (fun _ _ s' =>
    forall c old, calls_swtch c old (tf - 4 - CTXSIZE) ->
      (forall a, tf - 4 - CTXSIZE <= a < tf -> memory c a = kmemory s' a) ->
      apart (tf - 4) 4 (esp (gp c) - 16) 16 -> apart (tf - 4) 4 old 4 ->
      let c1 := run swtch c in
      eip c1 = forkret /\ load32 (memory c1) (esp (gp c1)) = trapret_ /\ esp (gp c1) + 4 = tf /\
      forall c2, esp (gp c2) = esp (gp c1) + 4 -> cpl c2 = 0 -> segments at_ c2 ->
        user_frame (frame_at (memory c2) tf) ->
        run trapret c2 = resumed c2 (frame_at (memory c2) tf)).
Proof.
  intros Ht Hf H0 H1 tf. unfold init_kstack. fold tf. repeat wp_step. intros c old Hc Hm A1 A2.
  pose proof (swtch_switches c old _ Hc) as S1. cbv zeta.
  generalize dependent (run swtch c). intros c1 S1.
  unfold KSTACKSIZE, TFSIZE, CTXSIZE, apart in *. cbn [kmemory set_memory] in Hm.
  set (m := store32 _ _ forkret) in Hm.
  assert (Lf : load32 m (tf - 8) = forkret).
  { unfold m. replace (tf - 8) with (tf - 4 - 20 + 16) by lia. by apply load32_store32. }
  assert (Lt : load32 m (tf - 4) = trapret_).
  { unfold m. rewrite load32_store32_ne by lia. etrans; [|by apply load32_store32].
    apply load32_ext. intros a Ha. rewrite memset_at by lia. unfold in_range. by zcases. }
  pose proof (sw_loaded _ _ _ _ S1) as L. pose proof (sw_esp _ _ _ _ S1) as E. unfold CTXSIZE in E, L.
  injection L as _ _ _ _ L. split_and!.
  - rewrite <- L, <- Lf. replace (tf - 4 - 20 + 16) with (tf - 8) by lia. apply load32_ext. intros a Ha. apply Hm. lia.
  - rewrite E, <- Lt. replace (tf - 4 - 20 + 20) with (tf - 4) by lia. apply load32_ext. intros a Ha.
    rewrite (sw_mem _ _ _ _ S1) by lia. apply Hm. lia.
  - lia.
  - intros c2 E2 C2 S2 F2. assert (E3 : esp (gp c2) = tf) by lia. rewrite <- E3 in F2 |- *.
    apply (trapret_resumes at_); [done|done|lia|unfold TFSIZE; lia|done].
Qed.

(** The first program (initcode.S), up to its system call; [init] and [argv]
    are its labels. *)
Definition initcode_exec (init argv : Z) : list instr :=
  [ pushl_imm argv; pushl_imm init; pushl_imm 0; movl_imm 7 EAX ].
(** Its data. *)
Record initcode_data (m : mem) (init argv : Z) : Prop := {
  ic_init : bytes_at m init 7 = [47; 105; 110; 105; 116; 0; 0];
  ic_argv : load32 m argv = init;
  ic_null : load32 m (argv + 4) = 0
}.

(** The first process asks for /init: started as userinit leaves it, on
    an empty stack at the end of its page, initcode makes the system call
    exec with the path and the argument vector of its data, as the kernel's
    [argstr], [argint] and [fetchint] read them. *)
Theorem initcode_execs c init argv : initcode_data (memory c) init argv -> esp (gp c) = PGSIZE ->
  mem_wf (memory c) -> 0 <= init -> init + 7 <= 4084 -> 0 <= argv -> argv + 8 <= 4084 ->
  let c1 := run (initcode_exec init argv) c in
  let u := Uproc PGSIZE (memory c1) (esp (gp c1)) in
  sys_of (eax (gp c1)) = Some SYS_exec /\ argstr u 0 = Some [47; 105; 110; 105; 116] /\
  argint u 1 = Some argv /\ fetchint u argv = Some init /\ fetchint u (argv + 4) = Some 0 /\
  fetchstr u init = Some [47; 105; 110; 105; 116].
Proof.
  intros [D1 D2 D3] Es Hw I0 I1 A0 A1. unfold PGSIZE in *.
  destruct c as [[r1 r2 r3 r4 sp r6 r7 r8] sg0 cr0 pc fl gd it tr0 m]. cbn [gp esp memory] in *. subst sp.
  unfold initcode_exec. do 4 (exec1; norm_u32). rewrite run_nil. cbv zeta.
  cbn [gp esp memory eax ebx]. change (4096 - 4) with 4092. change (4096 - 8) with 4088. change (4096 - 12) with 4084.
  set (m' := store32 _ _ 0).
  assert (B : forall a, a < 4084 -> m' a = m a) by (intros a Ha; unfold m'; by rewrite !store32_out by lia).
  assert (Fi : forall a, 0 <= a -> a + 4 <= 4084 -> is_i32 (load32 m a) -> fetchint (Uproc 4096 m' 4084) a = Some (load32 m a)).
  { intros a Ha Ha' Hi. unfold fetchint. cbn [usz umem]. rewrite Z.geb_leb, Z.gtb_ltb, u32_small by (unfold is_u32; lia).
    rewrite (proj2 (Z.leb_gt _ _)), (proj2 (Z.ltb_ge _ _)) by lia. cbn [orb].
    rewrite (load32_ext m' m) by (intros; apply B; lia). f_equal. by apply i32_small. }
  assert (Fs : fetchstr (Uproc 4096 m' 4084) init = Some [47; 105; 110; 105; 116]).
  { unfold fetchstr. cbn [usz umem]. rewrite Z.geb_leb, (proj2 (Z.leb_gt _ _)) by lia.
    cbn in D1. injection D1 as E0 E1 E2 E3 E4 E5 _. rewrite Z.add_0_r in E0.
    change (Z.of_nat 1) with 1 in E1. change (Z.of_nat 2) with 2 in E2. change (Z.of_nat 3) with 3 in E3.
    change (Z.of_nat 4) with 4 in E4. change (Z.of_nat 5) with 5 in E5.
    destruct (Z.to_nat (4096 - init) + 1)%nat as [|[|[|[|[|[|n]]]]]] eqn:En; try lia.
    cbn [fetchstr_loop]. rewrite <- !Z.add_assoc.
    change (1 + 1) with 2. change (1 + 2) with 3. change (1 + 3) with 4. change (1 + 4) with 5.
    rewrite !B by lia. rewrite E0, E1, E2, E3, E4, E5.
    repeat (rewrite (proj2 (Z.ltb_lt _ _)) by lia). done. }
  assert (Ai : argint (Uproc 4096 m' 4084) 0 = Some init /\ argint (Uproc 4096 m' 4084) 1 = Some argv).
  { unfold argint. cbn [uesp]. change (u32 (4084 + 4 + 4 * 0)) with 4088. change (u32 (4084 + 4 + 4 * 1)) with 4092.
    unfold fetchint. cbn [usz umem]. change ((4088 >=? 4096) || (u32 (4088 + 4) >? 4096)) with false.
    change ((4092 >=? 4096) || (u32 (4092 + 4) >? 4096)) with false. cbv iota. unfold m'. load_simp.
    split; f_equal; apply i32_small; unfold is_i32; lia. }
  destruct Ai as [Ai1 Ai2]. split_and!; try done.
  - unfold argstr. rewrite Ai1, u32_small by (unfold is_u32; lia). done.
  - rewrite Fi, D2; [done|lia|lia|]. rewrite D2. unfold is_i32. lia.
  - rewrite Fi, D3; [done|lia|lia|]. by rewrite D3.
Qed.
End start.

(** ** Examples *)

#[local] Existing Instance ex_x86.

(** A processor initialized as the kernel does it, with its [struct cpu] at
    4096, the table at 8192, [vectors] at 16384 and the stack at 32768. *)
Definition ex_cpu0 (r : regs) (s : segs) : cpu := Cpu r s (Ctls 0 0 0) 100 514 (0, 0) (0, 0) 0 (fun _ => 1).
Definition ex_cpu (r : regs) (s : segs) : cpu :=
  switch_tss 4096 32768 0 (idtinit 8192 (tvinit 8192 16384 (seginit 4096 (ex_cpu0 r s)))).
Definition ex_h (n : Z) : Z := load32 (fun _ => 1) (16384 + 4 * n).

Lemma ex_cpu_ok r s : task 4096 32768 (ex_cpu r s) /\ handlers ex_h (ex_cpu r s).
Proof.
  destruct (tables_ready 8192 16384 4096 32768 0 (ex_cpu0 r s)) as (T & H & _);
    [lia|lia|lia|by vm_compute|unfold CPUSIZE; lia|unfold CPUSIZE; lia|by vm_compute|by intros x|].
  split; [exact T|exact H].
Qed.
Lemma ex_cpu_regs r s :
  gp (ex_cpu r s) = r /\ sg (ex_cpu r s) = s /\ eip (ex_cpu r s) = 100 /\ eflags (ex_cpu r s) = 514.
Proof. by split_and!; reflexivity. Qed.

Definition ex_user : cpu := ex_cpu (Regs 1 2 3 4 8000 6 7 8) (Segs 27 35 35 0 0 35).
Lemma ex_user_ok : user ex_user.
Proof.
  destruct (ex_cpu_regs (Regs 1 2 3 4 8000 6 7 8) (Segs 27 35 35 0 0 35)) as (E1 & E2 & E3 & E4).
  unfold ex_user. generalize dependent (ex_cpu (Regs 1 2 3 4 8000 6 7 8) (Segs 27 35 35 0 0 35)).
  intros c E1 E2 E3 E4. constructor; unfold cpl, seg; rewrite ?E1, ?E2, ?E3, ?E4; by vm_compute.
Qed.
Lemma ex_user_segs : user_segs ex_user.
Proof.
  unfold user_segs, user_sel, ex_user. destruct (ex_cpu_regs (Regs 1 2 3 4 8000 6 7 8) (Segs 27 35 35 0 0 35)) as (_ & -> & _).
  cbn [ds es fs gs]. lia.
Qed.
Lemma returned_at v c n e pc intr c1 : entered 32768 77 78 c c1 n e pc intr -> v = 32768 + KSTACKSIZE - TFSIZE - 4 ->
  returned 4096 32768 c1 (set_gpr ESP v c1) /\ memory (set_gpr ESP v c1) = memory c1.
Proof.
  intros E ->. split; [|done]. constructor; [done| |by split_and!].
  unfold cpl. cbn [seg set_gpr sg]. by rewrite (en_segs _ _ _ _ _ _ _ _ _ E).
Qed.

(** The timer interrupt, taken in user code and handled without a change. *)
Definition ex_trap (n : Z) (err : option Z) : cpu := run (vector n ++ alltraps 77 78) (deliver n err ex_user).
Lemma trap_transparent_witness :
  eip (ex_trap 32 None) = 77 /\
  gp (run after_trap (set_gpr ESP (32768 + 4096 - 80) (ex_trap 32 None))) = Regs 1 2 3 4 8000 6 7 8.
Proof.
  destruct (trap_transparent 4096 32768 77 78 ex_h ltac:(by vm_compute) ltac:(left; by vm_compute)
    ex_user 32 None 0 (set_gpr ESP (32768 + 4096 - 80) (ex_trap 32 None)) ex_user_ok ex_user_segs
    (proj1 (ex_cpu_ok _ _)) (proj2 (ex_cpu_ok _ _)) ltac:(lia) ltac:(by vm_compute) ltac:(by vm_compute)
    ltac:(by vm_compute)) as [E R].
  fold (ex_trap 32 None) in E, R. generalize dependent (ex_trap 32 None). intros c1 E R.
  split; [apply E|]. destruct (returned_at (32768 + 4096 - 80) _ _ _ _ _ _ E ltac:(done)) as [Rt Rm].
  destruct (R Rt ltac:(by rewrite Rm)) as [G _]. rewrite G. apply ex_cpu_regs.
Defined.

Lemma user_int_denied_witness :
  entered 32768 77 78 ex_user (run (vector 13 ++ alltraps 77 78) (int_ 14 ex_user)) 13 114 100 true.
Proof.
  exact (user_int_denied 4096 32768 77 78 ex_h ltac:(by vm_compute) ltac:(left; by vm_compute)
    ex_user 14 ex_user_ok (proj1 (ex_cpu_ok _ _)) (proj2 (ex_cpu_ok _ _)) ltac:(lia) ltac:(done) ltac:(by vm_compute)).
Defined.

(** getpid, which returns 5. *)
Definition ex_call : cpu :=
  run (vector T_SYSCALL ++ alltraps 77 78) (int_ T_SYSCALL (set_eip 105 (run (usys_number 11) ex_user))).
Definition put_eax (v : Z) (c : cpu) : cpu :=
  set_gpr ESP (32768 + 4096 - 80) (set_mem (store32 (memory c) (32768 + 4096 - 76 + 28) v) c).
Lemma put_eax_returned v c1 : cpl c1 = 0 -> is_u32 v ->
  returned 4096 32768 c1 (put_eax v c1) /\
  frame_at (memory (put_eax v c1)) (32768 + KSTACKSIZE - TFSIZE) =
    with_eax v (frame_at (memory c1) (32768 + KSTACKSIZE - TFSIZE)).
Proof.
  intros Hc Hv. split.
  - constructor; [done|done|]. split_and!; [done|done|]. intros x Hx. unfold CPUSIZE in Hx.
    apply store32_out. lia.
  - unfold put_eax, with_eax, frame_at, KSTACKSIZE, TFSIZE. cbn [memory set_gpr set_mem].
    cbn [f_edi f_esi f_ebp f_oesp f_ebx f_edx f_ecx f_gs f_fs f_es f_ds f_trapno f_err f_eip f_cs f_eflags f_esp f_ss].
    load_simp. done.
Qed.
Lemma usys_calls_witness :
  f_eax (frame_at (memory ex_call) (32768 + KSTACKSIZE - TFSIZE)) = 11 /\
  gp (run usys_ret (run after_trap (put_eax 5 ex_call))) = Regs 5 2 3 4 8004 6 7 8.
Proof.
  destruct (usys_calls 4096 32768 77 78 ex_h ltac:(by vm_compute) ltac:(left; by vm_compute)
    ex_user 11 (put_eax 5 ex_call) 5 ex_user_ok ex_user_segs (proj1 (ex_cpu_ok _ _)) (proj2 (ex_cpu_ok _ _))
    ltac:(by vm_compute) ltac:(by vm_compute) ltac:(by vm_compute) ltac:(by vm_compute)) as [(E0 & _ & _ & _ & E & _) R].
  change (set_eip (eip ex_user + 5) (run (usys_number 11) ex_user)) with (set_eip 105 (run (usys_number 11) ex_user)) in E0, E, R.
  fold ex_call in E0, E, R. split; [exact E|].
  generalize dependent ex_call. intros c1 E0 E R. destruct (put_eax_returned 5 c1 E0 ltac:(by vm_compute)) as [Rt Rf].
  destruct (R Rt Rf) as (_ & _ & G & _). cbv zeta in G. rewrite G.
  change (gp ex_user) with (Regs 1 2 3 4 8000 6 7 8). done.
Defined.

(** The same interrupt in the kernel. *)
Definition ex_kernel : cpu := ex_cpu (Regs 1 2 3 4 36000 6 7 8) (Segs 8 16 16 0 0 16).
Lemma ex_kernel_ok : kernel_mode ex_kernel 76.
Proof.
  destruct (ex_cpu_regs (Regs 1 2 3 4 36000 6 7 8) (Segs 8 16 16 0 0 16)) as (E1 & E2 & E3 & E4).
  unfold ex_kernel. generalize dependent (ex_cpu (Regs 1 2 3 4 36000 6 7 8) (Segs 8 16 16 0 0 16)).
  intros c E1 E2 E3 E4. constructor; rewrite ?E1, ?E2, ?E3, ?E4; by vm_compute.
Qed.
Definition ex_ktrap : cpu := run (vector 32 ++ alltraps 77 78) (deliver 32 None ex_kernel).
Definition ex_kret : cpu := set_seg CS 8 (set_seg SS 16 (set_gpr ESP (36000 - 72) ex_ktrap)).
Lemma trap_transparent_kernel_witness : gp (run after_trap ex_kret) = Regs 1 2 3 4 36000 6 7 8.
Proof.
  destruct (trap_transparent_kernel 4096 77 78 ex_h ex_kernel 32 None 0 ex_kret ex_kernel_ok
    (tk_seg _ _ _ (proj1 (ex_cpu_ok _ _))) (proj2 (ex_cpu_ok _ _)) ltac:(lia) ltac:(by vm_compute) ltac:(by vm_compute)
    ltac:(by vm_compute)) as (_ & _ & _ & _ & R).
  fold ex_ktrap in R. change (esp (gp ex_kernel)) with 36000 in R. unfold ex_kret in *.
  generalize dependent ex_ktrap. intros c1 R. change (sg ex_kernel) with (Segs 8 16 16 0 0 16) in R.
  destruct (R ltac:(done) ltac:(done) ltac:(done) ltac:(done)) as [G _]. rewrite G. reflexivity.
Defined.

(** A thread on a stack at 1000 that switches away and is switched back to by
    one on a stack at 3000. *)
Definition ex_stacks : mem := fold_right (fun '(a, v) m => store32 m a v) (fun _ => 0)
  [(1000, 77); (1004, 500); (1008, 2000); (3004, 600); (3008, 984)].
Definition ex_away : cpu := set_mem ex_stacks (ex_cpu0 (Regs 1 2 3 4 1000 6 7 8) (Segs 8 16 16 0 0 16)).
Definition ex_back : cpu :=
  set_mem (fold_right (fun '(a, v) m => store32 m a v) ex_stacks [(984, 8); (988, 7); (992, 4); (996, 6)])
    (ex_cpu0 (Regs 0 0 0 0 3000 0 0 0) (Segs 8 16 16 0 0 16)).
Lemma fold_store_wf m l : mem_wf m -> mem_wf (fold_right (fun '(a, v) m => store32 m a v) m l).
Proof. intros H. induction l as [|[a v] l IH]; cbn; [done|by apply store32_wf]. Qed.
Lemma ex_stacks_wf : mem_wf ex_stacks.
Proof. apply fold_store_wf. by intros x. Qed.

Lemma swtch_returns_witness :
  eip (run swtch ex_back) = 77 /\ esp (gp (run swtch ex_back)) = 1004 /\ edi (gp (run swtch ex_back)) = 8.
Proof.
  destruct (swtch_returns ex_away 500 2000 ex_back 600) as (E1 & E2 & E3 & _); [| | |by split_and!].
  - constructor; [apply ex_stacks_wf|by vm_compute..| |]; [by split_and!; vm_compute|].
    unfold apart. cbn. lia.
  - replace (load32 (memory (run swtch ex_away)) 500) with 984 by (by vm_compute).
    constructor; [apply fold_store_wf, ex_stacks_wf|by vm_compute..| |]; [by split_and!; vm_compute|].
    unfold apart. cbn. lia.
  - cbn [esp gp ex_away ex_cpu0 set_mem]. intros x Hx.
    assert (Hin : x ∈ (fun k => 984 + Z.of_nat k) <$> seq 0 20).
    { apply list_elem_of_fmap. exists (Z.to_nat (x - 984)). rewrite elem_of_seq. lia. }
    revert x Hin Hx. change (forall x, x ∈ (fun k => 984 + Z.of_nat k) <$> seq 0 20 -> 1000 - 16 <= x < 1000 + 4 ->
      memory ex_back x = memory (run swtch ex_away) x).
    intros x Hin _. revert x Hin. apply Forall_forall. repeat constructor; by vm_compute.
Defined.

(** The scheduler, on a stack at 1000, switches to a new process whose kernel
    stack is at 32768. *)
Definition ex_kst : kst := Kst (fun _ => 0) 0 0.
Definition ex_new_mem : mem :=
  match init_kstack 55 66 32768 (Ctx [] 1 false []) ex_kst with Ok _ _ s => kmemory s | _ => fun _ => 0 end.
Definition ex_sched : cpu :=
  set_mem (store32 (store32 ex_new_mem 1004 500) 1008 (32768 + 4096 - 100))
    (ex_cpu0 (Regs 1 2 3 4 1000 6 7 8) (Segs 8 16 16 0 0 16)).
Lemma new_process_starts_witness :
  eip (run swtch ex_sched) = 66 /\ load32 (memory (run swtch ex_sched)) (esp (gp (run swtch ex_sched))) = 55.
Proof.
  pose proof (new_process_starts 55 66 4096 32768 ex_kst (Ctx [] 1 false []) ltac:(by vm_compute) ltac:(by vm_compute)
    ltac:(lia) ltac:(by vm_compute)) as W.
  unfold wp in W. assert (Hw : mem_wf ex_new_mem).
  { change (mem_wf (store32 (memset (store32 (fun _ => 0) (32768 + 4096 - 76 - 4) 55) (32768 + 4096 - 76 - 4 - 20) 0 20)
      (32768 + 4096 - 76 - 4 - 20 + 16) 66)).
    apply store32_wf, memset_wf, store32_wf. by intros x. }
  destruct (init_kstack 55 66 32768 (Ctx [] 1 false []) ex_kst) as [u x s| | |] eqn:Er; [|contradiction..].
  assert (Em : kmemory s = ex_new_mem) by (unfold ex_new_mem; by rewrite Er).
  destruct (W ex_sched 500) as (E1 & E2 & _); [| | | |by split].
  - constructor; [by do 2 apply store32_wf|by vm_compute..| |]; [by split_and!; vm_compute|].
    unfold apart, KSTACKSIZE, TFSIZE, CTXSIZE. cbn. lia.
  - intros a Ha. rewrite Em. unfold KSTACKSIZE, TFSIZE, CTXSIZE in Ha.
    unfold ex_sched. cbn [memory set_mem]. by rewrite !store32_out by lia.
  - unfold apart, KSTACKSIZE, TFSIZE, CTXSIZE. cbn. lia.
  - unfold apart, KSTACKSIZE, TFSIZE, CTXSIZE. cbn. lia.
Defined.

Definition ex_init : mem := fold_right (fun '(a, v) m => store8 m a v) (store32 (fun _ => 0) 36 28)
  [(28, 47); (29, 105); (30, 110); (31, 105); (32, 116)].
Lemma initcode_execs_witness :
  argstr (Uproc PGSIZE (memory (run (initcode_exec 28 36) (set_mem ex_init (ex_cpu0 (Regs 0 0 0 0 4096 0 0 0) (Segs 27 35 35 0 0 35)))))
    4084) 0 = Some [47; 105; 110; 105; 116].
Proof.
  apply (initcode_execs (set_mem ex_init (ex_cpu0 (Regs 0 0 0 0 4096 0 0 0) (Segs 27 35 35 0 0 35))) 28 36);
    [by constructor; vm_compute|done| |lia..].
  intros x. unfold ex_init. cbn. repeat apply store8_wf. apply store32_wf. by intros y.
Defined.
