(* ===== verification/TrapSpec.v ===== *)
(** * What every process keeps: user frames, files and init (trap.c, syscall.c, proc.c)

    An invariant of the process table under a whole trap: a process that can
    be resumed returns to user mode without the kernel's privileges, a slot
    that has been given up owns no open file, and init is never given up.
    Every system call is covered, up to where it first sleeps. *)
From stdpp Require Import functions.
From S2P Require Import Prelude CString Mmu Kalloc Vm Pipe Block Sleeplock Log Buffers LogBuf Fs File FileSpec Proc Kernel.
From S2P Require Import VmSpec KernelSpec Exec Syscall SysFile Trap X86 Gates Entry.
#[local] Set Default Proof Using "Type".

(** ** The invariant *)

(** The flags that decide what user code may do: interrupts, the level for
    port access and virtual-8086 mode. *)
Definition FL_PRIV : Z := FL_IF + 0x3000 + 0x20000.

(** A frame from which [iret] goes back to user code: the user's code and
    stack segments, data segments that user code can load, interrupts on, no
    port access. *)
Record user_tf (f : trapframe) : Prop := {
  ut_cs : tf_cs f = USER_CS;
  ut_ss : tf_ss f = USER_DS;
  ut_ds : user_sel (tf_ds f);
  ut_es : user_sel (tf_es f);
  ut_flags : Z.land (tf_eflags f) FL_PRIV = FL_IF
}.

Definition no_files (p : proc) : Prop := forall d, (d < NOFILE)%nat -> ofile p d = None.

Record slot_ok (p : proc) : Prop := {
  so_tf : state p <> UNUSED -> state p <> EMBRYO -> user_tf (tf p);
  so_files : state p = UNUSED \/ state p = ZOMBIE -> no_files p
}.

Record ptable_ok (t : ptab) : Prop := {
  po_slots : forall i, slot_ok (procs t i);
  po_init : forall k, initproc t = Some k -> state (procs t k) <> UNUSED /\ state (procs t k) <> ZOMBIE
}.

(** The same while the process [cur], if there is one, runs. *)
Record running (cur : option nat) (t : ptab) : Prop := {
  ru_ok : ptable_ok t;
  ru_cur : forall i, cur = Some i -> state (procs t i) = RUNNING
}.

Lemma ptable_ok_clean {T} (s : kernel T) : ptable_ok (kpt s) -> slots_clean s.
Proof. intros [P1 _] i d _ Hd Hu. apply (so_files _ (P1 i)); [by left|done]. Qed.

(** ** Updates that matter to none of this *)

Record mild (t t' : ptab) : Prop := {
  mi_init : initproc t' = initproc t;
  mi_tf : forall i, tf (procs t' i) = tf (procs t i);
  mi_files : forall i, ofile (procs t' i) = ofile (procs t i);
  mi_state : forall i, state (procs t' i) = state (procs t i) \/
    (state (procs t i) = SLEEPING /\ state (procs t' i) = RUNNABLE)
}.
Definition stable (P : ptab -> Prop) : Prop := forall t t', mild t t' -> P t -> P t'.

(** An update of one slot. *)
Record mild1 (p q : proc) : Prop := {
  m1_tf : tf q = tf p;
  m1_files : ofile q = ofile p;
  m1_state : state q = state p \/ (state p = SLEEPING /\ state q = RUNNABLE)
}.

Lemma mild_upd i g t : mild1 (procs t i) (g (procs t i)) -> mild t (upd_proc i g t).
Proof.
  intros [H1 H2 H3]. constructor; [done|..]; intros j; cbn; (destruct (decide (i = j)) as [<-|Hne];
    [rewrite fn_lookup_insert|rewrite fn_lookup_insert_ne by done]); try done. by left.
Qed.

Lemma mild_wakeup ch t : mild t (Ptab (wakeup1_loop NPROC 0 ch (procs t)) (nextpid t) (initproc t)).
Proof.
  assert (Hw : forall i, mild1 (procs t i) (wakeup1_loop NPROC 0 ch (procs t) i)).
  { intros i. rewrite wakeup1_loop_spec. case_decide; [|constructor; auto].
    unfold wake. do 2 case_bool_decide; cbn; constructor; auto. }
  constructor; [done|..]; intros i; apply Hw.
Qed.

Lemma mild_ok t t' : mild t t' -> ptable_ok t -> ptable_ok t'.
Proof.
  intros [M1 M2 M3 M4] [P1 P2]. constructor.
  - intros i. destruct (P1 i) as [S1 S2]. constructor; unfold no_files; rewrite ?M2, ?M3;
      destruct (M4 i) as [->|[E ->]]; try done; intros; [apply S1; congruence|naive_solver].
  - intros k Hk. rewrite M1 in Hk. destruct (P2 k Hk). destruct (M4 k) as [->|[E ->]]; done.
Qed.

Lemma stable_running cur : stable (running cur).
Proof.
  intros t t' M [R1 R2]. constructor; [by apply (mild_ok t)|]. intros i Hi. specialize (R2 i Hi).
  destruct (mi_state _ _ M i) as [->|[E _]]; [done|congruence].
Qed.

(** ** Triples

    [holds P m Q]: run from a table that satisfies [P], [m] returns with [Q],
    or sleeps with the invariant, or panics. *)
Definition holds {S A} (pt : S -> ptab) (P : ptab -> Prop) (m : M S A) (Q : A -> ptab -> Prop) : Prop :=
  forall c s, P (pt s) ->
    match m c s with
    | Ok a _ s' => Q a (pt s')
    | Block _ _ s' => ptable_ok (pt s')
    | _ => True
    end.

Section rules.
Context {S : Type} (pt : S -> ptab).
#[local] Notation holds := (holds pt).

Lemma holds_ret {A} (P : ptab -> Prop) (a : A) (Q : A -> ptab -> Prop) : (forall t, P t -> Q a t) -> holds P (mret a) Q.
Proof. intros H c s Hp. by apply H. Qed.

Lemma holds_bind {A B} P (m : M S A) R (k : A -> M S B) Q :
  holds P m R -> (forall a, holds (R a) (k a) Q) -> holds P (m ≫= k) Q.
Proof.
  intros Hm Hk c s Hp. unfold mbind, M_bind. specialize (Hm c s Hp). destruct (m c s); cbn; try done.
  by apply Hk.
Qed.

Lemma holds_mono {A} P P' (m : M S A) Q Q' : holds P' m Q' ->
  (forall t, P t -> P' t) -> (forall a t, Q' a t -> Q a t) -> holds P m Q.
Proof. intros Hm HP HQ c s Hp. specialize (Hm c s (HP _ Hp)). destruct (m c s); auto. Qed.

Lemma holds_pure {A} P (X : Prop) (m : M S A) Q : (X -> holds P m Q) -> holds (fun t => P t /\ X) m Q.
Proof. intros H c s [Hp Hx]. by apply H. Qed.

Lemma holds_panic {A} P msg (Q : A -> ptab -> Prop) : holds P (panic msg) Q.
Proof. by intros c s _. Qed.
Lemma holds_nofuel {A} P (Q : A -> ptab -> Prop) : holds P (fun _ _ => NoFuel) Q.
Proof. by intros c s _. Qed.
Lemma holds_acquire P l : holds P (acquire l) (fun _ => P).
Proof. intros c s Hp. unfold acquire. by case_decide. Qed.
Lemma holds_release P l : holds P (release l) (fun _ => P).
Proof. intros c s Hp. unfold release. by case_decide. Qed.
Lemma holds_gets {A} P (f : S -> A) : holds P (gets f) (fun _ => P).
Proof. by intros c s Hp. Qed.
Lemma holds_getctx {A} P (f : ctx -> A) : holds P (getctx f) (fun _ => P).
Proof. by intros c s Hp. Qed.
Lemma holds_when P b m : (b = true -> holds P m (fun _ => P)) -> holds P (when b m) (fun _ => P).
Proof. intros H. destruct b; [by apply H|]. by apply holds_ret. Qed.
End rules.

(** One step, then the rest. *)
Ltac hseq tac := eapply holds_bind; [tac|intros ?; cbv beta].

(** On the table itself. *)
Lemma holds_getp {A} P i (f : proc -> A) : holds id P (getp i f) (fun a t => P t /\ a = f (procs t i)).
Proof. by intros c s Hp. Qed.
Lemma holds_pgets {A} P (f : ptab -> A) : holds id P (gets f) (fun a t => P t /\ a = f t).
Proof. by intros c s Hp. Qed.
Lemma holds_modify P f (Q : unit -> ptab -> Prop) : (forall t, P t -> Q tt (f t)) -> holds id P (modify f) Q.
Proof. intros H c s Hp. by apply H. Qed.
Lemma holds_setp P i g (Q : unit -> ptab -> Prop) : (forall t, P t -> Q tt (upd_proc i g t)) -> holds id P (setp i g) Q.
Proof. apply holds_modify. Qed.
Lemma holds_mild P i g : stable P -> (forall p, mild1 p (g p)) -> holds id P (setp i g) (fun _ => P).
Proof. intros HP Hg. apply holds_setp. intros t Ht. apply (HP t); [by apply mild_upd|done]. Qed.

Lemma holds_wakeup1 P ch : stable P -> holds id P (wakeup1 ch) (fun _ => P).
Proof. intros HP. apply holds_modify. intros t Ht. apply (HP t); [apply mild_wakeup|done]. Qed.
Lemma holds_wakeup P ch : stable P -> holds id P (Proc.wakeup ch) (fun _ => P).
Proof.
  intros HP. hseq ltac:(apply holds_acquire). hseq ltac:(by apply holds_wakeup1).
  apply holds_release.
Qed.

(** [sched] only gives up the processor. *)
Lemma holds_sched {A} P cur ch (Q : A -> ptab -> Prop) : (forall t, P t -> ptable_ok t) -> holds id P (sched cur ch) Q.
Proof.
  intros HP. unfold sched. hseq ltac:(apply holds_getctx). hseq ltac:(apply holds_getp).
  repeat case_match; try apply holds_panic. intros c s [Hp _]. by apply HP.
Qed.

(** A running process may stop running. *)
Lemma stop_ok cur x t : running (Some cur) t -> x = SLEEPING \/ x = RUNNABLE -> ptable_ok (upd_proc cur (set_state x) t).
Proof.
  intros [[P1 P2] R] Hx. specialize (R cur eq_refl). constructor; cbn.
  - intros i. destruct (decide (cur = i)) as [<-|Hne]; [rewrite fn_lookup_insert|by rewrite fn_lookup_insert_ne].
    destruct (P1 cur) as [S1 _]. constructor; cbn; [intros; apply S1; congruence|intros [->| ->]; naive_solver].
  - intros k Hk. destruct (decide (cur = k)) as [<-|Hne]; [rewrite fn_lookup_insert; cbn|rewrite fn_lookup_insert_ne by done; auto].
    destruct Hx as [-> | ->]; done.
Qed.

(** The running process may change its own files and, within the
    type, its frame. *)
Lemma own_ok cur g t : running (Some cur) t -> (forall p, state (g p) = state p) ->
  (user_tf (tf (procs t cur)) -> user_tf (tf (g (procs t cur)))) ->
  running (Some cur) (upd_proc cur g t).
Proof.
  intros [[P1 P2] R] Hs Hf. pose proof (R cur eq_refl) as Hc. constructor; [constructor|]; cbn.
  - intros i. destruct (decide (cur = i)) as [<-|Hne]; [rewrite fn_lookup_insert|by rewrite fn_lookup_insert_ne].
    destruct (P1 cur) as [S1 _]. constructor; rewrite Hs, Hc; [intros _ _; apply Hf, S1; congruence|naive_solver].
  - intros k Hk. destruct (decide (cur = k)) as [<-|Hne]; [rewrite fn_lookup_insert, Hs|rewrite fn_lookup_insert_ne by done]; auto.
  - intros i [= <-]. by rewrite fn_lookup_insert, Hs.
Qed.

Lemma holds_sleep {A} cur ch lk (Q : A -> ptab -> Prop) : holds id (running (Some cur)) (Proc.sleep cur ch lk) Q.
Proof.
  unfold Proc.sleep. eapply holds_bind with (R := fun _ => running (Some cur)).
  { case_decide; [by apply holds_ret|]. hseq ltac:(apply holds_acquire). apply holds_release. }
  intros _. hseq ltac:(apply holds_mild; [apply stable_running|]; intros p; by constructor; [..|left]).
  eapply (holds_bind _ _ _ (fun _ => ptable_ok)); [|intros _; by apply holds_sched].
  apply holds_setp. intros t Ht. apply stop_ok; auto.
Qed.

Lemma holds_yield {A} cur (Q : A -> ptab -> Prop) : holds id (running (Some cur)) (yield cur) Q.
Proof.
  unfold yield. hseq ltac:(apply holds_acquire).
  eapply (holds_bind _ _ _ (fun _ => ptable_ok)); [|intros _; by apply holds_sched].
  apply holds_setp. intros t Ht. apply stop_ok; auto.
Qed.

(** ** The kernel's own operations *)

(** A condition on the table that a process which sleeps leaves behind and
    that mild updates respect. *)
Record good (P : ptab -> Prop) : Prop := { gd_stable : stable P; gd_ok : forall t, P t -> ptable_ok t }.

Lemma good_running cur : good (running cur).
Proof. split; [apply stable_running|]. by intros t []. Qed.
Lemma good_and P (R : ptab -> Prop) : good P -> stable R -> good (fun t => P t /\ R t).
Proof.
  intros [P1 P2] HR. split; [|intros t [? _]; auto]. intros t t' M [H1 H2]. split; [by apply (P1 t)|by apply (HR t)].
Qed.

Section kernel.
Context {T : Type} {BC : BufferCache T}.
#[local] Notation K := (kernel T).
#[local] Notation holdk := (holds (@kpt T)).
Definition keeps {A} (P : ptab -> Prop) (m : M K A) : Prop := holdk P m (fun _ => P).

Lemma holds_onpt {A} P (m : M ptab A) Q : holds id P m Q -> holdk P (onpt m) Q.
Proof. intros H c s Hp. unfold onpt, zoom. specialize (H c (kpt s) Hp). by destruct (m c (kpt s)). Qed.

Section keeps.
Context (P : ptab -> Prop) (HP : good P).

Lemma keeps_bind {A B} (m : M K A) (k : A -> M K B) : keeps P m -> (forall a, keeps P (k a)) -> keeps P (m ≫= k).
Proof. intros Hm Hk. eapply holds_bind; [exact Hm|exact Hk]. Qed.
Lemma keeps_ret {A} (a : A) : keeps P (mret a).
Proof. by apply holds_ret. Qed.
Lemma keeps_file {A} (m : M (fst_ T) A) : keeps P (onfile m).
Proof using HP. intros c s Hp. unfold onfile, zoom. destruct (m c (kfile s)); cbn; try done. by apply HP. Qed.
Lemma keeps_vm {A} (m : M kst A) : keeps P (onvm m).
Proof using HP. intros c s Hp. unfold onvm, zoom. destruct (m c (kmem s)); cbn; try done. by apply HP. Qed.
Lemma keeps_getp {A} i (f : proc -> A) : keeps P (onpt (getp i f)).
Proof. apply holds_onpt. eapply holds_mono; [apply holds_getp|done|]. by intros a t []. Qed.
Lemma keeps_mild i g : (forall p, mild1 p (g p)) -> keeps P (onpt (setp i g)).
Proof using HP. intros Hg. apply holds_onpt, holds_mild; [apply HP|done]. Qed.
Lemma keeps_gets {A} (f : K -> A) : keeps P (gets f).
Proof. apply holds_gets. Qed.
Lemma keeps_when b (m : M K unit) : (b = true -> keeps P m) -> keeps P (when b m).
Proof. apply holds_when. Qed.
Lemma keeps_panic {A} msg : keeps P (panic msg : M K A).
Proof. apply holds_panic. Qed.
Lemma keeps_nofuel {A} : keeps P (fun _ _ => NoFuel : outcome K A).
Proof. apply holds_nofuel. Qed.
Lemma keeps_acquire l : keeps P (acquire l : M K unit).
Proof. apply holds_acquire. Qed.
Lemma keeps_release l : keeps P (release l : M K unit).
Proof. apply holds_release. Qed.
End keeps.
End kernel.

(** Fields that the invariant does not mention. *)
Lemma mild_id p : mild1 p p.
Proof. constructor; auto. Qed.
Ltac mild1_tac := by intros ?; constructor; [..|left].

(** The rules above, as far as they go. *)
Ltac good_tac := assumption || apply good_running.
Ltac keep1 :=
  match goal with
  | |- keeps _ (_ ≫= _) => apply keeps_bind; [|intros ?]
  | |- keeps _ (mret _) => apply keeps_ret
  | |- keeps _ (onfile _) => apply keeps_file; good_tac
  | |- keeps _ (Exec.fs _) => apply keeps_file; good_tac
  | |- keeps _ (onvm _) => apply keeps_vm; good_tac
  | |- keeps _ (Exec.vm _ _) => apply keeps_vm; good_tac
  | |- keeps _ (onpt (getp _ _)) => apply keeps_getp
  | |- keeps _ (onpt (setp _ _)) => apply keeps_mild; [good_tac|mild1_tac]
  | |- keeps _ (gets _) => apply keeps_gets
  | |- keeps _ (SysFile.arg _ _) => apply keeps_gets
  | |- keeps _ (when _ _) => apply keeps_when; intros ?
  | |- keeps _ (panic _) => apply keeps_panic
  | |- keeps _ (fun _ _ => NoFuel) => apply keeps_nofuel
  | |- keeps _ (acquire _) => apply keeps_acquire
  | |- keeps _ (release _) => apply keeps_release
  | |- keeps _ (if ?b then _ else _) => destruct b
  | |- keeps _ (match ?x with _ => _ end) => destruct x
  end.
Ltac keep := repeat (cbv zeta; (eassumption || keep1)).

(** ** Files and programs *)
Create HintDb keep.
Section calls.
Context {T : Type} {BC : BufferCache T}.
#[local] Notation K := (kernel T).
Variables (kend kdata trapret forkret : Z).
Variable devread : Z -> option (nat -> Z -> M (fsst T) (Z * list Z)).
Variable devwrite : Z -> option (nat -> list Z -> M (fsst T) Z).
Variable cur : nat.
#[local] Notation P := (running (Some cur)).

Lemma keeps_own g : (forall p, state (g p) = state p) -> (forall p, user_tf (tf p) -> user_tf (tf (g p))) ->
  keeps P (onpt (setp cur g) : M K unit).
Proof. intros Hs Hf. apply holds_onpt, holds_setp. intros t Ht. apply own_ok; auto. Qed.

Lemma keeps_fdalloc f : keeps P (fdalloc cur f : M K Z).
Proof. unfold fdalloc. keep. apply keeps_own; auto. Qed.
Lemma keeps_put_user a bs : keeps P (put_user cur a bs : M K unit).
Proof. unfold put_user. keep. Qed.
Lemma keeps_argfd n : keeps P (argfd cur n : M K _).
Proof. unfold argfd. keep. Qed.
Lemma keeps_knamei path : keeps P (knamei devread cur path : M K _).
Proof. unfold knamei, cwd_of. keep. Qed.
Lemma keeps_knameiparent path : keeps P (knameiparent devread cur path : M K _).
Proof. unfold knameiparent, cwd_of. keep. Qed.
Lemma keeps_nlink ip d : keeps P (seti_nlink ip d : M K unit).
Proof. unfold seti_nlink. keep. Qed.
#[local] Hint Resolve keeps_fdalloc keeps_put_user keeps_argfd keeps_knamei keeps_knameiparent keeps_nlink : keep.
#[local] Ltac keep' := repeat (cbv zeta; (solve [auto with keep] || keep1)).

Lemma keeps_create path type major minor : keeps P (create devread devwrite cur path type major minor : M K _).
Proof. unfold create. keep'. Qed.
Lemma keeps_open_inode path m : keeps P (open_inode devread devwrite cur path m : M K _).
Proof. pose proof keeps_create. unfold open_inode. keep'. Qed.

Lemma keeps_sys_dup : keeps P (sys_dup cur : M K Z).
Proof. unfold sys_dup. keep'. Qed.
Lemma keeps_sys_read : keeps P (sys_read devread cur : M K Z).
Proof. unfold sys_read. keep'. Qed.
Lemma keeps_sys_write : keeps P (sys_write devwrite cur : M K Z).
Proof. unfold sys_write, get_user. keep'. Qed.
Lemma keeps_sys_close : keeps P (sys_close kend cur : M K Z).
Proof. unfold sys_close. keep'. apply keeps_own; auto. Qed.
Lemma keeps_sys_fstat : keeps P (sys_fstat cur : M K Z).
Proof. unfold sys_fstat, put_stat. keep'. Qed.
Lemma keeps_sys_link : keeps P (sys_link devread devwrite cur : M K Z).
Proof. unfold sys_link, link_bad. keep'. Qed.
Lemma keeps_sys_unlink : keeps P (sys_unlink devread devwrite cur : M K Z).
Proof. unfold sys_unlink, unlink_bad. keep'. Qed.
Lemma keeps_sys_open : keeps P (sys_open kend devread devwrite cur : M K Z).
Proof. pose proof keeps_open_inode. unfold sys_open. keep'. Qed.
Lemma keeps_sys_mkdir : keeps P (sys_mkdir devread devwrite cur : M K Z).
Proof. pose proof keeps_create. unfold sys_mkdir. keep'. Qed.
Lemma keeps_sys_mknod : keeps P (sys_mknod devread devwrite cur : M K Z).
Proof. pose proof keeps_create. unfold sys_mknod. keep'. Qed.
Lemma keeps_sys_chdir : keeps P (sys_chdir devread cur : M K Z).
Proof. unfold sys_chdir, cwd_of. keep'. Qed.
Lemma keeps_sys_pipe : keeps P (sys_pipe kend cur : M K Z).
Proof. unfold sys_pipe. keep'. apply keeps_own; auto. Qed.

Lemma keeps_loaduvm_loop n : forall ip pg a i off sz,
  keeps P (loaduvm_loop Exec.vm (readi_mem devread ip) n pg a i off sz : M K Z).
Proof. induction n as [|n IH]; intros; cbn [loaduvm_loop]; unfold readi_mem in *; keep; auto. Qed.
Lemma keeps_load_segments n : forall ip pg off sz, keeps P (load_segments kend devread n ip pg off sz : M K _).
Proof.
  pose proof keeps_loaduvm_loop. induction n as [|n IH]; intros; cbn [load_segments]; unfold loaduvm; keep; auto.
Qed.
Lemma keeps_push_args argv : forall argc pg sp us, keeps P (push_args argv argc pg sp us : M K _).
Proof. induction argv as [|a r IH]; intros; cbn [push_args]; keep; auto. Qed.
Lemma keeps_build_stack pg sz argv : keeps P (build_stack kend pg sz argv : M K _).
Proof. pose proof keeps_push_args. unfold build_stack. keep; auto. Qed.
Lemma keeps_switchuvm i : keeps P (onpt (switchuvm i) : M K unit).
Proof.
  apply holds_onpt. unfold switchuvm. eapply (holds_bind _ _ _ (fun _ => P)); [eapply holds_mono; [apply holds_getp|done|by intros a t []]|].
  intros x. cbv beta. repeat case_match; (apply holds_panic || by apply holds_ret).
Qed.

(** [exec] changes eip and esp of the frame, nothing else of it. *)
Lemma keeps_exec path argv : keeps P (exec kend kdata devread cur path argv : M K Z).
Proof.
  pose proof keeps_load_segments. pose proof keeps_build_stack. pose proof keeps_switchuvm.
  unfold exec, bad_locked, bad_unlocked. keep; auto. apply keeps_own; [done|]. intros p [? ? ? ? ?]. by constructor.
Qed.
Lemma keeps_sys_exec : keeps P (sys_exec kend kdata devread cur : M K Z).
Proof. pose proof keeps_exec. unfold sys_exec. keep; auto. Qed.
Lemma keeps_growproc n : keeps P (growproc kend cur n : M K Z).
Proof. pose proof keeps_switchuvm. unfold growproc. keep; auto. Qed.
Lemma keeps_sys_sbrk a : keeps P (sys_sbrk kend cur a : M K Z).
Proof. pose proof keeps_growproc. unfold sys_sbrk. keep; auto. Qed.

Lemma keeps_kill p : keeps P (onpt (Proc.kill p) : M K Z).
Proof.
  apply holds_onpt. unfold Proc.kill. hseq ltac:(apply holds_acquire). hseq ltac:(apply holds_gets).
  case_match; [|hseq ltac:(apply holds_release); by apply holds_ret].
  hseq ltac:(apply holds_mild; [apply good_running|mild1_tac]). hseq ltac:(apply holds_getp).
  eapply (holds_bind _ _ _ (fun _ => P)).
  - unfold when. case_bool_decide as E; [|apply holds_ret; by intros t []].
    apply holds_setp. intros t [Ht Hs]. apply (stable_running (Some cur) t); [|done].
    apply mild_upd. constructor; [done|done|]. right. cbn. by rewrite <- Hs.
  - intros _. hseq ltac:(apply holds_release). by apply holds_ret.
Qed.
Lemma keeps_sys_kill a : keeps P (sys_kill a : M K Z).
Proof. pose proof keeps_kill. unfold sys_kill. keep; auto. Qed.
Lemma keeps_sys_sleep a : keeps P (sys_sleep cur a : M K Z).
Proof. unfold sys_sleep, sleep_round. keep. apply holds_onpt, holds_sleep. Qed.
Lemma keeps_sys_uptime : keeps P (sys_uptime : M K Z).
Proof. unfold sys_uptime. keep. Qed.
End calls.

(** ** Creating a process *)

(** A slot [i] just taken, with its files and frame as the rest of the
    condition [R] says. *)
Record taken_slot (cur : option nat) (i : nat) (R : proc -> Prop) (t : ptab) : Prop := {
  ts_run : running cur t;
  ts_ne : cur <> Some i /\ initproc t <> Some i;
  ts_state : state (procs t i) = EMBRYO;
  ts_rest : R (procs t i)
}.
Definition typed_tf (p : proc) : Prop := user_tf (tf p).

Lemma good_taken cur i (R : proc -> Prop) : (forall p q, mild1 p q -> R p -> R q) -> good (taken_slot cur i R).
Proof.
  intros HR. split; [|by intros t [[] _ _ _]]. intros t t' M [T1 [T2 T3] T4 T5].
  assert (E : state (procs t' i) = EMBRYO) by (destruct (mi_state _ _ M i) as [->|[E _]]; congruence).
  constructor; [by apply (stable_running cur t)|by rewrite (mi_init _ _ M)|done|].
  apply (HR (procs t i)); [|done]. constructor; [apply M|apply M|]. left. congruence.
Qed.
Lemma good_new cur i : good (taken_slot cur i no_files).
Proof. apply good_taken. intros p q M. unfold no_files. by rewrite (m1_files _ _ M). Qed.
Lemma good_typed cur i : good (taken_slot cur i typed_tf).
Proof. apply good_taken. intros p q M. unfold typed_tf. by rewrite (m1_tf _ _ M). Qed.

(** A change of slot [i], not the running process or init. *)
Lemma other_ok cur i g t : running cur t -> cur <> Some i -> initproc t <> Some i -> slot_ok (g (procs t i)) ->
  running cur (upd_proc i g t).
Proof.
  intros [[P1 P2] R] Hc Hi Hs. constructor; [constructor|]; cbn.
  - intros j. destruct (decide (i = j)) as [<-|Hne]; [by rewrite fn_lookup_insert|by rewrite fn_lookup_insert_ne].
  - intros k Hk. rewrite fn_lookup_insert_ne by congruence. auto.
  - intros j Hj. rewrite fn_lookup_insert_ne by congruence. auto.
Qed.

Lemma embryo_ok p : state p = EMBRYO -> slot_ok p.
Proof. intros E. constructor; rewrite E; naive_solver. Qed.

(** The slot of an embryo may change in its frame and files. *)
Lemma taken_upd cur i (R R' : proc -> Prop) g t : taken_slot cur i R t -> state (g (procs t i)) = EMBRYO ->
  R' (g (procs t i)) -> taken_slot cur i R' (upd_proc i g t).
Proof.
  intros [T1 [T2 T3] T4 T5] Hs HR. constructor; cbn; rewrite ?fn_lookup_insert; try done.
  apply other_ok; auto using embryo_ok.
Qed.
Lemma give_back cur i t : taken_slot cur i no_files t -> running cur (upd_proc i (set_state UNUSED) t).
Proof. intros [T1 [T2 T3] T4 T5]. apply other_ok; [done..|]. constructor; [naive_solver|]. intros _. exact T5. Qed.
Lemma go_live cur i t : taken_slot cur i typed_tf t -> running cur (upd_proc i (set_state RUNNABLE) t).
Proof. intros [T1 [T2 T3] T4 T5]. apply other_ok; [done..|]. constructor; [intros _ _; exact T5|]. cbn. naive_solver. Qed.

Definition maybe_new (cur : option nat) (r : option nat) : ptab -> Prop :=
  match r with Some i => taken_slot cur i no_files | None => running cur end.

Lemma holds_alloc_slot cur : holds id (running cur) alloc_slot (maybe_new cur).
Proof.
  unfold alloc_slot. hseq ltac:(apply holds_acquire). hseq ltac:(apply holds_pgets).
  match goal with |- context [find_proc ?f ?n ?k ?a] => pose proof (find_proc_spec f n k a) as Hf; destruct (find_proc f n k a) as [i|] end.
  2: { hseq ltac:(apply holds_release). apply holds_ret. by intros t []. }
  destruct Hf as (_ & Hu%bool_decide_eq_true & _). hseq ltac:(apply holds_gets).
  eapply (holds_bind _ _ _ (fun _ => taken_slot cur i no_files)).
  - apply holds_setp. intros t [Ht ->]. pose proof Ht as [[P1 P2] R].
    assert (Hc : cur <> Some i) by (intros E; specialize (R i E); congruence).
    assert (Hi : initproc t <> Some i) by (intros E; by destruct (P2 i E)).
    constructor; cbn; rewrite ?fn_lookup_insert; try done.
    + apply other_ok; auto. by apply embryo_ok.
    + apply (so_files _ (P1 i)). by left.
  - intros _. hseq ltac:(apply (holds_modify _ _ (fun _ => taken_slot cur i no_files)); intros t; apply good_new;
      constructor; auto). hseq ltac:(apply holds_release). by apply holds_ret.
Qed.

(** [wait] frees a zombie's slot, which has no open files. *)
Definition reaping (cur z : nat) (t : ptab) : Prop := running (Some cur) t /\ state (procs t z) = ZOMBIE.
Lemma good_reaping cur z : good (reaping cur z).
Proof.
  apply good_and; [apply good_running|]. intros t t' M E. destruct (mi_state _ _ M z) as [->|[E' _]]; [done|congruence].
Qed.
Lemma reaped_ok cur z t : reaping cur z t -> running (Some cur) (upd_proc z reaped t).
Proof.
  intros [Ht Hz]. pose proof Ht as [[P1 P2] R]. apply other_ok; [done| | |].
  - intros [= ->]. specialize (R z eq_refl). congruence.
  - intros E. by destruct (P2 z E).
  - constructor; [naive_solver|]. intros _. apply (so_files _ (P1 z)). by right.
Qed.

(** Wakeups one after the other. *)
Definition wakes (chs : list chan) (t : ptab) : ptab :=
  foldl (fun t ch => Ptab (wakeup1_loop NPROC 0 ch (procs t)) (nextpid t) (initproc t)) t chs.
Lemma stable_wakes P chs t : stable P -> P t -> P (wakes chs t).
Proof. intros HP. revert t. induction chs as [|ch chs IH]; intros t Ht; [done|]. apply IH, (HP t); [apply mild_wakeup|done]. Qed.

Section life.
Context {T : Type} {BC : BufferCache T}.
#[local] Notation K := (kernel T).
#[local] Notation holdk := (holds (@kpt T)).
Variables (kend kdata trapret forkret : Z).
Variable devread : Z -> option (nat -> Z -> M (fsst T) (Z * list Z)).
Variable devwrite : Z -> option (nat -> list Z -> M (fsst T) Z).

Lemma holds_give_back cur i :
  holdk (taken_slot cur i no_files) (onpt (setp i (set_state UNUSED))) (fun _ => running cur).
Proof. apply holds_onpt, holds_setp. intros t Ht. by apply give_back. Qed.
Lemma holds_go_live cur i :
  holdk (taken_slot cur i typed_tf) (onpt (setp i (set_state RUNNABLE))) (fun _ => running cur).
Proof. apply holds_onpt, holds_setp. intros t Ht. by apply go_live. Qed.

Lemma holds_allocproc cur : holdk (running cur) (allocproc trapret forkret) (maybe_new cur).
Proof.
  unfold allocproc. hseq ltac:(apply holds_onpt, holds_alloc_slot). destruct a as [i|]; [|by apply holds_ret].
  pose proof (good_new cur i) as HG. hseq ltac:(by apply keeps_vm). hseq ltac:(apply keeps_mild; [done|mild1_tac]).
  case_match.
  - hseq ltac:(apply holds_give_back). by apply holds_ret.
  - hseq ltac:(by apply keeps_vm). by apply holds_ret.
Qed.

Lemma keeps_dup_files cur np n : forall fd, keeps (taken_slot (Some cur) np typed_tf) (dup_files n fd cur np : M K unit).
Proof.
  pose proof (good_typed (Some cur) np) as HG. induction n as [|n IH]; intros fd; cbn [dup_files]; keep; auto.
  apply holds_onpt, holds_setp. intros t Ht. apply (taken_upd _ _ _ _ _ _ Ht); [apply Ht|apply (ts_rest _ _ _ _ Ht)].
Qed.

(** [fork]: the child's frame is the parent's before the child is runnable. *)
Lemma keeps_fork cur : keeps (running (Some cur)) (fork kend kdata trapret forkret cur : M K Z).
Proof.
  unfold fork. eapply holds_bind; [apply holds_allocproc|]. intros [np|]; [|by apply holds_ret]. cbv beta.
  pose proof (good_new (Some cur) np) as HG. pose proof (good_typed (Some cur) np) as HT.
  eapply (holds_bind _ _ _ (fun p t => taken_slot (Some cur) np no_files t /\ typed_tf p)).
  { apply holds_onpt. eapply holds_mono; [apply holds_getp|done|]. intros p t [Ht ->]. split; [done|].
    destruct (ts_run _ _ _ _ Ht) as [[P1 _] R]. apply (so_tf _ (P1 cur)); by rewrite (R cur eq_refl). }
  intros p. apply holds_pure. intros Hp.
  hseq ltac:(by apply keeps_vm). hseq ltac:(apply keeps_mild; [done|mild1_tac]). case_match.
  - hseq ltac:(apply keeps_getp). hseq ltac:(by apply keeps_vm). hseq ltac:(apply keeps_mild; [done|mild1_tac]).
    hseq ltac:(apply holds_give_back). by apply holds_ret.
  - hseq ltac:(apply keeps_mild; [done|mild1_tac]). hseq ltac:(apply keeps_mild; [done|mild1_tac]).
    eapply (holds_bind _ _ _ (fun _ => taken_slot (Some cur) np typed_tf)).
    { apply holds_onpt, holds_setp. intros t Ht. apply (taken_upd _ _ _ _ _ _ Ht); [apply Ht|]. by destruct Hp. }
    intros _. hseq ltac:(apply keeps_dup_files). hseq ltac:(by apply keeps_file).
    do 2 hseq ltac:(apply keeps_mild; [done|mild1_tac]). hseq ltac:(apply keeps_getp). hseq ltac:(apply holds_acquire).
    hseq ltac:(apply holds_go_live). hseq ltac:(apply holds_release).
    by apply holds_ret.
Qed.

(** ** Ending a process *)

(** [cur], which is not init, has closed its first [k] files. *)
Record closing (cur k : nat) (t : ptab) : Prop := {
  cl_run : running (Some cur) t;
  cl_init : initproc t <> Some cur;
  cl_files : forall d, (d < k)%nat -> ofile (procs t cur) d = None
}.
Lemma good_closing cur k : good (closing cur k).
Proof.
  split; [|by intros t [[] _ _]]. intros t t' M [C1 C2 C3].
  constructor; rewrite ?(mi_init _ _ M), ?(mi_files _ _ M); try done. by apply (stable_running (Some cur) t).
Qed.

Lemma holds_close_files cur n : forall fd,
  holdk (closing cur fd) (close_files kend n fd cur) (fun _ => closing cur (fd + n)).
Proof.
  induction n as [|n IH]; intros fd; cbn [close_files].
  { rewrite Nat.add_0_r. by apply holds_ret. }
  pose proof (good_closing cur fd) as HG. rewrite <- Nat.add_succ_comm.
  eapply (holds_bind _ _ _ (fun f t => closing cur fd t /\ f = ofile (procs t cur) fd)).
  { apply holds_onpt, holds_getp. }
  intros f. eapply (holds_bind _ _ _ (fun _ => closing cur (S fd))); [|intros _; apply IH]. destruct f as [f|].
  - eapply (holds_bind _ _ _ (fun _ => closing cur fd)).
    { eapply holds_mono; [by apply keeps_file|by intros t []|done]. }
    intros _. apply holds_onpt, holds_setp. intros t [C1 C2 C3]. constructor; cbn; [by apply own_ok|done|].
    intros d Hd. rewrite fn_lookup_insert. cbn. destruct (decide (fd = d)) as [<-|Hne]; [by rewrite fn_lookup_insert|].
    rewrite fn_lookup_insert_ne by done. apply C3. lia.
  - apply holds_ret. intros t [[C1 C2 C3] Hf]. constructor; [done|done|]. intros d Hd.
    destruct (decide (fd = d)) as [<-|Hne]; [done|apply C3; lia].
Qed.

Lemma keeps_reparent P n : good P -> forall i cur, holds id P (reparent_loop n i cur) (fun _ => P).
Proof.
  intros HG. induction n as [|n IH]; intros i cur; cbn [reparent_loop]; [by apply holds_ret|].
  eapply (holds_bind _ _ _ (fun _ => P)); [eapply holds_mono; [apply holds_getp|done|by intros a t []]|]. intros p.
  hseq ltac:(apply holds_when; intros _); [|apply IH]. hseq ltac:(apply holds_gets).
  hseq ltac:(apply holds_mild; [apply HG|mild1_tac]). case_match; [|by apply holds_ret].
  apply holds_when. intros _. apply holds_wakeup1, HG.
Qed.

Lemma holds_exit_section cur : holds id (closing cur NOFILE) (exit_section cur) (fun _ => ptable_ok).
Proof.
  pose proof (good_closing cur NOFILE) as HG. unfold exit_section.
  eapply (holds_bind _ _ _ (fun _ => closing cur NOFILE)); [eapply holds_mono; [apply holds_getp|done|by intros a t []]|].
  intros q. eapply (holds_bind _ _ _ (fun _ => closing cur NOFILE)); [case_match; [apply holds_wakeup1, HG|by apply holds_ret]|].
  intros _. hseq ltac:(by apply keeps_reparent). apply holds_setp. intros t [[[P1 P2] R] C2 C3]. constructor; cbn.
  - intros i. destruct (decide (cur = i)) as [<-|Hne]; [rewrite fn_lookup_insert|by rewrite fn_lookup_insert_ne].
    constructor; cbn; [|intros _; exact C3]. intros _ _. apply (so_tf _ (P1 cur)); by rewrite (R cur eq_refl).
  - intros k Hk. rewrite fn_lookup_insert_ne by congruence. auto.
Qed.

(** [exit] never returns; the zombie it leaves has no open files. *)
Lemma holds_exit {A} cur (Q : A -> ptab -> Prop) : holdk (running (Some cur)) (exit kend cur) Q.
Proof.
  pose proof (good_closing cur NOFILE) as HG. unfold exit.
  eapply (holds_bind _ _ _ (fun a t => running (Some cur) t /\ a = initproc t)); [apply holds_onpt, holds_pgets|].
  intros ini. case_bool_decide as E; [apply holds_panic|].
  eapply (holds_bind _ _ _ (fun _ => closing cur NOFILE)).
  { eapply holds_mono; [apply (holds_close_files cur NOFILE 0)| |done]. intros t [Ht ->]. constructor; [done|done|lia]. }
  intros _. hseq ltac:(by apply keeps_file). hseq ltac:(apply keeps_getp). do 2 hseq ltac:(by apply keeps_file).
  hseq ltac:(apply keeps_mild; [done|mild1_tac]). hseq ltac:(apply holds_acquire).
  hseq ltac:(apply holds_onpt, holds_exit_section). apply holds_onpt. by apply holds_sched.
Qed.

Lemma keeps_wait cur : keeps (running (Some cur)) (wait kend cur : M K Z).
Proof.
  unfold wait. hseq ltac:(apply holds_acquire).
  eapply (holds_bind _ _ _ (fun a t => running (Some cur) t /\ a = procs t)); [apply holds_onpt, holds_pgets|]. intros b.
  unfold wait_scan. pose proof (find_proc_spec (zombie_child cur) NPROC 0 b) as Hf.
  destruct (find_proc (zombie_child cur) NPROC 0 b) as [z|].
  - destruct Hf as (_ & [_ Hz%bool_decide_eq_true]%andb_true_iff & _). pose proof (good_reaping cur z) as HG.
    apply (holds_mono _ _ (reaping cur z)) with (Q' := fun _ => running (Some cur)); [|intros t [Ht ->]; by split|done].
    hseq ltac:(by apply keeps_vm). hseq ltac:(apply keeps_mild; [done|mild1_tac]). hseq ltac:(by apply keeps_vm).
    eapply (holds_bind _ _ _ (fun _ => running (Some cur))).
    { apply holds_onpt, holds_setp. intros t. apply reaped_ok. }
    intros _. hseq ltac:(apply holds_release). by apply holds_ret.
  - clear Hf. apply (holds_mono _ _ (running (Some cur))) with (Q' := fun _ => running (Some cur)); [|by intros t []|done].
    case_match; [hseq ltac:(apply holds_release); by apply holds_ret|]. apply holds_onpt, holds_sleep.
Qed.

(** ** A whole trap *)

Lemma keeps_handler cur n : keeps (running (Some cur)) (handler kend kdata trapret forkret devread devwrite cur n : M K Z).
Proof.
  destruct n; cbn [handler]; auto using keeps_fork, keeps_wait, keeps_sys_pipe, keeps_sys_read, keeps_sys_exec,
    keeps_sys_fstat, keeps_sys_chdir, keeps_sys_dup, keeps_sys_uptime, keeps_sys_open, keeps_sys_write, keeps_sys_mknod,
    keeps_sys_unlink, keeps_sys_link, keeps_sys_mkdir, keeps_sys_close.
  - apply holds_exit.
  - apply keeps_bind; [apply keeps_gets|intros a; apply keeps_sys_kill].
  - apply keeps_getp.
  - apply keeps_bind; [apply keeps_gets|intros a; apply keeps_sys_sbrk].
  - apply keeps_bind; [apply keeps_gets|intros a; apply keeps_sys_sleep].
Qed.

Lemma keeps_syscall cur : keeps (running (Some cur)) (syscall kend kdata trapret forkret devread devwrite cur : M K unit).
Proof.
  assert (Hx : forall v p, user_tf (tf p) -> user_tf (tf (set_tf (set_eax v (tf p)) p))).
  { intros v p [? ? ? ? ?]. by constructor. }
  pose proof keeps_handler. unfold syscall. keep; auto; (apply keeps_own; [done|apply Hx]).
Qed.
Lemma keeps_exit_if_killed cur : keeps (running (Some cur)) (exit_if_killed kend cur : M K unit).
Proof. unfold exit_if_killed. keep. apply holds_exit. Qed.
Lemma keeps_exit_killed_user cur f : keeps (running cur) (exit_killed_user kend cur f : M K unit).
Proof. unfold exit_killed_user. keep. apply holds_exit. Qed.

(** All that a device handler does to the table is to wake sleepers. *)
Definition only_wakes (m : M K unit) : Prop := forall c s,
  match m c s with Ok _ _ s' | Block _ _ s' => exists chs, kpt s' = wakes chs (kpt s) | _ => True end.
Lemma keeps_device P m : good P -> only_wakes m -> keeps P m.
Proof.
  intros [G1 G2] Hm c s Hp. specialize (Hm c s). destruct (m c s); try done; destruct Hm as [chs ->];
    [|apply G2]; by apply stable_wakes.
Qed.

Section trap.
Variables (ideintr kbdintr uartintr : M K unit).
Hypothesis Hide : only_wakes ideintr.
Hypothesis Hkbd : only_wakes kbdintr.
Hypothesis Huart : only_wakes uartintr.

Lemma keeps_tick P : good P -> keeps P (tick : M K unit).
Proof.
  intros HG. unfold tick. keep; [by intros c s Hp|]. apply holds_onpt, holds_wakeup, HG.
Qed.
Lemma keeps_trap_irq cpu cur f : keeps (running cur) (trap_irq ideintr kbdintr uartintr cpu cur f).
Proof using Hide Hkbd Huart.
  pose proof (good_running cur) as HG. unfold trap_irq. keep; auto using keeps_device, keeps_tick.
Qed.

Lemma keeps_trap cpu cur f : (tf_trapno f = Trap.T_SYSCALL -> user_tf f) -> keeps (running cur)
  (trap kend kdata trapret forkret devread devwrite ideintr kbdintr uartintr cpu cur f).
Proof using Hide Hkbd Huart.
  intros Hf. pose proof (good_running cur) as HG. unfold trap. destruct (Z.eqb_spec (tf_trapno f) Trap.T_SYSCALL) as [E|_].
  - destruct cur as [c|]; [|apply keeps_panic].
    pose proof keeps_exit_if_killed. pose proof keeps_syscall. keep; auto. apply keeps_own; auto.
  - pose proof keeps_trap_irq. pose proof keeps_exit_killed_user. apply keeps_bind; [auto|intros _].
    apply keeps_bind; [auto|intros _]. apply keeps_bind; [|auto]. destruct cur as [c|]; [|apply keeps_ret].
    keep. apply holds_onpt, holds_yield.
Qed.
End trap.

(** ** The first process *)

(** No process yet. *)
Record at_boot (t : ptab) : Prop := {
  ab_slots : forall i, state (procs t i) = UNUSED /\ no_files (procs t i);
  ab_init : initproc t = None
}.

(** Slot [i], which is init's, before it is runnable. *)
Record init_slot (i : nat) (R : proc -> Prop) (t : ptab) : Prop := {
  is_ok : ptable_ok t;
  is_init : initproc t = Some i;
  is_embryo : state (procs t i) = EMBRYO;
  is_rest : R (procs t i)
}.
Lemma good_init_slot i R : (forall p q, mild1 p q -> R p -> R q) -> good (init_slot i R).
Proof.
  intros HR. split; [|by intros t []]. intros t t' M [T1 T2 T3 T4].
  assert (E : state (procs t' i) = EMBRYO) by (destruct (mi_state _ _ M i) as [->|[E _]]; congruence).
  constructor; [by apply (mild_ok t)|by rewrite (mi_init _ _ M)|done|].
  apply (HR (procs t i)); [|done]. constructor; [apply M|apply M|]. left. congruence.
Qed.
Lemma init_upd i R g t : init_slot i R t -> slot_ok (g (procs t i)) ->
  state (g (procs t i)) <> UNUSED -> state (g (procs t i)) <> ZOMBIE -> ptable_ok (upd_proc i g t).
Proof.
  intros [[P1 P2] T2 T3 T4] Hs H1 H2. constructor; cbn.
  - intros j. destruct (decide (i = j)) as [<-|Hne]; [by rewrite fn_lookup_insert|by rewrite fn_lookup_insert_ne].
  - intros k Hk. assert (k = i) as -> by congruence. by rewrite fn_lookup_insert.
Qed.

Lemma holds_userinit code :
  holdk at_boot (userinit kend kdata trapret forkret devread code) (fun _ t => ptable_ok t /\ exists i, initproc t = Some i).
Proof.
  unfold userinit. eapply (holds_bind _ _ _ (maybe_new None)).
  { eapply holds_mono; [apply holds_allocproc| |done]. intros t [A1 A2]. constructor; [constructor|done].
    - intros i. destruct (A1 i) as [E F]. by constructor; [rewrite E|].
    - intros k Hk. congruence. }
  intros [i|]; [|apply holds_panic].
  assert (HG : good (init_slot i no_files)).
  { apply good_init_slot. intros p q M. unfold no_files. by rewrite (m1_files _ _ M). }
  assert (HT : good (init_slot i typed_tf)).
  { apply good_init_slot. intros p q M. unfold typed_tf. by rewrite (m1_tf _ _ M). }
  eapply (holds_bind _ _ _ (fun _ => init_slot i no_files)).
  { apply holds_onpt, holds_modify. intros t [[[P1 P2] _] [_ T3] T4 T5]. constructor; [constructor; cbn|done..]; [done|].
    intros k [= <-]. by rewrite T4. }
  intros _. hseq ltac:(by apply keeps_vm). case_match; [apply holds_panic|]. hseq ltac:(by apply keeps_vm).
  hseq ltac:(apply keeps_mild; [done|mild1_tac]).
  eapply (holds_bind _ _ _ (fun _ => init_slot i typed_tf)).
  { apply holds_onpt, holds_setp. intros t Ht. pose proof Ht as [T1 T2 T3 T4]. constructor; cbn; rewrite ?fn_lookup_insert; cbn.
    - apply (init_upd _ _ _ _ Ht); cbn; rewrite ?T3; [|done..]. by apply embryo_ok.
    - done.
    - done.
    - assert (user_sel USER_DS) by (right; right; by vm_compute). by constructor. }
  intros _. hseq ltac:(apply keeps_mild; [done|mild1_tac]). hseq ltac:(by apply keeps_file).
  hseq ltac:(apply keeps_mild; [done|mild1_tac]). hseq ltac:(apply holds_acquire).
  eapply (holds_bind _ _ _ (fun _ t => ptable_ok t /\ exists i, initproc t = Some i)); [|intros _; apply holds_release].
  apply holds_onpt, holds_setp. intros t Ht. split; [|exists i; apply Ht].
  apply (init_upd _ _ _ _ Ht); [|done..]. constructor; [intros _ _; apply (is_rest _ _ _ Ht)|]. by intros [].
Qed.

(** The scheduler's choice runs. *)
Lemma pick_runs n i t : ptable_ok t -> pick n (procs t) = Some i -> running (Some i) (upd_proc i (set_state RUNNING) t).
Proof.
  intros [P1 P2] Hp. unfold pick in Hp. pose proof (find_proc_spec (is_state RUNNABLE) (NPROC - n) n (procs t)) as Hf.
  rewrite Hp in Hf. destruct Hf as (_ & Hr%bool_decide_eq_true & _). constructor; [constructor|]; cbn.
  - intros j. destruct (decide (i = j)) as [<-|Hne]; [rewrite fn_lookup_insert|by rewrite fn_lookup_insert_ne].
    constructor; cbn; [intros _ _; apply (so_tf _ (P1 i)); by rewrite Hr|by intros []].
  - intros k Hk. destruct (decide (i = k)) as [<-|Hne]; [by rewrite fn_lookup_insert|rewrite fn_lookup_insert_ne by done; auto].
  - intros j [= <-]. by rewrite fn_lookup_insert.
Qed.

End life.

(** ** An example: getpid *)
Definition user_frame0 (n trapno : Z) : trapframe :=
  Trapframe (replicate 7 0) n USER_DS USER_DS trapno 0 0 USER_CS FL_IF PGSIZE USER_DS.
Definition ex_ptab : ptab :=
  Ptab (fun i => match i with 0%nat => set_tf (user_frame0 0 0) ex_proc | _ => proc0 end) 2 (Some 0%nat).
Definition no_intr : M (kernel lst) unit := mret tt.

Lemma user_frame0_ok n trapno : user_tf (user_frame0 n trapno).
Proof. assert (user_sel USER_DS) by (right; right; by vm_compute). by constructor. Qed.
Lemma ex_ptab_running : running (Some 0%nat) ex_ptab.
Proof.
  constructor; [constructor|].
  - intros [|i]; [|by constructor]. constructor; [intros _ _; apply user_frame0_ok|by intros []].
  - intros k [= <-]. done.
  - intros i [= <-]. done.
Qed.
Lemma no_intr_wakes : only_wakes no_intr.
Proof. intros c s. by exists []. Qed.

