(* ===== verification/Start.v ===== *)
(** * Starting the processors (bootasm.S, entry.S, entryother.S, main.c, asm.h)

    The assembly that takes the first processor from the BIOS to [bootmain],
    and from there to [main]; the code that takes the other processors to
    [mpenter]; and the part of main.c that prepares them and gives each its
    tables.  The code runs on the processor of X86.v; the first page
    directory is read as the processor reads directories with 4 MB pages. *)
From stdpp Require Import functions.
From S2P Require Import Prelude CString Mmu Kalloc Vm Syscall Ports Apic X86 Gates.
#[local] Set Default Proof Using "Type".

Definition CR0_PE : Z := 0x00000001.
Definition CR0_WP : Z := 0x00010000.
Definition CR0_PG : Z := 0x80000000.
Definition CR4_PSE : Z := 0x00000010.

(** ** The bootstrap segments (asm.h) *)

Definition SEG_NULLASM : list Z := replicate 8 0.
Definition SEG_ASM (type base lim : Z) : list Z :=
  let word w := [Z.land w 0xff; Z.shiftr w 8] in
  word (Z.land (Z.shiftr lim 12) 0xffff) ++ word (Z.land base 0xffff) ++
  [Z.land (Z.shiftr base 16) 0xff; Z.lor 0x90 type;
   Z.lor 0xC0 (Z.land (Z.shiftr lim 28) 0xf); Z.land (Z.shiftr base 24) 0xff].
(** The table that bootasm.S and entryother.S share. *)
Definition gdt_bytes : list Z :=
  SEG_NULLASM ++ SEG_ASM (Z.lor STA_X STA_R) 0 0xffffffff ++ SEG_ASM STA_W 0 0xffffffff.

(** The table at [gdt] and its descriptor at [gdtdesc], in a program's data. *)
Record boot_gdt (m : mem) (gdt gdtdesc : Z) : Prop := {
  bg_gdt : bytes_at m gdt 24 = gdt_bytes;
  bg_limit : load32 m gdtdesc mod 65536 = 23;
  bg_base : load32 m (gdtdesc + 2) = gdt
}.

(** The code that both have: from real mode to 32-bit protected mode, and the
    segment registers there. *)
Definition real_mode : list instr :=
  [ cli; xorw EAX EAX; movw_seg EAX DS; movw_seg EAX ES; movw_seg EAX SS ].
Definition protect (gdtdesc start32 : Z) : list instr :=
  [ lgdt16 gdtdesc; movl_ctl CR0 EAX; orl_imm CR0_PE EAX; movl_to_ctl EAX CR0;
    ljmp (Z.shiftl SEG_KCODE 3) start32 ].
Definition data_segments : list instr :=
  [ movw_imm (Z.shiftl SEG_KDATA 3) EAX; movw_seg EAX DS; movw_seg EAX ES; movw_seg EAX SS;
    movw_imm 0 EAX; movw_seg EAX FS; movw_seg EAX GS ].

(** A processor in protected mode with the flat segments, interrupts off. *)
Record flat_mode (c : cpu) : Prop := {
  fm_pe : Z.testbit (ctl c CR0) 0 = true;
  fm_segs : sg c = Segs 8 16 16 0 0 16;
  fm_code : desc c 8 = flat 10 0;
  fm_data : desc c 16 = flat 2 0;
  fm_if : Z.testbit (eflags c) 9 = false
}.

(** The machine while [startothers] runs: the kernel's memory, the devices, and
    for each of the other processors that has come through entryother.S its
    registers at that point. *)
Record msys (D : Type) := Msys { ms_k : kst; ms_d : D; ms_up : nat -> option cpu }.
Arguments Msys {D} _ _ _.
Arguments ms_k {D} _.
Arguments ms_d {D} _.
Arguments ms_up {D} _ _.

Section start.
Context {X : X86}.

Lemma bytes_at_nth m a n k l : bytes_at m a n = l -> (k < n)%nat -> m (a + Z.of_nat k) = nth k l 0.
Proof.
  intros <- Hk. unfold bytes_at. symmetry. apply nth_lookup_Some.
  by rewrite list_lookup_fmap, lookup_seq_lt by done.
Qed.
Lemma bytes_at_load m a n k l : bytes_at m a n = l -> 0 <= k -> k + 4 <= Z.of_nat n ->
  load32 m (a + k) = nth (Z.to_nat k) l 0 + 256 * nth (Z.to_nat k + 1) l 0 + 65536 * nth (Z.to_nat k + 2) l 0 +
    16777216 * nth (Z.to_nat k + 3) l 0.
Proof.
  intros B H0 H1. unfold load32. rewrite <- !(bytes_at_nth m a n _ l B) by lia.
  rewrite !Nat2Z.inj_add, Z2Nat.id, !Z.add_assoc by lia. done.
Qed.

Lemma boot_gdt_ext m m' gdt gdtdesc : boot_gdt m gdt gdtdesc ->
  (forall x, gdt <= x < gdt + 24 \/ gdtdesc <= x < gdtdesc + 6 -> m' x = m x) -> boot_gdt m' gdt gdtdesc.
Proof.
  intros [B1 B2 B3] Hm. constructor.
  - rewrite <- B1. unfold bytes_at. apply list_fmap_ext. intros i x Hx. apply lookup_seq in Hx as [-> Hi]. apply Hm. lia.
  - rewrite <- B2. f_equal. apply load32_ext. intros x Hx. apply Hm. lia.
  - rewrite <- B3. apply load32_ext. intros x Hx. apply Hm. lia.
Qed.

(** What the processor reads from the bootstrap table. *)
Lemma boot_descs c gdt gdtdesc : boot_gdt (memory c) gdt gdtdesc -> gdtr c = (gdt, 23) ->
  desc c 8 = flat 10 0 /\ desc c 16 = flat 2 0.
Proof.
  intros [B _ _] E. unfold desc. rewrite E. change (8 / 8) with 1. change (16 / 8) with 2. cbn [fst].
  rewrite <- !Z.add_assoc. rewrite !(bytes_at_load (memory c) gdt 24 _ _ B) by lia. by split; vm_compute.
Qed.

Lemma clear_if_bit f : Z.testbit (clear_if f) 9 = false.
Proof. unfold clear_if. rewrite Z.land_spec, Z.lnot_spec by lia. change (Z.testbit FL_IF 9) with true. apply andb_false_r. Qed.

(** [cli] and zero segments. *)
Lemma real_mode_run c : let c' := run real_mode c in
  Z.testbit (eflags c') 9 = false /\ cr c' = cr c /\ memory c' = memory c /\
  ds (sg c') = 0 /\ es (sg c') = 0 /\ ss (sg c') = 0.
Proof.
  destruct c as [[r1 r2 r3 r4 r5 r6 r7 r8] [s1 s2 s3 s4 s5 s6] cr0 pc fl gd it tr0 m].
  unfold real_mode. do 5 exec1. rewrite run_nil. cbv zeta.
  cbn [sg cr eflags memory ds es ss]. rewrite alu_if, clear_if_bit, Z.lxor_nilpotent, Z.add_0_r.
  assert (E : u16 (r1 / 65536 * 65536) = 0) by wrap_lia. by rewrite !E.
Qed.

(** Into protected mode. *)
Lemma protect_run c gdt gdtdesc start32 : boot_gdt (memory c) gdt gdtdesc -> 0 <= gdt < 16777216 ->
  Z.testbit (eflags c) 9 = false ->
  let c' := run (protect gdtdesc start32 ++ data_segments) c in
  flat_mode c' /\ gdtr c' = (gdt, 23) /\ cr c' = Ctls (Z.lor (cr0 (cr c)) CR0_PE) (cr3 (cr c)) (cr4 (cr c)) /\
  memory c' = memory c.
Proof.
  intros B Hg Hf. destruct c as [[r1 r2 r3 r4 r5 r6 r7 r8] [s1 s2 s3 s4 s5 s6] [q0 q3 q4] pc fl gd it tr0 m].
  cbn [memory eflags] in *. unfold protect, data_segments. cbn [app]. do 12 exec1. rewrite run_nil. cbv zeta.
  rewrite (bg_limit _ _ _ B), (bg_base _ _ _ B), (Z.mod_small gdt) by lia.
  change (u16 (Z.shiftl SEG_KDATA 3)) with 16. change (u16 0) with 0. change (Z.shiftl SEG_KCODE 3) with 8.
  set (x := Z.lor q0 CR0_PE).
  assert (E1 : u16 (x / 65536 * 65536 + 16) = 16) by wrap_lia.
  assert (E2 : forall y, u16 (y / 65536 * 65536 + 0) = 0) by (intros; wrap_lia).
  rewrite E1, !E2. split; [|done].
  match goal with |- flat_mode ?c => destruct (boot_descs c gdt gdtdesc B eq_refl) as [D1 D2] end.
  constructor; [|done|exact D1|exact D2|by cbn [eflags]; rewrite alu_if].
  cbn [ctl cr cr0]. unfold x. by rewrite Z.lor_spec, orb_true_r.
Qed.

(** ** The first processor (bootasm.S) *)

Definition movb_al (v : Z) (c : cpu) : cpu := set_gpr EAX (eax (gp c) / 256 * 256 + u8 v) c.

Section bootasm.
Context {D : Type} `{Ports D} (fuel : nat).
(** The addresses of the labels, and of the instruction after the call. *)
Variables (start start32 gdt gdtdesc bootmain next : Z).

(** The loops [seta20.1] and [seta20.2]. *)
Fixpoint seta20_wait (n : nat) (s : cpu * D) : option (cpu * D) :=
  match n with
  | O => None
  | S n' =>
      let '(c, d) := s in
      let '(r, d) := inb 0x64 d in
      let c := movb_al r c in
      let t := Z.land r 2 in
      let c := set_eflags (alu_flags t (eflags c)) c in
      if negb (t =? 0) then seta20_wait n' (c, d) else Some (c, d)
  end.
Definition seta20 (s : cpu * D) : option (cpu * D) :=
  '(c, d) ← seta20_wait fuel s;
  let c := movb_al 0xd1 c in
  let d := outb 0x64 0xd1 d in
  '(c, d) ← seta20_wait fuel (c, d);
  let c := movb_al 0xdf c in
  Some (c, outb 0x60 0xdf d).

Definition bootasm (s : cpu * D) : option (cpu * D) :=
  let '(c, d) := s in
  '(c, d) ← seta20 (run real_mode c, d);
  Some (run [movl_imm start ESP; call bootmain next] (run (protect gdtdesc start32 ++ data_segments) c), d).

(** The keyboard controller takes a byte when its input buffer is empty. *)
Class Kbc := {
  kbc_polls : D -> nat;
  kbc_max : nat;
  kbc_writes : D -> list (Z * Z);
  kbc_bound : forall d, (kbc_polls d <= kbc_max)%nat;
  kbc_status : forall d, let r := inb 0x64 d in
    (Z.land r.1 2 = 0 <-> kbc_polls d = 0%nat) /\
    kbc_polls r.2 = pred (kbc_polls d) /\ kbc_writes r.2 = kbc_writes d;
  kbc_write : forall p v d, p ∈ [0x60; 0x64] -> kbc_polls d = 0%nat ->
    kbc_writes (outb p v d) = kbc_writes d ++ [(p, v)]
}.
Context {K : Kbc}.

(** The registers that the loops leave alone. *)
Definition a20_same (c c' : cpu) : Prop :=
  Z.testbit (eflags c') 9 = Z.testbit (eflags c) 9 /\ sg c' = sg c /\ cr c' = cr c /\ memory c' = memory c.

Lemma seta20_wait_ok n : forall c d, (kbc_polls d < n)%nat -> exists c' d',
  seta20_wait n (c, d) = Some (c', d') /\ kbc_polls d' = 0%nat /\ kbc_writes d' = kbc_writes d /\ a20_same c c'.
Proof.
  induction n as [|n IH]; intros c d Hn; [lia|]. cbn [seta20_wait].
  destruct (kbc_status d) as (S1 & S2 & S3). destruct (inb 0x64 d) as [r d1]. cbn [fst snd] in *.
  destruct (Z.eqb_spec (Z.land r 2) 0) as [E|E]; cbn [negb].
  - eexists _, _. split; [done|]. apply S1 in E. split; [lia|]. split; [done|].
    split_and!; try done. cbn [eflags set_eflags]. by rewrite alu_if.
  - destruct (IH (set_eflags (alu_flags (Z.land r 2) (eflags (movb_al r c))) (movb_al r c)) d1) as (c' & d' & R & P & W & A).
    { destruct (kbc_polls d) eqn:Ep; [by destruct E; apply S1|lia]. }
    exists c', d'. split; [done|]. split; [done|]. split; [congruence|].
    destruct A as (A1 & A2 & A3 & A4). split_and!; try done. rewrite A1. cbn [eflags set_eflags]. by rewrite alu_if.
Qed.

Lemma seta20_ok c d : (kbc_max < fuel)%nat -> exists c' d', seta20 (c, d) = Some (c', d') /\
  kbc_writes d' = kbc_writes d ++ [(0x64, 0xd1); (0x60, 0xdf)] /\ a20_same c c'.
Proof.
  intros Hf. pose proof kbc_bound as Hb. unfold seta20.
  destruct (seta20_wait_ok fuel c d) as (c1 & d1 & -> & P1 & W1 & A1); [specialize (Hb d); lia|].
  cbn [mbind option_bind]. set (d2 := outb _ _ d1).
  destruct (seta20_wait_ok fuel (movb_al 0xd1 c1) d2) as (c3 & d3 & -> & P3 & W3 & A3); [specialize (Hb d2); lia|].
  cbn [mbind option_bind]. eexists _, _. split; [done|]. split.
  - rewrite kbc_write by (done || set_solver). rewrite W3. unfold d2. rewrite kbc_write by (done || set_solver).
    by rewrite W1, <- app_assoc.
  - destruct A1 as (? & ? & ? & ?), A3 as (? & ? & ? & ?). split_and!; cbn in *; congruence.
Qed.

(** C32: the boot sector brings the processor from the BIOS to [bootmain]: it
    turns on address line A20 by the two bytes that the keyboard controller
    takes for it, each sent only when the controller is ready, and calls
    [bootmain] in 32-bit protected mode with flat segments of 4 GB, interrupts
    off, and a stack that grows down from the start of the sector. *)
Theorem bootasm_correct c d : (kbc_max < fuel)%nat -> boot_gdt (memory c) gdt gdtdesc ->
  4 <= start -> start <= gdt -> gdt < 16777216 -> is_u32 next ->
  exists c' d', bootasm (c, d) = Some (c', d') /\
    kbc_writes d' = kbc_writes d ++ [(0x64, 0xd1); (0x60, 0xdf)] /\
    flat_mode c' /\ eip c' = bootmain /\ esp (gp c') = start - 4 /\ load32 (memory c') (start - 4) = next /\
    (forall x, ~ start - 4 <= x < start -> memory c' x = memory c x).
Proof.
  intros Hf B H0 H1 H2 Hn. unfold bootasm.
  destruct (real_mode_run c) as (R1 & R2 & R3 & _). generalize dependent (run real_mode c). intros c1 R1 R2 R3.
  destruct (seta20_ok c1 d Hf) as (c2 & d2 & -> & W & A1 & A2 & A3 & A4). cbn [mbind option_bind].
  destruct (protect_run c2 gdt gdtdesc start32) as (F & G & _ & M); [by rewrite A4, R3|lia|by rewrite A1|].
  generalize dependent (run (protect gdtdesc start32 ++ data_segments) c2). intros c3 F G M.
  eexists _, _. split; [done|]. split; [done|].
  assert (Em : memory c3 = memory c) by congruence. clear M A4 R3. set (m0 := memory c) in *. clearbody m0.
  destruct c3 as [[r1 r2 r3 r4 r5 r6 r7 r8] sg3 cr3 pc3 fl3 gd3 it3 tr3 m3]. cbn [memory gdtr] in *. subst m3 gd3.
  do 2 (exec1; norm_u32). rewrite run_nil. cbn [eip gp esp memory]. split_and!; [|done|done|by apply load32_store32|].
  - destruct F as [F1 F2 F3 F4 F5].
    assert (Ed : forall sel, sel = 8 \/ sel = 16 ->
      desc (Cpu (Regs r1 r2 r3 r4 (start - 4) r6 r7 r8) sg3 cr3 bootmain fl3 (gdt, 23) it3 tr3
        (store32 m0 (start - 4) next)) sel =
      desc (Cpu (Regs r1 r2 r3 r4 r5 r6 r7 r8) sg3 cr3 pc3 fl3 (gdt, 23) it3 tr3 m0) sel).
    { intros sel Hs. unfold desc. cbn [gdtr memory fst]. rewrite !load32_store32_ne by (destruct Hs; subst; wrap_lia). done. }
    constructor; [done|done|etrans; [apply Ed; lia|done]..|done].
  - intros x Hx. apply store32_out. lia.
Qed.
End bootasm.

(** ** The first page directory (main.c) *)

Definition entrypgdir (i : Z) : Z :=
  if i =? 0 then Z.lor (Z.lor (Z.lor 0 PTE_P) PTE_W) PTE_PS
  else if i =? Z.shiftr KERNBASE PDXSHIFT then Z.lor (Z.lor (Z.lor 0 PTE_P) PTE_W) PTE_PS
  else 0.
(** The directory is at [a] in physical memory. *)
Definition pgdir_at (m : mem) (a : Z) : Prop := forall i, 0 <= i < 1024 -> load32 m (a + 4 * i) = entrypgdir i.

(** Translation by a directory with 4 MB pages. *)
Definition walk4m (m : mem) (dir va : Z) : option Z :=
  let pde := load32 m (dir + 4 * (va / 4194304)) in
  if Z.testbit pde 0 && Z.testbit pde 7 then Some (pde / 4194304 * 4194304 + va mod 4194304) else None.

(** The low 4 MB are mapped twice, and nothing else is. *)
Lemma entrypgdir_maps m dir va : pgdir_at m dir -> is_u32 va ->
  walk4m m dir va =
    if va <? 4194304 then Some va
    else if (KERNBASE <=? va) && (va <? KERNBASE + 4194304) then Some (va - KERNBASE) else None.
Proof.
  intros Hd Hv. unfold walk4m, is_u32, KERNBASE in *. cbv zeta.
  assert (E0 : load32 m (dir + 4 * (va / 4194304)) = entrypgdir (va / 4194304)) by (apply Hd; wrap_lia).
  rewrite E0. unfold entrypgdir. clear E0.
  change (Z.shiftr KERNBASE PDXSHIFT) with 512. change (Z.lor (Z.lor (Z.lor 0 PTE_P) PTE_W) PTE_PS) with 131.
  destruct (Z.eqb_spec (va / 4194304) 0) as [E|E].
  - rewrite (proj2 (Z.ltb_lt _ _)) by wrap_lia. change (131 / 4194304 * 4194304) with 0.
    cbn. f_equal. wrap_lia.
  - rewrite (proj2 (Z.ltb_ge _ _)) by wrap_lia. destruct (Z.eqb_spec (va / 4194304) 512) as [E2|E2].
    + rewrite (proj2 (Z.leb_le _ _)), (proj2 (Z.ltb_lt _ _)) by wrap_lia. change (131 / 4194304 * 4194304) with 0.
      cbn. f_equal. wrap_lia.
    + destruct (Z.leb_spec 2147483648 va); [|done]. rewrite (proj2 (Z.ltb_ge _ _)) by wrap_lia. done.
Qed.

(** Paging is on, with the directory at [dir]. *)
Record paged (dir : Z) (c : cpu) : Prop := {
  pg_on : Z.testbit (ctl c CR0) 31 = true;
  pg_wp : Z.testbit (ctl c CR0) 16 = true;
  pg_pse : Z.testbit (ctl c CR4) 4 = true;
  pg_dir : ctl c CR3 = dir
}.

(** ** Into the kernel (entry.S) *)

Definition entry (pgdir stack main : Z) : list instr :=
  [ movl_ctl CR4 EAX; orl_imm CR4_PSE EAX; movl_to_ctl EAX CR4;
    movl_imm (V2P pgdir) EAX; movl_to_ctl EAX CR3;
    movl_ctl CR0 EAX; orl_imm (Z.lor CR0_PG CR0_WP) EAX; movl_to_ctl EAX CR0;
    movl_imm (stack + KSTACKSIZE) ESP;
    movl_imm main EAX; jmp_reg EAX ].

(** The kernel starts at its linked address: entry.S turns paging on with a
    directory that maps the low 4 MB of memory both where the processor is
    executing and at KERNBASE, where the kernel is linked, and nothing else;
    it goes to [main] on the kernel's own stack, leaves memory as it was, and
    interrupts as they were. *)
Theorem entry_correct c pgdir stack main : pgdir_at (memory c) (V2P pgdir) ->
  is_u32 (stack + KSTACKSIZE) -> is_u32 main ->
  let c' := run (entry pgdir stack main) c in
  paged (V2P pgdir) c' /\ eip c' = main /\ esp (gp c') = stack + KSTACKSIZE /\ sg c' = sg c /\
  memory c' = memory c /\ Z.testbit (eflags c') 9 = Z.testbit (eflags c) 9 /\
  forall va, is_u32 va -> walk4m (memory c') (ctl c' CR3) va =
    if va <? 4194304 then Some va
    else if (KERNBASE <=? va) && (va <? KERNBASE + 4194304) then Some (va - KERNBASE) else None.
Proof.
  intros Hd Hs Hm. assert (Hp : is_u32 (V2P pgdir)) by (apply u32_range).
  destruct c as [[r1 r2 r3 r4 r5 r6 r7 r8] sg0 [q0 q3 q4] pc fl gd it tr0 m].
  cbn [memory] in Hd. unfold entry. do 11 exec1. rewrite run_nil. rewrite !u32_small by done. cbv zeta.
  cbn [gp sg cr eip eflags memory ctl cr3 esp]. split_and!; try done.
  - constructor; cbn [ctl cr cr0 cr3 cr4]; try done; by rewrite Z.lor_spec, orb_true_r.
  - by rewrite !alu_if.
  - intros va Hv. by apply entrypgdir_maps.
Qed.

(** ** The other processors (entryother.S) *)

Section entryother.
(** The labels, and the instruction after the call. *)
Variables (start start32 gdt gdtdesc next : Z).

Definition paging_on : list instr :=
  [ movl_ctl CR4 EAX; orl_imm CR4_PSE EAX; movl_to_ctl EAX CR4;
    movl_abs (start - 12) EAX; movl_to_ctl EAX CR3;
    movl_ctl CR0 EAX; orl_imm (Z.lor (Z.lor CR0_PE CR0_PG) CR0_WP) EAX; movl_to_ctl EAX CR0 ].
(** From here on addresses are translated; [None] is a page fault. *)
Definition load_va (c : cpu) (va : Z) : option Z :=
  pa ← walk4m (memory c) (ctl c CR3) va; Some (load32 (memory c) pa).
Definition push_va (v : Z) (c : cpu) : option cpu :=
  let sp := u32 (gpr c ESP - 4) in
  pa ← walk4m (memory c) (ctl c CR3) sp; Some (set_mem (store32 (memory c) pa v) (set_gpr ESP sp c)).
Definition entryother (c : cpu) : option cpu :=
  let c := run (real_mode ++ protect gdtdesc start32 ++ data_segments ++ paging_on) c in
  sp ← load_va c (start - 4);
  let c := set_gpr ESP sp c in
  f ← load_va c (start - 8);
  c ← push_va next c;
  Some (set_eip f c).

(** The words below the code, for a stack that ends at [top]. *)
Record ap_words (m : mem) (top mpenter dir : Z) : Prop := {
  aw_stack : load32 m (start - 4) = top;
  aw_fn : load32 m (start - 8) = mpenter;
  aw_dir : load32 m (start - 12) = dir
}.

(** A processor at the entry of [mpenter]. *)
Record ap_entered (m : mem) (c' : cpu) (top mpenter dir : Z) : Prop := {
  ae_flat : flat_mode c';
  ae_paged : paged dir c';
  ae_eip : eip c' = mpenter;
  ae_esp : esp (gp c') = top - 4;
  ae_ret : load_va c' (top - 4) = Some next;
  ae_mem : forall x, ~ top - KERNBASE - 4 <= x < top - KERNBASE -> memory c' x = m x;
  ae_wf : mem_wf m -> mem_wf (memory c')
}.

Lemma entryother_enters c top mpenter dir : boot_gdt (memory c) gdt gdtdesc -> ap_words (memory c) top mpenter dir ->
  pgdir_at (memory c) dir -> 12 <= start -> start <= gdt -> gdt + 24 <= gdtdesc ->
  gdtdesc + 6 <= 1048576 -> is_u32 next -> KERNBASE + 1048576 <= top - 4 -> top <= KERNBASE + 4194304 -> 1048576 <= dir ->
  dir + 4096 <= top - KERNBASE - 4 \/ top - KERNBASE <= dir ->
  exists c', entryother c = Some c' /\ ap_entered (memory c) c' top mpenter dir.
Proof.
  intros B [W1 W2 W3] Hd H0 H1 H2 H3 Hn T1 T2 D0 D1. unfold entryother. rewrite run_app.
  destruct (real_mode_run c) as (R1 & R2 & R3 & _). generalize dependent (run real_mode c). intros c1 R1 R2 R3.
  rewrite app_assoc, run_app.
  destruct (protect_run c1 gdt gdtdesc start32) as (F & G & C3 & M); [by rewrite R3|lia|done|].
  generalize dependent (run (protect gdtdesc start32 ++ data_segments) c1). intros c3 F G C3 M.
  assert (Em : memory c3 = memory c) by congruence. clear M R3. set (m0 := memory c) in *. clearbody m0.
  destruct F as [F1 F2 F3 F4 F5].
  destruct c3 as [[r1 r2 r3 r4 r5 r6 r7 r8] sg3 [q0 q3 q4] pc3 fl3 gd3 it3 tr3 m3]. cbn [memory gdtr sg eflags ctl cr cr0] in *.
  subst m3 gd3 sg3. unfold paging_on. do 8 exec1. rewrite run_nil, W3. clear R1 R2 C3 W3 c1 c.
  unfold is_u32, KERNBASE in *.
  assert (Tr : forall va, 0 <= va < 1048576 -> walk4m m0 dir va = Some va).
  { intros va Hv. rewrite entrypgdir_maps by (done || (unfold is_u32; lia)). by rewrite (proj2 (Z.ltb_lt _ _)) by lia. }
  assert (Ts : forall m, pgdir_at m dir -> walk4m m dir (top - 4) = Some (top - 4 - 2147483648)).
  { intros m Hm. rewrite entrypgdir_maps by (done || (unfold is_u32; lia)). unfold KERNBASE.
    by rewrite (proj2 (Z.ltb_ge _ _)), (proj2 (Z.leb_le _ _)), (proj2 (Z.ltb_lt _ _)) by lia. }
  unfold load_va, push_va, gpr, ctl. cbn [cr cr3 memory gp esp set_gpr upd_regs].
  rewrite (Tr (start - 4)), (Tr (start - 8)) by lia. cbn [mbind option_bind]. rewrite W1.
  cbn [mbind option_bind]. rewrite W2, u32_small by (unfold is_u32; lia).
  rewrite Ts by done. cbn [mbind option_bind]. eexists. split; [done|].
  set (m1 := store32 m0 (top - 4 - 2147483648) next).
  assert (O : forall x, ~ top - 2147483648 - 4 <= x < top - 2147483648 -> m1 x = m0 x)
    by (intros x Hx; apply store32_out; lia).
  assert (Hd1 : pgdir_at m1 dir).
  { intros i Hi. rewrite <- (Hd i Hi). apply load32_ext. intros x Hx. apply O. lia. }
  assert (B1 : boot_gdt m1 gdt gdtdesc) by (apply (boot_gdt_ext m0); [done|]; intros x Hx; apply O; lia).
  constructor; cbn [cr cr3 memory gp esp set_gpr set_mem set_eip upd_regs eip]; try done.
  - match goal with |- flat_mode ?c => destruct (boot_descs c gdt gdtdesc B1 eq_refl) as [D2 D3] end.
    constructor; [|done|exact D2|exact D3|].
    + cbn [ctl cr cr0 set_eip set_mem set_gpr]. by rewrite Z.lor_spec, orb_true_r.
    + cbn [eflags set_eip set_mem set_gpr]. by rewrite !alu_if.
  - constructor; cbn [ctl cr cr0 cr3 cr4 set_eip set_mem set_gpr]; try done; by rewrite Z.lor_spec, orb_true_r.
  - unfold load_va, ctl. cbn [cr cr3 memory set_gpr set_mem set_eip]. rewrite Ts by done. cbn [mbind option_bind]. f_equal.
    by apply load32_store32.
  - by apply store32_wf.
Qed.
End entryother.

(** ** Starting the others (main.c) *)

(** Physical memory, of the kernel's at KERNBASE. *)
Definition phys (m : mem) : mem := fun a => m (KERNBASE + a).
Definition CODE : Z := P2V 0x7000.

Section startothers.
Context {D : Type} `{Mmio D, Ports D} (lapic : Z).
#[local] Abbreviation S := (msys D).
Definition onk {A} (m : M kst A) : M S A := zoom ms_k (fun k s => Msys k (ms_d s) (ms_up s)) m.

(** What the kernel is linked with: the image of entryother.S, its size and
    the labels in it, [entrypgdir], [mpenter] and [cpus]; the processors found
    by [mpinit] and this processor's number.  [world] is what the other
    processors do while this one looks at [started] again. *)
Variables (img size start32 gdt gdtdesc next pgdir mpenter cpus : Z).
Variables (ncpu me : nat) (apicid : nat -> Z) (world : S -> S).

Definition cpu_at (i : nat) : Z := cpus + CPUSIZE * Z.of_nat i.

Definition start_one (i : nat) : M S Z :=
  stack ← onk kalloc;
  onk (put32 (CODE - 4) (u32 (stack + KSTACKSIZE)));;
  onk (put32 (CODE - 8) mpenter);;
  onk (put32 (CODE - 12) (V2P pgdir));;
  modify (fun s => let '(m, d) := lapicstartap lapic (apicid i) (V2P CODE) (kmemory (ms_k s)) (ms_d s) in
                   Msys (set_memory m (ms_k s)) d (ms_up s));;
  mret stack.
Fixpoint wait_started (n : nat) (i : nat) : M S unit :=
  match n with
  | O => fun _ _ => NoFuel
  | Datatypes.S n' =>
      v ← onk (get32 (cpu_at i + CPU_STARTED));
      if v =? 0 then modify world;; wait_started n' i else mret tt
  end.
Fixpoint startothers_loop (fuel n i : nat) : M S unit :=
  match n with
  | O => mret tt
  | Datatypes.S n' =>
      (if (i =? me)%nat then mret tt else start_one i;; wait_started fuel i);;
      startothers_loop fuel n' (i + 1)
  end.
Definition startothers (fuel : nat) : M S unit :=
  onk (kmemmove CODE img size);;
  startothers_loop fuel ncpu 0.

(** *** The other processors *)

Context `{!Lapic D lapic}.
Variable kend : Z.

(** The start-up interrupt for the code at 0x7000 has been sent to [i]. *)
Definition summoned (s : S) (i : nat) : Prop := (apicid i * 16777216, STARTUP + 7) ∈ l_ipis (ms_d s).
Definition started (s : S) (i : nat) : Prop := load32 (kmemory (ms_k s)) (cpu_at i + CPU_STARTED) <> 0.

(** The kernel's memory, of physical memory. *)
Definition virt (m : mem) : mem := fun a => m (a - KERNBASE).
(** At the entry of [mpenter]: flat segments, paging, interrupts off. *)
Record in_kernel (c : cpu) : Prop := {
  ik_flat : flat_mode c;
  ik_paged : paged (V2P pgdir) c;
  ik_eip : eip c = mpenter
}.
(** The page a processor has its stack on. *)
Definition stack_of (c : cpu) : Z := esp (gp c) / 4096 * 4096.
(** What processor [i] may write in [mpenter] and after: its stack and the
    kernel's data, but neither the first directory nor what belongs to
    another processor. *)
Definition ap_may (i : nat) (c : cpu) (x : Z) : Prop :=
  in_page (stack_of c) x \/
  (KERNBASE + 1048576 <= x < kend /\ ~ pgdir <= x < pgdir + 4096 /\
   forall j, j <> i -> ~ cpu_at j <= x < cpu_at j + CPUSIZE).

(** What they do, in any order: one that has been summoned runs entryother.S
    from whatever registers it has; one that is in the kernel runs there, and
    does not take back that it is started; one that entryother.S has taken
    anywhere else may do anything. *)
Inductive ap_step : S -> S -> Prop :=
| ap_boot i c c' s : (i < ncpu)%nat -> i <> me -> ms_up s i = None -> summoned s i ->
    memory c = phys (kmemory (ms_k s)) -> entryother 0x7000 start32 gdtdesc next c = Some c' ->
    ap_step s (Msys (set_memory (virt (memory c')) (ms_k s)) (ms_d s) (<[i := Some c']> (ms_up s)))
| ap_run i c m d s : ms_up s i = Some c -> (mem_wf (kmemory (ms_k s)) -> mem_wf m) ->
    (forall x, ~ ap_may i c x -> m x = kmemory (ms_k s) x) -> l_ipis d = l_ipis (ms_d s) ->
    (started s i -> load32 m (cpu_at i + CPU_STARTED) <> 0) ->
    ap_step s (Msys (set_memory m (ms_k s)) d (ms_up s))
| ap_lost i c s s' : ms_up s i = Some c -> ~ in_kernel c -> ap_step s s'.

(** Processor [i] is summoned and will find the stack at [p]: whatever its
    registers, entryother.S takes it to [mpenter] on that stack, which is
    neither free nor another processor's. *)
Record prepared (i : nat) (p : Z) (s : S) : Prop := {
  pr_off : ms_up s i = None;
  pr_sent : summoned s i;
  pr_valid : valid_page kend p;
  pr_free : forall l, kinv kend (ms_k s) l -> p ∉ l;
  pr_other : forall j c, ms_up s j = Some c -> stack_of c <> p;
  pr_enters : forall c, memory c = phys (kmemory (ms_k s)) -> exists c',
    entryother 0x7000 start32 gdtdesc next c = Some c' /\
    ap_entered next (memory c) c' (p + KSTACKSIZE) mpenter (V2P pgdir)
}.

(** The processors get to run: [world] is some of their steps, and one that is
    prepared reports itself before it has been looked at [fuel] times. *)
Record responsive (fuel : nat) : Prop := {
  rs_steps : forall s, rtc ap_step s (world s);
  rs_start : forall i p s, (i < ncpu)%nat -> i <> me -> prepared i p s ->
    exists k, (k < fuel)%nat /\ started (Nat.iter k world s) i
}.

(** *** What each processor finds *)

(** The processors to start among the first [n]. *)
Definition rest (n : nat) : nat := length (filter (fun j => j <> me) (seq 0 n)).
Lemma rest_S n : rest (Datatypes.S n) = (rest n + (if decide (n = me) then 0 else 1))%nat.
Proof.
  unfold rest. rewrite seq_S, filter_app, length_app. cbn [Nat.add]. rewrite filter_cons, filter_nil.
  destruct (decide (n = me)) as [E|E]; [by rewrite decide_False by (intros HH; exact (HH E))|by rewrite (decide_True _ _ E)].
Qed.
Lemma rest_mono j n : (j <= n)%nat -> (rest j <= rest n)%nat.
Proof. induction 1 as [|n _ IH]; [done|]. rewrite rest_S. lia. Qed.
Lemma rest_lt j n : (j < n)%nat -> j <> me -> (rest j < rest n)%nat.
Proof. intros Hj Hm. pose proof (rest_mono (Datatypes.S j) n Hj) as Hr. rewrite rest_S, decide_False in Hr by done. lia. Qed.

Hypothesis Hend : KERNBASE + 1048576 <= kend <= KERNBASE + 4194304.
Hypothesis Himg : KERNBASE + 1048576 <= img /\ img + size <= kend.
Hypothesis Hsize : 0 <= size /\ 0x7000 + size <= 0x80000.
Hypothesis Hlab : 0x7000 <= gdt /\ gdt + 24 <= gdtdesc /\ gdtdesc + 6 <= 0x7000 + size.
Hypothesis Hpg : KERNBASE + 1048576 <= pgdir /\ pgdir + 4096 <= kend.
Hypothesis Hfn : is_u32 mpenter /\ is_u32 next.
Hypothesis Hid : forall i, 0 <= apicid i < 256.
Hypothesis Hinj : forall i j, (i < ncpu)%nat -> (j < ncpu)%nat -> apicid i = apicid j -> i = j.

(** The code is in place, and the first directory. *)
Definition code_ready (m : mem) : Prop :=
  boot_gdt (phys m) gdt gdtdesc /\ pgdir_at (phys m) (V2P pgdir).

Lemma load_phys m a : load32 (phys m) a = load32 m (KERNBASE + a).
Proof. unfold load32, phys. by rewrite !Z.add_assoc. Qed.

Lemma V2P_pgdir : V2P pgdir = pgdir - KERNBASE.
Proof using Hend Hpg. unfold V2P, KERNBASE in *. apply u32_small. unfold is_u32. lia. Qed.

Lemma code_ready_ext m m' : code_ready m ->
  (forall x, KERNBASE + 0x7000 <= x < KERNBASE + 0x80000 -> m' x = m x) ->
  (forall x, pgdir <= x < pgdir + 4096 -> m' x = m x) -> code_ready m'.
Proof using Hend Hlab Hpg Hsize.
  intros [B P] H1 H2. pose proof V2P_pgdir as E. unfold KERNBASE in *. split.
  - apply (boot_gdt_ext (phys m)); [done|]. intros x Hx. unfold phys, KERNBASE. apply H1. lia.
  - intros i Hi. rewrite <- (P i Hi). apply load32_ext. intros x Hx. unfold phys, KERNBASE. apply H2. lia.
Qed.

Lemma lapicstartap_wf id addr m d : mem_wf m -> mem_wf (fst (lapicstartap lapic id addr m d)).
Proof. intros Hm. unfold lapicstartap, store16. cbn [fst]. by repeat apply store8_wf. Qed.

Hypothesis Hcpus : KERNBASE + 1048576 <= cpus /\ cpus + CPUSIZE * Z.of_nat ncpu <= kend.
Section stacks.
(** The free pages at the start, a stack for each processor among them, mapped
    by the first directory. *)
Variable L : list Z.
Hypothesis HL : NoDup L.
Hypothesis HLv : Forall (valid_page kend) L.
Hypothesis HLlow : Forall (fun p => p + PGSIZE <= KERNBASE + 4194304) L.
Hypothesis HLn : (rest ncpu <= length L)%nat.

(** Processor [i] entered the kernel on the stack at [p]. *)
Record ap_ok (c : cpu) (p : Z) : Prop := { ao_kernel : in_kernel c; ao_esp : esp (gp c) = p + KSTACKSIZE - 4 }.

(** The first [n] processors have been dealt with. *)
Record ap_inv (n : nat) (s : S) : Prop := {
  iv_kinv : kinv kend (ms_k s) (drop (rest n) L);
  iv_code : code_ready (kmemory (ms_k s));
  iv_up : forall j c, ms_up s j = Some c ->
    (j < n)%nat /\ j <> me /\ exists p, L !! rest j = Some p /\ ap_ok c p;
  iv_sent : forall j, (j < ncpu)%nat -> j <> me -> summoned s j -> (j < n)%nat;
  iv_words : forall j p, (j < n)%nat -> j <> me -> ms_up s j = None -> L !! rest j = Some p ->
    ap_words 0x7000 (phys (kmemory (ms_k s))) (p + KSTACKSIZE) mpenter (V2P pgdir);
  iv_rep : forall j, (j < ncpu)%nat -> j <> me -> started s j -> ms_up s j <> None
}.

Lemma stack_facts j p : L !! j = Some p -> valid_page kend p /\ p + 4096 <= KERNBASE + 4194304.
Proof using All.
  intros Hp. rewrite Forall_lookup in HLv, HLlow. split; [by apply (HLv j)|by apply (HLlow j)].
Qed.
Lemma free_valid n q : q ∈ drop (rest n) L -> valid_page kend q.
Proof using All. intros Hq. pose proof (Forall_drop _ (rest n) _ HLv) as HF. rewrite Forall_forall in HF. by apply HF. Qed.
Lemma stack_of_ok c j p : L !! j = Some p -> ap_ok c p -> stack_of c = p.
Proof using All.
  intros Hp [_ E]. destruct (stack_facts j p Hp) as [(Hm & _) _]. unfold stack_of. rewrite E.
  unfold KSTACKSIZE, PGSIZE in *. wrap_lia.
Qed.
Lemma stack_not_free j n p : (j < n)%nat -> j <> me -> L !! rest j = Some p -> p ∉ drop (rest n) L.
Proof using All.
  intros Hj Hm Hp. rewrite list_elem_of_lookup. intros [k Hk]. rewrite lookup_drop in Hk.
  pose proof (NoDup_lookup _ _ _ _ HL Hp Hk). pose proof (rest_lt j n Hj Hm). lia.
Qed.

(** What may change without harm to what has been set up. *)
Lemma ap_inv_memory n s m d : ap_inv n s -> (n <= ncpu)%nat -> mem_wf m -> l_ipis d = l_ipis (ms_d s) ->
  (forall x, x < KERNBASE + 1048576 -> m x = kmemory (ms_k s) x) ->
  (forall x, pgdir <= x < pgdir + 4096 -> m x = kmemory (ms_k s) x) ->
  (forall p x, p ∈ drop (rest n) L -> in_page p x -> m x = kmemory (ms_k s) x) ->
  (forall j, (j < ncpu)%nat -> ms_up s j = None -> load32 m (cpu_at j + CPU_STARTED) =
    load32 (kmemory (ms_k s)) (cpu_at j + CPU_STARTED)) ->
  ap_inv n (Msys (set_memory m (ms_k s)) d (ms_up s)).
Proof using All.
  intros [I1 I2 I3 I4 I5 I6] Hn Hw Hd M1 M2 M3 M4. constructor; cbn [ms_k ms_d ms_up kmemory set_memory].
  - eapply kinv_frame; [exact I1|done|done|]. intros q x Hq Hx. by apply (M3 q).
  - apply (code_ready_ext (kmemory (ms_k s))); [done| |done]. intros x Hx. apply M1. unfold KERNBASE in *. lia.
  - done.
  - intros j Hj Hm. unfold summoned. cbn [ms_d]. rewrite Hd. by apply I4.
  - intros j p Hj Hm Hu Hp. destruct (I5 j p Hj Hm Hu Hp) as [W1 W2 W3].
    constructor; [rewrite <- W1|rewrite <- W2|rewrite <- W3]; rewrite !load_phys; apply load32_ext; intros x Hx; apply M1;
      unfold KERNBASE in *; lia.
  - intros j Hj Hm Hs E. unfold started in Hs. cbn [ms_k kmemory set_memory] in Hs.
    rewrite M4 in Hs by done. by apply (I6 j Hj Hm Hs).
Qed.


(** What a step keeps. *)
Record ap_kept (n : nat) (s s' : S) : Prop := {
  ak_inv : ap_inv n s';
  ak_lock : use_lock (ms_k s') = use_lock (ms_k s);
  ak_started : forall j, (j < ncpu)%nat -> started s j -> started s' j;
  ak_up : forall j c, ms_up s j = Some c -> ms_up s' j = Some c
}.

(** A summoned processor finds its own stack, and writes only there. *)
Lemma ap_boot_own n s i c c' p : ap_inv n s -> (n <= ncpu)%nat -> (i < ncpu)%nat -> i <> me -> ms_up s i = None ->
  summoned s i -> memory c = phys (kmemory (ms_k s)) -> entryother 0x7000 start32 gdtdesc next c = Some c' ->
  L !! rest i = Some p ->
  ap_ok c' p /\ mem_wf (virt (memory c')) /\ (forall x, ~ in_page p x -> virt (memory c') x = kmemory (ms_k s) x).
Proof using All.
  intros I Hn Hi Hm Hu Hsm Hc He Hp. pose proof (kinv_wf _ _ _ (iv_kinv _ _ I)) as Hw.
  pose proof (iv_sent _ _ I i Hi Hm Hsm) as Hin.
  destruct (stack_facts _ p Hp) as [Vp Hlow]. pose proof Vp as (Hpm & Hpk & _).
  pose proof (iv_words _ _ I i p Hin Hm Hu Hp) as W. destruct (iv_code _ _ I) as [B P].
  pose proof V2P_pgdir as Ep. unfold PGSIZE in Hpm.
  destruct (entryother_enters 28672 start32 gdt gdtdesc next c (p + KSTACKSIZE) mpenter (V2P pgdir))
    as (c1 & E1 & [A1 A2 A3 A4 _ A6 A7]); rewrite ?Hc; try done; try (unfold KSTACKSIZE, KERNBASE in *; lia); [apply Hfn|].
  rewrite He in E1. injection E1 as <-. rewrite Hc in A6. split_and!.
  - constructor; [by constructor|lia].
  - intros x. apply A7. rewrite Hc. intros y. apply Hw.
  - intros x Hx. unfold virt. rewrite A6; [unfold phys; f_equal; lia|].
    unfold in_page, PGSIZE, KSTACKSIZE, KERNBASE in *. lia.
Qed.

Lemma ap_boot_kept n s i c c' : ap_inv n s -> (n <= ncpu)%nat -> (i < ncpu)%nat -> i <> me -> ms_up s i = None ->
  summoned s i -> memory c = phys (kmemory (ms_k s)) -> entryother 0x7000 start32 gdtdesc next c = Some c' ->
  ap_kept n s (Msys (set_memory (virt (memory c')) (ms_k s)) (ms_d s) (<[i := Some c']> (ms_up s))).
Proof using All.
  intros I Hn Hi Hm Hu Hsm Hc He. pose proof (iv_sent _ _ I i Hi Hm Hsm) as Hin.
  destruct (lookup_lt_is_Some_2 L (rest i)) as [p Hp]; [pose proof (rest_lt i ncpu Hi Hm); lia|].
  destruct (ap_boot_own n s i c c' p) as (Ok & Wf & O); try done.
  destruct (stack_facts _ p Hp) as [Vp _]. pose proof Vp as (_ & Hpk & _).
  assert (Ov : forall x, x < kend -> virt (memory c') x = kmemory (ms_k s) x).
  { intros x Hx. apply O. unfold in_page. lia. }
  assert (Oc : forall j, (j < ncpu)%nat -> load32 (virt (memory c')) (cpu_at j + CPU_STARTED) =
    load32 (kmemory (ms_k s)) (cpu_at j + CPU_STARTED)).
  { intros j Hj. apply load32_ext. intros x Hx. apply Ov. unfold cpu_at, CPU_STARTED, CPUSIZE in *. lia. }
  constructor; [|done| |].
  - destruct (ap_inv_memory n s (virt (memory c')) (ms_d s) I Hn Wf eq_refl) as [J1 J2 J3 J4 J5 J6].
    + intros x Hx. apply Ov. unfold KERNBASE in *. lia.
    + intros x Hx. apply Ov. lia.
    + intros q x Hq Hx. apply O. apply (valid_pages_disjoint kend q); [by apply (free_valid n)|done| |done].
      intros ->. by apply (stack_not_free i n p).
    + intros j Hj _. by apply Oc.
    + cbn [ms_k ms_d ms_up] in *. constructor; cbn [ms_k ms_d ms_up]; try done;
        [intros j c0|intros j q Hj Hjm|intros j Hj Hjm Hst]; (destruct (decide (i = j)) as [<-|Hne];
        [rewrite fn_lookup_insert|rewrite fn_lookup_insert_ne by done]); try done.
      * intros [= <-]. split_and!; [done|done|]. by exists p.
      * apply J3.
      * by apply J5.
      * by apply (J6 j).
  - intros j Hj Hst. unfold started in *. cbn [ms_k kmemory set_memory]. by rewrite Oc.
  - intros j c0 Hj. cbn [ms_up]. rewrite fn_lookup_insert_ne; [done|]. intros ->. by rewrite Hu in Hj.
Qed.

Lemma ap_run_kept n s i c m d : ap_inv n s -> (n <= ncpu)%nat -> ms_up s i = Some c ->
  (mem_wf (kmemory (ms_k s)) -> mem_wf m) -> (forall x, ~ ap_may i c x -> m x = kmemory (ms_k s) x) ->
  l_ipis d = l_ipis (ms_d s) -> (started s i -> load32 m (cpu_at i + CPU_STARTED) <> 0) ->
  ap_kept n s (Msys (set_memory m (ms_k s)) d (ms_up s)).
Proof using All.
  intros I Hn Hu Hw' Hx Hd Hst. pose proof (kinv_wf _ _ _ (iv_kinv _ _ I)) as Hw.
  destruct (iv_up _ _ I i c Hu) as (Hin & Hm & p & Hp & Ok).
  destruct (stack_facts _ p Hp) as [Vp Hlow]. pose proof Vp as (Hpm & Hpk & _). unfold ap_may in Hx.
  rewrite (stack_of_ok c (rest i) p Hp Ok) in Hx.
  assert (Oc : forall j, j <> i -> (j < ncpu)%nat -> load32 m (cpu_at j + CPU_STARTED) =
    load32 (kmemory (ms_k s)) (cpu_at j + CPU_STARTED)).
  { intros j Hj Hjn. apply load32_ext. intros x Hjx. apply Hx. intros [Hp'|(_ & _ & Hc)].
    - unfold in_page, cpu_at, CPU_STARTED, CPUSIZE in *. lia.
    - apply (Hc j); [done|]. unfold CPU_STARTED, CPUSIZE in *. lia. }
  constructor; [|done| |done].
  - apply ap_inv_memory; [done|done|by apply Hw'|done|..].
    + intros x Hx'. apply Hx. intros [Hp'|(Hp' & _)]; unfold in_page in *; lia.
    + intros x Hx'. apply Hx. intros [Hp'|(_ & Hp' & _)]; [|done]. unfold in_page in *. lia.
    + intros q x Hq Hqx. pose proof (free_valid n q Hq) as Vq. apply Hx. intros [Hp'|(Hp' & _)].
      * revert Hp'. apply (valid_pages_disjoint kend q); try done. intros ->. by apply (stack_not_free i n p).
      * destruct Vq as (_ & Vq & _). unfold in_page in *. lia.
    + intros j Hj Hju. apply Oc; [|done]. intros ->. by rewrite Hu in Hju.
  - intros j Hj Hs. unfold started. cbn [ms_k kmemory set_memory]. destruct (decide (j = i)) as [->|Hne]; [by apply Hst|].
    by rewrite Oc.
Qed.

(** The processors keep to themselves. *)
Lemma ap_steps_kept n s s' : (n <= ncpu)%nat -> rtc ap_step s s' -> ap_inv n s -> ap_kept n s s'.
Proof using All.
  intros Hn. induction 1 as [s|s s1 s' H1 _ IH]; intros I; [by constructor|].
  assert (K : ap_kept n s s1).
  { destruct H1 as [i c c' s Hi Hm Hu Hsm Hc He|i c m d s Hu Hw' Hx Hd Hst|i c s s1 Hu Hk].
    - by apply (ap_boot_kept n s i c c').
    - by apply (ap_run_kept n s i c).
    - destruct (iv_up _ _ I i c Hu) as (_ & _ & p & _ & Ok). destruct Hk. apply Ok. }
  destruct K as [K1 K2 K3 K4]. destruct (IH K1) as [Q1 Q2 Q3 Q4].
  constructor; [done|congruence| |]; intros; auto.
Qed.

(** After the words are written and the interrupts sent. *)
Lemma summon_ready i p s s' : ap_inv i s -> (i < ncpu)%nat -> i <> me ->
  (forall j, (j < i)%nat -> j <> me -> ms_up s j <> None) -> L !! rest i = Some p ->
  kinv kend (ms_k s') (drop (rest (Datatypes.S i)) L) -> ms_up s' = ms_up s ->
  (forall a, KERNBASE + 28672 <= a -> kmemory (ms_k s') a = kmemory (ms_k s) a) ->
  ap_words 28672 (phys (kmemory (ms_k s'))) (p + KSTACKSIZE) mpenter (V2P pgdir) ->
  l_ipis (ms_d s') = l_ipis (ms_d s) ++
    [(apicid i * 16777216, 50432); (apicid i * 16777216, 34048);
     (apicid i * 16777216, STARTUP + 7); (apicid i * 16777216, STARTUP + 7)] ->
  ap_inv (Datatypes.S i) s' /\ prepared i p s' /\ (forall j, started s j -> started s' j).
Proof using All.
  intros I Hi Hm Hup Hp Hk Eu O Aw Ei. destruct (stack_facts _ p Hp) as [Vp Hlow].
  pose proof Vp as (Vm & Vk & _). pose proof V2P_pgdir as E.
  assert (Off : ms_up s i = None).
  { destruct (ms_up s i) as [c|] eqn:Hc; [|done]. destruct (iv_up _ _ I i c Hc). lia. }
  assert (Hc : code_ready (kmemory (ms_k s'))).
  { apply (code_ready_ext (kmemory (ms_k s))); [apply I|..]; intros a Ha; apply O; unfold KERNBASE in *; lia. }
  assert (Hst : forall j, load32 (kmemory (ms_k s')) (cpu_at j + CPU_STARTED) = load32 (kmemory (ms_k s)) (cpu_at j + CPU_STARTED)).
  { intros j. apply load32_ext. intros x Hx. apply O. unfold cpu_at, CPU_STARTED, CPUSIZE in *. lia. }
  split_and!; [constructor| |].
  - done.
  - done.
  - intros j c Hj. rewrite Eu in Hj. destruct (iv_up _ _ I j c Hj) as (J1 & J2 & J3). split_and!; [lia|done|done].
  - intros j Hj Hjm. unfold summoned. rewrite Ei, elem_of_app. intros [Hs|Hs].
    + pose proof (iv_sent _ _ I j Hj Hjm Hs). lia.
    + assert (apicid j = apicid i) as Ea by (unfold STARTUP in Hs; set_unfold in Hs; naive_solver lia).
      rewrite (Hinj j i Hj Hi Ea). lia.
  - intros j q Hj Hjm Hu Hq. rewrite Eu in Hu. destruct (decide (j = i)) as [->|Hne]; [by simplify_eq|].
    destruct (Hup j); [lia|done|done].
  - intros j Hj Hjm Hs. unfold started in Hs. rewrite Hst in Hs. rewrite Eu. by apply (iv_rep _ _ I j).
  - constructor.
    + by rewrite Eu.
    + unfold summoned. rewrite Ei. set_solver.
    + done.
    + intros l Hl. rewrite (kinv_unique kend (ms_k s') l _ Hl Hk). apply (stack_not_free i); [lia|done|done].
    + intros j c Hj Es. rewrite Eu in Hj. destruct (iv_up _ _ I j c Hj) as (J1 & J2 & q & Hq & Ok).
      rewrite (stack_of_ok c (rest j) q Hq Ok) in Es. subst q.
      pose proof (NoDup_lookup _ _ _ _ HL Hp Hq). pose proof (rest_lt j i J1 J2). lia.
    + intros c Ec. destruct Hc as [B4 P4]. unfold KSTACKSIZE, PGSIZE, KERNBASE in *.
      apply (entryother_enters 28672 start32 gdt gdtdesc); rewrite ?Ec; try done; unfold KERNBASE; try lia. apply Hfn.
  - intros j. unfold started. by rewrite Hst.
Qed.

(** The three words and the warm reset vector are below the code. *)
Lemma start_one_wp i p s x (Q : Z -> ctx -> S -> Prop) : ap_inv i s -> (i < ncpu)%nat -> i <> me ->
  kmem_free x (ms_k s) -> (forall j, (j < i)%nat -> j <> me -> ms_up s j <> None) -> L !! rest i = Some p ->
  (forall s', ap_inv (Datatypes.S i) s' -> prepared i p s' -> use_lock (ms_k s') = use_lock (ms_k s) ->
     ms_up s' = ms_up s -> (forall j, started s j -> started s' j) -> Q p x s') ->
  wp (start_one i) x s Q.
Proof using All.
  intros I Hi Hm Hf Hup Hp HQ. pose proof V2P_pgdir as E. destruct (stack_facts _ p Hp) as [Vp Hlow].
  pose proof Vp as (_ & Vk & _). pose proof (iv_kinv _ _ I) as Hk. rewrite (drop_S _ p) in Hk by done.
  assert (Er : rest (Datatypes.S i) = Datatypes.S (rest i)) by (rewrite rest_S, decide_False by done; lia).
  unfold start_one. wp_step. apply wp_zoom.
  eapply wp_mono; [|by apply (kalloc_wp kend)]. intros r x' k (-> & Em & Eu & -> & Hk').
  unfold onk. repeat wp_step. change (V2P CODE) with 28672. change CODE with (2147483648 + 28672).
  cbn [ms_k ms_d ms_up kmemory set_memory]. rewrite Em.
  rewrite u32_small by (unfold is_u32, KSTACKSIZE, PGSIZE, KERNBASE in *; lia).
  set (m3 := store32 _ _ (V2P pgdir)).
  assert (W3 : mem_wf m3) by (do 3 apply store32_wf; apply (kinv_wf _ _ _ Hk)).
  pose proof (lapicstartap_wf (apicid i) 28672 m3 (ms_d s) W3) as W4.
  pose proof (lapicstartap_correct lapic (apicid i) 28672 m3 (ms_d s) (Hid i) ltac:(lia) ltac:(done)) as A.
  destruct (lapicstartap lapic (apicid i) 28672 m3 (ms_d s)) as [m4 d4]. destruct A as (L1 & _ & L2). cbn [fst] in W4.
  change (28672 / 4096) with 7 in L1. change WARM_RESET with (2147483648 + 1127) in L2.
  assert (O : forall a, 2147483648 + 28672 <= a -> m4 a = kmemory (ms_k s) a).
  { intros a Ha. rewrite L2 by lia. unfold m3. by rewrite !store32_out by lia. }
  assert (Aw : ap_words 28672 (phys m4) (p + KSTACKSIZE) mpenter (V2P pgdir)).
  { assert (Lw : forall a, 20000 <= a <= 28668 -> load32 (phys m4) a = load32 m3 (2147483648 + a)).
    { intros a Ha. rewrite load_phys. apply load32_ext. intros y Hy. apply L2. unfold KERNBASE in *. lia. }
    unfold m3 in Lw. unfold KSTACKSIZE, PGSIZE, KERNBASE, is_u32 in *.
    constructor; rewrite Lw by lia; load_simp; done. }
  set (s' := Msys _ _ _). destruct (summon_ready i p s s') as (J1 & J2 & J3); try done.
  - rewrite Er. eapply kinv_frame; [exact Hk'|done|done|]. intros q y Hq Hy. cbn [s' ms_k kmemory set_memory]. rewrite Em.
    apply O. assert (Vq : valid_page kend q) by (eapply Forall_forall; [apply (kinv_valid _ _ _ Hk')|done]).
    destruct Vq as (_ & Vq & _). unfold in_page, KERNBASE in *. lia.
  - by apply HQ.
Qed.

Lemma wait_started_wp fuel i n : forall k s x (Q : unit -> ctx -> S -> Prop), responsive fuel ->
  (k < n)%nat -> started (Nat.iter k world s) i -> ap_inv (Datatypes.S i) s -> (i < ncpu)%nat ->
  (forall s', ap_kept (Datatypes.S i) s s' -> started s' i -> Q tt x s') ->
  wp (wait_started n i) x s Q.
Proof using All.
  induction n as [|n IH]; intros k s x Q R Hk Hs Hi Hn HQ; [lia|]. cbn [wait_started]. wp_step. unfold onk. repeat wp_step.
  replace (Msys (ms_k s) (ms_d s) (ms_up s)) with s by by destruct s.
  destruct (Z.eqb_spec (load32 (kmemory (ms_k s)) (cpu_at i + CPU_STARTED)) 0) as [E|E].
  - repeat wp_step. destruct (ap_steps_kept (Datatypes.S i) s (world s)) as [K1 K2 K3 K4]; [lia|apply R|done|].
    destruct k as [|k]; [by destruct Hs|].
    apply (IH k); try done; [lia|by rewrite Nat.iter_succ_r in Hs|].
    intros s' [Q1 Q2 Q3 Q4] Q5. apply HQ; [|done]. constructor; [done|congruence| |]; intros; auto.
  - wp_step. apply HQ; [by constructor|done].
Qed.

Lemma startothers_loop_wp fuel n : forall i s x (Q : unit -> ctx -> S -> Prop), responsive fuel ->
  (i + n = ncpu)%nat -> ap_inv i s -> kmem_free x (ms_k s) ->
  (forall j, (j < i)%nat -> j <> me -> started s j) ->
  (forall s', ap_inv ncpu s' -> (forall j, (j < ncpu)%nat -> j <> me -> started s' j) -> Q tt x s') ->
  wp (startothers_loop fuel n i) x s Q.
Proof using All.
  induction n as [|n IH]; intros i s x Q R Hn I Hf Hst HQ; cbn [startothers_loop].
  - wp_step. assert (i = ncpu) as -> by lia. by apply HQ.
  - wp_step. destruct (Nat.eqb_spec i me) as [->|Hne].
    + wp_step. apply IH; try done; [lia| |].
      * rewrite Nat.add_1_r. destruct I as [I1 I2 I3 I4 I5 I6]. constructor; try done.
        -- by rewrite rest_S, decide_True, Nat.add_0_r.
        -- intros j c Hj. destruct (I3 j c Hj) as (J1 & J2 & J3). split_and!; [lia|done|done].
        -- intros j Hj Hm Hs. pose proof (I4 j Hj Hm Hs). lia.
        -- intros j p Hj Hm. apply I5; [lia|done].
      * intros j Hj Hm. apply Hst; [lia|done].
    + destruct (lookup_lt_is_Some_2 L (rest i)) as [p Hp]; [pose proof (rest_lt i ncpu ltac:(lia) Hne); lia|].
      wp_step. apply (start_one_wp i p); try done; [lia| |].
      { intros j Hj Hm. apply (iv_rep _ _ I j); [lia|done|by apply Hst]. }
      intros s1 I1 P1 U1 M1 T1. destruct (rs_start _ R i p s1 ltac:(lia) Hne P1) as (k & Hk1 & Hs1).
      apply (wait_started_wp fuel i fuel k); try done; [lia|]. intros s2 [K1 K2 K3 K4] Hs2.
      rewrite <- (Nat.add_1_r i) in K1. apply IH; try done; [lia| |].
      * destruct Hf as [Hf|Hf]; [left; congruence|by right].
      * intros j Hj Hm. destruct (decide (j = i)) as [->|Hji]; [done|]. apply K3; [lia|]. apply T1, Hst; [lia|done].
Qed.

(** No two processors have the same stack. *)
Lemma stacks_apart n s i j c c' : ap_inv n s -> i <> j -> ms_up s i = Some c -> ms_up s j = Some c' ->
  stack_of c <> stack_of c'.
Proof using All.
  intros I Hij Hi Hj. destruct (iv_up _ _ I i c Hi) as (_ & Hm & p & Hp & Ok).
  destruct (iv_up _ _ I j c' Hj) as (_ & Hm' & p' & Hp' & Ok').
  rewrite (stack_of_ok c _ p Hp Ok), (stack_of_ok c' _ p' Hp' Ok'). intros <-.
  pose proof (NoDup_lookup _ _ _ _ HL Hp Hp') as E.
  destruct (Nat.lt_gt_cases i j) as [Hlt _]. destruct (Hlt Hij) as [H1|H1].
  - pose proof (rest_lt i j H1 Hm). lia.
  - pose proof (rest_lt j i H1 Hm'). lia.
Qed.
End stacks.

(** C17: every processor is started, on a stack of its own.  Let the pages that
    [kalloc] hands out lie in the low 4 MB (which is why [kinit2] comes later)
    and suffice, let no other processor be summoned or started yet, and let
    the others run at any speed, as entryother.S and the kernel say, only so
    that one that is summoned with its code, its stack and its entry point in
    place reports itself in time.  Then [startothers] returns, all of them are
    started, and each has come to [mpenter] in protected mode, with paging on,
    at the top of a page that was free before and is no other's stack; the
    free pages are the others. *)
Theorem startothers_correct fuel l s x : responsive fuel -> kinv kend (ms_k s) l -> kmem_free x (ms_k s) ->
  boot_gdt (fun a => kmemory (ms_k s) (img + (a - 0x7000))) gdt gdtdesc ->
  pgdir_at (phys (kmemory (ms_k s))) (V2P pgdir) ->
  Forall (fun p => p + PGSIZE <= KERNBASE + 4194304) l -> (rest ncpu <= length l)%nat ->
  (forall i, ms_up s i = None) ->
  (forall i, (i < ncpu)%nat -> i <> me -> ~ summoned s i /\ ~ started s i) ->
  wp (startothers fuel) x s (fun _ x' s' => x' = x /\ kinv kend (ms_k s') (drop (rest ncpu) l) /\
    (forall i, (i < ncpu)%nat -> i <> me -> started s' i /\ exists c p, ms_up s' i = Some c /\
       l !! rest i = Some p /\ in_kernel c /\ esp (gp c) = p + KSTACKSIZE - 4) /\
    (forall i j c c', i <> j -> ms_up s' i = Some c -> ms_up s' j = Some c' -> stack_of c <> stack_of c')).
Proof using All.
  intros R Hk Hf Hg Hp Hl Hr Hu Hno. unfold startothers. wp_step. unfold onk. repeat wp_step. cbn [ms_k ms_d ms_up].
  pose proof (kinv_wf _ _ _ Hk) as Hw. pose proof (kinv_valid _ _ _ Hk) as Hv. pose proof (kinv_nodup _ _ _ Hk) as Hd.
  set (m := memmove _ _ _ _).
  assert (Em : forall a, m a = if in_range CODE size a then kmemory (ms_k s) (img + (a - CODE)) else kmemory (ms_k s) a)
    by (intros a; apply memmove_at; [done|lia]).
  assert (Eo : forall a, KERNBASE + 1048576 <= a -> m a = kmemory (ms_k s) a).
  { intros a Ha. rewrite Em. change CODE with (KERNBASE + 28672). unfold in_range. zcases. }
  apply (startothers_loop_wp l Hd Hv Hl Hr fuel ncpu 0); try done; [|lia|].
  - constructor; cbn [ms_k ms_d ms_up kmemory set_memory]; [| |by intros j c; rewrite Hu| |lia|].
    + cbn. eapply kinv_frame; [exact Hk|by apply memmove_wf; [lia|]|done|]. intros q y Hq Hy. apply Eo.
      assert (Vq : valid_page kend q) by (eapply Forall_forall; [apply (kinv_valid _ _ _ Hk)|done]).
      destruct Vq as (_ & Vq & _). unfold in_page in *. lia.
    + pose proof V2P_pgdir as Ep. split.
      * eapply boot_gdt_ext; [exact Hg|]. intros a Ha. unfold phys. rewrite Em. change CODE with (KERNBASE + 28672).
        unfold in_range. zcases. f_equal. lia.
      * intros i Hi. rewrite <- (Hp i Hi). apply load32_ext. intros a Ha. apply Eo. lia.
    + intros j Hj Hm Hs. destruct (Hno j Hj Hm) as [[] _]. exact Hs.
    + intros j Hj Hm Hs. destruct (Hno j Hj Hm) as [_ []]. unfold started in *. cbn [ms_k kmemory set_memory] in Hs.
      rewrite (load32_ext _ m); [done|]. intros y Hy. symmetry. apply Eo. unfold cpu_at, CPU_STARTED, CPUSIZE in *. lia.
  - intros s' I Hst. split_and!; [done|apply I| |].
    + intros i Hi Hm. split; [by apply Hst|]. destruct (ms_up s' i) as [c|] eqn:Ec.
      * destruct (iv_up _ _ _ I i c Ec) as (_ & _ & p & Lp & Ok). exists c, p. by destruct Ok.
      * by destruct (iv_rep _ _ _ I i Hi Hm (Hst i Hi Hm)).
    + intros i j c c'. by apply (stacks_apart l Hd Hv Hl Hr ncpu).
Qed.
End startothers.
End start.

(** ** The tables of each processor (main.c) *)

(** [mpmain] up to the scheduler, but for its message, on the processor whose
    [struct cpu] is at [at_]; [mpenter] brings the others there. *)
Definition switchkvm (kpgdir : Z) (c : cpu) : cpu := lcr3 (V2P kpgdir) c.
Definition mpmain (idt at_ : Z) (c : cpu) : cpu :=
  let c := idtinit idt c in
  set_mem (store32 (memory c) (at_ + CPU_STARTED) 1) c.
Definition mpenter {D} `{Mmio D} (lapic : Z) (fuel : nat) (kpgdir idt at_ : Z) (s : cpu * D) : option (cpu * D) :=
  let '(c, d) := s in
  let c := seginit at_ (switchkvm kpgdir c) in
  d ← lapicinit lapic fuel d;
  Some (mpmain idt at_ c, d).

(** A processor that has come through [mpenter] has the kernel's page table,
    its own segments, the table of handlers that the first processor filled
    and a running timer, and has reported itself; it has written nothing but
    its [struct cpu]. *)
Theorem mpenter_ready {D} `{Lapic D lapic} fuel kpgdir idt at_ h c0 c (d : D) : handlers h c0 ->
  idtr c0 = (idt, 2047) -> is_u32 idt ->
  (forall x, idt <= x < idt + 2048 -> memory c x = memory c0 x) ->
  0 <= at_ -> at_ + CPUSIZE <= 4294967296 -> at_ + CPUSIZE <= idt \/ idt + 2048 <= at_ ->
  lapic <> 0 -> (l_max_busy (D := D) (base := lapic) < fuel)%nat ->
  exists c' d', mpenter lapic fuel kpgdir idt at_ (c, d) = Some (c', d') /\
    segments at_ c' /\ handlers h c' /\ ctl c' CR3 = V2P kpgdir /\ load32 (memory c') (at_ + CPU_STARTED) = 1 /\
    (forall x, ~ at_ <= x < at_ + CPUSIZE -> memory c' x = memory c x) /\
    l_reg d' SVR = 319 /\ l_reg d' TIMER = PERIODIC + 32 /\ l_reg d' TPR = 0.
Proof.
  intros Hh Hi Ui Hm A0 A1 Hd Hl Hf. unfold mpenter, switchkvm.
  destruct (lapicinit_correct lapic fuel d Hl Hf) as (d' & -> & _ & L1 & L2 & _ & _ & _ & _ & _ & L3 & _).
  cbn [mbind option_bind]. eexists _, d'. split; [done|]. pose proof (seginit_segments at_ (lcr3 (V2P kpgdir) c) A0 A1) as S0.
  pose proof (seginit_out at_ (lcr3 (V2P kpgdir) c)) as O.
  assert (E3 : cr (seginit at_ (lcr3 (V2P kpgdir) c)) = cr (lcr3 (V2P kpgdir) c)) by done.
  generalize dependent (seginit at_ (lcr3 (V2P kpgdir) c)). intros c1 S0 O E3.
  unfold mpmain. cbv zeta. set (c2 := idtinit idt c1).
  assert (I2 : idtr c2 = (idt, 2047)) by (apply table_reg_spec; [done|lia]).
  assert (M2 : memory c2 = memory c1) by done.
  unfold CPUSIZE, CPU_STARTED, CPU_GDT in *. split_and!; [| | | | |exact L1|exact L2|exact L3].
  - destruct S0 as [G0 S1 S2 S3 S4].
    assert (Ed : forall sel, 0 <= sel < 48 -> desc (set_mem (store32 (memory c2) (at_ + 160) 1) c2) sel = desc c1 sel).
    { intros sel Hs. unfold desc. cbn [gdtr memory set_mem]. change (gdtr c2) with (gdtr c1). rewrite M2, G0. cbn [fst].
      unfold CPU_GDT. f_equal; apply load32_ext; intros x Hx; apply store32_out; wrap_lia. }
    constructor; [exact G0|..]; (rewrite Ed by by vm_compute); done.
  - constructor. intros n Hn. rewrite <- (hd_gate _ _ Hh n Hn). unfold gate_of. cbn [idtr memory set_mem].
    rewrite I2, Hi, M2. cbn [fst].
    f_equal; apply load32_ext; intros x Hx; rewrite store32_out, O by lia; apply Hm; lia.
  - unfold ctl. cbn [cr set_mem]. change (cr c2) with (cr c1). by rewrite E3.
  - by apply load32_store32.
  - intros x Hx. cbn [memory set_mem]. rewrite M2, store32_out, O by lia. done.
Qed.

(** ** Examples *)

#[local] Existing Instance ex_x86.

(** A controller that is busy for one look after each byte it takes. *)
Record kbc := KbcState { k_busy : bool; k_writes : list (Z * Z) }.
#[local] Instance kbc_ports : Ports kbc := {
  inb p k := if p =? 0x64 then ((if k_busy k then 2 else 0), KbcState false (k_writes k)) else (0, k);
  outb p v k := KbcState true (k_writes k ++ [(p, v)]);
  insl _ _ k := ([], k);
  outsl _ _ k := k
}.
#[local, refine] Instance kbc_ok : Kbc := {
  kbc_polls k := if k_busy k then 1%nat else 0%nat; kbc_max := 1%nat; kbc_writes := k_writes
}.
Proof.
  - intros [[] l]; cbn; lia.
  - by intros [[] l].
  - done.
Defined.

(** The boot sector at 0x7c00, with its table at 31900. *)
Definition ex_sector : mem := fun x =>
  if in_range 31900 30 x then nth (Z.to_nat (x - 31900)) (gdt_bytes ++ [23; 0; 156; 124; 0; 0]) 0 else 0.
Definition ex_bios : cpu :=
  Cpu (Regs 1 2 3 4 5 6 7 8) (Segs 0 9 9 9 9 9) (Ctls 16 0 0) 31744 530 (0, 0) (0, 0) 0 ex_sector.
Lemma bootasm_correct_witness :
  exists c' d', bootasm 2 31744 31800 31924 99 77 (ex_bios, KbcState true []) = Some (c', d') /\
    eip c' = 99 /\ k_writes d' = [(0x64, 0xd1); (0x60, 0xdf)].
Proof.
  destruct (bootasm_correct 2 31744 31800 31900 31924 99 77 ex_bios (KbcState true [])) as (c' & d' & E & W & _ & P & _);
    [cbn; lia|by constructor; vm_compute|lia..|by vm_compute|].
  by exists c', d'.
Defined.

(** A second processor with its [struct cpu] at 4096, behind one that filled
    the table at 8192. *)
Definition ex_first : cpu := idtinit 8192 (tvinit 8192 16384 (set_mem (fun _ => 1) ex_bios)).
Lemma mpenter_ready_witness :
  exists c' d', mpenter LAPIC_EX 1 (kpage 5) 8192 4096 (set_mem (memory ex_first) ex_bios, board0) = Some (c', d') /\
    load32 (memory c') 4256 = 1 /\ l_reg d' TIMER = PERIODIC + 32.
Proof.
  destruct (tvinit_handlers 8192 16384 ltac:(lia) ltac:(lia) (set_mem (fun _ => 1) ex_bios) ltac:(by intros x)) as [Hh _].
  destruct (tvinit_tables 8192 16384 (set_mem (fun _ => 1) ex_bios) ltac:(by vm_compute)) as [Hi _].
  fold ex_first in Hh, Hi. generalize dependent ex_first. intros c0 Hh Hi.
  destruct (mpenter_ready 1 (kpage 5) 8192 4096 _ c0 (set_mem (memory c0) ex_bios) board0 Hh Hi)
    as (c' & d' & E & _ & _ & _ & S & _ & _ & T & _);
    [by vm_compute|done|lia|by vm_compute|left; by vm_compute|done|cbn; lia|].
  by exists c', d'.
Defined.

(** A first directory at [a]. *)
Lemma pgdir_bytes m a : (forall x, a <= x < a + 4096 -> m x = if (x =? a) || (x =? a + 2048) then 131 else 0) ->
  pgdir_at m a.
Proof.
  intros Hm i Hi. unfold load32. rewrite !Hm by lia. unfold entrypgdir.
  change (Z.shiftr KERNBASE PDXSHIFT) with 512. change (Z.lor (Z.lor (Z.lor 0 PTE_P) PTE_W) PTE_PS) with 131.
  zcases.
Qed.
Definition ex_low : mem := fun x => if (x =? 1052672) || (x =? 1052672 + 2048) then 131 else 0.
Lemma entry_correct_witness :
  eip (run (entry 2148536320 2148600000 2148540000) (set_mem ex_low ex_bios)) = 2148540000 /\
  walk4m ex_low (V2P 2148536320) 2148540000 = Some 1056352.
Proof.
  destruct (entry_correct (set_mem ex_low ex_bios) 2148536320 2148600000 2148540000) as (_ & E & _ & _ & M & _ & W);
    [by apply pgdir_bytes|by vm_compute|by vm_compute|].
  split; [exact E|]. rewrite M in W. exact (W 2148540000 ltac:(by vm_compute)).
Defined.

(** Two processors; the kernel ends at [kpage 16], the image of entryother.S is
    at [kpage 1], the directory at [kpage 2], [cpus] at [kpage 3], and two
    pages are free. *)
Definition ex_ap_mem : mem := fun x =>
  if (x =? kpage 2) || (x =? kpage 2 + 2048) then 131
  else if in_range (kpage 1 + 8) 30 x then nth (Z.to_nat (x - (kpage 1 + 8))) (gdt_bytes ++ [23; 0; 8; 112; 0; 0]) 0
  else store32 (fun _ => 0) (kpage 17) (kpage 18) x.
Definition ex_ap : msys board := Msys (Kst ex_ap_mem 0 (kpage 17)) board0 (fun _ => None).
Definition ex_id (i : nat) : Z := Z.of_nat i mod 256.
(** The second processor runs entryother.S as soon as it is summoned, and
    reports itself at once. *)
Definition ex_report (s : msys board) : msys board :=
  Msys (set_memory (store32 (kmemory (ms_k s)) (kpage 3 + 176 + 160) 1) (ms_k s)) (ms_d s) (ms_up s).
Definition ex_world (s : msys board) : msys board :=
  match ms_up s 1%nat with
  | Some _ => ex_report s
  | None =>
      if bool_decide ((16777216, STARTUP + 7) ∈ l_ipis (ms_d s)) then
        match entryother 0x7000 28700 28704 77 (set_mem (phys (kmemory (ms_k s))) ex_bios) with
        | Some c' => ex_report (Msys (set_memory (virt (memory c')) (ms_k s)) (ms_d s) (<[1%nat := Some c']> (ms_up s)))
        | None => s
        end
      else s
  end.

Lemma ex_ap_kinv : kinv (kpage 16) (ms_k ex_ap) [kpage 17; kpage 18].
Proof.
  constructor; cbn [ms_k ex_ap kmemory].
  - intros x. unfold ex_ap_mem. destruct ((x =? kpage 2) || (x =? kpage 2 + 2048)); [by vm_compute|].
    destruct (in_range (kpage 1 + 8) 30 x); [|apply store32_wf, zero_wf].
    destruct (nth_in_or_default (Z.to_nat (x - (kpage 1 + 8))) (gdt_bytes ++ [23; 0; 8; 112; 0; 0]) 0) as [Hin| ->]; [|done].
    revert Hin. generalize (nth (Z.to_nat (x - (kpage 1 + 8))) (gdt_bytes ++ [23; 0; 8; 112; 0; 0]) 0). intros b Hin.
    assert (F : Forall is_u8 (gdt_bytes ++ [23; 0; 8; 112; 0; 0])) by (repeat constructor; by vm_compute).
    rewrite Forall_forall in F. apply F. by apply list_elem_of_In.
  - by vm_compute.
  - repeat constructor; done.
  - by_decide.
Qed.
Lemma ex_report_step s c : ms_up s 1%nat = Some c ->
  ap_step LAPIC_EX 28700 28704 77 (kpage 2) 99 (kpage 3) 2 0 ex_id (kpage 16) s (ex_report s).
Proof.
  intros Hu. apply (ap_run _ _ _ _ _ _ _ _ _ _ _ 1%nat c); [done|apply store32_wf| |done|].
  - intros x Hx. apply store32_out. intros Hr. apply Hx. right. unfold cpu_at, CPUSIZE, kpage, KERNBASE in *.
    split_and!; [lia|lia|lia|]. intros j Hj. destruct j as [|[|j]]; lia.
  - intros _. change (cpu_at (kpage 3) 1 + CPU_STARTED) with (kpage 3 + 176 + 160). by rewrite load32_store32.
Qed.
Lemma ex_responsive : responsive LAPIC_EX 28700 28704 77 (kpage 2) 99 (kpage 3) 2 0 ex_id ex_world (kpage 16) 3.
Proof.
  constructor.
  - intros s. unfold ex_world. destruct (ms_up s 1%nat) as [c|] eqn:Hu; [by eapply rtc_once, ex_report_step|].
    case_bool_decide as Hs; [|done]. destruct (entryother _ _ _ _ _) as [c'|] eqn:He; [|done].
    eapply rtc_l; [|eapply rtc_once, (ex_report_step _ c'); cbn [ms_up]; by rewrite fn_lookup_insert].
    by apply (ap_boot _ _ _ _ _ _ _ _ _ _ _ 1%nat (set_mem (phys (kmemory (ms_k s))) ex_bios) c'); [lia|lia|..].
  - intros i p s Hi Hm [P1 P2 P3 P4 P5 P6]. assert (i = 1%nat) as -> by lia. exists 1%nat. split; [lia|].
    unfold Nat.iter, nat_rect, ex_world. rewrite P1, bool_decide_true by exact P2.
    destruct (P6 (set_mem (phys (kmemory (ms_k s))) ex_bios) eq_refl) as (c' & -> & _).
    unfold started, ex_report. cbn [ms_k kmemory set_memory].
    change (cpu_at (kpage 3) 1 + CPU_STARTED) with (kpage 3 + 176 + 160). by rewrite load32_store32.
Qed.

Lemma startothers_correct_witness :
  wp (startothers LAPIC_EX (kpage 1) 64 (kpage 2) 99 (kpage 3) 2 0 ex_id ex_world 3) ctx0 ex_ap
    (fun _ _ s' => kinv (kpage 16) (ms_k s') [kpage 18] /\ started (kpage 3) s' 1 /\
       exists c, ms_up s' 1%nat = Some c /\ eip c = 99 /\ esp (gp c) = kpage 18 - 4).
Proof.
  eapply wp_mono; [|apply (startothers_correct LAPIC_EX (kpage 1) 64 28700 28680 28704 77 (kpage 2) 99 (kpage 3) 2 0
    ex_id ex_world (kpage 16)) with (l := [kpage 17; kpage 18])].
  - intros _ x' s' (_ & K & St & _). destruct (St 1%nat ltac:(lia) ltac:(lia)) as (S1 & c & p & Hu & Hp & Hk & He).
    split_and!; [exact K|exact S1|]. exists c. cbn in Hp. injection Hp as <-. split_and!; [done|apply Hk|exact He].
  - by vm_compute.
  - by vm_compute.
  - by vm_compute.
  - by vm_compute.
  - by vm_compute.
  - by vm_compute.
  - intros i. apply Z.mod_pos_bound. lia.
  - intros i j Hi Hj. destruct i as [|[|i]], j as [|[|j]]; try lia; by vm_compute.
  - by vm_compute.
  - apply ex_responsive.
  - apply ex_ap_kinv.
  - by left.
  - by constructor; vm_compute.
  - apply pgdir_bytes. change (V2P (kpage 2)) with (kpage 2 - KERNBASE). intros x Hx. unfold phys. cbn [ms_k ex_ap kmemory].
    unfold ex_ap_mem, kpage, KERNBASE, in_range, store32 in *. zcases.
  - repeat constructor; by vm_compute.
  - by vm_compute; lia.
  - done.
  - intros i Hi Hm. split; [unfold summoned; cbn; set_solver|]. assert (i = 1%nat) as -> by lia. by vm_compute.
Defined.
