(* ===== verification/ShRun.v ===== *)
(** * Running commands in the shell (sh.c)

    [runcmd] and the main loop of the shell as trees of system calls, and the
    programs they launch: for each [exec] that succeeds, its arguments and
    the table of open files it starts with.  The tables of a process and of
    its children follow [close], [open], [dup] and [pipe] with the lowest free
    descriptor, as the kernel allocates them.  The meaning of a command,
    [wires], says directly what each program is connected to. *)
From S2P Require Import Prelude CString Format User Sh Programs.

Definition sh_panic {A} (msg : list Z) : prog A := printf 2 (line "%s") [AStr msg];; Exit.

Definition fork1 : prog Z :=
  pid ← call fork;
  if pid =? -1 then sh_panic (bytes_of "fork") else Ret pid.

(** [b] is the line, cut into strings by [nulterminate]. *)
Fixpoint runcmd (b : list Z) (c : cmd) : prog unit :=
  match c with
  | EXEC argv =>
      match argv with
      | [] => Exit
      | (q, _) :: _ =>
          call (exec (string_at b q) ((fun r => string_at b r.1) <$> argv));;
          printf 2 (line "exec %s failed") [AStr (string_at b q)];;
          Exit
      end
  | REDIR c q _ mode fd =>
      call (close fd);;
      r ← call (open (string_at b q) mode);
      if r <? 0 then printf 2 (line "open %s failed") [AStr (string_at b q)];; Exit
      else runcmd b c;; Exit
  | LIST l r =>
      p ← fork1;
      (if p =? 0 then runcmd b l else Ret tt);;
      call wait;;
      runcmd b r;;
      Exit
  | PIPE l r =>
      '(e, (p0, p1)) ← call pipe;
      if e <? 0 then sh_panic (bytes_of "pipe")
      else
        p ← fork1;
        (if p =? 0 then
           call (close 1);; call (dup p1);; call (close p0);; call (close p1);; runcmd b l
         else Ret tt);;
        p ← fork1;
        (if p =? 0 then
           call (close 0);; call (dup p0);; call (close p0);; call (close p1);; runcmd b r
         else Ret tt);;
        call (close p0);;
        call (close p1);;
        call wait;;
        call wait;;
        Exit
  | BACK c =>
      p ← fork1;
      (if p =? 0 then runcmd b c else Ret tt);;
      Exit
  end.

(** [getcmd]: the line read, or nothing at the end of the input. *)
Definition getcmd (nbuf : nat) : prog (option (list Z)) :=
  printf 2 (bytes_of "$ ") [];;
  l ← gets nbuf;
  let s := upto_nul l in
  Ret (if decide (s = []) then None else Some s).

(** [runcmd(parsecmd(buf))]. *)
Definition run_line (s : list Z) : prog unit :=
  match parsecmd s with
  | Ok (t, b) _ _ => runcmd b t
  | Panic m =>
      match leftovers s with
      | Some rest => printf 2 (line "leftovers: %s") [AStr rest];; sh_panic (bytes_of m)
      | None => sh_panic (bytes_of m)
      end
  | _ => Loop
  end.

Fixpoint shell (fuel : nat) : prog unit :=
  l ← getcmd 100;
  match l with
  | None => Exit
  | Some s =>
      (if bool_decide (take 3 s = [99; 100; 32]) then
         let dir := drop 3 (removelast s) in
         r ← call (chdir dir);
         if r <? 0 then printf 2 (line "cannot cd %s") [AStr dir] else Ret tt
       else
         p ← fork1;
         (if p =? 0 then run_line s else Ret tt);;
         call wait;; Ret tt);;
      match fuel with O => Loop | S f => shell f end
  end.

(** Three descriptors are made sure to be open. *)
Fixpoint open_three (fuel : nat) : prog unit :=
  fd ← call (open console O_RDWR);
  if fd <? 0 then Ret tt
  else if 3 <=? fd then call (close fd);; Ret tt
  else match fuel with O => Loop | S f => open_three f end.

Definition sh_main (fuel : nat) : prog unit := open_three 3;; shell fuel.

(** * What is launched *)

Inductive obj := OFile (path : list Z) (mode : Z) | OPipeR (id : nat) | OPipeW (id : nat).

Record launch := Launch { largv : list (list Z); ltab : list (option obj) }.

(** A process: its open files, the number of pipes made so far in the
    system, and its standard input. *)
Record pst := Pst { ptab : list (option obj); npipes : nat; pin : list Z }.
Definition set_ptab (t : list (option obj)) (s : pst) : pst := Pst t (npipes s) (pin s).
Definition NOFILE : nat := 16.

Section launches.
(** Which files can be opened and which programs loaded. *)
Variable can_open : list Z -> Z -> bool.
Variable can_exec : list Z -> bool.

(** A new descriptor for an object, the lowest one that is free. *)
Definition new_fd (x : obj) (s : pst) : Z * pst :=
  let i := free_fd (ptab s) in
  if (i <? NOFILE)%nat then (Z.of_nat i, set_ptab (put_fd (ptab s) i x) s) else (-1, s).

Definition syscall {B} (e : sys B) (s : pst) : B * pst :=
  match e in sys B return B * pst with
  | fork => (1, s)
  | wait => (1, s)
  | pipe =>
      let '(p0, s1) := new_fd (OPipeR (npipes s)) s in
      let '(p1, s2) := new_fd (OPipeW (npipes s)) s1 in
      if (p0 <? 0) || (p1 <? 0) then ((-1, (0, 0)), s)
      else ((0, (p0, p1)), Pst (ptab s2) (S (npipes s)) (pin s))
  | write _ l => (Z.of_nat (length l), s)
  | read fd n =>
      match get_fd (ptab s) fd with
      | None => ((-1, []), s)
      | Some _ => let d := take (Z.to_nat n) (pin s) in
                  ((Z.of_nat (length d), d), Pst (ptab s) (npipes s) (drop (Z.to_nat n) (pin s)))
      end
  | close fd => match get_fd (ptab s) fd with
                | None => (-1, s) | Some _ => (0, set_ptab (del_fd (ptab s) fd) s) end
  | open path mode => if can_open path mode then new_fd (OFile path mode) s else (-1, s)
  | dup fd => match get_fd (ptab s) fd with None => (-1, s) | Some x => new_fd x s end
  | chdir _ => (0, s)
  | exec _ _ => (-1, s)
  | kill _ => (-1, s)
  | mknod _ _ _ => (-1, s)
  | unlink _ => (-1, s)
  | fstat _ => ((-1, UStat 0 0 0), s)
  | link _ _ => (-1, s)
  | mkdir _ => (-1, s)
  | sleep _ => (0, s)
  end.

(** The programs launched by a process and the processes it forks, and the
    number of pipes in the end.  A fork returns 0 in the child. *)
Fixpoint launches {A} (p : prog A) (s : pst) : list launch * nat :=
  match p with
  | Ret _ => ([], npipes s)
  | Exit => ([], npipes s)
  | Loop => ([], npipes s)
  | Call e k =>
      match e in sys B return (B -> prog A) -> (B -> pst -> list launch * nat) -> list launch * nat with
      | fork => fun _ go =>
          let '(l1, n1) := go 0 s in
          let '(l2, n2) := go 1 (Pst (ptab s) n1 (pin s)) in
          (l1 ++ l2, n2)
      | exec path argv => fun _ go =>
          if can_exec path then ([Launch argv (ptab s)], npipes s) else go (-1) s
      | e => fun _ go => let '(b, s') := syscall e s in go b s'
      end k (fun b s' => launches (k b) s')
  end.

(** ** The meaning of a command *)

(** [x], [y] and [z] are what descriptors 0, 1 and 2 are connected to. *)
Definition std (x y z : obj) : list (option obj) := [Some x; Some y; Some z] ++ replicate 13 None.

Fixpoint wires (b : list Z) (c : cmd) (x y z : obj) (n : nat) : list launch * nat :=
  match c with
  | EXEC argv =>
      match argv with
      | [] => ([], n)
      | (q, _) :: _ =>
          if can_exec (string_at b q) then ([Launch ((fun r => string_at b r.1) <$> argv) (std x y z)], n) else ([], n)
      end
  | REDIR c q _ mode fd =>
      let f := OFile (string_at b q) mode in
      if can_open (string_at b q) mode then
        if fd =? 0 then wires b c f y z n else wires b c x f z n
      else ([], n)
  | PIPE l r =>
      let '(l1, n1) := wires b l x (OPipeW n) z (S n) in
      let '(l2, n2) := wires b r (OPipeR n) y z n1 in (l1 ++ l2, n2)
  | LIST l r =>
      let '(l1, n1) := wires b l x y z n in
      let '(l2, n2) := wires b r x y z n1 in (l1 ++ l2, n2)
  | BACK c => wires b c x y z n
  end.

(** ** The proof *)

(** A program that does not return. *)
Fixpoint noret {A} (p : prog A) : Prop :=
  match p with
  | Ret _ => False
  | Exit => True
  | Loop => True
  | Call e k => forall b, noret (k b)
  end.

Lemma noret_bind {A B} (p : prog A) (f : A -> prog B) : (forall a, noret (f a)) -> noret (p ≫= f).
Proof. intros Hf. induction p as [a| | |C e k IH]; cbn; auto. Qed.

Lemma noret_panic {A} msg : noret (sh_panic (A := A) msg).
Proof. apply noret_bind. intros []. done. Qed.

Lemma runcmd_noret b c : noret (runcmd b c).
Proof.
  induction c as [argv|c IH q e m fd|l IHl r IHr|l IHl r IHr|c IH]; cbn [runcmd].
  - destruct argv as [|[q e] argv]; [done|]. apply noret_bind. intros. apply noret_bind. by intros.
  - apply noret_bind. intros _. apply noret_bind. intros r. case_match; by apply noret_bind.
  - apply noret_bind. intros [e [p0 p1]]. case_match; [apply noret_panic|]. repeat (apply noret_bind; intros ?). done.
  - repeat (apply noret_bind; intros ?). done.
  - repeat (apply noret_bind; intros ?). done.
Qed.

Lemma launches_noret {A B} (p : prog A) (f : A -> prog B) s : noret p -> launches (p ≫= f) s = launches p s.
Proof.
  revert s. induction p as [a| | |C e k IH]; intros s Hn; [done..|]. cbn in Hn.
  destruct e; cbn; [|repeat case_match; first [done|by apply IH]..].
  rewrite (IH 0) by auto. destruct (launches (k 0) s) as [l1 n1]. by rewrite (IH 1) by auto.
Qed.

Lemma launches_puts {A} fd l (f : unit -> prog A) s : launches (puts fd l ≫= f) s = launches (f tt) s.
Proof. induction l as [|c l IH]; [done|]. exact IH. Qed.

Lemma launches_printf {A} fd fmt args (f : unit -> prog A) s :
  launches (printf fd fmt args ≫= f) s = launches (f tt) s.
Proof. apply launches_puts. Qed.

Lemma exec_launches {A} path argv (k : Z -> prog A) s :
  launches (call (exec path argv) ≫= k) s =
  if can_exec path then ([Launch argv (ptab s)], npipes s) else launches (k (-1)) s.
Proof. done. Qed.

(** Only the standard input and output are redirected. *)
Fixpoint redirs_std (c : cmd) : Prop :=
  match c with
  | EXEC _ => True
  | REDIR c _ _ _ fd => (fd = 0 \/ fd = 1) /\ redirs_std c
  | PIPE l r => redirs_std l /\ redirs_std r
  | LIST l r => redirs_std l /\ redirs_std r
  | BACK c => redirs_std c
  end.

Lemma fork1_launches {A} (k : Z -> prog A) s :
  launches (fork1 ≫= k) s =
  let '(l1, n1) := launches (k 0) s in
  let '(l2, n2) := launches (k 1) (Pst (ptab s) n1 (pin s)) in (l1 ++ l2, n2).
Proof. done. Qed.

(** [close(fd)] and [open] connect the descriptor to the file. *)
Lemma redir_launches {A} fd path m (k : Z -> prog A) x y z n inp : fd = 0 \/ fd = 1 -> can_open path m = true ->
  launches (call (close fd);; r ← call (open path m); k r) (Pst (std x y z) n inp) =
  launches (k fd) (Pst (if fd =? 0 then std (OFile path m) y z else std x (OFile path m) z) n inp).
Proof. intros [-> | ->] Ho; cbn; by rewrite Ho. Qed.

Lemma redir_fails {A} fd path m (k : Z -> prog A) x y z n inp : can_open path m = false ->
  forall res, (forall t, launches (k (-1)) (Pst t n inp) = res) ->
  launches (call (close fd);; r ← call (open path m); k r) (Pst (std x y z) n inp) = res.
Proof.
  intros Ho res Hres. cbn -[get_fd std del_fd]. destruct (get_fd (std x y z) fd); cbn -[std del_fd]; rewrite Ho; apply Hres.
Qed.

(** The table between [pipe] and the ends of its processes. *)
Definition with_pipe (x y z : obj) (n : nat) : list (option obj) :=
  [Some x; Some y; Some z; Some (OPipeR n); Some (OPipeW n)] ++ replicate 11 None.

Lemma pipe_launches {A} (k : Z * (Z * Z) -> prog A) x y z n inp :
  launches (call pipe ≫= k) (Pst (std x y z) n inp) = launches (k (0, (3, 4))) (Pst (with_pipe x y z n) (S n) inp).
Proof. done. Qed.

Lemma pipe_left {A} (p : prog A) x y z n m inp :
  launches (call (close 1);; call (dup 4);; call (close 3);; call (close 4);; p) (Pst (with_pipe x y z n) m inp) =
  launches p (Pst (std x (OPipeW n) z) m inp).
Proof. done. Qed.

Lemma pipe_right {A} (p : prog A) x y z n m inp :
  launches (call (close 0);; call (dup 3);; call (close 3);; call (close 4);; p) (Pst (with_pipe x y z n) m inp) =
  launches p (Pst (std (OPipeR n) y z) m inp).
Proof. done. Qed.

Lemma pipe_parent {A} x y z n m inp :
  launches (A := A) (call (close 3);; call (close 4);; call wait;; call wait;; Exit) (Pst (with_pipe x y z n) m inp) = ([], m).
Proof. done. Qed.

(** A fork whose child runs a program that does not return. *)
Lemma fork_launches {A} (p : prog unit) (q : prog A) s : noret p ->
  launches (i ← fork1; (if i =? 0 then p else Ret tt);; q) s =
  let '(l1, n1) := launches p s in
  let '(l2, n2) := launches q (Pst (ptab s) n1 (pin s)) in (l1 ++ l2, n2).
Proof.
  intros Hp. rewrite fork1_launches. cbn [Z.eqb]. rewrite launches_noret by done.
  destruct (launches p s) as [l1 n1]. done.
Qed.

Lemma wait_launches {A} (k : Z -> prog A) s : launches (call wait ≫= k) s = launches (k 1) s.
Proof. done. Qed.

Lemma runcmd_launches b c x y z n inp : redirs_std c ->
  launches (runcmd b c) (Pst (std x y z) n inp) = wires b c x y z n.
Proof.
  revert x y z n. induction c as [argv|c IH q e m fd|l IHl r IHr|l IHl r IHr|c IH]; intros x y z n Hc;
    cbn [redirs_std] in Hc; cbn [runcmd wires].
  - destruct argv as [|[q e] argv]; [done|]. rewrite exec_launches.
    destruct (can_exec (string_at b q)); [done|]. by rewrite launches_printf.
  - destruct Hc as [Hfd Hc]. destruct (can_open (string_at b q) m) eqn:Ho.
    + rewrite redir_launches by done. destruct Hfd as [-> | ->]; cbn [Z.ltb Z.compare Z.eqb];
        rewrite launches_noret by apply runcmd_noret; by apply IH.
    + apply redir_fails; [done|]. intros t. cbn [Z.ltb Z.compare]. by rewrite launches_printf.
  - destruct Hc as [Hl Hr]. rewrite pipe_launches. cbn [Z.ltb Z.compare].
    rewrite fork_launches by (repeat (apply noret_bind; intros ?); apply runcmd_noret). rewrite pipe_left, IHl by done.
    destruct (wires b l x (OPipeW n) z (S n)) as [l1 n1]. cbn [ptab pin].
    rewrite fork_launches by (repeat (apply noret_bind; intros ?); apply runcmd_noret). rewrite pipe_right, IHr by done.
    destruct (wires b r (OPipeR n) y z n1) as [l2 n2]. cbn [ptab pin]. rewrite pipe_parent. by rewrite app_nil_r.
  - destruct Hc as [Hl Hr]. rewrite fork_launches by apply runcmd_noret. rewrite IHl by done.
    destruct (wires b l x y z n) as [l1 n1]. cbn [ptab pin].
    rewrite wait_launches, launches_noret by apply runcmd_noret. by rewrite IHr.
  - rewrite fork_launches by apply runcmd_noret. rewrite IH by done.
    destruct (wires b c x y z n) as [l1 n1]. cbn. by rewrite app_nil_r.
Qed.

(** ** The main loop *)

(** Trees that the parser makes redirect only descriptors 0 and 1. *)
Lemma redirs_grammar c ts t : Gredirs c ts t -> redirs_std c -> redirs_std t.
Proof.
  induction 1 as [c|c op m f q e ts t Hop _ IH]; [done|]. intros Hc. apply IH. split; [|done]. destruct Hop; auto.
Qed.

Lemma add_arg_std a c : redirs_std c -> redirs_std (add_arg a c).
Proof. induction c; cbn; try done. intros [H1 H2]. auto. Qed.

Lemma args_grammar n c ts t : Gargs n c ts t -> redirs_std c -> redirs_std t.
Proof.
  induction 1 as [n c|n c q e ts1 c1 ts2 c2 _ Hr _ IH]; [done|]. intros Hc. apply IH.
  by apply (redirs_grammar _ _ _ Hr), add_arg_std.
Qed.

Lemma iter_BACK_std n c : redirs_std c -> redirs_std (Nat.iter n BACK c).
Proof. intros Hc. by induction n. Qed.

Lemma grammar_std :
  (forall ts t, Gline ts t -> redirs_std t) /\ (forall ts t, Gpipe ts t -> redirs_std t) /\
  (forall ts t, Gexec ts t -> redirs_std t).
Proof.
  apply grammar_ind; try done.
  - intros. by apply iter_BACK_std.
  - intros. split; [by apply iter_BACK_std|done].
  - intros ts c ts' c' _ IH Hr. by apply (redirs_grammar _ _ _ Hr).
  - intros ts c ts' c' Hr Ha. apply (args_grammar _ _ _ _ Ha). by apply (redirs_grammar _ _ _ Hr).
Qed.

(** What a line launches. *)
Definition line_wires (s : list Z) (x y z : obj) (n : nat) : list launch * nat :=
  if bool_decide (take 3 s = [99; 100; 32]) then ([], n)
  else match parsecmd s with Ok (t, b) _ _ => wires b t x y z n | _ => ([], n) end.

Fixpoint session (ls : list (list Z)) (x y z : obj) (n : nat) : list launch * nat :=
  match ls with
  | [] => ([], n)
  | s :: ls' =>
      let '(l1, n1) := line_wires s x y z n in
      let '(l2, n2) := session ls' x y z n1 in (l1 ++ l2, n2)
  end.

Lemma run_line_launches s x y z n inp : 0 ∉ s ->
  launches (run_line s) (Pst (std x y z) n inp) =
  match parsecmd s with Ok (t, b) _ _ => wires b t x y z n | _ => ([], n) end.
Proof.
  intros Hs. unfold run_line. assert (HS := parse_tree_safe s Hs ctx0). unfold safe in HS. unfold parsecmd.
  destruct (parse_tree s ctx0 0%nat) as [t k i|m|ch k i|]; [| |done..].
  2: { destruct (leftovers s); unfold sh_panic; by rewrite ?launches_printf. }
  destruct HS as [_ HG]. apply runcmd_launches. by apply (proj1 grammar_std _ _ HG).
Qed.

Lemma run_line_noret s : noret (run_line s).
Proof. unfold run_line. destruct (parsecmd s) as [[t b] k i|m|ch k i|]; [apply runcmd_noret| |done..].
  destruct (leftovers s); [apply noret_bind; intros []|]; apply noret_panic.
Qed.

Lemma launches_assoc {A B C} (p : prog A) (f : A -> prog B) (g : B -> prog C) s :
  launches ((p ≫= f) ≫= g) s = launches (p ≫= (fun a => f a ≫= g)) s.
Proof.
  revert s. induction p as [a| | |D e k IH]; intros s; [done..|].
  destruct e; cbn; [|repeat case_match; first [done|by apply IH]..].
  rewrite (IH 0). destruct (launches (k 0 ≫= _) s) as [l1 n1]. by rewrite (IH 1).
Qed.

Lemma read_launches {A} (k : Z * list Z -> prog A) x y z n c rest :
  launches (Call (read 0 1) k) (Pst (std x y z) n (c :: rest)) = launches (k (1, [c])) (Pst (std x y z) n rest).
Proof. done. Qed.

Lemma call_bind {A B C} (e : sys A) (g : A -> prog B) (k : B -> prog C) : Call e g ≫= k = Call e (fun b => g b ≫= k).
Proof. done. Qed.

Lemma gets_launches {A} m acc l rest (k : list Z -> prog A) x y z n : 10 ∉ l -> 13 ∉ l -> (length l < m)%nat ->
  launches (gets_loop m acc ≫= k) (Pst (std x y z) n (l ++ 10 :: rest)) =
  launches (k (acc ++ l ++ [10])) (Pst (std x y z) n rest).
Proof.
  revert acc l. induction m as [|m IH]; intros acc l H10 H13 Hm; [lia|]. cbn [gets_loop]. rewrite call_bind.
  destruct l as [|c l]; cbn [app]; rewrite read_launches; [done|].
  apply not_elem_of_cons in H10 as [Hc1 H10]. apply not_elem_of_cons in H13 as [Hc2 H13].
  cbn [fst snd nth Z.ltb Z.compare Pos.compare Pos.compare_cont].
  destruct (Z.eqb_spec c 10); [done|]. destruct (Z.eqb_spec c 13); [done|]. cbn [orb].
  rewrite IH by (done || cbn in Hm; lia). by rewrite <- app_assoc.
Qed.

Lemma upto_nul_id l : 0 ∉ l -> upto_nul l = l.
Proof.
  induction l as [|c l IH]; intros H0; [done|]. apply not_elem_of_cons in H0 as [Hc H0]. cbn.
  destruct (Z.eqb_spec c 0); [congruence|]. by rewrite IH.
Qed.

(** A line that fits the buffer of the shell. *)
Definition ok_line (l : list Z) : Prop := 10 ∉ l /\ 13 ∉ l /\ 0 ∉ l /\ (length l < 99)%nat.
Definition typed (ls : list (list Z)) : list Z := concat ((fun l => l ++ [10]) <$> ls).

Lemma getcmd_launches {A} l rest (k : option (list Z) -> prog A) x y z n : ok_line l ->
  launches (getcmd 100 ≫= k) (Pst (std x y z) n (l ++ 10 :: rest)) =
  launches (k (Some (l ++ [10]))) (Pst (std x y z) n rest).
Proof.
  intros (H10 & H13 & H0 & Hlen). unfold getcmd. rewrite launches_assoc, launches_printf, launches_assoc.
  unfold gets. rewrite gets_launches by (done || lia). cbn [app].
  rewrite upto_nul_id by (rewrite not_elem_of_app, not_elem_of_cons; split_and!; [done|done|apply not_elem_of_nil]).
  rewrite decide_False by (by destruct l). done.
Qed.

Lemma getcmd_eof {A} (k : option (list Z) -> prog A) x y z n :
  launches (getcmd 100 ≫= k) (Pst (std x y z) n []) = launches (k None) (Pst (std x y z) n []).
Proof. unfold getcmd. rewrite launches_assoc, launches_printf, launches_assoc. done. Qed.

Lemma fork_launches_then {A B} (p : prog unit) (q : prog A) (k : A -> prog B) s : noret p ->
  launches ((i ← fork1; (if i =? 0 then p else Ret tt);; q) ≫= k) s =
  let '(l1, n1) := launches p s in
  let '(l2, n2) := launches (q ≫= k) (Pst (ptab s) n1 (pin s)) in (l1 ++ l2, n2).
Proof.
  intros Hp. rewrite launches_assoc, fork1_launches. cbn [Z.eqb]. rewrite launches_assoc, launches_noret by done.
  destruct (launches p s) as [l1 n1]. done.
Qed.

Lemma chdir_launches {A} d (k : Z -> prog A) s : launches (call (chdir d) ≫= k) s = launches (k 0) s.
Proof. done. Qed.

Lemma shell_launches ls : forall fuel x y z n, Forall ok_line ls -> (length ls <= fuel)%nat ->
  launches (shell fuel) (Pst (std x y z) n (typed ls)) = session ((fun l => l ++ [10]) <$> ls) x y z n.
Proof.
  induction ls as [|l ls IH]; intros fuel x y z n HF Hf.
  - destruct fuel; cbn [shell]; by rewrite getcmd_eof.
  - apply Forall_cons in HF as [Hl HF]. destruct fuel as [|fuel]; [cbn in Hf; lia|]. cbn in Hf.
    cbn [shell]. replace (typed (l :: ls)) with (l ++ 10 :: typed ls) by (unfold typed; cbn; by rewrite <- app_assoc).
    rewrite getcmd_launches by done. cbn [fmap list_fmap session]. unfold line_wires.
    destruct (bool_decide (take 3 (l ++ [10]) = [99; 100; 32])).
    + rewrite launches_assoc, chdir_launches. cbn [Z.ltb Z.compare mbind prog_bind]. rewrite IH by (done || lia).
      by destruct (session _ x y z n).
    + rewrite fork_launches_then by apply run_line_noret. destruct Hl as (_ & _ & H0 & _).
      rewrite run_line_launches
        by (rewrite not_elem_of_app, not_elem_of_cons; split_and!; [done|done|apply not_elem_of_nil]).
      destruct (match parsecmd (l ++ [10]) with Ok (t, b) _ _ => wires b t x y z n | _ => ([], n) end) as [l1 n1].
      cbn [ptab pin]. rewrite launches_assoc, wait_launches. cbn [mbind prog_bind]. rewrite IH by (done || lia). done.
Qed.

End launches.

Lemma open_launches can_open can_exec {A} path m (k : Z -> prog A) t n inp :
  can_open path m = true -> (free_fd t < NOFILE)%nat ->
  launches can_open can_exec (call (open path m) ≫= k) (Pst t n inp) =
  launches can_open can_exec (k (Z.of_nat (free_fd t))) (Pst (put_fd t (free_fd t) (OFile path m)) n inp).
Proof.
  intros Ho Hf. cbn -[NOFILE]. rewrite Ho. unfold new_fd. cbn [ptab].
  destruct (Nat.ltb_spec (free_fd t) NOFILE); [done|lia].
Qed.

Lemma call_fork_launches can_open can_exec {A} (k : Z -> prog A) s :
  launches can_open can_exec (call fork ≫= k) s =
  let '(l1, n1) := launches can_open can_exec (k 0) s in
  let '(l2, n2) := launches can_open can_exec (k 1) (Pst (ptab s) n1 (pin s)) in (l1 ++ l2, n2).
Proof. done. Qed.

Lemma init_wait_launches can_open can_exec {A} f (k : unit -> prog A) s :
  launches can_open can_exec (init_wait f 1 ≫= k) s = launches can_open can_exec (k tt) s.
Proof. destruct f; reflexivity. Qed.

(** The plumbing of the shell.  The processes that [runcmd] forks launch
    exactly the programs of the command; each starts with three open files,
    those of the shell except where a redirection or a pipe says otherwise,
    and no process keeps an end of a pipe that it does not use.  A program
    behind a redirection whose file cannot be opened is not started. *)
Theorem runcmd_correct can_open can_exec s x y z n inp : 0 ∉ s ->
  match parsecmd s with
  | Ok (t, b) _ _ => launches can_open can_exec (runcmd b t) (Pst (std x y z) n inp) = wires can_open can_exec b t x y z n
  | _ => True
  end.
Proof.
  intros Hs. assert (HS := parse_tree_safe s Hs ctx0). unfold safe in HS. unfold parsecmd.
  destruct (parse_tree s ctx0 0%nat) as [t k i|m|ch k i|]; [|done..].
  destruct HS as [_ HG]. apply runcmd_launches. by apply (proj1 grammar_std _ _ HG).
Qed.

(** C7: a session of the shell.  Started with its three files, it reads the
    lines typed and launches, line by line, the programs of each command; a
    line that does not parse and a change of directory launch nothing; at the
    end of the input the shell exits. *)
Theorem sh_correct can_open can_exec ls fuel x y z n : can_open console O_RDWR = true ->
  Forall ok_line ls -> (length ls <= fuel)%nat ->
  launches can_open can_exec (sh_main fuel) (Pst (std x y z) n (typed ls)) =
  session can_open can_exec ((fun l => l ++ [10]) <$> ls) x y z n.
Proof.
  intros Ho HF Hf. rewrite <- (shell_launches can_open can_exec ls fuel) by done.
  unfold sh_main. cbn [open_three]. rewrite launches_assoc, open_launches by (done || (unfold NOFILE; cbn; lia)). reflexivity.
Qed.

(** Init opens the console three times and starts the shell on it, again
    and again. *)
Theorem init_correct can_open can_exec fuel : can_open console O_RDWR = true -> can_exec sh_path = true ->
  let c := OFile console O_RDWR in
  launches can_open can_exec (init_main fuel) (Pst (replicate 16 None) 0 []) =
  (replicate (S fuel) (Launch [sh_path] (std c c c)), 0%nat).
Proof.
  intros Ho He c. assert (HL : forall fuel, launches can_open can_exec (init_loop fuel) (Pst (std c c c) 0 []) =
    (replicate (S fuel) (Launch [sh_path] (std c c c)), 0%nat)).
  { intros f. induction f as [|f IH]; cbn [init_loop]; rewrite launches_printf, call_fork_launches;
      cbn [Z.ltb Z.eqb Z.compare ptab pin]; rewrite exec_launches, He; cbn [ptab npipes]; [done|].
    rewrite init_wait_launches, IH. done. }
  rewrite <- HL. unfold init_main. rewrite open_launches by (done || (unfold NOFILE; cbn; lia)). reflexivity.
Qed.

(** ** Examples *)

Definition ex_all (_ : list Z) : bool := true.
Definition ex_con : obj := OFile console O_RDWR.

(** "ls>f|wc": the file, not the pipe, receives what [ls] prints. *)
Lemma runcmd_correct_witness : exists b k i, parsecmd ex_line = Ok (ex_tree, b) k i /\
  launches (fun _ _ => true) ex_all (runcmd b ex_tree) (Pst (std ex_con ex_con ex_con) 0 []) =
  ([Launch [[108; 115]] (std ex_con (OFile [102] 513) ex_con); Launch [[119; 99]] (std (OPipeR 0) ex_con ex_con)], 1%nat).
Proof.
  assert (exists b k i, parsecmd ex_line = Ok (ex_tree, b) k i /\ b = [108; 115; 0; 102; 0; 119; 99; 0]) as (b & k & i & E & Eb)
    by (do 3 eexists; vm_compute; split; reflexivity).
  exists b, k, i. split; [done|].
  pose proof (runcmd_correct (fun _ _ => true) ex_all ex_line ex_con ex_con ex_con 0 [] ltac:(by_decide)) as H.
  rewrite E in H. rewrite H, Eb. reflexivity.
Defined.

(** "cd d" and "wc" *)
Lemma sh_correct_witness :
  launches (fun _ _ => true) ex_all (sh_main 2) (Pst (std ex_con ex_con ex_con) 0 (typed [[99; 100; 32; 100]; [119; 99]])) =
  ([Launch [[119; 99]] (std ex_con ex_con ex_con)], 0%nat).
Proof.
  rewrite (sh_correct (fun _ _ => true) ex_all [[99; 100; 32; 100]; [119; 99]] 2 ex_con ex_con ex_con 0);
    [vm_compute; reflexivity|done| |cbn; lia].
  unfold ok_line. by_decide.
Defined.

Lemma init_correct_witness :
  launches (fun _ _ => true) ex_all (init_main 1) (Pst (replicate 16 None) 0 []) =
  (replicate 2 (Launch [sh_path] (std ex_con ex_con ex_con)), 0%nat).
Proof. apply (init_correct (fun _ _ => true) ex_all 1); reflexivity. Defined.
